(* ===== verification/_CoqProject ===== *)
-Q . S2P
Prelude.v
NfsTypes.v
Xdr.v
XdrScalars.v
Rdma.v
Attrs.v
Rpc.v
MultiIndex.v
Locking.v
FileManager.v
FileManagerProofs.v
FileManagerSpec.v
F64.v
RateLimiter.v
Export.v
ClientManager.v
ClientManagerSpec.v
StateFile.v
Request.v
Perm.v
Compound.v
CompoundSpec.v
Sessions.v
Handle.v
OpsState.v
OpsAttr.v
OpsFile.v
OpsDir.v
Ops41.v
Execute.v
OpsStatus.v
OpsContract.v
OpsSound.v
LockTable.v
ClientLiveness.v
FileLaws.v
FileSpec.v
DirSpec.v
Server.v
ServerSpec.v
Demo.v
ServerProps.v
ServerFiles.v
Interleave.v
WriteCache.v
WriteCacheDemo.v
KrbCrypto.v
KrbCryptoSpec.v
NFold.v
KrbToken.v
KrbKeytab.v
KrbAcceptor.v
KrbHandshake.v
KrbDemo.v
Gss.v
GssSpec.v
GssDemo.v
Startup.v
StartupSpec.v
Api.v
StartupDemo.v
Service.v
ServiceSpec.v
ServiceDemo.v
Process.v
ProcessDemo.v
NfsCodec.v
NfsReply.v
NfsWire.v
WireClient.v
Nfs3Client.v
Harness.v
WireSpec.v
WireServer.v
WireDemo.v
