(* ===== verification/Prelude.v ===== *)
(** * nextnfs: an NFSv4.0/4.1 server, modelled and verified

    This library models the core of the server (crates [nfs] and [proto]) and proves what
    makes it correct. The definitions are shallow translations of the Rust code: a record
    per struct, an inductive type per enum, a function per method, under the names of the
    source. They are executable, and every theorem with a hypothesis has a witness that
    runs it on a concrete input.

    ** How the program fits together

    A connection's task ([nfs/src/lib.rs], [handle_connection]) cuts the bytes it gets into
    RPC records and parses them into calls ([proto/src/lib.rs], [rpc_proto.rs], [xdr.rs],
    [nfs4_proto.rs], [utils.rs]). Calls under RPCSEC_GSS go through the acceptor
    ([gss.rs]), which keeps the contexts and their sequence windows on top of the Kerberos
    crate ([krb5/src/]). A call's COMPOUND goes through the dispatcher
    ([nfs/src/server/nfs40.rs]), which runs its operations one after
    the other on the state of the request ([request.rs]) behind guards: rate limit, grace
    period, security flavour, read-only export, permissions ([perm.rs]). Operations talk
    by messages to three kinds of actors, each a loop over its own state: the export table
    ([export_manager.rs]), one file manager per export ([filemanager/]) and the client
    manager ([clientmanager.rs]). An actor handles one message at a time, so its handler is
    a function from state and message to reply and state. Unstable WRITEs go to a fourth
    kind, a write cache per file ([filemanager/caching.rs]), which COMMIT waits for. Two
    tasks run beside the connections: the lease sweep, and the one that saves the clients
    to a file that the next start reads ([state_recovery.rs]). All of it is set up from the
    command line and the configuration file ([src/src/config.rs], [src/src/main.rs]), and
    exports and their limits can be changed by a REST interface ([src/src/api.rs]). The
    tests' own client ([nfstest/src/wire/]) speaks to the server over the wire with codecs
    of its own, driven by a harness ([nfstest/src/harness/]).

    ** Files

    - [Prelude]: machine integers ([wrap], [sat_add], [in_width]), results, bytes, list
      lemmas, and the tactics and hints the other files share.
    - [NfsTypes] ([nfs4_proto.rs]): the argument and result types of every operation.
    - [Xdr] ([xdr.rs]): the XDR encoding as codecs, a serializer and a reader with the law
      [CodecOk] that reading what was written, followed by anything, gives it back;
      combinators carry the law from parts to wholes. [XdrScalars] has the scalars that no
      protocol type uses.
    - [Attrs] ([utils.rs], [nfs4_proto.rs]): attribute bitmaps, attribute values and
      [Fattr4] in both directions.
    - [Rpc] ([lib.rs], [rpc_proto.rs]): record marking, call headers, credentials, replies.
    - [Rdma] ([rdma.rs]): the headers of RPC-over-RDMA, which nothing sends yet.
    - [MultiIndex]: the interface of the generated multi-index maps, a class with the laws
      the server relies on, and its implementation by lists.
    - [Locking] ([filemanager/locking.rs]): lock states and when two of them conflict.
    - [FileManager] ([filemanager/mod.rs], [filehandle.rs], [handle.rs]): the actor of an
      export, [handle_message] over the state record [FileManager], in a monad of state,
      outside world and panic. [FileManagerProofs] has its program logic ([triple]) and the
      invariant; [FileManagerSpec] the theorems.
    - [F64]: the doubles of the rate limiter, IEEE binary64 by the Standard Library's
      [SpecFloat], exact on whole numbers. [RateLimiter] ([export_manager.rs]): the token
      buckets and what they hold.
    - [Export] ([export_manager.rs]): quotas, client lists, squashing, the export table.
    - [ClientManager] ([clientmanager.rs], [state_recovery.rs]): client records, leases,
      recovery; its monad keeps the state of a handler that panics, because the actor
      catches panics and goes on. [ClientManagerSpec] has its theorems.
    - [StateFile] ([state_recovery.rs], [nfs/src/lib.rs]): the state file on a directory
      where a write can stop halfway, the task that saves it and the start that reads it.
    - [Request] ([request.rs], [op_pseudo.rs]), [Perm] ([perm.rs]), [Compound] ([nfs40.rs],
      [op_putfh.rs]): the request, the permission checks, the dispatcher with its
      filehandle operations. [CompoundSpec] has their theorems.
    - [Sessions] ([nfs41.rs]): the session table and its theorems.
    - [Handle] ([filemanager/handle.rs]): the client side of a file manager's channel, and
      [set_attr]; the calls a file manager answers are the class [Channels], the file
      descriptors of the operations the class [FileIo].
    - [OpsState], [OpsAttr], [OpsFile], [OpsDir], [Ops41] ([nfs40/op_*.rs]): the bodies of
      the operations, on locks and clients, on attributes, on contents, on directories, and
      those of NFSv4.1. [Execute] is the dispatch to them ([nfs40.rs]).
    - [OpsStatus]: what a result says of its operation's status, and with which statuses
      each operation ends without a result.
    - [OpsContract] and [OpsSound]: what the components promise to the operations (the class
      [Promises]) and that, given it, every operation, the dispatcher and the loop end
      without a panic, in order, with complete replies ([completes]).
    - [Server]: the composed server, one state with every component, and its steps, down
      to a single action of a running COMPOUND. [ServerSpec] shows that it keeps the
      promises; [ServerProps] what follows.
    - [Interleave]: COMPOUNDs among each other, action by action, with the operations of
      [Execute] on a world that others change between two actions.
    - [LockTable]: an abstract lock service and the proof that the file manager refines it.
    - [ClientLiveness]: silent clients are purged.
    - [FileLaws]: what files promise to the operations (the class [FileLaws]). [FileSpec]
      has the theorems about contents, [DirSpec] what the page of a listing is; [Demo] is a
      small disk that keeps the laws. [ServerFiles] has the theorem about READDIR's reply
      and runs them all on that disk.
    - [WriteCache] ([filemanager/caching.rs], [handle.rs]): the cache actors with their
      mailboxes, added to any outside world by instances of its classes, and what a commit
      promises. [WriteCacheDemo] runs the server with them.
    - [KrbCrypto] ([krb5/src/crypto.rs], [cts.rs]) and [NFold]: encryption types, key
      derivation, CBC with ciphertext stealing; [KrbCryptoSpec] has their theorems.
      [KrbToken] ([cfx.rs]): MIC and Wrap tokens. [KrbKeytab] ([keytab.rs]): keytab files.
      [KrbAcceptor] ([acceptor.rs], [token.rs], [initiator.rs]): accepting a context with
      the replay cache, and starting one. [KrbHandshake] has the theorems of both sides,
      [KrbDemo] a small DER and a run.
    - [Gss] ([gss.rs]): INIT, DATA and DESTROY, the sequence window, the protection of
      replies; [GssSpec] and [GssDemo] its theorems and a run.
    - [Service] ([nfs/src/server/mod.rs], [lib.rs]): the RPC service and the connections'
      tasks, a turn at a time over the shared servers, where a turn of a call is one action
      of its COMPOUND; [ServiceSpec] has their steps
      [net_step], runs [net_run] and theorems, [ServiceDemo] a run.
    - [Startup] ([config.rs], [main.rs], [lib.rs]): from settings to a server with its
      exports, or the way it gives up; [StartupSpec], [StartupDemo]. [Api] ([api.rs]): the
      handlers of the REST interface, with their theorem.
    - [Process]: the life of the program over its starts, saves and stops, on what they
      leave in the state directory; [ProcessDemo] is a restart.
    - [NfsCodec], [NfsReply] ([nfs4_proto.rs], [utils.rs]): the encodings of the COMPOUND's
      arguments and results, as serde derives them or as written by hand; [NfsWire] has
      their theorems.
    - [WireClient] ([nfstest/src/wire/]): the test client with its codec and the NFSv4.0
      and NFSv4.1 tests; [Nfs3Client] ([nfs3.rs]) the NFSv3 tests. [WireServer] is the
      server at the other end of its connection, [WireSpec] what each end makes of the
      other's bytes. [Harness] ([nfstest/src/harness/]): the registry, selection, runs and
      summaries. [WireDemo] runs the tests against the server.

    ** What the theorems show

    - Wire formats: encodings read back ([fattr4_roundtrip], which says how much of the
      attributes does, [bitmap_roundtrip],
      [from_bytes_call], [read_record_assembles], [compound_args_roundtrip]), decoding is
      total and safe on any bytes ([read_record_total], [attrvalues_from_bytes_sound]), raw
      results go out unchanged ([SuccessRaw_verbatim]), every result on the wire is its
      number and a status ([results_tell_status]), an RPC-over-RDMA header is told from any
      other bytes ([rdma_header_exact]); what the test client sends is what the
      server reads, and the reverse ([client_call_received], [client_reads_reply]).
    - The file manager: no reachable state panics on any message ([actor_never_panics]);
      it refines an abstract lock table ([lock_table_refined]); held byte-range locks are
      compatible ([locks_compatible]); LOCK, LOCKT, LOCKU, RELEASE_LOCKOWNER, CLOSE and
      delegations do exactly what they promise; ids and paths name one filehandle each;
      GETATTR answers truthfully.
    - The client manager: records stay one to one with clients, SETCLIENTID and its
      confirmation on every branch, the lease sweep exactly, leases honoured and silent
      clients purged ([lapsed_client_purged]), recovery from a snapshot, also across
      restarts that interrupt a save ([restart_recovers]).
    - The program: it starts exactly under the stated conditions and with the exports of its
      settings ([start_exact]); a request of the REST interface changes what it names and
      nothing else ([api_exact]); over any starts and stops, the state file is one that a
      start can read and a running process is made of sound parts ([restarts_safe]).
    - The test tool: a run accounts for every test it selects ([run_accounts]), and the
      server refuses every NFSv3 test at its first call ([nfs3_tests_refused]).
    - Sessions: filed under ids that name their clients ([session_table_separate]).
    - Exports: the table's indexes agree, ids are never reused, networks match by prefix,
      squashing leaves no root, quotas hold ([quota_never_exceeded]), and so do rate limits
      ([rate_limit_holds]).
    - The dispatcher: refused operations are never run, the mode check is POSIX's
      ([may_posix]), moving to another export is checked, replies have the promised shape.
    - The composed server: at every moment every component is in a state of its own
      executions ([server_components_ok]), so the theorems about single components hold in
      the server; COMPOUND answers every operation it runs, under its number and with its
      status, short of the statuses the code has no result for
      ([compound_results_typed]), and no operation panics once an export is selected
      ([operations_never_panic]).
    - Contents: what WRITE stored READ gives back ([write_exact], [read_exact]), a commit
      is a barrier for the writes of its cache, also for those that fail
      ([commit_is_barrier]), ALLOCATE and COPY, whose loops end ([write_loops_total]), and
      the pages of READDIR as its replies have them ([readdir_page]).
    - Kerberos and RPCSEC_GSS: encryption is authenticated and total ([encryption_exact]),
      tokens unwrap at the other side only ([wrap_unwrap]), the handshake ends with the same
      keys on both sides, whoever has logged in before ([handshake]), and a token accepted
      twice has outlived the replay cache ([accepted_once]); no
      sequence number lets a call through twice ([gss_no_replay]), only vouched-for calls go
      on ([proceed_authenticated]), replies open at the client ([reply_protects]).
    - Connections: however the actions of their COMPOUNDs interleave, both servers stay in
      their own executions and COMPOUNDs end with complete replies
      ([process_refines_parts]); each connection answers in order ([replies_in_order]).
    - Behaviour the code should not have, as theorems: fragments lost by the record decoder
      ([read_record_loses_fragments]), a client list of typos that admits everyone
      ([access_fails_open]), a wrong confirmation that drops a client
      ([confirm_wrong_token_drops_client]), handles of removed exports
      ([putfh_removed_export]), operations at the pseudo-root that panic
      ([pseudo_root_panics]), SETATTR of the size that appends ([setattr_size_appends]),
      COPY that ignores where to ([copy_appends]), session ids given out twice
      ([session_id_collides]), listings that end early ([readdir_small_limit]) or cannot be
      continued ([continued_listing_refused]), times that SETATTR loses
      ([set_time_stops_parse]), operation
      numbers read as positions ([operation_numbers]), write locks that two clients share
      ([wire_write_locks_shared]), a commit that another connection's writes escape
      ([commit_misses_other_cache]), a test client whose sessions are refused
      ([exchange_id_refused]).

    ** Conventions and bounds

    Integers are [Z] with their width written out where an operation can leave it; release
    builds wrap. A [HashMap] is a [gmap]; a generated multi-index map is [MultiIndex].
    Counters (lock stateids, client ids) are 64 bits and the theorems about reachable states
    assume that they have not all been given out. A task that panics takes no step in
    [net_run]; tokio ends that task alone.

    Tasks take turns at their awaits, and on other threads anywhere between two actions. An
    action is atomic: a message of an actor with its reply, one call that changes files, one
    access to a counter, a limiter or the session table under its lock. What a COMPOUND
    reads between two actions (a stat, a listing, the clock, a lookup in the export table) it
    reads at one moment, any between them, and others may act between that and its next
    action. Of a task that panics, the actions before the panic are among what else happens
    to the server ([net_elsewhere]). The theorems about a single operation's effect
    ([write_exact], [read_exact], [readdir_page]) and the tests over the wire ([call_alone])
    are about operations that run while no other does.

    Fuel bounds loops that are not structural. The record decoder and the test client's
    [read_record_from] take at least a fragment header of four bytes every round, so one
    more round than there are bytes is enough ([read_record_total]). ALLOCATE's loop writes
    a whole chunk every round but the last, COPY's at least a byte ([write_loops_total]).
    [parse_slots] takes a length of four bytes every round, [drop_oldest] a context,
    [dk_blocks] makes a block of the key; the carry of [n_fold] dies out within the
    rounds that [carry_loop] is given. [serve] in [WireServer] gives a connection ten turns;
    a record takes four, and then the connection waits.

    ** Interfaces

    Code outside the repository is a parameter with its documented laws: the [vfs] crate,
    [std::fs] and the clock ([Vfs], [FileIo], [FileLaws], [ClientWorld], [Actors],
    [Outside]), the multi-index maps ([MultiIndex]), the AES block cipher, HMAC and PBKDF2
    ([Primitives]), the DER codec ([Der]), serde's JSON, the parsing of the configuration
    file (toml), address parsing, the name service, [lchown]. The theorems about the dispatcher alone hold for every [execute], a trait in
    the code; those about the server are about the operations' own bodies.

    ** Not modelled

    Sockets, the TLS handshake and tokio's timers are I/O that the turns of [Service] take
    as inputs. HTTP routing, JSON and the pages of the web interfaces, the command-line
    client of the REST interface, logging, the printing of reports, the main program of the
    test tool, its load generator and the Kerberos interoperability test hold no state of
    the server. *)

From Stdlib Require Import ZArith Lia Strings.Byte.
From stdpp Require Import base numbers list gmap strings sorting.

#[global] Open Scope Z_scope.

(** ** Machine integers

    A [uN] of the source is a [Z] in [[0, 2^N)]; an operation that can leave the
    range says how: [wrap] (release-mode arithmetic and [wrapping_*]),
    [sat_add]/[sat_sub] ([saturating_*]). *)

Definition wrap (w z : Z) : Z := z mod 2 ^ w.

Definition umax (w : Z) : Z := 2 ^ w - 1.

Definition in_width (w z : Z) : Prop := 0 <= z < 2 ^ w.

Definition sat_add (w a b : Z) : Z := Z.min (a + b) (umax w).

Definition sat_sub (a b : Z) : Z := Z.max 0 (a - b).

#[global] Instance in_width_dec w z : Decision (in_width w z).
Proof. unfold in_width. apply _. Defined.

(** Whole seconds from one instant to a later one, in nanoseconds; none when the order
    is wrong ([duration_since] with its default). *)
Definition elapsed_secs (later earlier : Z) : Z := Z.max 0 (later - earlier) / 1000000000.

(** Side conditions on the width of a number, and a wrap that changes nothing. *)
Ltac solve_width := unfold in_width, umax in *; lia.

Lemma wrap_in_width w z : 0 <= w -> in_width w (wrap w z).
Proof. intros Hw. unfold in_width, wrap. apply Z.mod_pos_bound. lia. Qed.

Lemma wrap_small w z : in_width w z -> wrap w z = z.
Proof. apply Z.mod_small. Qed.

Ltac unwrap := rewrite wrap_small by solve_width.

Lemma sat_add_in_width w a b :
  0 <= w -> in_width w a -> in_width w b -> in_width w (sat_add w a b).
Proof. unfold in_width, sat_add, umax. lia. Qed.

Lemma sat_sub_in_width w a b :
  in_width w a -> 0 <= b -> in_width w (sat_sub a b).
Proof. unfold in_width, sat_sub. lia. Qed.

(** Results of machine arithmetic stay in range. *)
Create HintDb width.
#[export] Hint Resolve wrap_in_width sat_add_in_width sat_sub_in_width : width.
#[export] Hint Extern 1 (0 <= _) => lia : width.

(** [v & bit != 0], the source's flag test. *)
Definition has_bits (v bits : Z) : bool := negb (Z.eqb (Z.land v bits) 0).

(** ** Results

    [Result<T, E>] of the source; [try x := r in k] is the [?] operator. *)

Inductive result (A E : Type) : Type :=
| Ok (a : A)
| Err (e : E).
Arguments Ok {A E} a.
Arguments Err {A E} e.

#[global] Instance result_eq_dec {A E} `{EqDecision A, EqDecision E} : EqDecision (result A E).
Proof. solve_decision. Defined.

Definition result_bind {A B E} (r : result A E) (k : A -> result B E) : result B E :=
  match r with Ok a => k a | Err e => Err e end.

Declare Scope nfs_scope.
Delimit Scope nfs_scope with nfs.
Notation "'try' x ':=' r 'in' k" := (result_bind r (fun x => k))
  (at level 10, x binder, r at level 100, k at level 200) : nfs_scope.
#[global] Open Scope nfs_scope.

Definition is_ok {A E} (r : result A E) : bool :=
  match r with Ok _ => true | Err _ => false end.

Lemma Ok_inj {A E} (a b : A) : @Ok A E a = Ok b -> a = b.
Proof. by intros [=]. Qed.

Lemma result_bind_ok {A B E} (r : result A E) (k : A -> result B E) b :
  result_bind r k = Ok b <-> exists a, r = Ok a /\ k a = Ok b.
Proof.
  destruct r as [a|e]; simpl; split.
  - eauto.
  - intros (? & [= ->] & ?). done.
  - done.
  - intros (? & ? & ?). done.
Qed.

(** ** Bytes

    [[u8; N]] and [Vec<u8>] are [list byte]; [to_be_bytes] and [from_be_bytes]
    are [be_bytes] and [be_val]. *)

#[global] Instance byte_eq_dec : EqDecision byte := Byte.byte_eq_dec.

#[global] Program Instance byte_countable : Countable byte :=
  inj_countable Byte.to_N Byte.of_N _.
Next Obligation. intros b. apply Byte.of_to_N. Qed.

Definition byte_of_Z (z : Z) : byte := default x00 (Byte.of_N (Z.to_N (z mod 256))).

Definition Z_of_byte (b : byte) : Z := Z.of_N (Byte.to_N b).

Fixpoint be_bytes (n : nat) (z : Z) : list byte :=
  match n with
  | O => []
  | S n' => byte_of_Z (Z.shiftr z (8 * Z.of_nat n')) :: be_bytes n' z
  end.

Fixpoint be_val_from (acc : Z) (l : list byte) : Z :=
  match l with
  | [] => acc
  | b :: l' => be_val_from (acc * 256 + Z_of_byte b) l'
  end.

Definition be_val (l : list byte) : Z := be_val_from 0 l.

#[global] Arguments be_bytes : simpl never.
#[global] Arguments be_val : simpl never.

Lemma Z_of_byte_range b : 0 <= Z_of_byte b < 256.
Proof. unfold Z_of_byte. pose proof (Byte.to_N_bounded b). lia. Qed.

Lemma Z_of_byte_of_Z z : Z_of_byte (byte_of_Z z) = z mod 256.
Proof.
  unfold Z_of_byte, byte_of_Z.
  pose proof (Z.mod_pos_bound z 256 ltac:(lia)) as Hb.
  destruct (Byte.of_N (Z.to_N (z mod 256))) as [b|] eqn:E; simpl.
  - apply Byte.to_of_N in E. rewrite E. lia.
  - apply Byte.of_N_None_iff in E. lia.
Qed.

Lemma byte_of_Z_of_byte b : byte_of_Z (Z_of_byte b) = b.
Proof.
  unfold byte_of_Z. pose proof (Z_of_byte_range b) as Hb.
  rewrite Z.mod_small by done. unfold Z_of_byte.
  rewrite N2Z.id, Byte.of_to_N. done.
Qed.

Lemma length_be_bytes n z : length (be_bytes n z) = n.
Proof. induction n as [|n IH]; [done|]. change (S (length (be_bytes n z)) = S n). by rewrite IH. Qed.

Lemma be_val_from_acc l acc :
  be_val_from acc l = acc * 256 ^ Z.of_nat (length l) + be_val_from 0 l.
Proof.
  revert acc. induction l as [|b l IH]; intros acc; cbn [be_val_from length].
  - change (Z.of_nat 0) with 0. lia.
  - rewrite (IH (acc * 256 + Z_of_byte b)), (IH (0 * 256 + Z_of_byte b)).
    rewrite Nat2Z.inj_succ, Z.pow_succ_r by lia. ring.
Qed.

Lemma be_val_app l1 l2 :
  be_val (l1 ++ l2) = be_val l1 * 256 ^ Z.of_nat (length l2) + be_val l2.
Proof.
  unfold be_val. generalize 0 at 1 2 as acc. induction l1 as [|b l1 IH]; intros acc; simpl.
  - apply be_val_from_acc.
  - apply IH.
Qed.

Lemma be_val_cons b l :
  be_val (b :: l) = Z_of_byte b * 256 ^ Z.of_nat (length l) + be_val l.
Proof. apply (be_val_app [b] l). Qed.

Lemma be_val_range l : 0 <= be_val l < 256 ^ Z.of_nat (length l).
Proof.
  induction l as [|b l IH]; [vm_compute; split; [discriminate|reflexivity]|].
  rewrite be_val_cons. pose proof (Z_of_byte_range b).
  simpl length. rewrite Nat2Z.inj_succ, Z.pow_succ_r by lia. nia.
Qed.

Lemma be_val_be_bytes n z : be_val (be_bytes n z) = z mod 2 ^ (8 * Z.of_nat n).
Proof.
  induction n as [|n IH].
  - by rewrite Z.mod_1_r.
  - change (be_bytes (S n) z) with (byte_of_Z (Z.shiftr z (8 * Z.of_nat n)) :: be_bytes n z).
    rewrite be_val_cons, IH, length_be_bytes, Z_of_byte_of_Z, Z.shiftr_div_pow2 by lia.
    change 256 with (2 ^ 8). rewrite <- Z.pow_mul_r by lia.
    replace (2 ^ (8 * Z.of_nat (S n))) with (2 ^ (8 * Z.of_nat n) * 2 ^ 8)
      by (rewrite <- Z.pow_add_r by lia; f_equal; lia).
    rewrite Z.rem_mul_r by lia. lia.
Qed.

Lemma be_val_be_bytes_small n z :
  in_width (8 * Z.of_nat n) z -> be_val (be_bytes n z) = z.
Proof. intros H. rewrite be_val_be_bytes. by apply Z.mod_small. Qed.

Lemma be_val_inj l1 l2 : length l1 = length l2 -> be_val l1 = be_val l2 -> l1 = l2.
Proof.
  revert l2. induction l1 as [|b1 l1 IH]; intros [|b2 l2]; simpl; try done.
  intros [= Hl]. rewrite !be_val_cons, Hl, !(Z.mul_comm (Z_of_byte _)). intros Hv.
  pose proof (be_val_range l1). pose proof (be_val_range l2). rewrite Hl in *.
  apply (Z.div_mod_unique (256 ^ Z.of_nat (length l2))) in Hv as [Hb Hr]; [|tauto..].
  rewrite <- (byte_of_Z_of_byte b1), Hb, byte_of_Z_of_byte. f_equal. auto.
Qed.

Lemma be_bytes_be_val l : be_bytes (length l) (be_val l) = l.
Proof.
  apply be_val_inj; [apply length_be_bytes|].
  apply be_val_be_bytes_small. pose proof (be_val_range l) as H.
  unfold in_width. rewrite Z.pow_mul_r by lia. done.
Qed.

Lemma be_bytes_inj n z1 z2 :
  in_width (8 * Z.of_nat n) z1 -> in_width (8 * Z.of_nat n) z2 ->
  be_bytes n z1 = be_bytes n z2 -> z1 = z2.
Proof. intros H1 H2 E. apply (f_equal be_val) in E. by rewrite !be_val_be_bytes_small in E. Qed.

(** ** Lists *)

(** A strictly sorted list is determined by its elements. *)
Lemma strongly_sorted_ext {A} (R : relation A) `{!Transitive R} l1 l2 :
  (forall a, ~ R a a) ->
  StronglySorted R l1 -> StronglySorted R l2 -> (forall a, a ∈ l1 <-> a ∈ l2) -> l1 = l2.
Proof.
  intros Hirr. revert l2. induction l1 as [|a l1 IH]; intros [|b l2] H1 H2 Hext.
  - done.
  - exfalso. apply (not_elem_of_nil b), Hext. left.
  - exfalso. apply (not_elem_of_nil a), Hext. left.
  - apply StronglySorted_inv in H1 as [H1 Ha], H2 as [H2 Hb].
    rewrite Forall_forall in Ha, Hb.
    assert (a = b) as <-.
    { destruct (proj1 (elem_of_cons _ _ _) (proj1 (Hext a) ltac:(left))) as [|Hin]; [done|].
      destruct (proj1 (elem_of_cons _ _ _) (proj2 (Hext b) ltac:(left))) as [|Hin']; [done|].
      destruct (Hirr a). transitivity b; auto. }
    f_equal. apply IH; [done..|]. intros x. specialize (Hext x). rewrite !elem_of_cons in Hext.
    split; intros Hx; [destruct (proj1 Hext (or_intror Hx)) as [->|]
                      |destruct (proj2 Hext (or_intror Hx)) as [->|]]; try done;
      destruct (Hirr a); auto.
Qed.

Lemma strongly_sorted_omap {A B} (R : relation A) (S : relation B) (f : A -> option B) l :
  StronglySorted R l ->
  (forall x y a b, R x y -> f x = Some a -> f y = Some b -> S a b) ->
  StronglySorted S (omap f l).
Proof.
  intros Hl HS. induction Hl as [|x l Hl IH Hx]; simpl; [constructor|].
  destruct (f x) as [a|] eqn:E; [|done]. constructor; [done|].
  apply Forall_forall. intros b (y & Hy & Hb)%list_elem_of_omap.
  eapply HS; [exact (proj1 (Forall_forall _ _) Hx y Hy)|done..].
Qed.

Lemma strongly_sorted_map {A B} (R : relation A) (S : relation B) (f : A -> B) l :
  (forall x y, R x y -> S (f x) (f y)) -> StronglySorted R l -> StronglySorted S (map f l).
Proof.
  intros HS Hl. induction Hl as [|x l Hl IH Hx]; simpl; [constructor|]. constructor; [done|].
  apply Forall_map. eapply Forall_impl; [exact Hx|]. simpl. auto.
Qed.

Lemma strongly_sorted_seqZ m n : StronglySorted Z.lt (seqZ m n).
Proof.
  unfold seqZ. generalize 0%nat. induction (Z.to_nat n) as [|k IH]; intros j; simpl; constructor.
  - apply IH.
  - apply Forall_forall. intros x (i & -> & Hi)%list_elem_of_fmap.
    apply elem_of_seq in Hi. lia.
Qed.

Lemma filter_all {A} (Q : A -> Prop) `{forall x, Decision (Q x)} (l : list A) :
  (forall x, x ∈ l -> Q x) -> filter Q l = l.
Proof.
  induction l as [|x l IH]; intros HQ; [done|].
  rewrite filter_cons_True by (apply HQ; left). f_equal. apply IH. intros y Hy. apply HQ. by right.
Qed.

Lemma filter_none {A} (Q : A -> Prop) `{forall x, Decision (Q x)} (l : list A) :
  (forall x, x ∈ l -> ~ Q x) -> filter Q l = [].
Proof.
  induction l as [|x l IH]; intros HQ; [done|].
  rewrite filter_cons_False by (apply HQ; left). apply IH. intros y Hy. apply HQ. by right.
Qed.

(** ** Bits *)

Lemma testbit_add_pow2 v i n :
  0 <= i -> 0 <= n -> Z.testbit v i = false ->
  Z.testbit (v + 2 ^ i) n = Z.testbit v n || (n =? i).
Proof.
  intros Hi Hn Hb.
  rewrite Z.add_nocarry_lxor.
  - rewrite Z.lxor_spec, Z.pow2_bits_eqb by lia. destruct (Z.eqb_spec i n) as [->|Hne].
    + by rewrite Hb, Z.eqb_refl.
    + rewrite (proj2 (Z.eqb_neq n i)) by lia. by destruct (Z.testbit v n).
  - apply Z.bits_inj'. intros m Hm. rewrite Z.land_spec, Z.pow2_bits_eqb, Z.bits_0 by lia.
    destruct (Z.eqb_spec i m) as [->|]; [by rewrite Hb|by rewrite andb_false_r].
Qed.

Lemma set_bit_in_width w v i :
  0 <= i < w -> in_width w v -> Z.testbit v i = false -> in_width w (v + 2 ^ i).
Proof.
  unfold in_width. intros Hi Hv Hb.
  assert (Hlor : v + 2 ^ i = Z.lor v (2 ^ i)).
  { apply Z.bits_inj'. intros n Hn. rewrite testbit_add_pow2, Z.lor_spec, Z.pow2_bits_eqb by (done || lia).
    by rewrite Z.eqb_sym. }
  pose proof (Z.pow_pos_nonneg 2 i ltac:(lia) ltac:(lia)). split; [lia|].
  rewrite Hlor. destruct (Z.eq_dec (Z.lor v (2 ^ i)) 0) as [->|Hnz]; [lia|].
  apply Z.log2_lt_pow2; [lia|]. rewrite Z.log2_lor, Z.log2_pow2 by lia.
  apply Z.max_lub_lt; [|lia]. destruct (Z.eq_dec v 0) as [->|]; [simpl; lia|].
  apply Z.log2_lt_pow2; lia.
Qed.
