(* ===== verification/NfsTypes.v ===== *)
(** * The protocol data model

    The structures and enumerations of [proto/src/nfs4_proto.rs]: a Record per
    [struct] (fields prefixed with the structure's name), an Inductive per [enum]
    (constructors prefixed with the enumeration's name where two enumerations share
    one). [uN] is [Z], [[u8; N]] and [Vec<u8>] are [list byte], [String] (UTF-8
    bytes) is [string], [Attrlist4<T>] is [list T]. The explicit discriminants are
    the [_to_u32]/[_from_u32] functions ([ToPrimitive]/[FromPrimitive]). *)

From S2P Require Import Prelude.
From stdpp Require Import base list strings numbers countable.
From Stdlib Require Import Strings.Byte ZArith Lia.
#[local] Open Scope Z_scope.

Inductive NfsFtype4 : Type :=
| Nf4Undef
| Nf4reg
| Nf4dir
| Nf4blk
| Nf4chr
| Nf4lnk
| Nf4sock
| Nf4fifo
| Nf4attrdir
| Nf4namedattr.

Inductive NfsStat4 : Type :=
| Nfs4Ok
| Nfs4errPerm
| Nfs4errNoent
| Nfs4errIo
| Nfs4errNxio
| Nfs4errAccess
| Nfs4errExist
| Nfs4errXdev
| Nfs4errNotdir
| Nfs4errIsdir
| Nfs4errInval
| Nfs4errFbig
| Nfs4errNospc
| Nfs4errRofs
| Nfs4errMlink
| Nfs4errNametoolong
| Nfs4errNotempty
| Nfs4errDquot
| Nfs4errStale
| Nfs4errBadhandle
| Nfs4errBadCookie
| Nfs4errNotsupp
| Nfs4errToosmall
| Nfs4errServerfault
| Nfs4errBadtype
| Nfs4errDelay
| Nfs4errSame
| Nfs4errDenied
| Nfs4errExpired
| Nfs4errLocked
| Nfs4errGrace
| Nfs4errFhexpired
| Nfs4errShareDenied
| Nfs4errWrongsec
| Nfs4errClidInuse
| Nfs4errResource
| Nfs4errMoved
| Nfs4errNofilehandle
| Nfs4errMinorVersMismatch
| Nfs4errStaleClientid
| Nfs4errStaleStateid
| Nfs4errOldStateid
| Nfs4errBadStateid
| Nfs4errBadSeqid
| Nfs4errNotSame
| Nfs4errLockRange
| Nfs4errSymlink
| Nfs4errRestorefh
| Nfs4errLeaseMoved
| Nfs4errAttrnotsupp
| Nfs4errNoGrace
| Nfs4errReclaimBad
| Nfs4errReclaimConflict
| Nfs4errBadxdr
| Nfs4errLocksHeld
| Nfs4errOpenmode
| Nfs4errBadOwner
| Nfs4errBadchar
| Nfs4errBadname
| Nfs4errBadRange
| Nfs4errLockNotsupp
| Nfs4errOpIllegal
| Nfs4errDeadlock
| Nfs4errFileOpen
| Nfs4errAdminRevoked
| Nfs4errCbPathDown
| Nfs4errBadIomode
| Nfs4errBadLayout
| Nfs4errBadSession
| Nfs4errBadSlot
| Nfs4errConnNotBoundToSession
| Nfs4errLayoutTrylater
| Nfs4errLayoutUnavailable
| Nfs4errNomatchingLayout
| Nfs4errRecallconflict
| Nfs4errUnknownLayouttype
| Nfs4errSeqMisordered
| Nfs4errOpNotInSession
| Nfs4errSeqFalseRetry.

Record Nfstime4 : Type := MkNfstime4 {
  nfstime4_seconds : Z;
  nfstime4_nseconds : Z
}.

Record Fsid4 : Type := MkFsid4 {
  fsid4_major : Z;
  fsid4_minor : Z
}.

Record FsLocation4 : Type := MkFsLocation4 {
  fsLocation4_server : list string;
  fsLocation4_rootpath : list string
}.

Record FsLocations4 : Type := MkFsLocations4 {
  fsLocations4_fs_root : list string;
  fsLocations4_locations : list FsLocation4
}.

Record Nfsace4 : Type := MkNfsace4 {
  nfsace4_acetype : Z;
  nfsace4_flag : Z;
  nfsace4_access_mask : Z;
  nfsace4_who : string
}.

Record Specdata4 : Type := MkSpecdata4 {
  specdata4_specdata1 : Z;
  specdata4_specdata2 : Z
}.

Inductive FileAttr : Type :=
| FileAttr_SupportedAttrs
| FileAttr_Type
| FileAttr_FhExpireType
| FileAttr_Change
| FileAttr_Size
| FileAttr_LinkSupport
| FileAttr_SymlinkSupport
| FileAttr_NamedAttr
| FileAttr_Fsid
| FileAttr_UniqueHandles
| FileAttr_LeaseTime
| FileAttr_RdattrError
| FileAttr_Acl
| FileAttr_AclSupport
| FileAttr_Archive
| FileAttr_Cansettime
| FileAttr_CaseInsensitive
| FileAttr_CasePreserving
| FileAttr_ChownRestricted
| FileAttr_Filehandle
| FileAttr_Fileid
| FileAttr_FilesAvail
| FileAttr_FilesFree
| FileAttr_FilesTotal
| FileAttr_FsLocations
| FileAttr_Hidden
| FileAttr_Homogeneous
| FileAttr_Maxfilesize
| FileAttr_Maxlink
| FileAttr_Maxname
| FileAttr_Maxread
| FileAttr_Maxwrite
| FileAttr_Mimetype
| FileAttr_Mode
| FileAttr_NoTrunc
| FileAttr_Numlinks
| FileAttr_Owner
| FileAttr_OwnerGroup
| FileAttr_QuotaAvailHard
| FileAttr_QuotaAvailSoft
| FileAttr_QuotaUsed
| FileAttr_Rawdev
| FileAttr_SpaceAvail
| FileAttr_SpaceFree
| FileAttr_SpaceTotal
| FileAttr_SpaceUsed
| FileAttr_System
| FileAttr_TimeAccess
| FileAttr_TimeAccessSet
| FileAttr_TimeBackup
| FileAttr_TimeCreate
| FileAttr_TimeDelta
| FileAttr_TimeMetadata
| FileAttr_TimeModify
| FileAttr_TimeModifySet
| FileAttr_MountedOnFileid.

Inductive FileAttrValue : Type :=
| FileAttrValue_SupportedAttrs (a : list FileAttr)
| FileAttrValue_Type (a : NfsFtype4)
| FileAttrValue_FhExpireType (a : Z)
| FileAttrValue_Change (a : Z)
| FileAttrValue_Size (a : Z)
| FileAttrValue_LinkSupport (a : bool)
| FileAttrValue_SymlinkSupport (a : bool)
| FileAttrValue_NamedAttr (a : bool)
| FileAttrValue_Fsid (a : Fsid4)
| FileAttrValue_UniqueHandles (a : bool)
| FileAttrValue_LeaseTime (a : Z)
| FileAttrValue_RdattrError (a : NfsStat4)
| FileAttrValue_Acl (a : list Nfsace4)
| FileAttrValue_AclSupport (a : Z)
| FileAttrValue_Archive
| FileAttrValue_Cansettime (a : bool)
| FileAttrValue_CaseInsensitive (a : bool)
| FileAttrValue_CasePreserving (a : bool)
| FileAttrValue_ChownRestricted (a : bool)
| FileAttrValue_Filehandle (a : list byte)
| FileAttrValue_Fileid (a : Z)
| FileAttrValue_FilesAvail (a : Z)
| FileAttrValue_FilesFree (a : Z)
| FileAttrValue_FilesTotal (a : Z)
| FileAttrValue_FsLocations (a : FsLocations4)
| FileAttrValue_Hidden
| FileAttrValue_Homogeneous (a : bool)
| FileAttrValue_Maxfilesize (a : Z)
| FileAttrValue_Maxlink (a : Z)
| FileAttrValue_Maxname (a : Z)
| FileAttrValue_Maxread (a : Z)
| FileAttrValue_Maxwrite (a : Z)
| FileAttrValue_Mimetype (a : string)
| FileAttrValue_Mode (a : Z)
| FileAttrValue_NoTrunc (a : bool)
| FileAttrValue_Numlinks (a : Z)
| FileAttrValue_Owner (a : string)
| FileAttrValue_OwnerGroup (a : string)
| FileAttrValue_QuotaAvailHard (a : Z)
| FileAttrValue_QuotaAvailSoft (a : Z)
| FileAttrValue_QuotaUsed (a : Z)
| FileAttrValue_Rawdev
| FileAttrValue_SpaceAvail (a : Z)
| FileAttrValue_SpaceFree (a : Z)
| FileAttrValue_SpaceTotal (a : Z)
| FileAttrValue_SpaceUsed (a : Z)
| FileAttrValue_System
| FileAttrValue_TimeAccess (a : Nfstime4)
| FileAttrValue_TimeAccessSet
| FileAttrValue_TimeBackup
| FileAttrValue_TimeCreate (a : Nfstime4)
| FileAttrValue_TimeDelta (a : Nfstime4)
| FileAttrValue_TimeMetadata (a : Nfstime4)
| FileAttrValue_TimeModify (a : Nfstime4)
| FileAttrValue_TimeModifySet
| FileAttrValue_MountedOnFileid (a : Z).

Record Fattr4 : Type := MkFattr4 {
  fattr4_attrmask : list FileAttr;
  fattr4_attr_vals : list FileAttrValue
}.

Record ChangeInfo4 : Type := MkChangeInfo4 {
  changeInfo4_atomic : bool;
  changeInfo4_before : Z;
  changeInfo4_after : Z
}.

Record ClientAddr4 : Type := MkClientAddr4 {
  clientAddr4_rnetid : string;
  clientAddr4_raddr : string
}.

Record CbClient4 : Type := MkCbClient4 {
  cbClient4_cb_program : Z;
  cbClient4_cb_location : ClientAddr4
}.

Record Stateid4 : Type := MkStateid4 {
  stateid4_seqid : Z;
  stateid4_other : list byte
}.

Record NfsClientId4 : Type := MkNfsClientId4 {
  nfsClientId4_verifier : list byte;
  nfsClientId4_id : string
}.

Record OpenOwner4 : Type := MkOpenOwner4 {
  openOwner4_clientid : Z;
  openOwner4_owner : list byte
}.

Record LockOwner4 : Type := MkLockOwner4 {
  lockOwner4_clientid : Z;
  lockOwner4_owner : list byte
}.

Inductive NfsLockType4 : Type :=
| ReadLt
| WriteLt
| ReadwLt
| WritewLt.

Record Access4args : Type := MkAccess4args {
  access4args_access : Z
}.

Record Access4resok : Type := MkAccess4resok {
  access4resok_supported : Z;
  access4resok_access : Z
}.

Inductive Access4res : Type :=
| Access4res_Resok4 (a : Access4resok).

Record Close4args : Type := MkClose4args {
  close4args_seqid : Z;
  close4args_open_stateid : Stateid4
}.

Inductive Close4res : Type :=
| OpenStateid (a : Stateid4).

Record Commit4args : Type := MkCommit4args {
  commit4args_offset : Z;
  commit4args_count : Z
}.

Record Commit4resok : Type := MkCommit4resok {
  commit4resok_writeverf : list byte
}.

Inductive Commit4res : Type :=
| Commit4res_Resok4 (a : Commit4resok).

Inductive Createtype4 : Type :=
| Createtype4_Nf4Undef
| Createtype4_Nf4reg
| Createtype4_Nf4dir
| Createtype4_Nf4blk
| Createtype4_Nf4chr (a : Specdata4)
| Createtype4_Nf4lnk (a : string)
| Createtype4_Nf4sock
| Createtype4_Nf4fifo
| Createtype4_Nf4attrdir
| Createtype4_Nf4namedattr.

Record Create4args : Type := MkCreate4args {
  create4args_objtype : Createtype4;
  create4args_objname : string;
  create4args_createattrs : Fattr4
}.

Record Create4resok : Type := MkCreate4resok {
  create4resok_cinfo : ChangeInfo4;
  create4resok_attrset : list FileAttr
}.

Inductive Create4res : Type :=
| Create4res_Resok4 (a : Create4resok).

Record DelegPurge4args : Type := MkDelegPurge4args {
  delegPurge4args_clientid : Z
}.

Record DelegPurge4res : Type := MkDelegPurge4res {
  delegPurge4res_status : NfsStat4
}.

Record DelegReturn4args : Type := MkDelegReturn4args {
  delegReturn4args_deleg_stateid : Stateid4
}.

Record DelegReturn4res : Type := MkDelegReturn4res {
  delegReturn4res_status : NfsStat4
}.

Record Getattr4args : Type := MkGetattr4args {
  getattr4args_attr_request : list FileAttr
}.

Record Getattr4resok : Type := MkGetattr4resok {
  getattr4resok_status : NfsStat4;
  getattr4resok_obj_attributes : option Fattr4
}.

Record GetFh4resok : Type := MkGetFh4resok {
  getFh4resok_object : list byte
}.

Inductive GetFh4res : Type :=
| GetFh4res_Resok4 (a : GetFh4resok).

Record Link4args : Type := MkLink4args {
  link4args_newname : string
}.

Record Link4resok : Type := MkLink4resok {
  link4resok_cinfo : ChangeInfo4
}.

Inductive Link4res : Type :=
| Link4res_Resok4 (a : Link4resok).

Record OpenToLockOwner4 : Type := MkOpenToLockOwner4 {
  openToLockOwner4_open_seqid : Z;
  openToLockOwner4_open_stateid : Stateid4;
  openToLockOwner4_lock_seqid : Z;
  openToLockOwner4_lock_owner : LockOwner4
}.

Record ExistLockOwner4 : Type := MkExistLockOwner4 {
  existLockOwner4_lock_stateid : Stateid4;
  existLockOwner4_lock_seqid : Z
}.

Inductive Locker4 : Type :=
| OpenOwner (a : OpenToLockOwner4)
| LockOwner (a : ExistLockOwner4).

Record Lock4args : Type := MkLock4args {
  lock4args_locktype : NfsLockType4;
  lock4args_reclaim : bool;
  lock4args_offset : Z;
  lock4args_length : Z;
  lock4args_locker : Locker4
}.

Record Lock4denied : Type := MkLock4denied {
  lock4denied_offset : Z;
  lock4denied_length : Z;
  lock4denied_locktype : NfsLockType4;
  lock4denied_owner : LockOwner4
}.

Record Lock4resok : Type := MkLock4resok {
  lock4resok_lock_stateid : Stateid4
}.

Inductive Lock4res : Type :=
| Lock4res_Resok4 (a : Lock4resok)
| Lock4res_Denied (a : Lock4denied).

Record Lockt4args : Type := MkLockt4args {
  lockt4args_locktype : NfsLockType4;
  lockt4args_offset : Z;
  lockt4args_length : Z;
  lockt4args_owner : LockOwner4
}.

Inductive Lockt4res : Type :=
| Lockt4res_Denied (a : Lock4denied).

Record Locku4args : Type := MkLocku4args {
  locku4args_locktype : NfsLockType4;
  locku4args_seqid : Z;
  locku4args_lock_stateid : Stateid4;
  locku4args_offset : Z;
  locku4args_length : Z
}.

Inductive Locku4res : Type :=
| LockStateid (a : Stateid4).

Record Lookup4args : Type := MkLookup4args {
  lookup4args_objname : string
}.

Record Lookup4res : Type := MkLookup4res {
  lookup4res_status : NfsStat4
}.

Record LookupP4res : Type := MkLookupP4res {
  lookupP4res_status : NfsStat4
}.

Record Readlink4res : Type := MkReadlink4res {
  readlink4res_status : NfsStat4;
  readlink4res_link : string
}.

Record Nverify4args : Type := MkNverify4args {
  nverify4args_obj_attributes : Fattr4
}.

Record Nverify4res : Type := MkNverify4res {
  nverify4res_status : NfsStat4
}.

Inductive CreateHow4 : Type :=
| UNCHECKED4 (a : Fattr4)
| GUARDED4 (a : Fattr4)
| EXCLUSIVE4 (a : list byte).

Inductive OpenFlag4 : Type :=
| Open4Nocreate
| How (a : CreateHow4).

Record NfsModifiedLimit4 : Type := MkNfsModifiedLimit4 {
  nfsModifiedLimit4_num_blocks : Z;
  nfsModifiedLimit4_bytes_per_block : Z
}.

Inductive NfsSpaceLimit4 : Type :=
| Filesize (a : Z)
| ModBlocks (a : NfsModifiedLimit4).

Inductive OpenDelegationType4 : Type :=
| OpenDelegateNone
| OpenDelegateRead
| OpenDelegateWrite.

Record OpenClaimDelegateCur4 : Type := MkOpenClaimDelegateCur4 {
  openClaimDelegateCur4_delegate_stateid : Stateid4;
  openClaimDelegateCur4_file : string
}.

Inductive OpenClaim4 : Type :=
| ClaimNull (a : string)
| ClaimPrevious (a : OpenDelegationType4)
| ClaimDelegateCur (a : OpenClaimDelegateCur4)
| ClaimDelegatePrev (a : string).

Record Open4args : Type := MkOpen4args {
  open4args_seqid : Z;
  open4args_share_access : Z;
  open4args_share_deny : Z;
  open4args_owner : OpenOwner4;
  open4args_openhow : OpenFlag4;
  open4args_claim : OpenClaim4
}.

Record OpenReadDelegation4 : Type := MkOpenReadDelegation4 {
  openReadDelegation4_stateid : Stateid4;
  openReadDelegation4_recall : bool;
  openReadDelegation4_permissions : Nfsace4
}.

Record OpenWriteDelegation4 : Type := MkOpenWriteDelegation4 {
  openWriteDelegation4_stateid : Stateid4;
  openWriteDelegation4_recall : bool;
  openWriteDelegation4_space_limit : NfsSpaceLimit4;
  openWriteDelegation4_permissions : Nfsace4
}.

Inductive OpenDelegation4 : Type :=
| OpenDelegation4_None
| Read (a : OpenReadDelegation4)
| Write (a : OpenWriteDelegation4).

Record Open4resok : Type := MkOpen4resok {
  open4resok_stateid : Stateid4;
  open4resok_cinfo : ChangeInfo4;
  open4resok_rflags : Z;
  open4resok_attrset : list FileAttr;
  open4resok_delegation : OpenDelegation4
}.

Inductive Open4res : Type :=
| Open4res_Resok4 (a : Open4resok).

Record OpenAttr4args : Type := MkOpenAttr4args {
  openAttr4args_createdir : bool
}.

Record OpenAttr4res : Type := MkOpenAttr4res {
  openAttr4res_status : NfsStat4
}.

Record OpenConfirm4args : Type := MkOpenConfirm4args {
  openConfirm4args_open_stateid : Stateid4;
  openConfirm4args_seqid : Z
}.

Record OpenConfirm4resok : Type := MkOpenConfirm4resok {
  openConfirm4resok_open_stateid : Stateid4
}.

Inductive OpenConfirm4res : Type :=
| OpenConfirm4res_Resok4 (a : OpenConfirm4resok).

Record OpenDowngrade4args : Type := MkOpenDowngrade4args {
  openDowngrade4args_open_stateid : Stateid4;
  openDowngrade4args_seqid : Z;
  openDowngrade4args_share_access : Z;
  openDowngrade4args_share_deny : Z
}.

Record OpenDowngrade4resok : Type := MkOpenDowngrade4resok {
  openDowngrade4resok_open_stateid : Stateid4
}.

Inductive OpenDowngrade4res : Type :=
| OpenDowngrade4res_Resok4 (a : OpenDowngrade4resok).

Record PutFh4args : Type := MkPutFh4args {
  putFh4args_object : list byte
}.

Record PutFh4res : Type := MkPutFh4res {
  putFh4res_status : NfsStat4
}.

Record PutRootFh4res : Type := MkPutRootFh4res {
  putRootFh4res_status : NfsStat4
}.

Record Read4args : Type := MkRead4args {
  read4args_stateid : Stateid4;
  read4args_offset : Z;
  read4args_count : Z
}.

Record Read4resok : Type := MkRead4resok {
  read4resok_eof : bool;
  read4resok_data : list byte
}.

Inductive Read4res : Type :=
| Read4res_Resok4 (a : Read4resok).

Record Readdir4args : Type := MkReaddir4args {
  readdir4args_cookie : Z;
  readdir4args_cookieverf : list byte;
  readdir4args_dircount : Z;
  readdir4args_maxcount : Z;
  readdir4args_attr_request : list FileAttr
}.

Inductive Entry4 : Type :=
| MkEntry4 (entry4_cookie : Z) (entry4_name : string) (entry4_attrs : Fattr4) (entry4_nextentry : (option Entry4)).

Record DirList4 : Type := MkDirList4 {
  dirList4_entries : option Entry4;
  dirList4_eof : bool
}.

Record ReadDir4resok : Type := MkReadDir4resok {
  readDir4resok_cookieverf : list byte;
  readDir4resok_reply : DirList4
}.

Inductive ReadDir4res : Type :=
| ReadDir4res_Resok4 (a : ReadDir4resok).

Record Remove4args : Type := MkRemove4args {
  remove4args_target : string
}.

Record Remove4res : Type := MkRemove4res {
  remove4res_status : NfsStat4;
  remove4res_cinfo : ChangeInfo4
}.

Record Rename4args : Type := MkRename4args {
  rename4args_oldname : string;
  rename4args_newname : string
}.

Record Rename4resok : Type := MkRename4resok {
  rename4resok_source_cinfo : ChangeInfo4;
  rename4resok_target_cinfo : ChangeInfo4
}.

Inductive Rename4res : Type :=
| Rename4res_Resok4 (a : Rename4resok).

Record Renew4args : Type := MkRenew4args {
  renew4args_clientid : Z
}.

Record Renew4res : Type := MkRenew4res {
  renew4res_status : NfsStat4
}.

Record RestoreFh4res : Type := MkRestoreFh4res {
  restoreFh4res_status : NfsStat4
}.

Record SaveFh4res : Type := MkSaveFh4res {
  saveFh4res_status : NfsStat4
}.

Record SecInfo4args : Type := MkSecInfo4args {
  secInfo4args_name : string
}.

Inductive RpcGssSvc : Type :=
| RpcGssSvcNone
| RpcGssSvcIntegrity
| RpcGssSvcPrivacy.

Record RpcSecGssInfo : Type := MkRpcSecGssInfo {
  rpcSecGssInfo_oid : list byte;
  rpcSecGssInfo_qop : Z;
  rpcSecGssInfo_service : RpcGssSvc
}.

Inductive SeCinfo4 : Type :=
| SeCinfo4_AuthNone
| SeCinfo4_AuthSys
| FlavorInfo (a : RpcSecGssInfo).

Inductive SecInfo4res : Type :=
| SecInfo4res_Resok4 (a : list SeCinfo4).

Inductive SecinfoStyle4 : Type :=
| SecinfoStyle4CurrentFh
| SecinfoStyle4Parent.

Record SecinfoNoName4args : Type := MkSecinfoNoName4args {
  secinfoNoName4args_sina_style : SecinfoStyle4
}.

Record SetAttr4args : Type := MkSetAttr4args {
  setAttr4args_stateid : Stateid4;
  setAttr4args_obj_attributes : Fattr4
}.

Record SetAttr4res : Type := MkSetAttr4res {
  setAttr4res_status : NfsStat4;
  setAttr4res_attrsset : list FileAttr
}.

Record SetClientId4args : Type := MkSetClientId4args {
  setClientId4args_client : NfsClientId4;
  setClientId4args_callback : CbClient4;
  setClientId4args_callback_ident : Z
}.

Record SetClientId4resok : Type := MkSetClientId4resok {
  setClientId4resok_clientid : Z;
  setClientId4resok_setclientid_confirm : list byte
}.

Inductive SetClientId4res : Type :=
| SetClientId4res_Resok4 (a : SetClientId4resok)
| ClientUsing (a : ClientAddr4).

Record SetClientIdConfirm4args : Type := MkSetClientIdConfirm4args {
  setClientIdConfirm4args_clientid : Z;
  setClientIdConfirm4args_setclientid_confirm : list byte
}.

Record SetClientIdConfirm4res : Type := MkSetClientIdConfirm4res {
  setClientIdConfirm4res_status : NfsStat4
}.

Record Verify4args : Type := MkVerify4args {
  verify4args_obj_attributes : Fattr4
}.

Record Verify4res : Type := MkVerify4res {
  verify4res_status : NfsStat4
}.

Inductive StableHow4 : Type :=
| Unstable4
| DataSync4
| FileSync4.

Record Write4args : Type := MkWrite4args {
  write4args_stateid : Stateid4;
  write4args_offset : Z;
  write4args_stable : StableHow4;
  write4args_data : list byte
}.

Record Write4resok : Type := MkWrite4resok {
  write4resok_count : Z;
  write4resok_committed : StableHow4;
  write4resok_writeverf : list byte
}.

Inductive Write4res : Type :=
| Write4res_Resok4 (a : Write4resok).

Record ReleaseLockowner4args : Type := MkReleaseLockowner4args {
  releaseLockowner4args_lock_owner : LockOwner4
}.

Record ReleaseLockowner4res : Type := MkReleaseLockowner4res {
  releaseLockowner4res_status : NfsStat4
}.

Record ClientOwner4 : Type := MkClientOwner4 {
  clientOwner4_co_verifier : list byte;
  clientOwner4_co_ownerid : list byte
}.

Record ServerOwner4 : Type := MkServerOwner4 {
  serverOwner4_so_minor_id : Z;
  serverOwner4_so_major_id : list byte
}.

Record NfsImplId4 : Type := MkNfsImplId4 {
  nfsImplId4_nii_domain : string;
  nfsImplId4_nii_name : string;
  nfsImplId4_nii_date : Nfstime4
}.

Inductive StateProtect4a : Type :=
| StateProtect4a_SpNone.

Inductive StateProtect4r : Type :=
| StateProtect4r_SpNone.

Record ChannelAttrs4 : Type := MkChannelAttrs4 {
  channelAttrs4_ca_headerpadsize : Z;
  channelAttrs4_ca_maxrequestsize : Z;
  channelAttrs4_ca_maxresponsesize : Z;
  channelAttrs4_ca_maxresponsesize_cached : Z;
  channelAttrs4_ca_maxoperations : Z;
  channelAttrs4_ca_maxrequests : Z;
  channelAttrs4_ca_rdma_ird : list Z
}.

Record AuthsysParms4 : Type := MkAuthsysParms4 {
  authsysParms4_stamp : Z;
  authsysParms4_machinename : string;
  authsysParms4_uid : Z;
  authsysParms4_gid : Z;
  authsysParms4_gids : list Z
}.

Inductive CallbackSecParms4 : Type :=
| CallbackSecParms4_AuthNone
| CallbackSecParms4_AuthSys (a : AuthsysParms4).

Inductive ChannelDirFromClient4 : Type :=
| ChannelDirFromClient4_Fore
| ChannelDirFromClient4_Back
| ForeOrBoth.

Inductive ChannelDirFromServer4 : Type :=
| ChannelDirFromServer4_Fore
| ChannelDirFromServer4_Back
| Both.

Record BindConnToSession4args : Type := MkBindConnToSession4args {
  bindConnToSession4args_bctsa_sessid : list byte;
  bindConnToSession4args_bctsa_dir : ChannelDirFromClient4;
  bindConnToSession4args_bctsa_use_conn_in_rdma_mode : bool
}.

Record BindConnToSession4resok : Type := MkBindConnToSession4resok {
  bindConnToSession4resok_bctsr_sessid : list byte;
  bindConnToSession4resok_bctsr_dir : ChannelDirFromServer4;
  bindConnToSession4resok_bctsr_use_conn_in_rdma_mode : bool
}.

Inductive BindConnToSession4res : Type :=
| BindConnToSession4res_Resok4 (a : BindConnToSession4resok).

Record ExchangeId4args : Type := MkExchangeId4args {
  exchangeId4args_eia_clientowner : ClientOwner4;
  exchangeId4args_eia_flags : Z;
  exchangeId4args_eia_state_protect : StateProtect4a;
  exchangeId4args_eia_client_impl_id : list NfsImplId4
}.

Record ExchangeId4resok : Type := MkExchangeId4resok {
  exchangeId4resok_eir_clientid : Z;
  exchangeId4resok_eir_sequenceid : Z;
  exchangeId4resok_eir_flags : Z;
  exchangeId4resok_eir_state_protect : StateProtect4r;
  exchangeId4resok_eir_server_owner : ServerOwner4;
  exchangeId4resok_eir_server_scope : list byte;
  exchangeId4resok_eir_server_impl_id : list NfsImplId4
}.

Inductive ExchangeId4res : Type :=
| ExchangeId4res_Resok4 (a : ExchangeId4resok).

Record CreateSession4args : Type := MkCreateSession4args {
  createSession4args_csa_clientid : Z;
  createSession4args_csa_sequence : Z;
  createSession4args_csa_flags : Z;
  createSession4args_csa_fore_chan_attrs : ChannelAttrs4;
  createSession4args_csa_back_chan_attrs : ChannelAttrs4;
  createSession4args_csa_cb_program : Z;
  createSession4args_csa_sec_parms : list CallbackSecParms4
}.

Record CreateSession4resok : Type := MkCreateSession4resok {
  createSession4resok_csr_sessionid : list byte;
  createSession4resok_csr_sequenceid : Z;
  createSession4resok_csr_flags : Z;
  createSession4resok_csr_fore_chan_attrs : ChannelAttrs4;
  createSession4resok_csr_back_chan_attrs : ChannelAttrs4
}.

Inductive CreateSession4res : Type :=
| CreateSession4res_Resok4 (a : CreateSession4resok).

Record DestroySession4args : Type := MkDestroySession4args {
  destroySession4args_dsa_sessionid : list byte
}.

Record DestroySession4res : Type := MkDestroySession4res {
  destroySession4res_dsr_status : NfsStat4
}.

Record FreeStateid4args : Type := MkFreeStateid4args {
  freeStateid4args_fsa_stateid : Stateid4
}.

Record FreeStateid4res : Type := MkFreeStateid4res {
  freeStateid4res_fsr_status : NfsStat4
}.

Record Sequence4args : Type := MkSequence4args {
  sequence4args_sa_sessionid : list byte;
  sequence4args_sa_sequenceid : Z;
  sequence4args_sa_slotid : Z;
  sequence4args_sa_highest_slotid : Z;
  sequence4args_sa_cachethis : bool
}.

Record Sequence4resok : Type := MkSequence4resok {
  sequence4resok_sr_sessionid : list byte;
  sequence4resok_sr_sequenceid : Z;
  sequence4resok_sr_slotid : Z;
  sequence4resok_sr_highest_slotid : Z;
  sequence4resok_sr_target_highest_slotid : Z;
  sequence4resok_sr_status_flags : Z
}.

Inductive Sequence4res : Type :=
| Sequence4res_Resok4 (a : Sequence4resok).

Record TestStateid4args : Type := MkTestStateid4args {
  testStateid4args_ts_stateids : list Stateid4
}.

Record TestStateid4resok : Type := MkTestStateid4resok {
  testStateid4resok_tsr_status_codes : list Z
}.

Inductive TestStateid4res : Type :=
| TestStateid4res_Resok4 (a : TestStateid4resok).

Record DestroyClientId4args : Type := MkDestroyClientId4args {
  destroyClientId4args_dca_clientid : Z
}.

Record DestroyClientId4res : Type := MkDestroyClientId4res {
  destroyClientId4res_dcr_status : NfsStat4
}.

Record ReclaimComplete4args : Type := MkReclaimComplete4args {
  reclaimComplete4args_rca_one_fs : bool
}.

Record ReclaimComplete4res : Type := MkReclaimComplete4res {
  reclaimComplete4res_rcr_status : NfsStat4
}.

Inductive LayoutType4 : Type :=
| LayoutNfsv4Files
| LayoutOsd2Objects
| LayoutBlockVolume
| LayoutFlexFiles.

Inductive LayoutIomode4 : Type :=
| LayoutiomodeRead
| LayoutiomodeRw.

Record GetDeviceInfo4args : Type := MkGetDeviceInfo4args {
  getDeviceInfo4args_gdia_device_id : list byte;
  getDeviceInfo4args_gdia_layout_type : LayoutType4;
  getDeviceInfo4args_gdia_maxcount : Z
}.

Record GetDeviceInfo4resok : Type := MkGetDeviceInfo4resok {
  getDeviceInfo4resok_gdir_notification : Z
}.

Inductive GetDeviceInfo4res : Type :=
| GetDeviceInfo4res_Resok4 (a : GetDeviceInfo4resok)
| GetDeviceInfo4res_Err (a : NfsStat4).

Record GetDeviceList4args : Type := MkGetDeviceList4args {
  getDeviceList4args_gdla_layout_type : LayoutType4;
  getDeviceList4args_gdla_maxdevices : Z;
  getDeviceList4args_gdla_cookie : Z;
  getDeviceList4args_gdla_cookieverf : list byte
}.

Record GetDeviceList4resok : Type := MkGetDeviceList4resok {
  getDeviceList4resok_gdlr_cookie : Z;
  getDeviceList4resok_gdlr_cookieverf : list byte;
  getDeviceList4resok_gdlr_eof : bool
}.

Inductive GetDeviceList4res : Type :=
| GetDeviceList4res_Resok4 (a : GetDeviceList4resok)
| GetDeviceList4res_Err (a : NfsStat4).

Record LayoutGet4args : Type := MkLayoutGet4args {
  layoutGet4args_loga_signal_layout_avail : bool;
  layoutGet4args_loga_layout_type : LayoutType4;
  layoutGet4args_loga_iomode : LayoutIomode4;
  layoutGet4args_loga_offset : Z;
  layoutGet4args_loga_length : Z;
  layoutGet4args_loga_minlength : Z;
  layoutGet4args_loga_stateid : Stateid4;
  layoutGet4args_loga_maxcount : Z
}.

Record LayoutGet4resok : Type := MkLayoutGet4resok {
  layoutGet4resok_logr_return_on_close : bool;
  layoutGet4resok_logr_stateid : Stateid4
}.

Inductive LayoutGet4res : Type :=
| LayoutGet4res_Resok4 (a : LayoutGet4resok)
| LayoutGet4res_Err (a : NfsStat4).

Record LayoutCommit4args : Type := MkLayoutCommit4args {
  layoutCommit4args_loca_offset : Z;
  layoutCommit4args_loca_length : Z;
  layoutCommit4args_loca_reclaim : bool;
  layoutCommit4args_loca_stateid : Stateid4;
  layoutCommit4args_loca_last_write_offset : bool;
  layoutCommit4args_loca_layout_type : LayoutType4
}.

Record LayoutCommit4resok : Type := MkLayoutCommit4resok {
  layoutCommit4resok_locr_newsize : bool
}.

Inductive LayoutCommit4res : Type :=
| LayoutCommit4res_Resok4 (a : LayoutCommit4resok)
| LayoutCommit4res_Err (a : NfsStat4).

Inductive LayoutReturnType4 : Type :=
| LayoutreturnFile
| LayoutreturnFsid
| LayoutreturnAll.

Record LayoutReturn4args : Type := MkLayoutReturn4args {
  layoutReturn4args_lora_reclaim : bool;
  layoutReturn4args_lora_layout_type : LayoutType4;
  layoutReturn4args_lora_iomode : LayoutIomode4;
  layoutReturn4args_lora_return_type : LayoutReturnType4
}.

Record LayoutReturn4resok : Type := MkLayoutReturn4resok {
  layoutReturn4resok_lorr_present : bool
}.

Inductive LayoutReturn4res : Type :=
| LayoutReturn4res_Resok4 (a : LayoutReturn4resok)
| LayoutReturn4res_Err (a : NfsStat4).

Inductive DataContent4 : Type :=
| DataContent4_Data
| DataContent4_Hole.

Inductive Netloc4 : Type :=
| Name (a : string)
| Url (a : string).

Record WriteResponse4 : Type := MkWriteResponse4 {
  writeResponse4_wr_callback_id : list Stateid4;
  writeResponse4_wr_count : Z;
  writeResponse4_wr_committed : StableHow4;
  writeResponse4_wr_writeverf : list byte
}.

Record CopyRequirements4 : Type := MkCopyRequirements4 {
  copyRequirements4_cr_consecutive : bool;
  copyRequirements4_cr_synchronous : bool
}.

Record Allocate4args : Type := MkAllocate4args {
  allocate4args_aa_stateid : Stateid4;
  allocate4args_aa_offset : Z;
  allocate4args_aa_length : Z
}.

Record Allocate4res : Type := MkAllocate4res {
  allocate4res_ar_status : NfsStat4
}.

Record Copy4args : Type := MkCopy4args {
  copy4args_ca_src_stateid : Stateid4;
  copy4args_ca_dst_stateid : Stateid4;
  copy4args_ca_src_offset : Z;
  copy4args_ca_dst_offset : Z;
  copy4args_ca_count : Z;
  copy4args_ca_consecutive : bool;
  copy4args_ca_synchronous : bool;
  copy4args_ca_source_server : list Netloc4
}.

Record Copy4resok : Type := MkCopy4resok {
  copy4resok_cr_response : WriteResponse4;
  copy4resok_cr_requirements : CopyRequirements4
}.

Inductive Copy4res : Type :=
| Copy4res_Resok4 (a : Copy4resok).

Record Seek4args : Type := MkSeek4args {
  seek4args_sa_stateid : Stateid4;
  seek4args_sa_offset : Z;
  seek4args_sa_what : DataContent4
}.

Record SeekRes4 : Type := MkSeekRes4 {
  seekRes4_sr_eof : bool;
  seekRes4_sr_offset : Z
}.

Inductive Seek4res : Type :=
| Seek4res_Resok4 (a : SeekRes4).

Inductive NfsArgOp : Type :=
| OpUndef0
| OpUndef1
| OpUndef2
| OpAccess (a : Access4args)
| Opclose (a : Close4args)
| Opcommit (a : Commit4args)
| Opcreate (a : Create4args)
| Opdelegpurge (a : DelegPurge4args)
| Opdelegreturn (a : DelegReturn4args)
| Opgetattr (a : Getattr4args)
| Opgetfh
| Oplink (a : Link4args)
| Oplock (a : Lock4args)
| Oplockt (a : Lockt4args)
| Oplocku (a : Locku4args)
| Oplookup (a : Lookup4args)
| Oplookupp
| Opnverify (a : Nverify4args)
| Opopen (a : Open4args)
| Opopenattr (a : OpenAttr4args)
| OpopenConfirm (a : OpenConfirm4args)
| OpopenDowngrade (a : OpenDowngrade4args)
| Opputfh (a : PutFh4args)
| Opputpubfh
| Opputrootfh
| Opread (a : Read4args)
| Opreaddir (a : Readdir4args)
| Opreadlink
| Opremove (a : Remove4args)
| Oprename (a : Rename4args)
| Oprenew (a : Renew4args)
| Oprestorefh
| Opsavefh
| OpSecinfo (a : SecInfo4args)
| Opsetattr (a : SetAttr4args)
| Opsetclientid (a : SetClientId4args)
| OpsetclientidConfirm (a : SetClientIdConfirm4args)
| Opverify (a : Verify4args)
| Opwrite (a : Write4args)
| OpreleaseLockOwner (a : ReleaseLockowner4args)
| OpbindConnToSession (a : BindConnToSession4args)
| OpexchangeId (a : ExchangeId4args)
| OpcreateSession (a : CreateSession4args)
| OpdestroySession (a : DestroySession4args)
| OpfreeStateid (a : FreeStateid4args)
| OpgetdeviceInfo (a : GetDeviceInfo4args)
| OpgetdeviceList (a : GetDeviceList4args)
| OplayoutCommit (a : LayoutCommit4args)
| OplayoutGet (a : LayoutGet4args)
| OplayoutReturn (a : LayoutReturn4args)
| OpsecinfoNoName (a : SecinfoNoName4args)
| Opsequence (a : Sequence4args)
| OptestStateid (a : TestStateid4args)
| OpdestroyClientid (a : DestroyClientId4args)
| OpreclaimComplete (a : ReclaimComplete4args)
| Opallocate (a : Allocate4args)
| Opcopy (a : Copy4args)
| Opseek (a : Seek4args).

Inductive NfsResOp4 : Type :=
| ResOpUndef0
| ResOpUndef1
| ResOpUndef2
| ResOpAccess (a : Access4res)
| ResOpclose (a : Close4res)
| ResOpcommit (a : Commit4res)
| ResOpcreate (a : Create4res)
| ResOpdelegpurge (a : DelegPurge4res)
| ResOpdelegreturn (a : DelegReturn4res)
| ResOpgetattr (a : Getattr4resok)
| ResOpgetfh (a : GetFh4res)
| ResOplink (a : Link4res)
| ResOplock (a : Lock4res)
| ResOplockt (a : Lockt4res)
| ResOplocku (a : Locku4res)
| ResOplookup (a : Lookup4res)
| ResOplookupp (a : LookupP4res)
| ResOpnverify (a : Nverify4res)
| ResOpopen (a : Open4res)
| ResOpopenattr (a : OpenAttr4res)
| ResOpopenConfirm (a : OpenConfirm4res)
| ResOpopenDowngrade (a : OpenDowngrade4res)
| ResOpputfh (a : PutFh4res)
| ResOpputpubfh
| ResOpputrootfh (a : PutRootFh4res)
| ResOpread (a : Read4res)
| ResOpreaddir (a : ReadDir4res)
| ResOpreadlink (a : Readlink4res)
| ResOpremove (a : Remove4res)
| ResOprename (a : Rename4res)
| ResOprenew (a : Renew4res)
| ResOprestorefh (a : RestoreFh4res)
| ResOpsavefh (a : SaveFh4res)
| ResOpSecinfo (a : SecInfo4res)
| ResOpsetattr (a : SetAttr4res)
| ResOpsetclientid (a : SetClientId4res)
| ResOpsetclientidConfirm (a : SetClientIdConfirm4res)
| ResOpverify (a : Verify4res)
| ResOpwrite (a : Write4res)
| ResOpreleaseLockOwner (a : ReleaseLockowner4res)
| ResOpbindConnToSession (a : BindConnToSession4res)
| ResOpexchangeId (a : ExchangeId4res)
| ResOpcreateSession (a : CreateSession4res)
| ResOpdestroySession (a : DestroySession4res)
| ResOpfreeStateid (a : FreeStateid4res)
| ResOpgetdeviceInfo (a : GetDeviceInfo4res)
| ResOpgetdeviceList (a : GetDeviceList4res)
| ResOplayoutCommit (a : LayoutCommit4res)
| ResOplayoutGet (a : LayoutGet4res)
| ResOplayoutReturn (a : LayoutReturn4res)
| ResOpsecinfoNoName (a : SecInfo4res)
| ResOpsequence (a : Sequence4res)
| ResOptestStateid (a : TestStateid4res)
| ResOpdestroyClientid (a : DestroyClientId4res)
| ResOpreclaimComplete (a : ReclaimComplete4res)
| ResOpallocate (a : Allocate4res)
| ResOpcopy (a : Copy4res)
| ResOpseek (a : Seek4res)
| ResOpError (op : Z) (status : NfsStat4).

Record Compound4args : Type := MkCompound4args {
  compound4args_tag : string;
  compound4args_minor_version : Z;
  compound4args_argarray : list NfsArgOp
}.

Record Compound4res : Type := MkCompound4res {
  compound4res_status : NfsStat4;
  compound4res_tag : string;
  compound4res_resarray : list NfsResOp4
}.

Definition NfsStat4_to_u32 (x : NfsStat4) : Z :=
  match x with
  | Nfs4Ok => 0
  | Nfs4errPerm => 1
  | Nfs4errNoent => 2
  | Nfs4errIo => 5
  | Nfs4errNxio => 6
  | Nfs4errAccess => 13
  | Nfs4errExist => 17
  | Nfs4errXdev => 18
  | Nfs4errNotdir => 20
  | Nfs4errIsdir => 21
  | Nfs4errInval => 22
  | Nfs4errFbig => 27
  | Nfs4errNospc => 28
  | Nfs4errRofs => 30
  | Nfs4errMlink => 31
  | Nfs4errNametoolong => 63
  | Nfs4errNotempty => 66
  | Nfs4errDquot => 69
  | Nfs4errStale => 70
  | Nfs4errBadhandle => 10001
  | Nfs4errBadCookie => 10003
  | Nfs4errNotsupp => 10004
  | Nfs4errToosmall => 10005
  | Nfs4errServerfault => 10006
  | Nfs4errBadtype => 10007
  | Nfs4errDelay => 10008
  | Nfs4errSame => 10009
  | Nfs4errDenied => 10010
  | Nfs4errExpired => 10011
  | Nfs4errLocked => 10012
  | Nfs4errGrace => 10013
  | Nfs4errFhexpired => 10014
  | Nfs4errShareDenied => 10015
  | Nfs4errWrongsec => 10016
  | Nfs4errClidInuse => 10017
  | Nfs4errResource => 10018
  | Nfs4errMoved => 10019
  | Nfs4errNofilehandle => 10020
  | Nfs4errMinorVersMismatch => 10021
  | Nfs4errStaleClientid => 10022
  | Nfs4errStaleStateid => 10023
  | Nfs4errOldStateid => 10024
  | Nfs4errBadStateid => 10025
  | Nfs4errBadSeqid => 10026
  | Nfs4errNotSame => 10027
  | Nfs4errLockRange => 10028
  | Nfs4errSymlink => 10029
  | Nfs4errRestorefh => 10030
  | Nfs4errLeaseMoved => 10031
  | Nfs4errAttrnotsupp => 10032
  | Nfs4errNoGrace => 10033
  | Nfs4errReclaimBad => 10034
  | Nfs4errReclaimConflict => 10035
  | Nfs4errBadxdr => 10036
  | Nfs4errLocksHeld => 10037
  | Nfs4errOpenmode => 10038
  | Nfs4errBadOwner => 10039
  | Nfs4errBadchar => 10040
  | Nfs4errBadname => 10041
  | Nfs4errBadRange => 10042
  | Nfs4errLockNotsupp => 10043
  | Nfs4errOpIllegal => 10044
  | Nfs4errDeadlock => 10045
  | Nfs4errFileOpen => 10046
  | Nfs4errAdminRevoked => 10047
  | Nfs4errCbPathDown => 10048
  | Nfs4errBadIomode => 10049
  | Nfs4errBadLayout => 10050
  | Nfs4errBadSession => 10052
  | Nfs4errBadSlot => 10053
  | Nfs4errConnNotBoundToSession => 10055
  | Nfs4errLayoutTrylater => 10058
  | Nfs4errLayoutUnavailable => 10059
  | Nfs4errNomatchingLayout => 10060
  | Nfs4errRecallconflict => 10061
  | Nfs4errUnknownLayouttype => 10062
  | Nfs4errSeqMisordered => 10063
  | Nfs4errOpNotInSession => 10071
  | Nfs4errSeqFalseRetry => 10076
  end.

Definition NfsFtype4_to_u32 (x : NfsFtype4) : Z :=
  match x with
  | Nf4Undef => 0
  | Nf4reg => 1
  | Nf4dir => 2
  | Nf4blk => 3
  | Nf4chr => 4
  | Nf4lnk => 5
  | Nf4sock => 6
  | Nf4fifo => 7
  | Nf4attrdir => 8
  | Nf4namedattr => 9
  end.

Definition FileAttr_to_u32 (x : FileAttr) : Z :=
  match x with
  | FileAttr_SupportedAttrs => 0
  | FileAttr_Type => 1
  | FileAttr_FhExpireType => 2
  | FileAttr_Change => 3
  | FileAttr_Size => 4
  | FileAttr_LinkSupport => 5
  | FileAttr_SymlinkSupport => 6
  | FileAttr_NamedAttr => 7
  | FileAttr_Fsid => 8
  | FileAttr_UniqueHandles => 9
  | FileAttr_LeaseTime => 10
  | FileAttr_RdattrError => 11
  | FileAttr_Acl => 12
  | FileAttr_AclSupport => 13
  | FileAttr_Archive => 14
  | FileAttr_Cansettime => 15
  | FileAttr_CaseInsensitive => 16
  | FileAttr_CasePreserving => 17
  | FileAttr_ChownRestricted => 18
  | FileAttr_Filehandle => 19
  | FileAttr_Fileid => 20
  | FileAttr_FilesAvail => 21
  | FileAttr_FilesFree => 22
  | FileAttr_FilesTotal => 23
  | FileAttr_FsLocations => 24
  | FileAttr_Hidden => 25
  | FileAttr_Homogeneous => 26
  | FileAttr_Maxfilesize => 27
  | FileAttr_Maxlink => 28
  | FileAttr_Maxname => 29
  | FileAttr_Maxread => 30
  | FileAttr_Maxwrite => 31
  | FileAttr_Mimetype => 32
  | FileAttr_Mode => 33
  | FileAttr_NoTrunc => 34
  | FileAttr_Numlinks => 35
  | FileAttr_Owner => 36
  | FileAttr_OwnerGroup => 37
  | FileAttr_QuotaAvailHard => 38
  | FileAttr_QuotaAvailSoft => 39
  | FileAttr_QuotaUsed => 40
  | FileAttr_Rawdev => 41
  | FileAttr_SpaceAvail => 42
  | FileAttr_SpaceFree => 43
  | FileAttr_SpaceTotal => 44
  | FileAttr_SpaceUsed => 45
  | FileAttr_System => 46
  | FileAttr_TimeAccess => 47
  | FileAttr_TimeAccessSet => 48
  | FileAttr_TimeBackup => 49
  | FileAttr_TimeCreate => 50
  | FileAttr_TimeDelta => 51
  | FileAttr_TimeMetadata => 52
  | FileAttr_TimeModify => 53
  | FileAttr_TimeModifySet => 54
  | FileAttr_MountedOnFileid => 55
  end.

Definition FileAttr_from_u32 (n : Z) : option FileAttr :=
  match n with
  | 0 => Some FileAttr_SupportedAttrs
  | 1 => Some FileAttr_Type
  | 2 => Some FileAttr_FhExpireType
  | 3 => Some FileAttr_Change
  | 4 => Some FileAttr_Size
  | 5 => Some FileAttr_LinkSupport
  | 6 => Some FileAttr_SymlinkSupport
  | 7 => Some FileAttr_NamedAttr
  | 8 => Some FileAttr_Fsid
  | 9 => Some FileAttr_UniqueHandles
  | 10 => Some FileAttr_LeaseTime
  | 11 => Some FileAttr_RdattrError
  | 12 => Some FileAttr_Acl
  | 13 => Some FileAttr_AclSupport
  | 14 => Some FileAttr_Archive
  | 15 => Some FileAttr_Cansettime
  | 16 => Some FileAttr_CaseInsensitive
  | 17 => Some FileAttr_CasePreserving
  | 18 => Some FileAttr_ChownRestricted
  | 19 => Some FileAttr_Filehandle
  | 20 => Some FileAttr_Fileid
  | 21 => Some FileAttr_FilesAvail
  | 22 => Some FileAttr_FilesFree
  | 23 => Some FileAttr_FilesTotal
  | 24 => Some FileAttr_FsLocations
  | 25 => Some FileAttr_Hidden
  | 26 => Some FileAttr_Homogeneous
  | 27 => Some FileAttr_Maxfilesize
  | 28 => Some FileAttr_Maxlink
  | 29 => Some FileAttr_Maxname
  | 30 => Some FileAttr_Maxread
  | 31 => Some FileAttr_Maxwrite
  | 32 => Some FileAttr_Mimetype
  | 33 => Some FileAttr_Mode
  | 34 => Some FileAttr_NoTrunc
  | 35 => Some FileAttr_Numlinks
  | 36 => Some FileAttr_Owner
  | 37 => Some FileAttr_OwnerGroup
  | 38 => Some FileAttr_QuotaAvailHard
  | 39 => Some FileAttr_QuotaAvailSoft
  | 40 => Some FileAttr_QuotaUsed
  | 41 => Some FileAttr_Rawdev
  | 42 => Some FileAttr_SpaceAvail
  | 43 => Some FileAttr_SpaceFree
  | 44 => Some FileAttr_SpaceTotal
  | 45 => Some FileAttr_SpaceUsed
  | 46 => Some FileAttr_System
  | 47 => Some FileAttr_TimeAccess
  | 48 => Some FileAttr_TimeAccessSet
  | 49 => Some FileAttr_TimeBackup
  | 50 => Some FileAttr_TimeCreate
  | 51 => Some FileAttr_TimeDelta
  | 52 => Some FileAttr_TimeMetadata
  | 53 => Some FileAttr_TimeModify
  | 54 => Some FileAttr_TimeModifySet
  | 55 => Some FileAttr_MountedOnFileid
  | _ => None
  end.

Definition NfsFtype4_from_u32 (n : Z) : option NfsFtype4 :=
  match n with
  | 0 => Some Nf4Undef
  | 1 => Some Nf4reg
  | 2 => Some Nf4dir
  | 3 => Some Nf4blk
  | 4 => Some Nf4chr
  | 5 => Some Nf4lnk
  | 6 => Some Nf4sock
  | 7 => Some Nf4fifo
  | 8 => Some Nf4attrdir
  | 9 => Some Nf4namedattr
  | _ => None
  end.

(** ** Decidable equality and discriminants *)

#[global] Instance NfsStat4_eq_dec : EqDecision NfsStat4.
Proof. solve_decision. Defined.

#[global] Instance NfsFtype4_eq_dec : EqDecision NfsFtype4.
Proof. solve_decision. Defined.

#[global] Instance FileAttr_eq_dec : EqDecision FileAttr.
Proof. solve_decision. Defined.

#[global] Instance NfsLockType4_eq_dec : EqDecision NfsLockType4.
Proof. solve_decision. Defined.

#[global] Instance StableHow4_eq_dec : EqDecision StableHow4.
Proof. solve_decision. Defined.

#[global] Instance Stateid4_eq_dec : EqDecision Stateid4.
Proof. solve_decision. Defined.

(** [NfsFh4]: the 26-byte file handle. *)
Abbreviation NfsFh4 := (list byte).

Lemma FileAttr_from_to (a : FileAttr) : FileAttr_from_u32 (FileAttr_to_u32 a) = Some a.
Proof. by destruct a. Qed.

Lemma FileAttr_to_u32_range (a : FileAttr) : 0 <= FileAttr_to_u32 a <= 55.
Proof. destruct a; simpl; lia. Qed.

Lemma FileAttr_to_u32_inj (a b : FileAttr) : FileAttr_to_u32 a = FileAttr_to_u32 b -> a = b.
Proof.
  intros H. apply (f_equal FileAttr_from_u32) in H.
  rewrite !FileAttr_from_to in H. congruence.
Qed.
