(* ===== verification/Xdr.v ===== *)
(** * XDR encoding and decoding ([proto/src/xdr.rs])

    [Serializer]/[Deserializer] as a codec: an encoder into bytes and a decoder
    that consumes a prefix of the input. The decoder is [Deserializer] over a
    [Cursor]: a state (the unread bytes) and an error. A codec is built from the
    primitives with the combinators serde drives ([serialize_struct],
    [serialize_seq], [serialize_some], ...); [CodecOk] is the contract between
    the two halves, proved for the primitives and preserved by the combinators. *)

From S2P Require Import Prelude.
From stdpp Require Import base list strings numbers.
From Stdlib Require Import Strings.Byte ZArith Lia.
#[local] Open Scope Z_scope.

(** [xdr::Error]: an I/O error (the input ended) or a message. *)
Inductive XdrError : Type :=
| Io_UnexpectedEof
| Message (m : string).

Definition reader (A : Type) : Type := list byte -> result (A * list byte) XdrError.

Definition rret {A} (a : A) : reader A := fun s => Ok (a, s).
Definition rfail {A} (e : XdrError) : reader A := fun _ => Err e.
Definition rbind {A B} (m : reader A) (k : A -> reader B) : reader B :=
  fun s => match m s with Ok (a, s') => k a s' | Err e => Err e end.

Notation "'read' x '<-' m 'in' k" := (rbind m (fun x => k))
  (at level 10, x binder, m at level 100, k at level 200) : nfs_scope.

(** ** Primitives *)

Definition padding (len : nat) : nat := ((4 - len mod 4) mod 4)%nat.

Definition length_u32 (len : nat) (what : string) : result Z XdrError :=
  if Z.of_nat len <? 2 ^ 32 then Ok (Z.of_nat len)
  else Err (Message (what +:+ " too long")).

Definition put_u32 (v : Z) : list byte := be_bytes 4 v.
Definition put_u64 (v : Z) : list byte := be_bytes 8 v.

Definition put_opaque (data : list byte) : result (list byte) XdrError :=
  try n := length_u32 (length data) "opaque data" in
  Ok (put_u32 n ++ data ++ replicate (padding (length data)) x00).

(** [read_exact] into an [n]-byte buffer. *)
Definition get (n : nat) : reader (list byte) :=
  fun s => if (n <=? length s)%nat then Ok (take n s, drop n s) else Err Io_UnexpectedEof.

Definition get_u32 : reader Z := read b <- get 4 in rret (be_val b).
Definition get_u64 : reader Z := read b <- get 8 in rret (be_val b).

(** Two's complement reading of a [w]-bit word. *)
Definition signed (w z : Z) : Z := if z <? 2 ^ (w - 1) then z else z - 2 ^ w.

Definition get_i32 : reader Z := read v <- get_u32 in rret (signed 32 v).
Definition get_i64 : reader Z := read v <- get_u64 in rret (signed 64 v).

(** [take(len).read_to_end]: what there is, at most [len] bytes; a short read is
    the end of the input. *)
Definition get_opaque : reader (list byte) :=
  read len <- get_u32 in
  fun s =>
    let data := take (Z.to_nat len) s in
    if Z.of_nat (length data) <? len then Err Io_UnexpectedEof
    else (read _ <- get (padding (length data)) in rret data) (drop (Z.to_nat len) s).

Definition ranged (lo hi v : Z) (what : string) : result Z XdrError :=
  if (lo <=? v) && (v <=? hi) then Ok v else Err (Message (what +:+ " out of range")).

Definition get_u8 : reader Z :=
  read n <- get_u32 in fun s => try v := ranged 0 255 n "u8" in Ok (v, s).

Definition get_bool : reader bool :=
  read n <- get_u32 in
  match n with
  | 0 => rret false
  | 1 => rret true
  | _ => rfail (Message "invalid bool")
  end.

(** [String::from_utf8]'s well-formedness test (Unicode table 3-7). *)
Definition in_range (lo hi : Z) (b : byte) : bool := (lo <=? Z_of_byte b) && (Z_of_byte b <=? hi).
Definition utf8_cont : byte -> bool := in_range 0x80 0xBF.

Fixpoint utf8_valid (l : list byte) : bool :=
  match l with
  | [] => true
  | b0 :: l1 =>
    if in_range 0 0x7F b0 then utf8_valid l1 else
    match l1 with
    | [] => false
    | b1 :: l2 =>
      if in_range 0xC2 0xDF b0 then utf8_cont b1 && utf8_valid l2 else
      match l2 with
      | [] => false
      | b2 :: l3 =>
        if in_range 0xE0 0xEF b0 then
          (if in_range 0xE0 0xE0 b0 then in_range 0xA0 0xBF b1
           else if in_range 0xED 0xED b0 then in_range 0x80 0x9F b1
           else utf8_cont b1) && utf8_cont b2 && utf8_valid l3
        else
        match l3 with
        | [] => false
        | b3 :: l4 =>
          if in_range 0xF0 0xF4 b0 then
            (if in_range 0xF0 0xF0 b0 then in_range 0x90 0xBF b1
             else if in_range 0xF4 0xF4 b0 then in_range 0x80 0x8F b1
             else utf8_cont b1) && utf8_cont b2 && utf8_cont b3 && utf8_valid l4
          else false
        end
      end
    end
  end.

(** [String::from_utf8_lossy]: every maximal invalid sequence becomes U+FFFD. *)
Definition replacement : list byte := map byte_of_Z [0xEF; 0xBF; 0xBD].

Fixpoint utf8_lossy (l : list byte) : list byte :=
  match l with
  | [] => []
  | b0 :: l1 =>
    if in_range 0 0x7F b0 then b0 :: utf8_lossy l1
    else if in_range 0xC2 0xDF b0 then
      match l1 with
      | b1 :: l2 =>
        if utf8_cont b1 then b0 :: b1 :: utf8_lossy l2 else replacement ++ utf8_lossy l1
      | [] => replacement
      end
    else if in_range 0xE0 0xEF b0 then
      match l1 with
      | b1 :: l2 =>
        if (if in_range 0xE0 0xE0 b0 then in_range 0xA0 0xBF b1
            else if in_range 0xED 0xED b0 then in_range 0x80 0x9F b1
            else utf8_cont b1)
        then match l2 with
             | b2 :: l3 =>
               if utf8_cont b2 then b0 :: b1 :: b2 :: utf8_lossy l3
               else replacement ++ utf8_lossy l2
             | [] => replacement
             end
        else replacement ++ utf8_lossy l1
      | [] => replacement
      end
    else if in_range 0xF0 0xF4 b0 then
      match l1 with
      | b1 :: l2 =>
        if (if in_range 0xF0 0xF0 b0 then in_range 0x90 0xBF b1
            else if in_range 0xF4 0xF4 b0 then in_range 0x80 0x8F b1
            else utf8_cont b1)
        then match l2 with
             | b2 :: l3 =>
               if utf8_cont b2 then
                 match l3 with
                 | b3 :: l4 =>
                   if utf8_cont b3 then b0 :: b1 :: b2 :: b3 :: utf8_lossy l4
                   else replacement ++ utf8_lossy l3
                 | [] => replacement
                 end
               else replacement ++ utf8_lossy l2
             | [] => replacement
             end
        else replacement ++ utf8_lossy l1
      | [] => replacement
      end
    else replacement ++ utf8_lossy l1
  end.

Definition get_string : reader string :=
  read d <- get_opaque in
  if utf8_valid d then rret (String.string_of_list_byte d)
  else rfail (Message "invalid UTF-8 string").

(** ** Codecs *)

Record codec (A : Type) : Type := Codec {
  ser : A -> result (list byte) XdrError;
  de : reader A
}.
Arguments Codec {A}.
Arguments ser {A}.
Arguments de {A}.

Definition codec_u32 : codec Z := Codec (fun v => Ok (put_u32 v)) get_u32.
Definition codec_u64 : codec Z := Codec (fun v => Ok (put_u64 v)) get_u64.
Definition codec_i32 : codec Z := Codec (fun v => Ok (be_bytes 4 v)) get_i32.
Definition codec_i64 : codec Z := Codec (fun v => Ok (be_bytes 8 v)) get_i64.
Definition codec_u8 : codec Z := Codec (fun v => Ok (put_u32 v)) get_u8.
Definition codec_bool : codec bool := Codec (fun b => Ok (put_u32 (Z.b2z b))) get_bool.
Definition codec_opaque : codec (list byte) := Codec put_opaque get_opaque.
Definition codec_string : codec string :=
  Codec (fun s => put_opaque (String.list_byte_of_string s)) get_string.

(** [serialize_none]/[serialize_some], [deserialize_option]. *)
Definition codec_option {A} (c : codec A) : codec (option A) :=
  Codec (fun o => match o with
                  | None => Ok (put_u32 0)
                  | Some a => try b := c.(ser) a in Ok (put_u32 1 ++ b)
                  end)
        (read n <- get_u32 in
         match n with
         | 0 => rret None
         | 1 => read a <- c.(de) in rret (Some a)
         | _ => rfail (Message "invalid optional-data flag")
         end).

(** [serialize_seq] then [serialize_element] for each; [Elements] on the way in. *)
Fixpoint ser_elements {A} (c : codec A) (l : list A) : result (list byte) XdrError :=
  match l with
  | [] => Ok []
  | a :: l' => try b := c.(ser) a in try bs := ser_elements c l' in Ok (b ++ bs)
  end.

Fixpoint de_elements {A} (c : codec A) (left : nat) : reader (list A) :=
  match left with
  | O => rret []
  | S left' => read a <- c.(de) in read l <- de_elements c left' in rret (a :: l)
  end.

Definition codec_seq {A} (c : codec A) : codec (list A) :=
  Codec (fun l => try n := length_u32 (length l) "sequence" in
                  try bs := ser_elements c l in Ok (put_u32 n ++ bs))
        (read n <- get_u32 in de_elements c (Z.to_nat n)).

(** [serialize_struct]/[serialize_tuple]: the fields in order, no count. *)
Definition codec_pair {A B} (ca : codec A) (cb : codec B) : codec (A * B) :=
  Codec (fun '(a, b) => try ba := ca.(ser) a in try bb := cb.(ser) b in Ok (ba ++ bb))
        (read a <- ca.(de) in read b <- cb.(de) in rret (a, b)).

Definition codec_iso {A B} (f : A -> B) (g : B -> A) (c : codec A) : codec B :=
  Codec (fun b => c.(ser) (g b)) (read a <- c.(de) in rret (f a)).

(** [opaque_data::fixed_length]: one [u32] per 4-byte block, the last one padded
    with zeros on the right. *)
Fixpoint chunks4 (n : nat) (l : list byte) : list (list byte) :=
  match n with
  | O => []
  | S n' => take 4 l :: chunks4 n' (drop 4 l)
  end.

Definition div_ceil4 (n : nat) : nat := ((n + 3) / 4)%nat.

Definition fixed_length_ser (bytes : list byte) : list byte :=
  List.concat (map (fun block => put_u32 (be_val (block ++ replicate (4 - length block) x00)))
                   (chunks4 (div_ceil4 (length bytes)) bytes)).

(** Fills [n] bytes of [out], a word per (up to) 4 bytes. *)
Fixpoint fixed_length_de (blocks n : nat) : reader (list byte) :=
  match blocks with
  | O => rret []
  | S blocks' =>
    read word <- get_u32 in
    read rest <- fixed_length_de blocks' (n - 4) in
    rret (take (Nat.min 4 n) (be_bytes 4 word) ++ rest)
  end.

Definition codec_fixed (n : nat) : codec (list byte) :=
  Codec (fun b => Ok (fixed_length_ser b)) (fixed_length_de (div_ceil4 n) n).

(** [deserialize_enum]: the discriminant on the wire is the position of the variant
    in the declaration. *)
Definition deserialize_enum {V} (name : string) (variants : list V) : reader V :=
  read index <- get_u32 in
  if Z.of_nat (length variants) <=? index then rfail (Message ("invalid " +:+ name +:+ " variant"))
  else match variants !! Z.to_nat index with
       | Some v => rret v
       | None => rfail (Message "unreachable")
       end.

(** ** The codec contract *)

Class CodecOk {A} (c : codec A) (valid : A -> Prop) : Prop := {
  codec_total : forall a, valid a -> exists bs, c.(ser) a = Ok bs;
  codec_roundtrip : forall a bs rest,
    valid a -> c.(ser) a = Ok bs -> c.(de) (bs ++ rest) = Ok (a, rest);
  codec_aligned : forall a bs, c.(ser) a = Ok bs -> (length bs mod 4 = 0)%nat
}.

Lemma rbind_ok {A B} (m : reader A) (k : A -> reader B) s a s' :
  m s = Ok (a, s') -> rbind m k s = k a s'.
Proof. intros H. unfold rbind. by rewrite H. Qed.

Lemma codec_ok_impl {A} (c : codec A) (v v' : A -> Prop) :
  CodecOk c v -> (forall a, v' a -> v a) -> CodecOk c v'.
Proof.
  intros [Ht Hr Ha] Himp. split; [intros a H; by apply Ht, Himp| |done].
  intros a bs rest H. by apply Hr, Himp.
Qed.

Lemma get_app n b rest : length b = n -> get n (b ++ rest) = Ok (b, rest).
Proof.
  intros <-. unfold get. rewrite length_app.
  rewrite (proj2 (Nat.leb_le _ _)) by lia.
  by rewrite take_app_length, drop_app_length.
Qed.

Lemma get_u32_put v rest : in_width 32 v -> get_u32 (put_u32 v ++ rest) = Ok (v, rest).
Proof.
  intros H. unfold get_u32. rewrite (rbind_ok _ _ _ (put_u32 v) rest).
  - unfold rret, put_u32. by rewrite be_val_be_bytes_small.
  - apply get_app, length_be_bytes.
Qed.

Lemma get_u64_put v rest : in_width 64 v -> get_u64 (put_u64 v ++ rest) = Ok (v, rest).
Proof.
  intros H. unfold get_u64. rewrite (rbind_ok _ _ _ (put_u64 v) rest).
  - unfold rret, put_u64. by rewrite be_val_be_bytes_small.
  - apply get_app, length_be_bytes.
Qed.

Lemma signed_mod w z :
  0 < w -> - 2 ^ (w - 1) <= z < 2 ^ (w - 1) -> signed w (z mod 2 ^ w) = z.
Proof.
  intros Hw Hz. unfold signed.
  assert (E : 2 ^ w = 2 * 2 ^ (w - 1)) by (rewrite <- Z.pow_succ_r by lia; f_equal; lia).
  destruct (Z_lt_le_dec z 0) as [Hn|Hp].
  - rewrite <- (Z_mod_plus_full z 1), Z.mod_small by lia.
    destruct (Z.ltb_spec (z + 1 * 2 ^ w) (2 ^ (w - 1))); lia.
  - rewrite Z.mod_small by lia. destruct (Z.ltb_spec z (2 ^ (w - 1))); lia.
Qed.

Lemma padding_lt len : (padding len < 4)%nat.
Proof. unfold padding. apply Nat.mod_upper_bound. lia. Qed.

Lemma padding_aligns len : ((len + padding len) mod 4 = 0)%nat.
Proof.
  unfold padding. rewrite Nat.Div0.add_mod_idemp_r.
  pose proof (Nat.div_mod_eq len 4). pose proof (Nat.mod_upper_bound len 4 ltac:(lia)).
  replace (len + (4 - len mod 4))%nat with ((len / 4 + 1) * 4)%nat by lia.
  apply Nat.Div0.mod_mul.
Qed.

Lemma length_u32_ok n what :
  Z.of_nat n < 2 ^ 32 -> length_u32 n what = Ok (Z.of_nat n).
Proof. intros H. unfold length_u32. by rewrite (proj2 (Z.ltb_lt _ _) H). Qed.

Lemma length_u32_inv n what v :
  length_u32 n what = Ok v -> v = Z.of_nat n /\ in_width 32 v.
Proof.
  unfold length_u32. destruct (Z.ltb_spec (Z.of_nat n) (2 ^ 32)); [|done].
  intros <-%Ok_inj. split; [done|]. unfold in_width. lia.
Qed.

Lemma get_opaque_put d bs rest :
  put_opaque d = Ok bs -> get_opaque (bs ++ rest) = Ok (d, rest).
Proof.
  unfold put_opaque. intros (n & Hn & <-%Ok_inj)%result_bind_ok.
  apply length_u32_inv in Hn as [-> Hw].
  unfold get_opaque. rewrite <- app_assoc.
  rewrite (rbind_ok _ _ _ (Z.of_nat (length d)) ((d ++ replicate (padding (length d)) x00) ++ rest))
    by (by apply get_u32_put).
  cbv zeta. rewrite Nat2Z.id, <- ?app_assoc, take_app_length, drop_app_length, Z.ltb_irrefl.
  rewrite (rbind_ok _ _ _ (replicate (padding (length d)) x00) rest); [done|].
  apply get_app, length_replicate.
Qed.

Lemma put_opaque_total d :
  Z.of_nat (length d) < 2 ^ 32 -> exists bs, put_opaque d = Ok bs.
Proof. intros H. unfold put_opaque. rewrite length_u32_ok by done. simpl. eauto. Qed.

Lemma put_opaque_aligned d bs : put_opaque d = Ok bs -> (length bs mod 4 = 0)%nat.
Proof.
  unfold put_opaque. intros (n & Hn & <-%Ok_inj)%result_bind_ok.
  rewrite !length_app, length_replicate. unfold put_u32. rewrite length_be_bytes.
  rewrite Nat.Div0.add_mod, padding_aligns. done.
Qed.

Lemma aligned_app (a b : list byte) :
  (length a mod 4 = 0 -> length b mod 4 = 0 -> length (a ++ b) mod 4 = 0)%nat.
Proof. intros Ha Hb. by rewrite length_app, Nat.Div0.add_mod, Ha, Hb. Qed.

Lemma aligned_word v : (length (put_u32 v) mod 4 = 0)%nat.
Proof. unfold put_u32. by rewrite length_be_bytes. Qed.

#[export] Instance codec_u32_ok : CodecOk codec_u32 (in_width 32).
Proof.
  split.
  - simpl; eauto.
  - intros a ? rest Ha <-%Ok_inj. by apply get_u32_put.
  - intros a ? <-%Ok_inj. apply (aligned_word a).
Qed.

#[export] Instance codec_u64_ok : CodecOk codec_u64 (in_width 64).
Proof.
  split.
  - simpl; eauto.
  - intros a ? rest Ha <-%Ok_inj. by apply get_u64_put.
  - intros a ? <-%Ok_inj. unfold put_u64. by rewrite length_be_bytes.
Qed.

#[export] Instance codec_i64_ok : CodecOk codec_i64 (fun v => - 2 ^ 63 <= v < 2 ^ 63).
Proof.
  split.
  - simpl. eauto.
  - intros a ? rest Ha <-%Ok_inj. cbn [de codec_i64]. unfold get_i64, get_u64.
    erewrite rbind_ok; [|erewrite rbind_ok; [reflexivity|apply get_app, length_be_bytes]].
    unfold rret. rewrite be_val_be_bytes.
    change (8 * Z.of_nat 8) with 64. rewrite signed_mod; [done|lia|done].
  - intros a ? <-%Ok_inj. by rewrite length_be_bytes.
Qed.

#[export] Instance codec_u8_ok : CodecOk codec_u8 (in_width 8).
Proof.
  split.
  - simpl; eauto.
  - intros a ? rest Ha <-%Ok_inj. cbn [de codec_u8]. unfold get_u8.
    unfold in_width in Ha. rewrite (rbind_ok _ _ _ a rest) by (apply get_u32_put; unfold in_width; lia).
    unfold ranged. rewrite (proj2 (Z.leb_le 0 a)), (proj2 (Z.leb_le a 255)) by lia. done.
  - intros a ? <-%Ok_inj. apply (aligned_word a).
Qed.

#[export] Instance codec_bool_ok : CodecOk codec_bool (fun _ => True).
Proof.
  split.
  - simpl; eauto.
  - intros [] ? rest _ <-%Ok_inj; cbn [de codec_bool]; unfold get_bool;
      erewrite rbind_ok by (by apply get_u32_put); done.
  - intros a ? <-%Ok_inj. apply aligned_word.
Qed.

Definition opaque_valid (d : list byte) : Prop := Z.of_nat (length d) < 2 ^ 32.

#[export] Instance codec_opaque_ok : CodecOk codec_opaque opaque_valid.
Proof.
  split.
  - apply put_opaque_total.
  - intros. by apply get_opaque_put.
  - apply put_opaque_aligned.
Qed.

(** A [String] of the source: UTF-8, of an encodable length. *)
Definition string_valid (s : string) : Prop :=
  utf8_valid (String.list_byte_of_string s) = true /\ opaque_valid (String.list_byte_of_string s).

#[export] Instance codec_string_ok : CodecOk codec_string string_valid.
Proof.
  split.
  - intros s [_ H]. by apply put_opaque_total.
  - intros s bs rest [Hu _] Hs. cbn [de codec_string]. unfold get_string.
    rewrite (rbind_ok _ _ _ (String.list_byte_of_string s) rest) by (by apply get_opaque_put).
    rewrite Hu, String.string_of_list_byte_of_string. done.
  - intros s bs. apply put_opaque_aligned.
Qed.

Section Combinators.
Context {A B : Type} (ca : codec A) (cb : codec B) (va : A -> Prop) (vb : B -> Prop)
  `{!CodecOk ca va} `{!CodecOk cb vb}.

#[export] Instance codec_pair_ok :
  CodecOk (codec_pair ca cb) (fun p => va p.1 /\ vb p.2).
Proof.
  split.
  - intros [a b] [Ha Hb]. destruct (codec_total a Ha) as [ba Ea], (codec_total b Hb) as [bb Eb].
    simpl. rewrite Ea; simpl. rewrite Eb; simpl. eauto.
  - intros [a b] bs rest [Ha Hb] (ba & Ea & (bb & Eb & <-%Ok_inj)%result_bind_ok)%result_bind_ok.
    cbn [de codec_pair]. rewrite <- app_assoc.
    rewrite (rbind_ok _ _ _ a (bb ++ rest)) by (by apply codec_roundtrip).
    by rewrite (rbind_ok _ _ _ b rest) by (by apply codec_roundtrip).
  - intros [a b] bs (ba & Ea & (bb & Eb & <-%Ok_inj)%result_bind_ok)%result_bind_ok.
    apply aligned_app; [exact (codec_aligned _ _ Ea)|exact (codec_aligned _ _ Eb)].
Qed.

#[export] Instance codec_option_ok :
  CodecOk (codec_option ca) (fun o => match o with Some a => va a | None => True end).
Proof.
  split.
  - intros [a|]; simpl; [intros Ha|eauto].
    destruct (codec_total a Ha) as [b E]. rewrite E. simpl. eauto.
  - intros [a|] bs rest Ha; cbn [de ser codec_option].
    + intros (b & E & <-%Ok_inj)%result_bind_ok. rewrite <- app_assoc.
      rewrite (rbind_ok _ _ _ 1 (b ++ rest)) by (by apply get_u32_put).
      by rewrite (rbind_ok _ _ _ a rest) by (by apply codec_roundtrip).
    + intros <-%Ok_inj. by rewrite (rbind_ok _ _ _ 0 rest) by (by apply get_u32_put).
  - intros [a|] bs; cbn [ser codec_option].
    + intros (b & E & <-%Ok_inj)%result_bind_ok.
      apply aligned_app; [apply aligned_word|exact (codec_aligned _ _ E)].
    + intros <-%Ok_inj. apply aligned_word.
Qed.

Lemma elements_roundtrip l bs rest :
  Forall va l -> ser_elements ca l = Ok bs ->
  de_elements ca (length l) (bs ++ rest) = Ok (l, rest).
Proof.
  intros Hl. revert bs. induction Hl as [|a l Ha Hl IH]; intros bs; cbn [ser_elements].
  - by intros <-%Ok_inj.
  - intros (b & Eb & (bs' & Ebs & <-%Ok_inj)%result_bind_ok)%result_bind_ok.
    cbn [length de_elements]. rewrite <- app_assoc.
    rewrite (rbind_ok _ _ _ a (bs' ++ rest)) by (by apply codec_roundtrip).
    by rewrite (rbind_ok _ _ _ l rest) by (by apply IH).
Qed.

Lemma elements_total l : Forall va l -> exists bs, ser_elements ca l = Ok bs.
Proof.
  induction 1 as [|a l Ha Hl [bs IH]]; simpl; [eauto|].
  destruct (codec_total a Ha) as [b Eb]. rewrite Eb; simpl. rewrite IH; simpl. eauto.
Qed.

Lemma elements_aligned l bs : ser_elements ca l = Ok bs -> (length bs mod 4 = 0)%nat.
Proof.
  revert bs. induction l as [|a l IH]; intros bs; cbn [ser_elements].
  - by intros <-%Ok_inj.
  - intros (b & Eb & (bs' & Ebs & <-%Ok_inj)%result_bind_ok)%result_bind_ok.
    apply aligned_app; [exact (codec_aligned _ _ Eb)|by apply IH].
Qed.

#[export] Instance codec_seq_ok :
  CodecOk (codec_seq ca) (fun l => Z.of_nat (length l) < 2 ^ 32 /\ Forall va l).
Proof.
  split.
  - intros l [Hn Hl]. destruct (elements_total l Hl) as [bs E]. simpl.
    rewrite length_u32_ok by done. simpl. rewrite E. simpl. eauto.
  - intros l bs rest [Hn Hl] (n & En & (b & Eb & <-%Ok_inj)%result_bind_ok)%result_bind_ok.
    apply length_u32_inv in En as [-> Hw]. cbn [de codec_seq]. rewrite <- app_assoc.
    rewrite (rbind_ok _ _ _ (Z.of_nat (length l)) (b ++ rest)) by (by apply get_u32_put).
    rewrite Nat2Z.id. by apply elements_roundtrip.
  - intros l bs (n & En & (b & Eb & <-%Ok_inj)%result_bind_ok)%result_bind_ok.
    apply aligned_app; [apply aligned_word|by eapply elements_aligned].
Qed.

#[export] Instance codec_iso_ok {C} (f : A -> C) (g : C -> A) :
  (forall c, f (g c) = c) -> CodecOk (codec_iso f g ca) (fun c => va (g c)).
Proof.
  intros Hfg. split.
  - intros c Hc. apply (codec_total (g c) Hc).
  - intros c bs rest Hc E. cbn [de codec_iso].
    rewrite (rbind_ok _ _ _ (g c) rest) by (by apply codec_roundtrip).
    unfold rret. by rewrite Hfg.
  - intros c bs E. exact (codec_aligned (c:=ca) (g c) bs E).
Qed.
End Combinators.

(** ** Fixed-length opaque data *)

Lemma be_bytes_pad (block : list byte) k :
  (length block + k = 4)%nat ->
  be_bytes 4 (be_val (block ++ replicate k x00)) = block ++ replicate k x00.
Proof.
  intros H. replace 4%nat with (length (block ++ replicate k x00)); [apply be_bytes_be_val|].
  rewrite length_app, length_replicate. lia.
Qed.

Lemma div_ceil4_S n : (0 < n)%nat -> div_ceil4 n = S (div_ceil4 (n - 4)).
Proof.
  intros H. unfold div_ceil4. destruct (decide (n < 4)%nat) as [Hlt|Hge].
  - replace (n - 4)%nat with 0%nat by lia. do 4 (destruct n as [|n]; [done || lia|]). lia.
  - replace (n + 3)%nat with (n - 4 + 3 + 1 * 4)%nat by lia. rewrite Nat.div_add by lia. lia.
Qed.

(** One block of the encoder, by the length of what is left. *)
Lemma fixed_length_ser_step b :
  (0 < length b)%nat ->
  fixed_length_ser b = (take 4 b ++ replicate (4 - length (take 4 b)) x00) ++ fixed_length_ser (drop 4 b).
Proof.
  intros H. unfold fixed_length_ser. rewrite length_drop, (div_ceil4_S (length b) H).
  cbn [chunks4 map List.concat]. f_equal. unfold put_u32. apply be_bytes_pad.
  rewrite length_take. lia.
Qed.

Lemma fixed_length_ser_nil : fixed_length_ser [] = [].
Proof. done. Qed.

Lemma fixed_length_ser_spec b :
  fixed_length_ser b = b ++ replicate (padding (length b)) x00.
Proof.
  remember (length b) as n eqn:Hn. revert b Hn.
  induction n as [n IH] using (well_founded_induction lt_wf). intros b ->.
  destruct (decide (length b = 0)%nat) as [E0|E0].
  { apply nil_length_inv in E0 as ->. done. }
  rewrite fixed_length_ser_step by lia.
  destruct (decide (length b < 4)%nat) as [Hlt|Hge].
  - rewrite (take_ge b 4), (drop_ge b 4) by lia. rewrite fixed_length_ser_nil, app_nil_r.
    f_equal. f_equal. unfold padding. rewrite (Nat.mod_small (length b)) by lia.
    by rewrite Nat.mod_small by lia.
  - rewrite length_take, Nat.min_l, Nat.sub_diag by lia. simpl replicate. rewrite app_nil_r.
    rewrite (IH (length (drop 4 b))) by (rewrite ?length_drop; lia || done).
    rewrite app_assoc, take_drop. f_equal. f_equal. rewrite length_drop. unfold padding.
    replace (length b) with (length b - 4 + 1 * 4)%nat at 2 by lia.
    by rewrite Nat.Div0.mod_add.
Qed.

Lemma fixed_length_roundtrip b rest :
  fixed_length_de (div_ceil4 (length b)) (length b) (fixed_length_ser b ++ rest) = Ok (b, rest).
Proof.
  remember (length b) as n eqn:Hn. revert b Hn.
  induction n as [n IH] using (well_founded_induction lt_wf). intros b ->.
  destruct (decide (length b = 0)%nat) as [E0|E0].
  { apply nil_length_inv in E0 as ->. done. }
  rewrite fixed_length_ser_step, (div_ceil4_S (length b)) by lia. cbn [fixed_length_de].
  set (blk := take 4 b ++ replicate _ x00). rewrite <- app_assoc.
  assert (Hblk : length blk = 4%nat).
  { unfold blk. rewrite length_app, length_replicate, length_take. lia. }
  rewrite (rbind_ok _ _ _ (be_val blk) (fixed_length_ser (drop 4 b) ++ rest)).
  2: { unfold get_u32. by rewrite (rbind_ok _ _ _ blk (fixed_length_ser (drop 4 b) ++ rest)) by (by apply get_app). }
  rewrite (rbind_ok _ _ _ (drop 4 b) rest).
  - assert (Hbe : be_bytes 4 (be_val blk) = blk).
    { rewrite <- Hblk at 1. apply be_bytes_be_val. }
    unfold rret. rewrite Hbe. do 2 f_equal. rewrite <- (take_drop 4 b) at 3. f_equal.
    unfold blk. rewrite take_app_le by (rewrite length_take; lia).
    rewrite take_take. destruct (decide (4 <= length b)%nat); [f_equal; lia|].
    by rewrite !take_ge by lia.
  - replace (length b - 4)%nat with (length (drop 4 b)) by apply length_drop.
    apply IH; [rewrite length_drop; lia|done].
Qed.

#[export] Instance codec_fixed_ok n : CodecOk (codec_fixed n) (fun b => length b = n).
Proof.
  split.
  - simpl; eauto.
  - intros b bs rest <- <-%Ok_inj. apply fixed_length_roundtrip.
  - intros b bs <-%Ok_inj. rewrite fixed_length_ser_spec, length_app, length_replicate.
    apply padding_aligns.
Qed.

(** ** UTF-8 *)

(** The lossy conversion is the identity on UTF-8. *)
Lemma utf8_lossy_valid l : utf8_valid l = true -> utf8_lossy l = l.
Proof.
  remember (length l) as n eqn:Hn. revert l Hn.
  induction n as [n IH] using (well_founded_induction lt_wf). intros l ->.
  destruct l as [|b0 l1]; [done|]. cbn [utf8_valid utf8_lossy].
  destruct (in_range 0 127 b0).
  { intros H. f_equal. by apply (IH (length l1)); [simpl; lia| |]. }
  destruct l1 as [|b1 l2]; [done|]. destruct (in_range 194 223 b0).
  { intros [-> H]%andb_true_iff. do 2 f_equal. by apply (IH (length l2)); [simpl; lia| |]. }
  destruct l2 as [|b2 l3]; [done|]. destruct (in_range 224 239 b0).
  { intros [[-> ->]%andb_true_iff H]%andb_true_iff. do 3 f_equal.
    by apply (IH (length l3)); [simpl; lia| |]. }
  destruct l3 as [|b3 l4]; [done|]. destruct (in_range 240 244 b0); [|done].
  intros [[[-> ->]%andb_true_iff ->]%andb_true_iff H]%andb_true_iff. do 4 f_equal.
  by apply (IH (length l4)); [simpl; lia| |].
Qed.
