(* ===== verification/XdrScalars.v ===== *)
(** * The scalars that no protocol type uses ([proto/src/xdr.rs])

    The rest of the codec: small integers, floating-point numbers, characters, the unit,
    and what has no XDR form. A floating-point number is its IEEE bits, a character its
    code point. *)

From S2P Require Import Prelude Xdr.
From stdpp Require Import base list strings numbers.
From Stdlib Require Import Strings.Byte ZArith Lia.
#[local] Open Scope Z_scope.

Definition get_i8 : reader Z := read n <- get_i32 in fun s => try v := ranged (- 128) 127 n "i8" in Ok (v, s).
Definition get_i16 : reader Z := read n <- get_i32 in fun s => try v := ranged (- 32768) 32767 n "i16" in Ok (v, s).
Definition get_u16 : reader Z := read n <- get_u32 in fun s => try v := ranged 0 65535 n "u16" in Ok (v, s).

Definition codec_i8 : codec Z := Codec codec_i32.(ser) get_i8.
Definition codec_i16 : codec Z := Codec codec_i32.(ser) get_i16.
Definition codec_u16 : codec Z := Codec (fun v => Ok (put_u32 v)) get_u16.

Definition codec_f32 : codec Z := Codec (fun bits => Ok (be_bytes 4 bits)) (read b <- get 4 in rret (be_val b)).
Definition codec_f64 : codec Z := Codec (fun bits => Ok (be_bytes 8 bits)) (read b <- get 8 in rret (be_val b)).

(** [char::from_u32]: surrogates are not characters. *)
Definition is_char (n : Z) : bool := (n <? 0xD800) || ((0xDFFF <? n) && (n <=? 0x10FFFF)).
Definition get_char : reader Z := read n <- get_u32 in if is_char n then rret n else rfail (Message "invalid char").
Definition codec_char : codec Z := Codec (fun v => Ok (put_u32 v)) get_char.

Definition codec_unit : codec unit := Codec (fun _ => Ok []) (rret tt).

(** Nothing is read and nothing written. *)
Definition serialize_map (A : Type) (_ : A) : result (list byte) XdrError := Err (Message "maps have no XDR encoding").
Definition deserialize_map {A} : reader A := rfail (Message "maps have no XDR encoding").
Definition deserialize_any {A} : reader A := rfail (Message "XDR is not self-describing").
Definition deserialize_identifier {A} : reader A := rfail (Message "identifiers have no XDR encoding").
Definition deserialize_ignored_any {A} : reader A := rfail (Message "XDR can not skip a value of unknown type").

(** A sequence that does not know its length can not be written. *)
Definition serialize_seq (len : option nat) : result (list byte) XdrError :=
  match len with
  | None => Err (Message "sequence with unknown length")
  | Some len => try n := length_u32 len "sequence" in Ok (put_u32 n)
  end.

(** [to_bytes] and [from_bytes]; what is behind the value is not looked at. *)
Definition xdr_to_bytes {A} (c : codec A) (v : A) : result (list byte) XdrError := c.(ser) v.
Definition xdr_from_bytes {A} (c : codec A) (bytes : list byte) : result A XdrError := try v := c.(de) bytes in Ok v.1.

(** ** Round trips *)

Lemma get_i32_put v rest : - 2 ^ 31 <= v < 2 ^ 31 -> get_i32 (be_bytes 4 v ++ rest) = Ok (v, rest).
Proof.
  intros Hv. unfold get_i32, get_u32. erewrite rbind_ok; [|erewrite rbind_ok; [reflexivity|apply get_app, length_be_bytes]].
  unfold rret. rewrite be_val_be_bytes. change (8 * Z.of_nat 4) with 32. rewrite signed_mod; [done|lia|done].
Qed.

Lemma ranged_in lo hi v what : lo <= v <= hi -> ranged lo hi v what = Ok v.
Proof. intros Hv. unfold ranged. by rewrite (proj2 (Z.leb_le lo v)), (proj2 (Z.leb_le v hi)) by lia. Qed.

Lemma ranged_out lo hi v what : ~ lo <= v <= hi -> exists e, ranged lo hi v what = Err e.
Proof.
  intros Hv. unfold ranged. destruct (Z.leb_spec lo v), (Z.leb_spec v hi); cbn [andb]; [lia|by eexists..].
Qed.

(** A codec of one word or two, given that its reader reads back. *)
Lemma word_codec_ok {A} (c : codec A) (valid : A -> Prop) (enc : A -> list byte) :
  (forall a, c.(ser) a = Ok (enc a)) -> (forall a, (length (enc a) mod 4 = 0)%nat) ->
  (forall a rest, valid a -> c.(de) (enc a ++ rest) = Ok (a, rest)) -> CodecOk c valid.
Proof.
  intros Hs Hl Hd. split.
  - intros a _. rewrite Hs. by eexists.
  - intros a bs rest Ha. rewrite Hs. intros <-%Ok_inj. by apply Hd.
  - intros a bs. rewrite Hs. intros <-%Ok_inj. apply Hl.
Qed.

#[export] Instance codec_i32_ok : CodecOk codec_i32 (fun v => - 2 ^ 31 <= v < 2 ^ 31).
Proof. apply (word_codec_ok _ _ (be_bytes 4)); [done|intros; by rewrite length_be_bytes|intros; by apply get_i32_put]. Qed.

#[export] Instance codec_i8_ok : CodecOk codec_i8 (fun v => - 2 ^ 7 <= v < 2 ^ 7).
Proof.
  apply (word_codec_ok _ _ (be_bytes 4)); [done|intros; by rewrite length_be_bytes|]. intros v rest Hv. cbn [de codec_i8]. unfold get_i8.
  erewrite rbind_ok by (apply get_i32_put; lia). by rewrite ranged_in by lia.
Qed.

#[export] Instance codec_i16_ok : CodecOk codec_i16 (fun v => - 2 ^ 15 <= v < 2 ^ 15).
Proof.
  apply (word_codec_ok _ _ (be_bytes 4)); [done|intros; by rewrite length_be_bytes|]. intros v rest Hv. cbn [de codec_i16]. unfold get_i16.
  erewrite rbind_ok by (apply get_i32_put; lia). by rewrite ranged_in by lia.
Qed.

#[export] Instance codec_u16_ok : CodecOk codec_u16 (in_width 16).
Proof.
  apply (word_codec_ok _ _ put_u32); [done|apply aligned_word|]. unfold in_width. intros v rest Hv. cbn [de codec_u16]. unfold get_u16.
  erewrite rbind_ok by (apply get_u32_put; unfold in_width; lia). by rewrite ranged_in by lia.
Qed.

#[export] Instance codec_f32_ok : CodecOk codec_f32 (in_width 32).
Proof.
  apply (word_codec_ok _ _ (be_bytes 4)); [done|intros; by rewrite length_be_bytes|]. intros v rest Hv. cbn [de codec_f32].
  erewrite rbind_ok by (apply get_app, length_be_bytes). unfold rret. by rewrite be_val_be_bytes_small.
Qed.

#[export] Instance codec_f64_ok : CodecOk codec_f64 (in_width 64).
Proof.
  apply (word_codec_ok _ _ (be_bytes 8)); [done|intros; by rewrite length_be_bytes|]. intros v rest Hv. cbn [de codec_f64].
  erewrite rbind_ok by (apply get_app, length_be_bytes). unfold rret. by rewrite be_val_be_bytes_small.
Qed.

#[export] Instance codec_char_ok : CodecOk codec_char (fun n => 0 <= n /\ is_char n = true).
Proof.
  apply (word_codec_ok _ _ put_u32); [done|apply aligned_word|]. intros v rest [H0 Hv]. cbn [de codec_char]. unfold get_char.
  rewrite (rbind_ok _ _ _ v rest); [by rewrite Hv|]. apply get_u32_put. unfold in_width, is_char in *. lia.
Qed.

#[export] Instance codec_unit_ok : CodecOk codec_unit (fun _ => True).
Proof. by apply (word_codec_ok _ _ (fun _ => [])); [..|intros []]. Qed.

(** What is read fits its type: a word out of range is an error. *)
Lemma get_u16_width bs v rest : get_u16 bs = Ok (v, rest) -> in_width 16 v.
Proof.
  unfold get_u16, rbind, ranged, in_width. destruct (get_u32 bs) as [[n s]|]; [|done].
  destruct (Z.leb_spec 0 n), (Z.leb_spec n 65535); cbn; [|done..]. intros [= <- _]. lia.
Qed.

Lemma get_char_valid bs v rest : get_char bs = Ok (v, rest) -> is_char v = true.
Proof.
  unfold get_char, rbind. destruct (get_u32 bs) as [[n s]|]; [|done]. destruct (is_char n) eqn:En; [|done]. by intros [= <- _].
Qed.

Example scalars_demo :
  xdr_from_bytes codec_i8 [xff; xff; xff; x80] = Ok (- 128) /\ xdr_from_bytes codec_i8 [xff; xff; xff; x7f] = Err (Message "i8 out of range") /\
  xdr_from_bytes codec_char [x00; x00; xd8; x00] = Err (Message "invalid char") /\
  xdr_from_bytes codec_f64 [x3f; xf0; x00; x00; x00; x00; x00; x00] = Ok 0x3FF0000000000000 /\
  xdr_to_bytes codec_i16 (- 2) = Ok [xff; xff; xff; xfe].
Proof. vm_compute. repeat split. Qed.
