(* ===== verification/Rdma.v ===== *)
(** * RPC-over-RDMA framing ([rdma.rs])

    The header in front of every message and the descriptors of remote memory, in network
    order. There is no transport behind them yet; the configuration is what it would take. *)

From S2P Require Import Prelude.
From stdpp Require Import base list strings pretty.
From Stdlib Require Import Strings.Byte ZArith Lia.
#[local] Open Scope Z_scope.

Definition RPCRDMA_VERSION : Z := 1.
Definition DEFAULT_INLINE_THRESHOLD : Z := 4096.

Inductive RdmaProc : Type := RdmaMsg | RdmaNoMsg | RdmaMsgP | RdmaDone | RdmaErrorProc.

Definition RdmaProc_to_u32 (p : RdmaProc) : Z :=
  match p with RdmaMsg => 0 | RdmaNoMsg => 1 | RdmaMsgP => 2 | RdmaDone => 3 | RdmaErrorProc => 4 end.

Definition RdmaProc_try_from (v : Z) : result RdmaProc Z :=
  match v with
  | 0 => Ok RdmaMsg
  | 1 => Ok RdmaNoMsg
  | 2 => Ok RdmaMsgP
  | 3 => Ok RdmaDone
  | 4 => Ok RdmaErrorProc
  | _ => Err v
  end.

(** The text of an I/O error is the operating system's. *)
Inductive RdmaError : Type :=
| ShortHeader (len : nat)
| UnknownProc (v : Z)
| VersionMismatch (v : Z)
| DeviceNotFound (d : string)
| MemoryRegistration (e : string)
| QueuePairError (e : string)
| RdmaIo (e : string).

(** [Display] *)
Definition RdmaError_fmt (e : RdmaError) : string :=
  match e with
  | ShortHeader len => "RDMA header too short: " +:+ pretty (Z.of_nat len) +:+ " bytes"
  | UnknownProc v => "unknown RDMA proc type: " +:+ pretty v
  | VersionMismatch v => "RDMA version mismatch: " +:+ pretty v +:+ " (expected " +:+ pretty RPCRDMA_VERSION +:+ ")"
  | DeviceNotFound d => "RDMA device not found: " +:+ d
  | MemoryRegistration e => "RDMA memory registration failed: " +:+ e
  | QueuePairError e => "RDMA queue pair error: " +:+ e
  | RdmaIo e => "RDMA I/O error: " +:+ e
  end.

Record RdmaHeader : Type := MkRdmaHeader { rdma_xid : Z; rdma_vers : Z; credits : Z; proc_type : RdmaProc }.

Record RdmaSegment : Type := MkRdmaSegment { seg_handle : Z; seg_length : Z; seg_offset : Z }.

Record ReadChunk : Type := MkReadChunk { position : Z; target : RdmaSegment }.
Record WriteChunk : Type := MkWriteChunk { targets : list RdmaSegment }.

Record RdmaConfig : Type := MkRdmaConfig {
  device : string; port : Z; gid_index : Z; inline_threshold : Z; send_queue_depth : Z; recv_queue_depth : Z; max_sge : Z
}.
Definition RdmaConfig_default : RdmaConfig := MkRdmaConfig "" 1 0 DEFAULT_INLINE_THRESHOLD 128 128 4.

(** [buf[at..at + n]] in network order. *)
Definition field (buf : list byte) (at_ n : nat) : Z := be_val (take n (drop at_ buf)).

Definition header_to_bytes (h : RdmaHeader) : list byte :=
  be_bytes 4 (rdma_xid h) ++ be_bytes 4 (rdma_vers h) ++ be_bytes 4 (credits h) ++ be_bytes 4 (RdmaProc_to_u32 (proc_type h)).

Definition header_from_bytes (buf : list byte) : result RdmaHeader RdmaError :=
  if (length buf <? 16)%nat then Err (ShortHeader (length buf)) else
  match RdmaProc_try_from (field buf 12 4) with
  | Err v => Err (UnknownProc v)
  | Ok proc =>
    if negb (field buf 4 4 =? RPCRDMA_VERSION) then Err (VersionMismatch (field buf 4 4))
    else Ok (MkRdmaHeader (field buf 0 4) (field buf 4 4) (field buf 8 4) proc)
  end.

Definition segment_to_bytes (s : RdmaSegment) : list byte :=
  be_bytes 4 (seg_handle s) ++ be_bytes 4 (seg_length s) ++ be_bytes 8 (seg_offset s).

Definition segment_from_bytes (buf : list byte) : result RdmaSegment RdmaError :=
  if (length buf <? 16)%nat then Err (ShortHeader (length buf))
  else Ok (MkRdmaSegment (field buf 0 4) (field buf 4 4) (field buf 8 8)).

(** ** What is read is what was written *)

Definition header_ok (h : RdmaHeader) : Prop := in_width 32 (rdma_xid h) /\ rdma_vers h = RPCRDMA_VERSION /\ in_width 32 (credits h).
Definition segment_ok (s : RdmaSegment) : Prop := in_width 32 (seg_handle s) /\ in_width 32 (seg_length s) /\ in_width 64 (seg_offset s).

Lemma try_from_ok v p : RdmaProc_try_from v = Ok p <-> v = RdmaProc_to_u32 p.
Proof.
  split; [|intros ->; by destruct p].
  intros H. destruct p; unfold RdmaProc_try_from in H; repeat case_match; simplify_eq; done.
Qed.

Lemma try_from_err v w : in_width 32 v -> RdmaProc_try_from v = Err w <-> w = v /\ 4 < v.
Proof.
  intros [Hv _]. destruct (Z_lt_le_dec 4 v) as [Hlt|Hle].
  - assert (E : RdmaProc_try_from v = Err v).
    { unfold RdmaProc_try_from. repeat case_match; (done || lia). }
    rewrite E. split; [by intros [= <-]|by intros [-> _]].
  - assert (Hc : v = 0 \/ v = 1 \/ v = 2 \/ v = 3 \/ v = 4) by lia.
    split; [|lia]. by destruct Hc as [->|[->|[->|[->| ->]]]].
Qed.

Lemma field_width buf at_ n : in_width (8 * Z.of_nat n) (field buf at_ n).
Proof.
  unfold field, in_width. pose proof (be_val_range (take n (drop at_ buf))) as [H0 H1]. split; [done|].
  apply (Z.lt_le_trans _ _ _ H1). rewrite Z.pow_mul_r by lia. apply Z.pow_le_mono_r; [done|]. rewrite length_take. lia.
Qed.

(** The bytes of a field are those of its number. *)
Lemma field_bytes buf at_ n : (at_ + n <= length buf)%nat -> be_bytes n (field buf at_ n) = take n (drop at_ buf).
Proof.
  intros H. unfold field. rewrite <- (be_bytes_be_val (take n (drop at_ buf))) at 2. f_equal.
  rewrite length_take, length_drop. lia.
Qed.

(** The field behind [at_] bytes. *)
Lemma field_app front n v rest at_ :
  length front = at_ -> in_width (8 * Z.of_nat n) v -> field (front ++ be_bytes n v ++ rest) at_ n = v.
Proof.
  intros <- Hv. unfold field. rewrite drop_app_length, take_app_length' by (symmetry; apply length_be_bytes).
  by apply be_val_be_bytes_small.
Qed.

Lemma take_split {A} (l : list A) a b : take (a + b) l = take a l ++ take b (drop a l).
Proof. revert l. induction a as [|a IH]; intros l; [done|]. destruct l; [by destruct b|]. simpl. by rewrite IH. Qed.

Lemma take16 (buf : list byte) : take 16 buf = take 4 buf ++ take 4 (drop 4 buf) ++ take 4 (drop 8 buf) ++ take 4 (drop 12 buf).
Proof.
  change (take 16 buf) with (take (4 + (4 + (4 + 4))) buf). by rewrite !take_split, !drop_drop.
Qed.

(** The header of an RPC-over-RDMA message reads back, whatever follows it; and what is
    read from any bytes is told apart exactly: they are short, or of an unknown procedure,
    or of another version, or they start with the encoding of the header that is given. *)
Theorem rdma_header_exact buf :
  (forall h rest, header_ok h -> header_from_bytes (header_to_bytes h ++ rest) = Ok h) /\
  match header_from_bytes buf with
  | Ok h => header_ok h /\ take 16 buf = header_to_bytes h
  | Err (ShortHeader n) => n = length buf /\ (n < 16)%nat
  | Err (UnknownProc v) => (16 <= length buf)%nat /\ v = field buf 12 4 /\ 4 < v
  | Err (VersionMismatch v) => (16 <= length buf)%nat /\ v = field buf 4 4 /\ v <> 1 /\ field buf 12 4 <= 4
  | Err _ => False
  end.
Proof.
  split.
  - intros [x ve cr p] rest (Hx & Hv & Hc). cbn [rdma_xid rdma_vers credits] in *. subst ve.
    unfold header_from_bytes, header_to_bytes. cbn [rdma_xid rdma_vers credits proc_type].
    rewrite !length_app, !length_be_bytes, <- !app_assoc, (proj2 (Nat.ltb_ge _ _)) by lia.
    assert (F0 : field (be_bytes 4 x ++ be_bytes 4 1 ++ be_bytes 4 cr ++ be_bytes 4 (RdmaProc_to_u32 p) ++ rest) 0 4 = x) by by apply (field_app []).
    assert (F1 : field (be_bytes 4 x ++ be_bytes 4 1 ++ be_bytes 4 cr ++ be_bytes 4 (RdmaProc_to_u32 p) ++ rest) 4 4 = 1)
      by by apply (field_app (be_bytes 4 x)).
    assert (F2 : field (be_bytes 4 x ++ be_bytes 4 1 ++ be_bytes 4 cr ++ be_bytes 4 (RdmaProc_to_u32 p) ++ rest) 8 4 = cr)
      by (rewrite (app_assoc (be_bytes 4 x)); by apply field_app).
    assert (F3 : field (be_bytes 4 x ++ be_bytes 4 1 ++ be_bytes 4 cr ++ be_bytes 4 (RdmaProc_to_u32 p) ++ rest) 12 4 = RdmaProc_to_u32 p)
      by (rewrite (app_assoc (be_bytes 4 x)), (app_assoc (_ ++ _)); apply field_app; [done|by destruct p]).
    change RPCRDMA_VERSION with 1 in *. rewrite F0, F1, F2, F3. by destruct p.
  - unfold header_from_bytes. destruct (Nat.ltb_spec (length buf) 16) as [Hs|Hl]; [done|].
    pose proof (field_width buf 12 4) as W. change (8 * Z.of_nat 4) with 32 in W.
    destruct (RdmaProc_try_from (field buf 12 4)) as [p|v] eqn:Ep.
    + apply try_from_ok in Ep. destruct (Z.eqb_spec (field buf 4 4) RPCRDMA_VERSION) as [Hv|Hv]; cbn [negb].
      * split; [split; [apply (field_width buf 0 4)|split; [done|apply (field_width buf 8 4)]]|].
        unfold header_to_bytes. cbn [rdma_xid rdma_vers credits proc_type]. rewrite <- Ep, !field_bytes by lia. apply take16.
      * split; [done|]. split; [done|]. split; [done|]. rewrite Ep. by destruct p.
    + apply try_from_err in Ep as [-> Hlt]; [|done]. done.
Qed.

Lemma rdma_header_exact_witness :
  header_from_bytes (header_to_bytes (MkRdmaHeader 7 1 32 RdmaNoMsg) ++ [x00]) = Ok (MkRdmaHeader 7 1 32 RdmaNoMsg) /\
  header_from_bytes (header_to_bytes (MkRdmaHeader 7 2 32 RdmaNoMsg)) = Err (VersionMismatch 2).
Proof. by vm_compute. Qed.

(** A segment reads back, whatever follows it, and any sixteen bytes are a segment. *)
Lemma segment_exact s rest buf :
  (segment_ok s -> segment_from_bytes (segment_to_bytes s ++ rest) = Ok s) /\
  match segment_from_bytes buf with
  | Ok s => segment_ok s /\ take 16 buf = segment_to_bytes s
  | Err e => e = ShortHeader (length buf) /\ (length buf < 16)%nat
  end.
Proof.
  split.
  - destruct s as [h l o]. intros (Hh & Hl & Ho). cbn [seg_handle seg_length seg_offset] in *.
    unfold segment_from_bytes, segment_to_bytes. cbn [seg_handle seg_length seg_offset].
    rewrite !length_app, !length_be_bytes, <- !app_assoc, (proj2 (Nat.ltb_ge _ _)) by lia. f_equal. f_equal.
    + by apply (field_app []).
    + by apply (field_app (be_bytes 4 h)).
    + rewrite app_assoc. by apply field_app.
  - unfold segment_from_bytes. destruct (Nat.ltb_spec (length buf) 16) as [Hs|Hl]; [done|].
    split; [split; [apply (field_width buf 0 4)|split; [apply (field_width buf 4 4)|apply (field_width buf 8 8)]]|].
    unfold segment_to_bytes. cbn [seg_handle seg_length seg_offset]. rewrite !field_bytes by lia.
    change (take 16 buf) with (take (4 + (4 + 8)) buf). by rewrite !take_split, !drop_drop.
Qed.
