(* ===== verification/Attrs.v ===== *)
(** * File attributes on the wire ([proto/src/utils.rs])

    [bitmap4] words ([file_attrs_to_bitmap], [from_u32]) and attribute values
    ([Attrlist4<FileAttrValue>::to_bytes], [FattrRaw::attrvalues_from_bytes]). The
    decoder of the source keeps an [offset] into the value bytes; the model keeps
    the bytes from that offset on ([buf[offset..]]), and [None] is its [break]. *)

From S2P Require Import Prelude NfsTypes Xdr.
From stdpp Require Import base list strings numbers sorting.
From Stdlib Require Import Strings.Byte ZArith Lia.
#[local] Open Scope Z_scope.

(** ** Bitmaps *)

Definition as_i16 (z : Z) : Z := signed 16 (wrap 16 z).

Definition div_ceil (a b : Z) : Z := (a + b - 1) / b.

(** One round of the [while let Some(idx) = idxs.pop()] loop: [attrs] holds the
    finished words, [segment] the current one. *)
Definition bitmap_step (st : list Z * Z) (idx : Z) : list Z * Z :=
  let '(attrs, segment) := st in
  let '(attrs, segment) :=
    if as_i16 (Z.of_nat (length attrs)) <? as_i16 (div_ceil idx 31) - 1
    then (attrs ++ [segment], 0) else (attrs, segment) in
  (attrs, wrap 32 (segment + 2 ^ (idx mod 32))).

Definition file_attrs_to_bitmap (l : list FileAttr) : list Z :=
  let '(attrs, segment) := fold_left bitmap_step (map FileAttr_to_u32 l) ([], 0) in
  attrs ++ [segment].

(** The attributes of one word: bit [n] of word [idx] is attribute [idx * 32 + n]. *)
Definition segment_attrs (idx segment : Z) : list FileAttr :=
  omap (fun n => if Z.land (Z.shiftr segment n) 1 =? 1 then FileAttr_from_u32 (idx * 32 + n) else None)
       (seqZ 0 32).

Fixpoint from_u32_at (idx : Z) (raw : list Z) : list FileAttr :=
  match raw with
  | [] => []
  | segment :: raw' => segment_attrs idx segment ++ from_u32_at (idx + 1) raw'
  end.

Definition from_u32 (raw : list Z) : list FileAttr := from_u32_at 0 raw.

(** ** Values *)

(** A length word, the bytes, zero padding to a multiple of four. *)
Definition put_counted (b : list byte) : list byte :=
  be_bytes 4 (wrap 32 (Z.of_nat (length b))) ++ b ++ replicate (padding (length b)) x00.

Definition put_str (s : string) : list byte := put_counted (String.list_byte_of_string s).

Definition put_bool (b : bool) : list byte := be_bytes 4 (Z.b2z b).

Definition put_count {A} (l : list A) : list byte := be_bytes 4 (wrap 32 (Z.of_nat (length l))).

Definition put_time (t : Nfstime4) : list byte :=
  be_bytes 8 (nfstime4_seconds t) ++ be_bytes 4 (nfstime4_nseconds t).

Definition put_ace (a : Nfsace4) : list byte :=
  be_bytes 4 (nfsace4_acetype a) ++ be_bytes 4 (nfsace4_flag a) ++
  be_bytes 4 (nfsace4_access_mask a) ++ put_str (nfsace4_who a).

Definition write_pathname4 (path : list string) : list byte :=
  put_count path ++ concat (map put_str path).

Definition put_location (l : FsLocation4) : list byte :=
  write_pathname4 (fsLocation4_server l) ++ write_pathname4 (fsLocation4_rootpath l).

(** One arm of [to_bytes]; values with no arm there write nothing. *)
Definition value_to_bytes (v : FileAttrValue) : list byte :=
  match v with
  | FileAttrValue_Type v => be_bytes 4 (NfsFtype4_to_u32 v)
  | FileAttrValue_RdattrError v => be_bytes 4 (NfsStat4_to_u32 v)
  | FileAttrValue_SupportedAttrs v =>
      let attrs := file_attrs_to_bitmap v in
      put_count attrs ++ concat (map (be_bytes 4) attrs)
  | FileAttrValue_Fsid v => be_bytes 8 (fsid4_major v) ++ be_bytes 8 (fsid4_minor v)
  | FileAttrValue_Change v => be_bytes 8 v
  | FileAttrValue_Size v => be_bytes 8 v
  | FileAttrValue_Fileid v => be_bytes 8 v
  | FileAttrValue_MountedOnFileid v => be_bytes 8 v
  | FileAttrValue_QuotaAvailHard v => be_bytes 8 v
  | FileAttrValue_QuotaAvailSoft v => be_bytes 8 v
  | FileAttrValue_QuotaUsed v => be_bytes 8 v
  | FileAttrValue_SpaceAvail v => be_bytes 8 v
  | FileAttrValue_SpaceFree v => be_bytes 8 v
  | FileAttrValue_SpaceTotal v => be_bytes 8 v
  | FileAttrValue_SpaceUsed v => be_bytes 8 v
  | FileAttrValue_Maxfilesize v => be_bytes 8 v
  | FileAttrValue_Maxread v => be_bytes 8 v
  | FileAttrValue_Maxwrite v => be_bytes 8 v
  | FileAttrValue_FilesAvail v => be_bytes 8 v
  | FileAttrValue_FilesFree v => be_bytes 8 v
  | FileAttrValue_FilesTotal v => be_bytes 8 v
  | FileAttrValue_LeaseTime v => be_bytes 4 v
  | FileAttrValue_FhExpireType v => be_bytes 4 v
  | FileAttrValue_AclSupport v => be_bytes 4 v
  | FileAttrValue_Mode v => be_bytes 4 v
  | FileAttrValue_Numlinks v => be_bytes 4 v
  | FileAttrValue_Maxlink v => be_bytes 4 v
  | FileAttrValue_Maxname v => be_bytes 4 v
  | FileAttrValue_LinkSupport v => put_bool v
  | FileAttrValue_SymlinkSupport v => put_bool v
  | FileAttrValue_NamedAttr v => put_bool v
  | FileAttrValue_UniqueHandles v => put_bool v
  | FileAttrValue_Homogeneous v => put_bool v
  | FileAttrValue_NoTrunc v => put_bool v
  | FileAttrValue_Cansettime v => put_bool v
  | FileAttrValue_CaseInsensitive v => put_bool v
  | FileAttrValue_CasePreserving v => put_bool v
  | FileAttrValue_ChownRestricted v => put_bool v
  | FileAttrValue_TimeAccess v => put_time v
  | FileAttrValue_TimeModify v => put_time v
  | FileAttrValue_TimeMetadata v => put_time v
  | FileAttrValue_TimeCreate v => put_time v
  | FileAttrValue_TimeDelta v => put_time v
  | FileAttrValue_Acl aces => put_count aces ++ concat (map put_ace aces)
  | FileAttrValue_Owner v => put_str v
  | FileAttrValue_OwnerGroup v => put_str v
  | FileAttrValue_FsLocations v =>
      write_pathname4 (fsLocations4_fs_root v) ++
      put_count (fsLocations4_locations v) ++ concat (map put_location (fsLocations4_locations v))
  | _ => []
  end.

Definition attrvalues_to_bytes (l : list FileAttrValue) : list byte := concat (map value_to_bytes l).

(** ** Decoding *)

(** [buf[offset..offset + n]] read big-endian, when it is there. *)
Definition take_be (n : nat) (buf : list byte) : option (Z * list byte) :=
  if (n <=? length buf)%nat then Some (be_val (take n buf), drop n buf) else None.

Definition lossy (b : list byte) : string := String.string_of_list_byte (utf8_lossy b).

(** A counted string: the bytes must be there, the padding may be cut off. *)
Definition take_str (buf : list byte) : option (string * list byte) :=
  '(len, buf) ← take_be 4 buf;
  if Z.of_nat (length buf) <? len then None
  else let n := Z.to_nat len in
       Some (lossy (take n buf), drop (n + padding n) buf).

Definition take_time (buf : list byte) : option (Nfstime4 * list byte) :=
  if (12 <=? length buf)%nat then
    Some (MkNfstime4 (signed 64 (be_val (take 8 buf))) (be_val (take 4 (drop 8 buf))), drop 12 buf)
  else None.

(** [(slen + 3) & !3] *)
Definition padded (slen : Z) : Z := Z.ldiff (slen + 3) 3.

Fixpoint read_components (count : nat) (buf : list byte) : option (list string * list byte) :=
  match count with
  | O => Some ([], buf)
  | S count' =>
    '(slen, buf) ← take_be 4 buf;
    if Z.of_nat (length buf) <? padded slen then None
    else
      let s := lossy (take (Z.to_nat slen) buf) in
      '(l, buf) ← read_components count' (drop (Z.to_nat (padded slen)) buf);
      Some (s :: l, buf)
  end.

Definition read_pathname4 (buf : list byte) : option (list string * list byte) :=
  '(count, buf) ← take_be 4 buf; read_components (Z.to_nat count) buf.

Fixpoint read_locations (count : nat) (buf : list byte) : option (list FsLocation4 * list byte) :=
  match count with
  | O => Some ([], buf)
  | S count' =>
    '(server, buf) ← read_pathname4 buf;
    '(rootpath, buf) ← read_pathname4 buf;
    '(l, buf) ← read_locations count' buf;
    Some (MkFsLocation4 server rootpath :: l, buf)
  end.

Definition take_fs_locations (buf : list byte) : option (FsLocations4 * list byte) :=
  '(fs_root, buf) ← read_pathname4 buf;
  '(count, buf) ← take_be 4 buf;
  '(locations, buf) ← read_locations (Z.to_nat count) buf;
  Some (MkFsLocations4 fs_root locations, buf).

(** The ACE loop: it stops at the first entry that is cut off, keeping the entries
    before it, and leaves the offset where it had come to. *)
Fixpoint read_aces (count : nat) (buf : list byte) : list Nfsace4 * list byte :=
  match count with
  | O => ([], buf)
  | S count' =>
    if (length buf <? 12)%nat then ([], buf) else
    let acetype := be_val (take 4 buf) in
    let flag := be_val (take 4 (drop 4 buf)) in
    let access_mask := be_val (take 4 (drop 8 buf)) in
    let buf := drop 12 buf in
    match take_be 4 buf with
    | None => ([], buf)
    | Some (who_len, buf) =>
      if Z.of_nat (length buf) <? who_len then ([], buf) else
      let n := Z.to_nat who_len in
      let who := lossy (take n buf) in
      let '(aces, buf) := read_aces count' (drop (n + padding n) buf) in
      (MkNfsace4 acetype flag access_mask who :: aces, buf)
    end
  end.

Definition decode_ftype (val : Z) : NfsFtype4 :=
  match val with
  | 1 => Nf4reg | 2 => Nf4dir | 3 => Nf4blk | 4 => Nf4chr | 5 => Nf4lnk
  | 6 => Nf4sock | 7 => Nf4fifo | 8 => Nf4attrdir | 9 => Nf4namedattr
  | _ => Nf4Undef
  end.

Definition taking {A} (f : A -> FileAttrValue) (o : option (A * list byte))
    : option (FileAttrValue * list byte) :=
  '(a, buf) ← o; Some (f a, buf).

(** One arm of the [match attr] of [attrvalues_from_bytes]. *)
Definition value_from_bytes (attr : FileAttr) (buf : list byte) : option (FileAttrValue * list byte) :=
  match attr with
  | FileAttr_Type => taking (fun v => FileAttrValue_Type (decode_ftype v)) (take_be 4 buf)
  | FileAttr_Change => taking FileAttrValue_Change (take_be 8 buf)
  | FileAttr_Size => taking FileAttrValue_Size (take_be 8 buf)
  | FileAttr_QuotaAvailHard => taking FileAttrValue_QuotaAvailHard (take_be 8 buf)
  | FileAttr_QuotaAvailSoft => taking FileAttrValue_QuotaAvailSoft (take_be 8 buf)
  | FileAttr_QuotaUsed => taking FileAttrValue_QuotaUsed (take_be 8 buf)
  | FileAttr_SpaceAvail => taking FileAttrValue_SpaceAvail (take_be 8 buf)
  | FileAttr_SpaceFree => taking FileAttrValue_SpaceFree (take_be 8 buf)
  | FileAttr_SpaceTotal => taking FileAttrValue_SpaceTotal (take_be 8 buf)
  | FileAttr_SpaceUsed => taking FileAttrValue_SpaceUsed (take_be 8 buf)
  | FileAttr_MountedOnFileid => taking FileAttrValue_MountedOnFileid (take_be 8 buf)
  | FileAttr_FilesAvail => taking FileAttrValue_FilesAvail (take_be 8 buf)
  | FileAttr_FilesFree => taking FileAttrValue_FilesFree (take_be 8 buf)
  | FileAttr_FilesTotal => taking FileAttrValue_FilesTotal (take_be 8 buf)
  | FileAttr_Mode => taking FileAttrValue_Mode (take_be 4 buf)
  | FileAttr_Numlinks => taking FileAttrValue_Numlinks (take_be 4 buf)
  | FileAttr_CaseInsensitive => taking (fun v => FileAttrValue_CaseInsensitive (negb (v =? 0))) (take_be 4 buf)
  | FileAttr_CasePreserving => taking (fun v => FileAttrValue_CasePreserving (negb (v =? 0))) (take_be 4 buf)
  | FileAttr_TimeAccess => taking FileAttrValue_TimeAccess (take_time buf)
  | FileAttr_TimeModify => taking FileAttrValue_TimeModify (take_time buf)
  | FileAttr_TimeMetadata => taking FileAttrValue_TimeMetadata (take_time buf)
  | FileAttr_TimeCreate => taking FileAttrValue_TimeCreate (take_time buf)
  | FileAttr_TimeDelta => taking FileAttrValue_TimeDelta (take_time buf)
  | FileAttr_FsLocations => taking FileAttrValue_FsLocations (take_fs_locations buf)
  | FileAttr_Owner => taking FileAttrValue_Owner (take_str buf)
  | FileAttr_OwnerGroup => taking FileAttrValue_OwnerGroup (take_str buf)
  | FileAttr_Acl =>
      '(count, buf) ← take_be 4 buf;
      let '(aces, buf) := read_aces (Z.to_nat count) buf in Some (FileAttrValue_Acl aces, buf)
  | _ => None
  end.

Fixpoint attrvalues_from_bytes (fileattrs : list FileAttr) (buf : list byte) : list FileAttrValue :=
  match fileattrs with
  | [] => []
  | attr :: rest =>
    match value_from_bytes attr buf with
    | None => []
    | Some (v, buf) => v :: attrvalues_from_bytes rest buf
    end
  end.

(** [Fattr4]: [FattrRaw] is the mask and the opaque values. *)
Definition codec_fattr4 : codec Fattr4 :=
  Codec (fun a => (codec_pair (codec_seq codec_u32) codec_opaque).(ser)
                    (file_attrs_to_bitmap (fattr4_attrmask a), attrvalues_to_bytes (fattr4_attr_vals a)))
        (read raw <- (codec_pair (codec_seq codec_u32) codec_opaque).(de) in
         let attrmask := from_u32 raw.1 in
         rret (MkFattr4 attrmask (attrvalues_from_bytes attrmask raw.2))).

(** The attribute a value belongs to. *)
Definition attr_of_value (v : FileAttrValue) : FileAttr :=
  match v with
  | FileAttrValue_SupportedAttrs _ => FileAttr_SupportedAttrs
  | FileAttrValue_Type _ => FileAttr_Type
  | FileAttrValue_FhExpireType _ => FileAttr_FhExpireType
  | FileAttrValue_Change _ => FileAttr_Change
  | FileAttrValue_Size _ => FileAttr_Size
  | FileAttrValue_LinkSupport _ => FileAttr_LinkSupport
  | FileAttrValue_SymlinkSupport _ => FileAttr_SymlinkSupport
  | FileAttrValue_NamedAttr _ => FileAttr_NamedAttr
  | FileAttrValue_Fsid _ => FileAttr_Fsid
  | FileAttrValue_UniqueHandles _ => FileAttr_UniqueHandles
  | FileAttrValue_LeaseTime _ => FileAttr_LeaseTime
  | FileAttrValue_RdattrError _ => FileAttr_RdattrError
  | FileAttrValue_Acl _ => FileAttr_Acl
  | FileAttrValue_AclSupport _ => FileAttr_AclSupport
  | FileAttrValue_Archive => FileAttr_Archive
  | FileAttrValue_Cansettime _ => FileAttr_Cansettime
  | FileAttrValue_CaseInsensitive _ => FileAttr_CaseInsensitive
  | FileAttrValue_CasePreserving _ => FileAttr_CasePreserving
  | FileAttrValue_ChownRestricted _ => FileAttr_ChownRestricted
  | FileAttrValue_Filehandle _ => FileAttr_Filehandle
  | FileAttrValue_Fileid _ => FileAttr_Fileid
  | FileAttrValue_FilesAvail _ => FileAttr_FilesAvail
  | FileAttrValue_FilesFree _ => FileAttr_FilesFree
  | FileAttrValue_FilesTotal _ => FileAttr_FilesTotal
  | FileAttrValue_FsLocations _ => FileAttr_FsLocations
  | FileAttrValue_Hidden => FileAttr_Hidden
  | FileAttrValue_Homogeneous _ => FileAttr_Homogeneous
  | FileAttrValue_Maxfilesize _ => FileAttr_Maxfilesize
  | FileAttrValue_Maxlink _ => FileAttr_Maxlink
  | FileAttrValue_Maxname _ => FileAttr_Maxname
  | FileAttrValue_Maxread _ => FileAttr_Maxread
  | FileAttrValue_Maxwrite _ => FileAttr_Maxwrite
  | FileAttrValue_Mimetype _ => FileAttr_Mimetype
  | FileAttrValue_Mode _ => FileAttr_Mode
  | FileAttrValue_NoTrunc _ => FileAttr_NoTrunc
  | FileAttrValue_Numlinks _ => FileAttr_Numlinks
  | FileAttrValue_Owner _ => FileAttr_Owner
  | FileAttrValue_OwnerGroup _ => FileAttr_OwnerGroup
  | FileAttrValue_QuotaAvailHard _ => FileAttr_QuotaAvailHard
  | FileAttrValue_QuotaAvailSoft _ => FileAttr_QuotaAvailSoft
  | FileAttrValue_QuotaUsed _ => FileAttr_QuotaUsed
  | FileAttrValue_Rawdev => FileAttr_Rawdev
  | FileAttrValue_SpaceAvail _ => FileAttr_SpaceAvail
  | FileAttrValue_SpaceFree _ => FileAttr_SpaceFree
  | FileAttrValue_SpaceTotal _ => FileAttr_SpaceTotal
  | FileAttrValue_SpaceUsed _ => FileAttr_SpaceUsed
  | FileAttrValue_System => FileAttr_System
  | FileAttrValue_TimeAccess _ => FileAttr_TimeAccess
  | FileAttrValue_TimeAccessSet => FileAttr_TimeAccessSet
  | FileAttrValue_TimeBackup => FileAttr_TimeBackup
  | FileAttrValue_TimeCreate _ => FileAttr_TimeCreate
  | FileAttrValue_TimeDelta _ => FileAttr_TimeDelta
  | FileAttrValue_TimeMetadata _ => FileAttr_TimeMetadata
  | FileAttrValue_TimeModify _ => FileAttr_TimeModify
  | FileAttrValue_TimeModifySet => FileAttr_TimeModifySet
  | FileAttrValue_MountedOnFileid _ => FileAttr_MountedOnFileid
  end.

(** ** Bitmaps: proofs *)

(** RFC 7530 lists attributes in increasing order of their numbers. *)
Definition attr_lt (a b : FileAttr) : Prop := FileAttr_to_u32 a < FileAttr_to_u32 b.

#[global] Instance attr_lt_dec a b : Decision (attr_lt a b).
Proof. unfold attr_lt. apply _. Defined.

#[global] Instance attr_lt_trans : Transitive attr_lt.
Proof. unfold attr_lt. intros a b c ? ?. lia. Qed.

Lemma FileAttr_from_u32_sound n a : FileAttr_from_u32 n = Some a -> FileAttr_to_u32 a = n.
Proof. unfold FileAttr_from_u32. intros H. by repeat (case_match; simplify_eq/=). Qed.

Lemma land_1_testbit v n : 0 <= n -> (Z.land (Z.shiftr v n) 1 =? 1) = Z.testbit v n.
Proof.
  intros Hn. rewrite (Z.land_ones _ 1), <- Z.bit0_mod, Z.shiftr_spec by lia.
  rewrite Z.add_0_l. by destruct (Z.testbit v n).
Qed.

Lemma segment_attrs_elem idx seg a :
  a ∈ segment_attrs idx seg <->
  exists n, 0 <= n < 32 /\ Z.testbit seg n = true /\ FileAttr_to_u32 a = idx * 32 + n.
Proof.
  unfold segment_attrs. rewrite list_elem_of_omap. split.
  - intros (n & Hn%elem_of_seqZ & H). rewrite land_1_testbit in H by lia. case_match; [|done].
    apply FileAttr_from_u32_sound in H. exists n. split_and!; [lia..|done|done].
  - intros (n & Hn & Hb & E). exists n. rewrite elem_of_seqZ, land_1_testbit by lia.
    split; [lia|]. by rewrite Hb, <- E, FileAttr_from_to.
Qed.

Lemma segment_attrs_sorted idx seg : StronglySorted attr_lt (segment_attrs idx seg).
Proof.
  unfold segment_attrs. eapply strongly_sorted_omap; [apply strongly_sorted_seqZ|].
  simpl. intros x y a b Hxy Ha Hb. do 2 case_match; try done.
  apply FileAttr_from_u32_sound in Ha, Hb. unfold attr_lt. lia.
Qed.

(** The bits one word collects from a sorted run of attribute numbers. *)
Lemma bitmap_fold_word base attrs l seg :
  StronglySorted Z.lt l -> Forall (fun i => base <= i < base + 32) l ->
  base mod 32 = 0 ->
  (forall i, i ∈ l -> (as_i16 (Z.of_nat (length attrs)) <? as_i16 (div_ceil i 31) - 1) = false) ->
  in_width 32 seg -> (forall i, i ∈ l -> Z.testbit seg (i - base) = false) ->
  exists seg', fold_left bitmap_step l (attrs, seg) = (attrs, seg') /\ in_width 32 seg' /\
    (forall n, 0 <= n < 32 -> Z.testbit seg' n = true <-> Z.testbit seg n = true \/ base + n ∈ l).
Proof.
  revert seg. induction l as [|i l IH]; intros seg Hs Hl Hb Hlen Hw Hfree; simpl.
  - exists seg. split_and!; [done..|]. intros n _. rewrite elem_of_nil. tauto.
  - apply StronglySorted_inv in Hs as [Hs Hi]. apply Forall_cons in Hl as [Hri Hl].
    rewrite (Hlen i) by left.
    assert (Hm : i mod 32 = i - base).
    { rewrite <- (Z.mod_small (i - base) 32) by lia. rewrite Zminus_mod, Hb, Z.sub_0_r.
      by rewrite Z.mod_mod. }
    rewrite Hm. destruct (IH (wrap 32 (seg + 2 ^ (i - base)))) as (seg' & -> & Hw' & Hspec).
    + done.
    + done.
    + done.
    + intros j Hj. apply Hlen. by right.
    + auto with width.
    + intros j Hj. pose proof (proj1 (Forall_forall _ _) Hl j Hj) as Hrj. simpl in Hrj.
      rewrite wrap_small by (apply set_bit_in_width; auto with lia; apply Hfree; left).
      rewrite testbit_add_pow2 by (try lia; apply Hfree; left).
      rewrite Hfree by (by right). rewrite Forall_forall in Hi. specialize (Hi j Hj).
      simpl. apply Z.eqb_neq. lia.
    + exists seg'. split_and!; [done..|]. intros n Hn. rewrite Hspec by done.
      rewrite wrap_small by (apply set_bit_in_width; auto with lia; apply Hfree; left).
      rewrite testbit_add_pow2 by (try lia; apply Hfree; left).
      rewrite orb_true_iff, Z.eqb_eq, elem_of_cons.
      assert (n = i - base <-> base + n = i) by lia. tauto.
Qed.

(** The mask one word stands for is the list of its attributes. *)
Lemma bitmap_word k attrs (l : list FileAttr) :
  StronglySorted attr_lt l -> (k = 0 \/ k = 1) -> length attrs = Z.to_nat k ->
  Forall (fun a => k * 32 <= FileAttr_to_u32 a < k * 32 + 32) l ->
  exists seg, fold_left bitmap_step (map FileAttr_to_u32 l) (attrs, 0) = (attrs, seg) /\
    segment_attrs k seg = l.
Proof.
  intros Hs Hk Hlen Hl.
  destruct (bitmap_fold_word (k * 32) attrs (map FileAttr_to_u32 l) 0) as (seg & E & Hw & Hspec).
  - by apply (strongly_sorted_map attr_lt).
  - by apply Forall_map.
  - by destruct Hk; subst k.
  - intros i (a & -> & Ha)%list_elem_of_fmap. rewrite Forall_forall in Hl. specialize (Hl a Ha).
    pose proof (FileAttr_to_u32_range a). rewrite Hlen.
    destruct Hk; subst k; destruct a; simpl in *; (lia || reflexivity).
  - done.
  - intros i _. apply Z.testbit_0_l.
  - exists seg. split; [done|].
    apply (strongly_sorted_ext attr_lt); [unfold attr_lt; lia|apply segment_attrs_sorted|done|].
    intros a. rewrite segment_attrs_elem. rewrite Forall_forall in Hl. split.
    + intros (n & Hn & Hb & Ea). apply Hspec in Hb as [Hb|Hin]; [by rewrite Z.testbit_0_l in Hb| |done].
      apply list_elem_of_fmap in Hin as (a' & Ea' & Ha').
      rewrite (FileAttr_to_u32_inj a a') by lia. done.
    + intros Ha. specialize (Hl a Ha). exists (FileAttr_to_u32 a - k * 32).
      split_and!; [lia..| |lia]. apply Hspec; [lia|]. right.
      replace (k * 32 + (FileAttr_to_u32 a - k * 32)) with (FileAttr_to_u32 a) by lia.
      by apply list_elem_of_fmap_2.
Qed.

(** A sorted attribute list is its part in word 0 followed by its part in word 1. *)
Lemma attrs_split (l : list FileAttr) :
  StronglySorted attr_lt l ->
  exists lo hi, l = lo ++ hi /\ StronglySorted attr_lt lo /\ StronglySorted attr_lt hi /\
    Forall (fun a => FileAttr_to_u32 a < 32) lo /\ Forall (fun a => 32 <= FileAttr_to_u32 a) hi.
Proof.
  intros Hs. induction Hs as [|a l Hs (lo & hi & -> & Hlo & Hhi & Flo & Fhi) Ha].
  - exists [], []. split_and!; by constructor.
  - apply Forall_app in Ha as [Ha1 Ha2]. destruct (decide (FileAttr_to_u32 a < 32)).
    + exists (a :: lo), hi. split_and!; [done|by constructor|done|by constructor|done].
    + assert (lo = []) as ->.
      { destruct lo as [|b lo]; [done|]. apply Forall_cons in Ha1 as [? _], Flo as [? _].
        unfold attr_lt in *. lia. }
      exists [], (a :: hi). split_and!; [done|constructor|by constructor|constructor|].
      constructor; [lia|done].
Qed.

Lemma file_attrs_to_bitmap_sorted_inv (l : list FileAttr) :
  StronglySorted attr_lt l -> from_u32 (file_attrs_to_bitmap l) = l.
Proof.
  intros Hs. destruct (attrs_split l Hs) as (lo & hi & -> & Hlo & Hhi & Flo & Fhi).
  unfold file_attrs_to_bitmap. rewrite map_app, fold_left_app.
  destruct (bitmap_word 0 [] lo) as (s0 & -> & E0); [done|auto|done| |].
  { eapply Forall_impl; [exact Flo|]. intros a ?. pose proof (FileAttr_to_u32_range a). simpl in *. lia. }
  destruct hi as [|a hi].
  - simpl. unfold from_u32. cbn [from_u32_at]. by rewrite E0.
  - destruct (bitmap_word 1 [s0] (a :: hi)) as (s1 & E & E1); [done|auto|done| |].
    { eapply Forall_impl; [exact Fhi|]. intros b ?. pose proof (FileAttr_to_u32_range b). simpl in *. lia. }
    cbn [map fold_left] in *. unfold bitmap_step at 2. unfold bitmap_step at 2 in E.
    apply Forall_cons in Fhi as [Fa _]. pose proof (FileAttr_to_u32_range a).
    assert (Hp : (as_i16 (Z.of_nat (length (@nil Z))) <? as_i16 (div_ceil (FileAttr_to_u32 a) 31) - 1) = true)
      by (destruct a; simpl in *; (lia || reflexivity)).
    assert (Hp' : (as_i16 (Z.of_nat (length [s0])) <? as_i16 (div_ceil (FileAttr_to_u32 a) 31) - 1) = false)
      by (destruct a; simpl in *; (lia || reflexivity)).
    rewrite Hp. rewrite Hp' in E. cbn [app]. rewrite E.
    unfold from_u32. cbn [app from_u32_at]. rewrite E0. rewrite app_nil_r.
    change (0 + 1) with 1. by rewrite E1.
Qed.

(** ** Values: proofs *)

Definition valid_str (s : string) : Prop :=
  utf8_valid (String.list_byte_of_string s) = true /\
  Z.of_nat (length (String.list_byte_of_string s)) < 2 ^ 32.

#[global] Instance valid_str_dec s : Decision (valid_str s).
Proof. unfold valid_str. apply _. Defined.

Definition valid_list {A} (valid : A -> Prop) (l : list A) : Prop :=
  Z.of_nat (length l) < 2 ^ 32 /\ Forall valid l.

#[global] Instance valid_list_dec {A} (valid : A -> Prop) `{forall a, Decision (valid a)} l :
  Decision (valid_list valid l).
Proof. unfold valid_list. apply _. Defined.

Definition valid_time (t : Nfstime4) : Prop :=
  - 2 ^ 63 <= nfstime4_seconds t < 2 ^ 63 /\ in_width 32 (nfstime4_nseconds t).

Definition valid_ace (a : Nfsace4) : Prop :=
  in_width 32 (nfsace4_acetype a) /\ in_width 32 (nfsace4_flag a) /\
  in_width 32 (nfsace4_access_mask a) /\ valid_str (nfsace4_who a).

Definition valid_location (l : FsLocation4) : Prop :=
  valid_list valid_str (fsLocation4_server l) /\ valid_list valid_str (fsLocation4_rootpath l).

(** The values with an arm in [attrvalues_from_bytes], in range for their type. *)
Definition decodable (v : FileAttrValue) : Prop :=
  match v with
  | FileAttrValue_Type _ | FileAttrValue_CaseInsensitive _ | FileAttrValue_CasePreserving _ => True
  | FileAttrValue_Change v | FileAttrValue_Size v | FileAttrValue_QuotaAvailHard v
  | FileAttrValue_QuotaAvailSoft v | FileAttrValue_QuotaUsed v | FileAttrValue_SpaceAvail v
  | FileAttrValue_SpaceFree v | FileAttrValue_SpaceTotal v | FileAttrValue_SpaceUsed v
  | FileAttrValue_MountedOnFileid v | FileAttrValue_FilesAvail v | FileAttrValue_FilesFree v
  | FileAttrValue_FilesTotal v => in_width 64 v
  | FileAttrValue_Mode v | FileAttrValue_Numlinks v => in_width 32 v
  | FileAttrValue_TimeAccess t | FileAttrValue_TimeModify t | FileAttrValue_TimeMetadata t
  | FileAttrValue_TimeCreate t | FileAttrValue_TimeDelta t => valid_time t
  | FileAttrValue_Owner s | FileAttrValue_OwnerGroup s => valid_str s
  | FileAttrValue_Acl l => valid_list valid_ace l
  | FileAttrValue_FsLocations l =>
      valid_list valid_str (fsLocations4_fs_root l) /\
      valid_list valid_location (fsLocations4_locations l)
  | _ => False
  end.

(** The kinds with an arm in [attrvalues_from_bytes]; any other ends the reading. *)
Definition has_decoder (a : FileAttr) : bool :=
  match a with
  | FileAttr_Type | FileAttr_CaseInsensitive | FileAttr_CasePreserving | FileAttr_Change | FileAttr_Size
  | FileAttr_QuotaAvailHard | FileAttr_QuotaAvailSoft | FileAttr_QuotaUsed | FileAttr_SpaceAvail
  | FileAttr_SpaceFree | FileAttr_SpaceTotal | FileAttr_SpaceUsed | FileAttr_MountedOnFileid
  | FileAttr_FilesAvail | FileAttr_FilesFree | FileAttr_FilesTotal | FileAttr_Mode | FileAttr_Numlinks
  | FileAttr_TimeAccess | FileAttr_TimeModify | FileAttr_TimeMetadata | FileAttr_TimeCreate
  | FileAttr_TimeDelta | FileAttr_Owner | FileAttr_OwnerGroup | FileAttr_Acl | FileAttr_FsLocations => true
  | _ => false
  end.

(** A value of one of these kinds is in range for its type. *)
Definition in_range (v : FileAttrValue) : Prop := has_decoder (attr_of_value v) = true -> decodable v.

(** The values in front of the first one that cannot be read. *)
Fixpoint read_prefix (l : list FileAttrValue) : list FileAttrValue :=
  match l with
  | [] => []
  | v :: l => if has_decoder (attr_of_value v) then v :: read_prefix l else []
  end.

#[global] Instance valid_time_dec t : Decision (valid_time t).
Proof. unfold valid_time. apply _. Defined.
#[global] Instance valid_ace_dec a : Decision (valid_ace a).
Proof. unfold valid_ace. apply _. Defined.
#[global] Instance valid_location_dec l : Decision (valid_location l).
Proof. unfold valid_location. apply _. Defined.
#[global] Instance decodable_dec v : Decision (decodable v).
Proof. destruct v; simpl; apply _. Defined.

#[local] Arguments valid_list : simpl never.
#[local] Arguments valid_str : simpl never.
#[local] Arguments valid_time : simpl never.
#[local] Arguments in_width : simpl never.

Lemma take_be_put n v rest :
  in_width (8 * Z.of_nat n) v -> take_be n (be_bytes n v ++ rest) = Some (v, rest).
Proof.
  intros Hv. unfold take_be. pose proof (length_be_bytes n v) as Hl.
  rewrite length_app, Hl, (proj2 (Nat.leb_le _ _)) by lia.
  rewrite take_app_length', drop_app_length' by done. by rewrite be_val_be_bytes_small.
Qed.

Lemma take_be_wrap_len (n : nat) rest :
  Z.of_nat n < 2 ^ 32 ->
  take_be 4 (be_bytes 4 (wrap 32 (Z.of_nat n)) ++ rest) = Some (Z.of_nat n, rest).
Proof.
  intros Hn. assert (Hw : in_width 32 (Z.of_nat n)) by (unfold in_width; lia).
  rewrite wrap_small by done. by apply take_be_put.
Qed.

Lemma lossy_valid s : valid_str s -> lossy (String.list_byte_of_string s) = s.
Proof.
  intros [Hu _]. unfold lossy. rewrite utf8_lossy_valid by done.
  apply String.string_of_list_byte_of_string.
Qed.

(** What follows the length word of a counted string. *)
Lemma counted_tail b rest :
  let tail := (b ++ replicate (padding (length b)) x00) ++ rest in
  (length b + padding (length b) <= length tail)%nat /\
  take (length b) tail = b /\ drop (length b + padding (length b)) tail = rest.
Proof.
  intros tail. subst tail. split_and!.
  - rewrite !length_app, length_replicate. lia.
  - by rewrite <- app_assoc, take_app_length.
  - apply drop_app_length'. by rewrite length_app, length_replicate.
Qed.

Lemma take_str_put s rest : valid_str s -> take_str (put_str s ++ rest) = Some (s, rest).
Proof.
  intros Hs. pose proof (proj2 Hs) as Hl. unfold take_str, put_str, put_counted.
  rewrite <- app_assoc, take_be_wrap_len by done. simpl.
  destruct (counted_tail (String.list_byte_of_string s) rest) as (Hlen & Ht & Hd).
  rewrite (proj2 (Z.ltb_ge _ _)) by lia. by rewrite Nat2Z.id, Ht, Hd, lossy_valid.
Qed.

Lemma padded_padding (n : nat) : padded (Z.of_nat n) = Z.of_nat (n + padding n).
Proof.
  unfold padded. change 3 with (Z.ones 2) at 2. rewrite Z.ldiff_ones_r by lia.
  rewrite Z.shiftr_div_pow2, Z.shiftl_mul_pow2 by lia. change (2 ^ 2) with 4.
  unfold padding. rewrite Nat2Z.inj_add, Nat2Z.inj_mod, Nat2Z.inj_sub, Nat2Z.inj_mod
    by (pose proof (Nat.mod_upper_bound n 4); lia).
  change (Z.of_nat 4) with 4. Z.div_mod_to_equations. lia.
Qed.

Lemma read_components_put l rest :
  Forall valid_str l -> read_components (length l) (concat (map put_str l) ++ rest) = Some (l, rest).
Proof.
  induction 1 as [|s l Hs Hl IH]; [done|]. cbn [map concat length read_components].
  pose proof (proj2 Hs) as Hlen. unfold put_str at 1, put_counted.
  rewrite <- !app_assoc, take_be_wrap_len by done. cbn [mbind option_bind].
  destruct (counted_tail (String.list_byte_of_string s) (concat (map put_str l) ++ rest)) as (Hle & Ht & Hd).
  rewrite <- !app_assoc in Hle, Ht, Hd.
  rewrite padded_padding, (proj2 (Z.ltb_ge _ _)) by lia.
  by rewrite !Nat2Z.id, Ht, Hd, IH, lossy_valid.
Qed.

Lemma read_pathname4_put l rest :
  valid_list valid_str l -> read_pathname4 (write_pathname4 l ++ rest) = Some (l, rest).
Proof.
  intros [Hn Hl]. unfold read_pathname4, write_pathname4, put_count.
  rewrite <- app_assoc, take_be_wrap_len by done. cbn [mbind option_bind].
  rewrite Nat2Z.id. by apply read_components_put.
Qed.

Lemma read_locations_put l rest :
  Forall valid_location l ->
  read_locations (length l) (concat (map put_location l) ++ rest) = Some (l, rest).
Proof.
  induction 1 as [|[server rootpath] l [Hs Hr] Hl IH]; [done|].
  cbn [map concat length read_locations]. unfold put_location at 1. cbn [fsLocation4_server fsLocation4_rootpath] in *.
  rewrite <- !app_assoc, read_pathname4_put by done. cbn [mbind option_bind].
  rewrite read_pathname4_put by done. cbn [mbind option_bind]. by rewrite IH.
Qed.

Lemma read_aces_put l rest :
  Forall valid_ace l -> read_aces (length l) (concat (map put_ace l) ++ rest) = (l, rest).
Proof.
  induction 1 as [|[ty fl mask who] l (Ht & Hf & Hm & Hw) Hl IH]; [done|].
  cbn [map concat length read_aces]. cbn [nfsace4_acetype nfsace4_flag nfsace4_access_mask nfsace4_who] in *.
  rewrite <- app_assoc. set (tail := concat (map put_ace l) ++ rest) in *.
  unfold put_ace. cbn [nfsace4_acetype nfsace4_flag nfsace4_access_mask nfsace4_who].
  rewrite <- !app_assoc. pose proof (length_be_bytes 4) as L4.
  rewrite (proj2 (Nat.ltb_ge _ _)) by (rewrite !length_app, !L4; lia).
  change 12%nat with (4 + (4 + 4))%nat. change 8%nat with (4 + 4)%nat. rewrite <- !drop_drop.
  rewrite (take_app_length' (be_bytes 4 ty)), !(drop_app_length' (be_bytes 4 ty) _ 4) by done.
  rewrite (take_app_length' (be_bytes 4 fl)), !(drop_app_length' (be_bytes 4 fl) _ 4) by done.
  rewrite (take_app_length' (be_bytes 4 mask)), !(drop_app_length' (be_bytes 4 mask) _ 4) by done.
  rewrite !be_val_be_bytes_small by done.
  unfold put_str, put_counted. rewrite <- app_assoc, take_be_wrap_len by apply Hw.
  destruct (counted_tail (String.list_byte_of_string who) tail) as (Hle & Hta & Hd).
  rewrite (proj2 (Z.ltb_ge _ _)) by lia. by rewrite Nat2Z.id, Hta, Hd, IH, lossy_valid.
Qed.

Lemma take_time_put t rest : valid_time t -> take_time (put_time t ++ rest) = Some (t, rest).
Proof.
  destruct t as [secs ns]. intros [Hs Hn]. simpl in Hs, Hn. unfold take_time, put_time.
  cbn [nfstime4_seconds nfstime4_nseconds]. rewrite <- app_assoc.
  pose proof (length_be_bytes 8 secs). pose proof (length_be_bytes 4 ns).
  rewrite (proj2 (Nat.leb_le _ _)) by (rewrite !length_app; lia).
  change 12%nat with (8 + 4)%nat. rewrite <- drop_drop.
  rewrite (take_app_length' (be_bytes 8 secs)), !(drop_app_length' (be_bytes 8 secs)) by done.
  rewrite take_app_length', drop_app_length' by done.
  rewrite be_val_be_bytes, be_val_be_bytes_small by done.
  by rewrite signed_mod.
Qed.

Lemma decode_ftype_inv t : decode_ftype (NfsFtype4_to_u32 t) = t.
Proof. by destruct t. Qed.

Lemma take_bool_put (b : bool) rest :
  take_be 4 (put_bool b ++ rest) = Some (Z.b2z b, rest).
Proof. apply (take_be_put 4). by destruct b. Qed.

Lemma take_ftype_put t rest :
  take_be 4 (be_bytes 4 (NfsFtype4_to_u32 t) ++ rest) = Some (NfsFtype4_to_u32 t, rest).
Proof. apply (take_be_put 4). by destruct t. Qed.

Lemma take_acl_put aces rest :
  valid_list valid_ace aces ->
  value_from_bytes FileAttr_Acl (put_count aces ++ concat (map put_ace aces) ++ rest)
  = Some (FileAttrValue_Acl aces, rest).
Proof.
  intros [Hn Hl]. cbn [value_from_bytes]. unfold put_count.
  rewrite take_be_wrap_len by done. cbn [mbind option_bind]. by rewrite Nat2Z.id, read_aces_put.
Qed.

Lemma take_fs_locations_put l rest :
  decodable (FileAttrValue_FsLocations l) ->
  take_fs_locations (value_to_bytes (FileAttrValue_FsLocations l) ++ rest) = Some (l, rest).
Proof.
  destruct l as [root locs].
  cbn [decodable value_to_bytes fsLocations4_fs_root fsLocations4_locations].
  intros [Hr [Hn Hl]]. unfold take_fs_locations, put_count.
  rewrite <- !app_assoc, read_pathname4_put by done. cbn [mbind option_bind].
  rewrite take_be_wrap_len by done. cbn [mbind option_bind].
  by rewrite Nat2Z.id, read_locations_put.
Qed.

Create Rewrite HintDb attr_codec.
#[export] Hint Rewrite take_bool_put take_ftype_put decode_ftype_inv : attr_codec.
#[export] Hint Rewrite take_be_put take_str_put take_time_put using done : attr_codec.

(** An attribute's decoder reads back exactly what its encoder wrote. *)
Lemma value_from_bytes_put v rest :
  decodable v -> value_from_bytes (attr_of_value v) (value_to_bytes v ++ rest) = Some (v, rest).
Proof.
  intros Hv. destruct v; try done;
    cbn [attr_of_value value_from_bytes]; try (rewrite take_fs_locations_put by done; done);
    cbn [decodable value_to_bytes] in *; unfold taking; autorewrite with attr_codec; try done.
  - cbn [mbind option_bind]. by rewrite decode_ftype_inv.
  - rewrite <- app_assoc. by apply take_acl_put.
  - by match goal with b : bool |- _ => destruct b end.
  - by match goal with b : bool |- _ => destruct b end.
Qed.

Lemma value_from_bytes_no_arm a buf : has_decoder a = false -> value_from_bytes a buf = None.
Proof. by destruct a. Qed.

Lemma decodable_has_decoder v : decodable v -> has_decoder (attr_of_value v) = true.
Proof. by destruct v. Qed.

(** The parse of a list of attributes gives what was encoded, up to the first value that
    has no arm. *)
Lemma attrvalues_from_to_bytes_prefix l :
  Forall in_range l -> attrvalues_from_bytes (map attr_of_value l) (attrvalues_to_bytes l) = read_prefix l.
Proof.
  induction 1 as [|v l Hv Hl IH]; [done|].
  cbn [map attrvalues_from_bytes read_prefix].
  change (attrvalues_to_bytes (v :: l)) with (value_to_bytes v ++ attrvalues_to_bytes l).
  destruct (has_decoder (attr_of_value v)) eqn:E.
  - rewrite value_from_bytes_put by auto. by rewrite IH.
  - by rewrite value_from_bytes_no_arm.
Qed.

Lemma read_prefix_whole l : read_prefix l = l <-> Forall (fun a => has_decoder a = true) (map attr_of_value l).
Proof.
  induction l as [|v l IH]; [done|]. cbn [read_prefix map]. rewrite Forall_cons, <- IH.
  destruct (has_decoder (attr_of_value v)); split; intros H; [by injection H|by destruct H as [_ ->]|done|by destruct H].
Qed.

Lemma attrvalues_from_to_bytes l :
  Forall decodable l -> attrvalues_from_bytes (map attr_of_value l) (attrvalues_to_bytes l) = l.
Proof.
  intros Hl. rewrite attrvalues_from_to_bytes_prefix by (eapply Forall_impl; [exact Hl|by intros v ? ?]).
  apply read_prefix_whole, Forall_fmap. eapply Forall_impl; [exact Hl|]. apply decodable_has_decoder.
Qed.

(** Decoding never returns more values than were asked for, and they are the values of
    the leading attributes in order. *)
Lemma value_from_bytes_attr attr buf v rest :
  value_from_bytes attr buf = Some (v, rest) -> attr_of_value v = attr.
Proof.
  destruct attr; cbn [value_from_bytes]; try done; unfold taking;
    intros ([a b] & _ & H)%bind_Some; repeat case_match; by simplify_eq.
Qed.

Lemma attrvalues_from_bytes_prefix attrs buf :
  map attr_of_value (attrvalues_from_bytes attrs buf) `prefix_of` attrs.
Proof.
  revert buf. induction attrs as [|a attrs IH]; intros buf; [done|]. cbn [attrvalues_from_bytes].
  destruct (value_from_bytes a buf) as [[v rest]|] eqn:E; [|apply prefix_nil].
  cbn [map]. rewrite (value_from_bytes_attr _ _ _ _ E). by apply prefix_cons.
Qed.

(** Every bitmap has one or two words, each of 32 bits. *)
Lemma bitmap_fold_bounds (l : list FileAttr) attrs seg attrs' seg' :
  (length attrs <= 1)%nat -> Forall (in_width 32) attrs -> in_width 32 seg ->
  fold_left bitmap_step (map FileAttr_to_u32 l) (attrs, seg) = (attrs', seg') ->
  (length attrs' <= 1)%nat /\ Forall (in_width 32) attrs' /\ in_width 32 seg'.
Proof.
  revert attrs seg. induction l as [|a l IH]; intros attrs seg Hlen Hw Hs; cbn [map fold_left].
  - by intros [= <- <-].
  - unfold bitmap_step at 2. destruct (Z.ltb_spec (as_i16 (Z.of_nat (length attrs)))
      (as_i16 (div_ceil (FileAttr_to_u32 a) 31) - 1)) as [Hlt|Hge].
    + apply IH; [|apply Forall_app_2; [done|by apply Forall_singleton]|auto with width].
      assert (length attrs = 0)%nat as ->%nil_length_inv; [|simpl; lia].
      destruct attrs as [|x [|y attrs]]; [done| |simpl in Hlen; lia].
      exfalso. revert Hlt. by destruct a.
    + apply IH; [done|done|auto with width].
Qed.

Lemma file_attrs_to_bitmap_bounds l :
  (1 <= length (file_attrs_to_bitmap l) <= 2)%nat /\ Forall (in_width 32) (file_attrs_to_bitmap l).
Proof.
  unfold file_attrs_to_bitmap.
  destruct (fold_left bitmap_step (map FileAttr_to_u32 l) ([], 0)) as [attrs seg] eqn:E.
  apply bitmap_fold_bounds in E as (Hl & Hw & Hs); [|simpl; lia|done|done].
  rewrite length_app. simpl. split; [lia|]. apply Forall_app_2; [done|by apply Forall_singleton].
Qed.

(** Attributes that read back whole: values in the order of their mask, each of a kind that
    [attrvalues_from_bytes] knows. *)
Definition valid_fattr4 (a : Fattr4) : Prop :=
  fattr4_attrmask a = map attr_of_value (fattr4_attr_vals a) /\
  StronglySorted attr_lt (fattr4_attrmask a) /\ Forall decodable (fattr4_attr_vals a) /\
  Z.of_nat (length (attrvalues_to_bytes (fattr4_attr_vals a))) < 2 ^ 32.

Lemma fattr4_raw_valid a :
  Z.of_nat (length (attrvalues_to_bytes (fattr4_attr_vals a))) < 2 ^ 32 ->
  (Z.of_nat (length (file_attrs_to_bitmap (fattr4_attrmask a))) < 2 ^ 32 /\
   Forall (in_width 32) (file_attrs_to_bitmap (fattr4_attrmask a))) /\
  opaque_valid (attrvalues_to_bytes (fattr4_attr_vals a)).
Proof.
  intros Hl.
  destruct (file_attrs_to_bitmap_bounds (fattr4_attrmask a)) as [Hb Hw].
  split_and!; [lia|done|done].
Qed.

#[export] Instance codec_fattr4_ok : CodecOk codec_fattr4 valid_fattr4.
Proof.
  split.
  - intros a Ha. apply (codec_total (_, _)). by apply fattr4_raw_valid, Ha.
  - intros a bs rest Ha E. cbn [de codec_fattr4].
    rewrite (rbind_ok _ _ _ _ _ (codec_roundtrip (c := codec_pair (codec_seq codec_u32) codec_opaque)
      (_, _) bs rest (fattr4_raw_valid a (proj2 (proj2 (proj2 Ha)))) E)).
    destruct Ha as (Em & Hs & Hd & _). unfold rret. cbn [fst snd].
    rewrite file_attrs_to_bitmap_sorted_inv by done. rewrite Em at 2.
    rewrite attrvalues_from_to_bytes by done. by destruct a.
  - intros a bs. apply (codec_aligned (c := codec_pair (codec_seq codec_u32) codec_opaque) (_, _)).
Qed.

(** An attribute list in increasing order survives the bitmap: decoding the words
    [file_attrs_to_bitmap] writes gives the list back. *)
Theorem bitmap_roundtrip (l : list FileAttr) :
  StronglySorted attr_lt l -> from_u32 (file_attrs_to_bitmap l) = l.
Proof. apply file_attrs_to_bitmap_sorted_inv. Qed.

Lemma bitmap_roundtrip_witness :
  from_u32 (file_attrs_to_bitmap [FileAttr_Type; FileAttr_Size; FileAttr_Mode; FileAttr_MountedOnFileid])
  = [FileAttr_Type; FileAttr_Size; FileAttr_Mode; FileAttr_MountedOnFileid].
Proof. apply bitmap_roundtrip. repeat constructor. Defined.

(** C22: The wire form of [Fattr4], with attributes of any kind in mask order: encoding
    succeeds, is a multiple of four bytes long, and decoding it, whatever follows on the
    wire, leaves what follows and returns the same mask, but only the values in front of the
    first kind that the reader has no arm for. All values survive exactly if every kind has
    one; [Fsid], [Fileid], [TimeModifySet] and many more have none, and take what follows
    them along. *)
Theorem fattr4_roundtrip (a : Fattr4) (rest : list byte) :
  fattr4_attrmask a = map attr_of_value (fattr4_attr_vals a) -> StronglySorted attr_lt (fattr4_attrmask a) ->
  Forall in_range (fattr4_attr_vals a) -> Z.of_nat (length (attrvalues_to_bytes (fattr4_attr_vals a))) < 2 ^ 32 ->
  exists bs, codec_fattr4.(ser) a = Ok bs /\ (length bs mod 4 = 0)%nat /\
    codec_fattr4.(de) (bs ++ rest) = Ok (MkFattr4 (fattr4_attrmask a) (read_prefix (fattr4_attr_vals a)), rest) /\
    (read_prefix (fattr4_attr_vals a) = fattr4_attr_vals a <->
     Forall (fun k => has_decoder k = true) (fattr4_attrmask a)).
Proof.
  intros Em Hs Hd Hl. pose proof (fattr4_raw_valid a Hl) as Hraw.
  destruct (codec_total (c := codec_pair (codec_seq codec_u32) codec_opaque) (_, _) Hraw) as [bs E]. exists bs.
  split; [exact E|]. split; [exact (codec_aligned (c := codec_pair (codec_seq codec_u32) codec_opaque) (_, _) bs E)|].
  split; [|rewrite Em; apply read_prefix_whole]. cbn [de codec_fattr4].
  rewrite (rbind_ok _ _ _ _ _ (codec_roundtrip (c := codec_pair (codec_seq codec_u32) codec_opaque) (_, _) bs rest Hraw E)).
  unfold rret. cbn [fst snd]. rewrite file_attrs_to_bitmap_sorted_inv by done. rewrite Em at 2.
  by rewrite attrvalues_from_to_bytes_prefix.
Qed.

(** The id of the file system in the middle: what stands before it is read. *)
Definition sample_fattr4 : Fattr4 :=
  MkFattr4 [FileAttr_Type; FileAttr_Size; FileAttr_Fsid; FileAttr_Acl; FileAttr_Owner]
    [FileAttrValue_Type Nf4dir; FileAttrValue_Size 4096; FileAttrValue_Fsid (MkFsid4 1 2);
     FileAttrValue_Acl [MkNfsace4 0 3 0x1f01ff "OWNER@"; MkNfsace4 1 0 2 "glenn"]; FileAttrValue_Owner "root"].

Lemma fattr4_roundtrip_witness :
  exists bs, codec_fattr4.(ser) sample_fattr4 = Ok bs /\ (length bs mod 4 = 0)%nat /\
    codec_fattr4.(de) (bs ++ [x01]) =
      Ok (MkFattr4 (fattr4_attrmask sample_fattr4) [FileAttrValue_Type Nf4dir; FileAttrValue_Size 4096], [x01]).
Proof.
  destruct (fattr4_roundtrip sample_fattr4 [x01]) as (bs & E & Ha & Ed & _);
    [done|by repeat constructor| |by vm_compute|by exists bs].
  repeat (apply Forall_cons; split; [intros _; apply (bool_decide_unpack _); by vm_compute|]); try by constructor.
  all: apply Forall_cons; split; [by intros [=]|].
  repeat (apply Forall_cons; split; [intros _; apply (bool_decide_unpack _); by vm_compute|]); by constructor.
Defined.

(** One that reads back whole. *)
Lemma fattr4_whole (a : Fattr4) (rest : list byte) :
  valid_fattr4 a -> exists bs, codec_fattr4.(ser) a = Ok bs /\ codec_fattr4.(de) (bs ++ rest) = Ok (a, rest).
Proof. intros Ha. destruct (codec_total a Ha) as [bs E]. exists bs. split; [done|by apply codec_roundtrip]. Qed.

(** Decoding attribute values is sound for any buffer and any attribute list,
    truncated and hostile ones included: the values returned are those of the leading
    attributes asked for, in order, one value each. *)
Theorem attrvalues_from_bytes_sound attrs buf :
  exists missing, attrs = map attr_of_value (attrvalues_from_bytes attrs buf) ++ missing.
Proof. destruct (attrvalues_from_bytes_prefix attrs buf) as [k E]. by exists k. Qed.

(** The word chosen for an attribute follows the words already written, and the bit is
    added, not or-ed: of a list out of order another attribute comes back. *)
Lemma bitmap_unsorted :
  from_u32 (file_attrs_to_bitmap [FileAttr_Mode; FileAttr_Type]) = [FileAttr_NoTrunc].
Proof. by vm_compute. Qed.

(** An attribute without an arm ends the parse: the values after it are dropped. *)
Lemma set_time_stops_parse rest l :
  attrvalues_from_bytes (FileAttr_TimeModifySet :: l) rest = [].
Proof. done. Qed.
