(* ===== verification/Rpc.v ===== *)
(** * ONC RPC: record marking, call headers, credentials, replies
      ([proto/src/lib.rs], [proto/src/rpc_proto.rs], [proto/src/utils.rs])

    [read_record]/[decode] are [XDRProtoCodec::decode] over the connection's buffer
    ([BytesMut], a list of bytes; [advance] drops from the front); [from_bytes] parses
    the record. Error values keep the data of the source's messages, not their
    wording. The serde-derived reader of the COMPOUND arguments and writer of the
    COMPOUND results are arguments. *)

From S2P Require Import Prelude NfsTypes Xdr.
From stdpp Require Import base list strings numbers.
From Stdlib Require Import Strings.Byte ZArith Lia.
#[local] Open Scope Z_scope.

(** ** Record marking *)

Definition MAX : Z := 8 * 1024 * 1024.

(** What one pass of the [while !is_last] loop ends with. *)
Inductive record : Type :=
| NeedMore
| TooLarge (length : Z)
| Record (message_data : list byte).

(** The loop; it returns what is left of [src]. Every round takes at least the four
    bytes of a header, so [length src] rounds are enough ([read_record_total]). *)
Fixpoint read_record_loop (fuel : nat) (message_data src : list byte) : option (list byte * record) :=
  match fuel with
  | O => None
  | S fuel' =>
    if (length src <? 4)%nat then Some (src, NeedMore) else
    let fragment_header := be_val (take 4 src) in
    let is_last := has_bits fragment_header (Z.shiftl 1 31) in
    let len := Z.land fragment_header (Z.shiftl 1 31 - 1) in
    if MAX <? len then Some (src, TooLarge len) else
    let n := Z.to_nat len in
    if (length src <? 4 + n)%nat then Some (src, NeedMore) else
    let fragment := take n (drop 4 src) in
    let src := drop (4 + n) src in
    let message_data := message_data ++ fragment in
    if is_last then Some (src, Record message_data)
    else read_record_loop fuel' message_data src
  end.

Definition read_record (src : list byte) : list byte * record :=
  default (src, NeedMore) (read_record_loop (S (length src)) [] src).

(** The record mark and message the encoder appends to [dst]. *)
Definition frame (message : list byte) : list byte :=
  be_bytes 4 (wrap 32 (Z.of_nat (length message) + Z.shiftl 1 31)) ++ message.

(** A fragment as a client sends it. *)
Definition fragment (last : bool) (data : list byte) : list byte :=
  be_bytes 4 (Z.of_nat (length data) + (if last then 2 ^ 31 else 0)) ++ data.

(** ** Credentials *)

Definition RPCSEC_GSS_DATA : Z := 0.
Definition RPCSEC_GSS_INIT : Z := 1.
Definition RPCSEC_GSS_CONTINUE_INIT : Z := 2.
Definition RPCSEC_GSS_DESTROY : Z := 3.
Definition RPC_GSS_SVC_NONE : Z := 1.
Definition RPC_GSS_SVC_INTEGRITY : Z := 2.
Definition RPC_GSS_SVC_PRIVACY : Z := 3.

Record AuthUnix : Type := MkAuthUnix {
  stamp : Z; machinename : string; uid : Z; gid : Z; gids : list Z
}.

Record RpcSecGssCred : Type := MkRpcSecGssCred {
  version : Z; gss_proc : Z; seq_num : Z; service : Z; handle : list byte
}.

(** [body.get(i..i + 4)] as a word, and [body.get(lo..hi)]. *)
Definition slice (lo n : nat) (body : list byte) : option (list byte) :=
  if (lo + n <=? length body)%nat then Some (take n (drop lo body)) else None.

Definition word (body : list byte) (i : nat) : option Z := be_val <$> slice i 4 body.

Definition RpcSecGssCred_parse (body : list byte) : option RpcSecGssCred :=
  version ← word body 0; gss_proc ← word body 4; seq_num ← word body 8;
  service ← word body 12; len ← word body 16;
  handle ← slice 20 (Z.to_nat len) body;
  Some (MkRpcSecGssCred version gss_proc seq_num service handle).

Definition RpcSecGssCred_encode (c : RpcSecGssCred) : list byte :=
  concat (map (be_bytes 4) [version c; gss_proc c; seq_num c; service c;
                            wrap 32 (Z.of_nat (length (handle c)))]) ++
  handle c ++ replicate (padding (length (handle c))) x00.

Record GssCallData : Type := MkGssCallData { header : list byte; gss_args : list byte }.

Inductive OpaqueAuth : Type :=
| AuthNull (body : list byte)
| AuthUnixCred (auth : AuthUnix)
| AuthShort
| AuthDes
| AuthGss (cred : RpcSecGssCred)
| GssVerf (token : list byte).

(** [AuthUnix]'s derived encoding: the fields in order. *)
Definition codec_auth_unix : codec AuthUnix :=
  codec_iso (fun '(stamp, (machinename, (uid, (gid, gids)))) => MkAuthUnix stamp machinename uid gid gids)
            (fun a => (stamp a, (machinename a, (uid a, (gid a, gids a)))))
            (codec_pair codec_u32 (codec_pair codec_string
              (codec_pair codec_u32 (codec_pair codec_u32 (codec_seq codec_u32))))).

(** [Serialize]/[Deserialize for OpaqueAuth]. *)
Definition OpaqueAuth_ser (a : OpaqueAuth) : result (list byte) XdrError :=
  try fb := match a with
            | AuthNull data => Ok (0, data)
            | AuthUnixCred auth => try bytes := codec_auth_unix.(ser) auth in Ok (1, bytes)
            | AuthShort => Ok (2, [])
            | AuthDes => Ok (3, [])
            | AuthGss gss => Ok (6, RpcSecGssCred_encode gss)
            | GssVerf token => Ok (6, token)
            end in
  (codec_pair codec_u32 codec_opaque).(ser) fb.

Definition OpaqueAuth_de : reader OpaqueAuth :=
  read fb <- (codec_pair codec_u32 codec_opaque).(de) in
  let '(flavor, body) := fb in
  match flavor with
  | 0 => rret (AuthNull body)
  | 1 => match codec_auth_unix.(de) body with
         | Ok (auth, _) => rret (AuthUnixCred auth)
         | Err e => rfail e
         end
  | 6 => match RpcSecGssCred_parse body with
         | Some cred => rret (AuthGss cred)
         | None => rret (GssVerf body)
         end
  | _ => rret (AuthNull body)
  end.

(** ** Calls *)

Inductive RpcError : Type :=
| ErrIo
| ErrOpaqueLength (len left : Z)
| ErrAuthUnix (e : XdrError)
| ErrMalformedGss
| ErrExpectedCall (msg_type : Z)
| ErrCompound (prog vers proc : Z) (e : XdrError).

Record CallBody : Type := MkCallBody {
  rpcvers : Z; prog : Z; vers : Z; proc : Z;
  cred : OpaqueAuth; verf : OpaqueAuth;
  args : option Compound4args;
  gss : option GssCallData
}.

(** [MsgType] as it arrives: a call, or what could not be parsed. *)
Inductive CallMsgType : Type :=
| Call (body : CallBody)
| ParseError (e : RpcError).

Record RpcCallMsg : Type := MkRpcCallMsg { call_xid : Z; call_body : CallMsgType }.

Definition cursor (A : Type) : Type := list byte -> result (A * list byte) RpcError.

Definition read_exact (n : nat) : cursor (list byte) :=
  fun c => if (n <=? length c)%nat then Ok (take n c, drop n c) else Err ErrIo.

Definition read_u32 : cursor Z :=
  fun c => try bc := read_exact 4 c in Ok (be_val bc.1, bc.2).

Definition read_opaque : cursor (list byte) :=
  fun c =>
    try lc := read_u32 c in
    let '(len, c) := lc in
    let left := Z.of_nat (length c) in
    if left <? len then Err (ErrOpaqueLength len left) else
    try dc := read_exact (Z.to_nat len) c in
    let '(data, c) := dc in
    let pad := padding (Z.to_nat len) in
    if (0 <? pad)%nat then try sc := read_exact pad c in Ok (data, sc.2) else Ok (data, c).

Definition read_opaque_auth (is_cred : bool) : cursor OpaqueAuth :=
  fun c =>
    try fc := read_u32 c in
    let '(flavor, c) := fc in
    try bc := read_opaque c in
    let '(body, c) := bc in
    match flavor with
    | 0 => Ok (AuthNull body, c)
    | 1 => match codec_auth_unix.(de) body with
           | Ok (auth, _) => Ok (AuthUnixCred auth, c)
           | Err e => Err (ErrAuthUnix e)
           end
    | 6 => if is_cred
           then match RpcSecGssCred_parse body with
                | Some cred => Ok (AuthGss cred, c)
                | None => Err ErrMalformedGss
                end
           else Ok (GssVerf body, c)
    | _ => Ok (AuthNull body, c)
    end.

Section Calls.
(** The derived [Deserialize] of [Compound4args]. *)
Variable compound_args : reader Compound4args.

Definition from_bytes (buffer : list byte) : result RpcCallMsg RpcError :=
  try xc := read_u32 buffer in let '(xid, c) := xc in
  try mc := read_u32 c in let '(msg_type, c) := mc in
  if negb (msg_type =? 0) then Err (ErrExpectedCall msg_type) else
  try rc := read_u32 c in let '(rpcvers, c) := rc in
  try pc := read_u32 c in let '(prog, c) := pc in
  try vc := read_u32 c in let '(vers, c) := vc in
  try nc := read_u32 c in let '(proc_num, c) := nc in
  try cc := read_opaque_auth true c in let '(cred, c) := cc in
  let header_end := (length buffer - length c)%nat in
  try wc := read_opaque_auth false c in let '(verf, c) := wc in
  match cred with
  | AuthGss _ =>
    Ok (MkRpcCallMsg xid (Call (MkCallBody rpcvers prog vers proc_num cred verf None
          (Some (MkGssCallData (take header_end buffer) c)))))
  | _ =>
    if (proc_num =? 0) || negb (prog =? 100003) then
      Ok (MkRpcCallMsg xid (Call (MkCallBody rpcvers prog vers proc_num cred verf None None)))
    else
      match compound_args c with
      | Ok (compound, _) =>
        Ok (MkRpcCallMsg xid (Call (MkCallBody rpcvers prog vers proc_num cred verf (Some compound) None)))
      | Err e => Ok (MkRpcCallMsg xid (ParseError (ErrCompound prog vers proc_num e)))
      end
  end.

(** [decode]: the buffer it leaves, and the item or the I/O error. *)
Definition decode (src : list byte) : list byte * result (option RpcCallMsg) Z :=
  let '(src, r) := read_record src in
  (src, match r with
        | NeedMore => Ok None
        | TooLarge len => Err len
        | Record message_data =>
          match from_bytes message_data with
          | Ok msg => Ok (Some msg)
          | Err e => Ok (Some (MkRpcCallMsg 0 (ParseError e)))
          end
        end).

Definition decode_eof (buf : list byte) : list byte * result (option RpcCallMsg) Z :=
  match decode buf with
  | (buf, Ok None) => ([], Ok None)
  | r => r
  end.
End Calls.

(** ** Replies *)

Inductive AuthStat : Type :=
| UndefAuthCred | AuthBadCred | AuthRejectedCred | AuthBadverf | AuthRejectedverf
| AuthTooWeak | RpcsecGssCredProblem | RpcsecGssCtxProblem.

Definition AuthStat_to_u32 (s : AuthStat) : Z :=
  match s with
  | UndefAuthCred => 0 | AuthBadCred => 1 | AuthRejectedCred => 2 | AuthBadverf => 3
  | AuthRejectedverf => 4 | AuthTooWeak => 5 | RpcsecGssCredProblem => 13
  | RpcsecGssCtxProblem => 14
  end.

Definition AuthStat_de : reader AuthStat :=
  read n <- get_u32 in
  match n with
  | 0 => rret UndefAuthCred
  | 1 => rret AuthBadCred
  | 2 => rret AuthRejectedCred
  | 3 => rret AuthBadverf
  | 4 => rret AuthRejectedverf
  | 5 => rret AuthTooWeak
  | 13 => rret RpcsecGssCredProblem
  | 14 => rret RpcsecGssCtxProblem
  | _ => rfail (Message "unknown auth_stat")
  end.

Record MismatchInfo : Type := MkMismatchInfo { low : Z; high : Z }.

Inductive RejectedReply : Type :=
| RpcMismatch (m : MismatchInfo)
| AuthError (s : AuthStat).

Inductive AcceptBody : Type :=
| Success (res : Compound4res)
| ProgUnavail
| ProgMismatch (m : MismatchInfo)
| ProcUnavail
| GarbageArgs
| SuccessRaw (bytes : list byte).

Record AcceptedReply : Type := MkAcceptedReply { reply_verf : OpaqueAuth; reply_data : AcceptBody }.

Inductive ReplyBody : Type :=
| MsgAccepted (r : AcceptedReply)
| MsgDenied (r : RejectedReply).

Record RpcReplyMsg : Type := MkRpcReplyMsg { reply_xid : Z; reply_body : ReplyBody }.

Definition MismatchInfo_ser (m : MismatchInfo) : list byte := put_u32 (low m) ++ put_u32 (high m).

(** [Words]: raw results go out as the words they are. *)
Definition Words_ser (bytes : list byte) : result (list byte) XdrError :=
  if negb (length bytes mod 4 =? 0)%nat then Err (Message "raw RPC results are not 4-byte aligned")
  else Ok (concat (map (fun w => put_u32 (be_val w)) (chunks4 (length bytes / 4) bytes))).

Section Replies.
(** The derived [Serialize] of [Compound4res]. *)
Variable compound_res : Compound4res -> result (list byte) XdrError.

Definition AcceptBody_ser (b : AcceptBody) : result (list byte) XdrError :=
  match b with
  | Success res => try bs := compound_res res in Ok (put_u32 0 ++ bs)
  | SuccessRaw bytes => try bs := Words_ser bytes in Ok (put_u32 0 ++ bs)
  | ProgUnavail => Ok (put_u32 1)
  | ProgMismatch m => Ok (put_u32 2 ++ MismatchInfo_ser m)
  | ProcUnavail => Ok (put_u32 3)
  | GarbageArgs => Ok (put_u32 4)
  end.

(** [MsgType::Reply] is variant 1; [ReplyBody] and [RejectedReply] by variant index. *)
Definition RpcReplyMsg_to_bytes (m : RpcReplyMsg) : result (list byte) XdrError :=
  try body :=
    match reply_body m with
    | MsgAccepted r =>
      try verf := OpaqueAuth_ser (reply_verf r) in
      try data := AcceptBody_ser (reply_data r) in
      Ok (put_u32 0 ++ verf ++ data)
    | MsgDenied (RpcMismatch mi) => Ok (put_u32 1 ++ put_u32 0 ++ MismatchInfo_ser mi)
    | MsgDenied (AuthError s) => Ok (put_u32 1 ++ put_u32 1 ++ put_u32 (AuthStat_to_u32 s))
    end in
  Ok (put_u32 (reply_xid m) ++ put_u32 1 ++ body).

(** [Encoder::encode]: [dst] with the framed reply appended. *)
Definition encode (message : RpcReplyMsg) (dst : list byte) : result (list byte) XdrError :=
  try buffer_message := RpcReplyMsg_to_bytes message in Ok (dst ++ frame buffer_message).
End Replies.

(** ** Record marking: proofs *)

Lemma read_record_loop_fuel fuel fuel' acc src :
  (length src < fuel)%nat -> (fuel <= fuel')%nat ->
  read_record_loop fuel acc src = read_record_loop fuel' acc src /\
  is_Some (read_record_loop fuel acc src).
Proof.
  revert fuel' acc src. induction fuel as [|fuel IH]; intros fuel' acc src Hl Hf; [lia|].
  destruct fuel' as [|fuel']; [lia|]. cbn [read_record_loop].
  destruct (Nat.ltb_spec (length src) 4) as [|H4]; [eauto|].
  repeat (case_match; [by eauto|]).
  apply IH; [rewrite length_drop|]; lia.
Qed.

Lemma read_record_step acc src fuel :
  (length src < fuel)%nat ->
  default (src, NeedMore) (read_record_loop fuel acc src) =
  default (src, NeedMore) (read_record_loop (S (length src)) acc src).
Proof.
  intros H. f_equal. symmetry. apply read_record_loop_fuel; lia.
Qed.

Lemma header_fields (len : Z) (last : bool) :
  0 <= len < 2 ^ 31 ->
  let h := len + (if last then 2 ^ 31 else 0) in
  in_width 32 h /\ has_bits h (Z.shiftl 1 31) = last /\ Z.land h (Z.shiftl 1 31 - 1) = len.
Proof.
  intros Hl h. subst h. change (Z.shiftl 1 31) with (2 ^ 31).
  assert (Hlow : Z.land (len + (if last then 2 ^ 31 else 0)) (2 ^ 31 - 1) = len).
  { change (2 ^ 31 - 1) with (Z.ones 31). rewrite Z.land_ones by lia.
    destruct last; [|by rewrite Z.add_0_r, Z.mod_small].
    rewrite <- (Z.mul_1_l (2 ^ 31)) at 1. rewrite Z_mod_plus_full. by apply Z.mod_small. }
  split_and!; [unfold in_width; destruct last; lia| |done].
  unfold has_bits. assert (Hb : Z.testbit (len + (if last then 2 ^ 31 else 0)) 31 = last).
  { rewrite Z.testbit_odd, Z.shiftr_div_pow2 by lia. destruct last.
    - rewrite <- (Z.mul_1_l (2 ^ 31)) at 1. by rewrite Z.div_add, Z.div_small by lia.
    - by rewrite Z.add_0_r, Z.div_small by lia. }
  destruct (Z.eqb_spec (Z.land (len + (if last then 2 ^ 31 else 0)) (2 ^ 31)) 0) as [E|E].
  - apply (f_equal (fun z => Z.testbit z 31)) in E. rewrite Z.land_spec, Hb, Z.bits_0 in E.
    by destruct last.
  - simpl. destruct last; [done|]. exfalso. apply E. apply Z.bits_inj'. intros n Hn.
    rewrite Z.land_spec, Z.pow2_bits_eqb, Z.bits_0 by lia.
    destruct (Z.eqb_spec 31 n) as [<-|]; [by rewrite Hb|by rewrite andb_false_r].
Qed.

(** One round of the loop on a whole fragment. *)
Lemma read_fragment fuel acc last data rest :
  Z.of_nat (length data) <= MAX ->
  read_record_loop (S fuel) acc (fragment last data ++ rest) =
  if last then Some (rest, Record (acc ++ data))
  else read_record_loop fuel (acc ++ data) rest.
Proof.
  intros Hd. assert (Hd' : 0 <= Z.of_nat (length data) < 2 ^ 31) by (unfold MAX in Hd; lia).
  destruct (header_fields _ last Hd') as (Hw & Hlast & Hlen).
  unfold fragment. rewrite <- app_assoc. cbn [read_record_loop].
  pose proof (length_be_bytes 4 (Z.of_nat (length data) + (if last then 2 ^ 31 else 0))) as L4.
  rewrite (proj2 (Nat.ltb_ge _ _)) by (rewrite length_app; lia).
  rewrite take_app_length', (drop_app_length' _ _ 4) by done.
  rewrite be_val_be_bytes_small, Hlen, Hlast by done.
  rewrite (proj2 (Z.ltb_ge _ _)) by done. rewrite Nat2Z.id.
  rewrite (proj2 (Nat.ltb_ge _ _)) by (rewrite !length_app; lia).
  rewrite take_app_length, <- drop_drop, (drop_app_length' _ _ 4), drop_app_length by done.
  done.
Qed.

(** The wire form of a record sent in the given fragments. *)
Fixpoint fragments (l : list (list byte)) : list byte :=
  match l with
  | [] => []
  | [d] => fragment true d
  | d :: l => fragment false d ++ fragments l
  end.

Lemma length_fragment last d : length (fragment last d) = (4 + length d)%nat.
Proof. unfold fragment. by rewrite length_app, length_be_bytes. Qed.

Lemma read_fragments l acc rest fuel :
  l <> [] -> Forall (fun d => Z.of_nat (length d) <= MAX) l ->
  (length (fragments l ++ rest) < fuel)%nat ->
  read_record_loop fuel acc (fragments l ++ rest) = Some (rest, Record (acc ++ concat l)).
Proof.
  revert acc fuel. induction l as [|d l IH]; intros acc fuel Hne Hl Hf; [done|].
  apply Forall_cons_1 in Hl as [Hd Hl]. destruct fuel as [|fuel]; [lia|].
  destruct l as [|d' l].
  - cbn [fragments concat]. rewrite read_fragment, app_nil_r by done. done.
  - cbn [fragments] in Hf |- *. rewrite <- app_assoc in Hf |- *. rewrite read_fragment by done.
    cbn [concat]. rewrite IH, <- app_assoc; [done|done|done|].
    rewrite length_app, length_fragment in Hf. cbn [fragments]. lia.
Qed.

Lemma read_record_fragments l rest :
  l <> [] -> Forall (fun d => Z.of_nat (length d) <= MAX) l ->
  read_record (fragments l ++ rest) = (rest, Record (concat l)).
Proof. intros Hne Hl. unfold read_record. by rewrite read_fragments by (done || lia). Qed.

Lemma frame_fragment m : Z.of_nat (length m) < 2 ^ 31 -> frame m = fragment true m.
Proof.
  intros H. unfold frame, fragment. change (Z.shiftl 1 31) with (2 ^ 31).
  rewrite wrap_small; [done|]. unfold in_width. lia.
Qed.

(** The record's own bytes are consumed and nothing else. *)
Lemma read_record_suffix fuel acc src src' r :
  read_record_loop fuel acc src = Some (src', r) -> exists k, src' = drop k src.
Proof.
  revert acc src. induction fuel as [|fuel IH]; intros acc src; [done|]. cbn [read_record_loop].
  repeat (case_match; [intros [= <- <-]; (by exists 0%nat) || by eexists|]).
  intros Hr. apply IH in Hr as [k ->]. rewrite drop_drop. by eexists.
Qed.

(** ** Credentials: proofs *)

Definition valid_cred_gss (c : RpcSecGssCred) : Prop :=
  in_width 32 (version c) /\ in_width 32 (gss_proc c) /\ in_width 32 (seq_num c) /\
  in_width 32 (service c) /\ Z.of_nat (length (handle c)) < 2 ^ 32.

Lemma slice_app lo n a b c :
  length a = lo -> length b = n -> slice lo n (a ++ b ++ c) = Some b.
Proof.
  intros Ha Hb. unfold slice. rewrite (proj2 (Nat.leb_le _ _)) by (rewrite !length_app; lia).
  by rewrite drop_app_length', take_app_length' by done.
Qed.

Lemma word_app i v a c :
  length a = i -> in_width 32 v -> word (a ++ be_bytes 4 v ++ c) i = Some v.
Proof.
  intros Ha Hv. unfold word. rewrite slice_app by (done || apply length_be_bytes).
  cbn. by rewrite be_val_be_bytes_small.
Qed.

Lemma RpcSecGssCred_parse_encode c tail :
  valid_cred_gss c -> RpcSecGssCred_parse (RpcSecGssCred_encode c ++ tail) = Some c.
Proof.
  intros (Hv & Hp & Hs & Hsv & Hh). unfold RpcSecGssCred_encode. cbn [map concat].
  assert (Hw : in_width 32 (Z.of_nat (length (handle c)))) by (unfold in_width; lia).
  rewrite wrap_small, app_nil_r, <- !app_assoc by done.
  set (pad := replicate _ x00 ++ tail).
  unfold RpcSecGssCred_parse. pose proof (length_be_bytes 4) as L4.
  rewrite (word_app 0 _ [] _ eq_refl Hv : word (be_bytes 4 _ ++ _) 0 = _). cbn [mbind option_bind].
  rewrite (word_app 4 _ (be_bytes 4 (version c))) by auto. cbn [mbind option_bind].
  rewrite (app_assoc (be_bytes 4 (version c))).
  rewrite (word_app 8) by (rewrite ?length_app, ?L4; done). cbn [mbind option_bind].
  rewrite (app_assoc _ (be_bytes 4 (seq_num c))).
  rewrite (word_app 12) by (rewrite ?length_app, ?L4; done). cbn [mbind option_bind].
  rewrite (app_assoc _ (be_bytes 4 (service c))).
  rewrite (word_app 16) by (rewrite ?length_app, ?L4; done). cbn [mbind option_bind].
  rewrite (app_assoc _ (be_bytes 4 (Z.of_nat _))), Nat2Z.id.
  rewrite slice_app by (rewrite ?length_app, ?L4; done). cbn [mbind option_bind].
  by destruct c.
Qed.

(** What parses is the words, the handle of the length they announce, and a tail. *)
Lemma word_inv body i v :
  word body i = Some v -> in_width 32 v /\ be_bytes 4 v = take 4 (drop i body) /\ (i + 4 <= length body)%nat.
Proof.
  unfold word, slice. destruct (Nat.leb_spec (i + 4) (length body)) as [H|H]; [|done].
  intros [= <-]. pose proof (be_val_range (take 4 (drop i body))) as Hr.
  assert (L : length (take 4 (drop i body)) = 4%nat) by (rewrite length_take, length_drop; lia).
  rewrite L in Hr. split_and!; [done| |done]. rewrite <- L at 1. apply be_bytes_be_val.
Qed.

Definition valid_auth_unix (a : AuthUnix) : Prop :=
  in_width 32 (stamp a) /\ string_valid (machinename a) /\ in_width 32 (uid a) /\
  in_width 32 (gid a) /\ Z.of_nat (length (gids a)) < 2 ^ 32 /\ Forall (in_width 32) (gids a).

#[export] Instance codec_auth_unix_ok : CodecOk codec_auth_unix valid_auth_unix.
Proof.
  unfold codec_auth_unix. eapply codec_ok_impl; [apply codec_iso_ok; [apply _|by intros []]|].
  intros a (?&?&?&?&?&?). by split_and!.
Qed.

(** The credentials and verifiers a caller can send: [AuthShort] and [AuthDes] are
    read back as [AuthNull], and a GSS body is a credential when it parses as one. *)
Definition valid_auth (is_cred : bool) (a : OpaqueAuth) : Prop :=
  match a with
  | AuthNull body => opaque_valid body
  | AuthUnixCred auth =>
      valid_auth_unix auth /\ forall bs, codec_auth_unix.(ser) auth = Ok bs -> opaque_valid bs
  | AuthShort | AuthDes => False
  | AuthGss c => is_cred = true /\ valid_cred_gss c /\ opaque_valid (RpcSecGssCred_encode c)
  | GssVerf token => is_cred = false /\ opaque_valid token
  end.

Lemma read_u32_put v rest : in_width 32 v -> read_u32 (put_u32 v ++ rest) = Ok (v, rest).
Proof.
  intros Hv. unfold read_u32, read_exact, put_u32. pose proof (length_be_bytes 4 v) as L.
  rewrite (proj2 (Nat.leb_le _ _)) by (rewrite length_app; lia). cbn [result_bind fst snd].
  rewrite take_app_length', drop_app_length' by done. by rewrite be_val_be_bytes_small.
Qed.

Lemma read_opaque_put d bs rest : put_opaque d = Ok bs -> read_opaque (bs ++ rest) = Ok (d, rest).
Proof.
  unfold put_opaque. intros (n & En & <-%Ok_inj)%result_bind_ok.
  apply length_u32_inv in En as [-> Hw]. unfold read_opaque. rewrite <- app_assoc.
  rewrite read_u32_put by done. cbn [result_bind fst snd]. rewrite Nat2Z.id, <- app_assoc.
  rewrite (proj2 (Z.ltb_ge _ _)) by (rewrite length_app; lia).
  unfold read_exact. rewrite (proj2 (Nat.leb_le _ _)) by (rewrite length_app; lia).
  cbn [result_bind fst snd]. rewrite take_app_length, drop_app_length.
  destruct (Nat.ltb_spec 0 (padding (length d))) as [Hp|Hp].
  - rewrite (proj2 (Nat.leb_le _ _)) by (rewrite length_app, length_replicate; lia).
    cbn [result_bind snd]. by rewrite drop_app_length' by by rewrite length_replicate.
  - by replace (padding (length d)) with 0%nat by lia.
Qed.

(** Reading an authenticator back, in the header parser and in serde's form. *)
Lemma read_opaque_auth_ser is_cred a bs rest :
  valid_auth is_cred a -> OpaqueAuth_ser a = Ok bs -> read_opaque_auth is_cred (bs ++ rest) = Ok (a, rest).
Proof.
  intros Ha ([flavor body] & Efb & E)%result_bind_ok.
  apply result_bind_ok in E as (b1 & <-%Ok_inj & E).
  apply result_bind_ok in E as (b2 & Eb & <-%Ok_inj).
  unfold read_opaque_auth. rewrite <- app_assoc.
  rewrite read_u32_put by (destruct a; simpl in Efb; simplify_eq; try done;
    apply result_bind_ok in Efb as (? & _ & [= <- <-]); done).
  cbn [result_bind]. rewrite (read_opaque_put body) by done. cbn [result_bind].
  destruct a as [d|auth| | |c|t]; cbn [valid_auth] in Ha; try done.
  - by injection Efb as <- <-.
  - apply result_bind_ok in Efb as (bu & Ebu & [= <- <-]). destruct Ha as [Ha _].
    pose proof (codec_roundtrip auth bu [] Ha Ebu) as R. rewrite app_nil_r in R. by rewrite R.
  - injection Efb as <- <-. destruct Ha as (-> & Hc & _).
    pose proof (RpcSecGssCred_parse_encode c [] Hc) as R. rewrite app_nil_r in R. by rewrite R.
  - injection Efb as <- <-. by destruct Ha as [-> _].
Qed.

Lemma OpaqueAuth_ser_aligned a bs : OpaqueAuth_ser a = Ok bs -> (length bs mod 4 = 0)%nat.
Proof. intros (fb & _ & E)%result_bind_ok. by apply codec_aligned in E. Qed.

Lemma OpaqueAuth_ser_total is_cred a : valid_auth is_cred a -> exists bs, OpaqueAuth_ser a = Ok bs.
Proof.
  intros Ha. unfold OpaqueAuth_ser.
  destruct a as [d|auth| | |c|t]; cbn [valid_auth] in Ha; try done; cbn [result_bind].
  2: destruct Ha as [Ha Hb]; destruct (codec_total auth Ha) as [b E]; rewrite E; cbn [result_bind];
     specialize (Hb _ E).
  all: match goal with |- exists bs, ser _ (?f, ?d) = _ =>
         apply (codec_total (c := codec_pair codec_u32 codec_opaque) (f, d)); split; [by vm_compute|intuition] end.
Qed.

(** The call header as it goes over the wire. *)
Definition call_header (xid rpcvers prog vers proc : Z) : list byte :=
  put_u32 xid ++ put_u32 0 ++ put_u32 rpcvers ++ put_u32 prog ++ put_u32 vers ++ put_u32 proc.

(** ** Words *)

Lemma Words_ser_aligned bytes : (length bytes mod 4 = 0)%nat -> Words_ser bytes = Ok bytes.
Proof.
  intros H. unfold Words_ser. rewrite H. cbn [Nat.eqb negb]. f_equal.
  assert (length bytes = (length bytes / 4) * 4)%nat as Hl
    by (pose proof (Nat.div_mod_eq (length bytes) 4); lia).
  revert Hl. generalize (length bytes / 4)%nat as n. intros n. clear H. revert bytes.
  induction n as [|n IH]; intros bytes Hl.
  - by apply nil_length_inv in Hl as ->.
  - cbn [chunks4 map concat]. rewrite IH by (rewrite length_drop; lia).
    assert (L : length (take 4 bytes) = 4%nat) by (rewrite length_take; lia).
    unfold put_u32. rewrite <- L at 1. rewrite be_bytes_be_val. apply take_drop.
Qed.

(** ** Properties *)

(** C23: Record marking: a record sent in any number of fragments, each at most [MAX]
    long, all of it in the buffer, is assembled to the concatenation of the fragments;
    exactly its bytes leave the buffer. *)
Theorem read_record_assembles (l : list (list byte)) (rest : list byte) :
  l <> [] -> Forall (fun d => Z.of_nat (length d) <= MAX) l ->
  read_record (fragments l ++ rest) = (rest, Record (concat l)).
Proof. apply read_record_fragments. Qed.

Lemma read_record_assembles_witness :
  read_record (fragments [[x01; x02]; []; [x03]] ++ [x80]) = ([x80], Record [x01; x02; x03]).
Proof. apply read_record_assembles; [done|]. apply (bool_decide_unpack _). by vm_compute. Defined.

(** The decoding loop terminates on every buffer, within as many rounds as the
    buffer has bytes, and whatever it decides it only ever drops a prefix. *)
Theorem read_record_total (src : list byte) :
  exists src' r, read_record_loop (S (length src)) [] src = Some (src', r) /\
    exists k, src' = drop k src.
Proof.
  destruct (read_record_loop_fuel (S (length src)) (S (length src)) [] src) as [_ [[src' r] E]]; [lia..|].
  exists src', r. split; [done|]. by eapply read_record_suffix.
Qed.

(** A record that has not arrived completely is lost when it came in several
    fragments: the fragments already there are taken from the buffer and dropped, so
    when the last one arrives the record decoded is its data alone. *)
Theorem read_record_loses_fragments (d1 d2 : list byte) :
  Z.of_nat (length d1) <= MAX -> Z.of_nat (length d2) <= MAX ->
  read_record (fragment false d1) = ([], NeedMore) /\
  read_record ((read_record (fragment false d1)).1 ++ fragment true d2) = ([], Record d2) /\
  read_record (fragment false d1 ++ fragment true d2) = ([], Record (d1 ++ d2)).
Proof.
  intros H1 H2.
  assert (E : read_record (fragment false d1) = ([], NeedMore)).
  { unfold read_record. rewrite <- (app_nil_r (fragment false d1)) at 3.
    rewrite read_fragment by done. by rewrite length_fragment. }
  rewrite E. split; [done|]. split.
  - pose proof (read_record_fragments [d2] []) as R. cbn [fragments concat] in R.
    rewrite !app_nil_r in R. apply R; [done|by constructor].
  - pose proof (read_record_fragments [d1; d2] []) as R. cbn [fragments concat] in R.
    rewrite !app_nil_r in R. apply R; [done|by repeat constructor].
Qed.

Lemma read_record_loses_fragments_witness :
  read_record (fragment false [x01]) = ([], NeedMore) /\
  read_record ((read_record (fragment false [x01])).1 ++ fragment true [x02]) = ([], Record [x02]) /\
  read_record (fragment false [x01] ++ fragment true [x02]) = ([], Record ([x01] ++ [x02])).
Proof. by apply read_record_loses_fragments. Defined.

(** C17: An RPCSEC_GSS credential survives the wire, padding and trailing bytes
    included; and whatever parses carries exactly the words and the handle of the
    announced length that are in the body. *)
Theorem RpcSecGssCred_roundtrip :
  (forall c tail, valid_cred_gss c -> RpcSecGssCred_parse (RpcSecGssCred_encode c ++ tail) = Some c) /\
  (forall body c, RpcSecGssCred_parse body = Some c ->
     valid_cred_gss c /\ (20 + length (handle c) <= length body)%nat /\
     handle c = take (length (handle c)) (drop 20 body) /\
     be_bytes 4 (Z.of_nat (length (handle c))) = take 4 (drop 16 body)).
Proof.
  split; [apply RpcSecGssCred_parse_encode|].
  intros body c H. unfold RpcSecGssCred_parse in H.
  apply bind_Some in H as (v & (Hv & _)%word_inv & H).
  apply bind_Some in H as (p & (Hp & _)%word_inv & H).
  apply bind_Some in H as (s & (Hs & _)%word_inv & H).
  apply bind_Some in H as (sv & (Hsv & _)%word_inv & H).
  apply bind_Some in H as (len & (Hlen & Elen & _)%word_inv & H).
  apply bind_Some in H as (h & Hh & [= <-]).
  unfold slice in Hh. case_match eqn:Hle; [|done]. apply Nat.leb_le in Hle. injection Hh as <-.
  unfold in_width in Hlen. unfold valid_cred_gss. cbn [version gss_proc seq_num service handle].
  rewrite length_take, length_drop, Nat.min_l, Z2Nat.id by lia. split_and!; (done || lia).
Qed.

(** The call parser reads back every well-formed call header, credential and
    verifier: an RPCSEC_GSS call keeps its signed header and its arguments undecoded,
    NULL and foreign programs have no arguments, and any other call has what the
    argument decoder makes of the bytes that follow (a parse error keeps the XID). *)
Theorem from_bytes_call compound_args xid rpcv prg vrs prc c w cb wb arg :
  Forall (in_width 32) [xid; rpcv; prg; vrs; prc] ->
  valid_auth true c -> valid_auth false w ->
  OpaqueAuth_ser c = Ok cb -> OpaqueAuth_ser w = Ok wb ->
  from_bytes compound_args (call_header xid rpcv prg vrs prc ++ cb ++ wb ++ arg) =
  Ok (MkRpcCallMsg xid
    match c with
    | AuthGss _ => Call (MkCallBody rpcv prg vrs prc c w None
        (Some (MkGssCallData (call_header xid rpcv prg vrs prc ++ cb) arg)))
    | _ =>
      if (prc =? 0) || negb (prg =? 100003) then Call (MkCallBody rpcv prg vrs prc c w None None)
      else match compound_args arg with
           | Ok (compound, _) => Call (MkCallBody rpcv prg vrs prc c w (Some compound) None)
           | Err e => ParseError (ErrCompound prg vrs prc e)
           end
    end).
Proof.
  intros HF Hc Hw Ec Ew. rewrite !List.Forall_cons_iff in HF. destruct HF as (Hx & Hr & Hp & Hv & Hn & _).
  unfold from_bytes, call_header. rewrite <- !app_assoc.
  do 6 (rewrite read_u32_put by done; cbn [result_bind negb Z.eqb]).
  rewrite (read_opaque_auth_ser true c) by done. cbn [result_bind].
  rewrite (read_opaque_auth_ser false w) by done. cbn [result_bind].
  set (hdr := put_u32 xid ++ put_u32 0 ++ put_u32 rpcv ++ put_u32 prg ++ put_u32 vrs ++ put_u32 prc ++ cb).
  replace (put_u32 xid ++ put_u32 0 ++ put_u32 rpcv ++ put_u32 prg ++ put_u32 vrs ++ put_u32 prc ++ cb ++ wb ++ arg)
    with (hdr ++ wb ++ arg) by (unfold hdr; by rewrite <- !app_assoc).
  assert (E : take (length (hdr ++ wb ++ arg) - length (wb ++ arg)) (hdr ++ wb ++ arg) = hdr).
  { rewrite length_app. replace (_ + _ - _)%nat with (length hdr) by lia. apply take_app_length. }
  rewrite E. destruct c; repeat case_match; done.
Qed.

Lemma from_bytes_call_witness :
  exists cb wb,
  from_bytes (rfail Io_UnexpectedEof)
    (call_header 7 2 100003 4 1 ++ cb ++ wb ++ [x00]) =
  Ok (MkRpcCallMsg 7 (Call (MkCallBody 2 100003 4 1 (AuthGss (MkRpcSecGssCred 1 0 5 3 [x01; x02]))
        (GssVerf [x0a]) None
        (Some (MkGssCallData (call_header 7 2 100003 4 1 ++ cb) [x00]))))).
Proof.
  exists (default [] (match OpaqueAuth_ser (AuthGss (MkRpcSecGssCred 1 0 5 3 [x01; x02])) with Ok b => Some b | Err _ => None end)).
  exists (default [] (match OpaqueAuth_ser (GssVerf [x0a]) with Ok b => Some b | Err _ => None end)).
  apply (from_bytes_call (rfail Io_UnexpectedEof) 7 2 100003 4 1
    (AuthGss (MkRpcSecGssCred 1 0 5 3 [x01; x02])) (GssVerf [x0a])); try done.
  apply (bool_decide_unpack _). by vm_compute.
Defined.

(** Results the server has already encoded (GSS INIT results and wrapped results)
    go out byte for byte behind an accepted, successful reply header; they are refused
    exactly when they are not whole words. *)
Theorem SuccessRaw_verbatim compound_res xid v vb bytes :
  OpaqueAuth_ser v = Ok vb ->
  RpcReplyMsg_to_bytes compound_res
    (MkRpcReplyMsg xid (MsgAccepted (MkAcceptedReply v (SuccessRaw bytes)))) =
  if (length bytes mod 4 =? 0)%nat
  then Ok (put_u32 xid ++ put_u32 1 ++ put_u32 0 ++ vb ++ put_u32 0 ++ bytes)
  else Err (Message "raw RPC results are not 4-byte aligned").
Proof.
  intros Hv. unfold RpcReplyMsg_to_bytes. cbn [reply_body reply_verf reply_data reply_xid AcceptBody_ser].
  rewrite Hv. cbn [result_bind]. destruct (Nat.eqb_spec (length bytes mod 4) 0) as [E|E].
  - by rewrite Words_ser_aligned by done.
  - unfold Words_ser. by rewrite (proj2 (Nat.eqb_neq _ _)) by done.
Qed.

Lemma SuccessRaw_verbatim_witness :
  RpcReplyMsg_to_bytes (fun _ => Ok [])
    (MkRpcReplyMsg 9 (MsgAccepted (MkAcceptedReply (AuthNull []) (SuccessRaw [x01; x02; x03; x04])))) =
  if (length [x01; x02; x03; x04] mod 4 =? 0)%nat
  then Ok (put_u32 9 ++ put_u32 1 ++ put_u32 0 ++ (put_u32 0 ++ put_u32 0) ++ put_u32 0 ++ [x01; x02; x03; x04])
  else Err (Message "raw RPC results are not 4-byte aligned").
Proof. by apply SuccessRaw_verbatim. Defined.
