(* ===== verification/MultiIndex.v ===== *)
(** * The multi-index map interface

    [LockingStateDb] and [FilehandleDb] are generated by the [multi_index_map] crate:
    a set of entries with hashed indexes, some of them unique. [MultiIndex] is what the
    server relies on: an index lookup returns the entries with that key, in no
    particular order; a removal takes them out; [try_insert] fails, and [insert]
    panics, exactly when a unique key is taken. An index key is given as the test of
    the entries that have it. [list_multi_index] implements the interface. *)

From S2P Require Import Prelude.
From stdpp Require Import base list.
From Stdlib Require Import ZArith Lia.

Class MultiIndex (E M : Type) (clash : E -> E -> bool) : Type := {
  mi_empty : M;
  mi_iter : M -> list E;
  mi_get : M -> (E -> bool) -> list E;
  mi_remove : M -> (E -> bool) -> list E * M;
  mi_try_insert : M -> E -> option M;
  mi_iter_empty : mi_iter mi_empty = [];
  mi_get_spec m p : mi_get m p ≡ₚ filter (fun e => Is_true (p e)) (mi_iter m);
  mi_remove_spec m p :
    (mi_remove m p).1 ≡ₚ filter (fun e => Is_true (p e)) (mi_iter m) /\
    mi_iter (mi_remove m p).2 ≡ₚ filter (fun e => ~ Is_true (p e)) (mi_iter m);
  mi_try_insert_spec m e :
    match mi_try_insert m e with
    | Some m' => existsb (clash e) (mi_iter m) = false /\ mi_iter m' ≡ₚ e :: mi_iter m
    | None => existsb (clash e) (mi_iter m) = true
    end
}.

Section MultiIndexLemmas.
Context {E M : Type} {clash : E -> E -> bool} `{!MultiIndex E M clash}.
Implicit Types (m : M) (e : E) (p : E -> bool).

(** [get_by_<unique key>] and [remove_by_<unique key>]. *)
Definition mi_get_unique m p : option E := head (mi_get m p).
Definition mi_delete m p : M := (mi_remove m p).2.

Lemma mi_get_elem m p e : e ∈ mi_get m p <-> e ∈ mi_iter m /\ p e = true.
Proof.
  rewrite (elem_of_Permutation_proper e _ _ (mi_get_spec m p)), list_elem_of_filter, Is_true_true.
  tauto.
Qed.

Lemma mi_delete_elem m p e : e ∈ mi_iter (mi_delete m p) <-> e ∈ mi_iter m /\ p e = false.
Proof.
  unfold mi_delete.
  rewrite (elem_of_Permutation_proper e _ _ (proj2 (mi_remove_spec m p))), list_elem_of_filter.
  rewrite Is_true_true, not_true_iff_false. tauto.
Qed.

Lemma mi_delete_perm m p :
  mi_iter (mi_delete m p) ≡ₚ filter (fun e => ~ Is_true (p e)) (mi_iter m).
Proof. apply mi_remove_spec. Qed.

Lemma mi_insert_elem m e m' x :
  mi_try_insert m e = Some m' -> x ∈ mi_iter m' <-> x = e \/ x ∈ mi_iter m.
Proof.
  intros H. pose proof (mi_try_insert_spec m e) as S. rewrite H in S. destruct S as [_ S].
  by rewrite (elem_of_Permutation_proper x _ _ S), elem_of_cons.
Qed.

Lemma mi_insert_some m e :
  (forall x, x ∈ mi_iter m -> clash e x = false) -> exists m', mi_try_insert m e = Some m'.
Proof.
  intros H. pose proof (mi_try_insert_spec m e) as S.
  destruct (mi_try_insert m e) as [m'|]; [by exists m'|].
  apply existsb_exists in S as (x & Hx & Hc). rewrite H in Hc; [done|].
  by apply list_elem_of_In.
Qed.

Lemma mi_get_nil m p : mi_get m p = [] <-> forall e, e ∈ mi_iter m -> p e = false.
Proof.
  split.
  - intros H e He. destruct (p e) eqn:Ep; [|done].
    exfalso. apply (not_elem_of_nil e). rewrite <- H. by apply mi_get_elem.
  - intros H. destruct (mi_get m p) as [|e l] eqn:E1; [done|].
    assert (He : e ∈ mi_get m p) by (rewrite E1; left).
    apply mi_get_elem in He as [Hi Hp]. by rewrite H in Hp.
Qed.

Lemma mi_get_unique_some m p e : mi_get_unique m p = Some e -> e ∈ mi_iter m /\ p e = true.
Proof.
  unfold mi_get_unique. intros H. apply mi_get_elem. destruct (mi_get m p); simplify_eq/=. left.
Qed.

Lemma mi_get_unique_none m p : mi_get_unique m p = None <-> forall e, e ∈ mi_iter m -> p e = false.
Proof.
  rewrite <- mi_get_nil. unfold mi_get_unique. by destruct (mi_get m p).
Qed.

(** A unique index returns the entry that has the key. *)
Lemma mi_get_unique_is m p e :
  e ∈ mi_iter m -> p e = true -> (forall x, x ∈ mi_iter m -> p x = true -> x = e) ->
  mi_get_unique m p = Some e.
Proof.
  intros He Hp Hu. destruct (mi_get_unique m p) as [x|] eqn:E1.
  - apply mi_get_unique_some in E1 as [Hx Hpx]. by rewrite (Hu x).
  - rewrite (proj1 (mi_get_unique_none m p) E1) in Hp by done. done.
Qed.

(** Keys with a unique index stay distinct. *)
Definition mi_distinct {K} (key : E -> K) m : Prop := NoDup (map key (mi_iter m)).

Lemma mi_distinct_empty {K} (key : E -> K) : mi_distinct key mi_empty.
Proof. unfold mi_distinct. rewrite mi_iter_empty. constructor. Qed.

Lemma mi_distinct_delete {K} (key : E -> K) m p : mi_distinct key m -> mi_distinct key (mi_delete m p).
Proof.
  unfold mi_distinct. rewrite mi_delete_perm. intros H. eapply sublist_NoDup; [exact H|].
  apply (fmap_sublist key), sublist_filter.
Qed.

Lemma mi_distinct_insert {K} (key : E -> K) m e m' :
  mi_try_insert m e = Some m' -> (forall x, key x = key e -> clash e x = true) ->
  mi_distinct key m -> mi_distinct key m'.
Proof.
  intros H Hk Hd. pose proof (mi_try_insert_spec m e) as S. rewrite H in S. destruct S as [Hn S].
  unfold mi_distinct in *. rewrite S. constructor; [|done].
  intros (x & Ex & Hx)%list_elem_of_fmap.
  assert (existsb (clash e) (mi_iter m) = true) as Hc; [|by rewrite Hc in Hn].
  apply existsb_exists. exists x. split; [by apply list_elem_of_In|]. by apply Hk.
Qed.

Lemma mi_distinct_inj {K} (key : E -> K) m x y :
  mi_distinct key m -> x ∈ mi_iter m -> y ∈ mi_iter m -> key x = key y -> x = y.
Proof. intros Hd Hx Hy Hk. 
  unfold mi_distinct in Hd. induction (mi_iter m) as [|e l IH]; [by apply not_elem_of_nil in Hx|].
  apply NoDup_cons in Hd as [Hn Hd]. apply elem_of_cons in Hx as [->|Hx], Hy as [->|Hy].
  - done.
  - destruct Hn. rewrite Hk. by apply list_elem_of_fmap_2.
  - destruct Hn. rewrite <- Hk. by apply list_elem_of_fmap_2.
  - auto. Qed.
End MultiIndexLemmas.

(** The interface over lists. *)
#[export] Program Instance list_multi_index {E} (clash : E -> E -> bool) : MultiIndex E (list E) clash := {
  mi_empty := [];
  mi_iter l := l;
  mi_get l p := filter (fun e => Is_true (p e)) l;
  mi_remove l p := (filter (fun e => Is_true (p e)) l, filter (fun e => ~ Is_true (p e)) l);
  mi_try_insert l e := if existsb (clash e) l then None else Some (e :: l)
}.
Next Obligation. done. Qed.
Next Obligation. done. Qed.
Next Obligation. done. Qed.
Next Obligation. intros E clash m e. simpl. by destruct (existsb (clash e) m). Qed.
