(* ===== verification/Locking.v ===== *)
(** * Lock state ([filemanager/locking.rs])

    [LockingState] is an open share reservation or a byte-range lock;
    [conflicts_with] decides whether a held lock excludes a request.
    [locks_overlap] is the specification: the two ranges share a byte. *)

From S2P Require Import Prelude NfsTypes MultiIndex.
From stdpp Require Import base list strings numbers.
From Stdlib Require Import Strings.Byte ZArith Lia.
#[local] Open Scope Z_scope.

Inductive LockType : Type :=
| LockType_Open
| LockType_ByteRange.

#[export] Instance LockType_eq_dec : EqDecision LockType.
Proof. solve_decision. Defined.

Record LockingState : Type := MkLockingState {
  stateid : list byte;
  seqid : Z;
  client_id : Z;
  owner : list byte;
  lock_type : LockType;
  filehandle_id : NfsFh4;
  start : option Z;
  length_ : option Z;
  share_access : option Z;
  share_deny : option Z;
  nfs_lock_type : option NfsLockType4
}.

#[export] Instance LockingState_eq_dec : EqDecision LockingState.
Proof. solve_decision. Defined.

Definition new_shared_reservation (filehandle_id : NfsFh4) (stateid : list byte) (client_id : Z)
    (owner : list byte) (share_access share_deny : Z) : LockingState :=
  MkLockingState stateid 1 client_id owner LockType_Open filehandle_id None None
    (Some share_access) (Some share_deny) None.

Definition new_byte_range_lock (filehandle_id : NfsFh4) (stateid : list byte) (client_id : Z)
    (owner : list byte) (lock_type : NfsLockType4) (offset length : Z) : LockingState :=
  MkLockingState stateid 1 client_id owner LockType_ByteRange filehandle_id (Some offset)
    (Some length) None None (Some lock_type).

Definition is_write (t : NfsLockType4) : bool :=
  match t with WriteLt | WritewLt => true | _ => false end.

Definition range_end (start length : Z) : Z :=
  if length =? 0 then umax 64 else sat_add 64 start length.

Definition conflicts_with (l : LockingState) (offset length : Z) (req_type : NfsLockType4)
    (req_owner : list byte) (req_client_id : Z) : bool :=
  match lock_type l, start l, length_ l with
  | LockType_ByteRange, Some my_start, Some my_length =>
    if (client_id l =? req_client_id) && bool_decide (owner l = req_owner) then false else
    let my_end := range_end my_start my_length in
    let req_end := range_end offset length in
    if (req_end <=? my_start) || (my_end <=? offset) then false else
    let my_is_write := match nfs_lock_type l with Some t => is_write t | None => false end in
    my_is_write || is_write req_type
  | _, _, _ => false
  end.

(** The index of [LockingStateDb] that is unique. *)
Definition lock_clash (a b : LockingState) : bool := bool_decide (stateid a = stateid b).

(** ** Specification *)

(** Byte [b] is locked by a range: length 0 reaches to the end of file, and no range
    reaches past the largest offset. *)
Definition covers (start length b : Z) : Prop :=
  start <= b < umax 64 /\ (length = 0 \/ b < start + length).

Definition locks_overlap (s1 l1 s2 l2 : Z) : Prop := exists b, covers s1 l1 b /\ covers s2 l2 b.

(** What a byte-range lock held by [l] asks for. *)
Definition byte_range (l : LockingState) (s n : Z) (t : NfsLockType4) : Prop :=
  lock_type l = LockType_ByteRange /\ start l = Some s /\ length_ l = Some n /\ nfs_lock_type l = Some t.

Definition lock_conflict (a b : LockingState) : bool :=
  match start b, length_ b, nfs_lock_type b, lock_type b with
  | Some s, Some n, Some t, LockType_ByteRange => conflicts_with a s n t (owner b) (client_id b)
  | _, _, _, _ => false
  end.

(** Field ranges: every lock the server makes is an open or has all of its range. *)
Definition lock_ok (l : LockingState) : Prop :=
  match lock_type l with
  | LockType_Open => start l = None /\ length_ l = None /\ nfs_lock_type l = None
  | LockType_ByteRange =>
    exists s n t, start l = Some s /\ length_ l = Some n /\ nfs_lock_type l = Some t /\
      in_width 64 s /\ in_width 64 n
  end.

(** ** Proofs *)

Lemma range_overlap s1 l1 s2 l2 :
  in_width 64 s1 -> in_width 64 l1 -> in_width 64 s2 -> in_width 64 l2 ->
  (range_end s2 l2 <=? s1) || (range_end s1 l1 <=? s2) = false <-> locks_overlap s1 l1 s2 l2.
Proof.
  unfold in_width, locks_overlap, covers, range_end, sat_add, umax. intros H1 H2 H3 H4.
  rewrite orb_false_iff, !Z.leb_gt. split.
  - intros [Ha Hb]. exists (Z.max s1 s2).
    destruct (Z.eqb_spec l1 0), (Z.eqb_spec l2 0); lia.
  - intros (b & [Hb1 Hb2] & [Hb3 Hb4]). destruct (Z.eqb_spec l1 0), (Z.eqb_spec l2 0); lia.
Qed.

Lemma conflicts_with_spec l s n t off len ty ow cid :
  byte_range l s n t ->
  in_width 64 s -> in_width 64 n -> in_width 64 off -> in_width 64 len ->
  conflicts_with l off len ty ow cid = true <->
  (client_id l, owner l) <> (cid, ow) /\ locks_overlap s n off len /\
  (is_write t = true \/ is_write ty = true).
Proof.
  intros (El & Es & En & Et) Hs Hn Ho Hl. unfold conflicts_with. rewrite El, Es, En, Et.
  rewrite <- (range_overlap s n off len) by done.
  destruct (Z.eqb_spec (client_id l) cid) as [->|Hc]; simpl.
  - destruct (bool_decide_reflect (owner l = ow)) as [->|Ho']; [naive_solver|].
    case_match; [naive_solver|]. rewrite orb_true_iff. naive_solver.
  - case_match; [naive_solver|]. rewrite orb_true_iff. naive_solver.
Qed.

Lemma open_never_conflicts l off len ty ow cid :
  lock_type l = LockType_Open -> conflicts_with l off len ty ow cid = false.
Proof. intros E. unfold conflicts_with. by rewrite E. Qed.

(** Two ranges overlap whichever is named first. *)
Lemma locks_overlap_sym s1 l1 s2 l2 : locks_overlap s1 l1 s2 l2 <-> locks_overlap s2 l2 s1 l1.
Proof. unfold locks_overlap. naive_solver. Qed.

Lemma lock_ok_cases l :
  lock_ok l ->
  lock_type l = LockType_Open \/
  exists s n t, byte_range l s n t /\ in_width 64 s /\ in_width 64 n.
Proof.
  unfold lock_ok, byte_range. destruct (lock_type l); [by left|].
  intros (s & n & t & ? & ? & ? & ? & ?). right. exists s, n, t. by split_and!.
Qed.

Lemma lock_conflict_open a b :
  lock_type a = LockType_Open \/ lock_type b = LockType_Open -> lock_conflict a b = false.
Proof.
  unfold lock_conflict. intros [E|E]; [|rewrite E; by repeat case_match].
  repeat case_match; try done. by apply open_never_conflicts.
Qed.

Lemma lock_conflict_range a b s n t :
  byte_range b s n t -> lock_conflict a b = conflicts_with a s n t (owner b) (client_id b).
Proof. intros (E1 & E2 & E3 & E4). unfold lock_conflict. by rewrite E1, E2, E3, E4. Qed.

(** Conflict between two held locks does not depend on which came first. *)
Lemma lock_conflict_sym a b : lock_ok a -> lock_ok b -> lock_conflict a b = lock_conflict b a.
Proof.
  intros [Ha|(s1 & n1 & t1 & Ha & Hs1 & Hn1)]%lock_ok_cases; [by rewrite !lock_conflict_open by auto|].
  intros [Hb|(s2 & n2 & t2 & Hb & Hs2 & Hn2)]%lock_ok_cases; [by rewrite !lock_conflict_open by auto|].
  rewrite (lock_conflict_range a b s2 n2 t2), (lock_conflict_range b a s1 n1 t1) by done.
  apply eq_iff_eq_true.
  rewrite (conflicts_with_spec a s1 n1 t1), (conflicts_with_spec b s2 n2 t2) by done.
  rewrite (locks_overlap_sym s2). naive_solver.
Qed.

(** A lock does not conflict with itself: it has one owner. *)
Lemma lock_conflict_self a : lock_conflict a a = false.
Proof.
  unfold lock_conflict, conflicts_with. repeat case_match; try done.
  rewrite Z.eqb_refl, bool_decide_eq_true_2 in * by done. done.
Qed.

Lemma new_byte_range_lock_ok fh sid cid ow ty off len :
  in_width 64 off -> in_width 64 len -> lock_ok (new_byte_range_lock fh sid cid ow ty off len).
Proof. intros Ho Hl. unfold lock_ok, new_byte_range_lock. simpl. by exists off, len, ty. Qed.

Lemma new_shared_reservation_ok fh sid cid ow acc deny :
  lock_ok (new_shared_reservation fh sid cid ow acc deny).
Proof. done. Qed.

(** A held byte-range lock conflicts with a request exactly when they belong to
    different owners, share a byte, and one of them is a write lock. *)
Theorem conflicts_with_iff fh sid cid ow ty off len rty roff rlen row rcid :
  in_width 64 off -> in_width 64 len -> in_width 64 roff -> in_width 64 rlen ->
  conflicts_with (new_byte_range_lock fh sid cid ow ty off len) roff rlen rty row rcid = true <->
  (cid, ow) <> (rcid, row) /\ locks_overlap off len roff rlen /\
  (is_write ty = true \/ is_write rty = true).
Proof.
  intros H1 H2 H3 H4. set (l := new_byte_range_lock _ _ _ _ _ _ _).
  assert (B : byte_range l off len ty) by done.
  exact (conflicts_with_spec l off len ty roff rlen rty row rcid B H1 H2 H3 H4).
Qed.

Lemma conflicts_with_iff_witness :
  conflicts_with (new_byte_range_lock [x01] [x00] 1 [x61] ReadLt 0 0) (2 ^ 64 - 2) 0 WriteLt [x61] 2 = true <->
  (1, [x61]) <> (2, [x61]) /\ locks_overlap 0 0 (2 ^ 64 - 2) 0 /\
  (is_write ReadLt = true \/ is_write WriteLt = true).
Proof. by apply conflicts_with_iff. Defined.
