(* ===== verification/FileManager.v ===== *)
(** * The file manager actor ([filemanager/mod.rs], [filemanager/filehandle.rs])

    One export's [FileManager]: the filehandle database, the lock database, the
    delegations, the write caches and the files waiting for their deferred deletion.
    [handle_message] is the whole actor: one definition per message, run on the
    manager's state and the world outside it (the file system, the clock), which
    [Vfs] makes a parameter. [None] is a panic of the actor. *)

From S2P Require Import Prelude NfsTypes Attrs MultiIndex Locking.
From stdpp Require Import base list gmap strings pretty.
From Stdlib Require Import Strings.Byte ZArith Lia.
#[local] Open Scope Z_scope.

(** ** The world outside *)

(** [RealMeta]: what [lstat] returns. *)
Record RealMeta : Type := MkRealMeta {
  ino : Z; dev : Z; mode : Z; nlink : Z; uid : Z; gid : Z; size : Z; blocks : Z;
  atime : Z; atime_nsec : Z; mtime : Z; mtime_nsec : Z; ctime : Z; ctime_nsec : Z
}.

(** The [vfs] crate's paths over the export, the calls of [std::fs], the clock, the
    default hasher, and the spawning of a write cache; [W] is the outside world, [P] is
    [VfsPath], [C] is [WriteCacheHandle]. Calls that can fail tell whether they did;
    [vfs_remove_dir] gives the debug text of its error. *)
Class Vfs (W P C : Type) : Type := {
  vfs_as_str : P -> string;
  vfs_parent : P -> P;
  vfs_join : P -> string -> option P;
  vfs_exists : W -> P -> bool;
  vfs_is_dir : W -> P -> bool;
  vfs_len : W -> P -> Z;
  vfs_create_file : W -> P -> bool * W;
  vfs_create_dir : W -> P -> bool * W;
  vfs_remove_file : W -> P -> bool * W;
  vfs_remove_dir : W -> P -> option string * W;
  vfs_move_file : W -> P -> P -> bool * W;
  from_path : W -> string -> option RealMeta;
  fs_read_dir : W -> string -> option (list (string * string));
  current_time : W -> Nfstime4;
  default_hash : string -> Z;
  cache_spawn : W -> Z -> P -> list byte -> string -> C * W
}.

(** ** Strings *)

Definition str_contains (s sub : string) : bool :=
  match String.index 0 sub s with Some _ => true | None => false end.

Fixpoint trim_start_matches (c : Ascii.ascii) (s : string) : string :=
  match s with
  | String.String a s' => if Ascii.eqb a c then trim_start_matches c s' else s
  | String.EmptyString => s
  end.

Fixpoint str_last (s : string) : option Ascii.ascii :=
  match s with
  | String.EmptyString => None
  | String.String a String.EmptyString => Some a
  | String.String _ s' => str_last s'
  end.

Definition slash : Ascii.ascii := Ascii.ascii_of_nat 47.

(** [PathBuf::join]: an absolute path replaces the base. *)
Definition path_join (base rel : string) : string :=
  match rel with
  | String.String a _ =>
    if Ascii.eqb a slash then rel else
    match str_last base with
    | None => rel
    | Some b => if Ascii.eqb b slash then base +:+ rel else base +:+ "/" +:+ rel
    end
  | String.EmptyString => base +:+ "/"
  end.

Definition hex_digit (n : Z) : Ascii.ascii :=
  Ascii.ascii_of_nat (Z.to_nat (if n <? 10 then 48 + n else 87 + n)).

(** [format!("{:016x}", v)] *)
Definition hex16 (v : Z) : string :=
  foldr (fun i s => String.String (hex_digit (Z.land (Z.shiftr v (4 * i)) 15)) s) ""%string
        (rev (seqZ 0 16)).

(** ** Filehandles *)

Section FileManager.
Context {W P C L H : Type}.

Record Filehandle : Type := MkFilehandle {
  fh_id : NfsFh4;
  file : P;
  path : string;
  attr_type : NfsFtype4;
  attr_change : Z;
  attr_size : Z;
  attr_fileid : Z;
  attr_fsid : Fsid4;
  attr_mode : Z;
  attr_nlink : Z;
  attr_owner : string;
  attr_owner_group : string;
  attr_space_used : Z;
  attr_time_access : Nfstime4;
  attr_time_metadata : Nfstime4;
  attr_time_modify : Nfstime4;
  verifier : option (list byte);
  locks : list LockingState;
  write_cache : option C;
  version : Z
}.

Definition with_locks (fh : Filehandle) (l : list LockingState) : Filehandle :=
  MkFilehandle (fh_id fh) (file fh) (path fh) (attr_type fh) (attr_change fh) (attr_size fh)
    (attr_fileid fh) (attr_fsid fh) (attr_mode fh) (attr_nlink fh) (attr_owner fh)
    (attr_owner_group fh) (attr_space_used fh) (attr_time_access fh) (attr_time_metadata fh)
    (attr_time_modify fh) (verifier fh) l (write_cache fh) (version fh).

Definition with_write_cache (fh : Filehandle) (c : option C) : Filehandle :=
  MkFilehandle (fh_id fh) (file fh) (path fh) (attr_type fh) (attr_change fh) (attr_size fh)
    (attr_fileid fh) (attr_fsid fh) (attr_mode fh) (attr_nlink fh) (attr_owner fh)
    (attr_owner_group fh) (attr_space_used fh) (attr_time_access fh) (attr_time_metadata fh)
    (attr_time_modify fh) (verifier fh) (locks fh) c (version fh).

(** The two unique indexes of [FilehandleDb]. *)
Definition fh_clash (a b : Filehandle) : bool :=
  bool_decide (fh_id a = fh_id b) || bool_decide (path a = path b).

Record DelegationState : Type := MkDelegationState {
  deleg_client_id : Z;
  deleg_stateid : Stateid4;
  is_write_deleg : bool
}.

Record FileManager : Type := MkFileManager {
  root : P;
  export_root : string;
  lease_time : Z;
  hard_link_support : bool;
  symlink_support : bool;
  unique_handles : bool;
  fsid : Z;
  export_id : Z;
  fhdb : H;
  next_fh_id : Z;
  lockdb : L;
  next_stateid_id : Z;
  boot_time : Z;
  cachedb : gmap (list byte) C;
  delegations : gmap (list byte) DelegationState;
  pending_deletes : gset (list byte)
}.

Context `{V : !Vfs W P C} `{ML : !MultiIndex LockingState L lock_clash}
        `{MH : !MultiIndex Filehandle H fh_clash}.

Definition set_fhdb (fm : FileManager) (d : H) : FileManager :=
  MkFileManager (root fm) (export_root fm) (lease_time fm) (hard_link_support fm) (symlink_support fm)
    (unique_handles fm) (fsid fm) (export_id fm) d (next_fh_id fm) (lockdb fm) (next_stateid_id fm)
    (boot_time fm) (cachedb fm) (delegations fm) (pending_deletes fm).

Definition set_next_fh_id (fm : FileManager) (n : Z) : FileManager :=
  MkFileManager (root fm) (export_root fm) (lease_time fm) (hard_link_support fm) (symlink_support fm)
    (unique_handles fm) (fsid fm) (export_id fm) (fhdb fm) n (lockdb fm) (next_stateid_id fm)
    (boot_time fm) (cachedb fm) (delegations fm) (pending_deletes fm).

Definition set_locks (fm : FileManager) (d : L) (n : Z) : FileManager :=
  MkFileManager (root fm) (export_root fm) (lease_time fm) (hard_link_support fm) (symlink_support fm)
    (unique_handles fm) (fsid fm) (export_id fm) (fhdb fm) (next_fh_id fm) d n
    (boot_time fm) (cachedb fm) (delegations fm) (pending_deletes fm).

Definition set_lockdb (fm : FileManager) (d : L) : FileManager := set_locks fm d (next_stateid_id fm).
Definition set_next_stateid_id (fm : FileManager) (n : Z) : FileManager := set_locks fm (lockdb fm) n.

Definition set_cachedb (fm : FileManager) (d : gmap (list byte) C) : FileManager :=
  MkFileManager (root fm) (export_root fm) (lease_time fm) (hard_link_support fm) (symlink_support fm)
    (unique_handles fm) (fsid fm) (export_id fm) (fhdb fm) (next_fh_id fm) (lockdb fm) (next_stateid_id fm)
    (boot_time fm) d (delegations fm) (pending_deletes fm).

Definition set_delegations (fm : FileManager) (d : gmap (list byte) DelegationState) : FileManager :=
  MkFileManager (root fm) (export_root fm) (lease_time fm) (hard_link_support fm) (symlink_support fm)
    (unique_handles fm) (fsid fm) (export_id fm) (fhdb fm) (next_fh_id fm) (lockdb fm) (next_stateid_id fm)
    (boot_time fm) (cachedb fm) d (pending_deletes fm).

Definition set_pending_deletes (fm : FileManager) (d : gset (list byte)) : FileManager :=
  MkFileManager (root fm) (export_root fm) (lease_time fm) (hard_link_support fm) (symlink_support fm)
    (unique_handles fm) (fsid fm) (export_id fm) (fhdb fm) (next_fh_id fm) (lockdb fm) (next_stateid_id fm)
    (boot_time fm) (cachedb fm) (delegations fm) d.

(** ** The actor's monad: state, world, panic *)

Definition action (A : Type) : Type := FileManager -> W -> option (A * FileManager * W).

Definition ret {A} (a : A) : action A := fun fm w => Some (a, fm, w).
Definition bind {A B} (m : action A) (k : A -> action B) : action B :=
  fun fm w => match m fm w with Some (a, fm, w) => k a fm w | None => None end.
Definition self : action FileManager := fun fm w => Some (fm, fm, w).
Definition world : action W := fun fm w => Some (w, fm, w).
Definition modify (f : FileManager -> FileManager) : action unit := fun fm w => Some (tt, f fm, w).
Definition outside {A} (f : W -> A * W) : action A := fun fm w => let '(a, w) := f w in Some (a, fm, w).
Definition panic {A} : action A := fun _ _ => None.

Notation "'act' x '<-' m 'in' k" := (bind m (fun x => k))
  (at level 10, x binder, m at level 100, k at level 200).
Notation "'run' m 'in' k" := (bind m (fun _ : unit => k))
  (at level 10, m at level 100, k at level 200).

Definition when (b : bool) (m : action unit) : action unit := if b then m else ret tt.

(** ** Paths and metadata *)

(** [file.as_str()], with the empty path written ["/"]. *)
Definition path_of (p : P) : string :=
  let s := vfs_as_str p in if bool_decide (s = ""%string) then "/"%string else s.

Definition real_path (fm : FileManager) (vfs_path : P) : string :=
  let rel := vfs_as_str vfs_path in
  if bool_decide (rel = ""%string) || bool_decide (rel = "/"%string) then export_root fm
  else path_join (export_root fm) (trim_start_matches slash rel).

(** Nanoseconds of the modification time, modulo 2^64. *)
Definition change_of_mtime (m : RealMeta) : Z :=
  wrap 64 (wrap 64 (wrap 64 (mtime m) * 1000000000) + wrap 64 (mtime_nsec m)).

Definition dir_change_attr (fm : FileManager) (w : W) (dir : P) : Z :=
  match from_path w (real_path fm dir) with
  | Some m => change_of_mtime m
  | None => 0
  end.

Definition path_exists (fm : FileManager) (w : W) (p : P) : bool :=
  vfs_exists w p || match from_path w (real_path fm p) with Some _ => true | None => false end.

(** [S_IFMT] and the file types. *)
Definition ftype_of_mode (mode : Z) : NfsFtype4 :=
  let file_type := Z.land mode 0xF000 in
  if file_type =? 0x4000 then Nf4dir
  else if file_type =? 0x8000 then Nf4reg
  else if file_type =? 0xA000 then Nf4lnk
  else if file_type =? 0x6000 then Nf4blk
  else if file_type =? 0x2000 then Nf4chr
  else if file_type =? 0x1000 then Nf4fifo
  else if file_type =? 0xC000 then Nf4sock
  else Nf4Undef.

Definition new_real (f : P) (id : NfsFh4) (major minor ver : Z) (m : RealMeta) : Filehandle :=
  MkFilehandle id f (path_of f) (ftype_of_mode (mode m)) (change_of_mtime m) (size m) (ino m)
    (MkFsid4 major minor) (Z.land (mode m) 0xFFF) (wrap 32 (nlink m)) (pretty (uid m)) (pretty (gid m))
    (wrap 64 (blocks m * 512)) (MkNfstime4 (atime m) (wrap 32 (atime_nsec m)))
    (MkNfstime4 (ctime m) (wrap 32 (ctime_nsec m))) (MkNfstime4 (mtime m) (wrap 32 (mtime_nsec m)))
    None [] None (wrap 64 (ver + 1)).

Definition new_fallback (w : W) (f : P) (id : NfsFh4) (major minor ver : Z) : Filehandle :=
  let init_time := current_time w in
  let ver := wrap 64 (ver + 1) in
  let is_dir := vfs_is_dir w f in
  let sz := vfs_len w f in
  MkFilehandle id f (path_of f) (if is_dir then Nf4dir else Nf4reg) ver sz
    (default_hash (path_of f)) (MkFsid4 major minor) (if is_dir then 0x1ED else 0x1A4) 1
    "0" "0" sz init_time init_time init_time None [] None ver.

(** [if let Some(meta) = RealMeta::from_path(..) { new_real } else { new }] *)
Definition make_filehandle (fm : FileManager) (w : W) (f : P) (id : NfsFh4) (ver : Z) : Filehandle :=
  match from_path w (real_path fm f) with
  | Some m => new_real f id (fsid fm) (fsid fm) ver m
  | None => new_fallback w f id (fsid fm) (fsid fm) ver
  end.

(** [0x01], the export, the device and the inode, zero padding to 26 bytes. *)
Definition inode_handle (export_id : Z) (m : RealMeta) : NfsFh4 :=
  byte_of_Z 1 :: byte_of_Z export_id :: be_bytes 8 (dev m) ++ be_bytes 8 (ino m) ++ replicate 8 x00.

Definition volatile_handle (export_id boot_time seq : Z) : NfsFh4 :=
  byte_of_Z 0x80 :: byte_of_Z export_id :: be_bytes 8 boot_time ++ be_bytes 16 seq.

(** ** Database accessors *)

Definition has_id (id : NfsFh4) (fh : Filehandle) : bool := bool_decide (fh_id fh = id).
Definition has_path (p : string) (fh : Filehandle) : bool := bool_decide (path fh = p).
Definition on_file (id : NfsFh4) (l : LockingState) : bool := bool_decide (filehandle_id l = id).
Definition has_stateid (s : list byte) (l : LockingState) : bool := bool_decide (stateid l = s).
Definition of_client (c : Z) (l : LockingState) : bool := client_id l =? c.

Definition fhdb_by_id (id : NfsFh4) (fm : FileManager) : option Filehandle := mi_get_unique (fhdb fm) (has_id id).
Definition fhdb_by_path (p : string) (fm : FileManager) : option Filehandle :=
  mi_get_unique (fhdb fm) (has_path p).
Definition fhdb_remove_by_id (id : NfsFh4) (fm : FileManager) : FileManager :=
  set_fhdb fm (mi_delete (fhdb fm) (has_id id)).
Definition fhdb_remove_by_path (p : string) (fm : FileManager) : FileManager :=
  set_fhdb fm (mi_delete (fhdb fm) (has_path p)).
Definition locks_of (fm : FileManager) (id : NfsFh4) : list LockingState := mi_get (lockdb fm) (on_file id).
Definition has_no_locks (fm : FileManager) (id : NfsFh4) : bool :=
  match locks_of fm id with [] => true | _ => false end.
Definition lockdb_remove (s : list byte) (fm : FileManager) : FileManager :=
  set_lockdb fm (mi_delete (lockdb fm) (has_stateid s)).

(** [lockdb.insert] panics when the stateid is taken. *)
Definition lockdb_insert (l : LockingState) : action unit :=
  act fm <- self in
  match mi_try_insert (lockdb fm) l with
  | Some d => modify (fun fm => set_lockdb fm d)
  | None => panic
  end.

Definition fhdb_replace (fh : Filehandle) (fm : FileManager) : FileManager :=
  let fm := match fhdb_by_id (fh_id fh) fm with Some _ => fhdb_remove_by_id (fh_id fh) fm | None => fm end in
  let fm := match fhdb_by_path (path fh) fm with Some _ => fhdb_remove_by_path (path fh) fm | None => fm end in
  match mi_try_insert (fhdb fm) fh with
  | Some d => set_fhdb fm d
  | None => fm
  end.

Fixpoint for_each {A} (l : list A) (f : A -> action unit) : action unit :=
  match l with
  | [] => ret tt
  | a :: l => run f a in for_each l f
  end.

(** ** Finding filehandles *)

Definition find_by_inode_in_parent (fm : FileManager) (w : W) (fh : Filehandle) (target_ino : Z) : option P :=
  let parent_vfs := vfs_parent (file fh) in
  entries ← fs_read_dir w (real_path fm parent_vfs);
  '(_, name) ← head (filter (fun e => Is_true (match from_path w e.1 with
                                              | Some m => ino m =? target_ino
                                              | None => false
                                              end)) entries);
  vfs_join parent_vfs name.

Definition get_filehandle_by_id (id : NfsFh4) : action (option Filehandle) :=
  act fm <- self in
  match fhdb_by_id id fm with
  | None => ret None
  | Some fh =>
    act w <- world in
    if bool_decide (id ∈ pending_deletes fm) || path_exists fm w (file fh) || negb (has_no_locks fm id)
    then ret (Some fh)
    else
      let recovered :=
        if bool_decide (head id = Some x01)
        then find_by_inode_in_parent fm w fh (be_val (take 8 (drop 10 id))) else None in
      match recovered with
      | Some new_vfs_path =>
        let new_fh := make_filehandle fm w new_vfs_path id (wrap 64 (version fh + 1)) in
        run modify (fun fm => fhdb_replace new_fh (fhdb_remove_by_id id fm)) in
        ret (Some new_fh)
      | None => run modify (fhdb_remove_by_id id) in ret None
      end
  end.

Definition get_filehandle_by_path (p : string) : action (option Filehandle) :=
  act fm <- self in
  match fhdb_by_path p fm with
  | None => ret None
  | Some fh =>
    act w <- world in
    if path_exists fm w (file fh) then ret (Some fh)
    else if bool_decide (fh_id fh ∈ pending_deletes fm) || negb (has_no_locks fm (fh_id fh)) then ret (Some fh)
    else run modify (fhdb_remove_by_id (fh_id fh)) in ret None
  end.

Definition get_filehandle_id (f : P) : action NfsFh4 :=
  act exists_ <- get_filehandle_by_path (path_of f) in
  match exists_ with
  | Some fh => ret (fh_id fh)
  | None =>
    act fm <- self in
    act w <- world in
    match from_path w (real_path fm f) with
    | Some m => ret (inode_handle (export_id fm) m)
    | None =>
      run modify (fun fm => set_next_fh_id fm (wrap 128 (next_fh_id fm + 1))) in
      ret (volatile_handle (export_id fm) (boot_time fm) (next_fh_id fm))
    end
  end.

Definition get_filehandle (f : P) : action Filehandle :=
  act id <- get_filehandle_id f in
  act found <- get_filehandle_by_id id in
  let fresh :=
    act fm <- self in
    act w <- world in
    let fh := make_filehandle fm w f id 0 in
    run modify (fhdb_replace fh) in ret fh in
  match found with
  | Some fh =>
    if bool_decide (path fh = path_of f) then ret fh
    else run modify (fhdb_remove_by_id id) in fresh
  | None => fresh
  end.

Definition root_fh : action Filehandle := act fm <- self in get_filehandle (root fm).

Definition attach_locks (fm : FileManager) (fh : Filehandle) : Filehandle :=
  with_locks fh (locks_of fm (fh_id fh)).

Definition update_filehandle (fh : Filehandle) : action unit :=
  modify (fun fm => fhdb_replace fh (fhdb_remove_by_id (fh_id fh) fm)).

Definition touch_filehandle (fh : Filehandle) : action unit :=
  act fm <- self in
  act w <- world in
  update_filehandle (make_filehandle fm w (file fh) (fh_id fh) (version fh)).

Definition handle_rename_path (old_path new_path : string) (new_vfs_path : P) : action unit :=
  act fm <- self in
  act w <- world in
  let old_fh :=
    match fhdb_by_path old_path fm with
    | Some fh => Some fh
    | None =>
      match from_path w (real_path fm new_vfs_path) with
      | Some m => fhdb_by_id (inode_handle (export_id fm) m) fm
      | None => None
      end
    end in
  match old_fh with
  | Some old_fh =>
    run modify (fhdb_remove_by_id (fh_id old_fh)) in
    modify (fhdb_replace (make_filehandle fm w new_vfs_path (fh_id old_fh) (wrap 64 (version old_fh + 1))))
  | None => ret tt
  end.

(** ** Creating and removing *)

Definition parent_key (p : P) : string :=
  let s := vfs_as_str (vfs_parent p) in if bool_decide (s = ""%string) then "/"%string else s.

Definition touch_parent (p : P) : action unit :=
  act parent <- get_filehandle_by_path (parent_key p) in
  match parent with
  | Some parent_filehandle => touch_filehandle parent_filehandle
  | None => ret tt
  end.

Definition create_file (request_file : P) : action (option Filehandle) :=
  act ok <- outside (fun w => vfs_create_file w request_file) in
  if negb ok then ret None else
  act fh <- get_filehandle request_file in
  run touch_parent request_file in
  ret (Some fh).

Definition drop_cache_handle (id : NfsFh4) : action unit :=
  run modify (fun fm => set_cachedb fm (delete id (cachedb fm))) in
  act fh <- get_filehandle_by_id id in
  match fh with
  | Some fh => update_filehandle (with_write_cache fh None)
  | None => ret tt
  end.

Definition get_cache_handle (fh : Filehandle) : action C :=
  act fm <- self in
  match cachedb fm !! fh_id fh with
  | Some cached => ret cached
  | None =>
    act handle <- outside (fun w => cache_spawn w (export_id fm) (file fh) (fh_id fh) (real_path fm (file fh))) in
    run modify (fun fm => set_cachedb fm (<[fh_id fh := handle]> (cachedb fm))) in
    run update_filehandle (with_write_cache fh (Some handle)) in
    ret handle
  end.

Record DirChangeInfo : Type := MkDirChangeInfo { before : Z; after : Z; atomic : bool }.

Definition remove_regular (p : P) : action (result unit NfsStat4) :=
  act ok <- outside (fun w => vfs_remove_file w p) in
  ret (if ok then Ok tt else Err Nfs4errIo).

(** The rename to [.nfs.<fileid>] that stands in for removing an open file. *)
Definition silly_rename (p : P) (fh : Filehandle) : action (result unit NfsStat4) :=
  match vfs_join (vfs_parent p) (".nfs." +:+ hex16 (attr_fileid fh)) with
  | None => remove_regular p
  | Some silly_path =>
    act moved <- outside (fun w => vfs_move_file w p silly_path) in
    if negb moved then remove_regular p else
    run modify (fun fm => set_pending_deletes fm ({[ fh_id fh ]} ∪ pending_deletes fm)) in
    run modify (fhdb_remove_by_id (fh_id fh)) in
    act fm <- self in
    act w <- world in
    run modify (fhdb_replace (make_filehandle fm w silly_path (fh_id fh) (wrap 64 (version fh + 1)))) in
    ret (Ok tt)
  end.

Definition remove_directory (p : P) : action (result unit NfsStat4) :=
  act r <- outside (fun w => vfs_remove_dir w p) in
  ret (match r with
       | None => Ok tt
       | Some msg =>
         if str_contains msg "not empty" || str_contains msg "NotEmpty" || str_contains msg "Directory not empty"
         then Err Nfs4errNotempty else Err Nfs4errIo
       end).

(** What is dropped with a file that is gone. *)
Definition forget_file (fh : Filehandle) : action unit :=
  act fm <- self in
  run for_each (map stateid (locks_of fm (fh_id fh))) (fun s => modify (lockdb_remove s)) in
  run drop_cache_handle (fh_id fh) in
  run modify (fun fm => set_delegations fm (delete (fh_id fh) (delegations fm))) in
  modify (fhdb_remove_by_id (fh_id fh)).

Definition remove_file (p : P) : action (result DirChangeInfo NfsStat4) :=
  act filehandle <- get_filehandle_by_path (vfs_as_str p) in
  act fm <- self in
  act w <- world in
  let is_dir := vfs_is_dir w p in
  let before_change := dir_change_attr fm w (vfs_parent p) in
  let has_open_locks := match filehandle with Some fh => negb (has_no_locks fm (fh_id fh)) | None => false end in
  act remove_result <-
    (if negb is_dir && has_open_locks then
       match filehandle with
       | Some fh => silly_rename p fh
       | None => panic
       end
     else if is_dir then remove_directory p
     else remove_regular p) in
  run when (is_ok remove_result && negb has_open_locks)
        (match filehandle with Some fh => forget_file fh | None => ret tt end) in
  run when (is_ok remove_result) (touch_parent p) in
  act fm <- self in
  act w <- world in
  ret (match remove_result with
       | Ok _ => Ok (MkDirChangeInfo before_change (dir_change_attr fm w (vfs_parent p)) true)
       | Err e => Err e
       end).

(** The 15 s timer: pending deletions whose file is no longer locked are carried out. *)
Definition sweep_pending_deletes : action unit :=
  act fm <- self in
  let to_delete := filter (fun id => Is_true (has_no_locks fm id)) (elements (pending_deletes fm)) in
  for_each to_delete (fun id =>
    run modify (fun fm => set_pending_deletes fm (pending_deletes fm ∖ {[ id ]})) in
    act fm <- self in
    match fhdb_by_id id fm with
    | Some fh =>
      act _ <- outside (fun w => vfs_remove_file w (file fh)) in
      run drop_cache_handle id in
      run modify (fun fm => set_delegations fm (delete id (delegations fm))) in
      modify (fhdb_remove_by_id id)
    | None => ret tt
    end).

Definition open_named_attr_dir (fileid : Z) (createdir : bool) : action (option Filehandle) :=
  act fm <- self in
  match vfs_join (root fm) ".nfs4attrs" with
  | None => ret None
  | Some attrs_root =>
    match vfs_join attrs_root (pretty fileid) with
    | None => ret None
    | Some attr_dir =>
      act w <- world in
      if vfs_exists w attr_dir then act fh <- get_filehandle attr_dir in ret (Some fh)
      else if negb createdir then ret None else
      act made_root <- (if vfs_exists w attrs_root then ret true
                        else outside (fun w => vfs_create_dir w attrs_root)) in
      if negb made_root then ret None else
      act made <- outside (fun w => vfs_create_dir w attr_dir) in
      if negb made then ret None else
      act fh <- get_filehandle attr_dir in ret (Some fh)
    end
  end.

(** ** Delegations *)

Definition make_stateid : action Stateid4 :=
  run modify (fun fm => set_next_stateid_id fm (wrap 64 (next_stateid_id fm + 1))) in
  act fm <- self in
  ret (MkStateid4 (wrap 32 (next_stateid_id fm))
         (be_bytes 4 (wrap 32 (boot_time fm)) ++ be_bytes 8 (next_stateid_id fm))).

Definition grant_delegation (id : NfsFh4) (client : Z) (write : bool) : action (option Stateid4) :=
  act fm <- self in
  match delegations fm !! id with
  | Some existing =>
    if negb (deleg_client_id existing =? client) then ret None
    else ret (Some (deleg_stateid existing))
  | None =>
    act stateid <- make_stateid in
    run modify (fun fm => set_delegations fm
          (<[id := MkDelegationState client stateid write]> (delegations fm))) in
    ret (Some stateid)
  end.

Definition return_delegation (id : NfsFh4) (stateid : Stateid4) : action NfsStat4 :=
  act fm <- self in
  match delegations fm !! id with
  | Some existing =>
    if bool_decide (deleg_stateid existing = stateid) then
      run modify (fun fm => set_delegations fm (delete id (delegations fm))) in ret Nfs4Ok
    else ret Nfs4errBadStateid
  | None => ret Nfs4errBadStateid
  end.

(** ** Locks *)

Inductive LockResult : Type :=
| LockOk (stateid : Stateid4)
| LockDenied (offset length : Z) (lock_type : NfsLockType4) (owner_clientid : Z) (owner : list byte)
| LockError (status : NfsStat4).

Inductive UnlockResult : Type :=
| UnlockOk (stateid : Stateid4)
| UnlockError (status : NfsStat4).

Inductive TestLockResult : Type :=
| TestLockOk
| TestLockDenied (offset length : Z) (lock_type : NfsLockType4) (owner_clientid : Z) (owner : list byte).

Definition lock_stateid (n : Z) : list byte := replicate 4 x00 ++ be_bytes 8 n.

Definition get_new_lockingstate_id : action (list byte) :=
  act fm <- self in
  run modify (fun fm => set_next_stateid_id fm (wrap 64 (next_stateid_id fm + 1))) in
  ret (lock_stateid (next_stateid_id fm)).

(** The first lock on the file that conflicts, in the index's order. *)
Definition find_conflict (fm : FileManager) (id : NfsFh4) (client : Z) (ow : list byte)
    (ty : NfsLockType4) (offset length : Z) : option LockingState :=
  head (filter (fun l => Is_true (conflicts_with l offset length ty ow client)) (locks_of fm id)).

Definition handle_lock (id : NfsFh4) (client : Z) (ow : list byte) (ty : NfsLockType4)
    (offset length : Z) : action LockResult :=
  act fm <- self in
  match find_conflict fm id client ow ty offset length with
  | Some l =>
    ret (LockDenied (default 0 (start l)) (default 0 (length_ l)) (default ReadLt (nfs_lock_type l))
           (client_id l) (owner l))
  | None =>
    act stateid <- get_new_lockingstate_id in
    let lock := new_byte_range_lock id stateid client ow ty offset length in
    run lockdb_insert lock in
    ret (LockOk (MkStateid4 (seqid lock) stateid))
  end.

Definition handle_unlock (lock_stateid : list byte) (_offset _length : Z) : action UnlockResult :=
  act fm <- self in
  match mi_get_unique (lockdb fm) (has_stateid lock_stateid) with
  | Some lock =>
    run modify (lockdb_remove lock_stateid) in
    ret (UnlockOk (MkStateid4 (wrap 32 (seqid lock + 1)) (stateid lock)))
  | None => ret (UnlockError Nfs4errBadStateid)
  end.

Definition handle_test_lock (id : NfsFh4) (client : Z) (ow : list byte) (ty : NfsLockType4)
    (offset length : Z) : action TestLockResult :=
  act fm <- self in
  ret (match find_conflict fm id client ow ty offset length with
       | Some l => TestLockDenied (default 0 (start l)) (default 0 (length_ l))
                     (default ReadLt (nfs_lock_type l)) (client_id l) (owner l)
       | None => TestLockOk
       end).

Definition handle_release_lock_owner (client : Z) (ow : list byte) : action NfsStat4 :=
  act fm <- self in
  let held := filter (fun l => lock_type l = LockType_ByteRange /\ owner l = ow)
                     (mi_get (lockdb fm) (of_client client)) in
  run for_each held (fun l => modify (lockdb_remove (stateid l))) in
  ret Nfs4Ok.

(** ** Attributes ([handle.rs] [mode_to_acl]; [filehandle_attrs]) *)

Definition ACL4_SUPPORT_ALLOW_ACL : Z := 1.
Definition ACE4_ACCESS_ALLOWED_ACE_TYPE : Z := 0.
Definition ACE4_IDENTIFIER_GROUP : Z := 0x40.
Definition ACE4_READ_DATA : Z := 0x1.
Definition ACE4_WRITE_DATA : Z := 0x2.
Definition ACE4_APPEND_DATA : Z := 0x4.
Definition ACE4_EXECUTE : Z := 0x20.
Definition ACE4_DELETE_CHILD : Z := 0x40.
Definition ACE4_READ_ATTRIBUTES : Z := 0x80.
Definition ACE4_WRITE_ATTRIBUTES : Z := 0x100.
Definition ACE4_DELETE : Z := 0x10000.
Definition ACE4_READ_ACL : Z := 0x20000.
Definition ACE4_WRITE_ACL : Z := 0x40000.
Definition ACE4_WRITE_OWNER : Z := 0x80000.
Definition ACE4_SYNCHRONIZE : Z := 0x100000.
Definition FH4_PERSISTENT : Z := 0.

Definition lor_all : list Z -> Z := foldr Z.lor 0.

Definition mode_bits_to_mask (bits : Z) : Z :=
  let mask := lor_all [ACE4_READ_ATTRIBUTES; ACE4_READ_ACL; ACE4_SYNCHRONIZE] in
  let mask := if has_bits bits 4 then Z.lor mask ACE4_READ_DATA else mask in
  let mask := if has_bits bits 2
              then Z.lor mask (lor_all [ACE4_WRITE_DATA; ACE4_APPEND_DATA; ACE4_WRITE_ATTRIBUTES;
                                        ACE4_WRITE_ACL; ACE4_WRITE_OWNER; ACE4_DELETE; ACE4_DELETE_CHILD])
              else mask in
  if has_bits bits 1 then Z.lor mask ACE4_EXECUTE else mask.

Definition mode_to_acl (mode : Z) (owner group : string) : list Nfsace4 :=
  let owner_bits := Z.land (Z.shiftr mode 6) 7 in
  let group_bits := Z.land (Z.shiftr mode 3) 7 in
  let other_bits := Z.land mode 7 in
  [MkNfsace4 ACE4_ACCESS_ALLOWED_ACE_TYPE 0 (mode_bits_to_mask owner_bits) owner;
   MkNfsace4 ACE4_ACCESS_ALLOWED_ACE_TYPE ACE4_IDENTIFIER_GROUP (mode_bits_to_mask group_bits) group;
   MkNfsace4 ACE4_ACCESS_ALLOWED_ACE_TYPE 0 (mode_bits_to_mask other_bits) "EVERYONE@"].

Definition attr_supported_attrs : list FileAttr :=
  [FileAttr_SupportedAttrs; FileAttr_Type; FileAttr_FhExpireType; FileAttr_Change; FileAttr_Size;
   FileAttr_LinkSupport; FileAttr_SymlinkSupport; FileAttr_NamedAttr; FileAttr_Fsid;
   FileAttr_UniqueHandles; FileAttr_LeaseTime; FileAttr_RdattrError; FileAttr_Acl;
   FileAttr_AclSupport; FileAttr_Archive; FileAttr_Cansettime; FileAttr_ChownRestricted;
   FileAttr_Filehandle; FileAttr_Fileid; FileAttr_Homogeneous; FileAttr_Maxfilesize;
   FileAttr_Maxlink; FileAttr_Maxname; FileAttr_Maxread; FileAttr_Maxwrite; FileAttr_Mode;
   FileAttr_NoTrunc; FileAttr_Numlinks; FileAttr_Owner; FileAttr_OwnerGroup;
   FileAttr_QuotaAvailHard; FileAttr_QuotaAvailSoft; FileAttr_QuotaUsed; FileAttr_SpaceAvail;
   FileAttr_SpaceFree; FileAttr_SpaceTotal; FileAttr_SpaceUsed; FileAttr_TimeAccess;
   FileAttr_TimeMetadata; FileAttr_TimeModify].

(** One arm of the [match fileattr]; [None] is the wildcard arm. *)
Definition attr_answer (fm : FileManager) (fh : Filehandle) (a : FileAttr) : option FileAttrValue :=
  match a with
  | FileAttr_SupportedAttrs => Some (FileAttrValue_SupportedAttrs attr_supported_attrs)
  | FileAttr_Type => Some (FileAttrValue_Type (attr_type fh))
  | FileAttr_LeaseTime => Some (FileAttrValue_LeaseTime (lease_time fm))
  | FileAttr_Change => Some (FileAttrValue_Change (attr_change fh))
  | FileAttr_Size => Some (FileAttrValue_Size (attr_size fh))
  | FileAttr_LinkSupport => Some (FileAttrValue_LinkSupport (hard_link_support fm))
  | FileAttr_SymlinkSupport => Some (FileAttrValue_SymlinkSupport (symlink_support fm))
  | FileAttr_NamedAttr => Some (FileAttrValue_NamedAttr true)
  | FileAttr_Acl =>
      Some (FileAttrValue_Acl (mode_to_acl (attr_mode fh) (attr_owner fh) (attr_owner_group fh)))
  | FileAttr_AclSupport => Some (FileAttrValue_AclSupport ACL4_SUPPORT_ALLOW_ACL)
  | FileAttr_FsLocations => Some (FileAttrValue_FsLocations (MkFsLocations4 ["/"%string] []))
  | FileAttr_Fsid => Some (FileAttrValue_Fsid (attr_fsid fh))
  | FileAttr_UniqueHandles => Some (FileAttrValue_UniqueHandles (unique_handles fm))
  | FileAttr_FhExpireType => Some (FileAttrValue_FhExpireType FH4_PERSISTENT)
  | FileAttr_RdattrError => Some (FileAttrValue_RdattrError Nfs4errInval)
  | FileAttr_Fileid => Some (FileAttrValue_Fileid (attr_fileid fh))
  | FileAttr_Mode => Some (FileAttrValue_Mode (attr_mode fh))
  | FileAttr_Numlinks => Some (FileAttrValue_Numlinks (attr_nlink fh))
  | FileAttr_Owner => Some (FileAttrValue_Owner (attr_owner fh))
  | FileAttr_OwnerGroup => Some (FileAttrValue_OwnerGroup (attr_owner_group fh))
  | FileAttr_QuotaAvailHard => Some (FileAttrValue_QuotaAvailHard 0)
  | FileAttr_QuotaAvailSoft => Some (FileAttrValue_QuotaAvailSoft 0)
  | FileAttr_QuotaUsed => Some (FileAttrValue_QuotaUsed 0)
  | FileAttr_SpaceAvail => Some (FileAttrValue_SpaceAvail 0)
  | FileAttr_SpaceFree => Some (FileAttrValue_SpaceFree 0)
  | FileAttr_SpaceTotal => Some (FileAttrValue_SpaceTotal 0)
  | FileAttr_SpaceUsed => Some (FileAttrValue_SpaceUsed (attr_space_used fh))
  | FileAttr_TimeAccess => Some (FileAttrValue_TimeAccess (attr_time_access fh))
  | FileAttr_TimeMetadata => Some (FileAttrValue_TimeMetadata (attr_time_metadata fh))
  | FileAttr_TimeModify => Some (FileAttrValue_TimeModify (attr_time_modify fh))
  | FileAttr_Maxfilesize => Some (FileAttrValue_Maxfilesize (2 ^ 63 - 1))
  | FileAttr_Maxread => Some (FileAttrValue_Maxread 1048576)
  | FileAttr_Maxwrite => Some (FileAttrValue_Maxwrite 1048576)
  | FileAttr_Maxlink => Some (FileAttrValue_Maxlink 32000)
  | FileAttr_Maxname => Some (FileAttrValue_Maxname 255)
  | FileAttr_Homogeneous => Some (FileAttrValue_Homogeneous true)
  | FileAttr_NoTrunc => Some (FileAttrValue_NoTrunc true)
  | FileAttr_Cansettime => Some (FileAttrValue_Cansettime true)
  | FileAttr_ChownRestricted => Some (FileAttrValue_ChownRestricted true)
  | _ => None
  end.

(** The loop over the request: attributes answered, and their values. *)
Fixpoint answer_attrs (fm : FileManager) (fh : Filehandle) (request : list FileAttr)
    : list FileAttr * list FileAttrValue :=
  match request with
  | [] => ([], [])
  | a :: request =>
    let '(answered, vals) := answer_attrs fm fh request in
    match attr_answer fm fh a with
    | Some v => (a :: answered, v :: vals)
    | None => (answered, vals)
    end
  end.

Definition filehandle_attrs (request : list FileAttr) (id : NfsFh4)
    : action (option (list FileAttr * list FileAttrValue)) :=
  act found <- get_filehandle_by_id id in
  match found with
  | None => ret None
  | Some old_fh =>
    act fm <- self in
    act w <- world in
    act fh <-
      match from_path w (real_path fm (file old_fh)) with
      | Some m =>
        let refreshed := new_real (file old_fh) (fh_id old_fh) (fsid fm) (fsid fm) (version old_fh) m in
        run modify (fun fm => fhdb_replace refreshed (fhdb_remove_by_id (fh_id old_fh) fm)) in
        ret refreshed
      | None => ret old_fh
      end in
    ret (Some (answer_attrs fm fh request))
  end.

(** ** The actor *)

Inductive FileManagerMessage : Type :=
| GetRootFilehandle
| GetFilehandle (path : option string) (filehandle : option NfsFh4)
| GetFilehandleAttrs (filehandle_id : NfsFh4) (attrs_request : list FileAttr)
| CreateFile (path : P) (client_id : Z) (owner : list byte) (share_access share_deny : Z)
| CreateOpenState (path : P) (client_id : Z) (owner : list byte) (share_access share_deny : Z)
| RemoveFile (path : P)
| TouchFile (id : NfsFh4)
| UpdateFilehandle (filehandle : Filehandle)
| RenamePath (old_path new_path : string) (new_vfs_path : P)
| LockFile (filehandle_id : NfsFh4) (client_id : Z) (owner : list byte) (lock_type : NfsLockType4)
    (offset length : Z)
| UnlockFile (lock_stateid : list byte) (offset length : Z)
| TestLock (filehandle_id : NfsFh4) (client_id : Z) (owner : list byte) (lock_type : NfsLockType4)
    (offset length : Z)
| ReleaseLockOwner (client_id : Z) (owner : list byte)
| OpenNamedAttrDir (fileid : Z) (createdir : bool)
| GrantDelegation (filehandle_id : NfsFh4) (client_id : Z) (is_write : bool)
| ReturnDelegation (filehandle_id : NfsFh4) (deleg_stateid : Stateid4)
| GetDelegation (filehandle_id : NfsFh4)
| CloseFile (stateid : list byte)
| GetWriteCacheHandle (filehandle : Filehandle)
| DropWriteCacheHandle (filehandle_id : NfsFh4).

(** What goes back over the message's one-shot channel. *)
Inductive FileManagerReply : Type :=
| NoReply
| ReplyUnit
| ReplyFilehandle (fh : option Filehandle)
| ReplyAttrs (a : option (list FileAttr * list FileAttrValue))
| ReplyOpenState (l : option LockingState)
| ReplyRemove (r : result DirChangeInfo NfsStat4)
| ReplyLock (r : LockResult)
| ReplyUnlock (r : UnlockResult)
| ReplyTestLock (r : TestLockResult)
| ReplyStatus (s : NfsStat4)
| ReplyStateid (s : option Stateid4)
| ReplyDelegation (d : option DelegationState)
| ReplyCache (c : C).

Definition reply_with_locks (fh : Filehandle) : action FileManagerReply :=
  act fm <- self in ret (ReplyFilehandle (Some (attach_locks fm fh))).

Definition new_open_state (id : NfsFh4) (client : Z) (ow : list byte) (access deny : Z) : action LockingState :=
  act stateid <- get_new_lockingstate_id in
  let lock := new_shared_reservation id stateid client ow access deny in
  run lockdb_insert lock in
  ret lock.

Definition handle_message (msg : FileManagerMessage) : action FileManagerReply :=
  match msg with
  | GetRootFilehandle => act fh <- root_fh in reply_with_locks fh
  | GetFilehandle req_path filehandle =>
    match filehandle with
    | Some id =>
      act fh <- get_filehandle_by_id id in
      match fh with
      | Some fh => reply_with_locks fh
      | None => ret (ReplyFilehandle None)
      end
    | None =>
      match req_path with
      | Some req_path =>
        act fm <- self in
        match vfs_join (root fm) req_path with
        | None => ret (ReplyFilehandle None)
        | Some p =>
          act w <- world in
          if path_exists fm w p then act fh <- get_filehandle p in reply_with_locks fh
          else ret (ReplyFilehandle None)
        end
      | None => act fh <- root_fh in reply_with_locks fh
      end
    end
  | GetFilehandleAttrs id request => act r <- filehandle_attrs request id in ret (ReplyAttrs r)
  | CreateFile p client ow access deny =>
    act fh <- create_file p in
    match fh with
    | Some fh =>
      act lock <- new_open_state (fh_id fh) client ow access deny in
      ret (ReplyFilehandle (Some (with_locks fh [lock])))
    | None => ret (ReplyFilehandle None)
    end
  | CreateOpenState p client ow access deny =>
    act fh <- get_filehandle p in
    act lock <- new_open_state (fh_id fh) client ow access deny in
    ret (ReplyOpenState (Some lock))
  | RemoveFile p => act r <- remove_file p in ret (ReplyRemove r)
  | TouchFile id =>
    act fh <- get_filehandle_by_id id in
    match fh with
    | Some fh => run touch_filehandle fh in ret NoReply
    | None => ret NoReply
    end
  | UpdateFilehandle fh => run update_filehandle fh in ret NoReply
  | RenamePath old_path new_path new_vfs_path =>
    run handle_rename_path old_path new_path new_vfs_path in ret ReplyUnit
  | LockFile id client ow ty offset length =>
    act r <- handle_lock id client ow ty offset length in ret (ReplyLock r)
  | UnlockFile lock_stateid offset length =>
    act r <- handle_unlock lock_stateid offset length in ret (ReplyUnlock r)
  | TestLock id client ow ty offset length =>
    act r <- handle_test_lock id client ow ty offset length in ret (ReplyTestLock r)
  | ReleaseLockOwner client ow =>
    act r <- handle_release_lock_owner client ow in ret (ReplyStatus r)
  | OpenNamedAttrDir fileid createdir =>
    act r <- open_named_attr_dir fileid createdir in ret (ReplyFilehandle r)
  | GrantDelegation id client write =>
    act r <- grant_delegation id client write in ret (ReplyStateid r)
  | ReturnDelegation id stateid =>
    act r <- return_delegation id stateid in ret (ReplyStatus r)
  | GetDelegation id =>
    act fm <- self in ret (ReplyDelegation (delegations fm !! id))
  | CloseFile stateid => run modify (lockdb_remove stateid) in ret ReplyUnit
  | GetWriteCacheHandle fh => act c <- get_cache_handle fh in ret (ReplyCache c)
  | DropWriteCacheHandle id => run drop_cache_handle id in ret NoReply
  end.

(** [FileManager::new]: the root's filehandle is the first one. *)
Definition initial (root_path : P) (fsid_ : option Z) (export_root_ : string) (boot : Z) : FileManager :=
  MkFileManager root_path export_root_ 90 true true true
    (default 152 fsid_) (match fsid_ with Some f => wrap 8 f | None => 0 end)
    mi_empty 100 mi_empty 100 boot ∅ ∅ ∅.

Definition new (root_path : P) (fsid_ : option Z) (export_root_ : string) (boot : Z) : W -> option (FileManager * W) :=
  fun w => match root_fh (initial root_path fsid_ export_root_ boot) w with
           | Some (_, fm, w) => Some (fm, w)
           | None => None
           end.
End FileManager.

#[global] Arguments Filehandle : clear implicits.
#[global] Arguments FileManager : clear implicits.
#[global] Arguments FileManagerMessage : clear implicits.
#[global] Arguments FileManagerReply : clear implicits.
#[global] Arguments action : clear implicits.
