(* ===== verification/FileManagerProofs.v ===== *)
(** * The file manager: invariants and functional properties

    [triple pre m post] is total correctness of an action: from a state satisfying
    [pre] it returns (it does not panic) in a state satisfying [post]. [inv] is the
    invariant of the manager: the lock database holds no two conflicting locks, its
    stateids are distinct and come from the counter, and the filehandle database has
    one entry per id and per path, each filed under its own path. *)

From S2P Require Import Prelude NfsTypes Attrs MultiIndex Locking FileManager.
From stdpp Require Import base list gmap strings pretty.
From Stdlib Require Import Strings.Byte ZArith Lia.
#[local] Open Scope Z_scope.

Section Proofs.
Context {W P C L H : Type}.
Context `{V : !Vfs W P C} `{ML : !MultiIndex LockingState L lock_clash}
        `{MH : !MultiIndex (Filehandle P C) H fh_clash}.
Abbreviation FM := (FileManager P C L H).
Abbreviation Act := (action W P C L H).
Implicit Types (fm : FM) (w : W) (fh : Filehandle P C).

(** ** Total correctness of actions *)

Definition triple {A} (pre : FM -> Prop) (m : Act A) (post : A -> FM -> Prop) : Prop :=
  forall fm w, pre fm -> exists a fm' w', m fm w = Some (a, fm', w') /\ post a fm'.

Lemma triple_ret {A} (pre : FM -> Prop) (a : A) (post : A -> FM -> Prop) :
  (forall fm, pre fm -> post a fm) -> triple pre (ret a) post.
Proof. intros Hp fm w Hpre. exists a, fm, w. auto. Qed.

Lemma triple_bind {A B} pre (m : Act A) (k : A -> Act B) mid post :
  triple pre m mid -> (forall a, triple (mid a) (k a) post) -> triple pre (bind m k) post.
Proof.
  intros Hm Hk fm w Hpre. destruct (Hm fm w Hpre) as (a & fm1 & w1 & E & Hmid).
  destruct (Hk a fm1 w1 Hmid) as (b & fm2 & w2 & E2 & Hpost).
  exists b, fm2, w2. split; [|done]. unfold bind. by rewrite E.
Qed.

Lemma triple_self {B} pre (k : FM -> Act B) post :
  (forall fm0, pre fm0 -> triple (fun fm => pre fm /\ fm = fm0) (k fm0) post) ->
  triple pre (bind self k) post.
Proof. intros Hk fm w Hpre. by apply (Hk fm Hpre fm w). Qed.

Lemma triple_world {B} pre (k : W -> Act B) post :
  (forall w, triple pre (k w) post) -> triple pre (bind world k) post.
Proof. intros Hk fm w Hpre. by apply (Hk w fm w). Qed.

Lemma triple_outside {A} (pre : FM -> Prop) (f : W -> A * W) (post : A -> FM -> Prop) :
  (forall a fm, pre fm -> post a fm) -> triple pre (outside f) post.
Proof. intros Hp fm w Hpre. unfold outside. destruct (f w) as [a w']. exists a, fm, w'. auto. Qed.

Lemma triple_modify (pre : FM -> Prop) f (post : unit -> FM -> Prop) :
  (forall fm, pre fm -> post tt (f fm)) -> triple pre (modify f) post.
Proof. intros Hp fm w Hpre. exists tt, (f fm), w. auto. Qed.

Lemma triple_weaken {A} (pre pre' : FM -> Prop) (m : Act A) (post post' : A -> FM -> Prop) :
  triple pre m post -> (forall fm, pre' fm -> pre fm) -> (forall a fm, post a fm -> post' a fm) ->
  triple pre' m post'.
Proof.
  intros Hm Hpre Hpost fm w Hp. destruct (Hm fm w (Hpre fm Hp)) as (a & fm' & w' & E & Hq).
  exists a, fm', w'. auto.
Qed.

Lemma triple_for_each {A} (pre : FM -> Prop) (l : list A) (f : A -> Act unit) :
  (forall a, triple pre (f a) (fun _ => pre)) -> triple pre (for_each l f) (fun _ => pre).
Proof.
  intros Hf. induction l as [|a l IH]; simpl; [by apply triple_ret|].
  by eapply triple_bind; [apply Hf|].
Qed.

(** ** The invariant *)

Record lock_inv (k : Z) (fm : FM) : Prop := {
  li_ok : forall l, l ∈ mi_iter (lockdb fm) -> lock_ok l;
  li_distinct : mi_distinct stateid (lockdb fm);
  li_issued : forall l, l ∈ mi_iter (lockdb fm) ->
    exists n, 0 <= n < next_stateid_id fm /\ stateid l = lock_stateid n;
  li_compatible : forall a b, a ∈ mi_iter (lockdb fm) -> b ∈ mi_iter (lockdb fm) ->
    filehandle_id a = filehandle_id b -> lock_conflict a b = false;
  li_counter : 0 <= next_stateid_id fm /\ next_stateid_id fm + k < 2 ^ 64
}.

(** An entry is filed under its own path. *)
Definition fh_ok fh : Prop := path fh = path_of (file fh).

Record fhdb_inv (fm : FM) : Prop := {
  fi_ids : mi_distinct (@fh_id P C) (fhdb fm);
  fi_paths : mi_distinct (@path P C) (fhdb fm);
  fi_ok : forall fh, fh ∈ mi_iter (fhdb fm) -> fh_ok fh
}.

(** [k] more stateids may be issued before the 64-bit counter wraps. *)
Definition inv (k : Z) (fm : FM) : Prop := lock_inv k fm /\ fhdb_inv fm.

Lemma inv_weaken k k' fm : k' <= k -> inv k fm -> inv k' fm.
Proof. intros Hk [[H1 H2 H3 H4 H5] Hf]. split; [|done]. split; [done..|lia]. Qed.

Lemma inv_lockdb_remove k s fm : inv k fm -> inv k (lockdb_remove s fm).
Proof.
  intros [[H1 H2 H3 H4 H5] [F1 F2 F3]]. split; split; try done; cbn [lockdb_remove set_lockdb set_locks lockdb].
  - intros l [Hl _]%mi_delete_elem. auto.
  - by apply mi_distinct_delete.
  - intros l [Hl _]%mi_delete_elem. auto.
  - intros a b [Ha _]%mi_delete_elem [Hb _]%mi_delete_elem. auto.
Qed.

Lemma fhdb_inv_delete fm p : fhdb_inv fm -> fhdb_inv (set_fhdb fm (mi_delete (fhdb fm) p)).
Proof.
  intros [F1 F2 F3]. split; cbn [set_fhdb fhdb].
  - by apply mi_distinct_delete.
  - by apply mi_distinct_delete.
  - intros fh [Hf _]%mi_delete_elem. auto.
Qed.

Lemma inv_fhdb_remove k id fm : inv k fm -> inv k (fhdb_remove_by_id id fm).
Proof. intros [[H1 H2 H3 H4 H5] Hf]. split; [by split|]. by apply fhdb_inv_delete. Qed.

(** [fhdb_replace] never runs into a taken key: the two evictions free both. *)
Lemma fhdb_replace_spec fh fm :
  exists d, fhdb_replace fh fm = set_fhdb fm d /\
    (forall x, x ∈ mi_iter d <-> x = fh \/
       (x ∈ mi_iter (fhdb fm) /\ fh_id x <> fh_id fh /\ path x <> path fh)) /\
    (fhdb_inv fm -> fh_ok fh -> fhdb_inv (set_fhdb fm d)).
Proof.
  unfold fhdb_replace.
  set (fm1 := match fhdb_by_id (fh_id fh) fm with Some _ => _ | None => fm end).
  assert (H1 : exists d1, fm1 = set_fhdb fm d1 /\ (fhdb_inv fm -> fhdb_inv fm1) /\
    forall x, x ∈ mi_iter d1 <-> x ∈ mi_iter (fhdb fm) /\ fh_id x <> fh_id fh).
  { unfold fm1, fhdb_by_id. destruct (mi_get_unique _ _) as [y|] eqn:E.
    - eexists. split; [done|]. split; [apply fhdb_inv_delete|]. intros x.
      rewrite mi_delete_elem. unfold has_id. by rewrite bool_decide_eq_false.
    - exists (fhdb fm). split; [by destruct fm|]. split; [done|]. intros x. split; [|tauto].
      intros Hx. split; [done|]. rewrite mi_get_unique_none in E. specialize (E x Hx).
      unfold has_id in E. by rewrite bool_decide_eq_false in E. }
  destruct H1 as (d1 & Efm1 & Hinv1 & Hd1).
  set (fm2 := match fhdb_by_path (path fh) fm1 with Some _ => _ | None => fm1 end).
  assert (H2 : exists d2, fm2 = set_fhdb fm d2 /\ (fhdb_inv fm -> fhdb_inv fm2) /\
    forall x, x ∈ mi_iter d2 <-> x ∈ mi_iter (fhdb fm) /\ fh_id x <> fh_id fh /\ path x <> path fh).
  { unfold fm2, fhdb_by_path. destruct (mi_get_unique _ _) as [y|] eqn:E.
    - eexists. rewrite Efm1. split; [done|]. split; [rewrite Efm1 in *; intros; by apply fhdb_inv_delete, Hinv1|].
      intros x. rewrite mi_delete_elem. unfold has_path. rewrite bool_decide_eq_false.
      cbn [set_fhdb fhdb]. rewrite Hd1. tauto.
    - exists d1. rewrite <- Efm1. split; [done|]. split; [done|]. intros x. rewrite Hd1. split; [|tauto].
      intros Hx. split; [tauto|]. split; [tauto|]. rewrite mi_get_unique_none in E.
      rewrite Efm1 in E. cbn [set_fhdb fhdb] in E. specialize (E x (proj2 (Hd1 x) Hx)).
      unfold has_path in E. by rewrite bool_decide_eq_false in E. }
  destruct H2 as (d2 & Efm2 & Hinv2 & Hd2). rewrite Efm2. cbn [set_fhdb fhdb].
  destruct (mi_insert_some d2 fh) as [d Ed].
  { intros x (Hx & Hi & Hp)%Hd2. unfold fh_clash. by rewrite !bool_decide_eq_false_2 by congruence. }
  rewrite Ed. exists d. split; [done|]. split.
  - intros x. by rewrite (mi_insert_elem d2 fh d x Ed), Hd2.
  - intros Hinv Hok. rewrite Efm2 in Hinv2. destruct (Hinv2 Hinv) as [F1 F2 F3]. split; cbn [set_fhdb fhdb] in *.
    + eapply mi_distinct_insert; [exact Ed| |done]. intros x Ex. unfold fh_clash.
      by rewrite (bool_decide_eq_true_2 (fh_id fh = fh_id x)) by done.
    + eapply mi_distinct_insert; [exact Ed| |done]. intros x Ex. unfold fh_clash.
      rewrite (bool_decide_eq_true_2 (path fh = path x)) by done. apply orb_true_r.
    + intros x [->|Hx]%(mi_insert_elem d2 fh d x Ed); auto.
Qed.

Lemma inv_fhdb_replace k fh fm : fh_ok fh -> inv k fm -> inv k (fhdb_replace fh fm).
Proof.
  intros Hok [[H1 H2 H3 H4 H5] Hf]. destruct (fhdb_replace_spec fh fm) as (d & -> & _ & Hd).
  split; [by split|]. auto.
Qed.

(** ** Filehandle lookups *)

Definition found_ok (k : Z) (r : option (Filehandle P C)) (fm : FM) : Prop :=
  inv k fm /\ forall fh, r = Some fh -> fh_ok fh.

Lemma fh_ok_make fm w f id ver : fh_ok (make_filehandle fm w f id ver).
Proof. unfold make_filehandle. by case_match. Qed.

Lemma fh_ok_by_id k fm id fh : inv k fm -> fhdb_by_id id fm = Some fh -> fh_ok fh /\ fh_id fh = id.
Proof.
  intros [_ Hf] [Hin Hp]%mi_get_unique_some. unfold has_id in Hp. rewrite bool_decide_eq_true in Hp.
  split; [|done]. by apply (fi_ok fm Hf).
Qed.

Lemma fh_ok_by_path k fm p fh : inv k fm -> fhdb_by_path p fm = Some fh -> fh_ok fh.
Proof. intros [_ Hf] [Hin _]%mi_get_unique_some. by apply (fi_ok fm Hf). Qed.

Lemma inv_same_dbs k fm fm' :
  inv k fm -> lockdb fm' = lockdb fm -> next_stateid_id fm' = next_stateid_id fm -> fhdb fm' = fhdb fm ->
  inv k fm'.
Proof.
  intros [[H1 H2 H3 H4 H5] [F1 F2 F3]] El En Ef. split; split; rewrite ?El, ?En, ?Ef; done.
Qed.

Lemma get_filehandle_by_id_triple k id :
  triple (inv k) (get_filehandle_by_id id) (fun r fm => found_ok k r fm /\ forall fh, r = Some fh -> fh_id fh = id).
Proof.
  apply triple_self. intros fm0 Hinv0. destruct (fhdb_by_id id fm0) as [fh|] eqn:E.
  2: { apply triple_ret. intros fm [Hi _]. by split. }
  pose proof (fh_ok_by_id k fm0 id fh Hinv0 E) as [Hok Hid].
  apply triple_world. intros w. case_match.
  { apply triple_ret. intros fm [Hi _]. split; [split; [done|]|]; by intros ? [= <-]. }
  cbv zeta. match goal with |- triple _ (match ?o with _ => _ end) _ => destruct o as [p|] end.
  - eapply triple_bind; [apply (triple_modify _ _ (fun _ => inv k))|].
    + intros fm [Hi _]. apply inv_fhdb_replace; [apply fh_ok_make|]. by apply inv_fhdb_remove.
    + intros []. apply triple_ret. intros fm Hi. split; [split; [done|]|]; intros ? [= <-].
      * apply fh_ok_make.
      * unfold make_filehandle. by case_match.
  - eapply triple_bind; [apply (triple_modify _ _ (fun _ => inv k))|].
    + intros fm [Hi _]. by apply inv_fhdb_remove.
    + intros []. apply triple_ret. intros fm Hi. by split.
Qed.

Lemma get_filehandle_by_path_triple k p :
  triple (inv k) (get_filehandle_by_path p) (found_ok k).
Proof.
  apply triple_self. intros fm0 Hinv0. destruct (fhdb_by_path p fm0) as [fh|] eqn:E.
  2: { apply triple_ret. intros fm [Hi _]. by split. }
  pose proof (fh_ok_by_path k fm0 p fh Hinv0 E) as Hok.
  apply triple_world. intros w. case_match; [|case_match].
  1,2: apply triple_ret; intros fm [Hi _]; split; [done|]; by intros ? [= <-].
  eapply triple_bind; [apply (triple_modify _ _ (fun _ => inv k))|].
  - intros fm [Hi _]. by apply inv_fhdb_remove.
  - intros []. apply triple_ret. intros fm Hi. by split.
Qed.

Lemma get_filehandle_id_triple k f : triple (inv k) (get_filehandle_id f) (fun _ => inv k).
Proof.
  eapply triple_bind; [apply get_filehandle_by_path_triple|]. intros [fh|].
  - apply triple_ret. by intros fm [Hi _].
  - apply triple_self. intros fm0 _. apply triple_world. intros w. case_match.
    + apply triple_ret. by intros fm [[Hi _] _].
    + eapply triple_bind; [apply (triple_modify _ _ (fun _ => inv k))|intros []; by apply triple_ret].
      intros fm [[Hi _] _]. by eapply inv_same_dbs.
Qed.

Lemma get_filehandle_triple k f :
  triple (inv k) (get_filehandle f) (fun fh fm => inv k fm /\ path fh = path_of f /\ fh_ok fh).
Proof.
  eapply triple_bind; [apply get_filehandle_id_triple|]. intros id.
  eapply triple_bind; [apply get_filehandle_by_id_triple|].
  assert (Hfresh : triple (inv k)
    (bind self (fun fm => bind world (fun w =>
       bind (modify (fhdb_replace (make_filehandle fm w f id 0))) (fun _ => ret (make_filehandle fm w f id 0)))))
    (fun fh fm => inv k fm /\ path fh = path_of f /\ fh_ok fh)).
  { apply triple_self. intros fm0 _. apply triple_world. intros w.
    eapply triple_bind; [apply (triple_modify _ _ (fun _ => inv k))|].
    - intros fm [Hi _]. apply inv_fhdb_replace; [apply fh_ok_make|done].
    - intros []. apply triple_ret. intros fm Hi. split; [done|].
      split; [unfold make_filehandle; by case_match|apply fh_ok_make]. }
  intros [fh|]; simpl.
  - destruct (bool_decide_reflect (path fh = path_of f)).
    + apply triple_ret. intros fm [[Hi Hok] _]. auto.
    + eapply triple_bind; [apply (triple_modify _ _ (fun _ => inv k))|intros []; exact Hfresh].
      intros fm [[Hi _] _]. by apply inv_fhdb_remove.
  - eapply triple_weaken; [exact Hfresh| |done]. by intros fm [[Hi _] _].
Qed.

Lemma root_fh_triple k : triple (inv k) root_fh (fun fh fm => inv k fm /\ fh_ok fh).
Proof.
  apply triple_self. intros fm0 _. eapply triple_weaken; [apply (get_filehandle_triple k)| |].
  - by intros fm [Hi _].
  - by intros fh fm (Hi & _ & Hok).
Qed.

Lemma update_filehandle_triple k fh : fh_ok fh -> triple (inv k) (update_filehandle fh) (fun _ => inv k).
Proof.
  intros Hok. apply triple_modify. intros fm Hi. apply inv_fhdb_replace; [done|]. by apply inv_fhdb_remove.
Qed.

Lemma touch_filehandle_triple k fh : triple (inv k) (touch_filehandle fh) (fun _ => inv k).
Proof.
  apply triple_self. intros fm0 _. apply triple_world. intros w.
  eapply triple_weaken; [apply (update_filehandle_triple k), fh_ok_make| |done]. by intros fm [Hi _].
Qed.

Lemma handle_rename_path_triple k old new p : triple (inv k) (handle_rename_path old new p) (fun _ => inv k).
Proof.
  apply triple_self. intros fm0 _. apply triple_world. intros w.
  cbv zeta. match goal with |- triple _ (match ?o with _ => _ end) _ => destruct o as [fh|] end.
  - eapply triple_bind; [apply (triple_modify _ _ (fun _ => inv k))|].
    + intros fm [Hi _]. by apply inv_fhdb_remove.
    + intros []. apply triple_modify. intros fm Hi. apply inv_fhdb_replace; [apply fh_ok_make|done].
  - apply triple_ret. by intros fm [Hi _].
Qed.

(** ** Creating, removing, caching *)

Lemma triple_found k fh : fh_ok fh -> triple (inv k) (ret (Some fh) : Act _) (found_ok k).
Proof. intros Hok. apply triple_ret. intros fm Hi. split; [done|]. by intros ? [= <-]. Qed.

Lemma triple_not_found (pre : FM -> Prop) k :
  (forall fm, pre fm -> inv k fm) -> triple pre (ret None : Act _) (found_ok k).
Proof. intros Hpre. apply triple_ret. intros fm Hi. by split; [apply Hpre|]. Qed.

Lemma touch_parent_triple k p : triple (inv k) (touch_parent p) (fun _ => inv k).
Proof.
  eapply triple_bind; [apply get_filehandle_by_path_triple|]. intros [fh|].
  - eapply triple_weaken; [apply (touch_filehandle_triple k)| |done]. by intros fm [Hi _].
  - apply triple_ret. by intros fm [Hi _].
Qed.

Lemma create_file_triple k p : triple (inv k) (create_file p) (found_ok k).
Proof.
  eapply triple_bind; [by apply (triple_outside _ _ (fun _ => inv k))|]. intros ok.
  case_match; [by apply triple_ret|].
  eapply triple_bind; [apply get_filehandle_triple|]. intros fh fm w (Hi & _ & Hok). revert fm w Hi.
  eapply (triple_bind (inv k)); [apply touch_parent_triple|intros []; by apply triple_found].
Qed.

Lemma drop_cache_handle_triple k id : triple (inv k) (drop_cache_handle id) (fun _ => inv k).
Proof.
  eapply triple_bind; [apply (triple_modify _ _ (fun _ => inv k))|intros []].
  { intros fm Hi. by eapply inv_same_dbs. }
  eapply triple_bind; [apply get_filehandle_by_id_triple|]. intros [fh|].
  - intros fm w [[Hi Hok] _]. specialize (Hok fh eq_refl). by apply update_filehandle_triple.
  - apply triple_ret. by intros fm [[Hi _] _].
Qed.

Lemma get_cache_handle_triple k fh : fh_ok fh -> triple (inv k) (get_cache_handle fh) (fun _ => inv k).
Proof.
  intros Hok. apply triple_self. intros fm0 _. case_match.
  { apply triple_ret. by intros fm [Hi _]. }
  eapply triple_bind; [apply (triple_outside _ _ (fun _ => inv k)); by intros c fm [Hi _]|]. intros c.
  eapply triple_bind; [apply (triple_modify _ _ (fun _ => inv k))|intros []].
  { intros fm Hi. by eapply inv_same_dbs. }
  eapply triple_bind; [by apply update_filehandle_triple|intros []; by apply triple_ret].
Qed.

Lemma forget_file_triple k fh : triple (inv k) (forget_file fh) (fun _ => inv k).
Proof.
  apply triple_self. intros fm0 _.
  eapply triple_bind.
  { eapply triple_weaken; [apply (triple_for_each (inv k))| |done].
    - intros s. apply triple_modify. intros fm. apply inv_lockdb_remove.
    - by intros fm [Hi _]. }
  intros []. eapply triple_bind; [apply drop_cache_handle_triple|intros []].
  eapply triple_bind; [apply (triple_modify _ _ (fun _ => inv k))|intros []].
  { intros fm Hi. by eapply inv_same_dbs. }
  apply triple_modify. intros fm. apply inv_fhdb_remove.
Qed.

Lemma remove_regular_triple k p : triple (inv k) (remove_regular p) (fun _ => inv k).
Proof.
  eapply triple_bind; [by apply (triple_outside _ _ (fun _ => inv k))|]. intros ok. by apply triple_ret.
Qed.

Lemma silly_rename_triple k p fh : triple (inv k) (silly_rename p fh) (fun _ => inv k).
Proof.
  unfold silly_rename. case_match; [|apply remove_regular_triple].
  eapply triple_bind; [by apply (triple_outside _ _ (fun _ => inv k))|]. intros moved.
  case_match; [apply remove_regular_triple|].
  eapply triple_bind; [apply (triple_modify _ _ (fun _ => inv k))|intros []].
  { intros fm Hi. by eapply inv_same_dbs. }
  eapply triple_bind; [apply (triple_modify _ _ (fun _ => inv k)); intros fm; apply inv_fhdb_remove|intros []].
  apply triple_self. intros fm0 _. apply triple_world. intros w.
  eapply triple_bind; [apply (triple_modify _ _ (fun _ => inv k))|intros []; by apply triple_ret].
  intros fm [Hi _]. apply inv_fhdb_replace; [apply fh_ok_make|done].
Qed.

Lemma remove_file_triple k p : triple (inv k) (remove_file p) (fun _ => inv k).
Proof.
  eapply triple_bind; [apply get_filehandle_by_path_triple|]. intros filehandle.
  apply triple_self. intros fm0 _. apply triple_world. intros w. cbv zeta.
  eapply (triple_bind _ _ _ (fun _ => inv k)).
  { eapply (triple_weaken (inv k) _ _ (fun _ => inv k)); [|by intros fm [[Hi _] _]|done].
    destruct filehandle as [fh|]; simpl.
    - repeat case_match; [apply silly_rename_triple| |apply remove_regular_triple].
      eapply triple_bind; [by apply (triple_outside _ _ (fun _ => inv k))|]. intros r. by apply triple_ret.
    - rewrite andb_false_r. case_match; [|apply remove_regular_triple].
      eapply triple_bind; [by apply (triple_outside _ _ (fun _ => inv k))|]. intros r. by apply triple_ret. }
  intros r. eapply (triple_bind _ _ _ (fun _ => inv k)).
  { unfold when. case_match; [|by apply triple_ret].
    destruct filehandle as [fh|]; [apply forget_file_triple|by apply triple_ret]. }
  intros []. eapply (triple_bind _ _ _ (fun _ => inv k)).
  { unfold when. case_match; [apply touch_parent_triple|by apply triple_ret]. }
  intros []. apply triple_self. intros fm1 _. apply triple_world. intros w1. apply triple_ret.
  by intros fm [Hi _].
Qed.

Lemma sweep_triple k : triple (inv k) sweep_pending_deletes (fun _ => inv k).
Proof.
  apply triple_self. intros fm0 _. eapply triple_weaken; [apply (triple_for_each (inv k))| |done].
  2: by intros fm [Hi _].
  intros id. eapply triple_bind; [apply (triple_modify _ _ (fun _ => inv k))|intros []].
  { intros fm Hi. by eapply inv_same_dbs. }
  apply triple_self. intros fm1 _. case_match; [|apply triple_ret; by intros fm [Hi _]].
  eapply triple_bind; [apply (triple_outside _ _ (fun _ => inv k)); by intros ? fm [Hi _]|intros ?].
  eapply triple_bind; [apply drop_cache_handle_triple|intros []].
  eapply triple_bind; [apply (triple_modify _ _ (fun _ => inv k))|intros []].
  { intros fm Hi. by eapply inv_same_dbs. }
  apply triple_modify. intros fm. apply inv_fhdb_remove.
Qed.

Lemma open_named_attr_dir_triple k fileid createdir :
  triple (inv k) (open_named_attr_dir fileid createdir) (found_ok k).
Proof.
  assert (Hget : forall (pre : FM -> Prop) d, (forall fm, pre fm -> inv k fm) ->
    triple pre (bind (get_filehandle d) (fun fh => ret (Some fh))) (found_ok k)).
  { intros pre d Hpre. eapply (triple_weaken (inv k)); [|exact Hpre|done].
    eapply triple_bind; [apply get_filehandle_triple|]. intros fh fm w (Hi & _ & Hok). by apply triple_found. }
  apply triple_self. intros fm0 _.
  case_match; [|apply triple_not_found; by intros fm [Hi _]].
  case_match; [|apply triple_not_found; by intros fm [Hi _]].
  apply triple_world. intros w. case_match; [apply Hget; by intros fm [Hi _]|].
  case_match; [apply triple_not_found; by intros fm [Hi _]|].
  eapply (triple_bind _ _ _ (fun _ => inv k)).
  { eapply (triple_weaken (inv k) _ _ (fun _ => inv k)); [|by intros fm [Hi _]|done].
    case_match; [by apply triple_ret|by apply triple_outside]. }
  intros made_root. case_match; [by apply triple_not_found|].
  eapply (triple_bind _ _ _ (fun _ => inv k)); [by apply triple_outside|].
  intros made. case_match; [by apply triple_not_found|]. by apply Hget.
Qed.

Lemma filehandle_attrs_triple k req id : triple (inv k) (filehandle_attrs req id) (fun _ => inv k).
Proof.
  eapply triple_bind; [apply get_filehandle_by_id_triple|].
  intros [fh|]; [|apply triple_ret; by intros fm [[Hi _] _]].
  apply triple_self. intros fm0 _. apply triple_world. intros w.
  eapply (triple_bind _ _ _ (fun _ => inv k)); [|intros fh'; by apply triple_ret].
  case_match; [|apply triple_ret; by intros fm [[[Hi _] _] _]].
  eapply triple_bind; [apply (triple_modify _ _ (fun _ => inv k))|intros []; by apply triple_ret].
  intros fm [[[Hi _] _] _]. apply inv_fhdb_replace; [done|]. by apply inv_fhdb_remove.
Qed.

(** ** Locks *)

Lemma lock_stateid_inj n m :
  in_width 64 n -> in_width 64 m -> lock_stateid n = lock_stateid m -> n = m.
Proof. intros Hn Hm E. apply app_inv_head in E. by apply (be_bytes_inj 8). Qed.

(** The next stateid is free, so a lock that conflicts with nothing goes in. *)
Lemma new_lock_inserts k fm (lk : list byte -> LockingState) :
  inv (k + 1) fm -> 0 <= k ->
  (forall s, lock_ok (lk s) /\ stateid (lk s) = s) ->
  (forall s l, l ∈ mi_iter (lockdb fm) -> filehandle_id l = filehandle_id (lk s) ->
     lock_conflict l (lk s) = false) ->
  exists d, mi_try_insert (lockdb fm) (lk (lock_stateid (next_stateid_id fm))) = Some d /\
    inv k (set_locks fm d (wrap 64 (next_stateid_id fm + 1))).
Proof.
  intros [[H1 H2 H3 H4 H5] Hf] Hk Hlk Hc. set (s := lock_stateid (next_stateid_id fm)).
  destruct (Hlk s) as [Hok Hs].
  assert (Hnew : forall l, l ∈ mi_iter (lockdb fm) -> stateid l <> s).
  { intros l Hl E. destruct (H3 l Hl) as (n & Hn & En). rewrite En in E.
    apply lock_stateid_inj in E; unfold in_width; lia. }
  destruct (mi_insert_some (lockdb fm) (lk s)) as [d Ed].
  { intros x Hx. unfold lock_clash. rewrite Hs. apply bool_decide_eq_false_2.
    intros E. by apply (Hnew x). }
  exists d. split; [done|]. split; [|by destruct Hf].
  pose proof (fun x => mi_insert_elem _ _ _ x Ed) as Hd.
  assert (Hw : wrap 64 (next_stateid_id fm + 1) = next_stateid_id fm + 1)
    by (apply wrap_small; solve_width).
  split; cbn [set_locks lockdb next_stateid_id]; rewrite ?Hw.
  - intros l [->|Hl]%Hd; auto.
  - eapply mi_distinct_insert; [exact Ed| |done]. intros x Ex. unfold lock_clash.
    by apply bool_decide_eq_true_2.
  - intros l [->|Hl]%Hd.
    + exists (next_stateid_id fm). split; [lia|done].
    + destruct (H3 l Hl) as (n & Hn & En). exists n. split; [lia|done].
  - intros a b [->|Ha]%Hd [->|Hb]%Hd Ef.
    + apply lock_conflict_self.
    + rewrite lock_conflict_sym by auto. by apply Hc.
    + by apply Hc.
    + by apply H4.
  - lia.
Qed.

Lemma new_open_state_triple k id client ow access deny :
  0 <= k -> triple (inv (k + 1)) (new_open_state id client ow access deny) (fun _ => inv k).
Proof.
  intros Hk fm w Hi.
  destruct (new_lock_inserts k fm (fun s => new_shared_reservation id s client ow access deny)) as (d & Ed & Hi');
    [done|done|done| |].
  { intros s l Hl Ef. apply lock_conflict_open. by right. }
  eexists _, _, w. unfold new_open_state, get_new_lockingstate_id, lockdb_insert, bind, modify, self, ret.
  cbn [set_next_stateid_id set_locks lockdb]. rewrite Ed. split; [done|]. by destruct fm.
Qed.

Lemma find_conflict_none fm id client ow ty off len :
  find_conflict fm id client ow ty off len = None <->
  forall l, l ∈ mi_iter (lockdb fm) -> filehandle_id l = id -> conflicts_with l off len ty ow client = false.
Proof.
  unfold find_conflict. rewrite head_None. split.
  - intros E l Hl Hf. destruct (conflicts_with l off len ty ow client) eqn:Ec; [|done].
    exfalso. apply (not_elem_of_nil l). rewrite <- E. apply list_elem_of_filter. rewrite Ec. split; [done|].
    unfold locks_of. apply mi_get_elem. split; [done|]. by apply bool_decide_eq_true_2.
  - intros Hn. apply elem_of_nil_inv. intros l [Hc Hl]%list_elem_of_filter.
    apply mi_get_elem in Hl as [Hl Hf]. unfold on_file in Hf. rewrite bool_decide_eq_true in Hf.
    by rewrite (Hn l Hl Hf) in Hc.
Qed.

Lemma find_conflict_some fm id client ow ty off len l :
  find_conflict fm id client ow ty off len = Some l ->
  l ∈ mi_iter (lockdb fm) /\ filehandle_id l = id /\ conflicts_with l off len ty ow client = true.
Proof.
  unfold find_conflict. intros [k E]%head_Some.
  assert (Hl : l ∈ filter (fun l => Is_true (conflicts_with l off len ty ow client)) (locks_of fm id))
    by (rewrite E; left).
  apply list_elem_of_filter in Hl as [Hc Hl]. apply mi_get_elem in Hl as [Hl Hf].
  unfold on_file in Hf. rewrite bool_decide_eq_true in Hf. by rewrite Is_true_true in Hc.
Qed.

(** The two outcomes of a lock request, with the state each leaves. *)
Lemma handle_lock_run k fm w id client ow ty off len :
  inv (k + 1) fm -> 0 <= k -> in_width 64 off -> in_width 64 len ->
  match find_conflict fm id client ow ty off len with
  | Some l => exists off' len' ty',
      handle_lock id client ow ty off len fm w =
        Some (LockDenied off' len' ty' (client_id l) (owner l), fm, w) /\ byte_range l off' len' ty'
  | None => exists d, let s := lock_stateid (next_stateid_id fm) in
      let lock := new_byte_range_lock id s client ow ty off len in
      mi_try_insert (lockdb fm) lock = Some d /\
      handle_lock id client ow ty off len fm w =
        Some (LockOk (MkStateid4 1 s), set_locks fm d (wrap 64 (next_stateid_id fm + 1)), w) /\
      inv k (set_locks fm d (wrap 64 (next_stateid_id fm + 1)))
  end.
Proof.
  intros Hi Hk Ho Hl. destruct (find_conflict fm id client ow ty off len) as [l|] eqn:E.
  - destruct (find_conflict_some _ _ _ _ _ _ _ _ E) as (Hin & _ & Hc).
    destruct (lock_ok_cases l) as [Hopen|(s & n & t & Hr & _)].
    + by apply (li_ok _ _ (proj1 Hi)).
    + by rewrite open_never_conflicts in Hc.
    + exists s, n, t. split; [|done]. unfold handle_lock, bind, self, ret. rewrite E.
      destruct Hr as (_ & -> & -> & ->). done.
  - destruct (new_lock_inserts k fm (fun s => new_byte_range_lock id s client ow ty off len)) as (d & Ed & Hi');
      [done|done| | |].
    + intros s. split; [by apply new_byte_range_lock_ok|done].
    + intros s l Hin Ef. erewrite lock_conflict_range by done. by eapply find_conflict_none.
    + exists d. cbv zeta. split; [done|]. split; [|done].
      unfold handle_lock, get_new_lockingstate_id, lockdb_insert, bind, modify, self, ret. rewrite E.
      cbn [set_next_stateid_id set_locks lockdb]. rewrite Ed. done.
Qed.

Lemma handle_lock_triple k id client ow ty off len :
  0 <= k -> in_width 64 off -> in_width 64 len ->
  triple (inv (k + 1)) (handle_lock id client ow ty off len) (fun r fm => inv k fm /\ forall s, r <> LockError s).
Proof.
  intros Hk Ho Hl fm w Hi. pose proof (handle_lock_run k fm w id client ow ty off len Hi Hk Ho Hl) as R.
  destruct (find_conflict _ _ _ _ _ _ _).
  - destruct R as (? & ? & ? & R & _). eexists _, _, _. split; [exact R|]. split; [|done]. eapply inv_weaken; [|done]. lia.
  - destruct R as (d & _ & R & Hi'). eexists _, _, _. by split; [exact R|].
Qed.

Lemma handle_unlock_triple k s off len :
  triple (inv k) (handle_unlock s off len) (fun r fm => inv k fm /\ forall e, r = UnlockError e -> e = Nfs4errBadStateid).
Proof.
  apply triple_self. intros fm0 _. case_match; [|apply triple_ret; intros fm [Hi _]; split; [done|by intros ? [= <-]]].
  eapply triple_bind; [apply (triple_modify _ _ (fun _ => inv k))|intros []; by apply triple_ret].
  intros fm [Hi _]. by apply inv_lockdb_remove.
Qed.

Lemma release_lock_owner_triple k client ow :
  triple (inv k) (handle_release_lock_owner client ow) (fun _ => inv k).
Proof.
  apply triple_self. intros fm0 _. cbv zeta.
  eapply (triple_bind _ _ _ (fun _ => inv k)); [|intros []; by apply triple_ret].
  eapply (triple_weaken (inv k) _ _ (fun _ => inv k)); [|by intros fm [Hi _]|done].
  apply triple_for_each. intros l. apply triple_modify. intros fm. apply inv_lockdb_remove.
Qed.

Lemma grant_delegation_triple k id client write :
  0 <= k -> triple (inv (k + 1)) (grant_delegation id client write) (fun _ => inv k).
Proof.
  intros Hk. apply triple_self. intros fm0 _. case_match.
  { case_match; apply triple_ret; intros fm [Hi _]; (eapply inv_weaken; [|done]); lia. }
  eapply (triple_bind _ _ _ (fun _ => inv k)).
  - eapply (triple_bind _ _ _ (fun _ => inv k)).
    + apply triple_modify. intros fm [[[H1 H2 H3 H4 H5] [F1 F2 F3]] _].
      assert (Hw : wrap 64 (next_stateid_id fm + 1) = next_stateid_id fm + 1)
        by (apply wrap_small; solve_width).
      split; split; cbn [set_next_stateid_id set_locks lockdb next_stateid_id fhdb]; rewrite ?Hw; try done; [|lia].
      intros l Hl. destruct (H3 l Hl) as (n & Hn & En). exists n. split; [lia|done].
    + intros []. apply triple_self. intros fm1 _. apply triple_ret. by intros fm [Hi _].
  - intros s. eapply (triple_bind _ _ _ (fun _ => inv k)); [|intros []; by apply triple_ret].
    apply triple_modify. intros fm Hi. by eapply inv_same_dbs.
Qed.

(** ** The whole actor *)

(** What the callers send: offsets and lengths are [u64], and a filehandle sent back is
    one the manager handed out. *)
Definition msg_ok (msg : FileManagerMessage P C) : Prop :=
  match msg with
  | LockFile _ _ _ _ offset length => in_width 64 offset /\ in_width 64 length
  | UpdateFilehandle fh | GetWriteCacheHandle fh => fh_ok fh
  | _ => True
  end.

(** What it answers: each message in the form its sender waits for, every filehandle filed
    under its own path, a created file with its share reservation, a lock never with an
    error, an unlock with one error only. *)
Definition reply_ok (msg : FileManagerMessage P C) (reply : FileManagerReply P C) : Prop :=
  match msg, reply with
  | (GetRootFilehandle | GetFilehandle _ _ | OpenNamedAttrDir _ _), ReplyFilehandle o =>
    forall fh, o = Some fh -> fh_ok fh
  | CreateFile _ _ _ _ _, ReplyFilehandle o => forall fh, o = Some fh -> fh_ok fh /\ locks fh <> []
  | LockFile _ _ _ _ _ _, ReplyLock r => forall s, r <> LockError s
  | UnlockFile _ _ _, ReplyUnlock r => forall s, r = UnlockError s -> s = Nfs4errBadStateid
  | GetFilehandleAttrs _ _, ReplyAttrs _ | CreateOpenState _ _ _ _ _, ReplyOpenState _
  | RemoveFile _, ReplyRemove _
  | TestLock _ _ _ _ _ _, ReplyTestLock _ | ReleaseLockOwner _ _, ReplyStatus _
  | GrantDelegation _ _ _, ReplyStateid _ | ReturnDelegation _ _, ReplyStatus _
  | GetDelegation _, ReplyDelegation _ | GetWriteCacheHandle _, ReplyCache _
  | (RenamePath _ _ _ | CloseFile _), ReplyUnit
  | (TouchFile _ | UpdateFilehandle _ | DropWriteCacheHandle _), NoReply => True
  | _, _ => False
  end.

#[local] Abbreviation answered k msg := (fun reply fm => inv k fm /\ reply_ok msg reply).

Lemma triple_answer (pre : FM -> Prop) k msg reply :
  (forall fm, pre fm -> inv k fm) -> reply_ok msg reply -> triple pre (ret reply : Act _) (answered k msg).
Proof. intros Hpre Hr. apply triple_ret. auto. Qed.

Lemma reply_with_locks_triple k msg fh :
  (fh_ok fh -> forall l, reply_ok msg (ReplyFilehandle (Some (with_locks fh l)))) ->
  fh_ok fh -> triple (inv k) (reply_with_locks fh) (answered k msg).
Proof. intros Hr Hok. apply triple_self. intros fm0 _. apply triple_answer; [by intros fm [Hi _]|by apply Hr]. Qed.

Lemma triple_reply {A} (pre : FM -> Prop) k msg (m : Act A) (f : A -> FileManagerReply P C) :
  triple pre m (fun _ => inv k) -> (forall a, reply_ok msg (f a)) ->
  triple pre (bind m (fun a => ret (f a))) (answered k msg).
Proof. intros Hm Hr. eapply triple_bind; [exact Hm|]. intros a. by apply triple_answer. Qed.

(** Messages that issue a stateid; each issues one. *)
Definition issues (msg : FileManagerMessage P C) : bool :=
  match msg with
  | CreateFile _ _ _ _ _ | CreateOpenState _ _ _ _ _ | LockFile _ _ _ _ _ _ | GrantDelegation _ _ _ => true
  | _ => false
  end.

Definition stateids_for (msg : FileManagerMessage P C) : Z := if issues msg then 1 else 0.

Lemma root_answer k msg :
  (forall fh l, fh_ok fh -> reply_ok msg (ReplyFilehandle (Some (with_locks fh l)))) ->
  triple (inv k) (bind root_fh reply_with_locks) (answered k msg).
Proof.
  intros Hr. eapply triple_bind; [apply root_fh_triple|]. intros fh fm w [Hi Hok].
  apply (reply_with_locks_triple k msg fh); auto.
Qed.

Lemma get_filehandle_answer k req_path filehandle :
  triple (inv k) (handle_message (GetFilehandle req_path filehandle)) (answered k (GetFilehandle req_path filehandle)).
Proof.
  cbn [handle_message]. case_match.
  - eapply triple_bind; [apply get_filehandle_by_id_triple|]. intros [fh|].
    + intros fm w [[Hi Hok] _]. apply (reply_with_locks_triple k); [|by apply Hok|done].
      by intros ?? ? [= <-].
    + by apply triple_answer; [intros fm [[Hi _] _]|].
  - case_match; [|apply root_answer; by intros ??? ? [= <-]].
    apply triple_self. intros fm0 _. case_match; [|by apply triple_answer; [intros fm [Hi _]|]].
    apply triple_world. intros w. case_match; [|by apply triple_answer; [intros fm [Hi _]|]].
    eapply (triple_weaken (inv k) _ _ (answered k _)); [|by intros fm [Hi _]|done].
    eapply triple_bind; [apply get_filehandle_triple|]. intros fh fm w' (Hi & _ & Hok).
    apply (reply_with_locks_triple k); [by intros ?? ? [= <-]|exact Hok|exact Hi].
Qed.

Lemma return_delegation_triple k id s : triple (inv k) (return_delegation id s) (fun _ => inv k).
Proof.
  apply triple_self. intros fm0 _. case_match; [case_match|].
  - eapply triple_bind; [apply (triple_modify _ _ (fun _ => inv k))|intros []; by apply triple_ret].
    intros fm [Hi _]. by eapply inv_same_dbs.
  - apply triple_ret. by intros fm [Hi _].
  - apply triple_ret. by intros fm [Hi _].
Qed.

Lemma handle_message_triple k msg :
  0 <= k -> msg_ok msg -> triple (inv (k + stateids_for msg)) (handle_message msg) (answered k msg).
Proof.
  intros Hk Hm. unfold stateids_for. destruct msg; cbn [issues]; rewrite ?Z.add_0_r.
  2: apply get_filehandle_answer. all: simpl in Hm; cbn [handle_message].
  - apply root_answer. by intros ??? ? [= <-].
  - by apply triple_reply; [apply filehandle_attrs_triple|].
  - eapply triple_bind; [apply (create_file_triple (k + 1))|]. intros [fh|] fm w [Hi Hok].
    + apply (triple_reply (inv (k + 1))); [by apply new_open_state_triple| |done].
      intros l ? [= <-]. split; [exact (Hok fh eq_refl)|done].
    + apply (triple_answer (inv (k + 1))); [intros ?; apply inv_weaken; lia|done|exact Hi].
  - eapply triple_bind; [apply (get_filehandle_triple (k + 1))|]. intros fh.
    apply triple_reply; [|done]. eapply triple_weaken; [by apply (new_open_state_triple k)| |done].
    by intros fm [Hi _].
  - by apply triple_reply; [apply remove_file_triple|].
  - eapply triple_bind; [apply get_filehandle_by_id_triple|]. intros [fh|].
    + eapply (triple_weaken (inv k) _ _ (answered k (TouchFile id))); [|by intros fm [[Hi _] _]|done].
      apply (triple_reply (inv k) k (TouchFile id) (touch_filehandle fh)); [apply (touch_filehandle_triple k)|done].
    + by apply triple_answer; [intros fm [[Hi _] _]|].
  - by apply triple_reply; [apply update_filehandle_triple|].
  - by apply triple_reply; [apply handle_rename_path_triple|].
  - destruct Hm. eapply triple_bind; [by apply (handle_lock_triple k)|]. intros r fm w [Hi Hr]. by apply (triple_answer (inv k)).
  - eapply triple_bind; [apply (handle_unlock_triple k)|]. intros r fm w [Hi Hr]. by apply (triple_answer (inv k)).
  - apply triple_reply; [|done]. apply triple_self. intros fm0 _. apply triple_ret. by intros fm [Hi _].
  - by apply triple_reply; [apply release_lock_owner_triple|].
  - eapply triple_bind; [apply open_named_attr_dir_triple|]. intros o.
    intros fm w [Hi Hok]. by apply (triple_answer (inv k)).
  - by apply triple_reply; [apply grant_delegation_triple|].
  - by apply triple_reply; [apply return_delegation_triple|].
  - apply triple_self. intros fm0 _. by apply triple_answer; [intros fm [Hi _]|].
  - apply triple_reply; [|done]. apply triple_modify. intros fm. apply inv_lockdb_remove.
  - by apply triple_reply; [apply get_cache_handle_triple|].
  - by apply triple_reply; [apply drop_cache_handle_triple|].
Qed.
End Proofs.
