(* ===== verification/FileManagerSpec.v ===== *)
(** * The file manager: what it promises

    Reachable states of the actor, and the properties of its operations in them: no
    panic, compatible locks, exact grants, exact releases, exclusive delegations,
    unique filehandles, truthful attributes. [mem_vfs] is a small in-memory file
    system on which the witnesses run. *)

From S2P Require Import Prelude NfsTypes Attrs MultiIndex Locking FileManager FileManagerProofs.
From stdpp Require Import base list gmap strings pretty.
From Stdlib Require Import Strings.Byte ZArith Lia.
#[local] Open Scope Z_scope.

Section Spec.
Context {W P C L H : Type}.
Context `{V : !Vfs W P C} `{ML : !MultiIndex LockingState L lock_clash}
        `{MH : !MultiIndex (Filehandle P C) H fh_clash}.
Abbreviation FM := (FileManager P C L H).
Implicit Types (fm : FM) (w : W) (fh : Filehandle P C).

(** The actor starts with [FileManager::new] and then handles a message or the timer;
    the world may have changed in any way between two turns. A turn issues at most one
    stateid; the 64-bit counter has not run out. *)
Inductive reachable : FM -> Prop :=
| reach_new root_path fsid_ export_root_ boot w fm w' :
    new root_path fsid_ export_root_ boot w = Some (fm, w') -> reachable fm
| reach_message fm w msg reply fm' w' :
    reachable fm -> msg_ok msg -> next_stateid_id fm + 1 < 2 ^ 64 ->
    handle_message msg fm w = Some (reply, fm', w') -> reachable fm'
| reach_sweep fm w fm' w' :
    reachable fm -> sweep_pending_deletes fm w = Some (tt, fm', w') -> reachable fm'.

Lemma initial_inv root_path fsid_ export_root_ boot :
  inv 0 (initial root_path fsid_ export_root_ boot : FM).
Proof.
  assert (E1 : mi_iter (lockdb (initial root_path fsid_ export_root_ boot : FM)) = []) by apply mi_iter_empty.
  assert (E2 : mi_iter (fhdb (initial root_path fsid_ export_root_ boot : FM)) = []) by apply mi_iter_empty.
  split; split; rewrite ?E1, ?E2; unfold mi_distinct; rewrite ?E1, ?E2;
    solve [by constructor | intros ? Hl; by apply not_elem_of_nil in Hl
          | intros ?? Hl; by apply not_elem_of_nil in Hl].
Qed.

Lemma triple_result {A} (pre : FM -> Prop) (m : action W P C L H A) (post : A -> FM -> Prop) fm w a fm' w' :
  triple pre m post -> pre fm -> m fm w = Some (a, fm', w') -> post a fm'.
Proof.
  intros Hm Hp E. destruct (Hm fm w Hp) as (b & fm2 & w2 & E2 & Hq). rewrite E in E2. by simplify_eq.
Qed.

Lemma inv_budget fm : inv 0 fm -> next_stateid_id fm + 1 < 2 ^ 64 -> inv 1 fm.
Proof. intros [[H1 H2 H3 H4 H5] Hf] Hb. split; [|done]. split; [done..|lia]. Qed.

Lemma inv_for fm (msg : FileManagerMessage P C) : inv 0 fm -> next_stateid_id fm + 1 < 2 ^ 64 -> inv (0 + stateids_for msg) fm.
Proof.
  intros Hi Hb. apply (inv_weaken 1); [unfold stateids_for; by case_match|by apply inv_budget].
Qed.

Lemma reachable_inv fm : reachable fm -> inv 0 fm.
Proof.
  induction 1 as [root_path fsid_ er boot w fm w' E|fm w msg reply fm' w' _ IH Hm Hb E|fm w fm' w' _ IH E].
  - unfold new in E. destruct (root_fh _ w) as [[[fh fm'] w'']|] eqn:R; [|done]. injection E as -> ->.
    exact (proj1 (triple_result _ _ (fun fh fm => inv 0 fm /\ fh_ok fh) _ _ _ _ _ (root_fh_triple 0) (initial_inv _ _ _ _) R)).
  - exact (proj1 (triple_result _ _ (fun reply fm => inv 0 fm /\ reply_ok msg reply) _ _ _ _ _ (handle_message_triple 0 msg ltac:(done) Hm)
      (inv_for fm msg IH Hb) E)).
  - exact (triple_result _ _ (fun _ => inv 0) _ _ _ _ _ (sweep_triple 0) IH E).
Qed.

(** C1: The actor never panics: in every reachable state every message is handled to a
    reply of the form its sender waits for, the periodic sweep completes, and the states they lead to are reachable. In
    particular [lockdb.insert], which panics on a stateid already taken, never does. *)
Theorem actor_never_panics fm :
  reachable fm ->
  (forall msg w, msg_ok msg -> next_stateid_id fm + 1 < 2 ^ 64 ->
     exists reply fm' w', handle_message msg fm w = Some (reply, fm', w') /\ reply_ok msg reply /\ reachable fm') /\
  (forall w, exists fm' w', sweep_pending_deletes fm w = Some (tt, fm', w') /\ reachable fm').
Proof.
  intros Hr. pose proof (reachable_inv fm Hr) as Hi. split.
  - intros msg w Hm Hb.
    destruct (handle_message_triple 0 msg ltac:(done) Hm fm w (inv_for fm msg Hi Hb)) as (reply & fm' & w' & E & _ & Hr').
    exists reply, fm', w'. split; [done|]. split; [done|]. by eapply reach_message.
  - intros w. destruct (sweep_triple 0 fm w Hi) as ([] & fm' & w' & E & _).
    exists fm', w'. split; [done|]. by eapply reach_sweep.
Qed.

(** C7: Mutual exclusion: in every reachable state, two byte-range locks on one file
    held by different owners that share a byte are both read locks. *)
Theorem locks_compatible fm a b sa na ta sb nb tb :
  reachable fm -> a ∈ mi_iter (lockdb fm) -> b ∈ mi_iter (lockdb fm) ->
  filehandle_id a = filehandle_id b -> (client_id a, owner a) <> (client_id b, owner b) ->
  byte_range a sa na ta -> byte_range b sb nb tb -> locks_overlap sa na sb nb ->
  is_write ta = false /\ is_write tb = false.
Proof.
  intros Hr Ha Hb Hf Hown Ra Rb Hov. destruct (reachable_inv fm Hr) as [[H1 _ _ H4 _] _].
  pose proof (H4 a b Ha Hb Hf) as Hn. rewrite (lock_conflict_range a b sb nb tb Rb) in Hn.
  destruct (lock_ok_cases a (H1 a Ha)) as [E|(s & n & t & R & Ws & Wn)]; [by destruct Ra; congruence|].
  destruct (lock_ok_cases b (H1 b Hb)) as [E|(s' & n' & t' & R' & Ws' & Wn')]; [by destruct Rb; congruence|].
  assert (s = sa /\ n = na /\ t = ta) as (-> & -> & ->)
    by (destruct R as (?&?&?&?), Ra as (?&?&?&?); split_and!; congruence).
  assert (s' = sb /\ n' = nb /\ t' = tb) as (-> & -> & ->)
    by (destruct R' as (?&?&?&?), Rb as (?&?&?&?); split_and!; congruence).
  apply not_true_iff_false in Hn. rewrite (conflicts_with_spec a sa na ta) in Hn by done.
  destruct (is_write ta), (is_write tb); try done; exfalso; apply Hn; by auto.
Qed.

(** The held lock [l] stands in the way of the request. *)
Definition blocks (l : LockingState) (id : NfsFh4) (client : Z) (ow : list byte) (ty : NfsLockType4)
    (off len : Z) : Prop :=
  filehandle_id l = id /\ conflicts_with l off len ty ow client = true.

(** C8: LOCK is exact. When no held lock stands in the way it is granted: the database
    gains exactly the requested lock, under a stateid no lock had; otherwise it is
    denied, naming a lock that stands in the way, and nothing changes. *)
Theorem handle_lock_exact fm w id client ow ty off len :
  reachable fm -> next_stateid_id fm + 1 < 2 ^ 64 -> in_width 64 off -> in_width 64 len ->
  ((forall l, l ∈ mi_iter (lockdb fm) -> ~ blocks l id client ow ty off len) ->
   exists s fm', handle_lock id client ow ty off len fm w = Some (LockOk s, fm', w) /\
     mi_iter (lockdb fm') ≡ₚ new_byte_range_lock id (stateid4_other s) client ow ty off len :: mi_iter (lockdb fm) /\
     (forall l, l ∈ mi_iter (lockdb fm) -> stateid l <> stateid4_other s)) /\
  ((exists l, l ∈ mi_iter (lockdb fm) /\ blocks l id client ow ty off len) ->
   exists l off' len' ty', l ∈ mi_iter (lockdb fm) /\ blocks l id client ow ty off len /\
     byte_range l off' len' ty' /\
     handle_lock id client ow ty off len fm w = Some (LockDenied off' len' ty' (client_id l) (owner l), fm, w)).
Proof.
  intros Hr Hb Ho Hl. pose proof (inv_budget fm (reachable_inv fm Hr) Hb) as Hi.
  pose proof (handle_lock_run 0 fm w id client ow ty off len Hi ltac:(lia) Ho Hl) as R.
  destruct (find_conflict fm id client ow ty off len) as [l|] eqn:E.
  - destruct (find_conflict_some _ _ _ _ _ _ _ _ E) as (Hin & Hf & Hc).
    destruct R as (off' & len' & ty' & R & Hbr). split.
    + intros Hn. by destruct (Hn l Hin).
    + intros _. by exists l, off', len', ty'.
  - pose proof (proj1 (find_conflict_none _ _ _ _ _ _ _) E) as Hn. split.
    + intros _. destruct R as (d & Ed & R & _). eexists _, _. split; [exact R|].
      pose proof (mi_try_insert_spec (lockdb fm) (new_byte_range_lock id
        (lock_stateid (next_stateid_id fm)) client ow ty off len)) as S. rewrite Ed in S.
      destruct S as [Sn S]. split; [done|]. intros x Hx Es.
      assert (existsb (lock_clash (new_byte_range_lock id (lock_stateid (next_stateid_id fm)) client ow ty off len))
                (mi_iter (lockdb fm)) = true) as Ht; [|by rewrite Ht in Sn].
      apply existsb_exists. exists x. split; [by apply list_elem_of_In|]. by apply bool_decide_eq_true_2.
    + intros (l & Hin & Hf & Hc). by rewrite (Hn l Hin Hf) in Hc.
Qed.

(** LOCKT answers what LOCK would have done in the same state. *)
Theorem test_lock_agrees fm w id client ow ty off len :
  reachable fm -> next_stateid_id fm + 1 < 2 ^ 64 -> in_width 64 off -> in_width 64 len ->
  exists r s fm', handle_test_lock id client ow ty off len fm w = Some (r, fm, w) /\
    handle_lock id client ow ty off len fm w =
      Some (match r with
            | TestLockOk => LockOk s
            | TestLockDenied off' len' ty' c o => LockDenied off' len' ty' c o
            end, fm', w).
Proof.
  intros Hr Hb Ho Hl. pose proof (inv_budget fm (reachable_inv fm Hr) Hb) as Hi.
  pose proof (handle_lock_run 0 fm w id client ow ty off len Hi ltac:(lia) Ho Hl) as R.
  unfold handle_test_lock, bind, self, ret.
  destruct (find_conflict fm id client ow ty off len) as [l|] eqn:E.
  - destruct R as (off' & len' & ty' & R & (_ & -> & -> & ->)).
    eexists _, (MkStateid4 0 []), _. split; [reflexivity|exact R].
  - destruct R as (d & _ & R & _). eexists _, _, _. split; [reflexivity|exact R].
Qed.

(** LOCKU undoes LOCK: releasing the stateid a lock was granted under leaves the
    lock database as it was before the lock, whatever range is named; and a stateid
    no lock has is refused with NFS4ERR_BAD_STATEID. *)
Theorem lock_unlock fm w id client ow ty off len s fm' off2 len2 :
  reachable fm -> next_stateid_id fm + 1 < 2 ^ 64 -> in_width 64 off -> in_width 64 len ->
  handle_lock id client ow ty off len fm w = Some (LockOk s, fm', w) ->
  exists fm'', handle_unlock (stateid4_other s) off2 len2 fm' w =
      Some (UnlockOk (MkStateid4 2 (stateid4_other s)), fm'', w) /\
    mi_iter (lockdb fm'') ≡ₚ mi_iter (lockdb fm) /\
    handle_unlock (stateid4_other s) off2 len2 fm'' w = Some (UnlockError Nfs4errBadStateid, fm'', w).
Proof.
  intros Hr Hb Ho Hl E. pose proof (inv_budget fm (reachable_inv fm Hr) Hb) as Hi.
  pose proof (handle_lock_run 0 fm w id client ow ty off len Hi ltac:(lia) Ho Hl) as R.
  destruct (find_conflict fm id client ow ty off len) as [l|].
  { destruct R as (?&?&?& R & _). rewrite E in R. by simplify_eq. }
  destruct R as (d & Ed & R & Hi'). rewrite E in R. injection R as -> ->. cbn [stateid4_other].
  set (sid := lock_stateid (next_stateid_id fm)) in *.
  set (lock := new_byte_range_lock id sid client ow ty off len) in *.
  pose proof (mi_try_insert_spec (lockdb fm) lock) as S. rewrite Ed in S. destruct S as [Sn S].
  assert (Hfree : forall x, x ∈ mi_iter (lockdb fm) -> has_stateid sid x = false).
  { intros x Hx. apply bool_decide_eq_false_2. intros Es.
    assert (existsb (lock_clash lock) (mi_iter (lockdb fm)) = true) as Ht; [|by rewrite Ht in Sn].
    apply existsb_exists. exists x. split; [by apply list_elem_of_In|]. by apply bool_decide_eq_true_2. }
  assert (Hget : mi_get_unique d (has_stateid sid) = Some lock).
  { apply mi_get_unique_is.
    - rewrite S. left.
    - by apply bool_decide_eq_true_2.
    - intros x Hx. rewrite S in Hx. apply elem_of_cons in Hx as [->|Hx]; [done|]. by rewrite Hfree. }
  unfold handle_unlock, bind, self, modify, ret, lockdb_remove. cbn [set_locks set_lockdb lockdb]. rewrite Hget.
  eexists. split; [done|]. cbn [set_locks set_lockdb lockdb].
  assert (Hperm : mi_iter (mi_delete d (has_stateid sid)) ≡ₚ mi_iter (lockdb fm)).
  { rewrite mi_delete_perm, S. rewrite filter_cons_False.
    - rewrite filter_all; [done|]. intros x Hx. rewrite (Hfree x Hx). by intros [].
    - intros Hn. apply Hn. apply bool_decide_pack. done. }
  split; [done|].
  assert (mi_get_unique (mi_delete d (has_stateid sid)) (has_stateid sid) = None) as ->; [|done].
  apply mi_get_unique_none. by intros x [_ Hx]%mi_delete_elem.
Qed.

(** Removing a list of stateids one by one. *)
Lemma for_each_remove l fm w :
  exists fm', for_each (map stateid l) (fun s => modify (lockdb_remove s)) fm w = Some (tt, fm', w) /\
    (forall x, x ∈ mi_iter (lockdb fm') <-> x ∈ mi_iter (lockdb fm) /\ stateid x ∉ map stateid l) /\
    fm' = set_lockdb fm (lockdb fm').
Proof.
  revert fm. induction l as [|y l IH]; intros fm; cbn [map for_each].
  - exists fm. split; [done|]. split; [|by destruct fm]. intros x. split; [|tauto].
    intros Hx. split; [done|apply not_elem_of_nil].
  - destruct (IH (lockdb_remove (stateid y) fm)) as (fm' & E & Hx & Ef).
    exists fm'. split; [exact E|]. split; [|by rewrite Ef; destruct fm].
    intros x. rewrite Hx. cbn [lockdb_remove set_lockdb set_locks lockdb].
    rewrite mi_delete_elem, not_elem_of_cons. unfold has_stateid. rewrite bool_decide_eq_false. tauto.
Qed.

Lemma for_each_map {A B} (g : A -> B) (l : list A) (f : B -> action W P C L H unit) :
  for_each (map g l) f = for_each l (fun a => f (g a)).
Proof. induction l as [|a l IH]; [done|]. cbn [map for_each]. by rewrite IH. Qed.

(** RELEASE_LOCKOWNER removes exactly the byte-range locks of that owner of that
    client: share reservations, and every other owner's locks, stay. *)
Theorem release_lock_owner_exact fm w client ow :
  reachable fm ->
  exists fm', handle_release_lock_owner client ow fm w = Some (Nfs4Ok, fm', w) /\
    forall l, l ∈ mi_iter (lockdb fm') <->
      l ∈ mi_iter (lockdb fm) /\
      ~ (client_id l = client /\ owner l = ow /\ lock_type l = LockType_ByteRange).
Proof.
  intros Hr. destruct (reachable_inv fm Hr) as [[_ Hd _ _ _] _].
  set (held := filter (fun l => lock_type l = LockType_ByteRange /\ owner l = ow)
                      (mi_get (lockdb fm) (of_client client))).
  destruct (for_each_remove held fm w) as (fm' & E & Hx & _). rewrite for_each_map in E.
  exists fm'. split.
  { unfold handle_release_lock_owner, bind, self, ret. fold held. by rewrite E. }
  assert (Hheld : forall l, l ∈ held <-> l ∈ mi_iter (lockdb fm) /\
    client_id l = client /\ owner l = ow /\ lock_type l = LockType_ByteRange).
  { intros l. unfold held. rewrite list_elem_of_filter, mi_get_elem. unfold of_client.
    rewrite Z.eqb_eq. tauto. }
  intros l. rewrite Hx. split; intros [Hl Hn]; (split; [done|]).
  - intros Hown. apply Hn. apply list_elem_of_fmap_2, Hheld. tauto.
  - intros (l' & Es & Hl')%list_elem_of_fmap. apply Hheld in Hl' as [Hin Hown].
    rewrite (mi_distinct_inj stateid (lockdb fm) l l' Hd Hl Hin Es) in Hn. by apply Hn.
Qed.

(** CLOSE removes the stateid's reservation and nothing else. *)
Theorem close_exact fm w sid :
  exists fm', handle_message (CloseFile sid) fm w = Some (ReplyUnit, fm', w) /\
    forall l, l ∈ mi_iter (lockdb fm') <-> l ∈ mi_iter (lockdb fm) /\ stateid l <> sid.
Proof.
  eexists. split; [done|]. intros l. cbn [lockdb_remove set_lockdb set_locks lockdb].
  rewrite mi_delete_elem. unfold has_stateid. by rewrite bool_decide_eq_false.
Qed.

(** C24: Delegations are exclusive. A delegation, to read or to write, is granted exactly
    when no other client holds one on the file, of either kind, whatever is open there; a
    client that holds one gets the same stateid again, also when it asks for the other
    kind; only the stateid granted returns it, and then another client can have it. *)
Theorem delegation_exclusive fm w id client write :
  exists r fm', grant_delegation id client write fm w = Some (r, fm', w) /\
    (r = None <-> exists d, delegations fm !! id = Some d /\ deleg_client_id d <> client) /\
    (forall s, r = Some s ->
       (exists d, delegations fm' !! id = Some d /\ deleg_client_id d = client /\ deleg_stateid d = s) /\
       (forall id', id' <> id -> delegations fm' !! id' = delegations fm !! id') /\
       (forall write', grant_delegation id client write' fm' w = Some (Some s, fm', w)) /\
       (forall other write', other <> client -> grant_delegation id other write' fm' w = Some (None, fm', w)) /\
       (forall s', s' <> s -> return_delegation id s' fm' w = Some (Nfs4errBadStateid, fm', w)) /\
       (exists fm'', return_delegation id s fm' w = Some (Nfs4Ok, fm'', w) /\ delegations fm'' !! id = None)).
Proof.
  assert (Hheld : forall fm d, delegations fm !! id = Some d -> deleg_client_id d = client ->
    (forall write', grant_delegation id client write' fm w = Some (Some (deleg_stateid d), fm, w)) /\
    (forall other write', other <> client -> grant_delegation id other write' fm w = Some (None, fm, w)) /\
    (forall s', s' <> deleg_stateid d -> return_delegation id s' fm w = Some (Nfs4errBadStateid, fm, w)) /\
    (exists fm'', return_delegation id (deleg_stateid d) fm w = Some (Nfs4Ok, fm'', w) /\ delegations fm'' !! id = None)).
  { clear fm. intros fm d Ed Ec. unfold grant_delegation, return_delegation, bind, self, modify, ret.
    rewrite Ed, Ec. split_and!.
    - intros _. by rewrite Z.eqb_refl.
    - intros other _ Ho. by rewrite (proj2 (Z.eqb_neq _ _)) by congruence.
    - intros s' Hs. by rewrite bool_decide_eq_false_2 by congruence.
    - rewrite bool_decide_eq_true_2 by done. eexists. split; [done|]. apply lookup_delete_eq. }
  destruct (delegations fm !! id) as [d|] eqn:Ed.
  - destruct (Z.eqb_spec (deleg_client_id d) client) as [Ec|Ec].
    + destruct (Hheld fm d Ed Ec) as (H1 & H2 & H3 & H4). exists (Some (deleg_stateid d)), fm.
      split; [apply H1|]. split; [naive_solver|]. intros s [= <-].
      split; [by exists d|]. split; [done|]. by split_and!.
    + exists None, fm. unfold grant_delegation, bind, self, ret. rewrite Ed.
      rewrite (proj2 (Z.eqb_neq _ _)) by done. split; [done|]. naive_solver.
  - eexists _, _. unfold grant_delegation at 1, make_stateid, bind, self, modify, ret. rewrite Ed.
    split; [done|]. split; [naive_solver|]. intros s [= <-].
    cbn [set_next_stateid_id set_locks next_stateid_id boot_time set_delegations delegations].
    set (n := wrap 64 (next_stateid_id fm + 1)).
    set (s := MkStateid4 _ _). set (d := MkDelegationState client s write).
    set (fm' := set_delegations _ _).
    assert (Ed' : delegations fm' !! id = Some d) by apply lookup_insert_eq.
    split; [by exists d|]. split; [intros id' Hne; by apply lookup_insert_ne|].
    by apply (Hheld fm' d Ed').
Qed.

(** Filing a filehandle never fails: afterwards the database holds it, holds no
    other entry with its id or its path, and holds every other entry it held before. *)
Theorem fhdb_replace_exact fh fm x :
  x ∈ mi_iter (fhdb (fhdb_replace fh fm)) <->
  x = fh \/ (x ∈ mi_iter (fhdb fm) /\ fh_id x <> fh_id fh /\ path x <> path fh).
Proof. destruct (fhdb_replace_spec fh fm) as (d & -> & Hd & _). apply Hd. Qed.

(** In every reachable state ids and paths name at most one filehandle each, and a
    lookup by path returns the filehandle of that very path. *)
Theorem filehandles_unique fm a b :
  reachable fm -> a ∈ mi_iter (fhdb fm) -> b ∈ mi_iter (fhdb fm) ->
  fh_id a = fh_id b \/ path a = path b -> a = b /\ path a = path_of (file a).
Proof.
  intros Hr Ha Hb Hk. destruct (reachable_inv fm Hr) as [_ [F1 F2 F3]]. split; [|by apply F3].
  destruct Hk as [Hk|Hk]; [by eapply (mi_distinct_inj (@fh_id P C))|by eapply (mi_distinct_inj (@path P C))].
Qed.

Lemma attr_answer_attr fm fh a v : attr_answer fm fh a = Some v -> attr_of_value v = a.
Proof. by destruct a; intros [= <-]. Qed.

Lemma answer_attrs_spec fm fh req :
  answer_attrs fm fh req =
  (filter (fun a => Is_true (bool_decide (is_Some (attr_answer fm fh a)))) req, omap (attr_answer fm fh) req).
Proof.
  induction req as [|a req IH]; [done|]. cbn [answer_attrs omap list_omap]. rewrite IH, filter_cons.
  destruct (attr_answer fm fh a) as [v|] eqn:E.
  - rewrite decide_True by (apply bool_decide_pack; by eexists). done.
  - rewrite decide_False by (intros Hs%bool_decide_unpack; by apply is_Some_None in Hs). done.
Qed.

(** A lookup reads the world and changes nothing but the filehandle database. *)
Lemma get_filehandle_by_id_frame id fm w r fm' w' :
  get_filehandle_by_id id fm w = Some (r, fm', w') -> w' = w /\ exists d, fm' = set_fhdb fm d.
Proof.
  unfold get_filehandle_by_id, bind, self, world, modify, ret.
  assert (Hsame : exists d, fm = set_fhdb fm d) by (exists (fhdb fm); by destruct fm).
  case_match; [case_match; [|match goal with |- context[match ?o with Some _ => _ | None => _ end] => destruct o end]|];
    intros [= <- <- <-]; (split; [done|]); try done.
  - destruct (fhdb_replace_spec (make_filehandle fm w p id (wrap 64 (version f + 1)))
      (fhdb_remove_by_id id fm)) as (d & -> & _). by exists d.
  - by eexists.
Qed.

(** GETATTR answers truthfully: the attributes returned are the requested ones the
    server has, in the order of the request, the value at each position is that
    attribute's value, and the values come from the file's metadata at that moment
    when it can be read. Attributes the server lacks are left out, never guessed. *)
Theorem filehandle_attrs_truthful fm w id req r fm' w' :
  reachable fm -> filehandle_attrs req id fm w = Some (Some r, fm', w') ->
  exists fh, fh_id fh = id /\
    r.1 = filter (fun a => Is_true (bool_decide (is_Some (attr_answer fm fh a)))) req /\
    r.2 = omap (attr_answer fm fh) req /\ map attr_of_value r.2 = r.1 /\
    (forall m, from_path w (real_path fm (file fh)) = Some m ->
       exists ver, fh = new_real (file fh) id (fsid fm) (fsid fm) ver m).
Proof.
  intros Hr. unfold filehandle_attrs. unfold bind at 1.
  destruct (get_filehandle_by_id id fm w) as [[[found fm1] w1]|] eqn:E; [|done].
  pose proof (triple_result _ _ _ _ _ _ _ _ (get_filehandle_by_id_triple 0 id) (reachable_inv fm Hr) E) as [_ Hid].
  destruct (get_filehandle_by_id_frame _ _ _ _ _ _ E) as [-> [d ->]].
  destruct found as [old|]; [|done]. specialize (Hid old eq_refl).
  assert (Hans : forall fh, map attr_of_value (omap (attr_answer fm fh) req) =
     filter (fun a => Is_true (bool_decide (is_Some (attr_answer fm fh a)))) req).
  { intros fh. induction req as [|a req' IH]; [done|]. cbn [omap list_omap]. rewrite filter_cons.
    destruct (attr_answer fm fh a) as [v|] eqn:Ea.
    - rewrite decide_True by (apply bool_decide_pack; by eexists). cbn [map].
      by rewrite IH, (attr_answer_attr _ _ _ _ Ea).
    - by rewrite decide_False by (intros Hs%bool_decide_unpack; by apply is_Some_None in Hs). }
  unfold bind, self, world, ret, modify.
  change (real_path (set_fhdb fm d)) with (real_path fm).
  destruct (from_path w (real_path fm (file old))) as [m|] eqn:Em; intros [= <- _ _];
    rewrite answer_attrs_spec; cbn [fst snd].
  - eexists (new_real (file old) (fh_id old) (fsid fm) (fsid fm) (version old) m).
    split; [done|]. split; [done|]. split; [done|]. split; [apply Hans|].
    intros m' Em'. cbn [new_real file] in Em'. rewrite Em in Em'. injection Em' as <-.
    exists (version old). by rewrite <- Hid.
  - exists old. split; [done|]. split; [done|]. split; [done|]. split; [apply Hans|].
    intros m' Em'. by rewrite Em in Em'.
Qed.
End Spec.

(** ** A file system in memory *)

(** The world is the metadata by real path; paths are their strings, all in one
    directory; nothing is ever written. *)
#[export] Instance mem_vfs : Vfs (gmap string RealMeta) string unit := {
  vfs_as_str p := p;
  vfs_parent _ := ""%string;
  vfs_join _ name := Some ("/" +:+ name);
  vfs_exists w p := bool_decide (is_Some (w !! ("/export" +:+ p)));
  vfs_is_dir w p := match w !! ("/export" +:+ p) with Some m => Z.land (mode m) 0xF000 =? 0x4000 | None => false end;
  vfs_len w p := match w !! ("/export" +:+ p) with Some m => FileManager.size m | None => 0 end;
  vfs_create_file w p := (true, <["/export" +:+ p := MkRealMeta (Z.of_nat (S (base.size w))) 1 0x81A4 1 0 0 0 0 0 0 0 0 0 0]> w);
  vfs_create_dir w p := (false, w);
  vfs_remove_file w p := (true, delete ("/export" +:+ p) w);
  vfs_remove_dir w p := (None, delete ("/export" +:+ p) w);
  vfs_move_file w p q := (true, match w !! ("/export" +:+ p) with
                                | Some m => <["/export" +:+ q := m]> (delete ("/export" +:+ p) w)
                                | None => w
                                end);
  from_path w p := w !! p;
  fs_read_dir w _ := Some (map (fun e => (e.1, e.1)) (map_to_list w));
  current_time _ := MkNfstime4 0 0;
  default_hash s := Z.of_nat (String.length s);
  cache_spawn w _ _ _ _ := (tt, w)
}.

Definition mem_fm : Type := FileManager string unit (list LockingState) (list (Filehandle string unit)).

Definition mem_world : gmap string RealMeta :=
  <["/export"%string := MkRealMeta 1 1 0x41ED 2 0 0 4096 8 0 0 5 7 0 0]>
  (<["/export/a"%string := MkRealMeta 2 1 0x81A4 1 0 0 10 8 0 0 6 9 0 0]> ∅).

(** The manager of export 3, and the same after client 1 has locked bytes 0-99 of [/a]. *)
Definition mem_start : mem_fm :=
  match new ("" : string) (Some 3) "/export" 17 mem_world with
  | Some (fm, _) => fm
  | None => initial ("" : string) (Some 3) "/export" 17
  end.

Definition file_a : NfsFh4 := inode_handle 3 (MkRealMeta 2 1 0x81A4 1 0 0 10 8 0 0 6 9 0 0).

Definition run_message (fm : mem_fm) (msg : FileManagerMessage string unit) : mem_fm :=
  match handle_message msg fm mem_world with
  | Some (_, fm, _) => fm
  | None => fm
  end.

Definition mem_locked : mem_fm := run_message mem_start (LockFile file_a 1 [x61] WriteLt 0 100).
Definition mem_shared : mem_fm :=
  run_message (run_message mem_start (LockFile file_a 1 [x61] ReadLt 0 100)) (LockFile file_a 2 [x62] ReadLt 50 100).

Lemma mem_start_reachable : reachable mem_start.
Proof. eapply (reach_new "" (Some 3) "/export" 17 mem_world). vm_compute. reflexivity. Qed.

Lemma run_message_reachable fm msg :
  reachable fm -> msg_ok msg -> next_stateid_id fm + 1 < 2 ^ 64 -> reachable (run_message fm msg).
Proof.
  intros Hr Hm Hb. unfold run_message. destruct (handle_message msg fm mem_world) as [[[r fm'] w']|] eqn:E; [|done].
  by eapply reach_message.
Qed.

Lemma mem_locked_reachable : reachable mem_locked.
Proof. by apply run_message_reachable; [apply mem_start_reachable| |]. Qed.

Lemma mem_shared_reachable : reachable mem_shared.
Proof.
  apply run_message_reachable; [|done|by vm_compute].
  apply run_message_reachable; [apply mem_start_reachable|done|by vm_compute].
Qed.

Lemma actor_never_panics_witness :
  exists reply fm' w', handle_message (LockFile file_a 2 [x62] ReadLt 0 1) mem_locked mem_world = Some (reply, fm', w')
    /\ reply_ok (LockFile file_a 2 [x62] ReadLt 0 1) reply /\ reachable fm'.
Proof.
  apply (proj1 (actor_never_panics mem_locked mem_locked_reachable)); [by split|by vm_compute].
Defined.

Lemma locks_compatible_witness : is_write ReadLt = false /\ is_write ReadLt = false.
Proof.
  apply (locks_compatible mem_shared
    (new_byte_range_lock file_a (lock_stateid 100) 1 [x61] ReadLt 0 100)
    (new_byte_range_lock file_a (lock_stateid 101) 2 [x62] ReadLt 50 100) 0 100 ReadLt 50 100 ReadLt).
  - apply mem_shared_reachable.
  - apply (bool_decide_unpack _). by vm_compute.
  - apply (bool_decide_unpack _). by vm_compute.
  - done.
  - done.
  - done.
  - done.
  - exists 60. unfold covers, umax. lia.
Defined.

Lemma handle_lock_exact_witness :
  exists s fm', handle_lock file_a 2 [x62] WriteLt 100 10 mem_locked mem_world = Some (LockOk s, fm', mem_world).
Proof.
  destruct (proj1 (handle_lock_exact mem_locked mem_world file_a 2 [x62] WriteLt 100 10 mem_locked_reachable
    ltac:(by vm_compute) ltac:(by vm_compute) ltac:(by vm_compute))) as (s & fm' & E & _).
  - intros l Hl. assert (E : lockdb mem_locked =
      [new_byte_range_lock file_a (lock_stateid 100) 1 [x61] WriteLt 0 100]) by (by vm_compute).
    change (l ∈ lockdb mem_locked) in Hl. rewrite E in Hl. apply list_elem_of_singleton in Hl as ->. intros [_ Hc]. by vm_compute in Hc.
  - by exists s, fm'.
Defined.

Lemma test_lock_agrees_witness :
  exists r s fm', handle_test_lock file_a 2 [x62] WriteLt 0 10 mem_locked mem_world = Some (r, mem_locked, mem_world) /\
    handle_lock file_a 2 [x62] WriteLt 0 10 mem_locked mem_world =
      Some (match r with
            | TestLockOk => LockOk s
            | TestLockDenied off' len' ty' c o => LockDenied off' len' ty' c o
            end, fm', mem_world).
Proof. by apply test_lock_agrees; [apply mem_locked_reachable|vm_compute..]. Defined.

Lemma lock_unlock_witness :
  exists fm'', handle_unlock (lock_stateid 100) 5 1 mem_locked mem_world =
      Some (UnlockOk (MkStateid4 2 (lock_stateid 100)), fm'', mem_world) /\
    lockdb fm'' ≡ₚ lockdb mem_start /\
    handle_unlock (lock_stateid 100) 5 1 fm'' mem_world = Some (UnlockError Nfs4errBadStateid, fm'', mem_world).
Proof.
  destruct (lock_unlock mem_start mem_world file_a 1 [x61] WriteLt 0 100 (MkStateid4 1 (lock_stateid 100))
    mem_locked 5 1 mem_start_reachable ltac:(by vm_compute) ltac:(by vm_compute) ltac:(by vm_compute)
    ltac:(by vm_compute)) as (fm'' & E1 & E2 & E3).
  by exists fm''.
Defined.

Lemma release_lock_owner_exact_witness :
  exists fm', handle_release_lock_owner 1 [x61] mem_locked mem_world = Some (Nfs4Ok, fm', mem_world).
Proof.
  destruct (release_lock_owner_exact mem_locked mem_world 1 [x61] mem_locked_reachable) as (fm' & E & _).
  by exists fm'.
Defined.

Lemma filehandles_unique_witness :
  exists a, a ∈ fhdb mem_locked /\ (a = a /\ path a = path_of (file a)).
Proof.
  assert (exists a, a ∈ fhdb mem_locked) as [a Ha].
  { destruct (fhdb mem_locked) as [|a l] eqn:E; [by vm_compute in E|]. exists a. left. }
  exists a. split; [done|]. apply (filehandles_unique mem_locked a a mem_locked_reachable Ha Ha). by left.
Defined.

Lemma filehandle_attrs_truthful_witness :
  exists fh : Filehandle string unit, fh_id fh = inode_handle 3 (MkRealMeta 1 1 0x41ED 2 0 0 4096 8 0 0 5 7 0 0) /\
    map attr_of_value (omap (attr_answer mem_start fh) [FileAttr_Type; FileAttr_Archive; FileAttr_Size])
    = [FileAttr_Type; FileAttr_Size].
Proof.
  destruct (filehandle_attrs_truthful mem_start mem_world (inode_handle 3 (MkRealMeta 1 1 0x41ED 2 0 0 4096 8 0 0 5 7 0 0))
    [FileAttr_Type; FileAttr_Archive; FileAttr_Size]
    ([FileAttr_Type; FileAttr_Size], [FileAttrValue_Type Nf4dir; FileAttrValue_Size 4096])
    (match filehandle_attrs [FileAttr_Type; FileAttr_Archive; FileAttr_Size]
       (inode_handle 3 (MkRealMeta 1 1 0x41ED 2 0 0 4096 8 0 0 5 7 0 0)) mem_start mem_world with
     | Some (_, fm, _) => fm | None => mem_start end) mem_world mem_start_reachable)
    as (fh & Hid & _ & Hv & Hm & _).
  - vm_compute. reflexivity.
  - exists fh. split; [done|]. rewrite <- Hv. exact Hm.
Defined.
