(* ===== verification/F64.v ===== *)
(** * Floating-point numbers

    [f64] of Rust by the Standard Library's specification of IEEE 754 binary64, with the
    operations the server uses, and that these are exact on whole numbers below 2^53. *)

From S2P Require Import Prelude.
From stdpp Require Import base numbers.
From Stdlib Require Import ZArith Lia SpecFloat.
#[local] Open Scope Z_scope.

Definition f64 : Type := spec_float.

(** [n as f64] *)
Definition f64_of (n : Z) : f64 := binary_normalize 53 1024 n 0 false.
Definition f64_add : f64 -> f64 -> f64 := SFadd 53 1024.
Definition f64_sub : f64 -> f64 -> f64 := SFsub 53 1024.
Definition f64_mul : f64 -> f64 -> f64 := SFmul 53 1024.
Definition f64_div : f64 -> f64 -> f64 := SFdiv 53 1024.
Definition f64_lt (a b : f64) : bool := SFltb a b.
Definition f64_le (a b : f64) : bool := SFleb a b.
(** [f64::min]: the other number when one is not one. *)
Definition f64_min (a b : f64) : f64 :=
  match a, b with
  | S754_nan, _ => b
  | _, S754_nan => a
  | _, _ => if f64_lt b a then b else a
  end.

(** [Duration::as_secs_f64], of a time in nanoseconds. *)
Definition as_secs_f64 (d : Z) : f64 :=
  f64_add (f64_of (d / 1000000000)) (f64_div (f64_of (d mod 1000000000)) (f64_of 1000000000)).

(** ** Whole numbers *)

(** The digits of a number. *)
Definition digits (n : Z) : Z := Z.log2 n + 1.

(** A whole number in its canonical form. *)
Definition whole (s : bool) (p : Z) : f64 := S754_finite s (Z.to_pos (p * 2 ^ (53 - digits p))) (digits p - 53).

Lemma digits2_log2 p : Z.pos (digits2_pos p) = digits (Z.pos p).
Proof.
  unfold digits. induction p as [p IH|p IH|]; cbn [digits2_pos]; [| |done].
  - rewrite Pos2Z.inj_succ, IH, (Pos2Z.inj_xI p), Z.log2_succ_double by lia. lia.
  - rewrite Pos2Z.inj_succ, IH, (Pos2Z.inj_xO p), Z.log2_double by lia. lia.
Qed.

Lemma digits_shift p k : 0 < p -> 0 <= k -> digits (p * 2 ^ k) = digits p + k.
Proof. intros Hp Hk. unfold digits. rewrite Z.log2_mul_pow2 by lia. lia. Qed.

Lemma digits_bounds p : 0 < p < 2 ^ 53 -> 1 <= digits p <= 53.
Proof.
  intros Hp. unfold digits. pose proof (Z.log2_nonneg p). pose proof (proj1 (Z.log2_lt_pow2 p 53 ltac:(lia)) ltac:(lia)). lia.
Qed.

Lemma shl_iter m d : Z.pos (Pos.iter xO m d) = Z.pos m * 2 ^ Z.pos d.
Proof.
  induction d as [|d IH] using Pos.peano_ind; [cbn; lia|].
  rewrite Pos.iter_succ, Pos2Z.inj_xO, IH, Pos2Z.inj_succ, Z.pow_succ_r by lia. lia.
Qed.

Lemma iter_pos_iter {A} (f : A -> A) n x : iter_pos f n x = Nat.iter (Pos.to_nat n) f x.
Proof.
  revert x. induction n as [n IH|n IH|]; intros x; cbn [iter_pos]; [| |done].
  - rewrite !IH. replace (Pos.to_nat n~1) with (Pos.to_nat n + (Pos.to_nat n + 1))%nat by lia.
    by rewrite !Nat.iter_add.
  - rewrite !IH. replace (Pos.to_nat n~0) with (Pos.to_nat n + Pos.to_nat n)%nat by lia. by rewrite Nat.iter_add.
Qed.

Lemma shr_iter n p : 0 < p ->
  Nat.iter n shr_1 (Build_shr_record (p * 2 ^ Z.of_nat n) false false) = Build_shr_record p false false.
Proof.
  intros Hp. induction n as [|n IH]; [by rewrite Z.mul_1_r|].
  rewrite Nat.iter_succ_r, Nat2Z.inj_succ, Z.pow_succ_r by lia.
  assert (Hq : 0 < p * 2 ^ Z.of_nat n) by (apply Z.mul_pos_pos; [done|apply Z.pow_pos_nonneg; lia]).
  replace (p * (2 * 2 ^ Z.of_nat n)) with (2 * (p * 2 ^ Z.of_nat n)) by lia.
  by destruct (p * 2 ^ Z.of_nat n) eqn:E; try lia.
Qed.

Lemma shr_exact p e n :
  0 < p -> 0 <= n -> shr (Build_shr_record (p * 2 ^ n) false false) e n = (Build_shr_record p false false, e + n).
Proof.
  intros Hp Hn. destruct n as [|n|n]; [by rewrite Z.mul_1_r, Z.add_0_r| |done].
  unfold shr. f_equal. rewrite iter_pos_iter. rewrite <- (positive_nat_Z n). by apply shr_iter.
Qed.

Lemma fexp_small d : 1 <= d <= 53 -> fexp 53 1024 d = d - 53.
Proof. unfold fexp, emin. lia. Qed.

(** A number that has its digits in front of zeros is rounded to itself. *)
Lemma round_exact s p k :
  0 < p < 2 ^ 53 -> 0 <= k -> 53 <= digits p + k ->
  binary_round_aux 53 1024 s (p * 2 ^ k) (- k) loc_Exact = whole s p.
Proof.
  intros Hp Hk Hd. pose proof (digits_bounds p Hp) as Hb.
  assert (Hm : 0 < p * 2 ^ (53 - digits p)) by (apply Z.mul_pos_pos; [lia|apply Z.pow_pos_nonneg; lia]).
  assert (Hz : forall q, 0 < q -> Zdigits2 q = digits q) by (intros [|q|q] Hq; [lia|apply digits2_log2|lia]).
  unfold binary_round_aux, shr_fexp. cbn [shr_record_of_loc].
  rewrite Hz, digits_shift by (lia || (apply Z.mul_pos_pos; [lia|apply Z.pow_pos_nonneg; lia])).
  replace (digits p + k + - k) with (digits p) by lia. rewrite fexp_small by done.
  replace (p * 2 ^ k) with (p * 2 ^ (53 - digits p) * 2 ^ (digits p - 53 - - k)).
  2: { rewrite <- Z.mul_assoc, <- Z.pow_add_r by lia. do 2 f_equal. lia. }
  rewrite shr_exact by lia. cbn [shr_m loc_of_shr_record round_nearest_even].
  replace (- k + (digits p - 53 - - k)) with (digits p - 53) by lia.
  rewrite Hz, digits_shift by lia. replace (digits p + (53 - digits p) + _) with (digits p) by lia.
  rewrite fexp_small, Z.sub_diag by done. cbn [shr shr_m].
  unfold whole. destruct (p * 2 ^ (53 - digits p)) as [|m|m] eqn:E; [lia| |lia].
  by rewrite (proj2 (Z.leb_le _ _)) by lia.
Qed.

Lemma binary_round_exact s p k q :
  0 < p < 2 ^ 53 -> 0 <= k -> Z.pos q = p * 2 ^ k -> binary_round 53 1024 s q (- k) = whole s p.
Proof.
  intros Hp Hk Hq. pose proof (digits_bounds p Hp) as Hb. unfold binary_round.
  rewrite digits2_log2, Hq, digits_shift by lia. replace (digits p + k + - k) with (digits p) by lia.
  rewrite fexp_small by done. unfold shl_align.
  destruct (digits p - 53 - - k) as [|n|n] eqn:En; [rewrite Hq; apply round_exact; lia..|].
  rewrite shl_iter, Hq, <- Z.mul_assoc, <- Z.pow_add_r by lia.
  replace (digits p - 53) with (- (53 - digits p)) by lia. replace (k + Z.pos n) with (53 - digits p) by lia.
  apply round_exact; lia.
Qed.

(** The canonical form of whole numbers of either sign. *)
Definition canonical (n : Z) : f64 :=
  match n with Z0 => S754_zero false | Zpos p => whole false (Zpos p) | Zneg p => whole true (Zpos p) end.

Definition exact (n : Z) : Prop := - 2 ^ 53 < n < 2 ^ 53.

Lemma normalize_exact n k :
  exact n -> 0 <= k -> binary_normalize 53 1024 (n * 2 ^ k) (- k) false = canonical n.
Proof.
  intros Hn Hk. pose proof (Z.pow_pos_nonneg 2 k ltac:(lia) Hk) as Hp. unfold exact in Hn. destruct n as [|n|n]; [done|..].
  - destruct (Z.pos n * 2 ^ k) as [|q|q] eqn:E; [lia| |lia]. apply binary_round_exact; [lia|done|lia].
  - destruct (Z.neg n * 2 ^ k) as [|q|q] eqn:E; [lia|lia|]. apply binary_round_exact; [lia|done|lia].
Qed.

Lemma f64_of_exact n : exact n -> f64_of n = canonical n.
Proof. intros Hn. rewrite <- (normalize_exact n 0 Hn) by done. by rewrite Z.mul_1_r. Qed.

(** ** Arithmetic on them is exact *)

(** The mantissa with its sign is the number, shifted; it has all its digits. *)
Lemma canonical_parts n :
  exact n -> n <> 0 ->
  exists s m j, canonical n = S754_finite s m (- j) /\ 0 <= j <= 52 /\ cond_Zopp s (Z.pos m) = n * 2 ^ j /\
    2 ^ 52 <= Z.pos m /\ s = (n <? 0).
Proof.
  assert (Hw : forall p, exact (Z.pos p) -> exists m, Z.pos m = Z.pos p * 2 ^ (53 - digits (Z.pos p)) /\ 2 ^ 52 <= Z.pos m /\
    0 <= 53 - digits (Z.pos p) <= 52 /\ forall s, whole s (Z.pos p) = S754_finite s m (- (53 - digits (Z.pos p)))).
  { intros p Hp. unfold exact in Hp. pose proof (digits_bounds (Z.pos p) ltac:(lia)) as Hb.
    assert (Hm : 2 ^ 52 <= Z.pos p * 2 ^ (53 - digits (Z.pos p))).
    { pose proof (proj1 (Z.log2_spec (Z.pos p) ltac:(lia))) as Hl.
      replace (2 ^ 52) with (2 ^ Z.log2 (Z.pos p) * 2 ^ (53 - digits (Z.pos p))); [apply Z.mul_le_mono_nonneg_r; lia|].
      unfold digits in *. rewrite <- Z.pow_add_r by lia. f_equal. lia. }
    exists (Z.to_pos (Z.pos p * 2 ^ (53 - digits (Z.pos p)))). rewrite Z2Pos.id by lia. split_and!; [lia..|].
    intros s. unfold whole. f_equal. lia. }
  intros Hn H0. destruct n as [|p|p]; [done|..]; cbn [canonical].
  - destruct (Hw p Hn) as (m & Em & Hm & Hj & Ew). exists false, m, (53 - digits (Z.pos p)). by rewrite Ew.
  - destruct (Hw p ltac:(unfold exact in *; lia)) as (m & Em & Hm & Hj & Ew). exists true, m, (53 - digits (Z.pos p)).
    rewrite Ew. cbn [cond_Zopp]. split_and!; [done|lia..|done].
Qed.

Lemma align_parts s m j k n :
  cond_Zopp s (Z.pos m) = n * 2 ^ j -> 0 <= j <= k ->
  cond_Zopp s (Z.pos (fst (shl_align m (- j) (- k)))) = n * 2 ^ k.
Proof.
  intros E Hj.
  assert (Ha : Z.pos (fst (shl_align m (- j) (- k))) = Z.pos m * 2 ^ (k - j)).
  { unfold shl_align. destruct (- k - - j) as [|d|d] eqn:Ed; [|lia|].
    - replace (k - j) with 0 by lia. cbn [fst]. lia.
    - cbn [fst]. rewrite shl_iter. do 2 f_equal. lia. }
  rewrite Ha. replace (n * 2 ^ k) with (n * 2 ^ j * 2 ^ (k - j)).
  - rewrite <- E. destruct s; cbn [cond_Zopp]; lia.
  - rewrite <- Z.mul_assoc, <- Z.pow_add_r by lia. do 2 f_equal. lia.
Qed.

Lemma f64_add_exact a b : exact a -> exact b -> exact (a + b) -> f64_add (f64_of a) (f64_of b) = f64_of (a + b).
Proof.
  intros Ha Hb Hab. rewrite !f64_of_exact by done.
  destruct (decide (a = 0)) as [->|Na]; [|destruct (decide (b = 0)) as [->|Nb]].
  - destruct (decide (b = 0)) as [->|Nb]; [done|]. destruct (canonical_parts b Hb Nb) as (s & m & j & E & _).
    rewrite Z.add_0_l, E. done.
  - destruct (canonical_parts a Ha Na) as (s & m & j & E & _). rewrite Z.add_0_r, E. done.
  - destruct (canonical_parts a Ha Na) as (s1 & m1 & j1 & E1 & H1 & P1 & _).
    destruct (canonical_parts b Hb Nb) as (s2 & m2 & j2 & E2 & H2 & P2 & _). rewrite E1, E2. cbn [f64_add SFadd].
    unfold f64_add. cbn [SFadd]. replace (Z.min (- j1) (- j2)) with (- Z.max j1 j2) by lia.
    rewrite (align_parts _ _ _ _ _ P1), (align_parts _ _ _ _ _ P2) by lia. rewrite <- Z.mul_add_distr_r.
    apply normalize_exact; [done|lia].
Qed.

Lemma f64_sub_exact a b : exact a -> exact b -> exact (a - b) -> f64_sub (f64_of a) (f64_of b) = f64_of (a - b).
Proof.
  intros Ha Hb Hab. rewrite !f64_of_exact by done.
  destruct (decide (b = 0)) as [->|Nb]; [|destruct (decide (a = 0)) as [->|Na]].
  - rewrite Z.sub_0_r. destruct (decide (a = 0)) as [->|Na]; [done|].
    destruct (canonical_parts a Ha Na) as (s & m & j & E & _). by rewrite E.
  - by destruct b.
  - destruct (canonical_parts a Ha Na) as (s1 & m1 & j1 & E1 & H1 & P1 & _).
    destruct (canonical_parts b Hb Nb) as (s2 & m2 & j2 & E2 & H2 & P2 & _). rewrite E1, E2.
    unfold f64_sub. cbn [SFsub]. replace (Z.min (- j1) (- j2)) with (- Z.max j1 j2) by lia.
    rewrite (align_parts _ _ _ _ _ P1), (align_parts _ _ _ _ _ P2) by lia. rewrite <- Z.mul_sub_distr_r.
    apply normalize_exact; [done|lia].
Qed.

Lemma f64_mul_exact a b : 0 <= a -> 0 <= b -> exact a -> exact b -> exact (a * b) -> f64_mul (f64_of a) (f64_of b) = f64_of (a * b).
Proof.
  intros Pa Pb Ha Hb Hab. rewrite !f64_of_exact by done.
  destruct (decide (a = 0)) as [->|Na]; [by destruct b|].
  destruct (decide (b = 0)) as [->|Nb]; [rewrite Z.mul_0_r; by destruct a|].
  destruct (canonical_parts a Ha Na) as (s1 & m1 & j1 & E1 & H1 & P1 & M1 & ->).
  destruct (canonical_parts b Hb Nb) as (s2 & m2 & j2 & E2 & H2 & P2 & M2 & ->). rewrite E1, E2.
  rewrite (proj2 (Z.ltb_ge a 0)) in * by lia. rewrite (proj2 (Z.ltb_ge b 0)) in * by lia. cbn [cond_Zopp] in P1, P2.
  unfold f64_mul. cbn [SFmul xorb].
  assert (Em : Z.pos (m1 * m2) = a * b * 2 ^ (j1 + j2)) by (rewrite Pos2Z.inj_mul, P1, P2, Z.pow_add_r by lia; lia).
  assert (Hp : 0 < a * b) by (apply Z.mul_pos_pos; lia).
  rewrite Em. replace (- j1 + - j2) with (- (j1 + j2)) by lia. rewrite round_exact.
  - by destruct (a * b).
  - unfold exact in Hab. lia.
  - lia.
  - rewrite <- digits_shift, <- Em by lia. unfold digits.
    pose proof (Z.log2_le_mono (2 ^ 52) (Z.pos (m1 * m2)) ltac:(nia)) as Hl. rewrite Z.log2_pow2 in Hl by lia. lia.
Qed.

Lemma whole_compare s p q :
  0 < p < 2 ^ 53 -> 0 < q < 2 ^ 53 ->
  SFcompare (whole s p) (whole s q) = Some (if s then CompOpp (p ?= q) else p ?= q).
Proof.
  intros Hp Hq. pose proof (digits_bounds p Hp) as Dp. pose proof (digits_bounds q Hq) as Dq.
  assert (H : match digits p - 53 ?= digits q - 53 with
              | Lt => Lt | Gt => Gt
              | Eq => Pos.compare_cont Eq (Z.to_pos (p * 2 ^ (53 - digits p))) (Z.to_pos (q * 2 ^ (53 - digits q))) end = (p ?= q)).
  { destruct (Z.compare_spec (digits p - 53) (digits q - 53)) as [E|L|L].
    - assert (Ed : digits p = digits q) by lia. rewrite Ed. change (Pos.compare_cont Eq ?x ?y) with (Pos.compare x y).
      pose proof (Z.pow_pos_nonneg 2 (53 - digits q) ltac:(lia) ltac:(lia)) as Hk.
      rewrite Pos2Z.inj_compare, !Z2Pos.id by (apply Z.mul_pos_pos; lia). symmetry. apply Zmult_compare_compat_r. lia.
    - symmetry. apply Z.compare_lt_iff, (Z.log2_lt_cancel p q). unfold digits in L. lia.
    - symmetry. apply Z.compare_gt_iff, (Z.log2_lt_cancel q p). unfold digits in L. lia. }
  unfold whole. cbn [SFcompare]. rewrite <- H. by destruct s, (digits p - 53 ?= digits q - 53).
Qed.

Lemma f64_compare_exact a b : exact a -> exact b -> SFcompare (f64_of a) (f64_of b) = Some (a ?= b).
Proof.
  intros Ha Hb. rewrite !f64_of_exact by done. unfold exact in *.
  destruct a as [|a|a], b as [|b|b]; try done; cbn [canonical]; by rewrite whole_compare by lia.
Qed.

Lemma f64_lt_exact a b : exact a -> exact b -> f64_lt (f64_of a) (f64_of b) = (a <? b).
Proof. intros Ha Hb. unfold f64_lt, SFltb. rewrite f64_compare_exact by done. by unfold Z.ltb; destruct (a ?= b). Qed.

Lemma f64_le_exact a b : exact a -> exact b -> f64_le (f64_of a) (f64_of b) = (a <=? b).
Proof. intros Ha Hb. unfold f64_le, SFleb. rewrite f64_compare_exact by done. by unfold Z.leb; destruct (a ?= b). Qed.

Lemma f64_of_number n : exact n -> f64_of n <> S754_nan.
Proof. intros Hn. rewrite f64_of_exact by done. by destruct n. Qed.

Lemma f64_min_exact a b : exact a -> exact b -> f64_min (f64_of a) (f64_of b) = f64_of (Z.min a b).
Proof.
  intros Ha Hb. pose proof (f64_of_number a Ha) as Na. pose proof (f64_of_number b Hb) as Nb.
  assert (E : f64_min (f64_of a) (f64_of b) = if f64_lt (f64_of b) (f64_of a) then f64_of b else f64_of a).
  { unfold f64_min. by destruct (f64_of a), (f64_of b). }
  rewrite E, f64_lt_exact by done. destruct (Z.ltb_spec b a); f_equal; lia.
Qed.

(** Whole seconds. *)
Lemma as_secs_exact d : 0 <= d < 2 ^ 53 -> as_secs_f64 (d * 1000000000) = f64_of d.
Proof.
  intros Hd. unfold as_secs_f64. rewrite Z.div_mul, Z.mod_mul by lia.
  change (f64_div (f64_of 0) (f64_of 1000000000)) with (f64_of 0). rewrite f64_add_exact, Z.add_0_r by (unfold exact; lia). done.
Qed.
