(* ===== verification/RateLimiter.v ===== *)
(** * Rate limiting ([export_manager.rs])

    The token buckets of an export's quality of service. Tokens are [f64]s ([F64]); an
    [Instant] is a number of nanoseconds, an argument of the methods that read the clock. *)

From S2P Require Import Prelude F64.
From stdpp Require Import base numbers list.
From Stdlib Require Import ZArith Lia SpecFloat.
#[local] Open Scope Z_scope.

Record QosConfig : Type := MkQosConfig { max_ops_per_sec : Z; max_bytes_per_sec : Z }.

Record RateLimiter : Type := MkRateLimiter {
  ops_tokens : f64;
  bytes_tokens : f64;
  last_refill : Z;
  qos_config : QosConfig
}.

Definition RateLimiter_new (now : Z) (config : QosConfig) : RateLimiter :=
  MkRateLimiter (f64_of (max_ops_per_sec config)) (f64_of (max_bytes_per_sec config)) now config.

(** One bucket: unlimited ones are left alone. *)
Definition refill_bucket (elapsed : f64) (limit : Z) (tokens : f64) : f64 :=
  if 0 <? limit then
    let tokens := f64_add tokens (f64_mul elapsed (f64_of limit)) in
    if f64_lt (f64_of limit) tokens then f64_of limit else tokens
  else tokens.

Definition refill (now : Z) (rl : RateLimiter) : RateLimiter :=
  let elapsed := as_secs_f64 (Z.max 0 (now - last_refill rl)) in
  MkRateLimiter (refill_bucket elapsed (max_ops_per_sec (qos_config rl)) (ops_tokens rl))
    (refill_bucket elapsed (max_bytes_per_sec (qos_config rl)) (bytes_tokens rl)) now (qos_config rl).

Definition set_ops_tokens (rl : RateLimiter) (t : f64) : RateLimiter :=
  MkRateLimiter t (bytes_tokens rl) (last_refill rl) (qos_config rl).
Definition set_bytes_tokens (rl : RateLimiter) (t : f64) : RateLimiter :=
  MkRateLimiter (ops_tokens rl) t (last_refill rl) (qos_config rl).

Definition try_consume_op (now : Z) (rl : RateLimiter) : bool * RateLimiter :=
  if max_ops_per_sec (qos_config rl) =? 0 then (true, rl) else
  let rl := refill now rl in
  if f64_le (f64_of 1) (ops_tokens rl) then (true, set_ops_tokens rl (f64_sub (ops_tokens rl) (f64_of 1)))
  else (false, rl).

Definition try_consume_bytes (now bytes : Z) (rl : RateLimiter) : bool * RateLimiter :=
  if max_bytes_per_sec (qos_config rl) =? 0 then (true, rl) else
  let rl := refill now rl in
  let needed := f64_of bytes in
  if f64_le needed (bytes_tokens rl) then (true, set_bytes_tokens rl (f64_sub (bytes_tokens rl) needed))
  else (false, rl).

Definition try_consume (now bytes : Z) (rl : RateLimiter) : bool * RateLimiter :=
  let ops_limited := 0 <? max_ops_per_sec (qos_config rl) in
  let bytes_limited := (0 <? max_bytes_per_sec (qos_config rl)) && (0 <? bytes) in
  if negb ops_limited && negb bytes_limited then (true, rl) else
  let rl := refill now rl in
  if ops_limited && f64_lt (ops_tokens rl) (f64_of 1) then (false, rl) else
  let needed := f64_of bytes in
  let capacity := f64_of (max_bytes_per_sec (qos_config rl)) in
  if bytes_limited && f64_lt (bytes_tokens rl) (f64_min needed capacity) then (false, rl) else
  let rl := if bytes_limited then set_bytes_tokens rl (f64_sub (bytes_tokens rl) needed) else rl in
  (true, if ops_limited then set_ops_tokens rl (f64_sub (ops_tokens rl) (f64_of 1)) else rl).

Definition qos_update_config (now : Z) (config : QosConfig) (rl : RateLimiter) : RateLimiter :=
  let old := qos_config rl in
  MkRateLimiter
    (if max_ops_per_sec config =? max_ops_per_sec old then ops_tokens rl else f64_of (max_ops_per_sec config))
    (if max_bytes_per_sec config =? max_bytes_per_sec old then bytes_tokens rl else f64_of (max_bytes_per_sec config))
    now config.

(** ** Whole tokens

    With limits and sizes below 2^32 the tokens are whole numbers at whole seconds, and
    the buckets count exactly. *)

Definition sec : Z := 1000000000.

Definition small (n : Z) : Prop := 0 <= n < 2 ^ 32.
Definition small_config (c : QosConfig) : Prop := small (max_ops_per_sec c) /\ small (max_bytes_per_sec c).

(** [o] and [b] tokens at second [s]; the debt of bytes is below 2^32. *)
Definition holds_tokens (t0 : Z) (c : QosConfig) (rl : RateLimiter) (o b s : Z) : Prop :=
  rl = MkRateLimiter (f64_of o) (f64_of b) (t0 + s * sec) c /\
  0 <= o <= max_ops_per_sec c /\ - 2 ^ 32 < b <= max_bytes_per_sec c.

Lemma refill_bucket_exact limit d n :
  small limit -> - 2 ^ 32 < n <= limit -> 0 <= d <= 2 ^ 20 ->
  refill_bucket (f64_of d) limit (f64_of n) = f64_of (if 0 <? limit then Z.min limit (n + d * limit) else n).
Proof.
  intros Hl Hn Hd. unfold small in Hl. unfold refill_bucket. destruct (Z.ltb_spec 0 limit) as [H|H]; [|done].
  assert (0 <= d * limit <= 2 ^ 20 * 2 ^ 32) by nia.
  rewrite f64_mul_exact, f64_add_exact, f64_lt_exact by (unfold exact; lia).
  destruct (Z.ltb_spec limit (n + d * limit)); f_equal; lia.
Qed.

Definition refilled (limit d n : Z) : Z := if 0 <? limit then Z.min limit (n + d * limit) else n.

Lemma refill_exact t0 c rl o b s d :
  small_config c -> holds_tokens t0 c rl o b s -> 0 <= d <= 2 ^ 20 ->
  holds_tokens t0 c (refill (t0 + (s + d) * sec) rl) (refilled (max_ops_per_sec c) d o)
    (refilled (max_bytes_per_sec c) d b) (s + d).
Proof.
  intros [Ho Hb] (-> & Io & Ib) Hd. unfold small in *. split.
  - unfold refill. cbn [last_refill qos_config ops_tokens bytes_tokens].
    replace (Z.max 0 _) with (d * 1000000000) by (unfold sec; lia). rewrite as_secs_exact by lia.
    by rewrite !refill_bucket_exact by (done || lia).
  - unfold refilled. assert (0 <= d * max_ops_per_sec c /\ 0 <= d * max_bytes_per_sec c) by nia.
    split; case_match; lia.
Qed.

(** What a request takes of a bucket. *)
Definition takes (limit n : Z) : Z := if 0 <? limit then n else 0.

Lemma refilled_now limit n : n <= limit -> refilled limit 0 n = n.
Proof. intros H. unfold refilled. case_match; lia. Qed.

(** One request, [d] seconds after the last refill: the buckets are refilled, or not looked
    at when the request needs nothing limited. *)
Lemma try_consume_exact t0 c rl o b s d n :
  small_config c -> small n -> holds_tokens t0 c rl o b s -> 0 <= d <= 2 ^ 20 ->
  exists e, (e = d \/ e = 0 /\ takes (max_ops_per_sec c) 1 = 0 /\ takes (max_bytes_per_sec c) n = 0) /\
    let o1 := refilled (max_ops_per_sec c) e o in
    let b1 := refilled (max_bytes_per_sec c) e b in
    match try_consume (t0 + (s + d) * sec) n rl with
    | (true, rl') =>
      (max_ops_per_sec c = 0 \/ 1 <= o1) /\ (max_bytes_per_sec c = 0 \/ n = 0 \/ Z.min n (max_bytes_per_sec c) <= b1) /\
      holds_tokens t0 c rl' (o1 - takes (max_ops_per_sec c) 1) (b1 - takes (max_bytes_per_sec c) n) (s + e)
    | (false, rl') =>
      e = d /\ (0 < max_ops_per_sec c /\ o1 < 1 \/ 0 < max_bytes_per_sec c /\ b1 < Z.min n (max_bytes_per_sec c)) /\
      holds_tokens t0 c rl' o1 b1 (s + e)
    end.
Proof.
  intros Hc Hn Hh Hd. pose proof (refill_exact t0 c rl o b s d Hc Hh Hd) as Hr.
  destruct Hc as [Ho Hb]. unfold small in *. destruct Hh as (-> & Io & Ib).
  unfold try_consume. cbn [qos_config]. set (rl1 := refill _ _) in *.
  set (ol := 0 <? max_ops_per_sec c) in *. set (bl := (0 <? max_bytes_per_sec c) && (0 <? n)) in *.
  destruct (negb ol && negb bl) eqn:El.
  { exists 0. cbv zeta. rewrite !refilled_now, Z.add_0_r by lia. unfold takes. fold ol.
    apply andb_true_iff in El as [Hol%negb_true_iff Hbl%negb_true_iff]. unfold ol in *. rewrite Hol.
    unfold bl in Hbl. destruct (Z.ltb_spec 0 (max_ops_per_sec c)) as [|Ho0]; [lia|].
    destruct (Z.ltb_spec 0 (max_bytes_per_sec c)) as [H0|H0]; cbn [andb] in Hbl.
    - apply Z.ltb_ge in Hbl. replace n with 0 by lia. rewrite !Z.sub_0_r. split_and!; [by right|lia|lia|done].
    - rewrite !Z.sub_0_r. split_and!; [by right|lia|lia|done]. }
  exists d. split; [by left|]. cbv zeta. set (o1 := refilled _ d o) in *. set (b1 := refilled _ d b) in *.
  destruct Hr as (Er & Io1 & Ib1). rewrite Er. cbn [ops_tokens bytes_tokens qos_config].
  rewrite f64_min_exact, !f64_lt_exact by (unfold exact; lia).
  destruct (ol && (o1 <? 1)) eqn:E1.
  { apply andb_true_iff in E1 as [Hol%Z.ltb_lt E1%Z.ltb_lt]. split; [done|]. split; [by left|done]. }
  destruct (bl && (b1 <? Z.min n (max_bytes_per_sec c))) eqn:E2.
  { apply andb_true_iff in E2 as [[Hbl%Z.ltb_lt _]%andb_true_iff E2%Z.ltb_lt]. split; [done|]. split; [by right|done]. }
  assert (C1 : max_ops_per_sec c = 0 \/ 1 <= o1).
  { unfold ol in E1. destruct (Z.ltb_spec 0 (max_ops_per_sec c)); [|lia]. apply Z.ltb_ge in E1. lia. }
  assert (C2 : max_bytes_per_sec c = 0 \/ n = 0 \/ Z.min n (max_bytes_per_sec c) <= b1).
  { unfold bl in E2. destruct (Z.ltb_spec 0 (max_bytes_per_sec c)), (Z.ltb_spec 0 n); lia. }
  split; [done|]. split; [done|]. unfold bl, ol in *. clear bl ol rl1 Er El E1 E2. split; [|split].
  - unfold set_bytes_tokens, set_ops_tokens, takes.
    destruct (Z.ltb_spec 0 (max_ops_per_sec c)), (Z.ltb_spec 0 (max_bytes_per_sec c)), (Z.ltb_spec 0 n);
      cbn [andb ops_tokens bytes_tokens last_refill qos_config];
      rewrite ?f64_sub_exact, ?Z.sub_0_r by (unfold exact; lia); try done.
    all: by replace n with 0 by lia; rewrite ?Z.sub_0_r.
  - unfold takes. destruct (Z.ltb_spec 0 (max_ops_per_sec c)); lia.
  - unfold takes. destruct (Z.ltb_spec 0 (max_bytes_per_sec c)); lia.
Qed.

(** ** Requests over time *)

(** The operations and the bytes that a sequence of requests, each its time and its size,
    was granted. *)
Fixpoint serve_requests (rl : RateLimiter) (l : list (Z * Z)) : Z * Z * RateLimiter :=
  match l with
  | [] => (0, 0, rl)
  | (now, n) :: l =>
    let '(ok, rl) := try_consume now n rl in
    let '(ops, bytes, rl) := serve_requests rl l in
    if ok then (ops + 1, bytes + n, rl) else (ops, bytes, rl)
  end.

(** Requests of at most [B] bytes from second [s] to second [T] after [t0], in order. *)
Fixpoint schedule (t0 T B s : Z) (l : list (Z * Z)) : Prop :=
  match l with
  | [] => True
  | (now, n) :: l => 0 <= n <= B /\ exists s', now = t0 + s' * sec /\ s <= s' <= T /\ schedule t0 T B s' l
  end.

(** The tokens of a bucket, [n] at second [s], when it is refilled at second [s0]. *)
Definition tokens_at (limit n s s0 : Z) : Z := Z.min limit (n + limit * (s0 - s)).

(** One request at second [s1] against one bucket that starts with the tokens [n]: what it
    is granted, [g], comes out of the bucket. *)
Lemma tokens_after limit n s s1 e g :
  0 < limit -> n <= limit -> (e = s1 - s \/ e = 0 /\ g = 0) -> tokens_at limit (refilled limit e n - g) (s + e) s1 <= tokens_at limit n s s1 - g.
Proof.
  intros Hl Hn He. unfold tokens_at, refilled. rewrite (proj2 (Z.ltb_lt 0 limit) Hl).
  destruct He as [->|[-> ->]]; [|rewrite Z.mul_0_l, !Z.add_0_r, Z.sub_0_r; lia].
  rewrite (Z.mul_comm (s1 - s)). replace (s1 - (s + (s1 - s))) with 0 by lia. lia.
Qed.

Lemma tokens_later limit n s s0 s1 : 0 <= limit -> s0 <= s1 -> tokens_at limit n s s1 <= tokens_at limit n s s0 + limit * (s1 - s0).
Proof. unfold tokens_at. nia. Qed.

Lemma serve_requests_bounds t0 T B c l : forall rl o b s s0,
  small_config c -> small B -> 0 <= T <= 2 ^ 20 -> 0 <= s <= s0 -> s0 <= T ->
  holds_tokens t0 c rl o b s -> (max_bytes_per_sec c = 0 \/ Z.min 0 (max_bytes_per_sec c - B) <= b) ->
  schedule t0 T B s0 l ->
  exists o' b' s', s <= s' <= T /\
    let '(ops, bytes, rl') := serve_requests rl l in
    holds_tokens t0 c rl' o' b' s' /\ (max_bytes_per_sec c = 0 \/ Z.min 0 (max_bytes_per_sec c - B) <= b') /\
    (0 < max_ops_per_sec c ->
      ops + tokens_at (max_ops_per_sec c) o' s' T <= tokens_at (max_ops_per_sec c) o s s0 + max_ops_per_sec c * (T - s0)) /\
    (0 < max_bytes_per_sec c ->
      bytes + tokens_at (max_bytes_per_sec c) b' s' T <= tokens_at (max_bytes_per_sec c) b s s0 + max_bytes_per_sec c * (T - s0)).
Proof.
  induction l as [|[now n] l IH]; intros rl o b s s0 Hc HB HT Hs Hs0 Hh Hb Hl; cbn [serve_requests].
  { exists o, b, s. split; [lia|]. split; [done|]. split; [done|]. split; intros; apply tokens_later; lia. }
  destruct Hl as (Hn & s1 & -> & [Hs1 HsT] & Hl). pose proof HB as HB'. unfold small in HB'.
  destruct (try_consume_exact t0 c rl o b s (s1 - s) n Hc ltac:(unfold small; lia) Hh ltac:(lia)) as (e & He & Ht).
  replace (s + (s1 - s)) with s1 in Ht by lia. cbv zeta in Ht. destruct Hh as (_ & Io & Ib).
  set (o1 := refilled (max_ops_per_sec c) e o) in *. set (b1 := refilled (max_bytes_per_sec c) e b) in *.
  assert (Hb1 : 0 < max_bytes_per_sec c -> b <= b1).
  { unfold b1, refilled. intros H. rewrite (proj2 (Z.ltb_lt 0 _) H). destruct Hc as [_ [Hc _]]. nia. }
  assert (Hd : max_bytes_per_sec c = 0 \/ Z.min 0 (max_bytes_per_sec c - B) <= b1).
  { destruct Hc as [_ [Hc _]]. destruct (Z.eq_dec (max_bytes_per_sec c) 0) as [|H]; [by left|]. specialize (Hb1 ltac:(lia)). lia. }
  assert (To : forall g, 0 < max_ops_per_sec c -> (e = s1 - s \/ e = 0 /\ g = 0) ->
      g + tokens_at (max_ops_per_sec c) (o1 - g) (s + e) s1 <= tokens_at (max_ops_per_sec c) o s s0 + max_ops_per_sec c * (s1 - s0)).
  { intros g H Hg. pose proof (tokens_after _ o s s1 e g H ltac:(lia) Hg) as Ha. pose proof (tokens_later (max_ops_per_sec c) o s s0 s1 ltac:(lia) Hs1) as Hlater.
    fold o1 in Ha. lia. }
  assert (Tb : forall g, 0 < max_bytes_per_sec c -> (e = s1 - s \/ e = 0 /\ g = 0) ->
      g + tokens_at (max_bytes_per_sec c) (b1 - g) (s + e) s1 <= tokens_at (max_bytes_per_sec c) b s s0 + max_bytes_per_sec c * (s1 - s0)).
  { intros g H Hg. pose proof (tokens_after _ b s s1 e g H ltac:(lia) Hg) as Ha. pose proof (tokens_later (max_bytes_per_sec c) b s s0 s1 ltac:(lia) Hs1) as Hlater.
    fold b1 in Ha. lia. }
  destruct (try_consume _ n rl) as [[|] rl1].
  - destruct Ht as (C1 & C2 & Hh1).
    destruct (IH rl1 _ _ (s + e) s1 Hc HB HT ltac:(lia) ltac:(lia) Hh1) as (o' & b' & s' & Hs' & IH'); [|done|].
    { unfold takes. destruct (Z.ltb_spec 0 (max_bytes_per_sec c)) as [H|H]; [specialize (Hb1 H)|]; lia. }
    exists o', b', s'. split; [lia|]. destruct (serve_requests rl1 l) as [[ops bytes] rl2].
    destruct IH' as (Hh2 & Hb2 & Gops & Gbytes). split; [done|]. split; [done|]. unfold takes in *. split; intros H.
    + specialize (Gops H). rewrite (proj2 (Z.ltb_lt 0 (max_ops_per_sec c)) H) in *. specialize (To 1 H). lia.
    + specialize (Gbytes H). rewrite (proj2 (Z.ltb_lt 0 (max_bytes_per_sec c)) H) in *. specialize (Tb n H). lia.
  - destruct Ht as (He' & _ & Hh1).
    destruct (IH rl1 _ _ (s + e) s1 Hc HB HT ltac:(lia) ltac:(lia) Hh1 Hd Hl) as (o' & b' & s' & Hs' & IH').
    exists o', b', s'. split; [lia|]. destruct (serve_requests rl1 l) as [[ops bytes] rl2].
    destruct IH' as (Hh2 & Hb2 & Gops & Gbytes). split; [done|]. split; [done|]. split; intros H.
    + specialize (Gops H). specialize (To 0 H ltac:(by left)). rewrite Z.sub_0_r in To. lia.
    + specialize (Gbytes H). specialize (Tb 0 H ltac:(by left)). rewrite Z.sub_0_r in Tb. lia.
Qed.

Lemma new_holds t0 c : small_config c -> holds_tokens t0 c (RateLimiter_new t0 c) (max_ops_per_sec c) (max_bytes_per_sec c) 0.
Proof.
  intros [Ho Hb]. unfold small in *. split; [|lia]. unfold RateLimiter_new. f_equal. lia.
Qed.

(** C39: A limiter holds what its configuration says, over requests at whole seconds for up
    to twelve days: in any [T] seconds, whatever came before, it grants at most
    [max_ops_per_sec] operations at once and as many again per second; and, where no request
    is larger than [B], [max_bytes_per_sec] bytes per second beyond the larger of [B] and one
    second's bytes. A second after the last request the next one passes, whatever was
    granted before, unless bytes are limited to less than [B] per second; then it passes
    when its limit adds up to [B]. *)
Theorem rate_limit_holds t0 S T B c before during w n :
  small_config c -> small B -> 0 <= S -> 0 <= T -> 0 < w -> S + T + w <= 2 ^ 20 ->
  schedule t0 S B 0 before -> schedule t0 (S + T) B S during ->
  let '(ops, bytes, rl) := serve_requests (serve_requests (RateLimiter_new t0 c) before).2 during in
  (0 < max_ops_per_sec c -> ops <= max_ops_per_sec c * (1 + T)) /\
  (0 < max_bytes_per_sec c -> bytes <= max_bytes_per_sec c * T + Z.max B (max_bytes_per_sec c)) /\
  (0 <= n <= B -> (max_bytes_per_sec c = 0 \/ Z.max B (max_bytes_per_sec c) <= w * max_bytes_per_sec c) ->
   (try_consume (t0 + (S + T + w) * sec) n rl).1 = true).
Proof.
  intros Hc HB HS HT Hw HTw Hl1 Hl2. pose proof Hc as [Ho Hb]. unfold small in Ho, Hb, HB.
  destruct (serve_requests_bounds t0 S B c before _ _ _ 0 0 Hc HB ltac:(lia) ltac:(lia) ltac:(lia) (new_holds t0 c Hc) ltac:(lia) Hl1)
    as (o0 & b0 & s0 & Hs0 & Hr).
  destruct (serve_requests _ before) as [[ops0 bytes0] rl0]. destruct Hr as (Hh0 & Hd0 & _). cbn [snd].
  destruct (serve_requests_bounds t0 (S + T) B c during _ o0 b0 s0 S Hc HB ltac:(lia) ltac:(lia) ltac:(lia) Hh0 Hd0 Hl2)
    as (o & b & s & Hs & Hr).
  destruct (serve_requests rl0 during) as [[ops bytes] rl]. destruct Hr as (Hh & Hd & Gops & Gbytes).
  pose proof Hh as (_ & Io & Ib). unfold tokens_at in *. split; [|split].
  - intros H. specialize (Gops H). nia.
  - intros H. specialize (Gbytes H). nia.
  - intros Hn Hlim.
    destruct (try_consume_exact t0 c rl o b s (S + T + w - s) n Hc ltac:(unfold small; lia) Hh ltac:(lia)) as (e & He & Ht).
    replace (s + (S + T + w - s)) with (S + T + w) in Ht by lia. destruct (try_consume _ n rl) as [[|] rl1]; [done|].
    assert (Hmul : forall m, 0 <= m -> w * m <= (S + T + w - s) * m) by (intros; apply Z.mul_le_mono_nonneg_r; lia).
    pose proof (Hmul (max_ops_per_sec c) ltac:(lia)). pose proof (Hmul (max_bytes_per_sec c) ltac:(lia)).
    assert (0 < max_ops_per_sec c -> 1 <= w * max_ops_per_sec c) by nia. clear Hmul Gops Gbytes Hl1 Hl2.
    destruct Ht as (-> & [[Hp Hq]|[Hp Hq]] & _); exfalso; revert Hq; unfold refilled; rewrite (proj2 (Z.ltb_lt 0 _) Hp); lia.
Qed.

(** Ten operations and a thousand bytes per second: a request of 5000 bytes passes on the
    full bucket and leaves a debt; seven seconds later it is paid. *)
Definition demo_qos : QosConfig := MkQosConfig 10 1000.
Definition demo_first : list (Z * Z) := [(7, 5000); (7, 1); (7, 0)].
Definition demo_later : list (Z * Z) := [(7 + 2 * sec, 800); (7 + 3 * sec, 0)].

Lemma rate_limit_holds_witness :
  let '(ops, bytes, rl) := serve_requests (serve_requests (RateLimiter_new 7 demo_qos) demo_first).2 demo_later in
  (0 < max_ops_per_sec demo_qos -> ops <= max_ops_per_sec demo_qos * (1 + 1)) /\
  (0 < max_bytes_per_sec demo_qos -> bytes <= max_bytes_per_sec demo_qos * 1 + Z.max 5000 (max_bytes_per_sec demo_qos)) /\
  (0 <= 5000 <= 5000 -> (max_bytes_per_sec demo_qos = 0 \/ Z.max 5000 (max_bytes_per_sec demo_qos) <= 5 * max_bytes_per_sec demo_qos) ->
   (try_consume (7 + (2 + 1 + 5) * sec) 5000 rl).1 = true).
Proof.
  apply rate_limit_holds; [by split|done..| |].
  - cbn [schedule demo_first]. split; [done|]. exists 0. split; [done|]. split; [done|]. split; [done|].
    exists 0. split; [done|]. split; [done|]. split; [done|]. exists 0. done.
  - cbn [schedule demo_later]. split; [done|]. exists 2. split; [done|]. split; [done|]. split; [done|]. exists 3. done.
Defined.

(** The tests of the source. *)
Example demo_answers :
  (serve_requests (RateLimiter_new 7 demo_qos) (demo_first ++ demo_later)).1 = (3, 5000) /\
  (serve_requests (RateLimiter_new 0 (MkQosConfig 10 0)) (replicate 11 (0, 0))).1 = (10, 0) /\
  (serve_requests (RateLimiter_new 0 (MkQosConfig 2 1000)) [(0, 1000); (0, 10); (0, 0); (0, 0)]).1 = (2, 1000).
Proof. vm_compute. done. Qed.
