(* ===== verification/Export.v ===== *)
(** * Exports ([export_manager.rs]): quotas, access control, the export table

    Atomics and locks hold one value each here: every method reads or updates it in one
    step. Parsing an IP address is the standard library's, an argument ([parse_ip]);
    the file system and the export's file manager are arguments of [add_export]. *)

From S2P Require Import Prelude NfsTypes F64 RateLimiter.
From stdpp Require Import base list gmap strings.
From Stdlib Require Import Strings.Byte ZArith Lia.
#[local] Open Scope Z_scope.

(** ** Quotas *)

Record QuotaConfig : Type := MkQuotaConfig { hard_limit_bytes : Z; soft_limit_bytes : Z }.
Record QuotaManager : Type := MkQuotaManager { quota_config : QuotaConfig; bytes_used : Z }.

Definition check_write (q : QuotaManager) (additional_bytes : Z) : bool :=
  if hard_limit_bytes (quota_config q) =? 0 then true
  else wrap 64 (bytes_used q + additional_bytes) <=? hard_limit_bytes (quota_config q).

Definition record_write (q : QuotaManager) (bytes : Z) : QuotaManager :=
  MkQuotaManager (quota_config q) (wrap 64 (bytes_used q + bytes)).

Definition record_free (q : QuotaManager) (bytes : Z) : QuotaManager :=
  MkQuotaManager (quota_config q) (wrap 64 (bytes_used q - Z.min bytes (bytes_used q))).

Definition quota_avail_hard (q : QuotaManager) : Z :=
  if hard_limit_bytes (quota_config q) =? 0 then umax 64
  else sat_sub (hard_limit_bytes (quota_config q)) (bytes_used q).

Definition quota_avail_soft (q : QuotaManager) : Z :=
  if soft_limit_bytes (quota_config q) =? 0 then umax 64
  else sat_sub (soft_limit_bytes (quota_config q)) (bytes_used q).

Definition quota_update_config (q : QuotaManager) (c : QuotaConfig) : QuotaManager :=
  MkQuotaManager c (bytes_used q).

(** ** Statistics *)

Record ExportStats : Type := MkExportStats {
  reads : Z; writes : Z; bytes_read : Z; bytes_written : Z; ops : Z
}.

Definition ExportStats_new : ExportStats := MkExportStats 0 0 0 0 0.

(** One READ or WRITE of [n] bytes; [fetch_add] wraps. *)
Definition count_read (s : ExportStats) (n : Z) : ExportStats :=
  MkExportStats (wrap 64 (reads s + 1)) (writes s) (wrap 64 (bytes_read s + n)) (bytes_written s) (ops s).
Definition count_write (s : ExportStats) (n : Z) : ExportStats :=
  MkExportStats (reads s) (wrap 64 (writes s + 1)) (bytes_read s) (wrap 64 (bytes_written s + n)) (ops s).

(** ** Access control *)

Inductive SquashMode : Type := SquashNone | RootSquash | AllSquash.
Inductive SecFlavor : Type := Sys | Krb5 | Krb5i | Krb5p.

#[export] Instance SecFlavor_eq_dec : EqDecision SecFlavor.
Proof. solve_decision. Defined.

Definition SecFlavor_parse (s : string) : option SecFlavor :=
  if bool_decide (s = "sys"%string) then Some Sys
  else if bool_decide (s = "krb5"%string) then Some Krb5
  else if bool_decide (s = "krb5i"%string) then Some Krb5i
  else if bool_decide (s = "krb5p"%string) then Some Krb5p
  else None.

Definition is_kerberos (f : SecFlavor) : bool := bool_decide (f <> Sys).

Definition from_gss_service (service : Z) : option SecFlavor :=
  match service with
  | 1 => Some Krb5
  | 2 => Some Krb5i
  | 3 => Some Krb5p
  | _ => None
  end.

Record AccessConfig : Type := MkAccessConfig {
  clients : list string;
  squash : SquashMode;
  anon_uid : Z;
  anon_gid : Z;
  sec : list SecFlavor
}.

Definition default_sec : list SecFlavor := [Sys].
Definition DEFAULT_ANON_ID : Z := 65534.
Definition default_access_config : AccessConfig :=
  MkAccessConfig [] RootSquash DEFAULT_ANON_ID DEFAULT_ANON_ID default_sec.

(** [IpAddr], as the number [u32::from]/[u128::from] gives. *)
Inductive IpAddr : Type := V4 (bits : Z) | V6 (bits : Z).

Record IpNetwork : Type := MkIpNetwork { addr : IpAddr; prefix_len : Z }.

(** [u32::MAX << (32 - prefix_len)]: the [u8] subtraction wraps, and a shift is taken
    modulo the width. *)
Definition prefix_mask (w p : Z) : Z := wrap w (Z.shiftl (umax w) (wrap 8 (w - p) mod w)).

Definition contains (net : IpNetwork) (ip : IpAddr) : bool :=
  let same w a b :=
    if prefix_len net =? 0 then true
    else let mask := prefix_mask w (prefix_len net) in Z.land a mask =? Z.land b mask in
  match addr net, ip with
  | V4 a, V4 b => same 32 a b
  | V6 a, V6 b => same 128 a b
  | _, _ => false
  end.

(** [str.parse] of an unsigned integer: an optional plus sign and digits, at most [max]. *)
Fixpoint parse_digits (max acc : Z) (s : string) : option Z :=
  match s with
  | String.EmptyString => Some acc
  | String.String a s' =>
    let d := Z.of_nat (Ascii.nat_of_ascii a) - 48 in
    if (0 <=? d) && (d <=? 9) && (acc * 10 + d <=? max) then parse_digits max (acc * 10 + d) s' else None
  end.

Definition parse_uint (max : Z) (s : string) : option Z :=
  match s with
  | String.EmptyString => None
  | String.String a s' =>
    if Ascii.eqb a (Ascii.ascii_of_nat 43)
    then match s' with String.EmptyString => None | _ => parse_digits max 0 s' end
    else parse_digits max 0 s
  end.

Fixpoint split_once (c : Ascii.ascii) (s : string) : option (string * string) :=
  match s with
  | String.EmptyString => None
  | String.String a s' =>
    if Ascii.eqb a c then Some (""%string, s')
    else '(l, r) ← split_once c s'; Some (String.String a l, r)
  end.

Record AccessControl : Type := MkAccessControl { access_config : AccessConfig; allowed : list IpNetwork }.

Section Clients.
(** [str.parse::<IpAddr>] and [str.parse::<SocketAddr>] (its address). *)
Variable parse_ip : string -> option IpAddr.
Variable parse_socket : string -> option IpAddr.

Definition IpNetwork_parse (s : string) : option IpNetwork :=
  match split_once (Ascii.ascii_of_nat 47) s with
  | Some (addr_str, prefix_str) =>
    addr ← parse_ip addr_str;
    prefix_len ← parse_uint (umax 8) prefix_str;
    Some (MkIpNetwork addr prefix_len)
  | None =>
    addr ← parse_ip s;
    Some (MkIpNetwork addr (match addr with V4 _ => 32 | V6 _ => 128 end))
  end.

Definition AccessControl_new (config : AccessConfig) : AccessControl :=
  MkAccessControl config (omap IpNetwork_parse (clients config)).

Definition access_update_config (_ : AccessControl) (config : AccessConfig) : AccessControl :=
  AccessControl_new config.

Definition check_client (ac : AccessControl) (client_addr : string) : bool :=
  match allowed ac with
  | [] => true
  | nets =>
    match (match parse_socket client_addr with Some ip => Some ip | None => parse_ip client_addr end) with
    | Some ip => existsb (fun net => contains net ip) nets
    | None => false
    end
  end.
End Clients.

Definition squash_uid (ac : AccessControl) (uid : Z) : Z :=
  match squash (access_config ac) with
  | SquashNone => uid
  | RootSquash => if uid =? 0 then anon_uid (access_config ac) else uid
  | AllSquash => anon_uid (access_config ac)
  end.

Definition squash_gid (ac : AccessControl) (gid : Z) : Z :=
  match squash (access_config ac) with
  | SquashNone => gid
  | RootSquash => if gid =? 0 then anon_gid (access_config ac) else gid
  | AllSquash => anon_gid (access_config ac)
  end.

Definition allows_flavor (ac : AccessControl) (f : SecFlavor) : bool :=
  match sec (access_config ac) with
  | [] => bool_decide (f = Sys)
  | l => bool_decide (f ∈ l)
  end.

Definition sec_flavors (ac : AccessControl) : list SecFlavor :=
  match sec (access_config ac) with [] => default_sec | l => l end.

Definition anon_ids (ac : AccessControl) : Z * Z :=
  (anon_uid (access_config ac), anon_gid (access_config ac)).

Definition map_with (squash : SquashMode) (anon_uid anon_gid uid gid : Z) (gids : list Z)
    : Z * Z * list Z :=
  match squash with
  | SquashNone => (uid, gid, gids)
  | RootSquash =>
    let g := fun g => if g =? 0 then anon_gid else g in
    (if uid =? 0 then anon_uid else uid, g gid, map g gids)
  | AllSquash => (anon_uid, anon_gid, [])
  end.

Definition map_ids (ac : AccessControl) (uid gid : Z) (gids : list Z) : Z * Z * list Z :=
  map_with (squash (access_config ac)) (anon_uid (access_config ac)) (anon_gid (access_config ac)) uid gid gids.

Definition default_map_ids (uid gid : Z) (gids : list Z) : Z * Z * list Z :=
  map_with RootSquash DEFAULT_ANON_ID DEFAULT_ANON_ID uid gid gids.

(** ** The export table *)

Inductive ExportError : Type :=
| AlreadyExists (name : string)
| TooManyExports
| NoSuchPath (path : string)
| NotADirectory (path : string)
| NotFound (name : string).

Section Table.
(** [canonicalize] and [is_dir] of the file system, and the file manager actor that
    [FileManagerHandle::new] spawns for an export. *)
Context {F : Type} (canonicalize : string -> option string) (is_dir : string -> bool)
        (spawn_manager : Z -> string -> F).

Record ExportInfo : Type := MkExportInfo {
  export_id : Z;
  name : string;
  export_path : string;
  read_only : bool;
  quota_manager : QuotaManager;
  access_control : AccessControl
}.

Record ExportState : Type := MkExportState { info : ExportInfo; file_manager : F }.

Record ExportManager : Type := MkExportManager {
  exports : gmap string ExportState;
  export_by_id : gmap Z string;
  next_export_id : Z
}.

Definition empty_exports : ExportManager := MkExportManager ∅ ∅ 1.

Definition add_export (em : ExportManager) (nm path : string) (ro : bool)
    : result ExportInfo ExportError * ExportManager :=
  match exports em !! nm with
  | Some _ => (Err (AlreadyExists nm), em)
  | None =>
    if 0xFE <=? next_export_id em then (Err TooManyExports, em) else
    match canonicalize path with
    | None => (Err (NoSuchPath path), em)
    | Some canonical =>
      if negb (is_dir canonical) then (Err (NotADirectory canonical), em) else
      let id := next_export_id em in
      let info := MkExportInfo id nm canonical ro (MkQuotaManager (MkQuotaConfig 0 0) 0)
                    (MkAccessControl default_access_config []) in
      (Ok info,
       MkExportManager (<[nm := MkExportState info (spawn_manager id canonical)]> (exports em))
                       (<[id := nm]> (export_by_id em)) (wrap 8 (id + 1)))
    end
  end.

Definition remove_export (em : ExportManager) (nm : string) : result unit ExportError * ExportManager :=
  match exports em !! nm with
  | Some state =>
    (Ok tt, MkExportManager (delete nm (exports em)) (delete (export_id (info state)) (export_by_id em))
              (next_export_id em))
  | None => (Err (NotFound nm), em)
  end.

Definition get_export_by_id (em : ExportManager) (id : Z) : option (ExportInfo * F) :=
  nm ← export_by_id em !! id;
  s ← exports em !! nm;
  Some (info s, file_manager s).

Definition get_export_by_name (em : ExportManager) (nm : string) : option (ExportInfo * F) :=
  s ← exports em !! nm;
  Some (info s, file_manager s).

Definition with_quota (s : ExportState) (c : QuotaConfig) : ExportState :=
  let i := info s in
  MkExportState (MkExportInfo (export_id i) (name i) (export_path i) (read_only i)
    (quota_update_config (quota_manager i) c) (access_control i)) (file_manager s).

Definition with_access (parse : string -> option IpAddr) (s : ExportState) (c : AccessConfig) : ExportState :=
  let i := info s in
  MkExportState (MkExportInfo (export_id i) (name i) (export_path i) (read_only i)
    (quota_manager i) (access_update_config parse (access_control i) c)) (file_manager s).

(** [SetQuota] and [SetAccess]. *)
Definition set_config (f : ExportState -> ExportState) (em : ExportManager) (nm : string)
    : result unit ExportError * ExportManager :=
  match exports em !! nm with
  | Some s => (Ok tt, MkExportManager (<[nm := f s]> (exports em)) (export_by_id em) (next_export_id em))
  | None => (Err (NotFound nm), em)
  end.

Variable parse_ip : string -> option IpAddr.

Inductive ExportManagerMessage : Type :=
| AddExport (nm path : string) (ro : bool)
| RemoveExport (nm : string)
| ListExports
| GetExportById (id : Z)
| GetExportByName (nm : string)
| SetQuota (nm : string) (c : QuotaConfig)
| GetQuota (nm : string)
| SetAccess (nm : string) (c : AccessConfig)
| GetAccess (nm : string)
| SetQos (nm : string) (c : QosConfig)
| GetQos (nm : string).

Inductive ExportReply : Type :=
| Added (r : result ExportInfo ExportError)
| Done (r : result unit ExportError)
| Listed (l : list ExportInfo)
| Found (r : option (ExportInfo * F))
| Quota (c : option QuotaConfig)
| Access (c : option AccessConfig)
| Qos (c : option QosConfig)
| AnsweredByTask.

(** An export's limiter is behind a lock that a handler can not wait for: [SetQos] and
    [GetQos] spawn a task that waits for it. [x] is the export whose limiter it is. *)
Inductive QosTask : Type :=
| UpdateQos (x : Z) (c : QosConfig)
| AnswerQos (x : Z).

Definition qos_task (em : ExportManager) (msg : ExportManagerMessage) : option QosTask :=
  match msg with
  | SetQos nm c => s ← exports em !! nm; Some (UpdateQos (export_id (info s)) c)
  | GetQos nm => s ← exports em !! nm; Some (AnswerQos (export_id (info s)))
  | _ => None
  end.

Definition export_handle_message (em : ExportManager) (msg : ExportManagerMessage) : ExportReply * ExportManager :=
  match msg with
  | AddExport nm path ro => let '(r, em') := add_export em nm path ro in (Added r, em')
  | RemoveExport nm => let '(r, em') := remove_export em nm in (Done r, em')
  | ListExports => (Listed (map (fun p => info p.2) (map_to_list (exports em))), em)
  | GetExportById id => (Found (get_export_by_id em id), em)
  | GetExportByName nm => (Found (get_export_by_name em nm), em)
  | SetQuota nm c => let '(r, em') := set_config (fun s => with_quota s c) em nm in (Done r, em')
  | GetQuota nm => (Quota (s ← exports em !! nm; Some (quota_config (quota_manager (info s)))), em)
  | SetAccess nm c => let '(r, em') := set_config (fun s => with_access parse_ip s c) em nm in (Done r, em')
  | GetAccess nm => (Access (s ← exports em !! nm; Some (access_config (access_control (info s)))), em)
  | SetQos nm c => (Done (match exports em !! nm with Some _ => Ok tt | None => Err (NotFound nm) end), em)
  | GetQos nm => (match exports em !! nm with Some _ => AnsweredByTask | None => Qos None end, em)
  end.

(** The actor's loop: the replies to a sequence of messages, and the table they leave. *)
Fixpoint run_export_manager (em : ExportManager) (msgs : list ExportManagerMessage)
    : list ExportReply * ExportManager :=
  match msgs with
  | [] => ([], em)
  | m :: ms =>
    let '(r, em1) := export_handle_message em m in
    let '(rs, em2) := run_export_manager em1 ms in (r :: rs, em2)
  end.
End Table.
Arguments ExportManager : clear implicits.
Arguments ExportState : clear implicits.

(** ** Proofs *)

Lemma prefix_mask_spec w p :
  (w = 32 \/ w = 128) -> 1 <= p <= w -> prefix_mask w p = Z.shiftl (Z.ones p) (w - p).
Proof.
  intros Hw Hp. unfold prefix_mask.
  assert (Hk : wrap 8 (w - p) mod w = w - p).
  { rewrite wrap_small by (unfold in_width; destruct Hw; lia). apply Z.mod_small. lia. }
  rewrite Hk, !Z.shiftl_mul_pow2, Z.ones_equiv by lia. unfold wrap, umax.
  pose proof (Z.pow_pos_nonneg 2 (w - p) ltac:(lia) ltac:(lia)) as Hpos.
  assert (Hsplit : 2 ^ w = 2 ^ p * 2 ^ (w - p)) by (rewrite <- Z.pow_add_r by lia; f_equal; lia).
  pose proof (Z.pow_pos_nonneg 2 p ltac:(lia) ltac:(lia)).
  symmetry. apply Z.mod_unique with (2 ^ (w - p) - 1); [left; nia|nia].
Qed.

Lemma land_prefix_mask w p a :
  (w = 32 \/ w = 128) -> 1 <= p <= w -> in_width w a ->
  Z.land a (prefix_mask w p) = Z.shiftl (a / 2 ^ (w - p)) (w - p).
Proof.
  intros Hw Hp Ha. rewrite prefix_mask_spec by done.
  rewrite <- Z.shiftr_div_pow2 by lia. apply Z.bits_inj'. intros n Hn.
  rewrite Z.land_spec, !Z.shiftl_spec by lia.
  destruct (Z_lt_le_dec n (w - p)) as [Hlt|Hge].
  - rewrite !(Z.testbit_neg_r _ (n - (w - p))) by lia. apply andb_false_r.
  - rewrite Z.shiftr_spec by lia. replace (n - (w - p) + (w - p)) with n by lia.
    destruct (Z_lt_le_dec n w) as [Hlt'|Hge'].
    + rewrite Z.ones_spec_low by lia. apply andb_true_r.
    + rewrite Z.ones_spec_high by lia. rewrite andb_false_r. symmetry.
      unfold in_width in Ha. destruct (Z.eq_dec a 0) as [->|Hnz]; [apply Z.bits_0|].
      apply Z.bits_above_log2; [lia|]. apply Z.lt_le_trans with w; [|lia]. apply Z.log2_lt_pow2; lia.
Qed.

Definition ip_width (ip : IpAddr) : Z := match ip with V4 _ => 32 | V6 _ => 128 end.
Definition ip_bits (ip : IpAddr) : Z := match ip with V4 b | V6 b => b end.
Definition ip_ok (ip : IpAddr) : Prop := in_width (ip_width ip) (ip_bits ip).

(** A network contains an address exactly when they are of one family and agree on
    the first [prefix_len] bits, for every prefix length the family has. *)
Theorem contains_prefix (net : IpNetwork) (ip : IpAddr) :
  ip_ok (addr net) -> ip_ok ip -> 0 <= prefix_len net <= ip_width (addr net) ->
  contains net ip = true <->
  ip_width (addr net) = ip_width ip /\
  ip_bits (addr net) / 2 ^ (ip_width ip - prefix_len net) = ip_bits ip / 2 ^ (ip_width ip - prefix_len net).
Proof.
  assert (Hsame : forall w p a b, (w = 32 \/ w = 128) -> 0 <= p <= w -> in_width w a -> in_width w b ->
    (if p =? 0 then true else Z.land a (prefix_mask w p) =? Z.land b (prefix_mask w p)) = true <->
    a / 2 ^ (w - p) = b / 2 ^ (w - p)).
  { intros w p a b Hw Hp Ha Hb. destruct (Z.eqb_spec p 0) as [->|Hne].
    - unfold in_width in *. rewrite Z.sub_0_r, !Z.div_small by lia. done.
    - rewrite !land_prefix_mask, Z.eqb_eq by (done || lia). split; [|by intros ->].
      rewrite !Z.shiftl_mul_pow2 by lia. pose proof (Z.pow_pos_nonneg 2 (w - p) ltac:(lia) ltac:(lia)).
      intros E. nia. }
  destruct net as [[a|a] p], ip as [b|b]; unfold ip_ok; cbn; intros Ha Hb Hp.
  - rewrite Hsame by auto. tauto.
  - split; [done|lia].
  - split; [done|lia].
  - rewrite Hsame by auto. tauto.
Qed.

Lemma contains_prefix_witness :
  contains (MkIpNetwork (V4 0x0A000000) 8) (V4 0x0A010203) = true <->
  (32 = 32 /\ 0x0A000000 / 2 ^ (32 - 8) = 0x0A010203 / 2 ^ (32 - 8)).
Proof.
  apply (contains_prefix (MkIpNetwork (V4 0x0A000000) 8) (V4 0x0A010203));
    [by vm_compute..|cbn; lia].
Defined.

(** Squashing. Under [root_squash] with a non-root anonymous identity no root uid or
    gid survives and every other id is unchanged; under [all_squash] everyone is the
    anonymous identity, with no supplementary groups; and [squash_uid]/[squash_gid]
    agree with [map_ids]. *)
Theorem squash_sound (ac : AccessControl) (uid gid : Z) (gids : list Z) :
  let '(u, g, gs) := map_ids ac uid gid gids in
  u = squash_uid ac uid /\ g = squash_gid ac gid /\
  match squash (access_config ac) with
  | SquashNone => gs = gids
  | RootSquash => gs = map (squash_gid ac) gids /\
      (anon_uid (access_config ac) <> 0 -> u <> 0) /\
      (anon_gid (access_config ac) <> 0 -> g <> 0 /\ 0 ∉ gs) /\
      (uid <> 0 -> u = uid) /\ (gid <> 0 -> g = gid)
  | AllSquash => u = anon_uid (access_config ac) /\ g = anon_gid (access_config ac) /\ gs = []
  end.
Proof.
  unfold map_ids, map_with, squash_uid, squash_gid.
  destruct (squash (access_config ac)) eqn:Es; [done| |done].
  split; [done|]. split; [done|]. split; [by apply map_ext; intros; rewrite ?Es|].
  split; [intros Ha; by destruct (Z.eqb_spec uid 0)|].
  split.
  - intros Ha. split; [by destruct (Z.eqb_spec gid 0)|].
    intros (x & Ex & Hx)%list_elem_of_fmap. destruct (Z.eqb_spec x 0); congruence.
  - split; intros Hne; by rewrite (proj2 (Z.eqb_neq _ _) Hne).
Qed.

(** A client list whose entries all fail to parse admits every client: a mistyped
    list opens the export instead of closing it. *)
Theorem access_fails_open parse_ip parse_socket (config : AccessConfig) (client : string) :
  (forall s, s ∈ clients config -> IpNetwork_parse parse_ip s = None) ->
  check_client parse_ip parse_socket (AccessControl_new parse_ip config) client = true.
Proof.
  intros Hbad. unfold check_client, AccessControl_new. cbn [allowed].
  assert (omap (IpNetwork_parse parse_ip) (clients config) = []) as ->; [|done].
  apply elem_of_nil_inv. intros n (s & Hs & Hn)%list_elem_of_omap. rewrite (Hbad s Hs) in Hn. done.
Qed.

(** A parser of one address, enough to run the witnesses. *)
Definition one_address (s : string) : option IpAddr :=
  if bool_decide (s = "10.0.0.1"%string) then Some (V4 0x0A000001) else None.

Lemma access_fails_open_witness :
  check_client one_address one_address
    (AccessControl_new one_address (MkAccessConfig ["10.0.0.1/240000"; "10.0.0.l"] RootSquash 65534 65534 [Sys]))
    "anyone" = true.
Proof.
  apply access_fails_open. intros s Hs. cbn [clients] in Hs.
  apply elem_of_cons in Hs as [->|Hs]; [by vm_compute|].
  apply list_elem_of_singleton in Hs as ->. by vm_compute.
Defined.

(** A prefix longer than the address is taken modulo the width: [/33] masks like [/1]. *)
Lemma prefix_33_is_1 (a b : Z) :
  contains (MkIpNetwork (V4 a) 33) (V4 b) = contains (MkIpNetwork (V4 a) 1) (V4 b).
Proof. done. Qed.

(** ** Quotas *)

(** What the server does with a write or a truncation of this many bytes. *)
Inductive quota_event : Type := QWrite (bytes : Z) | QFree (bytes : Z).

Definition quota_run (q : QuotaManager) (e : quota_event) : QuotaManager :=
  match e with
  | QWrite n => if check_write q n then record_write q n else q
  | QFree n => record_free q n
  end.

Definition event_bytes (e : quota_event) : Z := match e with QWrite n | QFree n => n end.

(** The hard quota holds: from a usage within the limit, any sequence of checked
    writes and frees keeps the usage within the limit, as long as the limit leaves the
    64-bit sum of usage and write unwrapped. *)
Theorem quota_never_exceeded (q : QuotaManager) (es : list quota_event) :
  0 < hard_limit_bytes (quota_config q) -> 0 <= bytes_used q <= hard_limit_bytes (quota_config q) ->
  Forall (fun e => 0 <= event_bytes e /\ hard_limit_bytes (quota_config q) + event_bytes e < 2 ^ 64) es ->
  let q' := fold_left quota_run es q in
  quota_config q' = quota_config q /\ 0 <= bytes_used q' <= hard_limit_bytes (quota_config q) /\
  quota_avail_hard q' = hard_limit_bytes (quota_config q) - bytes_used q'.
Proof.
  intros Hh Hu Hes. revert q Hh Hu Hes. induction es as [|e es IH]; intros q Hh Hu Hes; cbn [fold_left].
  - split; [done|]. unfold quota_avail_hard, sat_sub. rewrite (proj2 (Z.eqb_neq _ _)) by lia. lia.
  - apply List.Forall_cons_iff in Hes as [[He0 He] Hes].
    assert (Hstep : quota_config (quota_run q e) = quota_config q /\
      0 <= bytes_used (quota_run q e) <= hard_limit_bytes (quota_config q)).
    { destruct e as [n|n]; simpl in He0, He |- *.
      - unfold check_write. rewrite (proj2 (Z.eqb_neq _ _)) by lia.
        unwrap.
        destruct (Z.leb_spec (bytes_used q + n) (hard_limit_bytes (quota_config q))); [|done].
        unfold record_write. cbn. unwrap. split; [done|lia].
      - unwrap. split; [done|lia]. }
    destruct Hstep as [Ec Hb]. rewrite <- Ec in *. apply IH; done.
Qed.

Lemma quota_never_exceeded_witness :
  let q := MkQuotaManager (MkQuotaConfig 100 0) 0 in
  let q' := fold_left quota_run [QWrite 60; QWrite 60; QFree 20; QWrite 60] q in
  quota_config q' = quota_config q /\ 0 <= bytes_used q' <= 100 /\ quota_avail_hard q' = 100 - bytes_used q'.
Proof.
  apply (quota_never_exceeded (MkQuotaManager (MkQuotaConfig 100 0) 0) [QWrite 60; QWrite 60; QFree 20; QWrite 60]);
    cbn; [lia|lia|repeat constructor; cbn; lia].
Defined.

(** The sum of usage and write wraps, so a huge write passes the check. *)
Lemma quota_check_wraps :
  check_write (MkQuotaManager (MkQuotaConfig 100 0) 50) (2 ^ 64 - 20) = true.
Proof. done. Qed.

(** ** The table *)

Section TableProofs.
Context {F : Type} (canonicalize : string -> option string) (is_dir : string -> bool)
        (spawn_manager : Z -> string -> F) (parse_ip : string -> option IpAddr).

#[local] Abbreviation handle := (export_handle_message canonicalize is_dir spawn_manager parse_ip).
#[local] Abbreviation run := (run_export_manager canonicalize is_dir spawn_manager parse_ip).

(** Names and ids of the table point at each other, every id was given out, and every
    export has the file manager spawned for its id and path. *)
Record table_ok (em : ExportManager F) : Prop := MkTableOk {
  ok_next : 1 <= next_export_id em <= 0xFE;
  ok_by_name nm s : exports em !! nm = Some s ->
    name (info s) = nm /\ export_by_id em !! export_id (info s) = Some nm /\
    1 <= export_id (info s) < next_export_id em /\
    file_manager s = spawn_manager (export_id (info s)) (export_path (info s)) /\
    is_dir (export_path (info s)) = true;
  ok_by_id id nm : export_by_id em !! id = Some nm ->
    exists s, exports em !! nm = Some s /\ export_id (info s) = id
}.

Lemma empty_table_ok : table_ok empty_exports.
Proof. split; cbn; [lia|done|done]. Qed.

Lemma add_export_ok em nm path ro :
  table_ok em ->
  let '(r, em') := add_export canonicalize is_dir spawn_manager em nm path ro in
  table_ok em' /\ next_export_id em <= next_export_id em' /\
  match r with
  | Ok i => exports em !! nm = None /\ export_id i = next_export_id em /\ next_export_id em' = next_export_id em + 1 /\
            canonicalize path = Some (export_path i) /\
            em' = MkExportManager
              (<[nm := MkExportState i (spawn_manager (export_id i) (export_path i))]> (exports em))
              (<[export_id i := nm]> (export_by_id em)) (next_export_id em + 1)
  | Err _ => em' = em
  end.
Proof.
  intros Hok. unfold add_export.
  destruct (exports em !! nm) eqn:En; [done|].
  destruct (Z.leb_spec 0xFE (next_export_id em)); [done|].
  destruct (canonicalize path) as [canonical|] eqn:Ec; [|done].
  destruct (is_dir canonical) eqn:Ed; cbn [negb]; [|done].
  pose proof (ok_next _ Hok). cbn [export_id export_path].
  unwrap.
  split; [|split; [cbn; lia|done]]. split; cbn [exports export_by_id next_export_id]; [lia|..].
  - intros nm' s [[<- <-]|[Hne Hs]]%lookup_insert_Some; cbn [info export_id name export_path file_manager].
    + rewrite lookup_insert_eq. repeat split; (done || lia).
    + apply ok_by_name in Hs as (H1 & H2 & H3 & H4 & H5); [|done].
      rewrite lookup_insert_ne by lia. repeat split; (done || lia).
  - intros id nm' [[<- <-]|[Hne Hid]]%lookup_insert_Some.
    + eexists. by rewrite lookup_insert_eq.
    + apply ok_by_id in Hid as (s & Hs & He); [|done]. exists s.
      rewrite lookup_insert_ne by congruence. done.
Qed.

Lemma remove_export_ok em nm :
  table_ok em -> table_ok (remove_export em nm).2.
Proof.
  intros Hok. unfold remove_export. destruct (exports em !! nm) as [s0|] eqn:En; [|done]. cbn [snd].
  pose proof (ok_by_name _ Hok _ _ En) as (Hn0 & Hi0 & _).
  split; cbn [exports export_by_id next_export_id]; [by apply ok_next|..].
  - intros nm' s [Hne Hs]%lookup_delete_Some.
    pose proof (ok_by_name _ Hok _ _ Hs) as (H1 & H2 & H3 & H4). rewrite lookup_delete_ne; [done|].
    intros Heq. rewrite Heq in Hi0. congruence.
  - intros id nm' [Hne Hid]%lookup_delete_Some.
    pose proof (ok_by_id _ Hok _ _ Hid) as (s & Hs & He). exists s.
    rewrite lookup_delete_ne; [done|]. intros ->. congruence.
Qed.

Lemma set_config_ok f em nm :
  (forall s, export_id (info (f s)) = export_id (info s) /\ name (info (f s)) = name (info s) /\
             export_path (info (f s)) = export_path (info s) /\ file_manager (f s) = file_manager s) ->
  table_ok em -> table_ok (set_config f em nm).2.
Proof.
  intros Hf Hok. unfold set_config. destruct (exports em !! nm) as [s0|] eqn:En; [|done]. cbn [snd].
  destruct (Hf s0) as (F1 & F2 & F3 & F4).
  split; cbn [exports export_by_id next_export_id]; [by apply ok_next|..].
  - intros nm' s [[<- <-]|[Hne Hs]]%lookup_insert_Some; [|by apply ok_by_name].
    rewrite F1, F2, F3, F4. by apply ok_by_name.
  - intros id nm' Hid. pose proof (ok_by_id _ Hok _ _ Hid) as (s & Hs & He).
    destruct (decide (nm = nm')) as [->|Hne].
    + exists (f s0). rewrite lookup_insert_eq, F1. split; congruence.
    + exists s. by rewrite lookup_insert_ne.
Qed.

Lemma set_config_next f (em : ExportManager F) nm :
  next_export_id (set_config f em nm).2 = next_export_id em.
Proof. unfold set_config. by destruct (exports em !! nm). Qed.

Lemma handle_ok em msg :
  table_ok em -> table_ok (handle em msg).2 /\ next_export_id em <= next_export_id (handle em msg).2.
Proof.
  intros Hok. destruct msg; cbn [export_handle_message]; try (split; [done|cbn; lia]).
  - pose proof (add_export_ok em nm path ro Hok) as H. destruct add_export as [r em']. cbn. tauto.
  - pose proof (remove_export_ok em nm Hok) as H. unfold remove_export in *.
    destruct (exports em !! nm); (split; [done|cbn; lia]).
  - pose proof (set_config_ok (fun s => with_quota s c) em nm ltac:(done) Hok).
    pose proof (set_config_next (fun s => with_quota s c) em nm). destruct set_config. cbn in *. split; [done|lia].
  - pose proof (set_config_ok (fun s => with_access parse_ip s c) em nm ltac:(done) Hok).
    pose proof (set_config_next (fun s => with_access parse_ip s c) em nm). destruct set_config. cbn in *. split; [done|lia].
Qed.

Lemma run_ok em msgs :
  table_ok em -> table_ok (run em msgs).2 /\ next_export_id em <= next_export_id (run em msgs).2.
Proof.
  revert em. induction msgs as [|m ms IH]; intros em Hok; [done|]. cbn [run_export_manager].
  pose proof (handle_ok em m Hok) as [Hok1 Hle]. destruct (handle em m) as [r em1]. cbn [snd] in *.
  pose proof (IH em1 Hok1) as [Hok2 Hle2]. destruct (run em1 ms) as [rs em2]. cbn [snd] in *. split; [done|lia].
Qed.

(** C33: After any sequence of messages the two indexes agree: looking an id up finds
    exactly the export that its own name finds, whose id lies in 1..0xFD (never the
    pseudo root's), whose path was a directory and whose file manager was spawned for
    that id and path. *)
Theorem export_table_consistent (msgs : list ExportManagerMessage) (id : Z) (i : ExportInfo) (fm : F) :
  let em := (run empty_exports msgs).2 in
  get_export_by_id em id = Some (i, fm) <->
  export_id i = id /\ get_export_by_name em (name i) = Some (i, fm) /\
  1 <= id <= 0xFD /\ is_dir (export_path i) = true /\ fm = spawn_manager id (export_path i).
Proof.
  intros em. pose proof (run_ok empty_exports msgs empty_table_ok) as [Hok _]. fold em in Hok.
  unfold get_export_by_id, get_export_by_name. pose proof (ok_next _ Hok). split.
  - destruct (export_by_id em !! id) as [nm|] eqn:Eid; [|done]. cbn.
    apply (ok_by_id _ Hok) in Eid as (s & Hs & He). rewrite Hs. cbn. intros [= <- <-].
    apply (ok_by_name _ Hok) in Hs as Hs'. destruct Hs' as (H1 & H2 & H3 & H4 & H5). rewrite H1, Hs, <- He.
    repeat split; (done || lia).
  - intros (Hid & Hn & _). destruct (exports em !! name i) as [s|] eqn:Es; [|done].
    cbn in Hn. injection Hn as <- <-.
    apply (ok_by_name _ Hok) in Es as Hs'. destruct Hs' as (H1 & H2 & _). rewrite <- Hid, H2. cbn.
    by rewrite Es.
Qed.

(** Export ids are never reused: whatever is added and removed in between, a later
    export gets a larger id than an earlier one, so a filehandle of a removed export
    can never name a file of another. *)
Theorem export_ids_fresh (msgs1 msgs2 : list ExportManagerMessage) nm1 path1 ro1 nm2 path2 ro2 i1 i2 :
  let em1 := (run empty_exports msgs1).2 in
  let em2 := (handle em1 (AddExport nm1 path1 ro1)).2 in
  let em3 := (run em2 msgs2).2 in
  (handle em1 (AddExport nm1 path1 ro1)).1 = Added (Ok i1) ->
  (handle em3 (AddExport nm2 path2 ro2)).1 = Added (Ok i2) ->
  export_id i1 < export_id i2.
Proof.
  intros em1 em2 em3 E1 E2.
  pose proof (run_ok empty_exports msgs1 empty_table_ok) as [Hok1 _]. fold em1 in Hok1.
  pose proof (handle_ok em1 (AddExport nm1 path1 ro1) Hok1) as [Hok2 _]. fold em2 in Hok2.
  pose proof (run_ok em2 msgs2 Hok2) as [Hok3 Hle]. fold em3 in Hok3, Hle.
  pose proof (add_export_ok em1 nm1 path1 ro1 Hok1) as A1.
  pose proof (add_export_ok em3 nm2 path2 ro2 Hok3) as A2.
  subst em2. cbn [export_handle_message] in *.
  destruct (add_export _ _ _ em1 nm1 path1 ro1) as [r1 em1'], (add_export _ _ _ em3 nm2 path2 ro2) as [r2 em3'].
  cbn in E1, E2. injection E1 as ->. injection E2 as ->.
  cbn [snd] in Hle. destruct A1 as (_ & _ & _ & -> & En & _), A2 as (_ & _ & _ & -> & _). lia.
Qed.

(** Adding and removing: a name not in use, with ids left and a directory as its
    path, is added; both lookups then find it, and removing it restores the table
    except for the next id. A name in use is refused, and so is removing a name that
    is not. *)
Theorem add_remove_export (msgs : list ExportManagerMessage) (nm path canonical : string) (ro : bool) :
  let em := (run empty_exports msgs).2 in
  canonicalize path = Some canonical -> is_dir canonical = true -> next_export_id em < 0xFE ->
  let '(r, em') := handle em (AddExport nm path ro) in
  match exports em !! nm with
  | Some _ => r = Added (Err (AlreadyExists nm)) /\ em' = em
  | None =>
    exists i, r = Added (Ok i) /\ name i = nm /\ export_path i = canonical /\ read_only i = ro /\
      get_export_by_name em' nm = Some (i, spawn_manager (export_id i) canonical) /\
      get_export_by_id em' (export_id i) = Some (i, spawn_manager (export_id i) canonical) /\
      handle em (RemoveExport nm) = (Done (Err (NotFound nm)), em) /\
      handle em' (RemoveExport nm) =
        (Done (Ok tt), MkExportManager (exports em) (export_by_id em) (next_export_id em + 1))
  end.
Proof.
  intros em Hc Hd Hn. pose proof (run_ok empty_exports msgs empty_table_ok) as [Hok _]. fold em in Hok.
  pose proof (ok_next _ Hok).
  cbn [export_handle_message]. unfold add_export, get_export_by_name, get_export_by_id, remove_export.
  destruct (exports em !! nm) eqn:En; [done|].
  destruct (Z.leb_spec 0xFE (next_export_id em)); [lia|]. rewrite Hc, Hd. cbn [negb].
  unwrap.
  eexists. split; [done|]. cbn [name export_path read_only exports export_by_id export_id].
  rewrite !lookup_insert_eq. cbn. rewrite lookup_insert_eq. cbn.
  repeat split. rewrite !delete_insert_id; [done| |done].
  destruct (export_by_id em !! next_export_id em) as [nm'|] eqn:Ei; [|done].
  apply (ok_by_id _ Hok) in Ei as (s & Hs & He). apply (ok_by_name _ Hok) in Hs as (_ & _ & ? & _). lia.
Qed.
End TableProofs.

(** A file system of directories only, and file managers that are their arguments. *)
#[local] Abbreviation demo := (run_export_manager Some (fun _ => true) pair one_address empty_exports).
#[local] Abbreviation demo_info id nm path :=
  (MkExportInfo id nm path false (MkQuotaManager (MkQuotaConfig 0 0) 0) (MkAccessControl default_access_config [])).

Lemma export_ids_fresh_witness :
  export_id (demo_info 1 "a" "/a") < export_id (demo_info 2 "a" "/b").
Proof.
  apply (export_ids_fresh Some (fun _ => true) pair one_address [] [RemoveExport "a"]
    "a" "/a" false "a" "/b" false); by vm_compute.
Defined.

Lemma add_remove_export_witness :
  let em := (demo [AddExport "a" "/a" false; RemoveExport "a"]).2 in
  exists i, (export_handle_message Some (fun _ => true) pair one_address em (AddExport "b" "/b" true)).1 = Added (Ok i)
    /\ name i = "b"%string.
Proof.
  pose proof (add_remove_export Some (fun _ => true) pair one_address
    [AddExport "a" "/a" false; RemoveExport "a"] "b" "/b" "/b" true eq_refl eq_refl ltac:(by vm_compute)) as W.
  vm_compute in W. destruct W as (i & E & N & _). exists i. split; [exact E|exact N].
Defined.
