(* ===== verification/ClientManager.v ===== *)
(** * The client manager actor ([clientmanager.rs])

    NFSv4.0 client records: SETCLIENTID ([upsert_client]), SETCLIENTID_CONFIRM
    ([confirm_client]), RENEW ([renew_leases]), the lease sweep with its courtesy window,
    and recovery from a snapshot ([restore_clients]). The records live in a generated
    multi-index map ([MultiIndex]); the clock and the random generator are the interface
    [ClientWorld]. The actor catches panics and goes on, so an [action] that panics still
    has a state. *)

From S2P Require Import Prelude NfsTypes MultiIndex.
From stdpp Require Import base list gmap strings.
From Stdlib Require Import Strings.Byte ZArith Lia.
#[local] Open Scope Z_scope.

(** ** Data *)

Record ClientCallback : Type := MkClientCallback {
  program : Z; rnetid : string; raddr : string; callback_ident : Z
}.

Record ClientEntry : Type := MkClientEntry {
  principal : option string;
  verifier : list byte;
  id : string;
  clientid : Z;
  callback : ClientCallback;
  setclientid_confirm : list byte;
  confirmed : bool;
  last_renewed : Z;
  courtesy : bool
}.

Definition set_confirmed (e : ClientEntry) : ClientEntry :=
  MkClientEntry (principal e) (verifier e) (id e) (clientid e) (callback e) (setclientid_confirm e)
    true (last_renewed e) (courtesy e).
Definition set_renewed (t : Z) (e : ClientEntry) : ClientEntry :=
  MkClientEntry (principal e) (verifier e) (id e) (clientid e) (callback e) (setclientid_confirm e)
    (confirmed e) t false.
Definition set_courtesy (e : ClientEntry) : ClientEntry :=
  MkClientEntry (principal e) (verifier e) (id e) (clientid e) (callback e) (setclientid_confirm e)
    (confirmed e) (last_renewed e) true.

(** The one unique index. *)
Definition client_clash (a b : ClientEntry) : bool :=
  bool_decide (setclientid_confirm a = setclientid_confirm b).

Record ClientSnapshot : Type := MkClientSnapshot {
  snap_principal : option string;
  snap_verifier : list byte;
  snap_id : string;
  snap_clientid : Z;
  callback_program : Z;
  callback_rnetid : string;
  callback_raddr : string;
  snap_callback_ident : Z;
  snap_confirmed : bool
}.

(** [Instant::now], in nanoseconds, and eight random bytes. *)
Class ClientWorld (W : Type) : Type := {
  now : W -> Z * W;
  random_token : W -> list byte * W
}.

Section ClientManager.
Context {W M : Type} `{CW : !ClientWorld W} `{MI : !MultiIndex ClientEntry M client_clash}.

Record ClientManager : Type := MkClientManager {
  db : M;
  client_id_seq : Z;
  filehandles : gmap string (list byte);
  lease_time : Z
}.

Definition set_db (s : ClientManager) (d : M) : ClientManager :=
  MkClientManager d (client_id_seq s) (filehandles s) (lease_time s).
Definition set_client_id_seq (s : ClientManager) (n : Z) : ClientManager :=
  MkClientManager (db s) n (filehandles s) (lease_time s).

Definition new : ClientManager := MkClientManager mi_empty 0 ∅ 90.

(** ** The monad: [None] is a panic, caught by the actor's loop *)

Definition action (A : Type) : Type := ClientManager -> W -> option A * ClientManager * W.

Definition ret {A} (a : A) : action A := fun s w => (Some a, s, w).
Definition bind {A B} (m : action A) (k : A -> action B) : action B :=
  fun s w => match m s w with
             | (Some a, s, w) => k a s w
             | (None, s, w) => (None, s, w)
             end.
Definition self : action ClientManager := fun s w => (Some s, s, w).
Definition modify (f : ClientManager -> ClientManager) : action unit := fun s w => (Some tt, f s, w).
Definition outside {A} (f : W -> A * W) : action A := fun s w => let '(a, w) := f w in (Some a, s, w).
Definition panic {A} : action A := fun s w => (None, s, w).

Notation "'act' x '<-' m 'in' k" := (bind m (fun x => k))
  (at level 10, x binder, m at level 100, k at level 200).
Notation "'run' m 'in' k" := (bind m (fun _ : unit => k))
  (at level 10, m at level 100, k at level 200).

Fixpoint for_each {A} (l : list A) (f : A -> action unit) : action unit :=
  match l with
  | [] => ret tt
  | a :: l => run f a in for_each l f
  end.

(** ** The indexes *)

Definition has_id (i : string) (e : ClientEntry) : bool := bool_decide (id e = i).
Definition has_clientid (c : Z) (e : ClientEntry) : bool := clientid e =? c.
Definition has_token (t : list byte) (e : ClientEntry) : bool := bool_decide (setclientid_confirm e = t).

Definition db_insert (e : ClientEntry) : action unit :=
  act s <- self in
  match mi_try_insert (db s) e with
  | Some d => modify (fun s => set_db s d)
  | None => panic
  end.

(** [remove_by_setclientid_confirm] *)
Definition db_take (t : list byte) : action (option ClientEntry) :=
  act s <- self in
  let '(found, d) := mi_remove (db s) (has_token t) in
  run modify (fun s => set_db s d) in ret (head found).

Definition db_remove_clientid (c : Z) : action unit :=
  modify (fun s => set_db s (mi_delete (db s) (has_clientid c))).

(** Take the record with the token out, change it and put it back. *)
Definition db_update (t : list byte) (f : ClientEntry -> action ClientEntry) : action (option ClientEntry) :=
  act found <- db_take t in
  match found with
  | Some e => act e' <- f e in run db_insert e' in ret (Some e')
  | None => ret None
  end.

(** ** The operations *)

Definition get_next_client_id : action Z :=
  run modify (fun s => set_client_id_seq s (wrap 64 (client_id_seq s + 1))) in
  act s <- self in ret (client_id_seq s).

Definition set_current_fh (client_addr : string) (filehandle : list byte) : action unit :=
  modify (fun s => MkClientManager (db s) (client_id_seq s) (<[client_addr := filehandle]> (filehandles s))
                     (lease_time s)).

Definition add_client_record (verf : list byte) (i : string) (cb : ClientCallback) (prin : option string)
    (client_id : option Z) : action ClientEntry :=
  act c <- (match client_id with Some c => ret c | None => get_next_client_id end) in
  act token <- outside random_token in
  act t <- outside now in
  let client := MkClientEntry prin verf i c cb token false t false in
  run db_insert client in ret client.

Definition upsert_client (verf : list byte) (i : string) (cb : ClientCallback) (prin : option string)
    : action (result ClientEntry NfsStat4) :=
  act s <- self in
  let entries := mi_get (db s) (has_id i) in
  if existsb (fun e => confirmed e && negb (bool_decide (principal e = prin))) entries
  then ret (Err Nfs4errClidInuse)
  else
    run for_each (filter (fun e => confirmed e = false) entries)
          (fun e => act _ <- db_take (setclientid_confirm e) in ret tt) in
    act e <- add_client_record verf i cb prin (clientid <$> last entries) in
    ret (Ok e).

Definition confirm_client (client_id : Z) (token : list byte) (prin : option string)
    : action (result ClientEntry NfsStat4) :=
  act s <- self in
  let entries := mi_get (db s) (has_clientid client_id) in
  match entries with
  | [] => ret (Err Nfs4errStaleClientid)
  | _ =>
    if existsb (fun e => negb (bool_decide (principal e = prin))) entries then ret (Err Nfs4errClidInuse)
    else
      let old_confirmed :=
        last (filter (fun e => confirmed e = true /\ setclientid_confirm e <> token) entries) in
      let new_confirmed := set_confirmed <$> last (filter (fun e => setclientid_confirm e = token) entries) in
      run (match old_confirmed with
           | Some old => act _ <- db_take (setclientid_confirm old) in ret tt
           | None => ret tt
           end) in
      match new_confirmed with
      | Some nc =>
        act updated <- db_update (setclientid_confirm nc) (fun e => ret (set_confirmed e)) in
        ret (Ok (default nc updated))
      | None => ret (Err Nfs4errStaleClientid)
      end
  end.

Definition renew_leases (client_id : Z) : action (result unit NfsStat4) :=
  act s <- self in
  let entries := mi_get (db s) (has_clientid client_id) in
  match entries with
  | [] => ret (Err Nfs4errStaleClientid)
  | _ =>
    act t <- outside now in
    if existsb (fun e => confirmed e && courtesy e &&
                         (wrap 64 (lease_time s * 2) <? elapsed_secs t (last_renewed e))) entries
    then ret (Err Nfs4errExpired)
    else
      run for_each entries (fun e =>
        act _ <- db_update (setclientid_confirm e) (fun e => act t <- outside now in ret (set_renewed t e)) in
        ret tt) in
      ret (Ok tt)
  end.

(** Confirmed records whose lease ran out, and courtesy records past the window. *)
Definition lapses (lease t : Z) (e : ClientEntry) : bool :=
  confirmed e && (lease <=? elapsed_secs t (last_renewed e)) && negb (courtesy e).
Definition expires (lease t : Z) (e : ClientEntry) : bool :=
  confirmed e && negb (lapses lease t e) && courtesy e &&
  (wrap 64 (lease * 2) <=? elapsed_secs t (last_renewed e)).

Definition sweep_leases : action (list Z) :=
  act t <- outside now in
  act s <- self in
  let all_entries := mi_iter (db s) in
  let courtesy_clients := clientid <$> filter (fun e => lapses (lease_time s) t e = true) all_entries in
  let expired_clients := clientid <$> filter (fun e => expires (lease_time s) t e = true) all_entries in
  run for_each courtesy_clients (fun c =>
    act s <- self in
    for_each (mi_get (db s) (has_clientid c)) (fun e =>
      act _ <- db_update (setclientid_confirm e) (fun e => ret (set_courtesy e)) in ret tt)) in
  run for_each expired_clients db_remove_clientid in
  ret expired_clients.

Definition is_courtesy_client (client_id : Z) : action bool :=
  act s <- self in ret (existsb courtesy (mi_get (db s) (has_clientid client_id))).

Definition revoke_courtesy_client (client_id : Z) : action unit := db_remove_clientid client_id.
Definition remove_client (client_id : Z) : action unit := db_remove_clientid client_id.

Definition get_client_confirmed (client_id : Z) : action (option ClientEntry) :=
  act s <- self in ret (head (filter (fun e => confirmed e = true) (mi_get (db s) (has_clientid client_id)))).

Definition get_all_clients : action (list ClientEntry) :=
  act s <- self in ret (filter (fun e => confirmed e = true) (mi_iter (db s))).

Definition restore_entry (snap : ClientSnapshot) (token : list byte) (t : Z) : ClientEntry :=
  MkClientEntry (snap_principal snap) (snap_verifier snap) (snap_id snap) (snap_clientid snap)
    (MkClientCallback (callback_program snap) (callback_rnetid snap) (callback_raddr snap)
       (snap_callback_ident snap))
    token true t false.

Definition bump_client_id_seq (c : Z) (s : ClientManager) : ClientManager :=
  if client_id_seq s <=? c then set_client_id_seq s (wrap 64 (c + 1)) else s.

Fixpoint restore_clients (clients : list ClientSnapshot) (count : Z) : action Z :=
  match clients with
  | [] => ret count
  | snap :: clients =>
    if snap_confirmed snap then
      act token <- outside random_token in
      act t <- outside now in
      run modify (bump_client_id_seq (snap_clientid snap)) in
      run db_insert (restore_entry snap token t) in
      restore_clients clients (count + 1)
    else restore_clients clients count
  end.

(** What [NFSServer::start_async] saves of a client every thirty seconds. *)
Definition snapshot_of (c : ClientEntry) : ClientSnapshot :=
  MkClientSnapshot (principal c) (verifier c) (id c) (clientid c) (program (callback c))
    (rnetid (callback c)) (raddr (callback c)) (callback_ident (callback c)) (confirmed c).

(** ** Messages *)

Inductive ClientManagerMessage : Type :=
| UpsertClient (verf : list byte) (i : string) (cb : ClientCallback) (prin : option string)
| ConfirmClient (client_id : Z) (token : list byte) (prin : option string)
| SetCurrentFilehandle (client_addr : string) (filehandle : list byte)
| RenewLeases (client_id : Z)
| SweepLeases
| IsCourtesyClient (client_id : Z)
| RevokeCourtesyClient (client_id : Z)
| GetAllClients
| RestoreClients (clients : list ClientSnapshot).

Inductive ClientManagerReply : Type :=
| ClientReply (r : result ClientEntry NfsStat4)
| RenewReply (r : result unit NfsStat4)
| Expired (l : list Z)
| Courtesy (b : bool)
| Clients (l : list ClientEntry)
| Restored (n : Z)
| NoReply.

Definition client_handle_message (msg : ClientManagerMessage) : action ClientManagerReply :=
  match msg with
  | ConfirmClient c t p => act r <- confirm_client c t p in ret (ClientReply r)
  | UpsertClient v i cb p => act r <- upsert_client v i cb p in ret (ClientReply r)
  | SetCurrentFilehandle a f => run set_current_fh a f in ret NoReply
  | RenewLeases c => act r <- renew_leases c in ret (RenewReply r)
  | SweepLeases => act l <- sweep_leases in ret (Expired l)
  | IsCourtesyClient c => act b <- is_courtesy_client c in ret (Courtesy b)
  | RevokeCourtesyClient c => run revoke_courtesy_client c in ret NoReply
  | GetAllClients => act l <- get_all_clients in ret (Clients l)
  | RestoreClients l => act n <- restore_clients l 0 in ret (Restored n)
  end.
End ClientManager.
Arguments ClientManager : clear implicits.
