(* ===== verification/ClientManagerSpec.v ===== *)
(** * What the client manager guarantees *)

From S2P Require Import Prelude NfsTypes MultiIndex ClientManager.
From stdpp Require Import base list gmap strings.
From Stdlib Require Import Strings.Byte ZArith Lia.
#[local] Open Scope Z_scope.

(** ** The database operations *)

Section Ops.
Context {W M : Type} `{CW : !ClientWorld W} `{MI : !MultiIndex ClientEntry M client_clash}.
#[local] Abbreviation CM := (ClientManager M).
#[local] Abbreviation iter := (@mi_iter ClientEntry M client_clash MI).
#[local] Abbreviation distinct := (mi_distinct setclientid_confirm).
Implicit Types (s : CM) (w : W) (d : M) (e x : ClientEntry).

Lemma token_unique d e x :
  distinct d -> e ∈ iter d -> x ∈ iter d -> setclientid_confirm e = setclientid_confirm x -> e = x.
Proof. apply mi_distinct_inj. Qed.

Lemma set_db_id s : set_db s (db s) = s.
Proof. by destruct s. Qed.

Lemma db_take_spec t s w :
  distinct (db s) ->
  exists found d, db_take t s w = (Some found, set_db s d, w) /\ distinct d /\
    (forall x, x ∈ iter d <-> x ∈ iter (db s) /\ setclientid_confirm x <> t) /\
    match found with
    | Some e => e ∈ iter (db s) /\ setclientid_confirm e = t
    | None => forall e, e ∈ iter (db s) -> setclientid_confirm e <> t
    end.
Proof.
  intros Hd. unfold db_take, bind, self, modify, ret.
  pose proof (mi_remove_spec (db s) (has_token t)) as [Hf _].
  pose proof (mi_delete_elem (db s) (has_token t)) as Hdel.
  pose proof (mi_distinct_delete setclientid_confirm (db s) (has_token t) Hd) as Hd'.
  unfold mi_delete in *. destruct (mi_remove (db s) (has_token t)) as [found d]. cbn [fst snd] in *.
  exists (head found), d. split; [done|]. split; [done|].
  assert (Hfe : forall e, e ∈ found <-> e ∈ iter (db s) /\ setclientid_confirm e = t).
  { intros e. rewrite (elem_of_Permutation_proper e _ _ Hf), list_elem_of_filter, Is_true_true.
    unfold has_token. rewrite bool_decide_eq_true. tauto. }
  split.
  - intros x. rewrite Hdel. unfold has_token. by rewrite bool_decide_eq_false.
  - destruct found as [|e l]; cbn [head].
    + intros e He Ht. apply (not_elem_of_nil e). by apply Hfe.
    + apply Hfe. left.
Qed.

Lemma db_insert_spec e s w :
  distinct (db s) ->
  (exists d, db_insert e s w = (Some tt, set_db s d, w) /\ distinct d /\
     (forall x, x ∈ iter d <-> x = e \/ x ∈ iter (db s)) /\
     (forall x, x ∈ iter (db s) -> setclientid_confirm x <> setclientid_confirm e)) \/
  (db_insert e s w = (None, s, w) /\
   exists x, x ∈ iter (db s) /\ setclientid_confirm x = setclientid_confirm e).
Proof.
  intros Hd. unfold db_insert, bind, self, modify, panic.
  pose proof (mi_try_insert_spec (db s) e) as Hs.
  destruct (mi_try_insert (db s) e) as [d|] eqn:E.
  - left. exists d. split; [done|]. split.
    { eapply mi_distinct_insert; [exact E| |done]. intros x Hx. by apply bool_decide_eq_true. }
    split; [intros x; by apply mi_insert_elem|].
    intros x Hx Hk. destruct Hs as [Hs _]. apply not_true_iff_false in Hs. destruct Hs.
    apply existsb_exists. exists x. split; [by apply list_elem_of_In|]. by apply bool_decide_eq_true.
  - right. split; [done|]. apply existsb_exists in Hs as (x & Hx & Hc). exists x.
    split; [by apply list_elem_of_In|]. apply bool_decide_eq_true in Hc. done.
Qed.

(** What an update writes back in the worlds of [Q]: the state is not touched, the token
    stays. *)
Definition updates (Q : W -> Prop) (R : ClientEntry -> ClientEntry -> Prop)
    (f : ClientEntry -> action ClientEntry) : Prop :=
  forall e s w, Q w -> exists e' w', f e s w = (Some e', s, w') /\ Q w' /\ R e e' /\
    setclientid_confirm e' = setclientid_confirm e.

(** The records of [d'] are those of [d], each related to the old one by [R]. *)
Definition rewritten (R : ClientEntry -> ClientEntry -> Prop) (d d' : M) : Prop :=
  distinct d' /\
  (forall x, x ∈ iter d' -> exists e, e ∈ iter d /\ R e x /\ setclientid_confirm x = setclientid_confirm e) /\
  (forall e, e ∈ iter d -> exists x, x ∈ iter d' /\ R e x /\ setclientid_confirm x = setclientid_confirm e).

Lemma rewritten_refl (R : ClientEntry -> ClientEntry -> Prop) d :
  distinct d -> (forall e, e ∈ iter d -> R e e) -> rewritten R d d.
Proof. intros Hd HR. split; [done|]. split; intros x Hx; exists x; auto. Qed.

Lemma rewritten_trans (R1 R2 R3 : ClientEntry -> ClientEntry -> Prop) d1 d2 d3 :
  rewritten R1 d1 d2 -> rewritten R2 d2 d3 ->
  (forall a b c, setclientid_confirm b = setclientid_confirm a -> R1 a b -> R2 b c -> R3 a c) ->
  rewritten R3 d1 d3.
Proof.
  intros (_ & F1 & B1) (Hd & F2 & B2) HR. split; [done|]. split.
  - intros x Hx. destruct (F2 x Hx) as (y & Hy & Ry & Ty). destruct (F1 y Hy) as (z & Hz & Rz & Tz).
    exists z. split; [done|]. split; [by apply (HR z y)|congruence].
  - intros x Hx. destruct (B1 x Hx) as (y & Hy & Ry & Ty). destruct (B2 y Hy) as (z & Hz & Rz & Tz).
    exists z. split; [done|]. split; [by apply (HR x y)|congruence].
Qed.

Lemma rewritten_weaken (R1 R2 : ClientEntry -> ClientEntry -> Prop) d1 d2 :
  rewritten R1 d1 d2 -> (forall a b, a ∈ iter d1 -> R1 a b -> R2 a b) -> rewritten R2 d1 d2.
Proof.
  intros (Hd & F1 & B1) HR. split; [done|]. split.
  - intros x Hx. destruct (F1 x Hx) as (y & Hy & Ry & Ty). exists y. auto.
  - intros x Hx. destruct (B1 x Hx) as (y & Hy & Ry & Ty). exists y. auto.
Qed.

(** One update rewrites the record with the token, and no other. *)
Lemma db_update_spec Q R f e s w :
  updates Q R f -> Q w -> distinct (db s) -> e ∈ iter (db s) ->
  exists e' d w', db_update (setclientid_confirm e) f s w = (Some (Some e'), set_db s d, w') /\ Q w' /\ R e e' /\
    setclientid_confirm e' = setclientid_confirm e /\ e' ∈ iter d /\
    rewritten (fun a b => if decide (setclientid_confirm a = setclientid_confirm e) then R a b else b = a)
      (db s) d.
Proof.
  intros Hf HQ Hd He. unfold db_update, bind at 1.
  destruct (db_take_spec (setclientid_confirm e) s w Hd) as (found & d1 & -> & Hd1 & Hx1 & Hfound).
  destruct found as [e0|]; [|by destruct (Hfound e He)]. destruct Hfound as [He0 Ht0].
  assert (e0 = e) as -> by exact (token_unique _ _ _ Hd He0 He Ht0).
  unfold bind at 1. destruct (Hf e (set_db s d1) w HQ) as (e' & w' & -> & HQ' & HR & Ht').
  unfold bind at 1.
  destruct (db_insert_spec e' (set_db s d1) w') as [(d & -> & Hdd & Hx & _)|[_ (x & Hx & Hc)]]; [done| |].
  - exists e', d, w'. do 4 (split; [done|]). split; [apply Hx; by left|].
    split; [done|]. split.
    + intros x [->|Hin]%Hx.
      * exists e. rewrite decide_True by done. done.
      * apply Hx1 in Hin as [Hin Hne]. exists x. by rewrite decide_False.
    + intros a Ha. destruct (decide (setclientid_confirm a = setclientid_confirm e)) as [Heq|Hne].
      * assert (a = e) as -> by exact (token_unique _ _ _ Hd Ha He Heq). exists e'. rewrite Hx. auto.
      * exists a. rewrite Hx. split; [right; by apply Hx1|done].
  - cbn [db set_db] in Hx. apply Hx1 in Hx as [_ Hne]. congruence.
Qed.

(** Updating every record of a list of tokens, in any order. *)
Lemma update_all_spec Q R f (l : list ClientEntry) s w :
  updates Q R f -> Q w -> distinct (db s) -> NoDup (setclientid_confirm <$> l) ->
  (forall e, e ∈ l -> exists e0, e0 ∈ iter (db s) /\ setclientid_confirm e0 = setclientid_confirm e) ->
  exists d w', for_each l (fun e => bind (db_update (setclientid_confirm e) f) (fun _ => ret tt)) s w
               = (Some tt, set_db s d, w') /\ Q w' /\
    rewritten (fun a b => if decide (setclientid_confirm a ∈ setclientid_confirm <$> l) then R a b else b = a)
      (db s) d.
Proof.
  intros Hf. revert s w. induction l as [|e l IH]; intros s w HQ Hd Hnd Hin; cbn [for_each].
  - exists (db s), w. rewrite set_db_id. split; [done|]. split; [done|]. apply rewritten_refl; [done|].
    intros a _. by rewrite decide_False by apply not_elem_of_nil.
  - destruct (Hin e) as (e0 & He0 & Ht0); [left|].
    destruct (db_update_spec Q R f e0 s w Hf HQ Hd He0) as (e' & d1 & w1 & Hu & HQ1 & _ & _ & _ & Hrw).
    rewrite Ht0 in Hu. unfold bind at 1. unfold bind at 1. rewrite Hu.
    cbn [fmap list_fmap] in Hnd. apply NoDup_cons in Hnd as [Hn Hnd].
    destruct (IH (set_db s d1) w1) as (d2 & w2 & Hl & HQ2 & Hrw2); [done|apply Hrw|done| |].
    + intros x Hx. destruct (Hin x) as (x0 & Hx0 & Htx); [by right|].
      apply Hrw in Hx0 as (x1 & Hx1 & _ & Htx1). exists x1. split; [done|congruence].
    + exists d2, w2. split; [exact Hl|]. split; [exact HQ2|]. cbn [db set_db] in Hrw2.
      eapply rewritten_trans; [exact Hrw|exact Hrw2|].
      intros a b c Htb. cbn beta. rewrite Htb, Ht0. cbn [fmap list_fmap]. intros H1 H2.
      destruct (decide (setclientid_confirm a = setclientid_confirm e)) as [Ea|Ea].
      * rewrite decide_False in H2 by (rewrite Ea; done). rewrite decide_True by (rewrite Ea; left). by subst c.
      * subst b. destruct (decide (setclientid_confirm a ∈ setclientid_confirm <$> l)).
        -- by rewrite decide_True by (by right).
        -- rewrite decide_False; [done|]. by intros [?|?]%elem_of_cons.
Qed.

(** Taking every record of a list of tokens out. *)
Lemma take_all_spec (l : list ClientEntry) s w :
  distinct (db s) ->
  exists d, for_each l (fun e => bind (db_take (setclientid_confirm e)) (fun _ => ret tt)) s w
            = (Some tt, set_db s d, w) /\ distinct d /\
    (forall x, x ∈ iter d <-> x ∈ iter (db s) /\ setclientid_confirm x ∉ setclientid_confirm <$> l).
Proof.
  revert s. induction l as [|e l IH]; intros s Hd; cbn [for_each].
  - exists (db s). rewrite set_db_id. split; [done|]. split; [done|]. cbn [fmap list_fmap].
    intros x. rewrite elem_of_nil. tauto.
  - unfold bind at 1. unfold bind at 1.
    destruct (db_take_spec (setclientid_confirm e) s w Hd) as (found & d1 & -> & Hd1 & Hx1 & _).
    destruct (IH (set_db s d1) Hd1) as (d2 & Hl & Hd2 & Hx2). exists d2. split; [exact Hl|].
    split; [done|]. intros x. rewrite Hx2. cbn [db set_db fmap list_fmap]. rewrite Hx1, elem_of_cons. tauto.
Qed.

Lemma remove_clientids_spec (l : list Z) s w :
  distinct (db s) ->
  exists d, for_each l db_remove_clientid s w = (Some tt, set_db s d, w) /\ distinct d /\
    (forall x, x ∈ iter d <-> x ∈ iter (db s) /\ clientid x ∉ l).
Proof.
  revert s. induction l as [|c l IH]; intros s Hd; cbn [for_each].
  - exists (db s). rewrite set_db_id. split; [done|]. split; [done|]. intros x. rewrite elem_of_nil. tauto.
  - unfold bind at 1, db_remove_clientid at 1, modify.
    destruct (IH (set_db s (mi_delete (db s) (has_clientid c)))) as (d2 & Hl & Hd2 & Hx2);
      [by apply mi_distinct_delete|].
    exists d2. split; [exact Hl|]. split; [done|]. intros x. rewrite Hx2. cbn [db set_db].
    rewrite mi_delete_elem, elem_of_cons. unfold has_clientid. rewrite Z.eqb_neq. tauto.
Qed.

(** ** The invariant *)

(** One id string per client id and the other way round; at most one confirmed and one
    unconfirmed record each; every id has been given out. *)
Record cm_inv s : Prop := MkCmInv {
  inv_tokens : distinct (db s);
  inv_ids e x : e ∈ iter (db s) -> x ∈ iter (db s) -> id e = id x <-> clientid e = clientid x;
  inv_one e x : e ∈ iter (db s) -> x ∈ iter (db s) -> clientid e = clientid x ->
                confirmed e = confirmed x -> e = x;
  inv_seq e : e ∈ iter (db s) -> clientid e <= client_id_seq s;
  inv_width : in_width 64 (client_id_seq s)
}.

Lemma cm_inv_new : cm_inv new.
Proof.
  split; cbn [db client_id_seq new].
  - apply mi_distinct_empty.
  - intros e x. rewrite mi_iter_empty. by intros ?%elem_of_nil.
  - intros e x. rewrite mi_iter_empty. by intros ?%elem_of_nil.
  - intros e. rewrite mi_iter_empty. by intros ?%elem_of_nil.
  - unfold in_width. lia.
Qed.

(** Records taken away. *)
Lemma cm_inv_sub s d n :
  cm_inv s -> distinct d -> client_id_seq s <= n -> in_width 64 n ->
  (forall x, x ∈ iter d -> x ∈ iter (db s)) ->
  cm_inv (set_client_id_seq (set_db s d) n).
Proof.
  intros Hi Hd Hn Hw Hsub. split; cbn; [done|..|done].
  - intros e x He%Hsub Hx%Hsub. by apply (inv_ids s).
  - intros e x He%Hsub Hx%Hsub. by apply (inv_one s).
  - intros e He%Hsub. apply (inv_seq s) in He; [lia|done].
Qed.

Lemma set_seq_id s : set_client_id_seq s (client_id_seq s) = s.
Proof. by destruct s. Qed.

Lemma cm_inv_sub' s d :
  cm_inv s -> distinct d -> (forall x, x ∈ iter d -> x ∈ iter (db s)) -> cm_inv (set_db s d).
Proof.
  intros Hi Hd Hsub. rewrite <- (set_seq_id (set_db s d)). cbn [client_id_seq set_db].
  apply cm_inv_sub; [done|done|lia|by apply (inv_width s)|done].
Qed.

(** Records rewritten in place: names and the confirmed flag stay. *)
Lemma cm_inv_rewritten s R d :
  cm_inv s -> rewritten R (db s) d ->
  (forall a b, R a b -> id b = id a /\ clientid b = clientid a /\ confirmed b = confirmed a) ->
  cm_inv (set_db s d).
Proof.
  intros Hi (Hd & F & _) HR. split; cbn [db set_db client_id_seq]; [done|..|by apply (inv_width s)].
  - intros e x He Hx. destruct (F e He) as (a & Ha & (Ra1 & Ra2 & _)%HR & _).
    destruct (F x Hx) as (b & Hb & (Rb1 & Rb2 & _)%HR & _). rewrite Ra1, Ra2, Rb1, Rb2. by apply (inv_ids s).
  - intros e x He Hx Hc Hf. destruct (F e He) as (a & Ha & (Ra1 & Ra2 & Ra3)%HR & Ta).
    destruct (F x Hx) as (b & Hb & (Rb1 & Rb2 & Rb3)%HR & Tb).
    apply (token_unique d); [done..|]. rewrite Ta, Tb. f_equal. apply (inv_one s); congruence.
  - intros e He. destruct (F e He) as (a & Ha & (_ & Ra2 & _)%HR & _). rewrite Ra2. by apply (inv_seq s).
Qed.

Lemma get_by_elem d p x : x ∈ mi_get d p <-> x ∈ iter d /\ p x = true.
Proof. apply mi_get_elem. Qed.

Lemma get_tokens_nodup d p : distinct d -> NoDup (setclientid_confirm <$> mi_get d p).
Proof.
  intros Hd. pose proof (mi_get_spec d p) as Hp. rewrite Hp.
  eapply sublist_NoDup; [exact Hd|]. apply (fmap_sublist setclientid_confirm), sublist_filter.
Qed.

(** A record added whose client has no record of its kind. *)
Lemma cm_inv_insert s d e :
  cm_inv s -> distinct d -> (forall x, x ∈ iter d <-> x = e \/ x ∈ iter (db s)) ->
  (forall x, x ∈ iter (db s) -> id x = id e <-> clientid x = clientid e) ->
  (forall x, x ∈ iter (db s) -> clientid x = clientid e -> confirmed x <> confirmed e) ->
  clientid e <= client_id_seq s ->
  cm_inv (set_db s d).
Proof.
  intros Hi Hd Hx Hids Hone Hle. split; cbn [db set_db client_id_seq]; [done|..|by apply (inv_width s)].
  - intros a b [->|Ha]%Hx [->|Hb]%Hx; [done| |by apply Hids|by apply (inv_ids s)].
    rewrite (eq_comm (id e)), (eq_comm (clientid e)). by apply Hids.
  - intros a b [->|Ha]%Hx [->|Hb]%Hx Hcl Hcf; [done|..|by apply (inv_one s)].
    + by destruct (Hone b Hb).
    + by destruct (Hone a Ha).
  - intros a [->|Ha]%Hx; [done|by apply (inv_seq s)].
Qed.

(** The client id of a record to add: the one its id string has, else the next. *)
Lemma client_id_spec (s : CM) d (entries : list ClientEntry) i w :
  cm_inv s -> client_id_seq s < umax 64 ->
  (forall x, x ∈ entries <-> x ∈ iter (db s) /\ id x = i) ->
  exists c n,
    (match clientid <$> last entries with Some c => ret c | None => get_next_client_id end) (set_db s d) w
      = (Some c, set_client_id_seq (set_db s d) n, w) /\
    ((exists x, x ∈ iter (db s) /\ id x = i /\ c = clientid x /\ n = client_id_seq s) \/
     ((forall x, x ∈ iter (db s) -> id x <> i) /\ c = client_id_seq s + 1 /\ n = client_id_seq s + 1)) /\
    c <= n /\ client_id_seq s <= n /\ in_width 64 n /\
    (forall x, x ∈ iter (db s) -> id x = i <-> clientid x = c).
Proof.
  intros Hi Hseq Hent. pose proof (inv_width s Hi) as Hw. unfold in_width, umax in *.
  destruct (last entries) as [y|] eqn:El; cbn [fmap option_fmap option_map].
  - apply last_Some in El as [l El].
    assert (Hy : y ∈ entries) by (rewrite El; apply elem_of_app; right; left). apply Hent in Hy as [Hy <-].
    exists (clientid y), (client_id_seq s). split; [by destruct s|]. split; [left; eauto|].
    split; [by apply (inv_seq s)|]. split; [lia|]. split; [done|]. intros x Hx. by apply (inv_ids s).
  - apply last_None in El.
    assert (Hno : forall x, x ∈ iter (db s) -> id x <> i).
    { intros x Hx Hid. apply (not_elem_of_nil x). rewrite <- El. by apply Hent. }
    exists (client_id_seq s + 1), (client_id_seq s + 1). split.
    + unfold get_next_client_id, bind, modify, self, ret. cbn [client_id_seq set_db set_client_id_seq].
      rewrite wrap_small; [done|]. unfold in_width. lia.
    + split; [by right|]. split; [lia|]. split; [lia|]. split; [lia|]. intros x Hx.
      split; [by intros ?%(Hno x Hx)|]. pose proof (inv_seq s Hi x Hx). lia.
Qed.

(** ** SETCLIENTID *)

Lemma upsert_client_spec verf i cb prin s w r s' w' :
  cm_inv s -> client_id_seq s < umax 64 ->
  upsert_client verf i cb prin s w = (r, s', w') ->
  match r with
  | Some (Err st) => st = Nfs4errClidInuse /\ s' = s /\
      exists e, e ∈ iter (db s) /\ id e = i /\ confirmed e = true /\ principal e <> prin
  | Some (Ok e) =>
      e = MkClientEntry prin verf i (clientid e) cb (random_token w).1 false (now (random_token w).2).1 false /\
      (forall x, x ∈ iter (db s') <-> x = e \/ x ∈ iter (db s) /\ ~ (id x = i /\ confirmed x = false)) /\
      (forall x, x ∈ iter (db s) -> id x = i -> confirmed x = true -> principal x = prin) /\
      ((exists x, x ∈ iter (db s) /\ id x = i /\ clientid e = clientid x /\ client_id_seq s' = client_id_seq s) \/
       ((forall x, x ∈ iter (db s) -> id x <> i) /\ clientid e = client_id_seq s + 1 /\
        client_id_seq s' = client_id_seq s + 1)) /\
      filehandles s' = filehandles s /\ lease_time s' = lease_time s
  | None => (exists e, e ∈ iter (db s) /\ setclientid_confirm e = (random_token w).1) /\
      (forall x, x ∈ iter (db s') -> x ∈ iter (db s)) /\ lease_time s' = lease_time s
  end /\ cm_inv s'.
Proof.
  intros Hi Hseq. unfold upsert_client. unfold bind at 1, self.
  set (entries := mi_get (db s) (has_id i)).
  assert (Hent : forall x, x ∈ entries <-> x ∈ iter (db s) /\ id x = i).
  { intros x. unfold entries. rewrite mi_get_elem. unfold has_id. by rewrite bool_decide_eq_true. }
  destruct (existsb _ entries) eqn:Ex.
  { intros [= <- <- <-]. split; [|done]. split; [done|]. split; [done|].
    apply existsb_exists in Ex as (e & He%list_elem_of_In%Hent & [Hc Hp]%andb_prop).
    exists e. apply negb_true_iff, bool_decide_eq_false in Hp. tauto. }
  assert (Hprin : forall x, x ∈ iter (db s) -> id x = i -> confirmed x = true -> principal x = prin).
  { intros x Hx Hid Hc. destruct (decide (principal x = prin)) as [|Hne]; [done|].
    apply not_true_iff_false in Ex. destruct Ex. apply existsb_exists. exists x.
    split; [by apply list_elem_of_In, Hent|]. rewrite Hc. cbn. by apply negb_true_iff, bool_decide_eq_false. }
  unfold bind at 1.
  destruct (take_all_spec (filter (fun e => confirmed e = false) entries) s w (inv_tokens s Hi))
    as (d1 & -> & Hd1 & Hx1).
  assert (Hx1' : forall x, x ∈ iter d1 <-> x ∈ iter (db s) /\ ~ (id x = i /\ confirmed x = false)).
  { intros x. rewrite Hx1. split.
    - intros [Hx Hn]. split; [done|]. intros [Hid Hc]. apply Hn, list_elem_of_fmap_2, list_elem_of_filter.
      split; [done|by apply Hent].
    - intros [Hx Hn]. split; [done|]. intros (y & Hy & Hyf)%list_elem_of_fmap.
      apply list_elem_of_filter in Hyf as [Hc [Hyd Hid]%Hent]. 
      assert (x = y) as -> by exact (token_unique _ _ _ (inv_tokens s Hi) Hx Hyd Hy). tauto. }
  destruct (client_id_spec s d1 entries i w Hi Hseq Hent) as (c & n & Hgo & Hc & Hcn & Hn & Hnw & Hce).
  unfold add_client_record.
  unfold bind at 1. unfold bind at 1. rewrite Hgo.
  unfold bind at 1, outside at 1. destruct (random_token w) as [tok w1] eqn:Etok.
  unfold bind at 1, outside at 1. destruct (now w1) as [t w2] eqn:Et. unfold bind at 1.
  set (e := MkClientEntry prin verf i c cb tok false t false).
  set (s2 := set_client_id_seq (set_db s d1) n).
  assert (Hi2 : cm_inv s2).
  { unfold s2. apply cm_inv_sub; [done..|]. intros x Hx. by apply Hx1' in Hx as [? _]. }
  destruct (db_insert_spec e s2 w2 Hd1) as [(d2 & -> & Hd2 & Hx2 & Htn)|[-> (x & Hx & Htx)]].
  - unfold ret. cbn. intros [= <- <- <-]. rewrite Et. cbn [fst].
    split; [split; [done|]|].
    + split; [|split; [exact Hprin|split; [destruct Hc as [(x & H1 & H2 & H3 & H4)|H]; [left|right]; eauto|done]]].
      intros x. rewrite Hx2. cbn [db set_db s2 set_client_id_seq]. by rewrite Hx1'.
    + apply (cm_inv_insert s2 d2 e); [done..| | |done].
      * intros x [Hx _]%Hx1'. by apply Hce.
      * intros x [Hx Hn']%Hx1' Hxc. cbn in Hxc |- *. apply Hce in Hxc; [|done]. destruct (confirmed x); [done|tauto].
  - intros [= <- <- <-]. cbn [fst]. split; [|done]. split.
    + exists x. cbn in Hx, Htx. apply Hx1' in Hx. tauto.
    + split; [|done]. by intros y [? _]%Hx1'.
Qed.

(** ** SETCLIENTID_CONFIRM *)

Lemma last_filter {A} (Q : A -> Prop) `{forall a : A, Decision (Q a)} (l : list A) :
  match last (filter Q l) with
  | Some a => a ∈ l /\ Q a
  | None => forall a, a ∈ l -> ~ Q a
  end.
Proof.
  destruct (last (filter Q l)) as [a|] eqn:E.
  - apply last_Some in E as [l' E]. assert (Ha : a ∈ filter Q l) by (rewrite E; apply elem_of_app; right; left).
    by apply list_elem_of_filter in Ha as [? ?].
  - apply last_None in E. intros a Ha HQ. apply (not_elem_of_nil a). rewrite <- E. by apply list_elem_of_filter.
Qed.

(** The first step of a confirmation: the confirmed record with another token goes. *)
Lemma drop_old_spec s w cid token (entries : list ClientEntry) :
  cm_inv s -> (forall x, x ∈ entries <-> x ∈ iter (db s) /\ clientid x = cid) ->
  exists d,
    (match last (filter (fun e => confirmed e = true /\ setclientid_confirm e <> token) entries) with
     | Some old => bind (db_take (setclientid_confirm old)) (fun _ => ret tt)
     | None => ret tt
     end) s w = (Some tt, set_db s d, w) /\ distinct d /\
    (forall x, x ∈ iter d <->
       x ∈ iter (db s) /\ ~ (clientid x = cid /\ confirmed x = true /\ setclientid_confirm x <> token)).
Proof.
  intros Hi Hent.
  pose proof (last_filter (fun e => confirmed e = true /\ setclientid_confirm e <> token) entries) as Hold.
  destruct (last _) as [old|].
  - destruct Hold as [[Hod Hoc]%Hent [Hof Hot]]. unfold bind.
    destruct (db_take_spec (setclientid_confirm old) s w (inv_tokens s Hi)) as (found & d & -> & Hd & Hx & _).
    exists d. split; [done|]. split; [done|]. intros x. rewrite Hx. split.
    + intros [Hxd Hne]. split; [done|]. intros (Hc & Hf & Ht). destruct Hne. f_equal.
      apply (inv_one s); congruence.
    + intros [Hxd Hn]. split; [done|]. intros Heq.
      assert (x = old) as -> by exact (token_unique _ _ _ (inv_tokens s Hi) Hxd Hod Heq). tauto.
  - exists (db s). rewrite set_db_id. split; [done|]. split; [by apply (inv_tokens s)|].
    intros x. split; [|tauto]. intros Hx. split; [done|]. intros (Hc & Hf & Ht).
    apply (Hold x); [by apply Hent|done].
Qed.

(** A record confirmed in place of its client's confirmed record. *)
Lemma cm_inv_confirm s d e :
  cm_inv s -> distinct d -> e ∈ iter (db s) ->
  (forall x, x ∈ iter d <-> x = set_confirmed e \/ x ∈ iter (db s) /\
     setclientid_confirm x <> setclientid_confirm e /\ ~ (clientid x = clientid e /\ confirmed x = true)) ->
  cm_inv (set_db s d).
Proof.
  intros Hi Hd He Hx. split; cbn [db set_db client_id_seq]; [done|..|by apply (inv_width s)].
  - intros a b [->|[Ha _]]%Hx [->|[Hb _]]%Hx; cbn; by apply (inv_ids s).
  - intros a b [->|(Ha & _ & Hna)]%Hx [->|(Hb & _ & Hnb)]%Hx Hc Hf; cbn in Hc, Hf; [done|..|by apply (inv_one s)].
    + by destruct Hnb.
    + by destruct Hna.
  - intros a [->|[Ha _]]%Hx; cbn; by apply (inv_seq s).
Qed.

Lemma set_confirmed_updates w0 : updates (fun w => w = w0) (fun e e' => e' = set_confirmed e) (fun e => ret (set_confirmed e)).
Proof. intros e s w ->. by exists (set_confirmed e), w0. Qed.

Lemma confirm_client_spec cid token prin s w r s' w' :
  cm_inv s -> confirm_client cid token prin s w = (r, s', w') ->
  cm_inv s' /\ s' = set_db s (db s') /\
  match r with
  | Some (Ok e') => exists e, e ∈ iter (db s) /\ clientid e = cid /\ setclientid_confirm e = token /\
      e' = set_confirmed e /\
      (forall x, x ∈ iter (db s) -> clientid x = cid -> principal x = prin) /\
      (forall x, x ∈ iter (db s') <-> x = e' \/
         x ∈ iter (db s) /\ setclientid_confirm x <> token /\ ~ (clientid x = cid /\ confirmed x = true))
  | Some (Err st) =>
      (st = Nfs4errClidInuse /\ s' = s /\
       exists e, e ∈ iter (db s) /\ clientid e = cid /\ principal e <> prin) \/
      (st = Nfs4errStaleClientid /\
       (forall x, x ∈ iter (db s) -> clientid x = cid -> setclientid_confirm x <> token /\ principal x = prin) /\
       (forall x, x ∈ iter (db s') <-> x ∈ iter (db s) /\ ~ (clientid x = cid /\ confirmed x = true)))
  | None => False
  end.
Proof.
  intros Hi. unfold confirm_client. unfold bind at 1, self.
  assert (Hent : forall x, x ∈ mi_get (db s) (has_clientid cid) <-> x ∈ iter (db s) /\ clientid x = cid).
  { intros x. rewrite mi_get_elem. unfold has_clientid. by rewrite Z.eqb_eq. }
  destruct (mi_get (db s) (has_clientid cid)) as [|e0 l] eqn:Eg.
  { assert (Hno : forall x, x ∈ iter (db s) -> clientid x <> cid).
    { intros x Hx Hc. apply (not_elem_of_nil x). by apply Hent. }
    intros [= <- <- <-]. split; [done|]. split; [by rewrite set_db_id|]. right. split; [done|]. split.
    - intros x Hx Hc. by destruct (Hno x).
    - intros x. split; [|tauto]. intros Hx. split; [done|]. intros [Hc _]. by apply (Hno x). }
  clear Eg. set (entries := e0 :: l) in *. clearbody entries.
  destruct (existsb _ entries) eqn:Ex.
  { intros [= <- <- <-]. split; [done|]. split; [by rewrite set_db_id|]. left. split; [done|]. split; [done|].
    apply existsb_exists in Ex as (e & He%list_elem_of_In%Hent & Hp).
    exists e. apply negb_true_iff, bool_decide_eq_false in Hp. tauto. }
  assert (Hprin : forall x, x ∈ iter (db s) -> clientid x = cid -> principal x = prin).
  { intros x Hx Hc. destruct (decide (principal x = prin)) as [|Hne]; [done|].
    apply not_true_iff_false in Ex. destruct Ex. apply existsb_exists. exists x.
    split; [by apply list_elem_of_In, Hent|]. by apply negb_true_iff, bool_decide_eq_false. }
  unfold bind at 1. destruct (drop_old_spec s w cid token entries Hi Hent) as (d1 & -> & Hd1 & Hx1).
  assert (Hi1 : cm_inv (set_db s d1)).
  { apply cm_inv_sub'; [done|done|]. intros x. rewrite Hx1. tauto. }
  pose proof (last_filter (fun e => setclientid_confirm e = token) entries) as Hnew.
  destruct (last (filter _ entries)) as [e|]; cbn [fmap option_fmap option_map].
  - destruct Hnew as [[He Hec]%Hent Het]. unfold bind at 1.
    change (setclientid_confirm (set_confirmed e)) with (setclientid_confirm e).
    assert (He1 : e ∈ iter d1) by (apply Hx1; tauto).
    destruct (db_update_spec _ _ _ e (set_db s d1) w (set_confirmed_updates w) eq_refl Hd1 He1)
      as (e' & d2 & w2 & -> & _ & -> & _ & Hin & Hd2 & F & B).
    intros [= <- <- <-]. cbn [db set_db default] in *.
    assert (Hx2 : forall x, x ∈ iter d2 <-> x = set_confirmed e \/
      x ∈ iter (db s) /\ setclientid_confirm x <> token /\ ~ (clientid x = cid /\ confirmed x = true)).
    { intros x. split.
      - intros Hx. destruct (F x Hx) as (a & Ha & HR & Hta). destruct (decide _) as [Hd|Hd].
        + left. subst x. f_equal. exact (token_unique _ _ _ Hd1 Ha He1 Hd).
        + subst x. right. apply Hx1 in Ha as [Ha Hn]. split; [done|]. split; [congruence|]. intros [Hc Hf].
          apply Hn. split; [done|]. split; [done|congruence].
      - intros [->|(Hx & Ht & Hn)]; [done|].
        destruct (B x) as (b & Hb & HR & _); [apply Hx1; tauto|].
        rewrite decide_False in HR by congruence. by subst b. }
    split; [|split; [done|exists e; repeat split; (done || by apply Hx2)]].
    apply (cm_inv_confirm s d2 e); [done..|]. by rewrite Het, Hec.
  - intros [= <- <- <-]. cbn [db set_db]. split; [done|]. split; [done|]. right. split; [done|]. split.
    + intros x Hx Hc. split; [|by apply Hprin]. apply Hnew. by apply Hent.
    + intros x. rewrite Hx1. split; [|tauto]. intros [Hx Hn]. split; [done|]. intros [Hc Hf]. apply Hn.
      split; [done|]. split; [done|]. apply Hnew. by apply Hent.
Qed.

(** ** RENEW and the lease sweep *)

(** Updating every record of a client. *)
Lemma update_client_spec Q R f c s w :
  updates Q R f -> Q w -> distinct (db s) ->
  exists d w', for_each (mi_get (db s) (has_clientid c))
                 (fun e => bind (db_update (setclientid_confirm e) f) (fun _ => ret tt)) s w
               = (Some tt, set_db s d, w') /\ Q w' /\
    rewritten (fun a b => if decide (clientid a = c) then R a b else b = a) (db s) d.
Proof.
  intros Hf HQ Hd.
  destruct (update_all_spec Q R f (mi_get (db s) (has_clientid c)) s w Hf HQ Hd) as (d & w' & Hl & HQ' & Hrw).
  - by apply get_tokens_nodup.
  - intros e [He _]%mi_get_elem. by exists e.
  - exists d, w'. split; [done|]. split; [done|]. eapply rewritten_weaken; [exact Hrw|].
    intros a b Ha. cbn beta.
    assert (Hiff : setclientid_confirm a ∈ setclientid_confirm <$> mi_get (db s) (has_clientid c) <-> clientid a = c).
    { split.
      - intros (y & Hy & [Hyd Hyc]%mi_get_elem)%list_elem_of_fmap.
        assert (a = y) as -> by exact (token_unique _ _ _ Hd Ha Hyd Hy). by apply Z.eqb_eq.
      - intros Hc. apply list_elem_of_fmap_2, mi_get_elem. split; [done|]. by apply Z.eqb_eq. }
    destruct (decide (clientid a = c)) as [Hc|Hc].
    + by rewrite decide_True by (by apply Hiff).
    + by rewrite decide_False by (by intros ?%Hiff).
Qed.

(** The renewal times are what the clock shows in the worlds the handler passes. *)
Lemma renew_leases_spec (Q : W -> Prop) c s w r s' w' :
  Q (now w).2 -> (forall w, Q w -> Q (now w).2) ->
  cm_inv s -> renew_leases c s w = (r, s', w') ->
  cm_inv s' /\ s' = set_db s (db s') /\
  match r with
  | Some (Ok _) => (exists e, e ∈ iter (db s) /\ clientid e = c) /\
      rewritten (fun a b => if decide (clientid a = c)
                            then exists w0, Q w0 /\ b = set_renewed (now w0).1 a else b = a) (db s) (db s')
  | Some (Err st) => s' = s /\
      (st = Nfs4errStaleClientid /\ (forall e, e ∈ iter (db s) -> clientid e <> c) \/
       st = Nfs4errExpired /\ exists e, e ∈ iter (db s) /\ clientid e = c /\ confirmed e = true /\
         courtesy e = true /\ wrap 64 (lease_time s * 2) < elapsed_secs (now w).1 (last_renewed e))
  | None => False
  end.
Proof.
  intros HQ HQs Hi. unfold renew_leases. unfold bind at 1, self.
  pose proof (mi_get_elem (db s) (has_clientid c)) as Hent. unfold has_clientid at 2 in Hent.
  destruct (mi_get (db s) (has_clientid c)) as [|e0 l] eqn:Eg.
  { intros [= <- <- <-]. split; [done|]. split; [by rewrite set_db_id|]. split; [done|]. left. split; [done|].
    intros e He Hc. apply (not_elem_of_nil e), Hent. by rewrite Z.eqb_eq. }
  unfold bind at 1, outside at 1. destruct (now w) as [t w1] eqn:Et. cbn [fst].
  assert (He0 : e0 ∈ iter (db s) /\ clientid e0 = c).
  { rewrite <- Z.eqb_eq. apply Hent. left. }
  rewrite <- Eg. rewrite <- Eg in Hent. clear Eg l.
  destruct (existsb _ _) eqn:Ex.
  { intros [= <- <- <-]. split; [done|]. split; [by rewrite set_db_id|]. split; [done|]. right. split; [done|].
    apply existsb_exists in Ex as (e & [He Hc%Z.eqb_eq]%list_elem_of_In%Hent & [[Hf Hy]%andb_prop Ht%Z.ltb_lt]%andb_prop).
    by exists e. }
  unfold bind at 1.
  destruct (update_client_spec Q (fun a b => exists w0, Q w0 /\ b = set_renewed (now w0).1 a)
    (fun e => bind (outside now) (fun t => ret (set_renewed t e))) c s w1) as (d & w2 & -> & _ & Hrw).
  - intros e s1 w2 Hw. unfold bind, outside, ret. pose proof (HQs w2 Hw) as HQ'.
    destruct (now w2) as [t2 w3] eqn:Et2. exists (set_renewed t2 e), w3. split; [done|]. split; [done|].
    split; [exists w2; by rewrite Et2|done].
  - exact HQ.
  - by apply (inv_tokens s).
  - intros [= <- <- <-]. cbn [db set_db]. split; [|split; [done|split; [by exists e0|exact Hrw]]].
    eapply cm_inv_rewritten; [done|exact Hrw|]. intros a b. cbn beta.
    destruct (decide _); [intros (? & _ & ->)|intros ->]; done.
Qed.

Lemma mark_all_spec (cs : list Z) s w :
  distinct (db s) ->
  exists d, for_each cs (fun c => bind self (fun s => for_each (mi_get (db s) (has_clientid c)) (fun e =>
      bind (db_update (setclientid_confirm e) (fun e => ret (set_courtesy e))) (fun _ => ret tt)))) s w
    = (Some tt, set_db s d, w) /\
    rewritten (fun a b => b = if decide (clientid a ∈ cs) then set_courtesy a else a) (db s) d.
Proof.
  revert s. induction cs as [|c cs IH]; intros s Hd; cbn [for_each].
  - exists (db s). rewrite set_db_id. split; [done|]. apply rewritten_refl; [done|].
    intros a _. rewrite decide_False; [done|]. apply not_elem_of_nil.
  - unfold bind at 1. unfold bind at 1, self at 1.
    destruct (update_client_spec (fun w' => w' = w) (fun a b => b = set_courtesy a)
      (fun e => ret (set_courtesy e)) c s w) as (d1 & w1 & -> & -> & Hrw1); [|done|done|].
    { intros e s1 w1 ->. by exists (set_courtesy e), w. }
    destruct (IH (set_db s d1)) as (d2 & Hl & Hrw2); [apply Hrw1|]. exists d2. split; [exact Hl|].
    eapply rewritten_trans; [exact Hrw1|exact Hrw2|]. intros a b x _. cbn beta.
    assert (Hcl : forall e, clientid (set_courtesy e) = clientid e) by done.
    destruct (decide (clientid a = c)) as [Ea|Ea]; intros -> ->.
    + rewrite (decide_True (P := clientid a ∈ c :: cs)) by (rewrite Ea; left). by destruct (decide _).
    + destruct (decide (clientid a ∈ cs)).
      * by rewrite decide_True by (by right).
      * rewrite decide_False; [done|]. by intros [?|?]%elem_of_cons.
Qed.

Lemma sweep_leases_spec s w :
  cm_inv s ->
  let t := (now w).1 in
  let expired := clientid <$> filter (fun e => expires (lease_time s) t e = true) (iter (db s)) in
  let lapsed := clientid <$> filter (fun e => lapses (lease_time s) t e = true) (iter (db s)) in
  exists d, sweep_leases s w = (Some expired, set_db s d, (now w).2) /\ cm_inv (set_db s d) /\
    (forall x, x ∈ iter d <-> exists e, e ∈ iter (db s) /\ clientid e ∉ expired /\
       x = if decide (clientid e ∈ lapsed) then set_courtesy e else e).
Proof.
  intros Hi t expired lapsed. unfold sweep_leases. unfold bind at 1, outside at 1. subst t.
  destruct (now w) as [t w1] eqn:Et. cbn [fst snd] in *. unfold bind at 1, self at 1. fold expired. fold lapsed.
  unfold bind at 1. destruct (mark_all_spec lapsed s w1 (inv_tokens s Hi)) as (d1 & -> & Hrw).
  unfold bind at 1. destruct (remove_clientids_spec expired (set_db s d1) w1) as (d2 & -> & Hd2 & Hx2); [apply Hrw|].
  cbn [db set_db] in Hx2. exists d2. split; [done|].
  assert (Hi1 : cm_inv (set_db s d1)).
  { eapply cm_inv_rewritten; [done|exact Hrw|]. intros a b ->. by destruct (decide _). }
  split; [apply (cm_inv_sub' (set_db s d1)); [done|done|]; intros x; rewrite Hx2; tauto|].
  assert (Hcl : forall e, clientid (if decide (clientid e ∈ lapsed) then set_courtesy e else e) = clientid e).
  { intros e. by destruct (decide _). }
  destruct Hrw as (Hd1 & F & B). intros x. rewrite Hx2. split.
  - intros [Hx Hne]. destruct (F x Hx) as (e & He & -> & _). rewrite Hcl in Hne. by exists e.
  - intros (e & He & Hne & ->). destruct (B e He) as (x & Hx & -> & _). by rewrite Hcl.
Qed.

(** ** Recovery *)

(** The tokens a restore of [n] clients draws. *)
Fixpoint draws (n : nat) (w : W) : list (list byte) :=
  match n with
  | O => []
  | S n => (random_token w).1 :: draws n (now (random_token w).2).2
  end.

(** Snapshots of different clients, with ids that leave room for the next one. *)
Definition snapshots_ok (l : list ClientSnapshot) : Prop :=
  NoDup (snap_id <$> l) /\ NoDup (snap_clientid <$> l) /\
  Forall (fun p => 0 <= snap_clientid p < umax 64) l.

Lemma snapshot_of_restore p t r : snap_confirmed p = true -> snapshot_of (restore_entry p t r) = p.
Proof. destruct p; cbn. by intros ->. Qed.

Lemma bump_spec s c :
  cm_inv s -> 0 <= c < umax 64 ->
  exists n, bump_client_id_seq c s = set_client_id_seq s n /\ client_id_seq s <= n /\ c <= n /\ in_width 64 n.
Proof.
  intros Hi Hc. pose proof (inv_width s Hi) as Hw. unfold bump_client_id_seq, in_width, umax in *.
  destruct (Z.leb_spec (client_id_seq s) c).
  - exists (c + 1). unwrap. split; [done|lia].
  - exists (client_id_seq s). rewrite set_seq_id. split; [done|lia].
Qed.

(** One snapshot restored into a state that has no record of its client. *)
Lemma restore_one s p t r w :
  cm_inv s -> 0 <= snap_clientid p < umax 64 ->
  (forall e, e ∈ iter (db s) -> id e <> snap_id p /\ clientid e <> snap_clientid p) ->
  let e := restore_entry p t r in
  let s1 := bump_client_id_seq (snap_clientid p) s in
  (exists d, db_insert e s1 w = (Some tt, set_db s1 d, w) /\ cm_inv (set_db s1 d) /\
     (forall x, x ∈ iter d <-> x = e \/ x ∈ iter (db s))) \/
  (db_insert e s1 w = (None, s1, w) /\ cm_inv s1 /\ db s1 = db s /\
   exists x, x ∈ iter (db s) /\ setclientid_confirm x = t).
Proof.
  intros Hi Hc Hno e s1. destruct (bump_spec s (snap_clientid p) Hi Hc) as (n & Hs1 & Hle & Hcn & Hw).
  assert (Hi1 : cm_inv s1).
  { unfold s1. rewrite Hs1. rewrite <- (set_db_id s) at 1. apply cm_inv_sub; [done|by apply (inv_tokens s)|done..]. }
  assert (Hdb : db s1 = db s) by (unfold s1; by rewrite Hs1).
  destruct (db_insert_spec e s1 w (inv_tokens s1 Hi1)) as [(d & -> & Hd & Hx & _)|[-> (x & Hx & Ht)]].
  - left. exists d. split; [done|]. rewrite Hdb in Hx. split; [|done].
    apply (cm_inv_insert s1 d e); [done|done|by rewrite Hdb|..]; rewrite ?Hdb.
    + intros x Hin. cbn. destruct (Hno x Hin). split; by intros ?.
    + intros x Hin Hcl. by destruct (Hno x Hin).
    + unfold s1. by rewrite Hs1.
  - right. rewrite Hdb in Hx. split; [done|]. split; [done|]. split; [done|]. by exists x.
Qed.

Lemma restore_clients_spec (l : list ClientSnapshot) n s w r s' w' :
  cm_inv s -> snapshots_ok l -> Forall (fun p => snap_confirmed p = true) l ->
  (forall p e, p ∈ l -> e ∈ iter (db s) -> id e <> snap_id p /\ clientid e <> snap_clientid p) ->
  restore_clients l n s w = (r, s', w') ->
  cm_inv s' /\
  match r with
  | Some m => m = n + Z.of_nat (length l) /\
      (forall x, x ∈ iter (db s') -> x ∈ iter (db s) \/
         exists p, p ∈ l /\ x = restore_entry p (setclientid_confirm x) (last_renewed x)) /\
      (forall x, x ∈ iter (db s) -> x ∈ iter (db s')) /\
      (forall p, p ∈ l -> exists x, x ∈ iter (db s') /\ x = restore_entry p (setclientid_confirm x) (last_renewed x))
  | None => ~ NoDup ((setclientid_confirm <$> iter (db s)) ++ draws (length l) w)
  end.
Proof.
  revert n s w. induction l as [|p l IH]; intros n s w Hi (Hnid & Hncl & Hran) Hconf Hno; cbn [restore_clients].
  { intros [= <- <- <-]. split; [done|]. split; [cbn; lia|]. split; [by left|]. split; [done|].
    intros p. by intros ?%elem_of_nil. }
  cbn [fmap list_fmap] in Hnid, Hncl. apply NoDup_cons in Hnid as [Hp1 Hnid]. apply NoDup_cons in Hncl as [Hp2 Hncl].
  apply Forall_cons_1 in Hran as [Hp3 Hran]. apply Forall_cons_1 in Hconf as [-> Hconf].
  unfold bind at 1, outside at 1. cbn [length draws]. destruct (random_token w) as [tok w1] eqn:Etok. cbn [fst snd].
  unfold bind at 1, outside at 1. destruct (now w1) as [t w2] eqn:Et. cbn [snd].
  unfold bind at 1, modify at 1. unfold bind at 1.
  assert (Hnop : forall e, e ∈ iter (db s) -> id e <> snap_id p /\ clientid e <> snap_clientid p).
  { intros e He. apply Hno; [left|done]. }
  destruct (restore_one s p tok t w2 Hi Hp3 Hnop) as [(d & -> & Hi1 & Hx)|(-> & Hi1 & _ & x & Hx & Ht)].
  - intros Hrest. apply IH in Hrest as [Hi' Hr]; [|done|done|done|].
    + split; [done|]. cbn [db set_db] in Hr. destruct r as [m|].
      * destruct Hr as (-> & F & K & B). split; [lia|]. split; [|split].
        -- intros x [[->|Hin]%Hx|(q & Hq & Eq)]%F; [right; exists p; split; [left|done]|by left|].
           right. exists q. split; [by right|done].
        -- intros x Hin. apply K, Hx. by right.
        -- intros q [->|Hq]%elem_of_cons; [|by apply B]. exists (restore_entry p tok t). split; [apply K, Hx; by left|done].
      * intros Hnd. apply Hr. clear Hr.
        apply NoDup_app in Hnd as (_ & Hdis & Hdr). apply NoDup_cons in Hdr as [Htn Hdr].
        apply NoDup_app. split; [exact (inv_tokens _ Hi1)|]. split; [|done].
        intros y (x & -> & [->|Hin]%Hx)%list_elem_of_fmap; [done|].
        intros Hy. apply (Hdis (setclientid_confirm x)); [by apply list_elem_of_fmap_2|by right].
    + intros q e Hq [->|He]%Hx; cbn [restore_entry id clientid]; [|apply Hno; [by right|done]].
      split; intros Heq; [apply Hp1|apply Hp2]; rewrite Heq; by apply list_elem_of_fmap_2.
  - intros [= <- <- <-]. split; [done|]. intros Hnd. apply NoDup_app in Hnd as (_ & Hdis & _).
    apply (Hdis tok); [rewrite <- Ht; by apply list_elem_of_fmap_2|left].
Qed.

(** ** Reachable states *)

Definition is_restore (msg : ClientManagerMessage) : bool :=
  match msg with RestoreClients _ => true | _ => false end.

(** The states of the actor: it starts empty, may restore a snapshot first, and then
    handles any messages in any worlds; a message that panics leaves the state it had
    reached. Fewer than 2^64 client ids have been given out. *)
Inductive client_reachable : CM -> Prop :=
| reach_new : client_reachable new
| reach_restored l w :
    snapshots_ok l -> Forall (fun p => snap_confirmed p = true) l ->
    client_reachable (client_handle_message (RestoreClients l) new w).1.2
| reach_step s msg w :
    client_reachable s -> client_id_seq s < umax 64 -> is_restore msg = false ->
    client_reachable (client_handle_message msg s w).1.2.

Lemma handle_inv s msg w :
  cm_inv s -> client_id_seq s < umax 64 -> is_restore msg = false ->
  cm_inv (client_handle_message msg s w).1.2.
Proof.
  intros Hi Hseq Hr. destruct msg as [v i cb p|c t p|a f|c| |c|c| |l]; [..|done]; cbn [client_handle_message];
    unfold bind at 1.
  - destruct (upsert_client v i cb p s w) as [[r s'] w'] eqn:E. apply upsert_client_spec in E as [_ Hi']; [|done..].
    by destruct r.
  - destruct (confirm_client c t p s w) as [[r s'] w'] eqn:E. apply confirm_client_spec in E as [Hi' _]; [|done..].
    by destruct r.
  - unfold set_current_fh, modify. cbn. by destruct Hi; split.
  - destruct (renew_leases c s w) as [[r s'] w'] eqn:E.
    apply (renew_leases_spec (fun _ => True)) in E as [Hi' _]; [|done..]. by destruct r.
  - destruct (sweep_leases_spec s w Hi) as (d & -> & Hi' & _). done.
  - done.
  - unfold revoke_courtesy_client, db_remove_clientid, modify. cbn.
    apply cm_inv_sub'; [done|by apply mi_distinct_delete, (inv_tokens s)|]. intros x. rewrite mi_delete_elem. tauto.
  - done.
Qed.

Lemma client_reachable_inv s : client_reachable s -> cm_inv s.
Proof.
  induction 1 as [|l w Hok Hc|s msg w _ IH Hseq Hr]; [apply cm_inv_new| |by apply handle_inv].
  cbn [client_handle_message]. unfold bind at 1. destruct (restore_clients l 0 new w) as [[r s'] w'] eqn:E.
  apply restore_clients_spec in E as [Hi' _]; [by destruct r|apply cm_inv_new|done|done|].
  intros p e _. cbn [db new]. rewrite mi_iter_empty. by intros ?%elem_of_nil.
Qed.

(** What a state saves names every client once. *)
Lemma saved_snapshots_ok s :
  cm_inv s -> Forall (fun e => 0 <= clientid e < umax 64) (iter (db s)) ->
  snapshots_ok (snapshot_of <$> filter (fun e => confirmed e = true) (iter (db s))).
Proof.
  intros Hi Hran. set (l := filter _ _).
  assert (Hl : forall e, e ∈ l <-> e ∈ iter (db s) /\ confirmed e = true).
  { intros e. unfold l. rewrite list_elem_of_filter. tauto. }
  assert (Hinj : forall {K} (f : ClientSnapshot -> K),
    (forall a b, a ∈ l -> b ∈ l -> f (snapshot_of a) = f (snapshot_of b) -> clientid a = clientid b) ->
    NoDup (f <$> (snapshot_of <$> l))).
  { intros K f Hf. rewrite <- list_fmap_compose. apply NoDup_fmap_2_strong.
    - intros a b Ha Hb Hab. pose proof (Hf a b Ha Hb Hab). apply Hl in Ha as [Ha Hac]. apply Hl in Hb as [Hb Hbc].
      apply (inv_one s); congruence.
    - apply NoDup_filter. pose proof (inv_tokens s Hi) as Ht. unfold mi_distinct in Ht. by apply NoDup_fmap_1 in Ht. }
  split; [apply Hinj|split; [apply Hinj|]].
  - intros a b [Ha _]%Hl [Hb _]%Hl Hab. by apply (inv_ids s).
  - by intros a b _ _ Hab.
  - apply Forall_fmap, Forall_forall. intros e [He _]%Hl. rewrite Forall_forall in Hran. by apply Hran.
Qed.

(** ** Theorems *)

(** C25: In every reachable state a client id has one id string and an id string one
    client id; a client has at most one confirmed and one unconfirmed record;
    confirmation tokens are unique; every client id is at most the counter, so the next
    one is new. *)
Theorem client_records_wellformed s :
  client_reachable s ->
  NoDup (setclientid_confirm <$> iter (db s)) /\
  (forall e x, e ∈ iter (db s) -> x ∈ iter (db s) ->
     (id e = id x <-> clientid e = clientid x) /\
     (clientid e = clientid x -> confirmed e = confirmed x -> e = x)) /\
  (forall e, e ∈ iter (db s) -> clientid e <= client_id_seq s).
Proof.
  intros Hi%client_reachable_inv. split; [by apply (inv_tokens s)|]. split; [|by apply (inv_seq s)].
  intros e x He Hx. split; [by apply (inv_ids s)|by apply (inv_one s)].
Qed.

(** C9: SETCLIENTID and its confirmation. In a reachable state SETCLIENTID is refused,
    changing nothing, exactly by a confirmed record of the same id string and another
    principal; it fails to return only if the random token drawn is in use. Otherwise
    it replaces the unconfirmed record of the id string, keeping its client id, or
    takes a new one; and confirming what it returned, whenever the clock and the
    generator stand, leaves the confirmed record as the only one of that client. *)
Theorem setclientid_handshake verf i cb prin s w w2 :
  client_reachable s -> client_id_seq s < umax 64 ->
  let '(r, s1, _) := upsert_client verf i cb prin s w in
  match r with
  | Some (Ok e) =>
      (forall x, x ∈ iter (db s) -> id x = i -> confirmed x = true -> principal x = prin) /\
      e = MkClientEntry prin verf i (clientid e) cb (random_token w).1 false (now (random_token w).2).1 false /\
      (forall x, x ∈ iter (db s1) <-> x = e \/ x ∈ iter (db s) /\ ~ (id x = i /\ confirmed x = false)) /\
      (forall x, x ∈ iter (db s) -> clientid x = clientid e <-> id x = i) /\
      let '(r2, s2, _) := confirm_client (clientid e) (setclientid_confirm e) prin s1 w2 in
      r2 = Some (Ok (set_confirmed e)) /\
      (forall x, x ∈ iter (db s2) <-> x = set_confirmed e \/ x ∈ iter (db s) /\ id x <> i)
  | Some (Err st) => st = Nfs4errClidInuse /\ s1 = s /\
      exists e, e ∈ iter (db s) /\ id e = i /\ confirmed e = true /\ principal e <> prin
  | None => exists e, e ∈ iter (db s) /\ setclientid_confirm e = (random_token w).1
  end.
Proof.
  intros Hi%client_reachable_inv Hseq. destruct (upsert_client verf i cb prin s w) as [[r s1] w1] eqn:E.
  apply upsert_client_spec in E as [Hr Hi1]; [|done..]. destruct r as [[e|st]|]; [|done|apply Hr].
  destruct Hr as (He & Hx & Hprin & Hid & _).
  assert (Hei : id e = i /\ confirmed e = false /\ principal e = prin) by (by rewrite He).
  destruct Hei as (Hei & Hef & Hep).
  assert (Hin : e ∈ iter (db s1)) by (apply Hx; by left).
  assert (Hcl : forall x, x ∈ iter (db s) -> clientid x = clientid e <-> id x = i).
  { intros x Hin'. destruct Hid as [(y & Hy & <- & -> & _)|(Hno & Hce & _)].
    - symmetry. by apply (inv_ids s).
    - split; [|by intros ?%(Hno x Hin')]. pose proof (inv_seq s Hi x Hin'). lia. }
  do 4 (split; [done|]).
  destruct (confirm_client _ _ prin s1 w2) as [[r2 s2] w3] eqn:E2.
  apply confirm_client_spec in E2 as (_ & _ & Hr2); [|done].
  assert (Hp1 : forall x, x ∈ iter (db s1) -> clientid x = clientid e -> principal x = prin).
  { intros x Hx1 Hc. apply (inv_ids s1 Hi1) in Hc; [|done..]. apply Hx in Hx1 as [->|[Hxs Hn]]; [done|].
    apply Hprin; [done|congruence|]. destruct (confirmed x); [done|]. destruct Hn. split; [congruence|done]. }
  destruct r2 as [[e2|st]|]; [| |done].
  - destruct Hr2 as (e1 & He1 & _ & Ht1 & -> & _ & Hx2).
    assert (e1 = e) as -> by exact (token_unique _ _ _ (inv_tokens s1 Hi1) He1 Hin Ht1).
    split; [done|]. intros x. rewrite Hx2. split.
    + intros [?|(Hx1 & Ht & Hn)]; [by left|]. right. apply Hx in Hx1 as [->|[Hxs Hn2]]; [done|]. split; [done|].
      intros Hxi. apply Hn. split; [by apply Hcl|]. destruct (confirmed x); [done|]. tauto.
    + intros [?|[Hxs Hxi]]; [by left|]. right. assert (Hx1 : x ∈ iter (db s1)) by (apply Hx; tauto).
      split; [done|]. split.
      * intros Ht. destruct Hxi. by rewrite (token_unique _ _ _ (inv_tokens s1 Hi1) Hx1 Hin Ht).
      * intros [Hc _]. by apply Hxi, Hcl.
  - exfalso. destruct Hr2 as [(_ & _ & y & Hy & Hyc & Hyp)|(_ & Hno & _)]; [by apply Hyp, Hp1|].
    by destruct (Hno e Hin eq_refl).
Qed.

(** A SETCLIENTID_CONFIRM for a known client with the right principal and a token no
    record of that client has is answered STALE_CLIENTID, yet it removes the client's
    confirmed record: its leases can no longer be renewed. *)
Theorem confirm_wrong_token_drops_client cid token prin s w e :
  client_reachable s -> e ∈ iter (db s) -> clientid e = cid ->
  (forall x, x ∈ iter (db s) -> clientid x = cid -> principal x = prin /\ setclientid_confirm x <> token) ->
  let '(r, s', _) := confirm_client cid token prin s w in
  r = Some (Err Nfs4errStaleClientid) /\
  (forall x, x ∈ iter (db s') <-> x ∈ iter (db s) /\ ~ (clientid x = cid /\ confirmed x = true)).
Proof.
  intros Hi%client_reachable_inv He Hc Hall. destruct (confirm_client cid token prin s w) as [[r s'] w'] eqn:E.
  apply confirm_client_spec in E as (_ & _ & Hr); [|done]. destruct r as [[e'|st]|]; [| |done].
  - destruct Hr as (y & Hy & Hyc & Hyt & _). by destruct (Hall y).
  - destruct Hr as [(_ & _ & y & Hy & Hyc & Hyp)|(-> & _ & Hx)]; [by destruct (Hall y)|done].
Qed.

(** The lease sweep. From a reachable state it removes exactly the clients with a
    confirmed record already in courtesy state for two lease times, marks exactly the
    clients with a confirmed record past its lease, changes nothing else, and returns
    the clients removed. *)
Theorem sweep_exact s w :
  client_reachable s ->
  let t := (now w).1 in
  let expired c := exists e, e ∈ iter (db s) /\ clientid e = c /\ expires (lease_time s) t e = true in
  let lapsed c := exists e, e ∈ iter (db s) /\ clientid e = c /\ lapses (lease_time s) t e = true in
  exists l d, sweep_leases s w = (Some l, set_db s d, (now w).2) /\
    (forall c, c ∈ l <-> expired c) /\
    (forall x, x ∈ iter d <-> exists e, e ∈ iter (db s) /\ ~ expired (clientid e) /\
       (lapsed (clientid e) /\ x = set_courtesy e \/ ~ lapsed (clientid e) /\ x = e)).
Proof.
  intros Hi%client_reachable_inv. cbn zeta. destruct (sweep_leases_spec s w Hi) as (d & Hs & _ & Hx).
  assert (Hl : forall (p : ClientEntry -> bool) c,
    c ∈ clientid <$> filter (fun e => p e = true) (iter (db s)) <->
    exists e, e ∈ iter (db s) /\ clientid e = c /\ p e = true).
  { intros p c. rewrite list_elem_of_fmap. split.
    - intros (e & -> & [Hp He]%list_elem_of_filter). by exists e.
    - intros (e & He & <- & Hp). exists e. split; [done|]. by apply list_elem_of_filter. }
  eexists _, d. split; [exact Hs|]. split; [intros c; apply Hl|].
  intros x. rewrite Hx. apply exist_proper. intros e. rewrite <- (Hl (expires _ _)), <- (Hl (lapses _ _)).
  apply and_iff_compat_l, and_iff_compat_l. destruct (decide _); tauto.
Qed.

(** A renewed lease is honoured. When the clock does not run backwards, a sweep less
    than one lease time after a successful RENEW leaves every record of that client in
    place and out of courtesy state. *)
Theorem renewed_lease_safe c s w w2 :
  (forall w, (now w).1 <= (now (now w).2).1) ->
  client_reachable s -> lease_time s = 90 ->
  let '(r, s1, _) := renew_leases c s w in
  r = Some (Ok tt) -> (now w2).1 < (now w).1 + 90 * 1000000000 ->
  let '(r2, s2, _) := sweep_leases s1 w2 in
  (exists l, r2 = Some l /\ c ∉ l) /\
  forall x, x ∈ iter (db s1) -> clientid x = c -> x ∈ iter (db s2) /\ courtesy x = false.
Proof.
  intros Hmono Hi%client_reachable_inv Hlease. destruct (renew_leases c s w) as [[r s1] w1] eqn:E.
  intros -> Hsoon. apply (renew_leases_spec (fun v => (now w).1 <= (now v).1)) in E as (Hi1 & Hs1 & Hex & Hrw);
    [|apply Hmono|intros v Hv; pose proof (Hmono v); lia|done].
  destruct (sweep_leases_spec s1 w2 Hi1) as (d & -> & _ & Hx). cbn [db set_db].
  assert (Hfresh : forall x, x ∈ iter (db s1) -> clientid x = c ->
    courtesy x = false /\ (now w).1 <= last_renewed x).
  { intros x Hin Hc. destruct Hrw as (_ & F & _). destruct (F x Hin) as (a & _ & HR & _).
    destruct (decide (clientid a = c)) as [Ha|Ha]; [by destruct HR as (v & Hv & ->)|by subst a]. }
  assert (Hl1 : lease_time s1 = 90) by (by rewrite Hs1).
  assert (Hno : forall x, x ∈ iter (db s1) -> clientid x = c ->
    lapses (lease_time s1) (now w2).1 x = false /\ expires (lease_time s1) (now w2).1 x = false).
  { intros x Hin Hc. destruct (Hfresh x Hin Hc) as [Hcf Hlr]. unfold expires, lapses. rewrite Hcf, Hl1.
    assert (elapsed_secs (now w2).1 (last_renewed x) < 90) as Hel.
    { unfold elapsed_secs. apply Z.div_lt_upper_bound; lia. }
    rewrite (proj2 (Z.leb_gt _ _) Hel), !andb_false_r. done. }
  assert (Hnot : forall (p : Z -> Z -> ClientEntry -> bool),
    (forall x, x ∈ iter (db s1) -> clientid x = c -> p (lease_time s1) (now w2).1 x = false) ->
    c ∉ clientid <$> filter (fun e => p (lease_time s1) (now w2).1 e = true) (iter (db s1))).
  { intros p Hp (y & Hy & [Hpy Hyin]%list_elem_of_filter)%list_elem_of_fmap. rewrite Hp in Hpy; done. }
  split; [eexists; split; [done|apply Hnot; intros; by apply Hno]|].
  intros x Hin Hc. split; [|by apply Hfresh]. apply Hx. exists x. rewrite Hc. split; [done|]. split.
  - apply Hnot. intros; by apply Hno.
  - rewrite decide_False; [done|]. apply Hnot. intros; by apply Hno.
Qed.

(** Recovery. What a reachable state saves (the confirmed records) restores, in a
    fresh client manager whose tokens drawn are distinct, to confirmed records with the
    same principal, verifier, id, client id and callback and no others, none in courtesy
    state, with a counter past every restored client id. *)
Theorem recovery_roundtrip s w wr :
  client_reachable s -> Forall (fun e => 0 <= clientid e < umax 64) (iter (db s)) ->
  let '(saved, _, _) := get_all_clients s w in
  exists l, saved = Some l /\
    (NoDup (draws (length l) wr) ->
     let '(r, s', _) := restore_clients (snapshot_of <$> l) 0 new wr in
     r = Some (Z.of_nat (length l)) /\
     (forall p, p ∈ snapshot_of <$> iter (db s') <->
        exists e, e ∈ iter (db s) /\ confirmed e = true /\ p = snapshot_of e) /\
     (forall e, e ∈ iter (db s') -> courtesy e = false /\ clientid e <= client_id_seq s')).
Proof.
  intros Hi%client_reachable_inv Hran. unfold get_all_clients, bind, self, ret.
  set (l := filter (fun e => confirmed e = true) (iter (db s))). exists l. split; [done|]. intros Hnd.
  assert (Hl : forall e, e ∈ l <-> e ∈ iter (db s) /\ confirmed e = true).
  { intros e. unfold l. rewrite list_elem_of_filter. tauto. }
  assert (Hls : forall p, p ∈ snapshot_of <$> l <-> exists e, e ∈ iter (db s) /\ confirmed e = true /\ p = snapshot_of e).
  { intros p. rewrite list_elem_of_fmap. split.
    - intros (e & -> & [? ?]%Hl). by exists e.
    - intros (e & ? & ? & ->). exists e. split; [done|]. by apply Hl. }
  assert (Hok : snapshots_ok (snapshot_of <$> l)) by (by apply saved_snapshots_ok).
  destruct (restore_clients (snapshot_of <$> l) 0 new wr) as [[r s'] w'] eqn:E.
  apply restore_clients_spec in E as [Hi' Hr]; [|apply cm_inv_new|done| |].
  2: { apply Forall_fmap, Forall_forall. by intros e [_ He]%Hl. }
  2: { intros p e _. cbn [db new]. rewrite mi_iter_empty. by intros ?%elem_of_nil. }
  rewrite length_fmap in Hr. cbn [db new] in Hr. rewrite mi_iter_empty in Hr.
  destruct r as [m|]; [|by destruct Hr]. destruct Hr as (-> & F & _ & B). split; [done|].
  assert (Hs' : forall e, e ∈ iter (db s') -> exists p, p ∈ snapshot_of <$> l /\ snap_confirmed p = true /\
    e = restore_entry p (setclientid_confirm e) (last_renewed e)).
  { intros e [?%elem_of_nil|(p & Hp & He)]%F; [done|]. exists p. split; [done|]. split; [|done].
    apply Hls in Hp as (y & _ & Hy & ->). done. }
  split; [|intros e He; split; [by destruct (Hs' e He) as (p & _ & _ & ->)|by apply (inv_seq s')]].
  intros p. rewrite <- Hls, list_elem_of_fmap. split.
  - intros (e & -> & He). destruct (Hs' e He) as (p & Hp & Hpc & ->). by rewrite snapshot_of_restore.
  - intros Hp. destruct (B p Hp) as (x & Hx & Ex). exists x. split; [|done]. rewrite Ex, snapshot_of_restore; [done|].
    apply Hls in Hp as (y & _ & Hy & ->). done.
Qed.
End Ops.

(** ** A world to run in: a clock, and tokens counted up *)

#[export] Instance demo_world : ClientWorld (Z * Z) := {
  now w := (w.1, (w.1 + 1, w.2));
  random_token w := (be_bytes 8 w.2, (w.1, w.2 + 1))
}.

#[local] Abbreviation no_callback := (MkClientCallback 0 "tcp" "10.0.0.2.8.1" 0).
#[local] Abbreviation demo_run msgs :=
  (fold_left (fun (sw : ClientManager (list ClientEntry) * (Z * Z)) m =>
     let '(_, s, w) := client_handle_message m sw.1 sw.2 in (s, w)) msgs (new, (0, 7))).
#[local] Abbreviation demo_token n := (be_bytes 8 n).
#[local] Abbreviation demo_msgs :=
  [UpsertClient (replicate 8 x00) "host" no_callback None; ConfirmClient 1 (demo_token 7) None].

#[local] Abbreviation demo_first := (UpsertClient (replicate 8 x00) "host" no_callback None).

Lemma demo_reachable : client_reachable (demo_run demo_msgs).1.
Proof.
  assert (E : (demo_run demo_msgs).1 =
    (client_handle_message (ConfirmClient 1 (demo_token 7) None) (client_handle_message demo_first new (0, 7)).1.2
       (1, 8)).1.2) by (vm_compute; reflexivity).
  rewrite E. apply reach_step; [|by vm_compute|done]. apply reach_step; [constructor|by vm_compute|done].
Qed.

Lemma client_records_wellformed_witness :
  let s := (demo_run demo_msgs).1 in
  length (db s) = 1%nat /\ NoDup (setclientid_confirm <$> db s).
Proof. split; [by vm_compute|]. apply (client_records_wellformed _ demo_reachable). Defined.

Lemma setclientid_handshake_witness :
  let s := (demo_run demo_msgs).1 in
  exists e s1 w1, upsert_client (replicate 8 x01) "host" no_callback None s (5, 9) = (Some (Ok e), s1, w1) /\
    clientid e = 1 /\ (forall x, x ∈ db s -> clientid x = clientid e <-> id x = "host"%string).
Proof.
  pose proof (setclientid_handshake (replicate 8 x01) "host" no_callback None (demo_run demo_msgs).1 (5, 9) (6, 9)
    demo_reachable ltac:(by vm_compute)) as H.
  eexists _, _, _. split; [by vm_compute|]. split; [by vm_compute|].
  destruct (upsert_client _ _ _ _ _ _) as [[r s1] w1] eqn:E. vm_compute in E. injection E as <- _ _. apply H.
Defined.

Lemma confirm_wrong_token_witness :
  let s := (demo_run demo_msgs).1 in
  let '(r, s', _) := confirm_client 1 (demo_token 99) None s (9, 9) in
  r = Some (Err Nfs4errStaleClientid) /\ db s' = [].
Proof.
  destruct (confirm_wrong_token_drops_client 1 (demo_token 99) None (demo_run demo_msgs).1 (9, 9)
    (hd (MkClientEntry None [] "" 0 no_callback [] false 0 false) (db (demo_run demo_msgs).1))) as [_ _];
    [exact demo_reachable|by vm_compute; left|by vm_compute| |by vm_compute].
  intros x. cbn -[demo_token]. intros Hx _. vm_compute in Hx. apply list_elem_of_singleton in Hx as ->. by vm_compute.
Defined.

Lemma sweep_exact_witness :
  let s := (demo_run demo_msgs).1 in
  exists l d, sweep_leases s (90000000000, 9) = (Some l, set_db s d, (90000000001, 9)) /\ l = [] /\
    map courtesy d = [true].
Proof.
  destruct (sweep_exact (demo_run demo_msgs).1 (90000000000, 9) demo_reachable) as (l & d & E & _).
  exists l, d. split; [exact E|]. vm_compute in E. injection E as <- <-. done.
Defined.

Lemma renewed_lease_safe_witness :
  let s := (demo_run demo_msgs).1 in
  let '(r, s1, _) := renew_leases 1 s (50, 9) in
  r = Some (Ok tt) /\
  (let '(r2, s2, _) := sweep_leases s1 (90000000000, 9) in
   (exists l, r2 = Some l /\ 1 ∉ l) /\ forall x, x ∈ db s1 -> clientid x = 1 -> x ∈ db s2 /\ courtesy x = false).
Proof.
  cbn zeta. pose proof (renewed_lease_safe 1 (demo_run demo_msgs).1 (50, 9) (90000000000, 9)) as H.
  destruct (renew_leases 1 (demo_run demo_msgs).1 (50, 9)) as [[r s1] w1] eqn:E.
  assert (Hr : r = Some (Ok tt)) by (vm_compute in E; by injection E as <- _ _).
  split; [exact Hr|]. refine (H _ _ _ Hr _); [intros w; cbn; lia|exact demo_reachable|by vm_compute|cbn; lia].
Defined.

Lemma recovery_roundtrip_witness :
  let s := (demo_run demo_msgs).1 in
  let '(saved, _, _) := get_all_clients s (9, 9) in
  exists l, saved = Some l /\ length l = 1%nat /\
    (let '(r, s', _) := restore_clients (snapshot_of <$> l) 0 new (100, 0) in
     r = Some 1 /\ length (db s') = 1%nat).
Proof.
  destruct (recovery_roundtrip (demo_run demo_msgs).1 (9, 9) (100, 0) demo_reachable) as (l & El & H).
  { apply Forall_forall. intros e He. vm_compute in He. apply list_elem_of_singleton in He as ->. by vm_compute. }
  exists l. split; [exact El|]. vm_compute in El. injection El as <-. split; [done|].
  destruct H as [H _]; [vm_compute; repeat constructor; set_solver|]. split; [by vm_compute|by vm_compute].
Defined.
