(* ===== verification/StateFile.v ===== *)
(** * The state file ([state_recovery.rs], [nfs/src/lib.rs])

    The clients are saved to a file every thirty seconds and restored when the server
    starts. A directory is its files' names and contents; writing a file can stop halfway,
    renaming can not. JSON is serde's, arguments of the definitions. *)

From S2P Require Import Prelude NfsTypes Xdr MultiIndex ClientManager ClientManagerSpec.
From stdpp Require Import base list gmap strings.
From Stdlib Require Import Strings.Byte ZArith Lia.
#[local] Open Scope Z_scope.

Record LockSnapshot : Type := MkLockSnapshot {
  lsnap_stateid : list byte; lsnap_seqid : Z; lsnap_client_id : Z; lsnap_owner : list byte; lsnap_lock_type : string;
  lsnap_filehandle_id : list byte; lsnap_start : option Z; lsnap_length : option Z; lsnap_share_access : option Z;
  lsnap_share_deny : option Z; lsnap_nfs_lock_type : option string
}.

Record StateSnapshot : Type := MkStateSnapshot {
  version : Z; boot_time : Z; written_at : Z; saved_clients : list ClientSnapshot; saved_locks : list LockSnapshot
}.

(** [StateSnapshot::new], at a time in seconds since the epoch. *)
Definition StateSnapshot_new (now boot_time : Z) : StateSnapshot := MkStateSnapshot 1 boot_time now [] [].

Definition lock_type_to_string (lt : NfsLockType4) : string :=
  match lt with ReadLt => "ReadLt" | WriteLt => "WriteLt" | ReadwLt => "ReadwLt" | WritewLt => "WritewLt" end.

Definition string_to_lock_type (s : string) : option NfsLockType4 :=
  if bool_decide (s = "ReadLt") then Some ReadLt else
  if bool_decide (s = "WriteLt") then Some WriteLt else
  if bool_decide (s = "ReadwLt") then Some ReadwLt else
  if bool_decide (s = "WritewLt") then Some WritewLt else None.

Lemma lock_type_roundtrip s t : string_to_lock_type s = Some t <-> s = lock_type_to_string t.
Proof.
  unfold string_to_lock_type. repeat case_bool_decide; subst; destruct t; split; intros; simplify_eq; done.
Qed.

(** ** The directory *)

Definition state_path : string := "nextnfs-state.json".
Definition tmp_path : string := "nextnfs-state.json.tmp".

Abbreviation Directory := (gmap string string).

(** What a file operation of [save] comes to: it works, or the write stops after some
    bytes, or the file can not be renamed. *)
Inductive SaveOutcome : Type := Saves | WriteStops (n : nat) | RenameFails.

Inductive SaveError : Type := SerializeError | WriteError | RenameError.
Inductive LoadError : Type :=
| NoStateFile | ReadError | ParseError | UnsupportedVersion (v : Z) | Stale (age : Z).

Section StateFile.
Variable to_json : StateSnapshot -> option string.
Variable from_json : string -> option StateSnapshot.

(** [StateRecovery::save]: first to a file next to it, which then takes its name. *)
Definition save (io : SaveOutcome) (snapshot : StateSnapshot) (d : Directory) : result unit SaveError * Directory :=
  match to_json snapshot with
  | None => (Err SerializeError, d)
  | Some json =>
    match io with
    | WriteStops n => (Err WriteError, <[tmp_path := String.substring 0 n json]> d)
    | RenameFails => (Err RenameError, <[tmp_path := json]> d)
    | Saves => (Ok tt, <[state_path := json]> (delete tmp_path (<[tmp_path := json]> d)))
    end
  end.

(** [StateRecovery::load]; a file that is there can be read. *)
Definition load (now : Z) (d : Directory) : result StateSnapshot LoadError :=
  match d !! state_path with
  | None => Err NoStateFile
  | Some json =>
    match from_json json with
    | None => Err ParseError
    | Some snapshot =>
      if negb (version snapshot =? 1) then Err (UnsupportedVersion (version snapshot)) else
      let age := sat_sub now (written_at snapshot) in
      if 300 <? age then Err (Stale age) else Ok snapshot
    end
  end.

Definition clear (d : Directory) : Directory := delete state_path d.
Definition state_exists (d : Directory) : bool := bool_decide (is_Some (d !! state_path)).

(** ** Stopping and starting *)

Section Clients.
Context {W M : Type} `{CW : !ClientWorld W} `{MI : !MultiIndex ClientEntry M client_clash}.

(** One round of the task that saves the clients. *)
Definition save_clients (io : SaveOutcome) (now boot : Z) (s : ClientManager M) (w : W) (d : Directory)
    : result unit SaveError * Directory :=
  match (get_all_clients s w).1.1 with
  | Some clients =>
    let snapshot := StateSnapshot_new now boot in
    save io (MkStateSnapshot (version snapshot) (boot_time snapshot) (written_at snapshot)
      (map snapshot_of clients) (saved_locks snapshot)) d
  | None => (Err SerializeError, d)
  end.

(** What [NFSServer::serve] does with the file before it takes connections: the client
    manager it goes on with, and the directory. *)
Definition recover (now : Z) (d : Directory) (w : W) : ClientManager M * W * Directory :=
  match load now d with
  | Ok snapshot => let '(_, s, w) := restore_clients (saved_clients snapshot) 0 new w in (s, w, clear d)
  | Err _ => (new, w, d)
  end.
End Clients.
End StateFile.

(** ** Restarts *)

Section Restart.
Context {W M : Type} `{CW : !ClientWorld W} `{MI : !MultiIndex ClientEntry M client_clash}.
Variable to_json : StateSnapshot -> option string.
Variable from_json : string -> option StateSnapshot.
Hypothesis json_roundtrip : forall x j, to_json x = Some j -> from_json j = Some x.

(** A save that does not get to its end leaves the state file as it was. *)
Lemma paths_differ : tmp_path <> state_path.
Proof. by vm_compute. Qed.

Lemma save_atomic io x d : io <> Saves -> (save to_json io x d).2 !! state_path = d !! state_path.
Proof. intros Hio. unfold save. destruct (to_json x); [|done]. by destruct io; [|apply (lookup_insert_ne _ _ _ _ paths_differ)..]. Qed.

Lemma load_saved now io x d d1 :
  save to_json io x d = (Ok tt, d1) -> version x = 1 ->
  load from_json now d1 = (if 300 <? sat_sub now (written_at x) then Err (Stale (sat_sub now (written_at x))) else Ok x).
Proof.
  unfold save. destruct (to_json x) as [j|] eqn:Ej; [|done]. destruct io; intros [Ho <-]%pair_equal_spec Hv; [|done..]. unfold load.
  rewrite lookup_insert_eq, (json_roundtrip x j Ej), Hv. done.
Qed.

Lemma load_same now d d' : d !! state_path = d' !! state_path -> load from_json now d = load from_json now d'.
Proof. intros E. unfold load. by rewrite E. Qed.

(** A save that is interrupted leaves what a start finds. *)
Lemma interrupted_same io now boot (s : ClientManager M) (w : W) d :
  io <> Saves -> (save_clients to_json io now boot s w d).2 !! state_path = d !! state_path.
Proof. intros Hio. unfold save_clients. destruct (get_all_clients s w).1.1; [by apply save_atomic|done]. Qed.

Lemma recover_nothing now d (w : W) : d !! state_path = None -> (recover (M:=M) from_json now d w).1.1 = new.
Proof. intros E. unfold recover, load. by rewrite E. Qed.

(** C37: Wherever the server stops after a save that completed, also in the middle of a
    later save, the first start within five minutes of that save goes on with exactly the
    clients that were confirmed then, none in courtesy state, under their principals,
    verifiers, ids and callbacks, and with a counter past their ids; the file is gone then,
    so that a second start finds no clients at whatever time, unless a save completed in
    between. A first start that is later begins with no clients, and keeps the file. *)
Theorem restart_recovers (s s' s'' : ClientManager M) (w w' w'' wr wr' : W) boot boot' boot'' t1 t' t'' d d1 io io' now now' :
  client_reachable s -> Forall (fun e => 0 <= clientid e < umax 64) (mi_iter (db s)) ->
  save_clients to_json Saves t1 boot s w d = (Ok tt, d1) -> io <> Saves -> io' <> Saves ->
  NoDup (draws (length (filter (fun e => confirmed e = true) (mi_iter (db s)))) wr) ->
  let d2 := (save_clients to_json io t' boot' s' w' d1).2 in
  let '(s2, _, d3) := recover from_json now d2 wr in
  let d4 := (save_clients to_json io' t'' boot'' s'' w'' d3).2 in
  if now <=? t1 + 300 then
    (forall p, p ∈ snapshot_of <$> mi_iter (db s2) <-> exists e, e ∈ mi_iter (db s) /\ confirmed e = true /\ p = snapshot_of e) /\
    (forall e, e ∈ mi_iter (db s2) -> courtesy e = false /\ clientid e <= client_id_seq s2) /\ d3 = delete state_path d2 /\
    (recover (M:=M) from_json now' d4 wr').1.1 = new
  else s2 = new /\ d3 = d2.
Proof.
  intros Hs Hids Hsave Hio Hio' Hnd. cbv zeta. set (d2 := (save_clients _ _ _ _ _ _ d1).2).
  assert (E2 : d2 !! state_path = d1 !! state_path) by by apply interrupted_same.
  pose proof (recovery_roundtrip s w wr Hs Hids) as R. unfold save_clients in Hsave.
  change (get_all_clients s w) with (Some (filter (fun e => confirmed e = true) (mi_iter (db s))), s, w) in *.
  destruct R as (l & [= <-] & R). cbn [fst] in Hsave. specialize (R Hnd). unfold recover at 1.
  rewrite (load_same now d2 d1 E2), (load_saved now _ _ _ _ Hsave) by done.
  cbn [written_at StateSnapshot_new]. unfold sat_sub. destruct (Z.leb_spec now (t1 + 300)).
  - rewrite (proj2 (Z.ltb_ge _ _)) by lia. cbn [saved_clients]. change (map snapshot_of ?l) with (snapshot_of <$> l).
    destruct (restore_clients _ 0 new wr) as [[r s2] w2]. destruct R as (_ & R1 & R2). split; [done|]. split; [done|]. split; [done|].
    apply recover_nothing. rewrite interrupted_same by done. apply lookup_delete_eq.
  - by rewrite (proj2 (Z.ltb_lt _ _)) by lia.
Qed.
End Restart.

(** ** A stand-in for JSON, and a restart

    Snapshots in XDR; one that would not read back is not written. *)

Definition codec_client : codec ClientSnapshot :=
  codec_iso (fun '(a, b, c, d, e, f, g, h, i) => MkClientSnapshot a b c d e f g h i)
    (fun c => (snap_principal c, snap_verifier c, snap_id c, snap_clientid c, callback_program c, callback_rnetid c,
       callback_raddr c, snap_callback_ident c, snap_confirmed c))
    (codec_pair (codec_pair (codec_pair (codec_pair (codec_pair (codec_pair (codec_pair (codec_pair
       (codec_option codec_string) codec_opaque) codec_string) codec_u64) codec_u32) codec_string) codec_string) codec_u32)
       codec_bool).

(** The server saves no locks. *)
Definition codec_state : codec StateSnapshot :=
  codec_iso (fun '(a, b, c, d) => MkStateSnapshot a b c d [])
    (fun x => (version x, boot_time x, written_at x, saved_clients x))
    (codec_pair (codec_pair (codec_pair codec_u32 codec_u64) codec_u64) (codec_seq codec_client)).

#[local] Instance ClientSnapshot_eq_dec : EqDecision ClientSnapshot.
Proof. solve_decision. Defined.
#[local] Instance LockSnapshot_eq_dec : EqDecision LockSnapshot.
Proof. solve_decision. Defined.
#[local] Instance StateSnapshot_eq_dec : EqDecision StateSnapshot.
Proof. solve_decision. Defined.

Definition toy_parse (s : string) : option StateSnapshot :=
  match codec_state.(de) (String.list_byte_of_string s) with Ok (x, _) => Some x | Err _ => None end.
Definition toy_json (x : StateSnapshot) : option string :=
  match codec_state.(ser) x with
  | Ok b => let s := String.string_of_list_byte b in if bool_decide (toy_parse s = Some x) then Some s else None
  | Err _ => None
  end.

Lemma toy_json_roundtrip x j : toy_json x = Some j -> toy_parse j = Some x.
Proof. unfold toy_json. destruct (codec_state.(ser) x); [|done]. cbv zeta. case_bool_decide; [|done]. by intros [= <-]. Qed.

(** A client registers and confirms; the server saves it, stops while it writes the next
    state, and starts again forty seconds later. *)
Definition registered : ClientManager (list ClientEntry) :=
  let '(_, s, w) := client_handle_message (UpsertClient (replicate 8 x00) "host" (MkClientCallback 0 "tcp" "10.0.0.2.8.1" 0) None)
    new (0, 7) in
  (client_handle_message (ConfirmClient 1 (be_bytes 8 7) None) s w).1.2.

Lemma registered_reachable : client_reachable registered.
Proof.
  assert (E : registered = (client_handle_message (ConfirmClient 1 (be_bytes 8 7) None)
    (client_handle_message (UpsertClient (replicate 8 x00) "host" (MkClientCallback 0 "tcp" "10.0.0.2.8.1" 0) None)
      (new : ClientManager (list ClientEntry)) (0, 7)).1.2 (1, 8)).1.2) by (vm_compute; reflexivity).
  rewrite E. apply reach_step; [|by vm_compute|done]. apply reach_step; [constructor|by vm_compute|done].
Qed.

Definition saved_at_100 : Directory := Eval vm_compute in (save_clients toy_json Saves 100 1 registered (9, 9) ∅).2.

Lemma restart_recovers_witness :
  let d2 := (save_clients toy_json (WriteStops 3) 130 1 registered (9, 9) saved_at_100).2 in
  let '(s2, _, d3) := recover toy_parse 140 d2 (100, 0) in
  let d4 := (save_clients toy_json RenameFails 150 1 registered (9, 9) d3).2 in
  (forall p, p ∈ snapshot_of <$> mi_iter (clash:=client_clash) (db s2) <->
     exists e, e ∈ mi_iter (clash:=client_clash) (db registered) /\ confirmed e = true /\ p = snapshot_of e) /\
  (forall e, e ∈ mi_iter (clash:=client_clash) (db s2) -> courtesy e = false /\ clientid e <= client_id_seq s2) /\
  d3 = delete state_path d2 /\ (recover (M:=list ClientEntry) toy_parse 160 d4 (100, 0)).1.1 = new.
Proof.
  apply (restart_recovers toy_json toy_parse toy_json_roundtrip registered registered registered (9, 9) (9, 9) (9, 9) (100, 0)
    (100, 0) 1 1 1 100 130 150 ∅ saved_at_100 (WriteStops 3) RenameFails 140 160 registered_reachable).
  - apply Forall_forall. intros e He. vm_compute in He. apply list_elem_of_singleton in He as ->. by vm_compute.
  - vm_compute. reflexivity.
  - done.
  - done.
  - vm_compute. repeat constructor; set_solver.
Defined.

