(* ===== verification/Request.v ===== *)
(** * The request of a COMPOUND ([request.rs], the handles of [op_pseudo.rs])

    [NfsRequest] is the state the operations of one COMPOUND pass on: the current and the
    saved filehandle, the export they are on and what the request holds of it, the
    connection's filehandle cache, the credential. What several requests share through an
    [Arc] (an export's access control, quota, statistics and rate limiter) is held by the
    id of its export, whose contents are the world's ([access_of]); export ids are never
    reused. The other actors are the interface [Actors]. *)

From S2P Require Import Prelude NfsTypes Rpc MultiIndex Locking FileManager Export.
From stdpp Require Import base list gmap strings.
From Stdlib Require Import Strings.Byte ZArith Lia.
#[local] Open Scope Z_scope.

(** ** Filehandles of the pseudo-root and of exports *)

Definition PSEUDO_ROOT_EXPORT_ID : Z := 0xFF.

(** [fh[i]], of the 26 bytes a handle has. *)
Definition fh_byte (fh : NfsFh4) (i : nat) : Z := Z_of_byte (nth i fh x00).

Definition pseudo_root_fh : NfsFh4 := byte_of_Z 0x02 :: byte_of_Z PSEUDO_ROOT_EXPORT_ID :: replicate 24 x00.

Definition is_pseudo_root_fh (fh : NfsFh4) : bool :=
  (fh_byte fh 0 =? 0x02) && (fh_byte fh 1 =? PSEUDO_ROOT_EXPORT_ID).

Definition export_id_from_fh (fh : NfsFh4) : Z :=
  if is_pseudo_root_fh fh then PSEUDO_ROOT_EXPORT_ID else fh_byte fh 1.

Definition stamp_export_id (fh : NfsFh4) (export_id : Z) : NfsFh4 := <[1%nat := byte_of_Z export_id]> fh.

(** [SecFlavor::secinfo] of the flavours that need no RPCSEC_GSS entry; the others carry
    the mechanism. *)
Definition SecFlavor_service (f : SecFlavor) : option Z :=
  match f with
  | Sys => None
  | Krb5 => Some RPC_GSS_SVC_NONE
  | Krb5i => Some RPC_GSS_SVC_INTEGRITY
  | Krb5p => Some RPC_GSS_SVC_PRIVACY
  end.

Section Request.
Context {W P C Fm : Type}.
#[local] Abbreviation FH := (Filehandle P C).

(** What the request asks of the export manager, the export's file manager and the file
    system. *)
Class Actors : Type := {
  list_exports : W -> list ExportInfo;
  export_by_id_of : W -> Z -> option (ExportInfo * Fm);
  access_of : W -> Z -> AccessControl;
  fm_export_root : Fm -> string;
  fm_root_filehandle : Fm -> W -> option FH * W;
  fm_filehandle_for_id : Fm -> NfsFh4 -> W -> option FH * W;
  fm_filehandle_for_path : Fm -> string -> W -> option FH * W;
  fm_update_filehandle : Fm -> FH -> W -> W;
  system_time : W -> Z;
  memory_fs_root : P
}.
Context `{V : !Vfs W P C} `{A : !Actors}.
Variable parse_ip : string -> option IpAddr.
Variable parse_socket : string -> option IpAddr.

Record NfsRequest : Type := MkNfsRequest {
  client_addr : string;
  filehandle : option FH;
  saved_filehandle : option FH;
  cached_fmanager : option Fm;
  export_stats : option Z;
  rate_limiter : option Z;
  quota_manager : option Z;
  access_control : option Z;
  read_only : bool;
  current_export_id : option Z;
  boot_time : Z;
  request_time : Z;
  filehandle_cache : option (gmap (list byte) (Z * FH));
  cache_ttl : Z;
  session_id : option (list byte);
  sequence_slotid : option Z;
  auth_cred : option OpaqueAuth;
  sec_flavor : SecFlavor
}.

Definition new_request (addr : string) (default_fmanager : option Fm) (boot now : Z)
    (cache : option (gmap (list byte) (Z * FH))) : NfsRequest :=
  MkNfsRequest addr None None default_fmanager None None None None false None boot now cache 10 None None
    None Sys.

(** The export part: file manager, shared parts, read-only flag and current export. *)
Definition with_export (r : NfsRequest) (fm : option Fm) (shared : option Z) (ro : bool) (id : option Z) : NfsRequest :=
  MkNfsRequest (client_addr r) (filehandle r) (saved_filehandle r) fm shared shared shared shared ro id
    (boot_time r) (request_time r) (filehandle_cache r) (cache_ttl r) (session_id r) (sequence_slotid r)
    (auth_cred r) (sec_flavor r).

Definition with_current_export_id (r : NfsRequest) (id : option Z) : NfsRequest :=
  MkNfsRequest (client_addr r) (filehandle r) (saved_filehandle r) (cached_fmanager r) (export_stats r)
    (rate_limiter r) (quota_manager r) (access_control r) (read_only r) id
    (boot_time r) (request_time r) (filehandle_cache r) (cache_ttl r) (session_id r) (sequence_slotid r)
    (auth_cred r) (sec_flavor r).

Definition with_filehandles (r : NfsRequest) (cur saved : option FH) : NfsRequest :=
  MkNfsRequest (client_addr r) cur saved (cached_fmanager r) (export_stats r) (rate_limiter r)
    (quota_manager r) (access_control r) (read_only r) (current_export_id r)
    (boot_time r) (request_time r) (filehandle_cache r) (cache_ttl r) (session_id r) (sequence_slotid r)
    (auth_cred r) (sec_flavor r).

Definition with_cache (r : NfsRequest) (c : option (gmap (list byte) (Z * FH))) : NfsRequest :=
  MkNfsRequest (client_addr r) (filehandle r) (saved_filehandle r) (cached_fmanager r) (export_stats r)
    (rate_limiter r) (quota_manager r) (access_control r) (read_only r) (current_export_id r)
    (boot_time r) (request_time r) c (cache_ttl r) (session_id r) (sequence_slotid r)
    (auth_cred r) (sec_flavor r).

Definition with_auth (r : NfsRequest) (cred : option OpaqueAuth) (f : SecFlavor) : NfsRequest :=
  MkNfsRequest (client_addr r) (filehandle r) (saved_filehandle r) (cached_fmanager r) (export_stats r)
    (rate_limiter r) (quota_manager r) (access_control r) (read_only r) (current_export_id r)
    (boot_time r) (request_time r) (filehandle_cache r) (cache_ttl r) (session_id r) (sequence_slotid r)
    cred f.

Definition set_auth_cred (r : NfsRequest) (cred : OpaqueAuth) : NfsRequest :=
  with_auth r (Some cred) (sec_flavor r).
Definition set_sec_flavor (r : NfsRequest) (f : SecFlavor) : NfsRequest := with_auth r (auth_cred r) f.
Definition set_filehandle (r : NfsRequest) (fh : FH) : NfsRequest :=
  with_filehandles r (Some fh) (saved_filehandle r).
Definition unset_filehandle (r : NfsRequest) : NfsRequest := with_filehandles r None (saved_filehandle r).
Definition save_filehandle (r : NfsRequest) : NfsRequest := with_filehandles r (filehandle r) (filehandle r).

(** ** Exports *)

Definition set_export (w : W) (r : NfsRequest) (export_id : Z) : NfsRequest :=
  if export_id =? PSEUDO_ROOT_EXPORT_ID then with_export r None None false (Some export_id)
  else match export_by_id_of w export_id with
       | Some (info, fm) =>
         with_export r (Some fm) (Some (Export.export_id info)) (Export.read_only info) (Some export_id)
       | None => with_current_export_id r (Some export_id)
       end.

Definition is_pseudo_root (r : NfsRequest) : bool :=
  bool_decide (current_export_id r = Some PSEUDO_ROOT_EXPORT_ID).

Definition set_filehandle_with_export (r : NfsRequest) (fh : FH) : NfsRequest :=
  with_current_export_id (set_filehandle r fh) (Some (export_id_from_fh (fh_id fh))).

Definition check_client_access (w : W) (r : NfsRequest) : bool :=
  match access_control r with
  | Some x => check_client parse_ip parse_socket (access_of w x) (client_addr r)
  | None => true
  end.

Definition sec_allowed (w : W) (r : NfsRequest) : bool :=
  match access_control r with
  | Some x => allows_flavor (access_of w x) (sec_flavor r)
  | None => bool_decide (current_export_id r = None) || bool_decide (sec_flavor r = Sys)
  end.

(** The flavours SECINFO announces, before [SecFlavor::secinfo]: those of the export, or
    at the pseudo-root those of the named export (of every export without a name), in the
    order of the export ids and each once. *)
Definition add_flavors (all fs : list SecFlavor) : list SecFlavor :=
  fold_left (fun all f => if bool_decide (f ∈ all) then all else all ++ [f]) fs all.

Fixpoint insert_by_id (e : ExportInfo) (l : list ExportInfo) : list ExportInfo :=
  match l with
  | [] => [e]
  | x :: l' => if Export.export_id e <? Export.export_id x then e :: l else x :: insert_by_id e l'
  end.

(** [sort_by_key]: stable. *)
Definition sort_by_id (l : list ExportInfo) : list ExportInfo :=
  fold_left (fun acc e => insert_by_id e acc) l [].

Definition secinfo_flavors (w : W) (r : NfsRequest) (nm : option string) : list SecFlavor :=
  match access_control r with
  | Some x => sec_flavors (access_of w x)
  | None =>
    let named := filter (fun e => nm = None \/ nm = Some (Export.name e)) (sort_by_id (list_exports w)) in
    let all := fold_left (fun all e => add_flavors all (sec_flavors (access_of w (Export.export_id e)))) named [] in
    match all with [] => [Sys] | _ => all end
  end.

(** ** Credentials *)

Definition auth_uid (r : NfsRequest) : Z :=
  match auth_cred r with Some (AuthUnixCred a) => Rpc.uid a | _ => 0 end.
Definition auth_gid (r : NfsRequest) : Z :=
  match auth_cred r with Some (AuthUnixCred a) => Rpc.gid a | _ => 0 end.
Definition is_gss_auth (r : NfsRequest) : bool :=
  match auth_cred r with Some (AuthGss _) => true | _ => false end.

(** ** The connection's filehandle cache *)

Definition cache_filehandle (w : W) (r : NfsRequest) (fh : FH) : NfsRequest :=
  with_cache r (<[fh_id fh := (system_time w, fh)]> <$> filehandle_cache r).

Definition drop_filehandle_from_cache (r : NfsRequest) (id : NfsFh4) : NfsRequest :=
  with_cache r (delete id <$> filehandle_cache r).

Definition get_filehandle_from_cache (w : W) (r : NfsRequest) (id : NfsFh4) : option FH * NfsRequest :=
  match filehandle_cache r ≫= (fun c => c !! id) with
  | None => (None, r)
  | Some (time, fh) =>
    if cache_ttl r <? elapsed_secs (system_time w) time then (None, drop_filehandle_from_cache r (fh_id fh))
    else if negb (vfs_exists w (file fh)) then (None, drop_filehandle_from_cache r (fh_id fh))
    else (Some fh, r)
  end.

(** ** The current filehandle *)

(** [None] is the panic of [file_manager] without an export. *)
Definition set_filehandle_id (r : NfsRequest) (id : NfsFh4) (w : W)
    : option (result FH NfsStat4 * NfsRequest * W) :=
  let export_id := export_id_from_fh id in
  let r := if bool_decide (current_export_id r = Some export_id) then r else set_export w r export_id in
  if export_id =? PSEUDO_ROOT_EXPORT_ID then Some (Err Nfs4errStale, r, w)
  else
    fm ← cached_fmanager r;
    Some (match fm_filehandle_for_id fm id w with
          | (Some fh, w) => (Ok fh, set_filehandle r fh, w)
          | (None, w) => (Err Nfs4errStale, r, w)
          end).

Definition restore_filehandle (w : W) (r : NfsRequest) : bool * NfsRequest :=
  match saved_filehandle r with
  | Some saved =>
    let export_id := export_id_from_fh (fh_id saved) in
    let r := if bool_decide (current_export_id r = Some export_id) then r else set_export w r export_id in
    (true, with_filehandles r (Some saved) (saved_filehandle r))
  | None => (false, r)
  end.

(** [Filehandle::pseudo_root] *)
Definition pseudo_root_filehandle (w : W) (id : NfsFh4) : FH :=
  let now := current_time w in
  MkFilehandle id memory_fs_root "/" Nf4dir 1 4096 1 (MkFsid4 0 0) 0x1ED 2 "0" "0" 4096 now now now
    None [] None 1.
End Request.
Arguments Actors : clear implicits.
Arguments NfsRequest : clear implicits.
