(* ===== verification/Perm.v ===== *)
(** * Permissions ([perm.rs])

    The checks every operation passes before it runs: the caller's mode bits on the
    objects the operation touches ([check_op]), and the ownership of what it creates
    ([chown_new_object]). [getpwnam] and [getgrnam] are the C library's lookups, [lchown]
    its system call. *)

From S2P Require Import Prelude NfsTypes Rpc MultiIndex Locking FileManager Export Request.
From stdpp Require Import base list gmap strings pretty.
From Stdlib Require Import Strings.Byte ZArith Lia.
#[local] Open Scope Z_scope.

Definition MAY_READ : Z := 4.
Definition MAY_WRITE : Z := 2.
Definition MAY_EXEC : Z := 1.
Definition OPEN4_SHARE_ACCESS_READ : Z := 1.
Definition OPEN4_SHARE_ACCESS_WRITE : Z := 2.

(** [libc]'s mode bits. *)
Definition S_IFMT : Z := 0xF000.
Definition S_IFDIR : Z := 0x4000.
Definition S_IFREG : Z := 0x8000.
Definition S_ISVTX : Z := 0x200.
Definition S_ISGID : Z := 0x400.

Definition is_dir_mode (m : Z) : bool := Z.land m S_IFMT =? S_IFDIR.
Definition is_reg_mode (m : Z) : bool := Z.land m S_IFMT =? S_IFREG.

(** ** Callers *)

Record Caller : Type := MkCaller { caller_uid : Z; caller_gid : Z; caller_gids : list Z }.

Definition Caller_new (cred : option OpaqueAuth) (ac : option AccessControl) : Caller :=
  let '(anon_uid, anon_gid) :=
    match ac with Some ac => anon_ids ac | None => (DEFAULT_ANON_ID, DEFAULT_ANON_ID) end in
  match cred with
  | Some (AuthUnixCred auth) =>
    let '(uid, gid, gids) :=
      match ac with
      | Some ac => map_ids ac (Rpc.uid auth) (Rpc.gid auth) (Rpc.gids auth)
      | None => default_map_ids (Rpc.uid auth) (Rpc.gid auth) (Rpc.gids auth)
      end in
    MkCaller uid gid gids
  | _ => MkCaller anon_uid anon_gid []
  end.

Definition is_root (c : Caller) : bool := caller_uid c =? 0.

Definition in_group (c : Caller) (gid : Z) : bool :=
  (caller_gid c =? gid) || bool_decide (gid ∈ caller_gids c).

Definition mode_bits (c : Caller) (meta : RealMeta) : Z :=
  if caller_uid c =? FileManager.uid meta then Z.land (Z.shiftr (FileManager.mode meta) 6) 7
  else if in_group c (FileManager.gid meta) then Z.land (Z.shiftr (FileManager.mode meta) 3) 7
  else Z.land (FileManager.mode meta) 7.

Definition may (c : Caller) (meta : RealMeta) (want : Z) : bool :=
  if is_root c then
    (Z.land want MAY_EXEC =? 0) || is_dir_mode (FileManager.mode meta) ||
    negb (Z.land (FileManager.mode meta) 0x49 =? 0)
  else Z.land (mode_bits c meta) want =? want.

Definition may_file (c : Caller) (meta : RealMeta) (want : Z) : bool :=
  if negb (is_root c) && (caller_uid c =? FileManager.uid meta) then true
  else if (want =? MAY_READ) && may c meta MAY_EXEC && is_reg_mode (FileManager.mode meta) then true
  else may c meta want.

Definition is_owner (c : Caller) (meta : RealMeta) : bool :=
  is_root c || (caller_uid c =? FileManager.uid meta).

Definition share_want (share_access : Z) : Z :=
  Z.lor (if has_bits share_access OPEN4_SHARE_ACCESS_READ then MAY_READ else 0)
        (if has_bits share_access OPEN4_SHARE_ACCESS_WRITE then MAY_WRITE else 0).

Definition need (ok : bool) (status : NfsStat4) : result unit NfsStat4 :=
  if ok then Ok tt else Err status.

(** ** Paths *)

Fixpoint split_slash (s : string) : list string :=
  match s with
  | String.EmptyString => [""%string]
  | String.String a s' =>
    match split_slash s' with
    | c :: cs => if Ascii.eqb a slash then ""%string :: c :: cs else String.String a c :: cs
    | [] => []
    end
  end.

(** The components of an absolute path; [Path::parent] drops the last one. *)
Definition path_components (s : string) : list string :=
  filter (fun c => c <> ""%string /\ c <> "."%string) (split_slash s).

Definition path_parent (s : string) : option string :=
  match rev (path_components s) with
  | [] => None
  | _ :: rest => Some (foldr (fun c acc => "/" +:+ c +:+ acc) ""%string (rev rest))
  end.

Fixpoint has_nul (s : string) : bool :=
  match s with
  | String.EmptyString => false
  | String.String a s' => Ascii.eqb a Ascii.zero || has_nul s'
  end.

(** ** The identities in an owner attribute ([handle.rs]) *)

(** A number, a number at a domain, or a name of the name service. *)
Definition resolve_nfs4_id (lookup : string -> option Z) (owner : string) : option Z :=
  match parse_uint (umax 32) owner with
  | Some n => Some n
  | None =>
    let name := match split_once (Ascii.ascii_of_nat 64) owner with Some (n, _) => n | None => owner end in
    match parse_uint (umax 32) name with
    | Some n => Some n
    | None => if has_nul name then None else lookup name
    end
  end.

Section Perm.
Context {W P C Fm : Type} `{V : !Vfs W P C} `{A : !Actors W P C Fm}.
Variable getpwnam : string -> option Z.
Variable getgrnam : string -> option Z.
Variable lchown : W -> string -> Z -> Z -> bool * W.
#[local] Abbreviation FH := (Filehandle P C).
#[local] Abbreviation Req := (NfsRequest P C Fm).

Definition resolve_nfs4_uid : string -> option Z := resolve_nfs4_id getpwnam.
Definition resolve_nfs4_gid : string -> option Z := resolve_nfs4_id getgrnam.

(** [FileManagerHandle::real_path] *)
Definition handle_real_path (fm : Fm) (vfs_path : string) : string :=
  if bool_decide (vfs_path = ""%string) || bool_decide (vfs_path = "/"%string) then fm_export_root fm
  else path_join (fm_export_root fm) (trim_start_matches slash vfs_path).

Definition stat (w : W) (path : string) : option RealMeta := from_path w path.

Definition child (fm : Fm) (dir : FH) (name : string) : string :=
  path_join (handle_real_path fm (path dir)) name.

Definition dir_path (w : W) (fm : Fm) (fh : FH) : string :=
  let real := handle_real_path fm (path fh) in
  match stat w real with
  | Some m => if is_dir_mode (FileManager.mode m) then real else default real (path_parent real)
  | None => real
  end.

Definition need_dir (w : W) (c : Caller) (dir : string) (want : Z) : result unit NfsStat4 :=
  match stat w dir with
  | Some m => if is_dir_mode (FileManager.mode m) then need (may c m want) Nfs4errAccess else Ok tt
  | None => Ok tt
  end.

Definition need_unlink (w : W) (c : Caller) (dir name : string) : result unit NfsStat4 :=
  match stat w dir with
  | None => Ok tt
  | Some dmeta =>
    if negb (is_dir_mode (FileManager.mode dmeta)) then Ok tt else
    try _ := need (may c dmeta (Z.lor MAY_WRITE MAY_EXEC)) Nfs4errAccess in
    if has_bits (FileManager.mode dmeta) S_ISVTX && negb (is_owner c dmeta) then
      match stat w (path_join dir name) with
      | Some entry => need (is_owner c entry) Nfs4errPerm
      | None => Ok tt
      end
    else Ok tt
  end.

Definition need_file (w : W) (c : Caller) (p : string) (want : Z) : result unit NfsStat4 :=
  match stat w p with
  | Some m => need (may_file c m want) Nfs4errAccess
  | None => Ok tt
  end.

Definition check_attr (c : Caller) (meta : RealMeta) (attr : FileAttrValue) : result unit NfsStat4 :=
  match attr with
  | FileAttrValue_Size _ => need (may_file c meta MAY_WRITE) Nfs4errAccess
  | FileAttrValue_Mode _ | FileAttrValue_Acl _ => need (is_owner c meta) Nfs4errPerm
  | FileAttrValue_Owner owner =>
    let noop := bool_decide (resolve_nfs4_uid owner = Some (FileManager.uid meta)) &&
                (caller_uid c =? FileManager.uid meta) in
    need (is_root c || noop) Nfs4errPerm
  | FileAttrValue_OwnerGroup group =>
    need (is_root c ||
          ((caller_uid c =? FileManager.uid meta) &&
           match resolve_nfs4_gid group with Some g => in_group c g | None => false end)) Nfs4errPerm
  | FileAttrValue_TimeAccessSet | FileAttrValue_TimeModifySet =>
    need (is_owner c meta || may c meta MAY_WRITE) Nfs4errAccess
  | _ => Ok tt
  end.

Fixpoint check_attrs (c : Caller) (meta : RealMeta) (attrs : list FileAttrValue) : result unit NfsStat4 :=
  match attrs with
  | [] => Ok tt
  | a :: attrs => try _ := check_attr c meta a in check_attrs c meta attrs
  end.

Definition check_setattr (w : W) (c : Caller) (p : string) (attrs : list FileAttrValue) : result unit NfsStat4 :=
  match stat w p with
  | None => Ok tt
  | Some meta => check_attrs c meta attrs
  end.

Definition same_export (a b : FH) : bool :=
  export_id_from_fh (fh_id a) =? export_id_from_fh (fh_id b).

Definition check_op (arg : NfsArgOp) (w : W) (r : Req) (c : Caller) : result unit NfsStat4 :=
  if is_pseudo_root r then Ok tt else
  match cached_fmanager r, filehandle r with
  | Some fm, Some fh =>
    let real (h : FH) := handle_real_path fm (path h) in
    let current := real fh in
    match arg with
    | Oplookup _ | Oplookupp => need_dir w c current MAY_EXEC
    | Opreaddir _ => need_dir w c current MAY_READ
    | Opcreate _ => need_dir w c (dir_path w fm fh) (Z.lor MAY_WRITE MAY_EXEC)
    | Opremove args => need_unlink w c current (remove4args_target args)
    | Oprename args =>
      match saved_filehandle r with
      | None => Ok tt
      | Some saved =>
        if negb (same_export saved fh) then Err Nfs4errXdev else
        try _ := need_unlink w c (real saved) (rename4args_oldname args) in
        need_unlink w c current (rename4args_newname args)
      end
    | Oplink _ =>
      match saved_filehandle r with
      | Some saved =>
        if negb (same_export saved fh) then Err Nfs4errXdev
        else need_dir w c current (Z.lor MAY_WRITE MAY_EXEC)
      | None => need_dir w c current (Z.lor MAY_WRITE MAY_EXEC)
      end
    | Opopen args =>
      match open4args_claim args with
      | ClaimNull name =>
        try _ := need_dir w c current MAY_EXEC in
        match stat w (child fm fh name), open4args_openhow args with
        | Some _, _ => need_file w c (child fm fh name) (share_want (open4args_share_access args))
        | None, How _ => need_dir w c current (Z.lor MAY_WRITE MAY_EXEC)
        | None, _ => Ok tt
        end
      | _ => need_file w c current (share_want (open4args_share_access args))
      end
    | Opread _ => need_file w c current MAY_READ
    | Opwrite _ | Opallocate _ => need_file w c current MAY_WRITE
    | Opcopy _ =>
      try _ := match saved_filehandle r with
               | Some saved => need_file w c (real saved) MAY_READ
               | None => Ok tt
               end in
      need_file w c current MAY_WRITE
    | Opsetattr args => check_setattr w c current (fattr4_attr_vals (setAttr4args_obj_attributes args))
    | _ => Ok tt
    end
  | _, _ => Ok tt
  end.

Definition creates_object (arg : NfsArgOp) (w : W) (r : Req) : bool :=
  match arg with
  | Opcreate _ => true
  | Opopen args =>
    match open4args_claim args, open4args_openhow args, cached_fmanager r, filehandle r with
    | ClaimNull name, How _, Some fm, Some fh =>
      match stat w (child fm fh name) with Some _ => false | None => true end
    | _, _, _, _ => false
    end
  | _ => false
  end.

Definition with_owner (fh : FH) (owner group : string) : FH :=
  MkFilehandle (fh_id fh) (file fh) (path fh) (attr_type fh) (attr_change fh) (attr_size fh)
    (attr_fileid fh) (attr_fsid fh) (attr_mode fh) (attr_nlink fh) owner group (attr_space_used fh)
    (attr_time_access fh) (attr_time_metadata fh) (attr_time_modify fh) (verifier fh) (locks fh)
    (write_cache fh) (version fh).

(** The ids a new object gets: the caller's, with the group of a setgid directory. *)
Definition new_object_gid (w : W) (c : Caller) (real : string) : Z :=
  match path_parent real ≫= stat w with
  | Some parent => if has_bits (FileManager.mode parent) S_ISGID then FileManager.gid parent else caller_gid c
  | None => caller_gid c
  end.

Definition chown_new_object (r : Req) (c : Caller) (w : W) : Req * W :=
  match cached_fmanager r, filehandle r with
  | Some fm, Some fh =>
    let real := handle_real_path fm (path fh) in
    match stat w real with
    | None => (r, w)
    | Some meta =>
      let gid := new_object_gid w c real in
      if (FileManager.uid meta =? caller_uid c) && (FileManager.gid meta =? gid) then (r, w)
      else if has_nul real then (r, w)
      else
        let '(ok, w) := lchown w real (caller_uid c) gid in
        if negb ok then (r, w)
        else
          let fh := with_owner fh (pretty (caller_uid c)) (pretty gid) in
          let w := fm_update_filehandle fm fh w in
          (set_filehandle (cache_filehandle w r fh) fh, w)
    end
  | _, _ => (r, w)
  end.

(** [NfsRequest::caller] *)
Definition caller (w : W) (r : Req) : Caller :=
  Caller_new (auth_cred r) (access_of w <$> access_control r).
End Perm.
