(* ===== verification/Compound.v ===== *)
(** * The COMPOUND dispatcher ([nfs40.rs], [op_putfh.rs])

    One call's operations in order, each behind the server's guards (rate limit, grace
    period, security flavour, read-only export, permissions) and followed by the checks of
    the export it moved to, until one fails. [execute] is the [NfsOperation] trait: what an
    operation that is not a filehandle operation of the dispatcher itself does. [None] is a
    panic of the task. The statistics counters and the audit log are left out. *)

From S2P Require Import Prelude NfsTypes Rpc MultiIndex Locking FileManager Export Request Perm.
From stdpp Require Import base list gmap strings.
From Stdlib Require Import Strings.Byte ZArith Lia.
#[local] Open Scope Z_scope.

#[export] Instance NfsStat4_eq_dec : EqDecision NfsStat4.
Proof. solve_decision. Defined.

Definition is_mutating (arg : NfsArgOp) : bool :=
  match arg with
  | Opopen args =>
    match open4args_openhow args with How _ => true | _ => false end
    || has_bits (open4args_share_access args) OPEN4_SHARE_ACCESS_WRITE
  | Opwrite _ | Opcommit _ | Opcreate _ | Opremove _ | Oprename _ | Oplink _ | Opsetattr _
  | Opallocate _ | Opcopy _ => true
  | _ => false
  end.

Definition OP_LOOKUP : Z := 15.
Definition OP_LOOKUPP : Z := 16.
Definition OP_PUTFH : Z := 22.
Definition OP_PUTPUBFH : Z := 23.
Definition OP_PUTROOTFH : Z := 24.
Definition OP_RESTOREFH : Z := 31.
Definition OP_SECINFO : Z := 33.
Definition OP_SECINFO_NO_NAME : Z := 52.

Definition moves_filehandle (opnum : Z) : bool :=
  bool_decide (opnum ∈ [OP_PUTFH; OP_PUTPUBFH; OP_PUTROOTFH; OP_RESTOREFH; OP_LOOKUP; OP_LOOKUPP]).

Definition wrongsec_exempt (opnum : Z) : bool :=
  moves_filehandle opnum || bool_decide (opnum ∈ [OP_SECINFO; OP_SECINFO_NO_NAME]).

Definition op_code (arg : NfsArgOp) : Z :=
  match arg with
  | OpUndef0 => 0 | OpUndef1 => 1 | OpUndef2 => 2
  | OpAccess _ => 3 | Opclose _ => 4 | Opcommit _ => 5 | Opcreate _ => 6 | Opdelegpurge _ => 7
  | Opdelegreturn _ => 8 | Opgetattr _ => 9 | Opgetfh => 10 | Oplink _ => 11 | Oplock _ => 12
  | Oplockt _ => 13 | Oplocku _ => 14 | Oplookup _ => 15 | Oplookupp => 16 | Opnverify _ => 17
  | Opopen _ => 18 | Opopenattr _ => 19 | OpopenConfirm _ => 20 | OpopenDowngrade _ => 21
  | Opputfh _ => 22 | Opputpubfh => 23 | Opputrootfh => 24 | Opread _ => 25 | Opreaddir _ => 26
  | Opreadlink => 27 | Opremove _ => 28 | Oprename _ => 29 | Oprenew _ => 30 | Oprestorefh => 31
  | Opsavefh => 32 | OpSecinfo _ => 33 | Opsetattr _ => 34 | Opsetclientid _ => 35
  | OpsetclientidConfirm _ => 36 | Opverify _ => 37 | Opwrite _ => 38 | OpreleaseLockOwner _ => 39
  | OpbindConnToSession _ => 41 | OpexchangeId _ => 42 | OpcreateSession _ => 43
  | OpdestroySession _ => 44 | OpfreeStateid _ => 45 | OpgetdeviceInfo _ => 47
  | OpgetdeviceList _ => 48 | OplayoutCommit _ => 49 | OplayoutGet _ => 50 | OplayoutReturn _ => 51
  | OpsecinfoNoName _ => 52 | Opsequence _ => 53 | OptestStateid _ => 55 | OpdestroyClientid _ => 57
  | OpreclaimComplete _ => 58 | Opallocate _ => 59 | Opcopy _ => 60 | Opseek _ => 69
  end.

(** What READ and WRITE are charged for. *)
Definition op_bytes (arg : NfsArgOp) : Z :=
  match arg with
  | Opread a => read4args_count a
  | Opwrite a => Z.of_nat (length (write4args_data a))
  | _ => 0
  end.

(** Operations refused during the grace period. *)
Definition grace_denied (arg : NfsArgOp) : bool :=
  match arg with
  | Opopen args =>
    match open4args_claim args, open4args_openhow args with ClaimNull _, How _ => true | _, _ => false end
  | Opcreate _ | Opremove _ | Oprename _ | Oplock _ | Opwrite _ | Opsetattr _ | Oplink _ => true
  | _ => false
  end.

Section Compound.
Context {W P C Fm : Type} `{V : !Vfs W P C} `{A : !Actors W P C Fm}.
Variable parse_ip parse_socket : string -> option IpAddr.
Variable getpwnam getgrnam : string -> option Z.
Variable lchown : W -> string -> Z -> Z -> bool * W.
(** The rate limiter of an export, asked for an operation and its bytes. *)
Variable try_consume : W -> Z -> Z -> bool * W.
Variable in_grace : W -> bool.
#[local] Abbreviation FH := (Filehandle P C).
#[local] Abbreviation Req := (NfsRequest P C Fm).

Record NfsOpResponse : Type := MkResponse {
  request : Req;
  op_result : option NfsResOp4;
  status : NfsStat4
}.

Variable execute : NfsArgOp -> Req -> W -> option (NfsOpResponse * W).

(** ** Filehandle operations *)

Definition put_pseudo_root (r : Req) (id : NfsFh4) (w : W) : Req :=
  set_filehandle (set_export w r PSEUDO_ROOT_EXPORT_ID) (pseudo_root_filehandle w id).

Definition put_root_filehandle (r : Req) (w : W) : option (NfsOpResponse * W) :=
  match list_exports w with
  | [export] =>
    let r := set_export w r (Export.export_id export) in
    if negb (check_client_access parse_ip parse_socket w r) then Some (MkResponse r None Nfs4errAccess, w) else
    fm ← cached_fmanager r;
    match fm_root_filehandle fm w with
    | (Some fh, w) =>
      '(_, r, w) ← set_filehandle_id r (fh_id fh) w;
      Some (MkResponse r (Some (ResOpputrootfh (MkPutRootFh4res Nfs4Ok))) Nfs4Ok, w)
    | (None, w) => Some (MkResponse r None Nfs4errServerfault, w)
    end
  | _ =>
    Some (MkResponse (put_pseudo_root r pseudo_root_fh w) (Some (ResOpputrootfh (MkPutRootFh4res Nfs4Ok))) Nfs4Ok, w)
  end.

Definition get_current_filehandle (r : Req) : NfsOpResponse :=
  match filehandle r with
  | Some fh => MkResponse r (Some (ResOpgetfh (GetFh4res_Resok4 (MkGetFh4resok (fh_id fh))))) Nfs4Ok
  | None => MkResponse r None Nfs4errNofilehandle
  end.

Definition save_filehandle_op (r : Req) : NfsOpResponse :=
  match filehandle r with
  | Some _ => MkResponse (save_filehandle r) (Some (ResOpsavefh (MkSaveFh4res Nfs4Ok))) Nfs4Ok
  | None => MkResponse r (Some (ResOpsavefh (MkSaveFh4res Nfs4errNofilehandle))) Nfs4errNofilehandle
  end.

Definition restore_filehandle_op (r : Req) (w : W) : NfsOpResponse :=
  match restore_filehandle w r with
  | (true, r) => MkResponse r (Some (ResOprestorefh (MkRestoreFh4res Nfs4Ok))) Nfs4Ok
  | (false, r) => MkResponse r (Some (ResOprestorefh (MkRestoreFh4res Nfs4errRestorefh))) Nfs4errRestorefh
  end.

Definition lookupp_answer (r : Req) (s : NfsStat4) : NfsOpResponse :=
  MkResponse r (Some (ResOplookupp (MkLookupP4res s))) s.

Definition lookup_parent (r : Req) (w : W) : option (NfsOpResponse * W) :=
  if is_pseudo_root r then Some (lookupp_answer r Nfs4errNoent, w) else
  match filehandle r with
  | None => Some (lookupp_answer r Nfs4errNofilehandle, w)
  | Some fh =>
    if bool_decide (path fh = "/"%string) && (1 <? length (list_exports w))%nat
    then Some (lookupp_answer (put_pseudo_root r pseudo_root_fh w) Nfs4Ok, w)
    else
      fm ← cached_fmanager r;
      Some (match fm_filehandle_for_path fm (path_of (vfs_parent (file fh))) w with
            | (Some parent, w) => (lookupp_answer (set_filehandle r parent) Nfs4Ok, w)
            | (None, w) => (lookupp_answer r Nfs4errNoent, w)
            end)
  end.

Definition putfh_answer (r : Req) (s : NfsStat4) : NfsOpResponse :=
  MkResponse r (Some (ResOpputfh (MkPutFh4res s))) s.

(** [PutFh4args::execute] *)
Definition put_filehandle (object : NfsFh4) (r : Req) (w : W) : option (NfsOpResponse * W) :=
  if is_pseudo_root_fh object then Some (putfh_answer (put_pseudo_root r object w) Nfs4Ok, w) else
  let export_id := export_id_from_fh object in
  let r := if bool_decide (current_export_id r = Some export_id) then r else set_export w r export_id in
  if negb (check_client_access parse_ip parse_socket w r) then Some (putfh_answer r Nfs4errAccess, w) else
  match get_filehandle_from_cache w r object with
  | (Some fh, r) => Some (putfh_answer (set_filehandle r fh) Nfs4Ok, w)
  | (None, r) =>
    '(res, r, w) ← set_filehandle_id r object w;
    Some (match res with
          | Ok fh => (putfh_answer (cache_filehandle w r fh) Nfs4Ok, w)
          | Err e => (putfh_answer r e, w)
          end)
  end.

Definition dispatch (arg : NfsArgOp) (r : Req) (w : W) : option (NfsOpResponse * W) :=
  match arg with
  | OpUndef0 | OpUndef1 | OpUndef2 => Some (MkResponse r None Nfs4errNotsupp, w)
  | Opgetfh => Some (get_current_filehandle r, w)
  | Opputfh args => put_filehandle (putFh4args_object args) r w
  | Opputrootfh | Opputpubfh => put_root_filehandle r w
  | Opsavefh => Some (save_filehandle_op r, w)
  | Oprestorefh => Some (restore_filehandle_op r w, w)
  | Oplookupp => lookup_parent r w
  | _ => execute arg r w
  end.

(** ** The guards before an operation *)

Inductive verdict : Type :=
| Proceed (c : Caller)
| Refuse (s : NfsStat4) (with_entry : bool).

(** The rate limiter is asked first; the other guards in the order of the code. *)
Definition rate_limited (arg : NfsArgOp) (r : Req) (w : W) : bool * W :=
  match rate_limiter r with
  | Some x => let '(ok, w) := try_consume w x (op_bytes arg) in (negb ok, w)
  | None => (false, w)
  end.

Definition guards (arg : NfsArgOp) (r : Req) (w : W) : verdict :=
  if in_grace w && grace_denied arg then Refuse Nfs4errGrace false
  else if negb (sec_allowed w r) && negb (wrongsec_exempt (op_code arg)) then Refuse Nfs4errWrongsec true
  else if read_only r && is_mutating arg then Refuse Nfs4errRofs true
  else
    let c := caller w r in
    match check_op getpwnam getgrnam arg w r c with
    | Err s => Refuse s true
    | Ok _ => Proceed c
    end.

(** ** The checks after an operation *)

(** A PUTFH-like operation leaves the flavour to the SECINFO or LOOKUP that follows. *)
Definition deferred (opnum : Z) (next : option NfsArgOp) : bool :=
  bool_decide (opnum ∈ [OP_PUTFH; OP_PUTPUBFH; OP_PUTROOTFH; OP_RESTOREFH]) &&
  match next with
  | Some n => bool_decide (op_code n ∈ [OP_SECINFO; OP_SECINFO_NO_NAME; OP_LOOKUP; OP_LOOKUPP])
  | None => false
  end.

(** The client list and the flavours of the export the operation moved to. *)
Definition check_export (opnum : Z) (next : option NfsArgOp) (export_before : option Z)
    (resp : NfsOpResponse) (w : W) : NfsOpResponse :=
  let refuse s := MkResponse (request resp) (Some (ResOpError opnum s)) s in
  let resp :=
    if bool_decide (status resp = Nfs4Ok) &&
       bool_decide (current_export_id (request resp) <> export_before) &&
       negb (check_client_access parse_ip parse_socket w (request resp))
    then refuse Nfs4errAccess else resp in
  if bool_decide (status resp = Nfs4Ok) && moves_filehandle opnum &&
     negb (sec_allowed w (request resp)) && negb (deferred opnum next)
  then refuse Nfs4errWrongsec else resp.

Definition finish_op (arg : NfsArgOp) (next : option NfsArgOp) (creates : bool) (c : Caller)
    (export_before : option Z) (resp : NfsOpResponse) (w : W) : NfsOpResponse * W :=
  let '(r, w) :=
    if creates && bool_decide (status resp = Nfs4Ok) then chown_new_object lchown (request resp) c w
    else (request resp, w) in
  (check_export (op_code arg) next export_before (MkResponse r (op_result resp) (status resp)) w, w).

(** ** The loop *)

Fixpoint compound_loop (ops : list NfsArgOp) (r : Req) (w : W) (resarray : list NfsResOp4)
    (last_status : NfsStat4) : option (Req * NfsStat4 * list NfsResOp4 * W) :=
  match ops with
  | [] => Some (r, last_status, resarray, w)
  | arg :: ops =>
    let '(limited, w) := rate_limited arg r w in
    if limited then Some (r, Nfs4errDelay, resarray ++ [ResOpError (op_code arg) Nfs4errDelay], w) else
    match guards arg r w with
    | Refuse s with_entry =>
      Some (r, s, if with_entry then resarray ++ [ResOpError (op_code arg) s] else resarray, w)
    | Proceed c =>
      let creates := creates_object arg w r in
      '(resp, w) ← dispatch arg r w;
      let '(resp, w) := finish_op arg (head ops) creates c (current_export_id r) resp w in
      match op_result resp with
      | None => Some (request resp, status resp, resarray, w)
      | Some res =>
        if bool_decide (status resp = Nfs4Ok) then
          compound_loop ops (request resp) w (resarray ++ [res]) (status resp)
        else Some (request resp, status resp, resarray ++ [res], w)
      end
    end
  end.

Definition reply (s : NfsStat4) (tag : string) (res : list NfsResOp4) : ReplyBody :=
  MsgAccepted (MkAcceptedReply (AuthNull []) (Success (MkCompound4res s tag res))).

Definition compound (msg : CallBody) (r : Req) (w : W) : option (Req * ReplyBody * W) :=
  match args msg with
  | None => Some (r, reply Nfs4Ok "" [], w)
  | Some args =>
    if 1 <? compound4args_minor_version args
    then Some (r, reply Nfs4errMinorVersMismatch (compound4args_tag args) [], w)
    else
      '(r, s, res, w) ← compound_loop (compound4args_argarray args) (set_auth_cred r (cred msg)) w [] Nfs4Ok;
      Some (r, reply s (compound4args_tag args) res, w)
  end.
End Compound.
