(* ===== verification/CompoundSpec.v ===== *)
(** * What the dispatcher and the permission checks guarantee *)

From S2P Require Import Prelude NfsTypes Rpc MultiIndex Locking FileManager Export Request Perm Compound.
From stdpp Require Import base list gmap strings.
From Stdlib Require Import Strings.Byte ZArith Lia.
#[local] Open Scope Z_scope.

(** ** Callers and mode bits *)

(** Squashing holds for every caller: on an export with [root_squash] or
    [all_squash] and non-root anonymous ids, and on no export, no credential of any
    flavour makes a caller with the root uid, the root gid or a root supplementary
    group. *)
Theorem caller_squashed (cred : option OpaqueAuth) (ac : option AccessControl) :
  match ac with
  | Some ac => squash (access_config ac) <> SquashNone /\
      anon_uid (access_config ac) <> 0 /\ anon_gid (access_config ac) <> 0
  | None => True
  end ->
  let c := Caller_new cred ac in
  is_root c = false /\ in_group c 0 = false.
Proof.
  assert (Hmap : forall sq au ag u g gs, sq <> SquashNone -> au <> 0 -> ag <> 0 ->
    let '(u', g', gs') := map_with sq au ag u g gs in u' <> 0 /\ g' <> 0 /\ 0 ∉ gs').
  { intros sq au ag u g gs Hsq Hau Hag. destruct sq; cbn; [done| |by split_and!; [..|apply not_elem_of_nil]].
    split; [by destruct (Z.eqb_spec u 0)|]. split; [by destruct (Z.eqb_spec g 0)|].
    intros (x & Ex & _)%list_elem_of_fmap. destruct (Z.eqb_spec x 0); congruence. }
  assert (Hc : forall u g gs, u <> 0 -> g <> 0 -> 0 ∉ gs ->
    is_root (MkCaller u g gs) = false /\ in_group (MkCaller u g gs) 0 = false).
  { intros u g gs Hu Hg Hgs. unfold is_root, in_group. cbn. rewrite (proj2 (Z.eqb_neq u 0) Hu), (proj2 (Z.eqb_neq g 0) Hg).
    cbn. split; [done|]. by rewrite bool_decide_eq_false. }
  unfold Caller_new. destruct ac as [ac|]; cbn.
  - intros (Hsq & Hau & Hag).
    destruct cred as [[b|a| | |gc|t]|]; cbn; try (apply Hc; [done|done|apply not_elem_of_nil]).
    unfold map_ids. specialize (Hmap _ _ _ (Rpc.uid a) (Rpc.gid a) (Rpc.gids a) Hsq Hau Hag).
    destruct (map_with _ _ _ _ _ _) as [[u g] gs]. destruct Hmap as (Hu & Hg & Hgs). exact (Hc u g gs Hu Hg Hgs).
  - intros _. destruct cred as [[b|a| | |gc|t]|]; try (apply Hc; [done|done|apply not_elem_of_nil]).
    destruct (Hmap RootSquash DEFAULT_ANON_ID DEFAULT_ANON_ID (Rpc.uid a) (Rpc.gid a) (Rpc.gids a)
      ltac:(done) ltac:(done) ltac:(done)) as (Hu & Hg & Hgs). exact (Hc _ _ _ Hu Hg Hgs).
Qed.

Lemma caller_squashed_witness :
  let ac := MkAccessControl default_access_config [] in
  let c := Caller_new (Some (AuthUnixCred (MkAuthUnix 0 "h" 0 0 [0; 100]))) (Some ac) in
  is_root c = false /\ in_group c 0 = false.
Proof. apply (caller_squashed _ (Some (MkAccessControl default_access_config []))). by vm_compute. Defined.

(** The permission class of a caller: 2 for the owner, 1 for the group, 0 for others. *)
Definition class_of (c : Caller) (m : RealMeta) : Z :=
  if caller_uid c =? FileManager.uid m then 2 else if in_group c (FileManager.gid m) then 1 else 0.

Lemma testbit_7 i : 0 <= i -> Z.testbit 7 i = (i <? 3).
Proof.
  intros Hi. change 7 with (Z.ones 3). destruct (Z.ltb_spec i 3).
  - by apply Z.ones_spec_low.
  - by apply Z.ones_spec_high.
Qed.

Lemma mode_bits_testbit c m i :
  0 <= i < 3 -> Z.testbit (mode_bits c m) i = Z.testbit (FileManager.mode m) (i + 3 * class_of c m).
Proof.
  intros Hi. unfold mode_bits, class_of.
  assert (H7 : forall z, Z.testbit (Z.land z 7) i = Z.testbit z i).
  { intros z. rewrite Z.land_spec, testbit_7 by lia. rewrite (proj2 (Z.ltb_lt i 3)) by lia. apply andb_true_r. }
  destruct (_ =? _); [|destruct (in_group _ _)]; rewrite H7, ?Z.shiftr_spec by lia; f_equal; lia.
Qed.

Lemma testbit_small k n : 0 <= k < 128 -> 7 <= n -> Z.testbit k n = false.
Proof.
  intros Hk Hn. destruct (Z.eq_dec k 0) as [->|Hnz]; [apply Z.bits_0|].
  apply Z.bits_above_log2; [lia|]. apply Z.lt_le_trans with 7; [|lia]. apply Z.log2_lt_pow2; lia.
Qed.

(** Any of the three execute bits. *)
Lemma land_exec_bits m :
  negb (Z.land m 0x49 =? 0) = true <->
  Z.testbit m 0 = true \/ Z.testbit m 3 = true \/ Z.testbit m 6 = true.
Proof.
  rewrite negb_true_iff, Z.eqb_neq. split.
  - intros Hne. destruct (Z.testbit m 0) eqn:E0; [by left|]. destruct (Z.testbit m 3) eqn:E3; [by right; left|].
    destruct (Z.testbit m 6) eqn:E6; [by right; right|]. destruct Hne. apply Z.bits_inj'. intros n Hn.
    rewrite Z.bits_0, Z.land_spec. destruct (Z_lt_le_dec n 7) as [Hlt|Hge].
    + assert (n = 0 \/ n = 1 \/ n = 2 \/ n = 3 \/ n = 4 \/ n = 5 \/ n = 6) as Hcases by lia.
      destruct Hcases as [->|[->|[->|[->|[->|[->| ->]]]]]]; rewrite ?E0, ?E3, ?E6; cbn; by rewrite ?andb_false_r.
    + rewrite (testbit_small 0x49) by lia. apply andb_false_r.
  - intros Hbit Hz. assert (Hall : forall n, Z.testbit m n && Z.testbit 0x49 n = false).
    { intros n. by rewrite <- Z.land_spec, Hz, Z.bits_0. }
    pose proof (Hall 0) as H0. pose proof (Hall 3) as H3. pose proof (Hall 6) as H6.
    change (Z.testbit 0x49 0) with true in H0. change (Z.testbit 0x49 3) with true in H3.
    change (Z.testbit 0x49 6) with true in H6. rewrite andb_true_r in H0, H3, H6. naive_solver congruence.
Qed.

Lemma land_1 z : (Z.land z 1 =? 0) = negb (Z.testbit z 0).
Proof.
  change 1 with (Z.ones 1). rewrite Z.land_ones by lia. change (2 ^ 1) with 2. rewrite Z.bit0_odd, Zmod_odd.
  by destruct (Z.odd z).
Qed.

(** The mode check is POSIX's: a caller who is not root may do what it wants exactly
    when each wanted bit is set in the triple of its class (owner, else group, else
    others), the first class that fits deciding; root may do everything but execute a
    file without an execute bit. *)
Theorem may_posix (c : Caller) (m : RealMeta) (want : Z) :
  0 <= want < 8 ->
  may c m want = true <->
  if is_root c
  then Z.testbit want 0 = true -> is_dir_mode (FileManager.mode m) = true \/
       Z.testbit (FileManager.mode m) 0 = true \/ Z.testbit (FileManager.mode m) 3 = true \/
       Z.testbit (FileManager.mode m) 6 = true
  else forall i, 0 <= i < 3 -> Z.testbit want i = true ->
       Z.testbit (FileManager.mode m) (i + 3 * class_of c m) = true.
Proof.
  intros Hw. unfold may. destruct (is_root c).
  - change MAY_EXEC with 1. rewrite land_1, !orb_true_iff, land_exec_bits, negb_true_iff.
    destruct (Z.testbit want 0); intuition congruence.
  - rewrite Z.eqb_eq. split.
    + intros E i Hi Ht. rewrite <- mode_bits_testbit by done. rewrite <- E, Z.land_spec in Ht.
      by apply andb_prop in Ht as [-> _].
    + intros H. apply Z.bits_inj'. intros n Hn. rewrite Z.land_spec.
      destruct (Z.testbit want n) eqn:Et; [|by rewrite andb_false_r].
      rewrite andb_true_r. destruct (Z_lt_le_dec n 3) as [Hlt|Hge].
      * rewrite mode_bits_testbit by lia. by apply H.
      * exfalso. assert (Z.testbit want n = false) as Hf; [|congruence].
        destruct (Z.eq_dec want 0) as [->|Hnz]; [apply Z.bits_0|].
        apply Z.bits_above_log2; [lia|]. apply Z.lt_le_trans with 3; [|lia]. apply Z.log2_lt_pow2; lia.
Qed.

Lemma may_posix_witness :
  let m := MkRealMeta 1 1 0x81A4 1 1000 100 0 0 0 0 0 0 0 0 in
  may (MkCaller 1001 100 []) m 4 = true <->
  (forall i, 0 <= i < 3 -> Z.testbit 4 i = true -> Z.testbit 0x81A4 (i + 3 * 1) = true).
Proof. apply (may_posix (MkCaller 1001 100 []) (MkRealMeta 1 1 0x81A4 1 1000 100 0 0 0 0 0 0 0 0) 4). lia. Defined.

(** ** Operations and objects *)

Section Spec.
Context {W P C Fm : Type} `{V : !Vfs W P C} `{A : !Actors W P C Fm}.
Variable parse_ip parse_socket : string -> option IpAddr.
Variable getpwnam getgrnam : string -> option Z.
Variable lchown : W -> string -> Z -> Z -> bool * W.
Variable try_consume : W -> Z -> Z -> bool * W.
Variable in_grace : W -> bool.
#[local] Abbreviation Req := (NfsRequest P C Fm).
#[local] Abbreviation exec := (NfsArgOp -> Req -> W -> option (NfsOpResponse (P := P) (C := C) (Fm := Fm) * W)).
#[local] Abbreviation check := (check_op getpwnam getgrnam).
#[local] Abbreviation run_compound := (compound parse_ip parse_socket getpwnam getgrnam lchown try_consume in_grace).
#[local] Abbreviation run_loop := (compound_loop parse_ip parse_socket getpwnam getgrnam lchown try_consume in_grace).
Implicit Types (r : Req) (w : W) (c : Caller).

Lemma need_ok b s : need b s = Ok tt <-> b = true.
Proof. unfold need. by destruct b. Qed.

(** What taking a name out of a directory asks for. *)
Definition may_unlink w c (dir name : string) : Prop :=
  forall d, stat w dir = Some d -> is_dir_mode (FileManager.mode d) = true ->
    may c d (Z.lor MAY_WRITE MAY_EXEC) = true /\
    (has_bits (FileManager.mode d) S_ISVTX = true -> is_owner c d = false ->
     forall e, stat w (path_join dir name) = Some e -> is_owner c e = true).

Lemma need_unlink_iff w c dir name : need_unlink w c dir name = Ok tt <-> may_unlink w c dir name.
Proof.
  clear parse_ip parse_socket getpwnam getgrnam lchown try_consume in_grace.
  unfold need_unlink, may_unlink. destruct (stat w dir) as [d|]; [|done].
  destruct (is_dir_mode _) eqn:Ed; cbn [negb]; [|split; [by intros _ ? [= <-]; rewrite Ed|done]].
  destruct (may c d _) eqn:Em; cbn; [|split; [done|intros H; by destruct (H d) as [? _]; [..|congruence]]].
  destruct (has_bits _ _) eqn:Es; cbn; [|split; [by intros _ ? [= <-] _; rewrite Es|done]].
  destruct (is_owner c d) eqn:Eo; cbn; [split; [by intros _ ? [= <-] _; rewrite Eo|done]|].
  destruct (stat w (path_join dir name)) as [e|]; [|split; [by intros _ ? [= <-] _|done]].
  rewrite need_ok. split.
  - intros He d' [= <-] _. split; [done|]. by intros _ _ e' [= <-].
  - intros H. by destruct (H d) as [_ He]; [..|apply He].
Qed.

(** C32: RENAME is let through exactly when source and target are on one export and the
    caller may take the old name out of the saved directory and the new one out of the
    current directory: write and search permission, and in a sticky directory ownership
    of the directory or of the entry. REMOVE asks the same of its one name, and no RENAME or
    LINK passes across exports: they are answered NFS4ERR_XDEV there. *)
Theorem rename_guard w r c fm fh saved old new :
  is_pseudo_root r = false -> cached_fmanager r = Some fm -> filehandle r = Some fh ->
  saved_filehandle r = Some saved ->
  let dir (h : Filehandle P C) := handle_real_path fm (path h) in
  (check (Oprename (MkRename4args old new)) w r c = Ok tt <->
     same_export saved fh = true /\ may_unlink w c (dir saved) old /\ may_unlink w c (dir fh) new) /\
  (check (Opremove (MkRemove4args old)) w r c = Ok tt <-> may_unlink w c (dir fh) old) /\
  (same_export saved fh = false ->
     check (Oprename (MkRename4args old new)) w r c = Err Nfs4errXdev /\
     forall l, check (Oplink l) w r c = Err Nfs4errXdev).
Proof.
  clear parse_ip parse_socket lchown try_consume in_grace.
  intros Hp Hfm Hfh Hs. cbn zeta. unfold check_op. rewrite Hp, Hfm, Hfh, Hs. cbn.
  rewrite need_unlink_iff. split; [|split; [done|by intros ->]].
  destruct (same_export saved fh); cbn; [|split; [done|by intros [? _]]].
  destruct (need_unlink w c (handle_real_path fm (path saved)) old) as [[]|s] eqn:E; cbn.
  - apply need_unlink_iff in E. rewrite need_unlink_iff. tauto.
  - split; [done|]. intros (_ & H%need_unlink_iff & _). congruence.
Qed.

(** ** The guards *)

(** What the guards let through, the rate limiter apart. *)
Definition permitted (arg : NfsArgOp) r w : Prop :=
  (in_grace w = true -> grace_denied arg = false) /\
  (sec_allowed w r = true \/ wrongsec_exempt (op_code arg) = true) /\
  (read_only r = true -> is_mutating arg = false) /\
  check arg w r (caller w r) = Ok tt.

Lemma guards_proceed arg r w c :
  guards getpwnam getgrnam in_grace arg r w = Proceed c <-> c = caller w r /\ permitted arg r w.
Proof.
  unfold guards, permitted.
  destruct (in_grace w && grace_denied arg) eqn:E1.
  { split; [done|]. intros (_ & H & _). apply andb_prop in E1 as [E1 E1']. rewrite H in E1'; done. }
  destruct (negb (sec_allowed w r) && negb (wrongsec_exempt (op_code arg))) eqn:E2.
  { split; [done|]. intros (_ & _ & H & _). by destruct (sec_allowed w r), (wrongsec_exempt (op_code arg)), H. }
  destruct (read_only r && is_mutating arg) eqn:E3.
  { split; [done|]. intros (_ & _ & _ & H & _). apply andb_prop in E3 as [E3 E3']. rewrite H in E3'; done. }
  assert (H1 : in_grace w = true -> grace_denied arg = false) by (by destruct (in_grace w)).
  assert (H2 : sec_allowed w r = true \/ wrongsec_exempt (op_code arg) = true).
  { destruct (sec_allowed w r); [by left|]. right. by destruct (wrongsec_exempt _). }
  assert (H3 : read_only r = true -> is_mutating arg = false) by (by destruct (read_only r)).
  destruct (check arg w r (caller w r)) as [[]|s]; [|split; [done|by intros (_ & _ & _ & _ & ?)]].
  split; [intros [= <-]; tauto|intros [-> _]; done].
Qed.

(** A check that refuses does so with an error. *)
Definition refuses (x : result unit NfsStat4) : Prop := x <> Err Nfs4Ok.

Lemma refuses_ok : refuses (Ok tt).
Proof. done. Qed.

Lemma refuses_need b s : s <> Nfs4Ok -> refuses (need b s).
Proof. unfold need, refuses. destruct b; congruence. Qed.

Lemma refuses_bind x k : refuses x -> refuses k -> refuses (result_bind x (fun _ => k)).
Proof. unfold refuses. by destruct x as [[]|]. Qed.

#[local] Hint Resolve refuses_ok refuses_need refuses_bind : core.

Lemma refuses_need_dir w c d want : refuses (need_dir w c d want).
Proof. unfold need_dir. destruct (stat w d); [destruct (is_dir_mode _)|]; auto. Qed.

Lemma refuses_need_unlink w c d nm : refuses (need_unlink w c d nm).
Proof.
  unfold need_unlink. destruct (stat w d); [|done]. destruct (negb _); [done|]. apply refuses_bind; [auto|].
  destruct (_ && _); [|done]. destruct (stat w _); auto.
Qed.

Lemma refuses_need_file w c d want : refuses (need_file w c d want).
Proof. unfold need_file. destruct (stat w d); auto. Qed.

Lemma refuses_check_attrs c m l : refuses (check_attrs getpwnam getgrnam c m l).
Proof.
  induction l as [|a l IH]; [done|]. apply refuses_bind; [|done]. by destruct a; cbn; auto.
Qed.

#[local] Hint Resolve refuses_need_dir refuses_need_unlink refuses_need_file refuses_check_attrs : core.

Lemma refuses_check_op arg w r c : refuses (check arg w r c).
Proof.
  unfold check_op. destruct (is_pseudo_root r); [done|].
  destruct (cached_fmanager r) as [fm|]; [|done]. destruct (filehandle r) as [fh|]; [|done].
  destruct arg; try done; auto.
  - destruct (saved_filehandle r); [destruct (negb _)|]; auto. done.
  - destruct (open4args_claim a); auto. apply refuses_bind; [auto|].
    destruct (stat w _); [auto|]. by destruct (open4args_openhow a).
  - destruct (saved_filehandle r); [destruct (negb _)|]; auto. done.
  - unfold check_setattr. destruct (stat w _); auto.
  - apply refuses_bind; [|auto]. destruct (saved_filehandle r); auto.
Qed.

Lemma guards_refuse_not_ok arg r w b : guards getpwnam getgrnam in_grace arg r w <> Refuse Nfs4Ok b.
Proof.
  unfold guards. destruct (_ && _); [done|]. destruct (_ && _); [done|]. destruct (_ && _); [done|].
  pose proof (refuses_check_op arg w r (caller w r)) as H. destruct (check _ _ _ _); [done|].
  intros [= -> _]. by apply H.
Qed.

Lemma dispatch_ext (e1 e2 : exec) arg r w :
  e1 arg r w = e2 arg r w ->
  dispatch parse_ip parse_socket e1 arg r w = dispatch parse_ip parse_socket e2 arg r w.
Proof. by destruct arg. Qed.

Lemma loop_ext (e1 e2 : exec) ops r w res s :
  (forall arg r w, permitted arg r w -> e1 arg r w = e2 arg r w) ->
  run_loop e1 ops r w res s = run_loop e2 ops r w res s.
Proof.
  intros He. revert r w res s. induction ops as [|arg ops IH]; intros r w res s; [done|]. cbn [compound_loop].
  destruct (rate_limited try_consume arg r w) as [limited w1]. destruct limited; [done|].
  destruct (guards getpwnam getgrnam in_grace arg r w1) as [c|st b] eqn:Eg; [|done].
  apply guards_proceed in Eg as [_ Hp]. rewrite (dispatch_ext e1 e2) by (by apply He).
  destruct (dispatch _ _ _ _ _ _) as [[resp w2]|]; [|done]. cbn.
  destruct (finish_op _ _ _ _ _ _ _ _ _ _) as [resp' w3]. destruct (op_result resp'); [|done].
  destruct (bool_decide _); [|done]. apply IH.
Qed.

(** C4: COMPOUND runs no operation the guards refuse. Two servers whose operations agree
    wherever an operation is permitted (outside the grace period or harmless in it, with
    a flavour of the export or exempt from it, not mutating a read-only export, allowed
    to the squashed caller by the permissions) give the same reply, the same request and
    the same world for every call: what an operation would do where it is refused is
    never done. *)
Theorem compound_runs_only_permitted (e1 e2 : exec) (msg : CallBody) r w :
  (forall arg r w, permitted arg r w -> e1 arg r w = e2 arg r w) ->
  run_compound e1 msg r w = run_compound e2 msg r w.
Proof.
  intros He. unfold compound. destruct (args msg) as [a|]; [|done].
  destruct (1 <? _); [done|]. by rewrite (loop_ext e1 e2).
Qed.

(** ** The loop *)

(** The trait's contract: an operation without a result has failed. *)
Definition answers (e : exec) : Prop :=
  forall arg r w resp w', e arg r w = Some (resp, w') -> op_result resp = None -> status resp <> Nfs4Ok.

Lemma put_root_answers r w resp w' :
  put_root_filehandle parse_ip parse_socket r w = Some (resp, w') ->
  op_result resp = None -> status resp <> Nfs4Ok.
Proof.
  unfold put_root_filehandle. destruct (list_exports w) as [|x [|y l]]; [by intros [= <- <-]| |by intros [= <- <-]].
  destruct (negb _); [by intros [= <- <-]|].
  destruct (cached_fmanager _) as [fm|]; [|done]. cbn.
  destruct (fm_root_filehandle fm w) as [[fh|] w1]; [|by intros [= <- <-]].
  destruct (set_filehandle_id _ _ _) as [[[? ?] ?]|]; [|done]. by intros [= <- <-].
Qed.

Lemma dispatch_answers e arg r w resp w' :
  answers e -> dispatch parse_ip parse_socket e arg r w = Some (resp, w') ->
  op_result resp = None -> status resp <> Nfs4Ok.
Proof.
  intros He. destruct arg; cbn [dispatch]; try (by apply He); try (by intros [= <- <-]).
  - unfold get_current_filehandle. destruct (filehandle r); by intros [= <- <-].
  - unfold lookup_parent, lookupp_answer. destruct (is_pseudo_root r); [by intros [= <- <-]|].
    destruct (filehandle r) as [fh|]; [|by intros [= <- <-]]. destruct (bool_decide _ && _); [by intros [= <- <-]|].
    destruct (cached_fmanager r) as [fm|]; [|done]. cbn.
    destruct (fm_filehandle_for_path _ _ _) as [[?|] ?]; by intros [= <- <-].
  - unfold put_filehandle, putfh_answer. destruct (is_pseudo_root_fh _); [by intros [= <- <-]|].
    destruct (negb _); [by intros [= <- <-]|].
    destruct (get_filehandle_from_cache _ _ _) as [[?|] ?]; [by intros [= <- <-]|].
    destruct (set_filehandle_id _ _ _) as [[[[?|?] ?] ?]|]; [..|done]; by intros [= <- <-].
  - apply put_root_answers.
  - apply put_root_answers.
  - unfold restore_filehandle_op, restore_filehandle. destruct (saved_filehandle r); by intros [= <- <-].
  - unfold save_filehandle_op. destruct (filehandle r); by intros [= <- <-].
Qed.

(** What the export checks leave of a response. *)
Lemma check_export_spec opnum next before (resp : NfsOpResponse) w :
  let resp' := check_export parse_ip parse_socket opnum next before resp w in
  request resp' = request resp /\
  (op_result resp' = None -> op_result resp = None /\ status resp' = status resp) /\
  (status resp' = Nfs4Ok -> resp' = resp /\
     (current_export_id (request resp) = before \/
      check_client_access parse_ip parse_socket w (request resp) = true) /\
     (moves_filehandle opnum = true -> sec_allowed w (request resp) = true \/ deferred opnum next = true)).
Proof.
  clear try_consume in_grace getpwnam getgrnam lchown. cbn zeta. unfold check_export.
  destruct (bool_decide (status resp = Nfs4Ok)) eqn:Es; cbn [andb].
  2: { rewrite Es. cbn. split; [done|]. split; [done|]. by apply bool_decide_eq_false in Es. }
  destruct (bool_decide (current_export_id (request resp) <> before)) eqn:Ec; cbn [andb];
    [destruct (check_client_access _ _ _ _) eqn:Ea; cbn [negb]|].
  2: { cbn. done. }
  all: rewrite Es; cbn [andb request].
  all: destruct (moves_filehandle opnum); cbn [andb].
  all: destruct (sec_allowed w (request resp)); cbn [andb negb].
  all: destruct (deferred opnum next); cbn [andb negb].
  all: split; [done|]; split; [done|]; intros Hok; try done.
  all: split; [done|]; split; [|by auto].
  all: try (by right).
  all: left; apply bool_decide_eq_false in Ec; destruct (decide (current_export_id (request resp) = before)); tauto.
Qed.

Lemma finish_op_spec arg next creates c before resp w resp' w' :
  finish_op parse_ip parse_socket lchown arg next creates c before resp w = (resp', w') ->
  (op_result resp' = None -> op_result resp = None /\ status resp' = status resp) /\
  (status resp' = Nfs4Ok -> status resp = Nfs4Ok /\ op_result resp' = op_result resp).
Proof.
  unfold finish_op. destruct (if creates && _ then _ else _) as [r w1]. intros [= <- <-].
  destruct (check_export_spec (op_code arg) next before (MkResponse r (op_result resp) (status resp)) w1)
    as (_ & Hn & Hok). split; [exact Hn|]. intros H. destruct (Hok H) as [E _]. by rewrite E in H |- *.
Qed.

Lemma loop_shape e ops r w res s r' s' res' w' :
  answers e -> run_loop e ops r w res s = Some (r', s', res', w') ->
  (length res <= length res' <= length res + length ops)%nat /\
  (s' = Nfs4Ok -> s = Nfs4Ok \/ ops <> [] -> length res' = (length res + length ops)%nat).
Proof.
  intros He. revert r w res s. induction ops as [|arg ops IH]; intros r w res s; cbn [compound_loop].
  { intros [= <- <- <- <-]. cbn. split; [lia|]. lia. }
  destruct (rate_limited try_consume arg r w) as [[|] w1].
  { intros [= <- <- <- <-]. rewrite length_app. cbn. split; [lia|done]. }
  destruct (guards getpwnam getgrnam in_grace arg r w1) as [c|st b] eqn:Eg.
  2: { intros [= <- <- <- <-]. split; [destruct b; rewrite ?length_app; cbn; lia|]. intros ->. exfalso.
       by apply (guards_refuse_not_ok arg r w1 b). }
  destruct (dispatch parse_ip parse_socket e arg r w1) as [[resp w2]|] eqn:Ed; [|done]. cbn.
  destruct (finish_op _ _ _ _ _ _ _ _ _ _) as [resp' w3] eqn:Ef. apply finish_op_spec in Ef as [Hn Hok].
  destruct (op_result resp') as [o|] eqn:Eo.
  - destruct (bool_decide (status resp' = Nfs4Ok)) eqn:Es.
    + intros [Hl Hs]%IH. rewrite length_app in Hl, Hs. cbn in Hl, Hs. split; [lia|]. intros H1 _.
      rewrite (Hs H1); [lia|]. left. by apply bool_decide_eq_true in Es.
    + intros [= <- <- <- <-]. rewrite length_app. cbn. split; [lia|]. by apply bool_decide_eq_false in Es.
  - intros [= <- <- <- <-]. split; [lia|]. intros H. destruct (Hn eq_refl) as [Hrn Hrs].
    exfalso. eapply dispatch_answers; [exact He|exact Ed|done|congruence].
Qed.

(** The reply of a COMPOUND. It echoes the tag; a minor version above 1 is answered
    MINOR_VERS_MISMATCH with nothing run; otherwise there is at most one result per
    operation, and NFS4_OK means that every operation ran and has its result. *)
Theorem compound_reply (e : exec) msg a r w r' b w' :
  answers e -> args msg = Some a -> run_compound e msg r w = Some (r', b, w') ->
  exists s res, b = reply s (compound4args_tag a) res /\
    (1 < compound4args_minor_version a -> s = Nfs4errMinorVersMismatch /\ res = [] /\ r' = r /\ w' = w) /\
    (length res <= length (compound4args_argarray a))%nat /\
    (s = Nfs4Ok -> length res = length (compound4args_argarray a)).
Proof.
  intros He Ha. unfold compound. rewrite Ha. destruct (Z.ltb_spec 1 (compound4args_minor_version a)) as [Hm|Hm].
  - intros [= <- <- <-]. eexists _, _. split; [done|]. split; [done|]. cbn. split; [lia|done].
  - destruct (run_loop e _ _ _ _ _) as [[[[r1 s1] res1] w1]|] eqn:El; [|done]. cbn. intros [= <- <- <-].
    apply loop_shape in El as [Hl Hs]; [|done]. cbn in Hl, Hs. exists s1, res1. split; [done|]. split; [lia|].
    split; [lia|]. intros H. apply Hs; [done|by left].
Qed.

(** Moving to another export is checked. After every operation that succeeds, the
    client is in the client list of the export the request is on unless that is the
    export it was on before; and after an operation that sets the current filehandle the
    call's flavour is one of the export's, unless the operation is a PUTFH-like one
    followed by SECINFO or LOOKUP. *)
Theorem export_switch_checked arg next creates c before (resp : NfsOpResponse) w :
  let '(resp', w') := finish_op parse_ip parse_socket lchown arg next creates c before resp w in
  status resp' = Nfs4Ok ->
  (current_export_id (request resp') = before \/
   check_client_access parse_ip parse_socket w' (request resp') = true) /\
  (moves_filehandle (op_code arg) = true ->
   sec_allowed w' (request resp') = true \/
   op_code arg ∈ [OP_PUTFH; OP_PUTPUBFH; OP_PUTROOTFH; OP_RESTOREFH] /\
   exists n, next = Some n /\ op_code n ∈ [OP_SECINFO; OP_SECINFO_NO_NAME; OP_LOOKUP; OP_LOOKUPP]).
Proof.
  clear try_consume in_grace getpwnam getgrnam. unfold finish_op.
  destruct (if creates && _ then _ else _) as [r w1]. intros Hs.
  destruct (check_export_spec (op_code arg) next before (MkResponse r (op_result resp) (status resp)) w1)
    as (Hr & _ & Hok). rewrite Hr. destruct (Hok Hs) as (_ & Hacc & Hsec). split; [exact Hacc|].
  intros Hm. destruct (Hsec Hm) as [?|Hd]; [by left|]. right. unfold deferred in Hd.
  apply andb_prop in Hd as [Hd1%bool_decide_eq_true Hd2]. split; [exact Hd1|].
  destruct next as [n|]; [|done]. exists n. split; [done|]. by apply bool_decide_eq_true in Hd2.
Qed.

(** A handle of an export that is gone. PUTFH of a handle whose export the table no
    longer has leaves the request with the file manager, the access control and the
    read-only flag of the export it was on before, under the new export's id: a handle
    in the connection's cache is accepted that way, and without an export before, a
    handle not in the cache panics the task. *)
Theorem putfh_removed_export object r w :
  is_pseudo_root_fh object = false -> export_id_from_fh object <> PSEUDO_ROOT_EXPORT_ID ->
  current_export_id r <> Some (export_id_from_fh object) ->
  export_by_id_of w (export_id_from_fh object) = None ->
  check_client_access parse_ip parse_socket w r = true ->
  (forall time fh, filehandle_cache r ≫= (fun cache => cache !! object) = Some (time, fh) ->
     elapsed_secs (system_time w) time <= cache_ttl r -> vfs_exists w (file fh) = true ->
     exists r', put_filehandle parse_ip parse_socket object r w = Some (putfh_answer r' Nfs4Ok, w) /\
       filehandle r' = Some fh /\ current_export_id r' = Some (export_id_from_fh object) /\
       cached_fmanager r' = cached_fmanager r /\ access_control r' = access_control r /\
       read_only r' = read_only r) /\
  (filehandle_cache r ≫= (fun cache => cache !! object) = None -> cached_fmanager r = None ->
     put_filehandle parse_ip parse_socket object r w = None).
Proof.
  intros Hp Hid Hcur Hgone Hacc. unfold put_filehandle. rewrite Hp. cbn zeta.
  rewrite (bool_decide_eq_false_2 _ Hcur). unfold set_export. rewrite (proj2 (Z.eqb_neq _ _) Hid), Hgone.
  change (check_client_access parse_ip parse_socket w (with_current_export_id r _))
    with (check_client_access parse_ip parse_socket w r). rewrite Hacc. cbn [negb].
  unfold get_filehandle_from_cache. cbn [filehandle_cache with_current_export_id cache_ttl]. split.
  - intros time fh Hc Ht Hex. rewrite Hc, (proj2 (Z.ltb_ge _ _) Ht), Hex. cbn [negb].
    eexists. split; [reflexivity|]. done.
  - intros Hc Hfm. rewrite Hc. unfold set_filehandle_id. cbn [current_export_id with_current_export_id].
    rewrite bool_decide_eq_true_2 by done. rewrite (proj2 (Z.eqb_neq _ _) Hid).
    cbn [cached_fmanager with_current_export_id]. by rewrite Hfm.
Qed.
End Spec.

(** ** A small server to run in: no files, one read-only export *)

#[export] Instance demo_vfs : Vfs unit unit unit := {
  vfs_as_str _ := ""%string; vfs_parent p := p; vfs_join _ _ := None;
  vfs_exists _ _ := true; vfs_is_dir _ _ := true; vfs_len _ _ := 0;
  vfs_create_file w _ := (false, w); vfs_create_dir w _ := (false, w);
  vfs_remove_file w _ := (false, w); vfs_remove_dir w _ := (None, w);
  vfs_move_file w _ _ := (false, w);
  from_path _ p :=
    if bool_decide (p = "/srv"%string) then Some (MkRealMeta 2 1 0x43FF 1 0 0 0 0 0 0 0 0 0 0)
    else if bool_decide (p = "/srv/a"%string) then Some (MkRealMeta 3 1 0x81A4 1 1000 100 0 0 0 0 0 0 0 0)
    else None;
  fs_read_dir _ _ := None; current_time _ := MkNfstime4 0 0; default_hash _ := 0;
  cache_spawn w _ _ _ _ := (tt, w)
}.

#[local] Abbreviation demo_fh id p :=
  (MkFilehandle (P := unit) (C := unit) id tt p Nf4dir 0 0 0 (MkFsid4 0 0) 0 1 "0" "0" 0 (MkNfstime4 0 0) (MkNfstime4 0 0)
     (MkNfstime4 0 0) None [] None 1).

#[export] Instance demo_actors : Actors unit unit unit unit := {
  list_exports _ := []; export_by_id_of _ _ := None;
  access_of _ _ := MkAccessControl default_access_config [];
  fm_export_root _ := "/srv"%string;
  fm_root_filehandle _ w := (None, w); fm_filehandle_for_id _ _ w := (None, w);
  fm_filehandle_for_path _ _ w := (None, w); fm_update_filehandle _ _ w := w;
  system_time _ := 0; memory_fs_root := tt
}.

#[local] Abbreviation demo_id := (byte_of_Z 1 :: byte_of_Z 2 :: replicate 24 x00).
#[local] Abbreviation demo_request :=
  (with_filehandles (with_export (new_request (P := unit) (C := unit) (Fm := unit) "c" (Some tt) 0 0
     (Some (<[demo_id := (0, demo_fh demo_id "/")]> ∅))) (Some tt) (Some 1) true (Some 1))
     (Some (demo_fh demo_id "/")) (Some (demo_fh demo_id "/"))).
#[local] Abbreviation demo_call ops :=
  (MkCallBody 2 100003 4 1 (AuthUnixCred (MkAuthUnix 0 "h" 1000 100 [])) (AuthNull []) (Some (MkCompound4args "t" 0 ops)) None).
#[local] Abbreviation demo_exec :=
  (fun (_ : NfsArgOp) (r : NfsRequest unit unit unit) (w : unit) => Some (MkResponse r (Some ResOpUndef0) Nfs4Ok, w)).
#[local] Abbreviation no_ip := (fun _ : string => @None IpAddr).
#[local] Abbreviation no_id := (fun _ : string => @None Z).
#[local] Abbreviation no_lchown := (fun (w : unit) (_ : string) (_ _ : Z) => (false, w)).
#[local] Abbreviation demo_rate := (fun (w : unit) (_ _ : Z) => (true, w)).

(** An [execute] that would run mutating operations in its own way. *)
#[local] Abbreviation demo_exec2 :=
  (fun (arg : NfsArgOp) (r : NfsRequest unit unit unit) (w : unit) =>
     if read_only r && is_mutating arg then None else Some (MkResponse r (Some ResOpUndef0) Nfs4Ok, w)).

Lemma compound_runs_only_permitted_witness :
  compound no_ip no_ip no_id no_id no_lchown demo_rate (fun _ => false) demo_exec
    (demo_call [Opgetfh; Opremove (MkRemove4args "a")]) demo_request tt =
  compound no_ip no_ip no_id no_id no_lchown demo_rate (fun _ => false) demo_exec2
    (demo_call [Opgetfh; Opremove (MkRemove4args "a")]) demo_request tt.
Proof.
  apply compound_runs_only_permitted. intros arg r w (_ & _ & Hro & _).
  destruct (read_only r) eqn:E; [|done]. cbn. by rewrite Hro.
Defined.

Lemma compound_reply_witness :
  exists r' s res, compound no_ip no_ip no_id no_id no_lchown demo_rate (fun _ => false) demo_exec
    (demo_call [Opgetfh; Opremove (MkRemove4args "a")]) demo_request tt = Some (r', reply s "t" res, tt) /\
    s = Nfs4errRofs /\ (length res <= 2)%nat.
Proof.
  destruct (compound no_ip no_ip no_id no_id no_lchown demo_rate (fun _ => false) demo_exec
    (demo_call [Opgetfh; Opremove (MkRemove4args "a")]) demo_request tt) as [[[r' b] []]|] eqn:E; [|done].
  destruct (compound_reply no_ip no_ip no_id no_id no_lchown demo_rate (fun _ => false) demo_exec
    (demo_call [Opgetfh; Opremove (MkRemove4args "a")]) (MkCompound4args "t" 0 [Opgetfh; Opremove (MkRemove4args "a")]) _ _ _ _ _ ltac:(by intros ? ? ? ? ? [= <- <-]) eq_refl E)
    as (s & res & -> & _ & Hl & _).
  exists r', s, res. split; [done|]. split; [|exact Hl].
  apply (f_equal (option_map (fun x => x.1.2))) in E. vm_compute in E. by injection E.
Defined.

Lemma export_switch_checked_witness :
  let '(resp', w') := finish_op no_ip no_ip no_lchown Opputrootfh None false (MkCaller 0 0 []) (Some 2)
    (MkResponse demo_request None Nfs4Ok) tt in
  check_client_access no_ip no_ip w' (request resp') = true.
Proof.
  pose proof (export_switch_checked no_ip no_ip no_lchown Opputrootfh None false (MkCaller 0 0 []) (Some 2)
    (MkResponse demo_request None Nfs4Ok) tt) as H. vm_compute in H. vm_compute. by destruct (H eq_refl) as [[?|?] _].
Defined.

Lemma rename_guard_witness :
  check_op no_id no_id (Oprename (MkRename4args "a" "b")) tt demo_request (MkCaller 1001 100 []) <> Ok tt /\
  check_op no_id no_id (Opremove (MkRemove4args "a")) tt demo_request (MkCaller 1000 100 []) = Ok tt.
Proof.
  split; [by vm_compute|].
  apply (rename_guard no_id no_id tt demo_request (MkCaller 1000 100 []) tt (demo_fh demo_id "/") (demo_fh demo_id "/") "a" "b");
    [by vm_compute..|].
  intros d Hd _. vm_compute in Hd. injection Hd as <-. split; [by vm_compute|]. intros _ _ e He.
  vm_compute in He. injection He as <-. by vm_compute.
Defined.

Lemma putfh_removed_export_witness :
  exists r', put_filehandle no_ip no_ip demo_id demo_request tt = Some (putfh_answer r' Nfs4Ok, tt) /\
    current_export_id r' = Some 2 /\ access_control r' = Some 1.
Proof.
  destruct (putfh_removed_export no_ip no_ip demo_id demo_request tt) as [H _]; [by vm_compute..|].
  destruct (H 0 (demo_fh demo_id "/")) as (r' & E & _ & Hc & _ & Ha & _); [by vm_compute..|].
  exists r'. split; [exact E|]. split; [rewrite Hc; by vm_compute|rewrite Ha; by vm_compute].
Defined.
