(* ===== verification/Sessions.v ===== *)
(** * The session table ([nfs41.rs])

    [SessionManager]: the sessions of all NFSv4.1 clients and the counter of client ids,
    each behind a lock of its own. A method that takes a lock once is a function on the
    state; [create_session] takes the table's lock twice, to count the sessions and to
    insert, so it is also given in its two halves and the step relation lets other
    requests run in between. *)

From S2P Require Import Prelude.
From stdpp Require Import base list gmap strings.
From Stdlib Require Import Strings.Byte ZArith Lia.
#[local] Open Scope Z_scope.

(** Sixteen bytes. *)
Definition SessionId : Type := list byte.

Record SlotState : Type := MkSlotState { sequence_id : Z; cached_reply : option (list byte) }.
Definition SlotState_default : SlotState := MkSlotState 0 None.

Record ChannelAttrs : Type := MkChannelAttrs {
  max_request_size : Z; max_response_size : Z; max_ops : Z; max_requests : Z
}.
Definition ChannelAttrs_default : ChannelAttrs := MkChannelAttrs 1048576 1048576 64 64.

Record Session : Type := MkSession {
  sess_id : SessionId;
  sess_client_id : Z;
  slots : list SlotState;
  fore_channel_attrs : ChannelAttrs;
  bound_connections : gset string
}.

Record SessionManager : Type := MkSessionManager {
  sessions : gmap SessionId Session;
  next_client_id : Z
}.

Definition set_sessions (m : SessionManager) (t : gmap SessionId Session) : SessionManager :=
  MkSessionManager t (next_client_id m).

Definition new : SessionManager := MkSessionManager ∅ 1.

Definition allocate_client_id (m : SessionManager) : Z * SessionManager :=
  (next_client_id m, MkSessionManager (sessions m) (wrap 64 (next_client_id m + 1))).

(** The client id and the counter, eight bytes each. *)
Definition session_id_of (client_id counter : Z) : SessionId := be_bytes 8 client_id ++ be_bytes 8 counter.

Definition session_counter (m : SessionManager) : Z := Z.of_nat (size (sessions m)).

Definition new_session (client_id counter max_slots : Z) : Session :=
  MkSession (session_id_of client_id counter) client_id (replicate (Z.to_nat max_slots) SlotState_default)
    ChannelAttrs_default ∅.

Definition insert_session (s : Session) (m : SessionManager) : SessionManager :=
  set_sessions m (<[sess_id s := s]> (sessions m)).

Definition create_session (client_id max_slots : Z) (m : SessionManager) : Session * SessionManager :=
  let s := new_session client_id (session_counter m) max_slots in (s, insert_session s m).

Definition get_session (k : SessionId) (m : SessionManager) : option Session := sessions m !! k.

Definition destroy_session (k : SessionId) (m : SessionManager) : bool * SessionManager :=
  (match sessions m !! k with Some _ => true | None => false end, set_sessions m (delete k (sessions m))).

Definition bind_addr (addr : string) (s : Session) : Session :=
  MkSession (sess_id s) (sess_client_id s) (slots s) (fore_channel_attrs s) ({[addr]} ∪ bound_connections s).

Definition bind_connection (k : SessionId) (addr : string) (m : SessionManager) : bool * SessionManager :=
  match sessions m !! k with
  | Some s => (true, set_sessions m (<[k := bind_addr addr s]> (sessions m)))
  | None => (false, m)
  end.

Definition connection_count (k : SessionId) (m : SessionManager) : Z :=
  match sessions m !! k with
  | Some s => Z.of_nat (size (bound_connections s))
  | None => 0
  end.

Definition destroy_client (client_id : Z) (m : SessionManager) : Z * SessionManager :=
  let kept := filter (fun e => sess_client_id e.2 <> client_id) (sessions m) in
  (Z.of_nat (size (sessions m)) - Z.of_nat (size kept), set_sessions m kept).

(** ** Executions

    The second component holds the requests between the two halves of [create_session]:
    the client, the slots and the counter read. *)

Definition pending : Type := list (Z * Z * Z).

Inductive session_step : SessionManager * pending -> SessionManager * pending -> Prop :=
| step_allocate m p : session_step (m, p) ((allocate_client_id m).2, p)
| step_create_count m p c n : session_step (m, p) (m, (c, n, session_counter m) :: p)
| step_create_insert m p1 p2 c n k :
    session_step (m, p1 ++ (c, n, k) :: p2) (insert_session (new_session c k n) m, p1 ++ p2)
| step_destroy m p k : session_step (m, p) ((destroy_session k m).2, p)
| step_bind m p k a : session_step (m, p) ((bind_connection k a m).2, p)
| step_destroy_client m p c : session_step (m, p) ((destroy_client c m).2, p).

Definition session_reachable (m : SessionManager) (p : pending) : Prop := rtc session_step (new, []) (m, p).

(** One whole call of a method that changes the table. *)
Inductive session_method : SessionManager -> SessionManager -> Prop :=
| method_allocate m : session_method m (allocate_client_id m).2
| method_create m c n : session_method m (create_session c n m).2
| method_destroy m k : session_method m (destroy_session k m).2
| method_bind m k a : session_method m (bind_connection k a m).2
| method_destroy_client m c : session_method m (destroy_client c m).2.

(** Executions in which no create is interrupted and nothing is destroyed. *)
Inductive session_grows : SessionManager -> Prop :=
| grows_new : session_grows new
| grows_allocate m : session_grows m -> session_grows (allocate_client_id m).2
| grows_create m c n : session_grows m -> in_width 64 c -> session_grows (create_session c n m).2
| grows_bind m k a : session_grows m -> session_grows (bind_connection k a m).2.

(** ** Lemmas *)

Lemma length_session_id c k : length (session_id_of c k) = 16%nat.
Proof. unfold session_id_of. by rewrite length_app, !length_be_bytes. Qed.

Lemma session_id_of_inj c1 k1 c2 k2 :
  in_width 64 c1 -> in_width 64 c2 -> in_width 64 k1 -> in_width 64 k2 ->
  session_id_of c1 k1 = session_id_of c2 k2 -> c1 = c2 /\ k1 = k2.
Proof.
  intros H1 H2 H3 H4 E. apply app_inj_1 in E as [E1 E2]; [|by rewrite !length_be_bytes].
  by apply be_bytes_inj in E1, E2.
Qed.

Lemma session_id_of_client c1 k1 c2 k2 :
  in_width 64 c1 -> in_width 64 c2 -> session_id_of c1 k1 = session_id_of c2 k2 -> c1 = c2.
Proof.
  intros H1 H2 E. apply app_inj_1 in E as [E1 _]; [|by rewrite !length_be_bytes].
  by apply be_bytes_inj in E1.
Qed.

(** Every entry is filed under its id, which is its client's and some counter. *)
Definition session_keyed (m : SessionManager) : Prop :=
  map_Forall (fun k s => sess_id s = k /\ exists n, k = session_id_of (sess_client_id s) n) (sessions m).

Lemma keyed_insert m c k n : session_keyed m -> session_keyed (insert_session (new_session c k n) m).
Proof. intros H. apply map_Forall_insert_2; [split; [done|by exists k]|exact H]. Qed.

Lemma keyed_step m p m' p' : session_step (m, p) (m', p') -> session_keyed m -> session_keyed m'.
Proof.
  intros S H. inversion S; subst; simpl; try done.
  - by apply keyed_insert.
  - by apply map_Forall_delete.
  - unfold bind_connection. destruct (sessions m !! k) as [s|] eqn:E; [|done].
    apply map_Forall_insert_2; [exact (H k s E)|exact H].
  - intros k s [Hk _]%map_lookup_filter_Some. exact (H k s Hk).
Qed.

Lemma session_method_steps m m' p : session_method m m' -> rtc session_step (m, p) (m', p).
Proof.
  intros M. destruct M as [m|m c n|m k|m k a|m c].
  1,3,4,5: apply rtc_once; constructor.
  eapply rtc_l; [exact (step_create_count m p c n)|]. apply rtc_once.
  exact (step_create_insert m [] p c n (session_counter m)).
Qed.

Lemma session_method_reachable m m' p :
  session_reachable m p -> session_method m m' -> session_reachable m' p.
Proof. intros R M. unfold session_reachable in *. etrans; [exact R|by apply session_method_steps]. Qed.

Lemma session_reachable_keyed m p : session_reachable m p -> session_keyed m.
Proof.
  intros R. change (session_keyed (m, p).1). revert R. unfold session_reachable. generalize (m, p) as st.
  apply (rtc_ind_r (fun st => session_keyed st.1)); [apply map_Forall_empty|].
  intros [m1 p1] [m2 p2] _ S H. exact (keyed_step _ _ _ _ S H).
Qed.

Lemma destroy_client_lookup c m k :
  sessions (destroy_client c m).2 !! k =
  match sessions m !! k with
  | Some s => if decide (sess_client_id s <> c) then Some s else None
  | None => None
  end.
Proof.
  simpl. rewrite map_lookup_filter. destruct (sessions m !! k) as [s|]; [|done]. simpl.
  unfold guard. by destruct (decide _).
Qed.

Lemma bind_connection_size k a m : size (sessions (bind_connection k a m).2) = size (sessions m).
Proof.
  unfold bind_connection. destruct (sessions m !! k) as [s|] eqn:E; [|done]. simpl.
  by rewrite map_size_insert_Some.
Qed.

(** In a growing table every counter is below the number of sessions. *)
Lemma session_grows_counters m : session_grows m -> Z.of_nat (size (sessions m)) < 2 ^ 64 ->
  map_Forall (fun k _ => exists c n, k = session_id_of c n /\ in_width 64 c /\ 0 <= n < session_counter m)
    (sessions m).
Proof.
  induction 1 as [|m G IH|m c n G IH Hc|m k a G IH]; intros Hs.
  - apply map_Forall_empty.
  - exact (IH Hs).
  - simpl in *. unfold insert_session, session_counter in *. simpl in *.
    rewrite map_size_insert in *. destruct (sessions m !! _) as [s|] eqn:E; simpl in *.
    + apply map_Forall_insert_2; [|exact (IH Hs)].
      destruct (IH Hs _ _ E) as (c' & n' & Ek & Hc' & Hn').
      apply session_id_of_inj in Ek as [_ <-]; [lia|solve_width..].
    + apply map_Forall_insert_2.
      * exists c, (session_counter m). repeat split; unfold session_counter; solve_width.
      * specialize (IH ltac:(lia)). intros k s Ek. destruct (IH k s Ek) as (c' & n' & -> & Hc' & Hn').
        exists c', n'. repeat split; solve_width.
  - rewrite bind_connection_size in Hs. specialize (IH Hs). unfold session_counter.
    rewrite bind_connection_size. unfold bind_connection.
    destruct (sessions m !! k) as [s|] eqn:E; [|exact IH]. simpl.
    apply map_Forall_insert_2; [exact (IH k s E)|exact IH].
Qed.

Lemma session_fresh m c : session_grows m -> Z.of_nat (size (sessions m)) < 2 ^ 64 -> in_width 64 c ->
  sessions m !! session_id_of c (session_counter m) = None.
Proof.
  intros G Hs Hc. destruct (sessions m !! _) as [x|] eqn:E; [|done].
  destruct (session_grows_counters m G Hs _ _ E) as (c' & n' & Ek & Hc' & Hn').
  unfold session_counter in *. apply session_id_of_inj in Ek as [_ Ek]; [lia|solve_width..].
Qed.

(** ** Theorems *)

(** The session table never mixes up clients. Whatever requests run, also between the
    two halves of a CREATE_SESSION, every session is filed under its own id, that id names
    its client, and creating a session of one client never replaces another client's. *)
Theorem session_table_separate m p c n k :
  session_reachable m p -> in_width 64 c ->
  let s := new_session c k n in
  (forall (id : SessionId) (x : Session), get_session id m = Some x ->
     sess_id x = id /\ length id = 16%nat /\ exists j, id = session_id_of (sess_client_id x) j) /\
  (forall id x, get_session id m = Some x -> in_width 64 (sess_client_id x) -> sess_client_id x <> c ->
     get_session id (insert_session s m) = Some x).
Proof.
  intros R Hc s. pose proof (session_reachable_keyed m p R) as K. split.
  - intros id x E. destruct (K id x E) as (Hid & j & ->). rewrite length_session_id. eauto.
  - intros id x E Hx Hne. destruct (K id x E) as (_ & j & ->). unfold get_session, insert_session. simpl.
    rewrite lookup_insert_ne; [done|]. intros Heq. apply session_id_of_client in Heq; [|done..]. congruence.
Qed.

Lemma session_table_separate_witness :
  let m := (create_session 1 4 new).2 in
  session_reachable m [] /\
  get_session (session_id_of 1 0) (insert_session (new_session 2 0 8) m) = Some (new_session 1 0 4).
Proof.
  assert (R : session_reachable (create_session 1 4 new).2 []).
  { eapply rtc_l; [exact (step_create_count new [] 1 4)|].
    eapply rtc_l; [exact (step_create_insert new [] [] 1 4 0)|]. apply rtc_refl. }
  split; [exact R|].
  apply (session_table_separate _ [] 2 8 0 R); [vm_compute; split; [discriminate|reflexivity]|reflexivity| |discriminate].
  vm_compute; split; [discriminate|reflexivity].
Defined.

(** While no session has been destroyed, CREATE_SESSION gives every session an id no
    other session has, so it replaces none. *)
Theorem session_ids_fresh m c n :
  session_grows m -> Z.of_nat (size (sessions m)) < 2 ^ 64 -> in_width 64 c ->
  let '(s, m') := create_session c n m in
  get_session (sess_id s) m = None /\ get_session (sess_id s) m' = Some s /\
  session_counter m' = session_counter m + 1 /\
  forall id x, get_session id m = Some x -> get_session id m' = Some x.
Proof.
  intros G Hs Hc. simpl. pose proof (session_fresh m c G Hs Hc) as F.
  unfold get_session, session_counter, insert_session in *. simpl.
  rewrite lookup_insert_eq, map_size_insert_None by done. repeat split; [done|lia|].
  intros id x E. rewrite lookup_insert_ne; [done|]. congruence.
Qed.

Lemma session_ids_fresh_witness :
  let m := (create_session 1 4 new).2 in
  get_session (sess_id (create_session 1 8 m).1) m = None.
Proof.
  intros m. pose proof (session_ids_fresh m 1 8) as T. simpl in T. apply T.
  - apply grows_create; [apply grows_new|vm_compute; split; [discriminate|reflexivity]].
  - vm_compute. reflexivity.
  - vm_compute; split; [discriminate|reflexivity].
Defined.

(** After a session was destroyed the next session of its client can be given the id
    of a live one: two sessions, the first destroyed, then a third, which has the id of the
    second and takes its place. *)
Theorem session_id_collides m c n1 n2 n3 :
  session_grows m -> Z.of_nat (size (sessions m)) < 2 ^ 64 - 1 -> in_width 64 c ->
  let '(s1, m1) := create_session c n1 m in
  let '(s2, m2) := create_session c n2 m1 in
  let '(destroyed, m3) := destroy_session (sess_id s1) m2 in
  let '(s3, m4) := create_session c n3 m3 in
  destroyed = true /\ get_session (sess_id s2) m3 = Some s2 /\
  sess_id s3 = sess_id s2 /\ get_session (sess_id s2) m4 = Some s3.
Proof.
  intros G Hs Hc. pose proof (session_fresh m c G ltac:(lia) Hc) as F1.
  pose proof (session_fresh _ c (grows_create m c n1 G Hc)) as F2.
  cbn zeta in F2. simpl in *.
  unfold insert_session, session_counter, get_session in *. simpl in *.
  rewrite map_size_insert_None in F2 by done. specialize (F2 ltac:(lia) Hc).
  set (i1 := session_id_of c (Z.of_nat (size (sessions m)))) in *.
  set (x1 := new_session c _ n1) in *. fold x1. rewrite map_size_insert_None by done.
  set (i2 := session_id_of c (Z.of_nat (S (size (sessions m))))) in *.
  assert (Hne : i1 <> i2) by (intros E; rewrite E, lookup_insert_eq in F2; done).
  rewrite (lookup_insert_ne _ i2 i1), lookup_insert_eq by done.
  rewrite delete_insert_ne, delete_insert_id by done.
  rewrite map_size_insert_None by (rewrite lookup_insert_ne in F2 by done; done). fold i2.
  repeat split. all: by rewrite lookup_insert_eq.
Qed.

Lemma session_id_collides_witness :
  let '(s1, m1) := create_session 1 4 new in
  let '(s2, m2) := create_session 1 4 m1 in
  let '(destroyed, m3) := destroy_session (sess_id s1) m2 in
  let '(s3, m4) := create_session 1 2 m3 in
  destroyed = true /\ get_session (sess_id s2) m3 = Some s2 /\
  sess_id s3 = sess_id s2 /\ get_session (sess_id s2) m4 = Some s3.
Proof.
  apply (session_id_collides new 1 4 4 2 grows_new);
    [reflexivity|vm_compute; split; [discriminate|reflexivity]].
Defined.

(** Two CREATE_SESSIONs of one client that both count before either inserts get one id. *)
Example interleaved_creates_collide :
  exists m, session_reachable m [] /\ sessions m = {[session_id_of 1 0 := new_session 1 0 2]}.
Proof.
  exists (insert_session (new_session 1 0 2) (insert_session (new_session 1 0 4) new)).
  split; [|by vm_compute].
  eapply rtc_l; [exact (step_create_count new [] 1 2)|].
  eapply rtc_l; [exact (step_create_count new [(1, 2, 0)] 1 4)|].
  eapply rtc_l; [exact (step_create_insert new [] [(1, 2, 0)] 1 4 0)|].
  eapply rtc_l; [exact (step_create_insert _ [] [] 1 2 0)|]. apply rtc_refl.
Qed.
