(* ===== verification/Handle.v ===== *)
(** * Handles to the actors ([filemanager/handle.rs], [clientmanager.rs])

    What a request does through a [FileManagerHandle] and a [ClientManagerHandle]: send one
    message over the actor's channel and wait for the answer. [Channels] is the other end:
    [fm_call] is [None] when the actor is gone or drops the message's one-shot channel.
    Two methods of the file manager's handle work on the file system instead, GETATTR's
    [handle_filehandle_attrs] and SETATTR's [set_attr]; [FileIo] is the standard library's
    and the [vfs] crate's file calls. *)

From S2P Require Import Prelude NfsTypes Rpc MultiIndex Locking FileManager Export ClientManager Request Perm.
From stdpp Require Import base list gmap strings.
From Stdlib Require Import Strings.Byte ZArith Lia.
#[local] Open Scope Z_scope.

(** ** Files *)

(** The [std::io::ErrorKind]s the code tells apart. *)
Inductive IoErrorKind : Type := NotFound | PermissionDenied | AlreadyExists | InvalidInput | OtherIo.

(** Calls on open files ([F]), on paths of the [vfs] crate ([P]) and on real paths. A call
    that can fail tells whether it did; reads and writes give the bytes read or the number
    written. *)
Class FileIo (W P F : Type) : Type := {
  vfs_open_file : P -> W -> option F * W;
  vfs_append_file : P -> W -> option F * W;
  vfs_is_file : W -> P -> bool;
  vfs_filename : P -> string;
  vfs_read_dir : W -> P -> option (list P);
  vfs_move_dir : W -> P -> P -> bool * W;
  file_seek_end : F -> W -> option Z * W;
  file_seek : F -> Z -> W -> bool * W;
  file_read : F -> Z -> W -> option (list byte) * W;
  file_read_exact : F -> Z -> W -> option (list byte) * W;
  file_write : F -> list byte -> W -> option Z * W;
  file_write_all : F -> list byte -> W -> bool * W;
  file_write_all_at : F -> list byte -> Z -> W -> bool * W;
  file_flush : F -> W -> bool * W;
  file_sync_all : F -> W -> bool * W;
  fs_exists : W -> string -> bool;
  fs_metadata_len : W -> string -> option Z;
  fs_open_append : string -> W -> option F * W;
  fs_open_write : string -> W -> option F * W;
  fs_open_create : string -> W -> option F * W;
  fs_read_link : W -> string -> result string IoErrorKind;
  fs_symlink : string -> string -> W -> result unit IoErrorKind * W;
  fs_hard_link : string -> string -> W -> result unit IoErrorKind * W;
  fs_rename : string -> string -> W -> bool * W;
  libc_chown : string -> Z -> Z -> W -> bool * W;
  libc_chmod : string -> Z -> W -> bool * W;
  libc_utimens_now : string -> W -> bool * W
}.

(** ** Channels *)

Section Handle.
Context {W P C Fm F : Type}.
#[local] Abbreviation FH := (Filehandle P C).

(** A call of an actor, and the shared write cache handles. *)
Class Channels : Type := {
  fm_call : Fm -> FileManagerMessage P C -> W -> option (FileManagerReply P C) * W;
  cm_call : ClientManagerMessage -> W -> option ClientManagerReply * W;
  wc_write_bytes : C -> Z -> list byte -> W -> W;
  wc_commit : C -> W -> W
}.
Context `{V : !Vfs W P C} `{A : !Actors W P C Fm} `{IO : !FileIo W P F} `{CH : !Channels}.
Variable getpwnam getgrnam : string -> option Z.

(** ** The file manager's handle *)

Definition send_filehandle_request (fm : Fm) (path : option string) (filehandle : option NfsFh4) (w : W)
    : result FH NfsStat4 * W :=
  match fm_call fm (GetFilehandle path filehandle) w with
  | (Some (ReplyFilehandle (Some fh)), w) => (Ok fh, w)
  | (Some (ReplyFilehandle None), w) =>
    (match path, filehandle with
     | Some _, None => Err Nfs4errNoent
     | Some _, Some _ => Err Nfs4errStale
     | None, _ => Err Nfs4errStale
     end, w)
  | (_, w) => (Err Nfs4errServerfault, w)
  end.

Definition get_root_filehandle (fm : Fm) : W -> result FH NfsStat4 * W :=
  send_filehandle_request fm None None.
Definition get_filehandle_for_id (fm : Fm) (id : NfsFh4) : W -> result FH NfsStat4 * W :=
  send_filehandle_request fm None (Some id).
Definition get_filehandle_for_path (fm : Fm) (path : string) : W -> result FH NfsStat4 * W :=
  send_filehandle_request fm (Some path) None.

Definition get_filehandle_attrs (fm : Fm) (id : NfsFh4) (request : list FileAttr) (w : W)
    : result (list FileAttr * list FileAttrValue) NfsStat4 * W :=
  match fm_call fm (GetFilehandleAttrs id request) w with
  | (Some (ReplyAttrs (Some attrs)), w) => (Ok attrs, w)
  | (Some (ReplyAttrs None), w) => (Err Nfs4errBadhandle, w)
  | (_, w) => (Err Nfs4errServerfault, w)
  end.

(** The verifier of an exclusive create goes with the message, whose handler ignores it. *)
Definition handle_create_file (fm : Fm) (path : P) (client : Z) (owner : list byte) (access deny : Z)
    (_verifier : option (list byte)) (w : W) : result FH NfsStat4 * W :=
  match fm_call fm (CreateFile path client owner access deny) w with
  | (Some (ReplyFilehandle (Some fh)), w) => (Ok fh, w)
  | (Some (ReplyFilehandle None), w) => (Err Nfs4errNoent, w)
  | (_, w) => (Err Nfs4errServerfault, w)
  end.

Definition create_open_state (fm : Fm) (path : P) (client : Z) (owner : list byte) (access deny : Z) (w : W)
    : result LockingState NfsStat4 * W :=
  match fm_call fm (CreateOpenState path client owner access deny) w with
  | (Some (ReplyOpenState (Some lock)), w) => (Ok lock, w)
  | (Some (ReplyOpenState None), w) => (Err Nfs4errStale, w)
  | (_, w) => (Err Nfs4errServerfault, w)
  end.

Definition handle_remove_file (fm : Fm) (path : P) (w : W) : result DirChangeInfo NfsStat4 * W :=
  match fm_call fm (RemoveFile path) w with
  | (Some (ReplyRemove r), w) => (r, w)
  | (_, w) => (Err Nfs4errServerfault, w)
  end.

Definition touch_file (fm : Fm) (id : NfsFh4) (w : W) : W := (fm_call fm (TouchFile id) w).2.
Definition handle_update_filehandle (fm : Fm) (fh : FH) (w : W) : W := (fm_call fm (UpdateFilehandle fh) w).2.

Definition get_write_cache_handle (fm : Fm) (fh : FH) (w : W) : result C NfsStat4 * W :=
  match fm_call fm (GetWriteCacheHandle fh) w with
  | (Some (ReplyCache c), w) => (Ok c, w)
  | (_, w) => (Err Nfs4errServerfault, w)
  end.

Definition handle_grant_delegation (fm : Fm) (id : NfsFh4) (client : Z) (write : bool) (w : W)
    : option Stateid4 * W :=
  match fm_call fm (GrantDelegation id client write) w with
  | (Some (ReplyStateid s), w) => (s, w)
  | (_, w) => (None, w)
  end.

Definition handle_return_delegation (fm : Fm) (id : NfsFh4) (stateid : Stateid4) (w : W) : NfsStat4 * W :=
  match fm_call fm (ReturnDelegation id stateid) w with
  | (Some (ReplyStatus s), w) => (s, w)
  | (_, w) => (Nfs4errServerfault, w)
  end.

Definition get_delegation (fm : Fm) (id : NfsFh4) (w : W) : option DelegationState * W :=
  match fm_call fm (GetDelegation id) w with
  | (Some (ReplyDelegation d), w) => (d, w)
  | (_, w) => (None, w)
  end.

Definition handle_open_named_attr_dir (fm : Fm) (fileid : Z) (createdir : bool) (w : W)
    : result FH NfsStat4 * W :=
  match fm_call fm (OpenNamedAttrDir fileid createdir) w with
  | (Some (ReplyFilehandle (Some fh)), w) => (Ok fh, w)
  | (Some (ReplyFilehandle None), w) => (Err Nfs4errNoent, w)
  | (_, w) => (Err Nfs4errServerfault, w)
  end.

Definition rename_path (fm : Fm) (old_path new_path : string) (new_vfs_path : P) (w : W) : W :=
  (fm_call fm (RenamePath old_path new_path new_vfs_path) w).2.
Definition drop_write_cache_handle (fm : Fm) (id : NfsFh4) (w : W) : W :=
  (fm_call fm (DropWriteCacheHandle id) w).2.
Definition close_file (fm : Fm) (stateid : list byte) (w : W) : W := (fm_call fm (CloseFile stateid) w).2.

Definition lock_file (fm : Fm) (id : NfsFh4) (client : Z) (owner : list byte) (ty : NfsLockType4)
    (offset length : Z) (w : W) : LockResult * W :=
  match fm_call fm (LockFile id client owner ty offset length) w with
  | (Some (ReplyLock r), w) => (r, w)
  | (_, w) => (LockError Nfs4errServerfault, w)
  end.

Definition unlock_file (fm : Fm) (lock_stateid : list byte) (offset length : Z) (w : W) : UnlockResult * W :=
  match fm_call fm (UnlockFile lock_stateid offset length) w with
  | (Some (ReplyUnlock r), w) => (r, w)
  | (_, w) => (UnlockError Nfs4errServerfault, w)
  end.

Definition test_lock (fm : Fm) (id : NfsFh4) (client : Z) (owner : list byte) (ty : NfsLockType4)
    (offset length : Z) (w : W) : TestLockResult * W :=
  match fm_call fm (TestLock id client owner ty offset length) w with
  | (Some (ReplyTestLock r), w) => (r, w)
  | (_, w) => (TestLockDenied 0 0 ReadLt 0 [], w)
  end.

Definition release_lock_owner (fm : Fm) (client : Z) (owner : list byte) (w : W) : NfsStat4 * W :=
  match fm_call fm (ReleaseLockOwner client owner) w with
  | (Some (ReplyStatus s), w) => (s, w)
  | (_, w) => (Nfs4errServerfault, w)
  end.

(** [FileManagerHandle::dir_change_attr] *)
Definition handle_dir_change_attr (fm : Fm) (w : W) (vfs_path : string) : Z :=
  match from_path w (handle_real_path fm vfs_path) with
  | Some m => change_of_mtime m
  | None => 0
  end.

(** ** The client manager's handle *)

Definition client_reply (r : option ClientManagerReply * W) : result ClientEntry NfsStat4 * W :=
  match r with
  | (Some (ClientReply r), w) => (r, w)
  | (_, w) => (Err Nfs4errServerfault, w)
  end.

Definition handle_upsert_client (verf : list byte) (i : string) (cb : ClientCallback) (prin : option string)
    (w : W) : result ClientEntry NfsStat4 * W := client_reply (cm_call (UpsertClient verf i cb prin) w).
Definition handle_confirm_client (client : Z) (token : list byte) (prin : option string) (w : W)
    : result ClientEntry NfsStat4 * W := client_reply (cm_call (ConfirmClient client token prin) w).
Definition handle_renew_leases (client : Z) (w : W) : result unit NfsStat4 * W :=
  match cm_call (RenewLeases client) w with
  | (Some (RenewReply r), w) => (r, w)
  | (_, w) => (Err Nfs4errServerfault, w)
  end.

(** ** GETATTR: the handle's own attributes *)

(** What an export's quota says of its space. *)
Record QuotaInfo : Type := MkQuotaInfo {
  qi_avail_hard : Z; qi_avail_soft : Z; qi_used : Z; qi_space_avail : Z; qi_space_free : Z; qi_space_total : Z
}.

(** The fields of [FileManagerHandle::new]. *)
Definition handle_lease_time : Z := 90.
Definition handle_hard_link_support : bool := true.
Definition handle_symlink_support : bool := true.
Definition handle_unique_handles : bool := true.

Definition handle_supported_attrs : list FileAttr :=
  [FileAttr_SupportedAttrs; FileAttr_Type; FileAttr_FhExpireType; FileAttr_Change; FileAttr_Size;
   FileAttr_LinkSupport; FileAttr_SymlinkSupport; FileAttr_NamedAttr; FileAttr_Fsid;
   FileAttr_UniqueHandles; FileAttr_LeaseTime; FileAttr_RdattrError; FileAttr_Acl;
   FileAttr_AclSupport; FileAttr_Archive; FileAttr_Cansettime; FileAttr_CaseInsensitive;
   FileAttr_CasePreserving; FileAttr_ChownRestricted; FileAttr_Filehandle; FileAttr_Fileid;
   FileAttr_FilesAvail; FileAttr_FilesFree; FileAttr_FilesTotal; FileAttr_FsLocations;
   FileAttr_Homogeneous; FileAttr_Maxfilesize; FileAttr_Maxlink; FileAttr_Maxname;
   FileAttr_Maxread; FileAttr_Maxwrite; FileAttr_Mode; FileAttr_NoTrunc; FileAttr_Numlinks;
   FileAttr_Owner; FileAttr_OwnerGroup; FileAttr_QuotaAvailHard; FileAttr_QuotaAvailSoft;
   FileAttr_QuotaUsed; FileAttr_SpaceAvail; FileAttr_SpaceFree; FileAttr_SpaceTotal;
   FileAttr_SpaceUsed; FileAttr_TimeAccess; FileAttr_TimeCreate; FileAttr_TimeDelta;
   FileAttr_TimeMetadata; FileAttr_TimeModify; FileAttr_MountedOnFileid].

(** Files of 4096 bytes that fit; all of them without a quota or a total. *)
Definition quota_files (q : option QuotaInfo) (space : QuotaInfo -> Z) : Z :=
  match q with
  | None => umax 64
  | Some q => if qi_space_total q =? 0 then umax 64 else space q / 4096
  end.

Definition quota_val (q : option QuotaInfo) (field : QuotaInfo -> Z) : Z := from_option field 0 q.

(** One arm of the [match fileattr]; [None] is the wildcard arm. *)
Definition handle_attr_answer (q : option QuotaInfo) (fh : FH) (a : FileAttr) : option FileAttrValue :=
  match a with
  | FileAttr_SupportedAttrs => Some (FileAttrValue_SupportedAttrs handle_supported_attrs)
  | FileAttr_Type => Some (FileAttrValue_Type (attr_type fh))
  | FileAttr_LeaseTime => Some (FileAttrValue_LeaseTime handle_lease_time)
  | FileAttr_Change => Some (FileAttrValue_Change (attr_change fh))
  | FileAttr_Size => Some (FileAttrValue_Size (attr_size fh))
  | FileAttr_LinkSupport => Some (FileAttrValue_LinkSupport handle_hard_link_support)
  | FileAttr_SymlinkSupport => Some (FileAttrValue_SymlinkSupport handle_symlink_support)
  | FileAttr_NamedAttr => Some (FileAttrValue_NamedAttr true)
  | FileAttr_Acl =>
      Some (FileAttrValue_Acl (mode_to_acl (attr_mode fh) (attr_owner fh) (attr_owner_group fh)))
  | FileAttr_AclSupport => Some (FileAttrValue_AclSupport ACL4_SUPPORT_ALLOW_ACL)
  | FileAttr_Fsid => Some (FileAttrValue_Fsid (attr_fsid fh))
  | FileAttr_UniqueHandles => Some (FileAttrValue_UniqueHandles handle_unique_handles)
  | FileAttr_FhExpireType => Some (FileAttrValue_FhExpireType FH4_PERSISTENT)
  | FileAttr_RdattrError => Some (FileAttrValue_RdattrError Nfs4errInval)
  | FileAttr_Fileid => Some (FileAttrValue_Fileid (attr_fileid fh))
  | FileAttr_Mode => Some (FileAttrValue_Mode (attr_mode fh))
  | FileAttr_Numlinks => Some (FileAttrValue_Numlinks (attr_nlink fh))
  | FileAttr_Owner => Some (FileAttrValue_Owner (attr_owner fh))
  | FileAttr_OwnerGroup => Some (FileAttrValue_OwnerGroup (attr_owner_group fh))
  | FileAttr_QuotaAvailHard => Some (FileAttrValue_QuotaAvailHard (quota_val q qi_avail_hard))
  | FileAttr_QuotaAvailSoft => Some (FileAttrValue_QuotaAvailSoft (quota_val q qi_avail_soft))
  | FileAttr_QuotaUsed => Some (FileAttrValue_QuotaUsed (quota_val q qi_used))
  | FileAttr_SpaceAvail => Some (FileAttrValue_SpaceAvail (quota_val q qi_space_avail))
  | FileAttr_SpaceFree => Some (FileAttrValue_SpaceFree (quota_val q qi_space_free))
  | FileAttr_SpaceTotal => Some (FileAttrValue_SpaceTotal (quota_val q qi_space_total))
  | FileAttr_SpaceUsed => Some (FileAttrValue_SpaceUsed (attr_space_used fh))
  | FileAttr_TimeAccess => Some (FileAttrValue_TimeAccess (attr_time_access fh))
  | FileAttr_TimeMetadata => Some (FileAttrValue_TimeMetadata (attr_time_metadata fh))
  | FileAttr_TimeModify => Some (FileAttrValue_TimeModify (attr_time_modify fh))
  | FileAttr_Maxfilesize => Some (FileAttrValue_Maxfilesize (2 ^ 63 - 1))
  | FileAttr_Maxread => Some (FileAttrValue_Maxread 1048576)
  | FileAttr_Maxwrite => Some (FileAttrValue_Maxwrite 1048576)
  | FileAttr_Maxlink => Some (FileAttrValue_Maxlink 32000)
  | FileAttr_Maxname => Some (FileAttrValue_Maxname 255)
  | FileAttr_Homogeneous => Some (FileAttrValue_Homogeneous true)
  | FileAttr_NoTrunc => Some (FileAttrValue_NoTrunc true)
  | FileAttr_Cansettime => Some (FileAttrValue_Cansettime true)
  | FileAttr_ChownRestricted => Some (FileAttrValue_ChownRestricted true)
  | FileAttr_CaseInsensitive => Some (FileAttrValue_CaseInsensitive false)
  | FileAttr_CasePreserving => Some (FileAttrValue_CasePreserving true)
  | FileAttr_FilesAvail => Some (FileAttrValue_FilesAvail (quota_files q qi_space_avail))
  | FileAttr_FilesFree => Some (FileAttrValue_FilesFree (quota_files q qi_space_free))
  | FileAttr_FilesTotal => Some (FileAttrValue_FilesTotal (quota_files q qi_space_total))
  | FileAttr_FsLocations => Some (FileAttrValue_FsLocations (MkFsLocations4 ["/"%string] []))
  | FileAttr_TimeDelta => Some (FileAttrValue_TimeDelta (MkNfstime4 0 1))
  | FileAttr_TimeCreate => Some (FileAttrValue_TimeCreate (attr_time_modify fh))
  | FileAttr_MountedOnFileid => Some (FileAttrValue_MountedOnFileid (attr_fileid fh))
  | _ => None
  end.

(** The loop of the three attribute tables: those answered and their values. *)
Definition answer_with (answer : FileAttr -> option FileAttrValue) (request : list FileAttr)
    : list FileAttr * list FileAttrValue :=
  foldr (fun a acc => match answer a with Some v => (a :: acc.1, v :: acc.2) | None => acc end) ([], []) request.

(** [FileManagerHandle::filehandle_attrs]: it always answers. *)
Definition handle_filehandle_attrs (fm : Fm) (w : W) (request : list FileAttr) (fh : FH) (q : option QuotaInfo)
    : option (list FileAttr * list FileAttrValue) :=
  let fh :=
    match from_path w (handle_real_path fm (vfs_as_str (file fh))) with
    | Some m => new_real (file fh) (fh_id fh) (fsid4_major (attr_fsid fh)) (fsid4_minor (attr_fsid fh)) (version fh) m
    | None => fh
    end in
  Some (answer_with (handle_attr_answer q fh) request).

(** ** SETATTR *)

(** [CString::new(..).unwrap_or_default()] *)
Definition c_path (s : string) : string := if has_nul s then ""%string else s.

(** Step by step until one fails. *)
Definition and_then (f g : W -> bool * W) : W -> bool * W :=
  fun w => match f w with (true, w) => g w | (false, w) => (false, w) end.

(** The closure of the size arm: read that many bytes from the start, then write them to
    the file opened for appending. *)
Definition set_size (fh : FH) (size : Z) (w : W) : bool * W :=
  match vfs_open_file (file fh) w with
  | (None, w) => (false, w)
  | (Some f, w) =>
    let '(_, w) := file_seek f 0 w in
    match file_read_exact f size w with
    | (None, w) => (false, w)
    | (Some buf, w) =>
      match vfs_append_file (file fh) w with
      | (None, w) => (false, w)
      | (Some f, w) =>
        let '(_, w) := file_seek f 0 w in
        and_then (file_write_all f buf) (file_flush f) w
      end
    end
  end.

(** One attribute: the one set, if it was. [None] is the panic of a buffer longer than
    [isize::MAX]. *)
Definition set_one_attr (fm : Fm) (fh : FH) (v : FileAttrValue) (w : W) : option (option FileAttr * W) :=
  let real := c_path (handle_real_path fm (vfs_as_str (file fh))) in
  let done (a : FileAttr) (r : bool * W) := Some (if r.1 then Some a else None, r.2) in
  match v with
  | FileAttrValue_Size n => if umax 63 <? n then None else done FileAttr_Size (set_size fh n w)
  | FileAttrValue_Owner s =>
    match resolve_nfs4_uid getpwnam s with
    | Some uid => done FileAttr_Owner (libc_chown real uid (umax 32) w)
    | None => Some (None, w)
    end
  | FileAttrValue_OwnerGroup s =>
    match resolve_nfs4_gid getgrnam s with
    | Some gid => done FileAttr_OwnerGroup (libc_chown real (umax 32) gid w)
    | None => Some (None, w)
    end
  | FileAttrValue_Mode m => done FileAttr_Mode (libc_chmod real m w)
  | FileAttrValue_TimeModifySet => done FileAttr_TimeModifySet (libc_utimens_now real w)
  | _ => Some (None, w)
  end.

Fixpoint set_attr (fm : Fm) (fh : FH) (vals : list FileAttrValue) (w : W) : option (list FileAttr * W) :=
  match vals with
  | [] => Some ([], w)
  | v :: vals =>
    '(a, w) ← set_one_attr fm fh v w;
    '(rest, w) ← set_attr fm fh vals w;
    Some (match a with Some a => a :: rest | None => rest end, w)
  end.
End Handle.
#[global] Arguments Channels : clear implicits.
