(* ===== verification/OpsState.v ===== *)
(** * Operations on locks, opens and clients ([nfs40/op_*.rs])

    The [execute] bodies of LOCK, LOCKT, LOCKU, RELEASE_LOCKOWNER, CLOSE, OPEN_CONFIRM,
    OPEN_DOWNGRADE, DELEGRETURN, DELEGPURGE, SETCLIENTID and its confirmation, and RENEW:
    each takes what it needs from the request, asks one actor and puts the answer into a
    result. [None] is a panic of the request's task, which [file_manager] has when no
    export is selected. *)

From S2P Require Import Prelude NfsTypes Rpc MultiIndex Locking FileManager Export ClientManager Request Perm.
From S2P Require Import Compound Handle.
From stdpp Require Import base list gmap strings.
From Stdlib Require Import Strings.Byte ZArith Lia.
#[local] Open Scope Z_scope.

(** The end of an operation: a result and a status, or a status alone. *)
Definition answer {W P C Fm} (r : NfsRequest P C Fm) (res : NfsResOp4) (s : NfsStat4) (w : W)
    : option (NfsOpResponse * W) := Some (MkResponse r (Some res) s, w).
Definition fail {W P C Fm} (r : NfsRequest P C Fm) (s : NfsStat4) (w : W)
    : option (NfsOpResponse * W) := Some (MkResponse r None s, w).

Section OpsState.
Context {W P C Fm : Type} `{V : !Vfs W P C} `{A : !Actors W P C Fm} `{CH : !Channels W P C Fm}.
#[local] Abbreviation Req := (NfsRequest P C Fm).
#[local] Abbreviation Resp := (option (NfsOpResponse (P:=P) (C:=C) (Fm:=Fm) * W)).

(** ** Byte-range locks *)

(** An existing lock owner is known by its stateid alone: client 0 and the stateid's
    bytes stand for it. *)
Definition locker_owner (l : Locker4) : Z * list byte :=
  match l with
  | OpenOwner otl =>
    (lockOwner4_clientid (openToLockOwner4_lock_owner otl), lockOwner4_owner (openToLockOwner4_lock_owner otl))
  | LockOwner el => (0, stateid4_other (existLockOwner4_lock_stateid el))
  end.

Definition op_lock (args : Lock4args) (r : Req) (w : W) : Resp :=
  match filehandle r with
  | None => fail r Nfs4errNofilehandle w
  | Some fh =>
    let '(client, owner) := locker_owner (lock4args_locker args) in
    fm ← cached_fmanager r;
    match lock_file fm (fh_id fh) client owner (lock4args_locktype args) (lock4args_offset args)
            (lock4args_length args) w with
    | (LockOk stateid, w) => answer r (ResOplock (Lock4res_Resok4 (MkLock4resok stateid))) Nfs4Ok w
    | (LockDenied offset length ty owner_clientid owner, w) =>
      answer r (ResOplock (Lock4res_Denied (MkLock4denied offset length ty (MkLockOwner4 owner_clientid owner))))
        Nfs4errDenied w
    | (LockError s, w) => fail r s w
    end
  end.

(** LOCKT has no result for a lock that could be taken: it is answered with a denial that
    names the asker, under NFS4_OK. *)
Definition op_lockt (args : Lockt4args) (r : Req) (w : W) : Resp :=
  match filehandle r with
  | None => fail r Nfs4errNofilehandle w
  | Some fh =>
    let own := lockt4args_owner args in
    fm ← cached_fmanager r;
    match test_lock fm (fh_id fh) (lockOwner4_clientid own) (lockOwner4_owner own) (lockt4args_locktype args)
            (lockt4args_offset args) (lockt4args_length args) w with
    | (TestLockOk, w) =>
      answer r (ResOplockt (Lockt4res_Denied (MkLock4denied 0 0 (lockt4args_locktype args)
        (MkLockOwner4 (lockOwner4_clientid own) (lockOwner4_owner own))))) Nfs4Ok w
    | (TestLockDenied offset length ty owner_clientid owner, w) =>
      answer r (ResOplockt (Lockt4res_Denied (MkLock4denied offset length ty (MkLockOwner4 owner_clientid owner))))
        Nfs4errDenied w
    end
  end.

Definition op_locku (args : Locku4args) (r : Req) (w : W) : Resp :=
  fm ← cached_fmanager r;
  match unlock_file fm (stateid4_other (locku4args_lock_stateid args)) (locku4args_offset args)
          (locku4args_length args) w with
  | (UnlockOk stateid, w) => answer r (ResOplocku (LockStateid stateid)) Nfs4Ok w
  | (UnlockError s, w) => fail r s w
  end.

Definition op_release_lockowner (args : ReleaseLockowner4args) (r : Req) (w : W) : Resp :=
  let own := releaseLockowner4args_lock_owner args in
  fm ← cached_fmanager r;
  let '(s, w) := release_lock_owner fm (lockOwner4_clientid own) (lockOwner4_owner own) w in
  answer r (ResOpreleaseLockOwner (MkReleaseLockowner4res s)) s w.

(** ** Opens *)

Definition op_close (args : Close4args) (r : Req) (w : W) : Resp :=
  match filehandle r with
  | None => fail r Nfs4errNofilehandle w
  | Some fh =>
    fm ← cached_fmanager r;
    let w :=
      match write_cache fh with
      | Some _ =>
        let w := match get_write_cache_handle fm fh w with
                 | (Ok wc, w) => wc_commit wc w
                 | (Err _, w) => w
                 end in
        touch_file fm (fh_id fh) w
      | None => w
      end in
    let w := close_file fm (stateid4_other (close4args_open_stateid args)) w in
    let r := drop_filehandle_from_cache r (fh_id fh) in
    answer r (ResOpclose (OpenStateid (MkStateid4 (close4args_seqid args)
      (stateid4_other (close4args_open_stateid args))))) Nfs4Ok w
  end.

Definition op_openconfirm (_ : OpenConfirm4args) (r : Req) (w : W) : Resp :=
  match filehandle r with
  | None => fail r Nfs4errNofilehandle w
  | Some fh =>
    match head (locks fh) with
    | None => fail r Nfs4errBadStateid w
    | Some lock =>
      answer r (ResOpopenConfirm (OpenConfirm4res_Resok4 (MkOpenConfirm4resok
        (MkStateid4 (seqid lock) (stateid lock))))) Nfs4Ok w
    end
  end.

Definition op_open_downgrade (args : OpenDowngrade4args) (r : Req) (w : W) : Resp :=
  match filehandle r with
  | None => fail r Nfs4errNofilehandle w
  | Some fh =>
    if (openDowngrade4args_share_access args =? 0) || (3 <? openDowngrade4args_share_access args)
    then fail r Nfs4errInval w else
    match locks fh with
    | [] => fail r Nfs4errBadStateid w
    | lock :: _ =>
      answer r (ResOpopenDowngrade (OpenDowngrade4res_Resok4 (MkOpenDowngrade4resok
        (MkStateid4 (wrap 32 (openDowngrade4args_seqid args + 1)) (stateid lock))))) Nfs4Ok w
    end
  end.

Definition op_delegreturn (args : DelegReturn4args) (r : Req) (w : W) : Resp :=
  match filehandle r with
  | None => answer r (ResOpdelegreturn (MkDelegReturn4res Nfs4errFhexpired)) Nfs4errFhexpired w
  | Some fh =>
    fm ← cached_fmanager r;
    let '(s, w) := handle_return_delegation fm (fh_id fh) (delegReturn4args_deleg_stateid args) w in
    answer r (ResOpdelegreturn (MkDelegReturn4res s)) s w
  end.

Definition op_delegpurge (_ : DelegPurge4args) (r : Req) (w : W) : Resp :=
  answer r (ResOpdelegpurge (MkDelegPurge4res Nfs4Ok)) Nfs4Ok w.

(** ** Clients *)

Definition op_set_clientid (args : SetClientId4args) (r : Req) (w : W) : Resp :=
  let cb := setClientId4args_callback args in
  let callback :=
    MkClientCallback (cbClient4_cb_program cb) (clientAddr4_rnetid (cbClient4_cb_location cb))
      (clientAddr4_raddr (cbClient4_cb_location cb)) (setClientId4args_callback_ident args) in
  let client := setClientId4args_client args in
  match handle_upsert_client (nfsClientId4_verifier client) (nfsClientId4_id client) callback None w with
  | (Ok e, w) =>
    answer r (ResOpsetclientid (SetClientId4res_Resok4 (MkSetClientId4resok (clientid e) (setclientid_confirm e))))
      Nfs4Ok w
  | (Err s, w) => fail r s w
  end.

Definition op_set_clientid_confirm (args : SetClientIdConfirm4args) (r : Req) (w : W) : Resp :=
  match handle_confirm_client (setClientIdConfirm4args_clientid args)
          (setClientIdConfirm4args_setclientid_confirm args) None w with
  | (Ok _, w) => answer r (ResOpsetclientidConfirm (MkSetClientIdConfirm4res Nfs4Ok)) Nfs4Ok w
  | (Err s, w) => fail r s w
  end.

Definition op_renew (args : Renew4args) (r : Req) (w : W) : Resp :=
  match handle_renew_leases (renew4args_clientid args) w with
  | (Ok _, w) => answer r (ResOprenew (MkRenew4res Nfs4Ok)) Nfs4Ok w
  | (Err s, w) => answer r (ResOprenew (MkRenew4res s)) s w
  end.
End OpsState.
