(* ===== verification/OpsAttr.v ===== *)
(** * Operations on names and attributes ([nfs40/op_*.rs], [op_pseudo.rs])

    ACCESS, GETATTR, VERIFY and NVERIFY, SETATTR, LOOKUP, READLINK, OPENATTR, SECINFO and
    SECINFO_NO_NAME, with the attributes and the listing of the pseudo-root. [Shared] is
    what requests share through an [Arc]: quotas and statistics, held by export id, and
    the lookup of exports by name. *)

From S2P Require Import Prelude NfsTypes Rpc MultiIndex Locking FileManager Export ClientManager Request Perm.
From S2P Require Import Compound Handle OpsState.
From stdpp Require Import base list gmap strings.
From Stdlib Require Import Strings.Byte ZArith Lia.
#[local] Open Scope Z_scope.

Definition ACCESS4_READ : Z := 0x1.
Definition ACCESS4_LOOKUP : Z := 0x2.
Definition ACCESS4_MODIFY : Z := 0x4.
Definition ACCESS4_EXTEND : Z := 0x8.
Definition ACCESS4_DELETE : Z := 0x10.
Definition ACCESS4_EXECUTE : Z := 0x20.

(** [granted |= bit] under a condition. *)
Definition grant_if (b : bool) (bit granted : Z) : Z := if b then Z.lor granted bit else granted.

Definition check_access (requested : Z) (meta : RealMeta) (c : Caller) (is_dir : bool) : Z :=
  if is_root c then requested else
  let bits := mode_bits c meta in
  let has_read := has_bits bits 4 in
  let has_write := has_bits bits 2 in
  let has_exec := has_bits bits 1 in
  let asks bit := has_bits requested bit in
  grant_if (has_write && asks ACCESS4_DELETE) ACCESS4_DELETE
  (grant_if (has_write && asks ACCESS4_EXTEND) ACCESS4_EXTEND
  (grant_if (has_write && asks ACCESS4_MODIFY) ACCESS4_MODIFY
  (grant_if (negb is_dir && has_read && asks ACCESS4_LOOKUP) ACCESS4_LOOKUP
  (grant_if (is_dir && has_exec && asks ACCESS4_LOOKUP) ACCESS4_LOOKUP
  (grant_if (has_exec && asks ACCESS4_EXECUTE) ACCESS4_EXECUTE
  (grant_if (has_read && asks ACCESS4_READ) ACCESS4_READ 0)))))).

(** [a & !b] on 32 bits. *)
Definition clear_bits (a b : Z) : Z := Z.land a (Z.lxor b (umax 32)).

(** ** The pseudo-root *)

Definition pseudo_supported_attrs : list FileAttr :=
  [FileAttr_SupportedAttrs; FileAttr_Type; FileAttr_FhExpireType; FileAttr_Change; FileAttr_Size;
   FileAttr_LinkSupport; FileAttr_SymlinkSupport; FileAttr_NamedAttr; FileAttr_Fsid;
   FileAttr_UniqueHandles; FileAttr_LeaseTime; FileAttr_RdattrError; FileAttr_AclSupport;
   FileAttr_Cansettime; FileAttr_ChownRestricted; FileAttr_Fileid; FileAttr_Homogeneous;
   FileAttr_Maxfilesize; FileAttr_Maxlink; FileAttr_Maxname; FileAttr_Maxread; FileAttr_Maxwrite;
   FileAttr_Mode; FileAttr_NoTrunc; FileAttr_Numlinks; FileAttr_Owner; FileAttr_OwnerGroup;
   FileAttr_SpaceUsed; FileAttr_TimeAccess; FileAttr_TimeMetadata; FileAttr_TimeModify].

(** The two tables of [op_pseudo.rs], which differ in the file system and the file id. *)
Definition pseudo_attr_answer (now : Nfstime4) (fsid : Fsid4) (fileid : Z) (a : FileAttr)
    : option FileAttrValue :=
  match a with
  | FileAttr_SupportedAttrs => Some (FileAttrValue_SupportedAttrs pseudo_supported_attrs)
  | FileAttr_Type => Some (FileAttrValue_Type Nf4dir)
  | FileAttr_FhExpireType => Some (FileAttrValue_FhExpireType FH4_PERSISTENT)
  | FileAttr_Change => Some (FileAttrValue_Change 1)
  | FileAttr_Size => Some (FileAttrValue_Size 4096)
  | FileAttr_LinkSupport => Some (FileAttrValue_LinkSupport false)
  | FileAttr_SymlinkSupport => Some (FileAttrValue_SymlinkSupport false)
  | FileAttr_NamedAttr => Some (FileAttrValue_NamedAttr true)
  | FileAttr_Fsid => Some (FileAttrValue_Fsid fsid)
  | FileAttr_UniqueHandles => Some (FileAttrValue_UniqueHandles true)
  | FileAttr_LeaseTime => Some (FileAttrValue_LeaseTime 90)
  | FileAttr_RdattrError => Some (FileAttrValue_RdattrError Nfs4errInval)
  | FileAttr_Fileid => Some (FileAttrValue_Fileid fileid)
  | FileAttr_Mode => Some (FileAttrValue_Mode 0x1ED)
  | FileAttr_Numlinks => Some (FileAttrValue_Numlinks 2)
  | FileAttr_Owner => Some (FileAttrValue_Owner "0")
  | FileAttr_OwnerGroup => Some (FileAttrValue_OwnerGroup "0")
  | FileAttr_SpaceUsed => Some (FileAttrValue_SpaceUsed 4096)
  | FileAttr_TimeAccess => Some (FileAttrValue_TimeAccess now)
  | FileAttr_TimeMetadata => Some (FileAttrValue_TimeMetadata now)
  | FileAttr_TimeModify => Some (FileAttrValue_TimeModify now)
  | FileAttr_Acl => Some (FileAttrValue_Acl [])
  | FileAttr_AclSupport => Some (FileAttrValue_AclSupport 0)
  | FileAttr_FsLocations => Some (FileAttrValue_FsLocations (MkFsLocations4 ["/"%string] []))
  | FileAttr_Maxfilesize => Some (FileAttrValue_Maxfilesize (2 ^ 63 - 1))
  | FileAttr_Maxread => Some (FileAttrValue_Maxread 1048576)
  | FileAttr_Maxwrite => Some (FileAttrValue_Maxwrite 1048576)
  | FileAttr_Maxlink => Some (FileAttrValue_Maxlink 32000)
  | FileAttr_Maxname => Some (FileAttrValue_Maxname 255)
  | FileAttr_Homogeneous => Some (FileAttrValue_Homogeneous true)
  | FileAttr_NoTrunc => Some (FileAttrValue_NoTrunc true)
  | FileAttr_Cansettime => Some (FileAttrValue_Cansettime true)
  | FileAttr_ChownRestricted => Some (FileAttrValue_ChownRestricted true)
  | _ => None
  end.

Definition pseudo_root_getattr (now : Nfstime4) : list FileAttr -> list FileAttr * list FileAttrValue :=
  answer_with (pseudo_attr_answer now (MkFsid4 0 0) 1).

Definition pseudo_export_entry_attrs (now : Nfstime4) (id : Z)
    : list FileAttr -> list FileAttr * list FileAttrValue :=
  answer_with (pseudo_attr_answer now (MkFsid4 id id) (id + 100)).

(** [match nextentry] for the entries of a listing, in order. *)
Definition entry_list : Type := list (Z * string * Fattr4).
Definition link_entries (l : entry_list) : option Entry4 :=
  foldr (fun e next => Some (MkEntry4 e.1.1 e.1.2 e.2 next)) None l.

Section OpsAttr.
Context {W P C Fm F : Type}.
#[local] Abbreviation FH := (Filehandle P C).
#[local] Abbreviation Req := (NfsRequest P C Fm).
#[local] Abbreviation Resp := (option (NfsOpResponse (P:=P) (C:=C) (Fm:=Fm) * W)).

Class Shared : Type := {
  export_by_name_of : W -> string -> option (ExportInfo * Fm);
  quota_of : W -> Z -> QuotaManager;
  set_quota : Z -> QuotaManager -> W -> W;
  stats_of : W -> Z -> ExportStats;
  set_stats : Z -> ExportStats -> W -> W
}.
Context `{V : !Vfs W P C} `{A : !Actors W P C Fm} `{CH : !Channels W P C Fm} `{IO : !FileIo W P F} `{SH : !Shared}.
Variable parse_ip parse_socket : string -> option IpAddr.
Variable getpwnam getgrnam : string -> option Z.

Fixpoint pseudo_entries (w : W) (addr : string) (request : list FileAttr) (cookie i : Z)
    (exports : list ExportInfo) : entry_list :=
  match exports with
  | [] => []
  | e :: exports =>
    let rest := pseudo_entries w addr request cookie (i + 1) exports in
    if i + 3 <=? cookie then rest
    else if negb (check_client parse_ip parse_socket (access_of w (Export.export_id e)) addr) then rest
    else
      let '(answered, vals) := pseudo_export_entry_attrs (current_time w) (Export.export_id e) request in
      (i + 3, Export.name e, MkFattr4 answered vals) :: rest
  end.

Definition pseudo_readdir (w : W) (addr : string) (request : list FileAttr) (cookie : Z)
    : entry_list * bool :=
  (pseudo_entries w addr request cookie 0 (list_exports w), true).

(** ** Attributes *)

Definition op_access (args : Access4args) (r : Req) (w : W) : Resp :=
  let supported := lor_all [ACCESS4_READ; ACCESS4_LOOKUP; ACCESS4_MODIFY; ACCESS4_EXTEND; ACCESS4_DELETE;
                            ACCESS4_EXECUTE] in
  let access :=
    match filehandle r with
    | Some fh =>
      let is_dir := bool_decide (attr_type fh = Nf4dir) in
      let meta :=
        match (fm ← cached_fmanager r; from_path w (handle_real_path fm (path fh))) with
        | Some m => m
        | None =>
          MkRealMeta (attr_fileid fh) 0 (attr_mode fh) (attr_nlink fh)
            (default 0 (parse_uint (umax 32) (attr_owner fh)))
            (default 0 (parse_uint (umax 32) (attr_owner_group fh))) (attr_size fh) 0 0 0 0 0 0 0
        end in
      check_access (access4args_access args) meta (caller w r) is_dir
    | None => access4args_access args
    end in
  let access :=
    if read_only r then clear_bits access (lor_all [ACCESS4_MODIFY; ACCESS4_EXTEND; ACCESS4_DELETE])
    else access in
  answer r (ResOpAccess (Access4res_Resok4 (MkAccess4resok supported access))) Nfs4Ok w.

(** What the request's quota says; a terabyte stands for the file system's size. *)
Definition DEFAULT_SPACE_TOTAL : Z := 1099511627776.
Definition quota_info (r : Req) (w : W) : option QuotaInfo :=
  match quota_manager r with
  | Some x =>
    let q := quota_of w x in
    let free := sat_sub DEFAULT_SPACE_TOTAL (bytes_used q) in
    Some (MkQuotaInfo (quota_avail_hard q) (quota_avail_soft q) (bytes_used q) free free DEFAULT_SPACE_TOTAL)
  | None => None
  end.

Definition getattr_answer (r : Req) (attrs : option (list FileAttr * list FileAttrValue)) (s : NfsStat4) (w : W)
    : Resp :=
  answer r (ResOpgetattr (MkGetattr4resok s ((fun '(m, v) => MkFattr4 m v) <$> attrs))) s w.

Definition op_getattr (args : Getattr4args) (r : Req) (w : W) : Resp :=
  if is_pseudo_root r then
    getattr_answer r (Some (pseudo_root_getattr (current_time w) (getattr4args_attr_request args))) Nfs4Ok w
  else
    match filehandle r with
    | None => getattr_answer r None Nfs4errStale w
    | Some fh =>
      fm ← cached_fmanager r;
      match handle_filehandle_attrs fm w (getattr4args_attr_request args) fh (quota_info r w) with
      | Some attrs => getattr_answer r (Some attrs) Nfs4Ok w
      | None => getattr_answer r None Nfs4errServerfault w
      end
    end.

Definition attr_matches (fh : FH) (v : FileAttrValue) : bool :=
  match v with
  | FileAttrValue_Type t => bool_decide (attr_type fh = t)
  | FileAttrValue_Size n => attr_size fh =? n
  | FileAttrValue_Change n => attr_change fh =? n
  | FileAttrValue_Mode n => attr_mode fh =? n
  | FileAttrValue_Numlinks n => attr_nlink fh =? n
  | FileAttrValue_SpaceUsed n => attr_space_used fh =? n
  | _ => true
  end.

Fixpoint attrs_match (provided : list FileAttrValue) (fh : FH) : bool :=
  match provided with
  | [] => true
  | v :: provided => if negb (attr_matches fh v) then false else attrs_match provided fh
  end.

Definition op_verify (args : Verify4args) (r : Req) (w : W) : Resp :=
  match filehandle r with
  | None => fail r Nfs4errNofilehandle w
  | Some fh =>
    let s := if attrs_match (fattr4_attr_vals (verify4args_obj_attributes args)) fh then Nfs4Ok else Nfs4errNotSame in
    answer r (ResOpverify (MkVerify4res s)) s w
  end.

Definition op_nverify (args : Nverify4args) (r : Req) (w : W) : Resp :=
  match filehandle r with
  | None => fail r Nfs4errNofilehandle w
  | Some fh =>
    let s := if attrs_match (fattr4_attr_vals (nverify4args_obj_attributes args)) fh then Nfs4errSame else Nfs4Ok in
    answer r (ResOpnverify (MkNverify4res s)) s w
  end.

Definition setattr_answer (r : Req) (set : list FileAttr) (s : NfsStat4) (w : W) : Resp :=
  answer r (ResOpsetattr (MkSetAttr4res s set)) s w.

Definition op_setattr (args : SetAttr4args) (r : Req) (w : W) : Resp :=
  match filehandle r with
  | None => setattr_answer r [] Nfs4errStale w
  | Some fh =>
    let attributes := setAttr4args_obj_attributes args in
    match fattr4_attrmask attributes with
    | [] => setattr_answer r [] Nfs4Ok w
    | _ =>
      fm ← cached_fmanager r;
      '(set, w) ← set_attr getpwnam getgrnam fm fh (fattr4_attr_vals attributes) w;
      let w := touch_file fm (fh_id fh) w in
      '(found, r, w) ← set_filehandle_id r (fh_id fh) w;
      match found with
      | Ok fh => setattr_answer (cache_filehandle w r fh) set Nfs4Ok w
      | Err s => fail r s w
      end
    end
  end.

(** ** Names *)

Definition lookup_answer (r : Req) (s : NfsStat4) (w : W) : Resp := answer r (ResOplookup (MkLookup4res s)) s w.

(** The path of a name in a directory. *)
Definition child_path (dir name : string) : string :=
  if bool_decide (dir = "/"%string) then dir +:+ name else dir +:+ "/" +:+ name.

Definition with_id (fh : FH) (id : NfsFh4) : FH :=
  MkFilehandle id (file fh) (path fh) (attr_type fh) (attr_change fh) (attr_size fh)
    (attr_fileid fh) (attr_fsid fh) (attr_mode fh) (attr_nlink fh) (attr_owner fh) (attr_owner_group fh)
    (attr_space_used fh) (attr_time_access fh) (attr_time_metadata fh) (attr_time_modify fh)
    (FileManager.verifier fh) (locks fh) (write_cache fh) (version fh).

Definition op_lookup (args : Lookup4args) (r : Req) (w : W) : Resp :=
  if is_pseudo_root r then
    match export_by_name_of w (lookup4args_objname args) with
    | None => lookup_answer r Nfs4errNoent w
    | Some (info, _) =>
      let r := set_export w r (Export.export_id info) in
      if negb (check_client_access parse_ip parse_socket w r) then lookup_answer r Nfs4errAccess w else
      fm ← cached_fmanager r;
      match get_root_filehandle fm w with
      | (Ok root_fh, w) =>
        let root_fh := with_id root_fh (stamp_export_id (fh_id root_fh) (Export.export_id info)) in
        lookup_answer (set_filehandle r root_fh) Nfs4Ok w
      | (Err _, w) => lookup_answer r Nfs4errServerfault w
      end
    end
  else
    match filehandle r with
    | None => fail r Nfs4errFhexpired w
    | Some fh =>
      fm ← cached_fmanager r;
      match get_filehandle_for_path fm (child_path (path fh) (lookup4args_objname args)) w with
      | (Ok fh, w) => lookup_answer (set_filehandle r fh) Nfs4Ok w
      | (Err s, w) => lookup_answer (unset_filehandle r) s w
      end
    end.

Definition readlink_answer (r : Req) (s : NfsStat4) (link : string) (w : W) : Resp :=
  answer r (ResOpreadlink (MkReadlink4res s link)) s w.

Definition op_readlink (r : Req) (w : W) : Resp :=
  match filehandle r with
  | None => fail r Nfs4errNofilehandle w
  | Some fh =>
    fm ← cached_fmanager r;
    match fs_read_link w (handle_real_path fm (vfs_as_str (file fh))) with
    | Ok target => readlink_answer r Nfs4Ok target w
    | Err NotFound => readlink_answer r Nfs4errNoent "" w
    | Err InvalidInput => readlink_answer r Nfs4errInval "" w
    | Err _ => readlink_answer r Nfs4errIo "" w
    end
  end.

Definition op_openattr (args : OpenAttr4args) (r : Req) (w : W) : Resp :=
  match filehandle r with
  | None => answer r (ResOpopenattr (MkOpenAttr4res Nfs4errFhexpired)) Nfs4errFhexpired w
  | Some fh =>
    fm ← cached_fmanager r;
    match handle_open_named_attr_dir fm (attr_fileid fh) (openAttr4args_createdir args) w with
    | (Ok dir, w) => answer (set_filehandle r dir) (ResOpopenattr (MkOpenAttr4res Nfs4Ok)) Nfs4Ok w
    | (Err s, w) => answer r (ResOpopenattr (MkOpenAttr4res s)) s w
    end
  end.

(** ** Security flavours *)

(** The mechanism of the Kerberos flavours, with its DER header. *)
Definition KRB5_MECH_OID : list byte := map byte_of_Z [0x06; 0x09; 0x2a; 0x86; 0x48; 0x86; 0xf7; 0x12; 0x01; 0x02; 0x02].

Definition secinfo (f : SecFlavor) : SeCinfo4 :=
  match f with
  | Sys => SeCinfo4_AuthSys
  | Krb5 => FlavorInfo (MkRpcSecGssInfo KRB5_MECH_OID 0 RpcGssSvcNone)
  | Krb5i => FlavorInfo (MkRpcSecGssInfo KRB5_MECH_OID 0 RpcGssSvcIntegrity)
  | Krb5p => FlavorInfo (MkRpcSecGssInfo KRB5_MECH_OID 0 RpcGssSvcPrivacy)
  end.

Definition op_secinfo (args : SecInfo4args) (r : Req) (w : W) : Resp :=
  match filehandle r with
  | None => fail r Nfs4errNofilehandle w
  | Some fh =>
    if negb (vfs_is_dir w (file fh)) then fail r Nfs4errNotdir w else
    answer r (ResOpSecinfo (SecInfo4res_Resok4
      (secinfo <$> secinfo_flavors w r (Some (secInfo4args_name args))))) Nfs4Ok w
  end.

Definition op_secinfo_no_name (_ : SecinfoNoName4args) (r : Req) (w : W) : Resp :=
  answer r (ResOpsecinfoNoName (SecInfo4res_Resok4 (secinfo <$> secinfo_flavors w r None))) Nfs4Ok w.
End OpsAttr.
#[global] Arguments Shared : clear implicits.
