(* ===== verification/OpsFile.v ===== *)
(** * Operations on the contents of files ([nfs40/op_*.rs])

    READ, WRITE, COMMIT, SEEK, ALLOCATE and COPY. The two loops that write in chunks have
    fuel: ALLOCATE's writes a whole chunk every round but the last, COPY's at least a byte;
    [write_loops_total] in [FileSpec] says that the fuel given is enough. *)

From S2P Require Import Prelude NfsTypes Rpc MultiIndex Locking FileManager Export ClientManager Request Perm.
From S2P Require Import Compound Handle OpsState OpsAttr.
From stdpp Require Import base list gmap strings.
From Stdlib Require Import Strings.Byte ZArith Lia.
#[local] Open Scope Z_scope.

#[export] Instance StableHow4_eq_dec : EqDecision StableHow4.
Proof. solve_decision. Defined.

Definition verifier_from_boot (boot_time : Z) : list byte := be_bytes 8 boot_time.

Section OpsFile.
Context {W P C Fm F : Type} `{V : !Vfs W P C} `{A : !Actors W P C Fm} `{CH : !Channels W P C Fm}
        `{IO : !FileIo W P F} `{SH : !Shared W Fm}.
#[local] Abbreviation FH := (Filehandle P C).
#[local] Abbreviation Req := (NfsRequest P C Fm).
#[local] Abbreviation Resp := (option (NfsOpResponse (P:=P) (C:=C) (Fm:=Fm) * W)).

(** The shared counters of the request's export, when it has one. *)
Definition update_quota (r : Req) (f : QuotaManager -> QuotaManager) (w : W) : W :=
  match quota_manager r with
  | Some x => set_quota x (f (quota_of w x)) w
  | None => w
  end.
Definition update_stats (r : Req) (f : ExportStats -> ExportStats) (w : W) : W :=
  match export_stats r with
  | Some x => set_stats x (f (stats_of w x)) w
  | None => w
  end.
Definition quota_allows (r : Req) (w : W) (bytes : Z) : bool :=
  match quota_manager r with
  | Some x => check_write (quota_of w x) bytes
  | None => true
  end.

(** ** READ *)

Definition op_read (args : Read4args) (r : Req) (w : W) : Resp :=
  match filehandle r with
  | None => fail r Nfs4errFhexpired w
  | Some fh =>
    match vfs_open_file (file fh) w with
    | (None, w) => fail r Nfs4errIo w
    | (Some f, w) =>
      let '(size, w) := file_seek_end f w in
      let file_size := default (attr_size fh) size in
      match file_seek f (read4args_offset args) w with
      | (false, w) => fail r Nfs4errIo w
      | (true, w) =>
        let remaining := sat_sub file_size (read4args_offset args) in
        match file_read f (Z.min (read4args_count args) remaining) w with
        | (None, w) => fail r Nfs4errIo w
        | (Some data, w) =>
          let n := Z.of_nat (length data) in
          let eof := file_size <=? wrap 64 (read4args_offset args + n) in
          let w := update_stats r (fun s => count_read s n) w in
          answer r (ResOpread (Read4res_Resok4 (MkRead4resok eof data))) Nfs4Ok w
        end
      end
    end
  end.

(** ** WRITE and COMMIT *)

(** The cache the bytes go to: the filehandle's own, or the one the file manager makes. *)
Definition write_to_cache (args : Write4args) (fh : FH) (r : Req) (w : W) : option (option Req * W) :=
  match write_cache fh with
  | Some wc => Some (Some r, wc_write_bytes wc (write4args_offset args) (write4args_data args) w)
  | None =>
    fm ← cached_fmanager r;
    match get_write_cache_handle fm fh w with
    | (Ok wc, w) =>
      Some (Some (drop_filehandle_from_cache r (fh_id fh)),
            wc_write_bytes wc (write4args_offset args) (write4args_data args) w)
    | (Err _, w) => Some (None, w)
    end
  end.

(** [write_all] or [write_all_at], then [sync_all]: the bytes written. *)
Definition write_and_sync (opened : option F * W) (write : F -> W -> bool * W) (n : Z) : option Z * W :=
  match opened with
  | (None, w) => (None, w)
  | (Some f, w) =>
    match and_then (write f) (file_sync_all f) w with
    | (true, w) => (Some (wrap 32 n), w)
    | (false, w) => (None, w)
    end
  end.

(** A synchronous write: at the end of the file with [O_APPEND], elsewhere at its offset;
    through the [vfs] crate when the real file does not exist. *)
Definition write_through (args : Write4args) (fm : Fm) (fh : FH) (w : W) : option Z * W :=
  let real := handle_real_path fm (vfs_as_str (file fh)) in
  let data := write4args_data args in
  let offset := write4args_offset args in
  let n := Z.of_nat (length data) in
  if fs_exists w real then
    if offset =? default 0 (fs_metadata_len w real)
    then write_and_sync (fs_open_append real w) (fun f => file_write_all f data) n
    else write_and_sync (fs_open_write real w) (fun f => file_write_all_at f data offset) n
  else
    match vfs_append_file (file fh) w with
    | (None, w) => (None, w)
    | (Some f, w) =>
      let '(_, w) := file_seek f offset w in
      match file_write f data w with
      | (None, w) => (None, w)
      | (Some written, w) =>
        match file_flush f w with
        | (true, w) => (Some (wrap 32 written), w)
        | (false, w) => (None, w)
        end
      end
    end.

(** The counters, then the answer. *)
Definition write_answer (r : Req) (count : Z) (committed : StableHow4) (w : W) : Resp :=
  let w := update_stats r (fun s => count_write s count) w in
  let w := if 0 <? count then update_quota r (fun q => record_write q count) w else w in
  answer r (ResOpwrite (Write4res_Resok4 (MkWrite4resok count committed (verifier_from_boot (boot_time r)))))
    Nfs4Ok w.

Definition op_write (args : Write4args) (r : Req) (w : W) : Resp :=
  match filehandle r with
  | None => fail r Nfs4errFhexpired w
  | Some fh =>
    let len := Z.of_nat (length (write4args_data args)) in
    if negb (len =? 0) && negb (quota_allows r w len) then fail r Nfs4errDquot w
    else if bool_decide (write4args_stable args = Unstable4) then
      '(r', w) ← write_to_cache args fh r w;
      match r' with
      | Some r => write_answer r (wrap 32 len) Unstable4 w
      | None => fail r Nfs4errServerfault w
      end
    else
      fm ← cached_fmanager r;
      match write_through args fm fh w with
      | (Some count, w) =>
        let w := if 0 <? count then touch_file fm (fh_id fh) w else w in
        write_answer r count FileSync4 w
      | (None, w) => fail r Nfs4errIo w
      end
  end.

Definition op_commit (_ : Commit4args) (r : Req) (w : W) : Resp :=
  match filehandle r with
  | None => fail r Nfs4errFhexpired w
  | Some fh =>
    fm ← cached_fmanager r;
    match get_write_cache_handle fm fh w with
    | (Err _, w) => fail r Nfs4errServerfault w
    | (Ok wc, w) =>
      let w := touch_file fm (fh_id fh) (wc_commit wc w) in
      let r := drop_filehandle_from_cache r (fh_id fh) in
      answer r (ResOpcommit (Commit4res_Resok4 (MkCommit4resok (verifier_from_boot (boot_time r))))) Nfs4Ok w
    end
  end.

(** ** SEEK, ALLOCATE, COPY *)

Definition seek_answer (r : Req) (eof : bool) (offset : Z) (w : W) : Resp :=
  answer r (ResOpseek (Seek4res_Resok4 (MkSeekRes4 eof offset))) Nfs4Ok w.

Definition op_seek (args : Seek4args) (r : Req) (w : W) : Resp :=
  match filehandle r with
  | None => fail r Nfs4errFhexpired w
  | Some fh =>
    match vfs_open_file (file fh) w with
    | (None, w) => fail r Nfs4errIo w
    | (Some f, w) =>
      let '(size, w) := file_seek_end f w in
      let file_size := default (attr_size fh) size in
      if file_size <=? seek4args_sa_offset args then seek_answer r true file_size w
      else
        match seek4args_sa_what args with
        | DataContent4_Data => seek_answer r false (seek4args_sa_offset args) w
        | DataContent4_Hole => seek_answer r false file_size w
        end
    end
  end.

Definition ALLOCATE_CHUNK : Z := 64 * 1024.

Fixpoint write_zeros (fuel : nat) (f : F) (remaining : Z) (w : W) : bool * W :=
  match fuel with
  | O => (false, w)
  | S fuel =>
    if remaining <=? 0 then (true, w) else
    let n := Z.min remaining ALLOCATE_CHUNK in
    match file_write_all f (replicate (Z.to_nat n) x00) w with
    | (true, w) => write_zeros fuel f (remaining - n) w
    | (false, w) => (false, w)
    end
  end.

Definition zeros_fuel (remaining : Z) : nat := Z.to_nat (remaining / ALLOCATE_CHUNK + 2).

Definition allocate_answer (r : Req) (s : NfsStat4) (w : W) : Resp :=
  answer r (ResOpallocate (MkAllocate4res s)) s w.

Definition op_allocate (args : Allocate4args) (r : Req) (w : W) : Resp :=
  match filehandle r with
  | None => allocate_answer r Nfs4errFhexpired w
  | Some fh =>
    if negb (quota_allows r w (allocate4args_aa_length args)) then allocate_answer r Nfs4errDquot w else
    match vfs_append_file (file fh) w with
    | (None, w) => allocate_answer r Nfs4errIo w
    | (Some f, w) =>
      match file_seek_end f w with
      | (None, w) => allocate_answer r Nfs4errIo w
      | (Some file_size, w) =>
        let alloc_end := wrap 64 (allocate4args_aa_offset args + allocate4args_aa_length args) in
        if file_size <? alloc_end then
          let pad := alloc_end - file_size in
          match write_zeros (zeros_fuel pad) f pad w with
          | (true, w) => allocate_answer r Nfs4Ok (update_quota r (fun q => record_write q pad) w)
          | (false, w) => allocate_answer r Nfs4errIo w
          end
        else allocate_answer r Nfs4Ok w
      end
    end
  end.

Definition COPY_CHUNK : Z := 256 * 1024.

(** The bytes copied, or [None] when a read or a write failed. *)
Fixpoint copy_loop (fuel : nat) (src dst : F) (copy_count total : Z) (w : W) : option Z * W :=
  match fuel with
  | O => (None, w)
  | S fuel =>
    if copy_count <=? total then (Some total, w) else
    match file_read src (Z.min (copy_count - total) COPY_CHUNK) w with
    | (None, w) => (None, w)
    | (Some [], w) => (Some total, w)
    | (Some buf, w) =>
      match file_write_all dst buf w with
      | (true, w) => copy_loop fuel src dst copy_count (total + Z.of_nat (length buf)) w
      | (false, w) => (None, w)
      end
    end
  end.

Definition copy_fuel (copy_count : Z) : nat := S (S (Z.to_nat copy_count)).

Definition copy_answer (r : Req) (count : Z) (w : W) : Resp :=
  answer r (ResOpcopy (Copy4res_Resok4 (MkCopy4resok (MkWriteResponse4 [] count FileSync4 (replicate 8 x00))
    (MkCopyRequirements4 true true)))) Nfs4Ok w.

Definition copy_data (args : Copy4args) (dst_fh : FH) (src : F) (copy_count : Z) (r : Req) (w : W) : Resp :=
  match file_seek src (copy4args_ca_src_offset args) w with
  | (false, w) => fail r Nfs4errIo w
  | (true, w) =>
    match vfs_append_file (file dst_fh) w with
    | (None, w) => fail r Nfs4errIo w
    | (Some dst, w) =>
      match file_seek dst (copy4args_ca_dst_offset args) w with
      | (false, w) => fail r Nfs4errIo w
      | (true, w) =>
        match copy_loop (copy_fuel copy_count) src dst copy_count 0 w with
        | (None, w) => fail r Nfs4errIo w
        | (Some total, w) =>
          match file_flush dst w with
          | (false, w) => fail r Nfs4errIo w
          | (true, w) => copy_answer r total (update_quota r (fun q => record_write q total) w)
          end
        end
      end
    end
  end.

Definition op_copy (args : Copy4args) (r : Req) (w : W) : Resp :=
  match filehandle r with
  | None => fail r Nfs4errFhexpired w
  | Some dst_fh =>
    match saved_filehandle r with
    | None => fail r Nfs4errFhexpired w
    | Some src_fh =>
      if negb (quota_allows r w (copy4args_ca_count args)) then fail r Nfs4errDquot w else
      match vfs_open_file (file src_fh) w with
      | (None, w) => fail r Nfs4errIo w
      | (Some src, w) =>
        let '(size, w) := file_seek_end src w in
        let available := sat_sub (default (attr_size src_fh) size) (copy4args_ca_src_offset args) in
        let copy_count :=
          if copy4args_ca_count args =? 0 then available else Z.min (copy4args_ca_count args) available in
        if copy_count =? 0 then copy_answer r 0 w
        else copy_data args dst_fh src copy_count r w
      end
    end
  end.
End OpsFile.
