(* ===== verification/OpsDir.v ===== *)
(** * Operations on directories and opens ([nfs40/op_*.rs])

    CREATE, OPEN, REMOVE, RENAME, LINK and READDIR. *)

From S2P Require Import Prelude NfsTypes Rpc MultiIndex Locking FileManager Export ClientManager Request Perm.
From S2P Require Import Compound Handle OpsState OpsAttr OpsFile.
From stdpp Require Import base list gmap strings.
From Stdlib Require Import Strings.Byte ZArith Lia.
#[local] Open Scope Z_scope.

Definition OPEN4_RESULT_CONFIRM : Z := 2.

Fixpoint trim_end_matches (c : Ascii.ascii) (s : string) : string :=
  match s with
  | String.EmptyString => s
  | String.String a s' =>
    let t := trim_end_matches c s' in
    if bool_decide (t = ""%string) && Ascii.eqb a c then ""%string else String.String a t
  end.

Section OpsDir.
Context {W P C Fm F : Type} `{V : !Vfs W P C} `{A : !Actors W P C Fm} `{CH : !Channels W P C Fm}
        `{IO : !FileIo W P F} `{SH : !Shared W Fm}.
Variable parse_ip parse_socket : string -> option IpAddr.
#[local] Abbreviation FH := (Filehandle P C).
#[local] Abbreviation Req := (NfsRequest P C Fm).
#[local] Abbreviation Resp := (option (NfsOpResponse (P:=P) (C:=C) (Fm:=Fm) * W)).

(** ** CREATE *)

(** The directory the new object goes into. *)
Definition current_dir (w : W) (fh : FH) : P := if vfs_is_file w (file fh) then vfs_parent (file fh) else file fh.

(** The request moves to the new object, found under its path. *)
Definition created (fm : Fm) (fh : FH) (dir obj : P) (before : Z) (r : Req) (w : W) : Resp :=
  let w := touch_file fm (fh_id fh) w in
  let after := handle_dir_change_attr fm w (vfs_as_str dir) in
  match get_filehandle_for_path fm (vfs_as_str obj) w with
  | (Ok new_fh, w) =>
    answer (set_filehandle r new_fh)
      (ResOpcreate (Create4res_Resok4 (MkCreate4resok (MkChangeInfo4 false before after) []))) Nfs4Ok w
  | (Err s, w) => fail (unset_filehandle r) s w
  end.

Definition op_create (args : Create4args) (r : Req) (w : W) : Resp :=
  match filehandle r with
  | None => fail r Nfs4errFhexpired w
  | Some fh =>
    if bool_decide (create4args_objname args = ""%string) then fail r Nfs4errInval w
    else if negb (quota_allows r w 0) then fail r Nfs4errDquot w
    else
      match create4args_objtype args with
      | Createtype4_Nf4lnk linkdata =>
        let dir := current_dir w fh in
        match vfs_join dir (create4args_objname args) with
        | None => fail r Nfs4errInval w
        | Some link =>
          fm ← cached_fmanager r;
          let before := handle_dir_change_attr fm w (vfs_as_str dir) in
          match fs_symlink linkdata (handle_real_path fm (vfs_as_str link)) w with
          | (Ok _, w) => created fm fh dir link before r w
          | (Err PermissionDenied, w) => fail r Nfs4errAccess w
          | (Err AlreadyExists, w) => fail r Nfs4errExist w
          | (Err _, w) => fail r Nfs4errIo w
          end
        end
      | Createtype4_Nf4dir =>
        let dir := current_dir w fh in
        match vfs_join dir (create4args_objname args) with
        | None => fail r Nfs4errInval w
        | Some new_dir =>
          fm ← cached_fmanager r;
          let before := handle_dir_change_attr fm w (vfs_as_str dir) in
          let '(_, w) := vfs_create_dir w new_dir in
          created fm fh dir new_dir before r w
        end
      | _ => fail r Nfs4errBadtype w
      end
  end.

(** ** OPEN *)

Definition open_answer (r : Req) (lock : LockingState) (cinfo : ChangeInfo4) (rflags : Z) (w : W) : Resp :=
  answer r (ResOpopen (Open4res_Resok4 (MkOpen4resok (MkStateid4 (seqid lock) (stateid lock)) cinfo rflags []
    OpenDelegation4_None))) Nfs4Ok w.

Definition no_change : ChangeInfo4 := MkChangeInfo4 false 0 0.

Definition open_for_reading (args : Open4args) (name : string) (r : Req) (w : W) : Resp :=
  match filehandle r with
  | None => fail r Nfs4errNofilehandle w
  | Some dir =>
    fm ← cached_fmanager r;
    match get_filehandle_for_path fm (child_path (path dir) name) w with
    | (Err s, w) => fail r s w
    | (Ok fh, w) =>
      match create_open_state fm (file fh) (openOwner4_clientid (open4args_owner args))
              (openOwner4_owner (open4args_owner args)) (open4args_share_access args) (open4args_share_deny args) w with
      | (Err s, w) => fail r s w
      | (Ok lock, w) =>
        let fh := with_locks fh (locks fh ++ [lock]) in
        let r := set_filehandle (cache_filehandle w r fh) fh in
        open_answer r lock no_change OPEN4_RESULT_CONFIRM w
      end
    end
  end.

(** [None] after the file was made: [filehandle.locks[0]] of a filehandle without locks. *)
Definition open_for_writing (args : Open4args) (dir : FH) (name : string) (how : CreateHow4) (r : Req) (w : W)
    : Resp :=
  if negb (quota_allows r w 0) then fail r Nfs4errDquot w else
  match vfs_join (file dir) name with
  | None => fail r Nfs4errInval w
  | Some newfile =>
    fm ← cached_fmanager r;
    let before := handle_dir_change_attr fm w (path dir) in
    let create (verf : option (list byte)) :=
      match handle_create_file fm newfile (openOwner4_clientid (open4args_owner args))
              (openOwner4_owner (open4args_owner args)) (open4args_share_access args)
              (open4args_share_deny args) verf w with
      | (Err _, w) => fail r Nfs4errServerfault w
      | (Ok fh, w) =>
        let r := set_filehandle (cache_filehandle w r fh) fh in
        lock ← head (locks fh);
        let after := handle_dir_change_attr fm w (path dir) in
        open_answer r lock (MkChangeInfo4 false before after) OPEN4_RESULT_CONFIRM w
      end in
    match how with
    | UNCHECKED4 _ => create None
    | EXCLUSIVE4 verf => create (Some verf)
    | GUARDED4 _ => fail r Nfs4errNotsupp w
    end
  end.

(** CLAIM_PREVIOUS: the current filehandle is the file itself. *)
Definition open_reclaim (args : Open4args) (r : Req) (w : W) : Resp :=
  match filehandle r with
  | None => fail r Nfs4errNofilehandle w
  | Some fh =>
    fm ← cached_fmanager r;
    match create_open_state fm (file fh) (openOwner4_clientid (open4args_owner args))
            (openOwner4_owner (open4args_owner args)) (open4args_share_access args) (open4args_share_deny args) w with
    | (Ok lock, w) => open_answer r lock no_change 0 w
    | (Err s, w) => fail r s w
    end
  end.

Definition op_open (args : Open4args) (r : Req) (w : W) : Resp :=
  match open4args_claim args with
  | ClaimPrevious _ => open_reclaim args r w
  | claim =>
    match filehandle r with
    | None => fail r Nfs4errFhexpired w
    | Some fh =>
      if negb (vfs_is_dir w (file fh)) then fail r Nfs4errNotdir w else
      match claim with
      | ClaimNull name =>
        if bool_decide (name = ""%string) then fail r Nfs4errInval w else
        match open4args_openhow args with
        | Open4Nocreate => open_for_reading args name r w
        | How how => open_for_writing args fh name how r w
        end
      | _ => fail r Nfs4errNotsupp w
      end
    end
  end.

(** ** REMOVE, RENAME, LINK *)

Definition remove_answer (r : Req) (s : NfsStat4) (cinfo : ChangeInfo4) (w : W) : Resp :=
  answer r (ResOpremove (MkRemove4res s cinfo)) s w.

Definition op_remove (args : Remove4args) (r : Req) (w : W) : Resp :=
  match filehandle r with
  | None => remove_answer r Nfs4errStale no_change w
  | Some fh =>
    match vfs_join (file fh) (remove4args_target args) with
    | None => remove_answer r Nfs4errInval no_change w
    | Some p =>
      fm ← cached_fmanager r;
      match handle_remove_file fm p w with
      | (Ok cinfo, w) => remove_answer r Nfs4Ok (MkChangeInfo4 (atomic cinfo) (before cinfo) (after cinfo)) w
      | (Err s, w) => remove_answer r s no_change w
      end
    end
  end.

Definition rename_cinfo (dir : FH) : ChangeInfo4 := MkChangeInfo4 true (attr_change dir) (wrap 64 (attr_change dir + 1)).

(** The move itself: by the file system when the real source exists, else by the [vfs]
    crate. *)
Definition rename_move (fm : Fm) (src_path dst_path : string) (src dst : P) (w : W) : bool * W :=
  let real_src := handle_real_path fm src_path in
  if fs_exists w real_src then fs_rename real_src (handle_real_path fm dst_path) w
  else if vfs_is_dir w src then vfs_move_dir w src dst
  else vfs_move_file w src dst.

Definition op_rename (args : Rename4args) (r : Req) (w : W) : Resp :=
  match saved_filehandle r with
  | None =>
    answer r (ResOprename (Rename4res_Resok4 (MkRename4resok no_change no_change))) Nfs4errNofilehandle w
  | Some saved =>
    match filehandle r with
    | None => fail r Nfs4errNofilehandle w
    | Some current =>
      let src_path := trim_end_matches slash (path saved) +:+ "/" +:+ rename4args_oldname args in
      let dst_path := trim_end_matches slash (path current) +:+ "/" +:+ rename4args_newname args in
      match vfs_join (file saved) (rename4args_oldname args) with
      | None => fail r Nfs4errNoent w
      | Some src =>
        if negb (vfs_exists w src) then fail r Nfs4errNoent w else
        match vfs_join (file current) (rename4args_newname args) with
        | None => fail r Nfs4errInval w
        | Some dst =>
          fm ← cached_fmanager r;
          match rename_move fm src_path dst_path src dst w with
          | (false, w) => fail r Nfs4errServerfault w
          | (true, w) =>
            let w := rename_path fm src_path dst_path dst w in
            let w := touch_file fm (fh_id saved) w in
            let w := touch_file fm (fh_id current) w in
            answer r (ResOprename (Rename4res_Resok4 (MkRename4resok (rename_cinfo saved) (rename_cinfo current))))
              Nfs4Ok w
          end
        end
      end
    end
  end.

Definition op_link (args : Link4args) (r : Req) (w : W) : Resp :=
  match saved_filehandle r with
  | None => fail r Nfs4errRestorefh w
  | Some saved =>
    match filehandle r with
    | None => fail r Nfs4errNofilehandle w
    | Some dir =>
      match vfs_join (file dir) (link4args_newname args) with
      | None => fail r Nfs4errInval w
      | Some target =>
        let source := vfs_as_str (file saved) in
        if bool_decide (source = ""%string) || bool_decide (source = "/"%string) then fail r Nfs4errInval w else
        fm ← cached_fmanager r;
        match fs_hard_link (handle_real_path fm source) (handle_real_path fm (vfs_as_str target)) w with
        | (Ok _, w) => answer r (ResOplink (Link4res_Resok4 (MkLink4resok (rename_cinfo dir)))) Nfs4Ok w
        | (Err PermissionDenied, w) => fail r Nfs4errAccess w
        | (Err AlreadyExists, w) => fail r Nfs4errExist w
        | (Err _, w) => fail r Nfs4errIo w
        end
      end
    end
  end.

(** ** READDIR *)

Definition hidden_name (name : string) : bool :=
  bool_decide (name = ".nfs4attrs"%string) || String.prefix ".nfs." name.

(** The loop over the directory: the names listed, and the entries for the reply with
    their cookies; the inner [None] when an entry has no filehandle, the outer one the
    panic without a file manager. *)
Fixpoint readdir_entries (fm : option Fm) (args : Readdir4args) (dir : list P) (idx dircount maxcount : Z) (w : W)
    : option (option (list string * list (Z * FH)) * W) :=
  match dir with
  | [] => Some (Some ([], []), w)
  | entry :: dir =>
    let name := vfs_filename entry in
    if hidden_name name then readdir_entries fm args dir idx dircount maxcount w else
    let counted := readdir4args_cookie args <=? idx + 2 in
    let dircount := if counted then dircount + 8 + Z.of_nat (String.length name) + 5 else dircount in
    let maxcount := if counted then maxcount + 200 else maxcount in
    let wanted := counted && ((readdir4args_dircount args =? 0) ||
      ((dircount <? readdir4args_dircount args) && (maxcount <? readdir4args_maxcount args))) in
    '(found, w) ←
      (if wanted then
         fm ← fm;
         Some (match get_filehandle_for_path fm (vfs_as_str entry) w with
               | (Ok fh, w) => (Some [(idx + 3, fh)], w)
               | (Err _, w) => (None, w)
               end)
       else Some (Some [], w));
    match found with
    | None => Some (None, w)
    | Some found =>
      '(rest, w) ← readdir_entries fm args dir (idx + 1) dircount maxcount w;
      Some (match rest with Some (names, fhs) => Some (name :: names, found ++ fhs) | None => None end, w)
    end
  end.

(** Every [step]-th byte, the first one included. *)
Fixpoint step_by (step skip : nat) (l : list byte) : list byte :=
  match l with
  | [] => []
  | b :: l => match skip with O => b :: step_by step (step - 1) l | S skip => step_by step skip l end
  end.

Definition string_bytes (s : string) : list byte := String.list_byte_of_string s.

(** The verifier of a listing, before it is made eight bytes long. *)
Definition raw_cookieverf (names : list string) : list byte :=
  let seed := concat (string_bytes <$> names) in step_by (length seed / 8 + 1) 0 seed.

Definition pad_cookieverf (v : list byte) : list byte := take 8 (v ++ replicate (8 - length v) x00).

Definition readdir_answer (r : Req) (entries : entry_list) (eof : bool) (verf : list byte) (w : W) : Resp :=
  answer r (ResOpreaddir (ReadDir4res_Resok4 (MkReadDir4resok verf (MkDirList4 (link_entries entries) eof)))) Nfs4Ok w.

(** The attributes of every entry found; [None] when the file manager's handle has none.
    Entries are only found with a file manager. *)
Definition readdir_attrs (fm : option Fm) (w : W) (args : Readdir4args) (q : option QuotaInfo) (fhs : list (Z * FH))
    : option entry_list :=
  mapM (fun '(cookie, fh) =>
    fm ← fm;
    '(m, v) ← handle_filehandle_attrs fm w (readdir4args_attr_request args) fh q;
    Some (cookie, vfs_filename (file fh), MkFattr4 m v)) fhs.

Definition readdir_eof (entries : entry_list) (names : list string) : bool :=
  match entries with
  | [] => true
  | (cookie, _, _) :: _ =>
    Z.of_nat (length names) + 2 <=? cookie + Z.of_nat (length entries) - 1
  end.

Definition op_readdir (args : Readdir4args) (r : Req) (w : W) : Resp :=
  if is_pseudo_root r then
    let '(entries, eof) :=
      pseudo_readdir parse_ip parse_socket w (client_addr r) (readdir4args_attr_request args)
        (readdir4args_cookie args) in
    readdir_answer r entries eof (replicate 8 x00) w
  else
    match filehandle r with
    | None => fail r Nfs4errFhexpired w
    | Some dir_fh =>
      match vfs_read_dir w (file dir_fh) with
      | None => fail r Nfs4errIo w
      | Some dir =>
        '(listed, w) ← readdir_entries (cached_fmanager r) args dir 0 0 128 w;
        match listed with
        | None => fail r Nfs4errFhexpired w
        | Some (names, fhs) =>
          let verf := raw_cookieverf names in
          if negb (readdir4args_cookie args =? 0) && negb (bool_decide (verf = readdir4args_cookieverf args))
          then fail r Nfs4errNotSame w else
          match readdir_attrs (cached_fmanager r) w args (quota_info r w) fhs with
          | None => fail r Nfs4errServerfault w
          | Some entries => readdir_answer r entries (readdir_eof entries names) (pad_cookieverf verf) w
          end
        end
      end
    end.
End OpsDir.
