(* ===== verification/Ops41.v ===== *)
(** * NFSv4.1 operations and the pNFS and stateid stubs ([nfs40/op_*.rs])

    EXCHANGE_ID, CREATE_SESSION, SEQUENCE, DESTROY_SESSION, BIND_CONN_TO_SESSION,
    DESTROY_CLIENTID and RECLAIM_COMPLETE over the session table of [Sessions], which the
    requests of a server share ([SessionStore]); TEST_STATEID, FREE_STATEID and the layout
    operations, which answer the same whatever the state. *)

From S2P Require Import Prelude NfsTypes Rpc MultiIndex Locking FileManager Export ClientManager Request Perm.
From S2P Require Import Compound Handle OpsState.
From S2P Require Sessions.
From stdpp Require Import base list gmap strings.
From Stdlib Require Import Strings.Byte ZArith Lia.
#[local] Open Scope Z_scope.

#[local] Abbreviation SM := Sessions.SessionManager.

Definition EXCHANGE_FLAGS : Z := Z.lor 0x00010000 0x00000008.

(** The channels CREATE_SESSION agrees to. *)
Definition negotiate_fore (a : ChannelAttrs4) (max_slots : Z) : ChannelAttrs4 :=
  MkChannelAttrs4 0 (Z.min (channelAttrs4_ca_maxrequestsize a) 1048576)
    (Z.min (channelAttrs4_ca_maxresponsesize a) 1048576)
    (Z.min (channelAttrs4_ca_maxresponsesize_cached a) 1048576)
    (Z.min (channelAttrs4_ca_maxoperations a) 64) max_slots [].
Definition back_channel : ChannelAttrs4 := MkChannelAttrs4 0 4096 4096 0 2 1 [].

Definition str_bytes (s : string) : list byte := String.list_byte_of_string s.

Section Ops41.
Context {W P C Fm : Type}.
#[local] Abbreviation Req := (NfsRequest P C Fm).
#[local] Abbreviation Resp := (option (NfsOpResponse (P:=P) (C:=C) (Fm:=Fm) * W)).

(** The session manager of the server, if the request was given one. *)
Class SessionStore : Type := {
  session_manager : W -> option SM;
  put_session_manager : SM -> W -> W
}.
Context `{ST : !SessionStore}.

(** One call of a method. *)
Definition with_sessions {A} (f : SM -> A * SM) (m : SM) (w : W) : A * W :=
  let '(a, m) := f m in (a, put_session_manager m w).

Definition with_session (r : Req) (id : option (list byte)) (slot : option Z) : Req :=
  MkNfsRequest (client_addr r) (filehandle r) (saved_filehandle r) (cached_fmanager r) (export_stats r)
    (rate_limiter r) (quota_manager r) (access_control r) (read_only r) (current_export_id r)
    (boot_time r) (request_time r) (filehandle_cache r) (cache_ttl r) id slot (auth_cred r) (sec_flavor r).

Definition op_exchange_id (_ : ExchangeId4args) (r : Req) (w : W) : Resp :=
  match session_manager w with
  | None => fail r Nfs4errServerfault w
  | Some sm =>
    let '(client_id, w) := with_sessions Sessions.allocate_client_id sm w in
    answer r (ResOpexchangeId (ExchangeId4res_Resok4 (MkExchangeId4resok client_id 1 EXCHANGE_FLAGS
      StateProtect4r_SpNone (MkServerOwner4 0 (str_bytes "nextnfs")) (str_bytes "nextnfs.local")
      [MkNfsImplId4 "nextnfs.dev" "nextnfs" (MkNfstime4 0 0)]))) Nfs4Ok w
  end.

Definition op_create_session (args : CreateSession4args) (r : Req) (w : W) : Resp :=
  match session_manager w with
  | None => fail r Nfs4errServerfault w
  | Some sm =>
    let fore := createSession4args_csa_fore_chan_attrs args in
    let max_slots := Z.min (channelAttrs4_ca_maxrequests fore) 64 in
    let '(session, w) :=
      with_sessions (Sessions.create_session (createSession4args_csa_clientid args) max_slots) sm w in
    let r := with_session r (Some (Sessions.sess_id session)) (sequence_slotid r) in
    answer r (ResOpcreateSession (CreateSession4res_Resok4 (MkCreateSession4resok (Sessions.sess_id session)
      (createSession4args_csa_sequence args) (createSession4args_csa_flags args)
      (negotiate_fore fore max_slots) back_channel))) Nfs4Ok w
  end.

Definition op_sequence (args : Sequence4args) (r : Req) (w : W) : Resp :=
  match session_manager w with
  | None => fail r Nfs4errServerfault w
  | Some sm =>
    match Sessions.get_session (sequence4args_sa_sessionid args) sm with
    | None => fail r Nfs4errBadSession w
    | Some session =>
      let len := Z.of_nat (length (Sessions.slots session)) in
      if len <=? sequence4args_sa_slotid args then fail r Nfs4errBadSlot w else
      let r := with_session r (Some (sequence4args_sa_sessionid args)) (Some (sequence4args_sa_slotid args)) in
      let highest := wrap 32 (len - 1) in
      answer r (ResOpsequence (Sequence4res_Resok4 (MkSequence4resok (sequence4args_sa_sessionid args)
        (sequence4args_sa_sequenceid args) (sequence4args_sa_slotid args) highest highest 0))) Nfs4Ok w
    end
  end.

Definition destroy_session_answer (r : Req) (s : NfsStat4) (w : W) : Resp :=
  answer r (ResOpdestroySession (MkDestroySession4res s)) s w.

Definition op_destroy_session (args : DestroySession4args) (r : Req) (w : W) : Resp :=
  match session_manager w with
  | None => destroy_session_answer r Nfs4errServerfault w
  | Some sm =>
    let '(destroyed, w) := with_sessions (Sessions.destroy_session (destroySession4args_dsa_sessionid args)) sm w in
    destroy_session_answer r (if destroyed : bool then Nfs4Ok else Nfs4errBadSession) w
  end.

Definition op_bind_conn_to_session (args : BindConnToSession4args) (r : Req) (w : W) : Resp :=
  match session_manager w with
  | None => fail r Nfs4errServerfault w
  | Some sm =>
    let id := bindConnToSession4args_bctsa_sessid args in
    match Sessions.get_session id sm with
    | None => fail r Nfs4errBadSession w
    | Some session =>
      let '(_, w) := with_sessions (Sessions.bind_connection id (client_addr r)) sm w in
      answer r (ResOpbindConnToSession (BindConnToSession4res_Resok4 (MkBindConnToSession4resok
        (Sessions.sess_id session) ChannelDirFromServer4_Fore false))) Nfs4Ok w
    end
  end.

Definition op_destroy_clientid (args : DestroyClientId4args) (r : Req) (w : W) : Resp :=
  match session_manager w with
  | None => answer r (ResOpdestroyClientid (MkDestroyClientId4res Nfs4errServerfault)) Nfs4errServerfault w
  | Some sm =>
    let '(_, w) := with_sessions (Sessions.destroy_client (destroyClientId4args_dca_clientid args)) sm w in
    answer r (ResOpdestroyClientid (MkDestroyClientId4res Nfs4Ok)) Nfs4Ok w
  end.

Definition op_reclaim_complete (_ : ReclaimComplete4args) (r : Req) (w : W) : Resp :=
  answer r (ResOpreclaimComplete (MkReclaimComplete4res Nfs4Ok)) Nfs4Ok w.

(** ** Stateids and layouts *)

Definition op_free_stateid (_ : FreeStateid4args) (r : Req) (w : W) : Resp :=
  answer r (ResOpfreeStateid (MkFreeStateid4res Nfs4Ok)) Nfs4Ok w.

Definition op_test_stateid (args : TestStateid4args) (r : Req) (w : W) : Resp :=
  answer r (ResOptestStateid (TestStateid4res_Resok4 (MkTestStateid4resok
    (map (fun _ => NfsStat4_to_u32 Nfs4Ok) (testStateid4args_ts_stateids args))))) Nfs4Ok w.

Definition op_layoutget (_ : LayoutGet4args) (r : Req) (w : W) : Resp :=
  answer r (ResOplayoutGet (LayoutGet4res_Err Nfs4errLayoutUnavailable)) Nfs4errLayoutUnavailable w.
Definition op_layoutreturn (_ : LayoutReturn4args) (r : Req) (w : W) : Resp :=
  answer r (ResOplayoutReturn (LayoutReturn4res_Err Nfs4errNomatchingLayout)) Nfs4errNomatchingLayout w.
Definition op_layoutcommit (_ : LayoutCommit4args) (r : Req) (w : W) : Resp :=
  answer r (ResOplayoutCommit (LayoutCommit4res_Err Nfs4errNomatchingLayout)) Nfs4errNomatchingLayout w.
Definition op_getdeviceinfo (_ : GetDeviceInfo4args) (r : Req) (w : W) : Resp :=
  answer r (ResOpgetdeviceInfo (GetDeviceInfo4res_Err Nfs4errNotsupp)) Nfs4errNotsupp w.
Definition op_getdevicelist (_ : GetDeviceList4args) (r : Req) (w : W) : Resp :=
  answer r (ResOpgetdeviceList (GetDeviceList4res_Err Nfs4errNotsupp)) Nfs4errNotsupp w.
End Ops41.
#[global] Arguments SessionStore : clear implicits.
