(* ===== verification/Execute.v ===== *)
(** * What an operation does ([operation.rs], the match of [nfs40.rs])

    [execute] is the [NfsOperation] trait with its instances: the argument [Compound] was
    given, now the operations of [OpsState], [OpsAttr], [OpsFile], [OpsDir] and [Ops41].
    [serve_compound] is the server's COMPOUND with them. *)

From S2P Require Import Prelude NfsTypes Rpc MultiIndex Locking FileManager Export ClientManager Request Perm.
From S2P Require Import Compound Handle OpsState OpsAttr OpsFile OpsDir Ops41.
From stdpp Require Import base list gmap strings.
From Stdlib Require Import Strings.Byte ZArith Lia.
#[local] Open Scope Z_scope.

Section Execute.
Context {W P C Fm F : Type} `{V : !Vfs W P C} `{A : !Actors W P C Fm} `{CH : !Channels W P C Fm}
        `{IO : !FileIo W P F} `{SH : !Shared W Fm} `{ST : !SessionStore W}.
Variable parse_ip parse_socket : string -> option IpAddr.
Variable getpwnam getgrnam : string -> option Z.
#[local] Abbreviation Req := (NfsRequest P C Fm).

(** The dispatcher's own operations do not come here. *)
Definition execute (arg : NfsArgOp) (r : Req) (w : W) : option (NfsOpResponse * W) :=
  match arg with
  | Opsetclientid args => op_set_clientid args r w
  | OpsetclientidConfirm args => op_set_clientid_confirm args r w
  | Oprenew args => op_renew args r w
  | Oplookup args => op_lookup parse_ip parse_socket args r w
  | Opreaddir args => op_readdir parse_ip parse_socket args r w
  | OpAccess args => op_access args r w
  | Opgetattr args => op_getattr args r w
  | Opsetattr args => op_setattr getpwnam getgrnam args r w
  | Opopen args => op_open args r w
  | OpopenConfirm args => op_openconfirm args r w
  | Opclose args => op_close args r w
  | Opread args => op_read args r w
  | Opwrite args => op_write args r w
  | Opcommit args => op_commit args r w
  | Opcreate args => op_create args r w
  | Opremove args => op_remove args r w
  | Oprename args => op_rename args r w
  | Opreadlink => op_readlink r w
  | Opdelegpurge args => op_delegpurge args r w
  | Opdelegreturn args => op_delegreturn args r w
  | Oplink args => op_link args r w
  | Oplock args => op_lock args r w
  | Oplockt args => op_lockt args r w
  | Oplocku args => op_locku args r w
  | OpreleaseLockOwner args => op_release_lockowner args r w
  | Opnverify args => op_nverify args r w
  | Opverify args => op_verify args r w
  | Opopenattr args => op_openattr args r w
  | OpopenDowngrade args => op_open_downgrade args r w
  | OpSecinfo args => op_secinfo args r w
  | OpexchangeId args => op_exchange_id args r w
  | OpcreateSession args => op_create_session args r w
  | Opsequence args => op_sequence args r w
  | OpdestroySession args => op_destroy_session args r w
  | OpdestroyClientid args => op_destroy_clientid args r w
  | OpreclaimComplete args => op_reclaim_complete args r w
  | OpbindConnToSession args => op_bind_conn_to_session args r w
  | OpfreeStateid args => op_free_stateid args r w
  | OptestStateid args => op_test_stateid args r w
  | OpgetdeviceInfo args => op_getdeviceinfo args r w
  | OpgetdeviceList args => op_getdevicelist args r w
  | OplayoutCommit args => op_layoutcommit args r w
  | OplayoutGet args => op_layoutget args r w
  | OplayoutReturn args => op_layoutreturn args r w
  | OpsecinfoNoName args => op_secinfo_no_name args r w
  | Opallocate args => op_allocate args r w
  | Opcopy args => op_copy args r w
  | Opseek args => op_seek args r w
  | OpUndef0 | OpUndef1 | OpUndef2 | Opgetfh | Opputfh _ | Opputpubfh | Opputrootfh | Oprestorefh
  | Opsavefh | Oplookupp => fail r Nfs4errNotsupp w
  end.

Variable lchown : W -> string -> Z -> Z -> bool * W.
Variable try_consume : W -> Z -> Z -> bool * W.
Variable in_grace : W -> bool.

Definition serve_compound : CallBody -> Req -> W -> option (Req * ReplyBody * W) :=
  compound parse_ip parse_socket getpwnam getgrnam lchown try_consume in_grace execute.
End Execute.
