(* ===== verification/OpsStatus.v ===== *)
(** * What a result says of its status ([nfs40/op_*.rs], [nfs4_proto.rs])

    An operation ends with a status and mostly a result, whose first word a client reads
    as the status ([worded]). [misworded] are the operations that put a result without a
    place for errors under an error; [unanswered] are the statuses an operation ends with
    without a result ([result: None]), and then the reply has none either. *)

From S2P Require Import Prelude NfsTypes Rpc MultiIndex Locking FileManager.
From S2P Require Import Export ClientManager Request Perm Compound Handle OpsState OpsAttr OpsFile OpsDir Ops41.
From S2P Require Import Execute.
From stdpp Require Import base list gmap strings.
From Stdlib Require Import Strings.Byte ZArith Lia.
#[local] Open Scope Z_scope.

(** The word a client reads after a result's number. *)
Definition body_word (res : NfsResOp4) : option Z :=
  match res with
  | ResOpUndef0 | ResOpUndef1 | ResOpUndef2 | ResOpputpubfh => None
  | ResOpAccess _ | ResOpclose _ | ResOpcommit _ | ResOpcreate _ | ResOpgetfh _ | ResOplink _ | ResOplockt _
  | ResOplocku _ | ResOpopen _ | ResOpopenConfirm _ | ResOpopenDowngrade _ | ResOpread _ | ResOpreaddir _
  | ResOprename _ | ResOpSecinfo _ | ResOpwrite _ | ResOpbindConnToSession _ | ResOpexchangeId _
  | ResOpcreateSession _ | ResOpsecinfoNoName _ | ResOpsequence _ | ResOptestStateid _ | ResOpcopy _
  | ResOpseek _ => Some 0
  | ResOplock (Lock4res_Resok4 _) => Some 0
  | ResOplock (Lock4res_Denied _) => Some 1
  | ResOpsetclientid (SetClientId4res_Resok4 _) => Some 0
  | ResOpsetclientid (ClientUsing _) => Some 1
  | ResOpgetdeviceInfo (GetDeviceInfo4res_Resok4 _) | ResOpgetdeviceList (GetDeviceList4res_Resok4 _)
  | ResOplayoutCommit (LayoutCommit4res_Resok4 _) | ResOplayoutGet (LayoutGet4res_Resok4 _)
  | ResOplayoutReturn (LayoutReturn4res_Resok4 _) => Some 0
  | ResOpgetdeviceInfo _ | ResOpgetdeviceList _ | ResOplayoutCommit _ | ResOplayoutGet _ | ResOplayoutReturn _ => Some 1
  | ResOpdelegpurge a => Some (NfsStat4_to_u32 (delegPurge4res_status a))
  | ResOpdelegreturn a => Some (NfsStat4_to_u32 (delegReturn4res_status a))
  | ResOpgetattr a => Some (NfsStat4_to_u32 (getattr4resok_status a))
  | ResOplookup a => Some (NfsStat4_to_u32 (lookup4res_status a))
  | ResOplookupp a => Some (NfsStat4_to_u32 (lookupP4res_status a))
  | ResOpnverify a => Some (NfsStat4_to_u32 (nverify4res_status a))
  | ResOpopenattr a => Some (NfsStat4_to_u32 (openAttr4res_status a))
  | ResOpputfh a => Some (NfsStat4_to_u32 (putFh4res_status a))
  | ResOpputrootfh a => Some (NfsStat4_to_u32 (putRootFh4res_status a))
  | ResOpreadlink a => Some (NfsStat4_to_u32 (readlink4res_status a))
  | ResOpremove a => Some (NfsStat4_to_u32 (remove4res_status a))
  | ResOprenew a => Some (NfsStat4_to_u32 (renew4res_status a))
  | ResOprestorefh a => Some (NfsStat4_to_u32 (restoreFh4res_status a))
  | ResOpsavefh a => Some (NfsStat4_to_u32 (saveFh4res_status a))
  | ResOpsetattr a => Some (NfsStat4_to_u32 (setAttr4res_status a))
  | ResOpsetclientidConfirm a => Some (NfsStat4_to_u32 (setClientIdConfirm4res_status a))
  | ResOpverify a => Some (NfsStat4_to_u32 (verify4res_status a))
  | ResOpreleaseLockOwner a => Some (NfsStat4_to_u32 (releaseLockowner4res_status a))
  | ResOpdestroySession a => Some (NfsStat4_to_u32 (destroySession4res_dsr_status a))
  | ResOpfreeStateid a => Some (NfsStat4_to_u32 (freeStateid4res_fsr_status a))
  | ResOpdestroyClientid a => Some (NfsStat4_to_u32 (destroyClientId4res_dcr_status a))
  | ResOpreclaimComplete a => Some (NfsStat4_to_u32 (reclaimComplete4res_rcr_status a))
  | ResOpallocate a => Some (NfsStat4_to_u32 (allocate4res_ar_status a))
  | ResOpError _ s => Some (NfsStat4_to_u32 s)
  end.

(** Operations that put a result without a place for their errors under an error: a
    denied LOCK or LOCKT, a RENAME without a saved filehandle, and the refusals of the
    layout operations. *)
Definition misworded (arg : NfsArgOp) : bool :=
  match arg with
  | Oplock _ | Oplockt _ | Oprename _ | OpgetdeviceInfo _ | OpgetdeviceList _ | OplayoutCommit _ | OplayoutGet _
  | OplayoutReturn _ => true
  | _ => false
  end.

(** A result whose first word is a status. *)
Definition worded (res : NfsResOp4) (s : NfsStat4) : Prop := body_word res = Some (NfsStat4_to_u32 s).

(** The statuses an operation ends with without a result. *)
Definition unanswered (arg : NfsArgOp) : list NfsStat4 :=
  (if grace_denied arg then [Nfs4errGrace] else []) ++
  match arg with
  | OpUndef0 | OpUndef1 | OpUndef2 => [Nfs4errNotsupp]
  | Opgetfh | Oplockt _ | Opclose _ | Opverify _ | Opnverify _ | Opreadlink => [Nfs4errNofilehandle]
  | Opputrootfh | Opputpubfh => [Nfs4errAccess; Nfs4errServerfault]
  | Oplock _ => [Nfs4errNofilehandle; Nfs4errServerfault]
  | Oplocku _ => [Nfs4errBadStateid; Nfs4errServerfault]
  | OpopenConfirm _ => [Nfs4errNofilehandle; Nfs4errBadStateid]
  | OpopenDowngrade _ => [Nfs4errNofilehandle; Nfs4errInval; Nfs4errBadStateid]
  | Opsetclientid _ => [Nfs4errClidInuse; Nfs4errServerfault]
  | OpsetclientidConfirm _ => [Nfs4errStaleClientid; Nfs4errClidInuse; Nfs4errServerfault]
  | Oplookup _ => [Nfs4errFhexpired]
  | Opsetattr _ => [Nfs4errStale]
  | OpSecinfo _ => [Nfs4errNofilehandle; Nfs4errNotdir]
  | Opread _ | Opseek _ => [Nfs4errFhexpired; Nfs4errIo]
  | Opwrite _ => [Nfs4errFhexpired; Nfs4errDquot; Nfs4errServerfault; Nfs4errIo]
  | Opcommit _ => [Nfs4errFhexpired; Nfs4errServerfault]
  | Opcopy _ => [Nfs4errFhexpired; Nfs4errDquot; Nfs4errIo]
  | Opcreate _ =>
    [Nfs4errFhexpired; Nfs4errInval; Nfs4errDquot; Nfs4errBadtype; Nfs4errAccess; Nfs4errExist; Nfs4errIo; Nfs4errNoent;
     Nfs4errServerfault]
  | Opopen _ =>
    [Nfs4errNofilehandle; Nfs4errFhexpired; Nfs4errNotdir; Nfs4errInval; Nfs4errNotsupp; Nfs4errDquot; Nfs4errNoent;
     Nfs4errStale; Nfs4errServerfault]
  | Oprename _ => [Nfs4errNofilehandle; Nfs4errNoent; Nfs4errInval; Nfs4errServerfault]
  | Oplink _ =>
    [Nfs4errRestorefh; Nfs4errNofilehandle; Nfs4errInval; Nfs4errAccess; Nfs4errExist; Nfs4errIo]
  | Opreaddir _ => [Nfs4errFhexpired; Nfs4errIo; Nfs4errNotSame; Nfs4errServerfault]
  | OpexchangeId _ | OpcreateSession _ => [Nfs4errServerfault]
  | Opsequence _ => [Nfs4errServerfault; Nfs4errBadSession; Nfs4errBadSlot]
  | OpbindConnToSession _ => [Nfs4errServerfault; Nfs4errBadSession]
  | _ => []
  end.

(** Neither success nor a refusal by rate limit, flavour or read-only export is one. *)
Lemma unanswered_not arg :
  Nfs4Ok ∉ unanswered arg /\ Nfs4errDelay ∉ unanswered arg /\ Nfs4errWrongsec ∉ unanswered arg /\ Nfs4errRofs ∉ unanswered arg.
Proof. unfold unanswered. destruct (grace_denied arg), arg; cbn [app]; set_solver +. Qed.

Section Statuses.
Context {W P C Fm F : Type} `{V : !Vfs W P C} `{A : !Actors W P C Fm} `{CH : !Channels W P C Fm}
        `{IO : !FileIo W P F} `{SH : !Shared W Fm} `{ST : !SessionStore W}.
Variable parse_ip parse_socket : string -> option IpAddr.
Variable getpwnam getgrnam : string -> option Z.
Variable lchown : W -> string -> Z -> Z -> bool * W.
Variable try_consume : W -> Z -> Z -> bool * W.
Variable in_grace : W -> bool.
#[local] Abbreviation Req := (NfsRequest P C Fm).
#[local] Abbreviation Resp := (NfsOpResponse (P:=P) (C:=C) (Fm:=Fm)).

(** The result of an operation says its status, or the operation is one of the misworded
    ones and did not succeed. *)
Definition tells (arg : NfsArgOp) (x : option (Resp * W)) : Prop :=
  match x with
  | Some (resp, _) =>
    match op_result resp with
    | Some res => worded res (status resp) \/ (misworded arg = true /\ status resp <> Nfs4Ok)
    | None => True
    end
  | None => True
  end.

Lemma tells_bind {R} arg (m : option R) f : (forall x, tells arg (f x)) -> tells arg (m ≫= f).
Proof. by destruct m; simpl. Qed.

Ltac told :=
  cbv beta zeta;
  repeat (lazymatch goal with
  | |- tells _ (answer _ _ _ _) => first [by left | by right]
  | |- tells _ (fail _ _ _) => exact I
  | |- tells _ (Some (match ?x with _ => _ end)) => destruct x
  | |- tells _ (Some (match ?x with _ => _ end, _)) => destruct x
  | |- tells _ (Some _) => first [exact I | by left | by right]
  | |- tells _ (mbind _ _) => apply tells_bind; intros ?
  | |- tells _ (match ?x with _ => _ end) => destruct x
  end; cbv beta zeta).

Lemma execute_tells arg (r : Req) w : tells arg (execute (F:=F) parse_ip parse_socket getpwnam getgrnam arg r w).
Proof.
  destruct arg; unfold execute; unfold
    op_set_clientid, op_set_clientid_confirm, op_renew, op_lookup, op_readdir, op_access,
    op_getattr, op_setattr, op_open, op_openconfirm, op_close, op_read, op_write, op_commit,
    op_create, op_remove, op_rename, op_readlink, op_delegpurge, op_delegreturn, op_link, op_lock,
    op_lockt, op_locku, op_release_lockowner, op_nverify, op_verify, op_openattr, op_open_downgrade,
    op_secinfo, op_exchange_id, op_create_session, op_sequence, op_destroy_session,
    op_destroy_clientid, op_reclaim_complete, op_bind_conn_to_session, op_free_stateid,
    op_test_stateid, op_getdeviceinfo, op_getdevicelist, op_layoutcommit, op_layoutget,
    op_layoutreturn, op_secinfo_no_name, op_allocate, op_copy, op_seek;
  unfold getattr_answer, readlink_answer, seek_answer, allocate_answer, copy_data, copy_answer, remove_answer, created,
    setattr_answer, lookup_answer, open_for_reading, open_for_writing, open_reclaim, readdir_answer, write_answer,
    destroy_session_answer, open_answer; told.
Qed.

#[local] Abbreviation exec := (execute (F:=F) parse_ip parse_socket getpwnam getgrnam).

Lemma dispatch_tells arg (r : Req) w : tells arg (dispatch parse_ip parse_socket exec arg r w).
Proof.
  destruct arg; unfold dispatch; try apply execute_tells;
    unfold put_filehandle, put_root_filehandle, get_current_filehandle, save_filehandle_op, restore_filehandle_op,
      lookup_parent, lookupp_answer, putfh_answer; told.
Qed.

Lemma finish_tells arg arg' next creates c before (resp : Resp) w :
  tells arg (Some (resp, w)) ->
  tells arg (Some (finish_op parse_ip parse_socket lchown arg' next creates c before resp w)).
Proof.
  intros H. unfold finish_op, check_export. cbv zeta.
  repeat match goal with
  | |- context [let '(_, _) := ?p in _] => destruct p as [? ?]
  | |- context [if ?b then _ else _] => destruct b
  end; simpl; try (by left); exact H.
Qed.
End Statuses.
