(* ===== verification/OpsContract.v ===== *)
(** * What the operations need and what they promise

    [Promises] is the interface between the operations and the actors, files and shared
    counters they call: an invariant [J k] of the whole server that every call keeps, and
    answers of the form the caller waits for, with filehandles filed under their own path.
    [k] is how many more stateids and client ids the server can give out; a call that gives
    out one needs one.
    [sound] is the operations' side of it: with a request whose filehandles are in order
    ([req_ok]) and arguments in range, an operation keeps its invariant and the request in order,
    its result has its own operation number and says its status, it is missing only with
    the statuses of [unanswered], and it panics only where [may_panic] says. [completes]
    is what that makes of a COMPOUND's reply. [ServerSpec] discharges [Promises] for the
    server alone, [Interleave] for the server among other COMPOUNDs. *)

From S2P Require Import Prelude NfsTypes Rpc MultiIndex Locking FileManager FileManagerProofs Export.
From S2P Require Import ClientManager Request Perm Compound Handle OpsState OpsAttr OpsFile OpsDir Ops41.
From S2P Require Import Execute OpsStatus.
From S2P Require Sessions ClientManagerSpec.
From stdpp Require Import base list gmap strings.
From Stdlib Require Import Strings.Byte ZArith Lia.
#[local] Open Scope Z_scope.

(** The number a result goes under: the discriminant of its variant. *)
Definition res_op (res : NfsResOp4) : Z :=
  match res with
  | ResOpUndef0 => 0 | ResOpUndef1 => 1 | ResOpUndef2 => 2
  | ResOpAccess _ => 3 | ResOpclose _ => 4 | ResOpcommit _ => 5 | ResOpcreate _ => 6 | ResOpdelegpurge _ => 7
  | ResOpdelegreturn _ => 8 | ResOpgetattr _ => 9 | ResOpgetfh _ => 10 | ResOplink _ => 11 | ResOplock _ => 12
  | ResOplockt _ => 13 | ResOplocku _ => 14 | ResOplookup _ => 15 | ResOplookupp _ => 16 | ResOpnverify _ => 17
  | ResOpopen _ => 18 | ResOpopenattr _ => 19 | ResOpopenConfirm _ => 20 | ResOpopenDowngrade _ => 21
  | ResOpputfh _ => 22 | ResOpputpubfh => 23 | ResOpputrootfh _ => 24 | ResOpread _ => 25 | ResOpreaddir _ => 26
  | ResOpreadlink _ => 27 | ResOpremove _ => 28 | ResOprename _ => 29 | ResOprenew _ => 30 | ResOprestorefh _ => 31
  | ResOpsavefh _ => 32 | ResOpSecinfo _ => 33 | ResOpsetattr _ => 34 | ResOpsetclientid _ => 35
  | ResOpsetclientidConfirm _ => 36 | ResOpverify _ => 37 | ResOpwrite _ => 38 | ResOpreleaseLockOwner _ => 39
  | ResOpbindConnToSession _ => 41 | ResOpexchangeId _ => 42 | ResOpcreateSession _ => 43
  | ResOpdestroySession _ => 44 | ResOpfreeStateid _ => 45 | ResOpgetdeviceInfo _ => 47
  | ResOpgetdeviceList _ => 48 | ResOplayoutCommit _ => 49 | ResOplayoutGet _ => 50 | ResOplayoutReturn _ => 51
  | ResOpsecinfoNoName _ => 52 | ResOpsequence _ => 53 | ResOptestStateid _ => 55 | ResOpdestroyClientid _ => 57
  | ResOpreclaimComplete _ => 58 | ResOpallocate _ => 59 | ResOpcopy _ => 60 | ResOpseek _ => 69
  | ResOpError op _ => op
  end.

(** A result for an operation: under its number, or PUTROOTFH's for PUTPUBFH. *)
Definition answers_to (arg : NfsArgOp) (res : NfsResOp4) : Prop :=
  res_op res = op_code arg \/ (arg = Opputpubfh /\ res_op res = OP_PUTROOTFH).

(** The answer to a COMPOUND of [ops]: operations run in order, each that succeeds with its
    result and NFS4_OK in it; the first that does not ends the list, with the status of the
    whole and a result of its own, which says that status unless the operation is one of the
    misworded ones. An operation that ended with one of its [unanswered] statuses has none. *)
Inductive completes : list NfsArgOp -> NfsStat4 -> list NfsResOp4 -> Prop :=
| completes_all : completes [] Nfs4Ok []
| completes_next arg ops res st l :
    answers_to arg res -> worded res Nfs4Ok -> completes ops st l -> completes (arg :: ops) st (res :: l)
| completes_failed arg ops res st :
    st <> Nfs4Ok -> answers_to arg res -> worded res st \/ misworded arg = true -> completes (arg :: ops) st [res]
| completes_unanswered arg ops st : st ∈ unanswered arg -> completes (arg :: ops) st [].

(** With NFS4_OK every operation was answered. *)
Lemma completes_ok ops res : completes ops Nfs4Ok res -> Forall2 answers_to ops res /\ Forall (fun x => worded x Nfs4Ok) res.
Proof.
  assert (H : forall st, completes ops st res -> st = Nfs4Ok -> Forall2 answers_to ops res /\ Forall (fun x => worded x Nfs4Ok) res);
    [|by intros Hc; apply (H _ Hc)].
  intros st. induction 1 as [|arg ops x st l Ha Hx _ IH|arg ops x st Hne _ _|arg ops st Hin]; intros E.
  - done.
  - destruct (IH E). split; by constructor.
  - destruct (Hne E).
  - subst st. by destruct (unanswered_not arg).
Qed.

(** Numbers of the arguments that the theorems need in their width. *)
Definition args_ok (arg : NfsArgOp) : Prop :=
  match arg with
  | Oplock a => in_width 64 (lock4args_offset a) /\ in_width 64 (lock4args_length a)
  | _ => True
  end.

(** A size no buffer can have. *)
Definition huge_size (v : FileAttrValue) : Prop :=
  match v with FileAttrValue_Size n => umax 63 < n | _ => False end.

Section Contract.
Context {W P C Fm F : Type} `{V : !Vfs W P C} `{A : !Actors W P C Fm} `{CH : !Channels W P C Fm}
        `{IO : !FileIo W P F} `{SH : !Shared W Fm} `{ST : !SessionStore W}.
#[local] Abbreviation FH := (Filehandle P C).
#[local] Abbreviation Req := (NfsRequest P C Fm).
#[local] Abbreviation NfsOpResponse := (NfsOpResponse (P:=P) (C:=C) (Fm:=Fm)).

(** ** The interface *)

(** SETCLIENTID may give out a client id. *)
Definition is_upsert (m : ClientManagerMessage) : bool := match m with UpsertClient _ _ _ _ => true | _ => false end.

(** How the client manager refuses. *)
Definition client_reply_ok (m : ClientManagerMessage) (reply : ClientManagerReply) : Prop :=
  match m, reply with
  | UpsertClient _ _ _ _, ClientReply (Err s) => s = Nfs4errClidInuse
  | ConfirmClient _ _ _, ClientReply (Err s) => s ∈ [Nfs4errStaleClientid; Nfs4errClidInuse]
  | _, _ => True
  end.

(** A call that may change the world keeps [I]. *)
Definition keeps (I : W -> Prop) {R : Type} (f : W -> R * W) : Prop := forall w, I w -> I (f w).2.

(** A lookup of a filehandle keeps [I] and finds one in order. *)
Definition finds (I : W -> Prop) (f : W -> option FH * W) : Prop :=
  forall w, I w -> I (f w).2 /\ forall fh, (f w).1 = Some fh -> fh_ok fh.

Class Promises (J : nat -> W -> Prop) : Prop := {
  promise_less k w : J (S k) w -> J k w;
  fm_promise k fm m w : J (if issues m then S k else k) w -> msg_ok m ->
    J k (fm_call fm m w).2 /\ forall reply, (fm_call fm m w).1 = Some reply -> reply_ok m reply;
  cm_promise k m w : ClientManagerSpec.is_restore m = false -> J (if is_upsert m then S k else k) w ->
    J k (cm_call m w).2 /\ forall reply, (cm_call m w).1 = Some reply -> client_reply_ok m reply;
  fm_root_promise k fm : finds (J k) (fm_root_filehandle fm);
  fm_for_id_promise k fm i : finds (J k) (fm_filehandle_for_id fm i);
  fm_for_path_promise k fm p : finds (J k) (fm_filehandle_for_path fm p);
  fm_update_promise k fm fh w : J k w -> fh_ok fh -> J k (fm_update_filehandle fm fh w);
  listed_promise k w e : J k w -> e ∈ list_exports w ->
    Export.export_id e <> PSEUDO_ROOT_EXPORT_ID /\ is_Some (export_by_id_of w (Export.export_id e));
  export_promise k w nm i fm : J k w -> export_by_name_of w nm = Some (i, fm) ->
    Export.export_id i <> PSEUDO_ROOT_EXPORT_ID /\ export_by_id_of w (Export.export_id i) = Some (i, fm);
  memory_root_promise : path_of memory_fs_root = "/"%string;
  wc_write_promise k c off data w : J k w -> J k (wc_write_bytes c off data w);
  wc_commit_promise k c w : J k w -> J k (wc_commit c w);
  sessions_promise k w m m' : J k w -> session_manager w = Some m -> Sessions.session_method m m' ->
    J k (put_session_manager m' w);
  quota_promise k x n w : J k w -> J k (set_quota x (record_write (quota_of w x) n) w);
  stats_promise k x s w : J k w -> J k (set_stats x s w);
  vfs_create_dir_promise k p : keeps (J k) (fun w => vfs_create_dir w p);
  vfs_move_file_promise k p q : keeps (J k) (fun w => vfs_move_file w p q);
  vfs_move_dir_promise k p q : keeps (J k) (fun w => vfs_move_dir w p q);
  vfs_open_file_promise k p : keeps (J k) (vfs_open_file p);
  vfs_append_file_promise k p : keeps (J k) (vfs_append_file p);
  file_seek_end_promise k f : keeps (J k) (file_seek_end f);
  file_seek_promise k f n : keeps (J k) (file_seek f n);
  file_read_promise k f n : keeps (J k) (file_read f n);
  file_read_exact_promise k f n : keeps (J k) (file_read_exact f n);
  file_write_promise k f d : keeps (J k) (file_write f d);
  file_write_all_promise k f d : keeps (J k) (file_write_all f d);
  file_write_all_at_promise k f d n : keeps (J k) (file_write_all_at f d n);
  file_flush_promise k f : keeps (J k) (file_flush f);
  file_sync_all_promise k f : keeps (J k) (file_sync_all f);
  fs_open_append_promise k s : keeps (J k) (fs_open_append s);
  fs_open_write_promise k s : keeps (J k) (fs_open_write s);
  fs_symlink_promise k s t : keeps (J k) (fs_symlink s t);
  fs_hard_link_promise k s t : keeps (J k) (fs_hard_link s t);
  fs_rename_promise k s t : keeps (J k) (fs_rename s t);
  libc_chown_promise k s u g : keeps (J k) (libc_chown s u g);
  libc_chmod_promise k s m : keeps (J k) (libc_chmod s m);
  libc_utimens_promise k s : keeps (J k) (libc_utimens_now s)
}.

(** ** Requests and operations in order *)

Record req_ok (r : Req) : Prop := {
  current_ok : forall fh, filehandle r = Some fh -> fh_ok fh;
  saved_ok : forall fh, saved_filehandle r = Some fh -> fh_ok fh;
  cache_ok : forall c k x, filehandle_cache r = Some c -> c !! k = Some x -> fh_ok x.2
}.

(** Where a task can panic: an operation that needs the export's file manager when no
    export is selected, and a SETATTR of a size no buffer can have. *)
Definition may_panic (arg : NfsArgOp) (r : Req) : Prop :=
  cached_fmanager r = None \/
  match arg with
  | Opsetattr a => Exists huge_size (fattr4_attr_vals (setAttr4args_obj_attributes a))
  | _ => False
  end.

Definition sound {R} (E : Prop) (Q : R -> W -> Prop) (x : option (R * W)) : Prop :=
  match x with Some (a, w) => Q a w | None => E end.

Definition good (I : W -> Prop) (arg : NfsArgOp) (resp : NfsOpResponse) (w : W) : Prop :=
  I w /\ req_ok (request resp) /\
  match op_result resp with Some res => answers_to arg res | None => status resp ∈ unanswered arg end.

(** ** Requests stay in order *)

Ltac req_tac := intros []; split; simpl; naive_solver.

Lemma req_ok_set_filehandle r fh : req_ok r -> fh_ok fh -> req_ok (set_filehandle r fh).
Proof. intros [] ?. split; simpl; naive_solver. Qed.

Lemma req_ok_unset_filehandle r : req_ok r -> req_ok (unset_filehandle r).
Proof. req_tac. Qed.

Lemma req_ok_save_filehandle r : req_ok r -> req_ok (save_filehandle r).
Proof. req_tac. Qed.

Lemma req_ok_cache_filehandle w r fh : req_ok r -> fh_ok fh -> req_ok (cache_filehandle w r fh).
Proof.
  intros [H1 H2 H3] Hfh. split; simpl; [done..|]. intros c k x Hc.
  destruct (filehandle_cache r) as [c0|] eqn:E; simplify_eq/=. 
  intros [[_ <-]|[_ Hx]]%lookup_insert_Some; [done|by eapply H3].
Qed.

Lemma req_ok_drop_filehandle r i : req_ok r -> req_ok (drop_filehandle_from_cache r i).
Proof.
  intros [H1 H2 H3]. split; simpl; [done..|]. intros c k x Hc.
  destruct (filehandle_cache r) as [c0|] eqn:E; simplify_eq/=.
  intros [_ Hx]%lookup_delete_Some. by eapply H3.
Qed.

Lemma req_ok_set_export w r i : req_ok r -> req_ok (set_export w r i).
Proof. unfold set_export. intros Hr. case_match; [|case_match; [case_match|]]; by destruct Hr. Qed.

Lemma req_ok_with_session r i n : req_ok r -> req_ok (with_session r i n).
Proof. by intros []. Qed.

Lemma req_ok_set_auth r c : req_ok r -> req_ok (set_auth_cred r c).
Proof. by intros []. Qed.

Lemma fh_ok_with_locks (fh : FH) l : fh_ok fh -> fh_ok (with_locks fh l).
Proof. done. Qed.

Lemma fh_ok_with_id (fh : FH) i : fh_ok fh -> fh_ok (with_id fh i).
Proof. done. Qed.
End Contract.
Create HintDb req.
#[export] Hint Resolve req_ok_set_filehandle req_ok_unset_filehandle req_ok_save_filehandle req_ok_cache_filehandle
  req_ok_drop_filehandle req_ok_set_export req_ok_with_session req_ok_set_auth fh_ok_with_locks fh_ok_with_id
  current_ok saved_ok : req.
