(* ===== verification/OpsSound.v ===== *)
(** * Every operation keeps its promise ([nfs40/op_*.rs])

    With [Promises], every operation of [Execute] is [sound]. A call to an actor or a file
    is taken by its [_ok] lemma, found in the hint database [calls]; [walk] follows an
    operation from call to call. *)

From S2P Require Import Prelude NfsTypes Rpc MultiIndex Locking FileManager FileManagerProofs Export.
From S2P Require Import ClientManager Request Perm Compound Handle OpsState OpsAttr OpsFile OpsDir Ops41.
From S2P Require Import Execute OpsStatus OpsContract CompoundSpec.
From S2P Require Sessions ClientManagerSpec.
From stdpp Require Import base list gmap strings.
From Stdlib Require Import Strings.Byte ZArith Lia.
#[local] Open Scope Z_scope.

Create HintDb calls.

Section Sound.
Context {W P C Fm F : Type} `{V : !Vfs W P C} `{A : !Actors W P C Fm} `{CH : !Channels W P C Fm}
        `{IO : !FileIo W P F} `{SH : !Shared W Fm} `{ST : !SessionStore W}.
Variable J : nat -> W -> Prop.
Context `{PR : !Promises J}.
Variable k : nat.
#[local] Abbreviation I := (J k).
#[local] Abbreviation FH := (Filehandle P C).
#[local] Abbreviation Req := (NfsRequest P C Fm).

(** A call that keeps the invariant and answers something [Q]. *)
Definition call_ok {R} (Q : R -> Prop) (x : R * W) : Prop := I x.2 /\ Q x.1.

Lemma keeps_call {R} (f : W -> R * W) w : keeps I f -> I w -> call_ok (fun _ => True) (f w).
Proof. intros Hf Hw. split; [by apply Hf|done]. Qed.

Lemma less w : J (S k) w -> I w.
Proof. apply promise_less. Qed.

Lemma fm_call_cases (K : option (FileManagerReply P C) * W -> Prop) fm m w :
  J (if issues m then S k else k) w -> msg_ok m ->
  (forall reply w', I w' -> reply_ok m reply -> K (Some reply, w')) -> (forall w', I w' -> K (None, w')) ->
  K (fm_call fm m w).
Proof.
  intros Hw Hm Hs Hn. destruct (fm_promise k fm m w Hw Hm) as [HI HR].
  destruct (fm_call fm m w) as [[reply|] w']; auto.
Qed.

(** One message to the file manager: every reply it can have. *)
Ltac ask :=
  match goal with |- context [fm_call ?fm ?m ?w] => pattern (fm_call fm m w) end;
  apply fm_call_cases; [assumption|done|
    intros [] ?w' ?Hw' Hreply; simpl in Hreply; try done|intros ?w' ?Hw'];
  repeat case_match; simplify_eq/=; (split; [assumption|]); simpl; try done; first [naive_solver | naive_solver set_solver].

(** ** The handles *)

(** A call that fails with [l] only. *)
Definition errs {R} (l : list NfsStat4) (r : result R NfsStat4) : Prop := forall s, r = Err s -> s ∈ l.

Definition fh_found (r : result FH NfsStat4) : Prop :=
  (forall fh, r = Ok fh -> fh_ok fh) /\ errs [Nfs4errNoent; Nfs4errServerfault] r.

Lemma found_ok fh : fh_found (Ok fh) -> fh_ok fh.
Proof. intros [H _]. by apply H. Qed.
#[local] Hint Resolve found_ok : req.

Lemma get_root_filehandle_ok fm w : I w -> call_ok (fun r => forall fh, r = Ok fh -> fh_ok fh) (get_root_filehandle fm w).
Proof. intros Hw. unfold get_root_filehandle, send_filehandle_request. ask. Qed.

Lemma get_filehandle_for_path_ok fm p w : I w -> call_ok fh_found (get_filehandle_for_path fm p w).
Proof. intros Hw. unfold get_filehandle_for_path, send_filehandle_request, fh_found, errs. ask. Qed.

Lemma create_file_ok fm p c o a d v w :
  J (S k) w -> call_ok (fun r => forall fh, r = Ok fh -> fh_ok fh /\ locks fh <> []) (handle_create_file fm p c o a d v w).
Proof. intros Hw. unfold handle_create_file. ask. Qed.

Lemma create_open_state_ok fm p c o a d w :
  J (S k) w -> call_ok (errs [Nfs4errStale; Nfs4errServerfault]) (create_open_state fm p c o a d w).
Proof. intros Hw. unfold create_open_state, errs. ask. Qed.

Lemma remove_file_ok fm p w : I w -> call_ok (fun _ => True) (handle_remove_file fm p w).
Proof. intros Hw. unfold handle_remove_file. ask. Qed.

Lemma get_write_cache_handle_ok fm fh w :
  I w -> fh_ok fh -> call_ok (fun _ => True) (get_write_cache_handle fm fh w).
Proof. intros Hw Hfh. unfold get_write_cache_handle. ask. Qed.

Lemma return_delegation_ok fm i s w : I w -> call_ok (fun _ => True) (handle_return_delegation fm i s w).
Proof. intros Hw. unfold handle_return_delegation. ask. Qed.

Lemma open_named_attr_dir_ok fm i b w : I w -> call_ok fh_found (handle_open_named_attr_dir fm i b w).
Proof. intros Hw. unfold handle_open_named_attr_dir, fh_found, errs. ask. Qed.

Lemma lock_file_ok fm i c o ty off len w :
  J (S k) w -> in_width 64 off -> in_width 64 len -> 
  call_ok (fun r => forall s, r = LockError s -> s ∈ [Nfs4errServerfault]) (lock_file fm i c o ty off len w).
Proof. intros Hw Hoff Hlen. unfold lock_file. ask. Qed.

Lemma unlock_file_ok fm s off len w :
  I w -> call_ok (fun r => forall e, r = UnlockError e -> e ∈ [Nfs4errBadStateid; Nfs4errServerfault]) (unlock_file fm s off len w).
Proof. intros Hw. unfold unlock_file. ask. Qed.

Lemma test_lock_ok fm i c o ty off len w :
  I w -> call_ok (fun _ => True) (test_lock fm i c o ty off len w).
Proof. intros Hw. unfold test_lock. ask. Qed.

Lemma release_lock_owner_ok fm c o w : I w -> call_ok (fun _ => True) (release_lock_owner fm c o w).
Proof. intros Hw. unfold release_lock_owner. ask. Qed.

Lemma tell_ok fm m w : I w -> issues m = false -> msg_ok m -> I (fm_call fm m w).2.
Proof. intros Hw Hi Hm. by destruct (fm_promise k fm m w) as [? _]; [rewrite Hi|..]. Qed.

Lemma touch_file_ok fm i w : I w -> I (touch_file fm i w).
Proof. intros Hw. by apply tell_ok. Qed.

Lemma close_file_ok fm s w : I w -> I (close_file fm s w).
Proof. intros Hw. by apply tell_ok. Qed.

Lemma rename_path_ok fm s t p w : I w -> I (rename_path fm s t p w).
Proof. intros Hw. by apply tell_ok. Qed.

Lemma client_call_ok m w :
  J (if is_upsert m then S k else k) w -> ClientManagerSpec.is_restore m = false ->
  call_ok (fun o => forall reply, o = Some reply -> client_reply_ok m reply) (cm_call m w).
Proof. intros Hw Hm. by apply cm_promise. Qed.

Lemma client_reply_errs l m x :
  call_ok (fun o => forall reply, o = Some reply -> client_reply_ok m reply) x ->
  (forall s, client_reply_ok m (ClientReply (Err s)) -> s ∈ l) -> call_ok (errs (Nfs4errServerfault :: l)) (client_reply x).
Proof.
  intros [Hw Hr] Hl. unfold client_reply, errs. repeat case_match; simplify_eq/=; (split; [done|]); simpl; try set_solver.
Qed.

Lemma upsert_client_ok v i cb p w :
  J (S k) w -> call_ok (errs [Nfs4errServerfault; Nfs4errClidInuse]) (handle_upsert_client v i cb p w).
Proof. intros Hw. eapply client_reply_errs; [by apply client_call_ok|]. simpl. set_solver. Qed.

Lemma confirm_client_ok c t p w :
  I w -> call_ok (errs [Nfs4errServerfault; Nfs4errStaleClientid; Nfs4errClidInuse]) (handle_confirm_client c t p w).
Proof. intros Hw. eapply client_reply_errs; [by apply client_call_ok|]. simpl. set_solver. Qed.

Lemma renew_leases_ok c w : I w -> call_ok (fun _ => True) (handle_renew_leases c w).
Proof.
  intros Hw. unfold handle_renew_leases. destruct (client_call_ok (RenewLeases c) w Hw eq_refl) as [HI _].
  repeat case_match; simplify_eq/=; by split.
Qed.

Lemma update_quota_ok (r : Req) n w : I w -> I (update_quota r (fun q => record_write q n) w).
Proof. intros Hw. unfold update_quota. case_match; [by apply quota_promise|done]. Qed.

Lemma update_stats_ok (r : Req) f w : I w -> I (update_stats r f w).
Proof. intros Hw. unfold update_stats. case_match; [by apply stats_promise|done]. Qed.

Lemma with_sessions_ok {X} (f : Sessions.SessionManager -> X * Sessions.SessionManager) m w :
  I w -> session_manager w = Some m -> Sessions.session_method m (f m).2 ->
  call_ok (fun _ => True) (with_sessions f m w).
Proof.
  intros Hw Hm Hf. unfold with_sessions. destruct (f m) as [x m'] eqn:E. split; [|done].
  by apply (sessions_promise k w m m').
Qed.

(** ** Files *)

Lemma create_dir_ok p w : I w -> call_ok (fun _ => True) (vfs_create_dir w p).
Proof. intros Hw. split; [by apply (vfs_create_dir_promise k p)|done]. Qed.

Lemma move_file_ok p q w : I w -> call_ok (fun _ => True) (vfs_move_file w p q).
Proof. intros Hw. split; [by apply (vfs_move_file_promise k p q)|done]. Qed.

Lemma move_dir_ok p q w : I w -> call_ok (fun _ => True) (vfs_move_dir w p q).
Proof. intros Hw. split; [by apply (vfs_move_dir_promise k p q)|done]. Qed.

Lemma wc_write_ok c off data w : I w -> I (wc_write_bytes c off data w).
Proof. apply wc_write_promise. Qed.

Lemma wc_commit_ok c w : I w -> I (wc_commit c w).
Proof. apply wc_commit_promise. Qed.

Lemma and_then_keeps (f g : W -> bool * W) : keeps I f -> keeps I g -> keeps I (and_then f g).
Proof.
  intros Hf Hg w Hw. unfold and_then. specialize (Hf w Hw). destruct (f w) as [[] w']; [by apply Hg|done].
Qed.

Lemma call_match {R S} (x : R * W) (f : R -> W -> S * W) (Q : R -> Prop) (Q' : S -> Prop) :
  call_ok Q x -> (forall a w, I w -> Q a -> call_ok Q' (f a w)) ->
  call_ok Q' (let '(a, w) := x in f a w).
Proof. destruct x as [a w]. intros [Hw HQ] Hk. by apply Hk. Qed.

Lemma call_world {R} (x : R * W) (Q : R -> Prop) (f : R -> W -> W) :
  call_ok Q x -> (forall a w, I w -> Q a -> I (f a w)) -> I (let '(a, w) := x in f a w).
Proof. destruct x as [a w]. intros [Hw HQ] Hk. by apply Hk. Qed.

Lemma set_size_ok (fh : FH) n w : I w -> call_ok (fun _ => True) (Handle.set_size fh n w).
Proof.
  intros Hw. unfold Handle.set_size.
  eapply call_match; [by apply keeps_call; [apply vfs_open_file_promise|]|]. intros [f|] w1 Hw1 _; [|by split].
  eapply call_match; [by apply keeps_call; [apply file_seek_promise|]|]. intros _ w2 Hw2 _.
  eapply call_match; [by apply keeps_call; [apply file_read_exact_promise|]|]. intros [buf|] w3 Hw3 _; [|by split].
  eapply call_match; [by apply keeps_call; [apply vfs_append_file_promise|]|]. intros [f2|] w4 Hw4 _; [|by split].
  eapply call_match; [by apply keeps_call; [apply file_seek_promise|]|]. intros _ w5 Hw5 _.
  apply keeps_call; [|done]. apply and_then_keeps; [apply file_write_all_promise|apply file_flush_promise].
Qed.

Lemma write_and_sync_ok opened (write : F -> W -> bool * W) n :
  call_ok (fun _ => True) opened -> (forall f, keeps I (write f)) ->
  call_ok (fun _ => True) (write_and_sync opened write n).
Proof.
  intros Ho Hwr. eapply call_match; [exact Ho|]. intros [f|] w Hw _; [|by split].
  eapply call_match; [apply keeps_call; [apply and_then_keeps; [apply Hwr|apply file_sync_all_promise]|done]|].
  intros [] w' Hw' _; by split.
Qed.

Lemma write_through_ok args fm (fh : FH) w : I w -> call_ok (fun _ => True) (write_through args fm fh w).
Proof.
  intros Hw. unfold write_through. cbv zeta. case_match; [case_match|].
  - apply write_and_sync_ok; [by apply keeps_call; [apply fs_open_append_promise|]|].
    intros f. apply file_write_all_promise.
  - apply write_and_sync_ok; [by apply keeps_call; [apply fs_open_write_promise|]|].
    intros f. apply file_write_all_at_promise.
  - eapply call_match; [by apply keeps_call; [apply vfs_append_file_promise|]|]. intros [f|] w1 Hw1 _; [|by split].
    eapply call_match; [by apply keeps_call; [apply file_seek_promise|]|]. intros _ w2 Hw2 _.
    eapply call_match; [by apply keeps_call; [apply file_write_promise|]|]. intros [n|] w3 Hw3 _; [|by split].
    eapply call_match; [by apply keeps_call; [apply file_flush_promise|]|]. intros [] w4 Hw4 _; by split.
Qed.

Lemma write_zeros_ok fuel f n w : I w -> call_ok (fun _ => True) (write_zeros fuel f n w).
Proof.
  revert n w. induction fuel as [|fuel IH]; intros n w Hw; simpl; [by split|]. case_match; [by split|].
  eapply call_match; [by apply keeps_call; [apply file_write_all_promise|]|]. intros [] w1 Hw1 _; [by apply IH|by split].
Qed.

Lemma copy_loop_ok fuel src dst n total w : I w -> call_ok (fun _ => True) (copy_loop fuel src dst n total w).
Proof.
  revert total w. induction fuel as [|fuel IH]; intros total w Hw; simpl; [by split|]. case_match; [by split|].
  eapply call_match; [by apply keeps_call; [apply file_read_promise|]|]. intros [[|b buf]|] w1 Hw1 _; [by split| |by split].
  eapply call_match; [by apply keeps_call; [apply file_write_all_promise|]|]. intros [] w2 Hw2 _; [by apply IH|by split].
Qed.

Lemma rename_move_ok fm s t p q w : I w -> call_ok (fun _ => True) (rename_move fm s t p q w).
Proof.
  intros Hw. unfold rename_move. cbv zeta. case_match; [by apply keeps_call; [apply fs_rename_promise|]|].
  case_match; [by apply move_dir_ok|by apply move_file_ok].
Qed.

(** ** Operations *)

Lemma sound_bind {R S} E (Q : R -> W -> Prop) (Q' : S -> W -> Prop) (x : option (R * W)) (f : R * W -> option (S * W)) :
  sound E Q x -> (forall a w, Q a w -> sound E Q' (f (a, w))) -> sound E Q' (x ≫= f).
Proof. destruct x as [[a w]|]; simpl; auto. Qed.

Lemma sound_fm {S} E (Q : S -> W -> Prop) (r : Req) (f : Fm -> option (S * W)) :
  (cached_fmanager r = None -> E) -> (forall fm, cached_fmanager r = Some fm -> sound E Q (f fm)) ->
  sound E Q (cached_fmanager r ≫= f).
Proof. destruct (cached_fmanager r); simpl; auto. Qed.

Lemma sound_answer E arg (r : Req) res s w :
  I w -> req_ok r -> res_op res = op_code arg -> sound E (good I arg) (answer r res s w).
Proof. intros Hw Hr Hn. split; [done|]. split; [done|]. by left. Qed.

Lemma sound_fail E arg (r : Req) s w : I w -> req_ok r -> s ∈ unanswered arg -> sound E (good I arg) (fail r s w).
Proof. by intros Hw Hr Hs. Qed.

#[local] Hint Resolve get_root_filehandle_ok get_filehandle_for_path_ok create_file_ok create_open_state_ok
  remove_file_ok get_write_cache_handle_ok return_delegation_ok open_named_attr_dir_ok lock_file_ok unlock_file_ok
  test_lock_ok release_lock_owner_ok touch_file_ok close_file_ok rename_path_ok upsert_client_ok confirm_client_ok
  renew_leases_ok update_quota_ok update_stats_ok create_dir_ok rename_move_ok set_size_ok write_through_ok
  write_zeros_ok copy_loop_ok wc_write_ok wc_commit_ok : calls.
#[local] Hint Resolve vfs_open_file_promise vfs_append_file_promise file_seek_end_promise file_seek_promise
  file_read_promise file_flush_promise fs_symlink_promise fs_hard_link_promise libc_chown_promise
  libc_chmod_promise libc_utimens_promise : calls.
#[local] Hint Extern 2 (call_ok _ (?f ?w)) => eapply (keeps_call f w) : calls.
#[local] Hint Extern 1 (I (match ?x with _ => _ end)) =>
  first [eapply call_world; [solve [eauto 4 with calls req]|intros ????] | destruct x] : calls.

(** A status without a result is one of the operation's. *)
Ltac among :=
  unfold unanswered; apply elem_of_app; right; cbv iota;
  first
    [ set_solver +
    | match goal with
      | H : errs _ (Err ?s) |- _ => specialize (H s eq_refl)
      | H : fh_found (Err ?s) |- _ => apply proj2 in H; specialize (H s eq_refl)
      | H : forall e, _ ?s = _ e -> e ∈ _ |- ?s ∈ _ => specialize (H s eq_refl)
      end; set_solver ].

(** Ends of operations. *)
Ltac finish :=
  lazymatch goal with
  | |- sound _ _ (fail _ _ _) => apply sound_fail; [| |among]
  | _ => apply sound_answer; [| |try done]
  end;
  [eauto 10 with calls | eauto 7 with req calls | ..].

(** One call, one test, or the file manager of the request. *)
Ltac walk_step :=
  lazymatch goal with
  | |- sound _ _ (fail _ _ _) => finish
  | |- sound _ _ (answer _ _ _ _) => finish
  | |- sound _ _ (mbind _ (cached_fmanager _)) => apply sound_fm; [by left|intros ?fm ?Hfm]
  | |- sound _ _ (match ?x with _ => _ end) =>
    first
      [ let Hc := fresh "Hc" in
        eassert (Hc : call_ok _ x) by (solve [eauto 4 with calls req]);
        let w' := fresh "w" in let Hw' := fresh "Hw" in let HQ := fresh "HQ" in
        destruct x as [? w']; destruct Hc as [Hw' HQ]; cbn [fst snd] in Hw', HQ
      | destruct x eqn:? ]
  end.
Ltac walk := cbv beta zeta; repeat (walk_step; cbv beta zeta; simplify_eq).

#[local] Abbreviation Sound arg r x := (sound (may_panic arg r) (good I arg) x).

Lemma op_lock_sound a (r : Req) w : J (S k) w -> req_ok r -> args_ok (Oplock a) -> Sound (Oplock a) r (op_lock a r w).
Proof. intros Hw1 Hr []. pose proof (less w Hw1) as Hw. unfold op_lock. walk. Qed.

Lemma op_lockt_sound a (r : Req) w : I w -> req_ok r -> Sound (Oplockt a) r (op_lockt a r w).
Proof. intros Hw Hr. unfold op_lockt. walk. Qed.

Lemma op_locku_sound a (r : Req) w : I w -> req_ok r -> Sound (Oplocku a) r (op_locku a r w).
Proof. intros Hw Hr. unfold op_locku. walk. Qed.

Lemma op_release_lockowner_sound a (r : Req) w :
  I w -> req_ok r -> Sound (OpreleaseLockOwner a) r (op_release_lockowner a r w).
Proof. intros Hw Hr. unfold op_release_lockowner. walk. Qed.

Lemma op_close_sound a (r : Req) w : I w -> req_ok r -> Sound (Opclose a) r (op_close a r w).
Proof. intros Hw Hr. unfold op_close. walk. Qed.

Lemma op_openconfirm_sound a (r : Req) w : I w -> req_ok r -> Sound (OpopenConfirm a) r (op_openconfirm a r w).
Proof. intros Hw Hr. unfold op_openconfirm. walk. Qed.

Lemma op_open_downgrade_sound a (r : Req) w : I w -> req_ok r -> Sound (OpopenDowngrade a) r (op_open_downgrade a r w).
Proof. intros Hw Hr. unfold op_open_downgrade. walk. Qed.

Lemma op_delegreturn_sound a (r : Req) w : I w -> req_ok r -> Sound (Opdelegreturn a) r (op_delegreturn a r w).
Proof. intros Hw Hr. unfold op_delegreturn. walk. Qed.

Lemma op_set_clientid_sound a (r : Req) w : J (S k) w -> req_ok r -> Sound (Opsetclientid a) r (op_set_clientid a r w).
Proof. intros Hw1 Hr. pose proof (less w Hw1) as Hw. unfold op_set_clientid. walk. Qed.

Lemma op_set_clientid_confirm_sound a (r : Req) w :
  I w -> req_ok r -> Sound (OpsetclientidConfirm a) r (op_set_clientid_confirm a r w).
Proof. intros Hw Hr. unfold op_set_clientid_confirm. walk. Qed.

Lemma op_renew_sound a (r : Req) w : I w -> req_ok r -> Sound (Oprenew a) r (op_renew a r w).
Proof. intros Hw Hr. unfold op_renew. walk. Qed.

Lemma op_delegpurge_sound a (r : Req) w : I w -> req_ok r -> Sound (Opdelegpurge a) r (op_delegpurge a r w).
Proof. intros Hw Hr. unfold op_delegpurge. walk. Qed.

Lemma op_access_sound a (r : Req) w : I w -> req_ok r -> Sound (OpAccess a) r (op_access a r w).
Proof. intros Hw Hr. unfold op_access. walk. Qed.

Lemma op_getattr_sound a (r : Req) w : I w -> req_ok r -> Sound (Opgetattr a) r (op_getattr a r w).
Proof. intros Hw Hr. unfold op_getattr, getattr_answer. walk. Qed.

Lemma op_verify_sound a (r : Req) w : I w -> req_ok r -> Sound (Opverify a) r (op_verify a r w).
Proof. intros Hw Hr. unfold op_verify. walk. Qed.

Lemma op_nverify_sound a (r : Req) w : I w -> req_ok r -> Sound (Opnverify a) r (op_nverify a r w).
Proof. intros Hw Hr. unfold op_nverify. walk. Qed.

Lemma op_readlink_sound (r : Req) w : I w -> req_ok r -> Sound Opreadlink r (op_readlink r w).
Proof. intros Hw Hr. unfold op_readlink, readlink_answer. walk. Qed.

Lemma op_openattr_sound a (r : Req) w : I w -> req_ok r -> Sound (Opopenattr a) r (op_openattr a r w).
Proof. intros Hw Hr. unfold op_openattr. walk. Qed.

Lemma op_secinfo_sound a (r : Req) w : I w -> req_ok r -> Sound (OpSecinfo a) r (op_secinfo a r w).
Proof. intros Hw Hr. unfold op_secinfo. walk. Qed.

Lemma op_secinfo_no_name_sound a (r : Req) w :
  I w -> req_ok r -> Sound (OpsecinfoNoName a) r (op_secinfo_no_name a r w).
Proof. intros Hw Hr. unfold op_secinfo_no_name. walk. Qed.

Lemma op_read_sound a (r : Req) w : I w -> req_ok r -> Sound (Opread a) r (op_read a r w).
Proof. intros Hw Hr. unfold op_read. walk. Qed.

Lemma op_commit_sound a (r : Req) w : I w -> req_ok r -> Sound (Opcommit a) r (op_commit a r w).
Proof. intros Hw Hr. unfold op_commit. walk. Qed.

Lemma op_seek_sound a (r : Req) w : I w -> req_ok r -> Sound (Opseek a) r (op_seek a r w).
Proof. intros Hw Hr. unfold op_seek, seek_answer. walk. Qed.

Lemma op_allocate_sound a (r : Req) w : I w -> req_ok r -> Sound (Opallocate a) r (op_allocate a r w).
Proof. intros Hw Hr. unfold op_allocate, allocate_answer. walk. Qed.

Lemma op_copy_sound a (r : Req) w : I w -> req_ok r -> Sound (Opcopy a) r (op_copy a r w).
Proof. intros Hw Hr. unfold op_copy, copy_data, copy_answer. walk. Qed.

Lemma op_remove_sound a (r : Req) w : I w -> req_ok r -> Sound (Opremove a) r (op_remove a r w).
Proof. intros Hw Hr. unfold op_remove, remove_answer. walk. Qed.

Lemma op_rename_sound a (r : Req) w : I w -> req_ok r -> Sound (Oprename a) r (op_rename a r w).
Proof. intros Hw Hr. unfold op_rename. walk. Qed.

Lemma op_link_sound a (r : Req) w : I w -> req_ok r -> Sound (Oplink a) r (op_link a r w).
Proof. intros Hw Hr. unfold op_link. walk. Qed.

Lemma op_create_sound a (r : Req) w : I w -> req_ok r -> Sound (Opcreate a) r (op_create a r w).
Proof. intros Hw Hr. unfold op_create, created. walk. Qed.

Lemma set_export_fm w (r : Req) i :
  i <> PSEUDO_ROOT_EXPORT_ID -> cached_fmanager r <> None -> cached_fmanager (set_export w r i) <> None.
Proof.
  intros Hi Hr. unfold set_export. case_match; [by apply Z.eqb_eq in H|]. by case_match; [case_match|].
Qed.

Lemma set_filehandle_id_sound (r : Req) i w : I w -> req_ok r ->
  sound (export_id_from_fh i <> PSEUDO_ROOT_EXPORT_ID /\ cached_fmanager r = None)
    (fun x w' => I w' /\ req_ok x.2 /\ (forall fh, x.1 = Ok fh -> fh_ok fh) /\ forall s, x.1 = Err s -> s = Nfs4errStale)
    (set_filehandle_id r i w).
Proof.
  intros Hw Hr. unfold set_filehandle_id. set (r' := if bool_decide _ then r else _).
  assert (Hr' : req_ok r') by (unfold r'; case_match; auto with req).
  assert (Hstale : forall (x : result FH NfsStat4) s, x = Err Nfs4errStale -> x = Err s -> s = Nfs4errStale) by (by intros ? ? -> [= <-]).
  case_match eqn:Ep; [split_and!; simpl; eauto; done|]. apply Z.eqb_neq in Ep.
  destruct (cached_fmanager r') as [fm|] eqn:Efm; simpl.
  - destruct (fm_for_id_promise k fm i w Hw) as [Hw' Hfh].
    destruct (fm_filehandle_for_id fm i w) as [[fh|] w']; simpl in *; [|split_and!; eauto; done].
    split; [done|]. split; [by apply req_ok_set_filehandle; auto|]. split; [|done]. intros ? [= <-]. auto.
  - destruct (cached_fmanager r) as [fm|] eqn:E; [|done]. exfalso. revert Efm. unfold r'.
    case_match; [by rewrite E|]. apply set_export_fm; [done|by rewrite E].
Qed.

Lemma set_one_attr_sound getpwnam getgrnam fm fh v w : I w ->
  sound (huge_size v) (fun _ => I) (set_one_attr (F:=F) getpwnam getgrnam fm fh v w).
Proof.
  intros Hw. unfold set_one_attr. cbv zeta.
  assert (Hcall : forall (x : bool * W), call_ok (fun _ => True) x -> I x.2) by (by intros x []).
  destruct v; simpl; try done; repeat case_match; simpl; try done; eauto 6 with calls.
  by apply Z.ltb_lt.
Qed.

Lemma set_attr_sound getpwnam getgrnam fm fh vals w : I w ->
  sound (Exists huge_size vals) (fun _ => I) (set_attr (F:=F) getpwnam getgrnam fm fh vals w).
Proof.
  revert w. induction vals as [|v vals IH]; intros w Hw; simpl; [done|].
  pose proof (set_one_attr_sound getpwnam getgrnam fm fh v w Hw) as Hv.
  destruct (set_one_attr _ _ fm fh v w) as [[o w1]|]; simpl in *; [|by constructor].
  specialize (IH w1 Hv). destruct (set_attr _ _ fm fh vals w1) as [[l w2]|]; simpl in *; [done|by apply Exists_cons_tl].
Qed.

Lemma op_setattr_sound getpwnam getgrnam a (r : Req) w :
  I w -> req_ok r -> Sound (Opsetattr a) r (op_setattr (F:=F) getpwnam getgrnam a r w).
Proof.
  intros Hw Hr. unfold op_setattr, setattr_answer. walk.
  eapply sound_bind.
  { pose proof (set_attr_sound getpwnam getgrnam fm f (fattr4_attr_vals (setAttr4args_obj_attributes a)) w Hw) as Hs.
    destruct (set_attr _ _ _ _ _ _); [exact Hs|by right]. }
  intros set w1 Hw1. simpl. eapply sound_bind.
  { pose proof (set_filehandle_id_sound r (fh_id f) (touch_file fm (fh_id f) w1) (touch_file_ok _ _ _ Hw1) Hr) as Hs.
    destruct (set_filehandle_id _ _ _); [exact Hs|by left; apply Hs]. }
  intros [[fh|s] r'] w2 (Hw2 & Hr' & Hfh & He); [apply sound_answer; auto with req|].
  apply sound_fail; [done..|]. specialize (He s eq_refl). simpl in He. subst s. among.
Qed.

Lemma op_write_sound a (r : Req) w : I w -> req_ok r -> Sound (Opwrite a) r (op_write a r w).
Proof.
  intros Hw Hr. unfold op_write. walk. 2: unfold write_answer; walk.
  eapply (sound_bind _ (fun o w' => I w' /\ forall r', o = Some r' -> req_ok r')).
  - unfold write_to_cache. case_match; [split; [by apply wc_write_ok|by intros ? [= <-]]|].
    apply sound_fm; [by left|]. intros fm Hfm.
    destruct (get_write_cache_handle_ok fm f w Hw (current_ok r Hr f ltac:(done))) as [Hw' _].
    destruct (get_write_cache_handle fm f w) as [[c|s] w']; simpl in *; [|done].
    split; [by apply wc_write_ok|]. intros ? [= <-]. by apply req_ok_drop_filehandle.
  - intros [r'|] w' [Hw' Hr']; [|apply sound_fail; [done..|among]]. specialize (Hr' r' eq_refl). unfold write_answer. walk.
Qed.

Lemma op_lookup_sound parse_ip parse_socket a (r : Req) w :
  I w -> req_ok r -> Sound (Oplookup a) r (op_lookup parse_ip parse_socket a r w).
Proof.
  intros Hw Hr. unfold op_lookup, lookup_answer. walk.
  destruct (export_promise k w _ _ _ Hw ltac:(done)) as [Hne Hid].
  assert (E : cached_fmanager (set_export w r (Export.export_id e)) = Some f).
  { unfold set_export. rewrite (proj2 (Z.eqb_neq _ _) Hne), Hid. done. }
  rewrite E. simpl. walk.
Qed.

Lemma open_reclaim_sound a (r : Req) w : J (S k) w -> req_ok r -> Sound (Opopen a) r (open_reclaim a r w).
Proof. intros Hw1 Hr. pose proof (less w Hw1) as Hw. unfold open_reclaim, open_answer. walk. Qed.

(** The lookup before an open leaves the stateid to be given out. *)
Lemma lookup_before_open fm p w :
  J (S k) w ->
  J (S k) (get_filehandle_for_path fm p w).2 /\ fh_found (get_filehandle_for_path fm p w).1.
Proof.
  intros Hw. unfold get_filehandle_for_path, send_filehandle_request, fh_found, errs.
  destruct (fm_promise (S k) fm (GetFilehandle (Some p) None) w Hw Logic.I) as [HJ HR].
  destruct (fm_call fm _ w) as [[reply|] w']; [|split_and!; simpl; [done|done|intros ? [= <-]; set_solver]].
  specialize (HR reply eq_refl).
  destruct reply as [| |[fh|]| | | | | | | | | |]; simpl in *; try done; (split_and!; [done| |]);
    first [naive_solver | intros ? [= <-]; set_solver].
Qed.

Lemma open_for_reading_sound a nm (r : Req) w :
  J (S k) w -> req_ok r -> Sound (Opopen a) r (open_for_reading a nm r w).
Proof.
  intros Hw1 Hr. pose proof (less w Hw1) as Hw. unfold open_for_reading, open_answer.
  destruct (filehandle r) as [dir|] eqn:Edir; [|walk]. apply sound_fm; [by left|intros fm Hfm].
  destruct (lookup_before_open fm (child_path (path dir) nm) w Hw1) as [Hw2 Hfh].
  destruct (get_filehandle_for_path fm _ w) as [res w1]. simpl in Hw2, Hfh. pose proof (less w1 Hw2) as Hw3. walk.
Qed.

Lemma open_for_writing_sound a dir nm how (r : Req) w :
  J (S k) w -> req_ok r -> Sound (Opopen a) r (open_for_writing a dir nm how r w).
Proof.
  intros Hw1 Hr. pose proof (less w Hw1) as Hw. unfold open_for_writing, open_answer. walk.
  all: match goal with HQ : forall fh, Ok ?x = Ok fh -> _ |- _ => destruct (HQ x eq_refl) as [Hfh Hl];
         destruct (locks x) as [|l ls] eqn:Els; [done|] end.
  all: cbn [head mbind option_bind]; walk.
Qed.

Lemma op_open_sound a (r : Req) w : J (S k) w -> req_ok r -> Sound (Opopen a) r (op_open a r w).
Proof.
  intros Hw1 Hr. pose proof (less w Hw1) as Hw. unfold op_open. walk; eauto using open_reclaim_sound, open_for_reading_sound, open_for_writing_sound.
Qed.

Lemma readdir_entries_sound o args dir i dc mc w :
  I w -> sound (o = None) (fun _ => I) (readdir_entries (Fm:=Fm) o args dir i dc mc w).
Proof.
  revert i dc mc w. induction dir as [|p dir IH]; intros i dc mc w Hw; simpl; [done|].
  case_match; [by apply IH|]. eapply (sound_bind _ (fun _ => I)).
  - case_match; [|done]. destruct o as [fm|]; [simpl|done].
    destruct (get_filehandle_for_path_ok fm (vfs_as_str p) w Hw) as [Hw' _].
    by destruct (get_filehandle_for_path fm _ w) as [[fh|s] w'].
  - intros [found|] w1 Hw1; [|done]. eapply sound_bind; [by apply IH|]. by intros rest w2 Hw2.
Qed.

Lemma op_readdir_sound parse_ip parse_socket a (r : Req) w :
  I w -> req_ok r -> Sound (Opreaddir a) r (op_readdir parse_ip parse_socket a r w).
Proof.
  intros Hw Hr. unfold op_readdir, readdir_answer. walk.
  eapply sound_bind.
  { pose proof (readdir_entries_sound (cached_fmanager r) a l 0 0 128 w Hw) as Hs.
    destruct (readdir_entries _ _ _ _ _ _ _); [exact Hs|by left]. }
  intros listed w1 Hw1. walk.
Qed.

Lemma with_sessions_sound {X S} E (Q : S -> W -> Prop) (f : Sessions.SessionManager -> X * Sessions.SessionManager)
    m w (g : X -> W -> option (S * W)) :
  I w -> session_manager w = Some m -> Sessions.session_method m (f m).2 ->
  (forall x w', I w' -> sound E Q (g x w')) -> sound E Q (let '(x, w) := with_sessions f m w in g x w).
Proof.
  intros Hw Hm Hf Hk. destruct (with_sessions_ok f m w Hw Hm Hf) as [Hw' _].
  destruct (with_sessions f m w) as [x w']. by apply Hk.
Qed.

Lemma op_exchange_id_sound a (r : Req) w : I w -> req_ok r -> Sound (OpexchangeId a) r (op_exchange_id a r w).
Proof.
  intros Hw Hr. unfold op_exchange_id. destruct (session_manager w) as [m|] eqn:Em; [|walk].
  eapply with_sessions_sound; [done|done|constructor|]. intros x w' Hw'. walk.
Qed.

Lemma op_create_session_sound a (r : Req) w :
  I w -> req_ok r -> Sound (OpcreateSession a) r (op_create_session a r w).
Proof.
  intros Hw Hr. unfold op_create_session. destruct (session_manager w) as [m|] eqn:Em; [|walk]. cbv zeta.
  eapply with_sessions_sound; [done|done|constructor|]. intros x w' Hw'. walk.
Qed.

Lemma op_sequence_sound a (r : Req) w : I w -> req_ok r -> Sound (Opsequence a) r (op_sequence a r w).
Proof. intros Hw Hr. unfold op_sequence. walk. Qed.

Lemma op_destroy_session_sound a (r : Req) w :
  I w -> req_ok r -> Sound (OpdestroySession a) r (op_destroy_session a r w).
Proof.
  intros Hw Hr. unfold op_destroy_session, destroy_session_answer.
  destruct (session_manager w) as [m|] eqn:Em; [|walk].
  eapply with_sessions_sound; [done|done|constructor|]. intros x w' Hw'. walk.
Qed.

Lemma op_bind_conn_to_session_sound a (r : Req) w :
  I w -> req_ok r -> Sound (OpbindConnToSession a) r (op_bind_conn_to_session a r w).
Proof.
  intros Hw Hr. unfold op_bind_conn_to_session. destruct (session_manager w) as [m|] eqn:Em; [|walk].
  cbv zeta. case_match; [|walk].
  eapply with_sessions_sound; [done|done|constructor|]. intros x w' Hw'. walk.
Qed.

Lemma op_destroy_clientid_sound a (r : Req) w :
  I w -> req_ok r -> Sound (OpdestroyClientid a) r (op_destroy_clientid a r w).
Proof.
  intros Hw Hr. unfold op_destroy_clientid. destruct (session_manager w) as [m|] eqn:Em; [|walk].
  eapply with_sessions_sound; [done|done|constructor|]. intros x w' Hw'. walk.
Qed.

Variable parse_ip parse_socket : string -> option IpAddr.
Variable getpwnam getgrnam : string -> option Z.
#[local] Abbreviation execute := (execute (F:=F) parse_ip parse_socket getpwnam getgrnam).

(** The operations that are [execute]'s. *)
Definition executed (arg : NfsArgOp) : bool :=
  match arg with
  | OpUndef0 | OpUndef1 | OpUndef2 | Opgetfh | Opputfh _ | Opputpubfh | Opputrootfh | Oprestorefh | Opsavefh | Oplookupp => false
  | _ => true
  end.

Lemma execute_sound arg (r : Req) w :
  executed arg = true -> J (S k) w -> req_ok r -> args_ok arg -> Sound arg r (execute arg r w).
Proof.
  intros He Hw1 Hr Ha. pose proof (less w Hw1) as Hw. destruct arg; try discriminate He; simpl execute; try by apply sound_answer.
  all: eauto using op_lock_sound, op_lockt_sound, op_locku_sound, op_release_lockowner_sound, op_close_sound,
    op_openconfirm_sound, op_open_downgrade_sound, op_delegreturn_sound, op_set_clientid_sound,
    op_set_clientid_confirm_sound, op_renew_sound, op_delegpurge_sound, op_access_sound, op_getattr_sound.
  all: eauto using op_verify_sound, op_nverify_sound, op_readlink_sound, op_openattr_sound, op_secinfo_sound,
    op_secinfo_no_name_sound, op_read_sound, op_commit_sound, op_seek_sound, op_allocate_sound, op_copy_sound,
    op_remove_sound, op_rename_sound, op_link_sound, op_create_sound, op_setattr_sound.
  all: eauto using op_write_sound, op_lookup_sound, op_open_sound, op_readdir_sound, op_exchange_id_sound,
    op_create_session_sound, op_sequence_sound, op_destroy_session_sound, op_bind_conn_to_session_sound,
    op_destroy_clientid_sound.
Qed.

(** ** The dispatcher *)

Lemma pseudo_root_filehandle_ok w i : fh_ok (pseudo_root_filehandle w i : FH).
Proof. unfold fh_ok. simpl. symmetry. apply memory_root_promise. Qed.

Lemma put_pseudo_root_ok (r : Req) i w : req_ok r -> req_ok (put_pseudo_root r i w).
Proof. intros Hr. apply req_ok_set_filehandle; [by apply req_ok_set_export|apply pseudo_root_filehandle_ok]. Qed.

(** An operation of the dispatcher panics only without a file manager, and keeps the rest. *)
#[local] Abbreviation DSound arg r x := (sound (cached_fmanager r = None) (good I arg) x).

Lemma good_reply arg (r : Req) res s w :
  I w -> req_ok r -> answers_to arg res -> good I arg (MkResponse r (Some res) s) w.
Proof. by intros Hw Hr Ha. Qed.

Lemma good_status arg (r : Req) s w : I w -> req_ok r -> s ∈ unanswered arg -> good I arg (MkResponse r None s) w.
Proof. by intros Hw Hr Hs. Qed.

Lemma put_root_filehandle_sound arg (r : Req) w :
  arg = Opputrootfh \/ arg = Opputpubfh -> I w -> req_ok r ->
  DSound arg r (put_root_filehandle parse_ip parse_socket r w).
Proof.
  intros Harg Hw Hr. unfold put_root_filehandle.
  assert (Hans : answers_to arg (ResOpputrootfh (MkPutRootFh4res Nfs4Ok))).
  { destruct Harg as [->| ->]; [by left|by right]. }
  assert (Hun : Nfs4errAccess ∈ unanswered arg /\ Nfs4errServerfault ∈ unanswered arg).
  { destruct Harg as [->| ->]; split; among. }
  destruct (list_exports w) as [|e [|e2 l]] eqn:El.
  1,3: by apply good_reply; [|apply put_pseudo_root_ok|].
  destruct (listed_promise k w e Hw) as [Hne [[i fm] Hid]]; [rewrite El; set_solver|].
  assert (E : cached_fmanager (set_export w r (Export.export_id e)) = Some fm).
  { unfold set_export. by rewrite (proj2 (Z.eqb_neq _ _) Hne), Hid. }
  cbv zeta. case_match; [by apply good_status; [|apply req_ok_set_export|apply Hun]|]. rewrite E. simpl.
  destruct (fm_root_promise k fm w Hw) as [Hw' Hfh].
  destruct (fm_root_filehandle fm w) as [[fh|] w']; simpl in *; [|by apply good_status; [|apply req_ok_set_export|apply Hun]].
  pose proof (set_filehandle_id_sound (set_export w r (Export.export_id e)) (fh_id fh) w' Hw'
    (req_ok_set_export w r _ Hr)) as Hs.
  destruct (set_filehandle_id _ _ _) as [[[res r'] w2]|]; simpl in *; [|destruct Hs; congruence].
  destruct Hs as (Hw2 & Hr' & _ & _). by apply good_reply.
Qed.

Lemma lookup_parent_sound (r : Req) w : I w -> req_ok r -> DSound Oplookupp r (lookup_parent r w).
Proof.
  intros Hw Hr. unfold lookup_parent, lookupp_answer. case_match; [by apply good_reply; [..|left]|].
  destruct (filehandle r) as [fh|] eqn:Efh; [|by apply good_reply; [..|left]].
  case_match; [by apply good_reply; [|apply put_pseudo_root_ok|left]|].
  apply sound_fm; [done|]. intros fm Hfm.
  destruct (fm_for_path_promise k fm (path_of (vfs_parent (file fh))) w Hw) as [Hw' Hp].
  destruct (fm_filehandle_for_path fm _ w) as [[p|] w']; simpl in *; apply good_reply; try done; [|by left..].
  by apply req_ok_set_filehandle; [|apply Hp].
Qed.

Lemma get_filehandle_from_cache_ok (r : Req) i w :
  req_ok r ->
  let '(o, r') := get_filehandle_from_cache w r i in
  req_ok r' /\ cached_fmanager r' = cached_fmanager r /\ forall fh, o = Some fh -> fh_ok fh.
Proof.
  intros Hr. unfold get_filehandle_from_cache. destruct (_ ≫= _) as [[t fh]|] eqn:E; [|done].
  apply bind_Some in E as (c & Hc & Hx). pose proof (cache_ok r Hr c i _ Hc Hx) as Hfh. simpl in Hfh.
  repeat case_match; simplify_eq; (split; [auto with req|]); (split; [done|]); naive_solver.
Qed.

Lemma put_filehandle_sound args (r : Req) w :
  I w -> req_ok r -> DSound (Opputfh args) r (put_filehandle parse_ip parse_socket (putFh4args_object args) r w).
Proof.
  intros Hw Hr. unfold put_filehandle, putfh_answer. set (object := putFh4args_object args).
  case_match; [by apply good_reply; [|apply put_pseudo_root_ok|left]|]. cbv zeta.
  set (r1 := if bool_decide _ then r else _).
  assert (Hr1 : req_ok r1) by (unfold r1; case_match; auto with req).
  assert (Hfm1 : export_id_from_fh object <> PSEUDO_ROOT_EXPORT_ID -> cached_fmanager r1 = None ->
    cached_fmanager r = None).
  { intros Hne E. destruct (cached_fmanager r) eqn:Er; [|done]. exfalso. revert E. unfold r1.
    case_match; [by rewrite Er|]. apply set_export_fm; [done|by rewrite Er]. }
  case_match; [by apply good_reply; [..|left]|].
  pose proof (get_filehandle_from_cache_ok r1 object w Hr1) as Hc.
  destruct (get_filehandle_from_cache w r1 object) as [[fh|] r2]; destruct Hc as (Hr2 & Efm & Hfh).
  - apply good_reply; [done|by apply req_ok_set_filehandle; [|apply Hfh]|by left].
  - eapply sound_bind.
    { pose proof (set_filehandle_id_sound r2 object w Hw Hr2) as Hs.
      destruct (set_filehandle_id _ _ _); [exact Hs|]. destruct Hs as [Hne E]. apply Hfm1; [done|by rewrite <- Efm]. }
    intros [[fh|s] r3] w' (Hw' & Hr3 & Hok & _); apply good_reply; try done; [|by left..].
    by apply req_ok_cache_filehandle; [|apply Hok].
Qed.

Lemma restore_filehandle_ok (r : Req) w : req_ok r -> req_ok (restore_filehandle w r).2.
Proof.
  intros Hr. unfold restore_filehandle. destruct (saved_filehandle r) as [fh|] eqn:E; [|done]. cbv zeta. simpl.
  set (r1 := if bool_decide _ then r else _).
  assert (Hr1 : req_ok r1) by (unfold r1; case_match; auto with req).
  pose proof (saved_ok r Hr fh E) as Hfh. destruct Hr1 as [H1 H2 H3]. split; simpl; [|done..].
  by intros ? [= <-].
Qed.

#[local] Abbreviation dispatch := (dispatch parse_ip parse_socket execute).

Lemma dispatch_sound arg (r : Req) w :
  J (S k) w -> req_ok r -> args_ok arg -> sound (may_panic arg r) (good I arg) (dispatch arg r w).
Proof.
  intros Hw1 Hr Ha. pose proof (less w Hw1) as Hw.
  assert (HE : forall x : option (NfsOpResponse (P:=P) (C:=C) (Fm:=Fm) * W),
    DSound arg r x -> sound (may_panic arg r) (good I arg) x) by (intros [[]|]; [done|by left]).
  destruct arg; try (by apply execute_sound); try (by apply good_status; [..|among]); try (apply HE).
  - unfold dispatch, Compound.dispatch, get_current_filehandle. simpl.
    case_match; [by apply good_reply; [..|left]|by apply good_status; [..|among]].
  - by apply lookup_parent_sound.
  - by apply put_filehandle_sound.
  - by apply put_root_filehandle_sound; [right|..].
  - by apply put_root_filehandle_sound; [left|..].
  - simpl. unfold restore_filehandle_op. pose proof (restore_filehandle_ok r w Hr).
    destruct (restore_filehandle w r) as [[] r']; by apply good_reply; [..|left].
  - simpl. unfold save_filehandle_op. case_match; apply good_reply; auto with req; by left.
Qed.

Variable lchown : W -> string -> Z -> Z -> bool * W.
Hypothesis lchown_keeps : forall w s u g, I w -> I (lchown w s u g).2.

Lemma chown_new_object_ok (r : Req) c w :
  I w -> req_ok r -> let '(r', w') := chown_new_object lchown r c w in I w' /\ req_ok r'.
Proof.
  intros Hw Hr. unfold chown_new_object. destruct (cached_fmanager r) as [fm|]; [|done].
  destruct (filehandle r) as [fh|] eqn:Efh; [|done]. cbv zeta. destruct (stat _ _) as [m|]; [|done].
  destruct (_ && _); [done|]. destruct (has_nul _); [done|].
  pose proof (lchown_keeps w (handle_real_path fm (path fh)) (caller_uid c)
    (new_object_gid w c (handle_real_path fm (path fh))) Hw) as Hl.
  destruct (lchown _ _ _ _) as [[] w1]; simpl in *; [|done].
  set (fh' := with_owner fh _ _). assert (Hfh : fh_ok fh') by exact (current_ok r Hr fh Efh).
  split; [by apply fm_update_promise|]. auto with req.
Qed.

Lemma check_export_good arg next before resp w :
  good I arg resp w -> good I arg (check_export parse_ip parse_socket (op_code arg) next before resp w) w.
Proof.
  intros Hg. pose proof Hg as (Hw & Hr & _). unfold check_export. cbv zeta.
  assert (Href : forall s, good I arg (MkResponse (request resp) (Some (ResOpError (op_code arg) s)) s) w)
    by (intros s; by apply good_reply; [..|left]).
  repeat match goal with |- context [if ?b then _ else _] => destruct b end; try apply Href; exact Hg.
Qed.

Lemma finish_op_good arg next creates c before resp w :
  good I arg resp w ->
  let '(resp', w') := finish_op parse_ip parse_socket lchown arg next creates c before resp w in good I arg resp' w'.
Proof.
  intros (Hw & Hr & Hres). unfold finish_op. destruct (_ && _); [|by apply check_export_good].
  pose proof (chown_new_object_ok (request resp) c w Hw Hr) as Hc.
  destruct (chown_new_object _ _ _ _) as [r' w']. destruct Hc. by apply check_export_good.
Qed.
End Sound.

(** ** The loop *)

Section Loop.
Context {W P C Fm F : Type} `{V : !Vfs W P C} `{A : !Actors W P C Fm} `{CH : !Channels W P C Fm}
        `{IO : !FileIo W P F} `{SH : !Shared W Fm} `{ST : !SessionStore W}.
Variable J : nat -> W -> Prop.
Context `{PR : !Promises J}.
Variable parse_ip parse_socket : string -> option IpAddr.
Variable getpwnam getgrnam : string -> option Z.
Variable lchown : W -> string -> Z -> Z -> bool * W.
Variable try_consume : W -> Z -> Z -> bool * W.
Variable in_grace : W -> bool.
Hypothesis lchown_keeps : forall k w s u g, J k w -> J k (lchown w s u g).2.
Hypothesis try_consume_keeps : forall k w x n, J k w -> J k (try_consume w x n).2.
#[local] Abbreviation Req := (NfsRequest P C Fm).
#[local] Abbreviation execute := (execute (F:=F) parse_ip parse_socket getpwnam getgrnam).
#[local] Abbreviation loop :=
  (compound_loop parse_ip parse_socket getpwnam getgrnam lchown try_consume in_grace execute).

Lemma less_many n k w : J (n + k) w -> J k w.
Proof. induction n as [|n IH]; [done|]. intros Hw. by apply IH, promise_less. Qed.

(** An operation that a guard refuses, or the answer of one that was run. *)
Lemma refused_completes arg ops st : st <> Nfs4Ok -> completes (arg :: ops) st [ResOpError (op_code arg) st].
Proof. intros Hst. apply completes_failed; [done|by left|by left]. Qed.

Lemma guards_refuse arg (r : Req) w st b :
  guards getpwnam getgrnam in_grace arg r w = Refuse st b ->
  st <> Nfs4Ok /\ (b = false -> st ∈ unanswered arg).
Proof.
  intros E. split; [intros ->; by eapply guards_refuse_not_ok|]. intros ->. revert E. unfold guards, unanswered.
  destruct (in_grace w && grace_denied arg) eqn:Eg; [|by repeat case_match].
  intros [= <-]. apply andb_true_iff in Eg as [_ ->]. left.
Qed.

Lemma compound_loop_sound k ops (r : Req) w acc r' s' res w' :
  J (length ops + k) w -> req_ok r -> Forall args_ok ops -> loop ops r w acc Nfs4Ok = Some (r', s', res, w') ->
  J k w' /\ req_ok r' /\ exists l, res = acc ++ l /\ completes ops s' l.
Proof.
  revert r w acc. induction ops as [|arg ops IH]; intros r w acc Hw Hr Ha E; simpl in E.
  { simplify_eq. split; [done|]. split; [done|]. exists []. rewrite app_nil_r. split; [done|constructor]. }
  apply Forall_cons in Ha as [Ha Has]. destruct (rate_limited try_consume arg r w) as [limited w1] eqn:El.
  assert (Hw1 : J (S (length ops + k)) w1).
  { unfold rate_limited in El. destruct (rate_limiter r) as [x|]; [|by simplify_eq].
    pose proof (try_consume_keeps _ w x (op_bytes arg) Hw) as Hk. destruct (try_consume _ _ _). by simplify_eq. }
  pose proof (less_many (S (length ops)) k w1 Hw1) as Hdone.
  destruct limited; [simplify_eq; split; [done|]; split; [done|]; eexists; split; [done|by apply refused_completes]|].
  destruct (guards _ _ _ _ _ _) as [c|st with_entry] eqn:Eg.
  2: { apply guards_refuse in Eg as [Hst Hun]. simplify_eq. split; [done|]. split; [done|].
       destruct with_entry; [eexists; split; [done|by apply refused_completes]|].
       exists []. rewrite app_nil_r. split; [done|by apply completes_unanswered, Hun]. }
  pose proof (dispatch_sound J _ parse_ip parse_socket getpwnam getgrnam arg r w1 Hw1 Hr Ha) as Hd.
  pose proof (dispatch_tells (F:=F) parse_ip parse_socket getpwnam getgrnam arg r w1) as Ht.
  apply bind_Some in E as ([resp w2] & Ed & E). rewrite Ed in Hd, Ht. simpl in Hd.
  pose proof (finish_op_good J _ parse_ip parse_socket lchown (lchown_keeps _) arg (head ops) (creates_object arg w1 r) c (current_export_id r) resp w2 Hd) as Hf.
  pose proof (finish_tells parse_ip parse_socket lchown arg arg (head ops) (creates_object arg w1 r) c (current_export_id r) resp w2 Ht) as Ht2.
  destruct (finish_op _ _ _ _ _ _ _ _ _ _) as [resp' w3]. destruct Hf as (Hw3 & Hr3 & Hres). cbn [tells] in Ht2.
  pose proof (less_many (length ops) k w3 Hw3) as Hdone3.
  destruct (op_result resp') as [x|] eqn:Ex.
  2: { simplify_eq. split; [done|]. split; [done|]. exists []. rewrite app_nil_r. split; [done|by apply completes_unanswered]. }
  case_bool_decide as Es.
  - rewrite Es in E, Ht2. apply IH in E as (Hw' & Hr' & l & -> & Hl); [|done..]. split; [done|]. split; [done|].
    exists (x :: l). rewrite <- app_assoc. split; [done|]. apply completes_next; [done| |done]. by destruct Ht2 as [?|[_ ?]].
  - simplify_eq. split; [done|]. split; [done|]. exists [x]. split; [done|].
    apply completes_failed; [done..|]. destruct Ht2 as [?|[? _]]; auto.
Qed.

(** The reply of a COMPOUND is complete. *)
Definition answers_compound (msg : CallBody) (rep : ReplyBody) : Prop :=
  match Rpc.args msg with
  | None => rep = reply Nfs4Ok "" []
  | Some a =>
    if 1 <? compound4args_minor_version a then rep = reply Nfs4errMinorVersMismatch (compound4args_tag a) []
    else exists st res, rep = reply st (compound4args_tag a) res /\ completes (compound4args_argarray a) st res
  end.

Lemma compound_sound k msg (r : Req) w r' rep w' :
  J (match Rpc.args msg with Some a => length (compound4args_argarray a) | None => 0 end + k) w -> req_ok r -> (forall a, Rpc.args msg = Some a -> Forall args_ok (compound4args_argarray a)) ->
  serve_compound parse_ip parse_socket getpwnam getgrnam lchown try_consume in_grace msg r w = Some (r', rep, w') ->
  J k w' /\ req_ok r' /\ answers_compound msg rep.
Proof.
  intros Hw Hr Ha E. pose proof (less_many _ k w Hw) as Hdone.
  unfold serve_compound, compound in E. unfold answers_compound. destruct (Rpc.args msg) as [a|] eqn:Em.
  2: { simplify_eq. by split. }
  case_match; [simplify_eq; by split|].
  apply bind_Some in E as ([[[r1 st] res] w1] & E1 & E). simplify_eq.
  apply (compound_loop_sound k) in E1 as (Hw' & Hr' & l & -> & Hl); [|done|auto with req|auto].
  split; [done|]. split; [done|]. by do 2 eexists.
Qed.
End Loop.
