(* ===== verification/LockTable.v ===== *)
(** * What the lock state of a file manager is for

    [lock_service] is the service clients are promised: a table of stateids, each holding
    a file open or a range of its bytes for an owner, in which a range is granted exactly
    when no other owner holds a byte of it in a conflicting way. [lock_table_refined] says
    that the file manager implements it: [represents] relates its lock database to the
    table, and every message is a step of the service with the answer that goes out. *)

From S2P Require Import Prelude NfsTypes MultiIndex Locking FileManager FileManagerProofs FileManagerSpec.
From stdpp Require Import base list gmap strings.
From Stdlib Require Import Strings.Byte ZArith Lia.
#[local] Open Scope Z_scope.

(** ** The service *)

(** What a stateid holds of a file: the file open, or a range for writing or reading. *)
Record Held : Type := MkHeld {
  held_file : NfsFh4;
  held_owner : Z * list byte;
  held_range : option (bool * Z * Z)
}.

(** Byte [b] is held, for writing or not. *)
Definition holds (h : Held) (write : bool) (b : Z) : Prop :=
  exists s n, held_range h = Some (write, s, n) /\ covers s n b.

(** Two owners at one byte, one of them writing. *)
Definition contend (h h' : Held) : Prop :=
  held_file h = held_file h' /\ held_owner h <> held_owner h' /\
  exists b w w', holds h w b /\ holds h' w' b /\ (w = true \/ w' = true).

Abbreviation Table := (gmap (list byte) Held).

Inductive Event : Type :=
| Opened (s : list byte) (h : Held)
| Granted (s : list byte) (h : Held)
| Denied (h other : Held)
| Free (h : Held)
| Unlocked (s : list byte)
| NoSuch (s : list byte)
| Closed (s : list byte)
| Forgot (o : Z * list byte)
| Silent.

Inductive lock_service : Table -> Event -> Table -> Prop :=
| does_open t s h : t !! s = None -> held_range h = None -> lock_service t (Opened s h) (<[s := h]> t)
| does_grant t s h :
    t !! s = None -> (forall s' h', t !! s' = Some h' -> ~ contend h' h) -> lock_service t (Granted s h) (<[s := h]> t)
| does_deny t s h h' : t !! s = Some h' -> contend h' h -> lock_service t (Denied h h') t
| does_find_free t h : (forall s' h', t !! s' = Some h' -> ~ contend h' h) -> lock_service t (Free h) t
| does_unlock t s : is_Some (t !! s) -> lock_service t (Unlocked s) (delete s t)
| does_refuse t s : t !! s = None -> lock_service t (NoSuch s) t
| does_close t s : lock_service t (Closed s) (delete s t)
| does_forget t o :
    lock_service t (Forgot o) (filter (fun x => ~ (held_owner x.2 = o /\ is_Some (held_range x.2))) t)
| does_nothing t : lock_service t Silent t.

(** ** The file manager as the service *)

Definition held_of (l : LockingState) : Held :=
  MkHeld (filehandle_id l) (client_id l, owner l)
    (match lock_type l, start l, length_ l, nfs_lock_type l with
     | LockType_ByteRange, Some s, Some n, Some ty => Some (is_write ty, s, n)
     | _, _, _, _ => None
     end).

Create HintDb frame.

Section LockTable.
Context {W P C L H : Type} `{V : !Vfs W P C}
        `{ML : !MultiIndex LockingState L lock_clash}
        `{MH : !MultiIndex (Filehandle P C) H fh_clash}.
#[local] Abbreviation FM := (FileManager P C L H).
#[local] Abbreviation Act := (action W P C L H).
#[local] Abbreviation Msg := (FileManagerMessage P C).
Implicit Types (fm : FM) (w : W) (t : Table).

Definition represents fm t : Prop :=
  forall s h, t !! s = Some h <-> exists l, l ∈ mi_iter (lockdb fm) /\ stateid l = s /\ held_of l = h.

Definition request (id : NfsFh4) (client : Z) (ow : list byte) (ty : NfsLockType4) (off len : Z) : Held :=
  MkHeld id (client, ow) (Some (is_write ty, off, len)).

(** The event a message and its answer are. *)
Inductive tells : Msg -> FileManagerReply P C -> Event -> Prop :=
| tells_created p c o a d fh l :
    tells (CreateFile p c o a d) (ReplyFilehandle (Some (with_locks fh [l]))) (Opened (stateid l) (held_of l))
| tells_opened p c o a d l : tells (CreateOpenState p c o a d) (ReplyOpenState (Some l)) (Opened (stateid l) (held_of l))
| tells_not_created p c o a d : tells (CreateFile p c o a d) (ReplyFilehandle None) Silent
| tells_granted id c o ty off len s :
    tells (LockFile id c o ty off len) (ReplyLock (LockOk s)) (Granted (stateid4_other s) (request id c o ty off len))
| tells_denied id c o ty off len off' len' ty' c' o' :
    tells (LockFile id c o ty off len) (ReplyLock (LockDenied off' len' ty' c' o'))
      (Denied (request id c o ty off len) (request id c' o' ty' off' len'))
| tells_free id c o ty off len :
    tells (TestLock id c o ty off len) (ReplyTestLock TestLockOk) (Free (request id c o ty off len))
| tells_taken id c o ty off len off' len' ty' c' o' :
    tells (TestLock id c o ty off len) (ReplyTestLock (TestLockDenied off' len' ty' c' o'))
      (Denied (request id c o ty off len) (request id c' o' ty' off' len'))
| tells_unlocked s off len s' :
    stateid4_other s' = s -> tells (UnlockFile s off len) (ReplyUnlock (UnlockOk s')) (Unlocked s)
| tells_refused s off len : tells (UnlockFile s off len) (ReplyUnlock (UnlockError Nfs4errBadStateid)) (NoSuch s)
| tells_closed s : tells (CloseFile s) ReplyUnit (Closed s)
| tells_forgot c o : tells (ReleaseLockOwner c o) (ReplyStatus Nfs4Ok) (Forgot (c, o))
| tells_nothing m reply :
    match m with
    | CreateFile _ _ _ _ _ | CreateOpenState _ _ _ _ _ | LockFile _ _ _ _ _ _ | UnlockFile _ _ _ | TestLock _ _ _ _ _ _
    | ReleaseLockOwner _ _ | CloseFile _ => False
    | _ => True
    end -> tells m reply Silent.

(** ** Messages that leave the locks alone *)

Definition keeps_locks {A} (m : Act A) : Prop :=
  forall fm w a fm' w', m fm w = Some (a, fm', w') -> lockdb fm' = lockdb fm.

Lemma keeps_ret {A} (a : A) : keeps_locks (ret a).
Proof. by intros ? ? ? ? ? [= _ <- _]. Qed.

Lemma keeps_self : keeps_locks self.
Proof. by intros ? ? ? ? ? [= _ <- _]. Qed.

Lemma keeps_world : keeps_locks world.
Proof. by intros ? ? ? ? ? [= _ <- _]. Qed.

Lemma keeps_panic {A} : keeps_locks (panic : Act A).
Proof. done. Qed.

Lemma keeps_modify f : (forall fm, lockdb (f fm) = lockdb fm) -> keeps_locks (modify f).
Proof. intros Hf ? ? ? ? ? [= _ <- _]. apply Hf. Qed.

Lemma keeps_outside {A} (f : W -> A * W) : keeps_locks (outside f).
Proof. intros ? w ? ? ? E. unfold outside in E. destruct (f w). by simplify_eq. Qed.

Lemma keeps_bind {A B} (m : Act A) (k : A -> Act B) :
  keeps_locks m -> (forall a, keeps_locks (k a)) -> keeps_locks (bind m k).
Proof.
  intros Hm Hk fm w b fm' w' E. unfold bind in E. destruct (m fm w) as [[[a fm1] w1]|] eqn:Em; [|done].
  rewrite <- (Hm _ _ _ _ _ Em). by eapply Hk.
Qed.

Lemma keeps_for_each {A} (l : list A) (f : A -> Act unit) : (forall a, keeps_locks (f a)) -> keeps_locks (for_each l f).
Proof. intros Hf. induction l; [apply keeps_ret|]. by apply keeps_bind. Qed.

Lemma keeps_when b (m : Act unit) : keeps_locks m -> keeps_locks (when b m).
Proof. unfold when. destruct b; [done|]. intros _. apply keeps_ret. Qed.

Lemma fhdb_replace_locks fh fm : lockdb (fhdb_replace fh fm) = lockdb fm.
Proof. unfold fhdb_replace. by repeat case_match. Qed.

Ltac frame :=
  repeat first
    [ apply keeps_bind; [|intros ?] | apply keeps_ret | apply keeps_self | apply keeps_world | apply keeps_panic
    | apply keeps_outside | apply keeps_when | apply keeps_for_each; intros ? | progress cbv zeta
    | apply keeps_modify; (done || intros ?; rewrite ?fhdb_replace_locks; done)
    | match goal with |- keeps_locks (match ?o with _ => _ end) => destruct o end
    | solve [eauto 1 with frame] ].

Lemma keeps_get_by_id id : keeps_locks (get_filehandle_by_id id : Act _).
Proof. unfold get_filehandle_by_id. frame. Qed.

Lemma keeps_get_by_path p : keeps_locks (get_filehandle_by_path p : Act _).
Proof. unfold get_filehandle_by_path. frame. Qed.
#[local] Hint Resolve keeps_get_by_id keeps_get_by_path : frame.

Lemma keeps_get_filehandle f : keeps_locks (get_filehandle f : Act _).
Proof. unfold get_filehandle, get_filehandle_id. frame. Qed.
#[local] Hint Resolve keeps_get_filehandle : frame.

Lemma keeps_root : keeps_locks (root_fh : Act _).
Proof. unfold root_fh. frame. Qed.

Lemma keeps_update fh : keeps_locks (update_filehandle fh : Act _).
Proof. unfold update_filehandle. frame. Qed.
#[local] Hint Resolve keeps_root keeps_update : frame.

Lemma keeps_touch fh : keeps_locks (touch_filehandle fh : Act _).
Proof. unfold touch_filehandle. frame. Qed.
#[local] Hint Resolve keeps_touch : frame.

Lemma keeps_touch_parent p : keeps_locks (touch_parent p : Act _).
Proof. unfold touch_parent. frame. Qed.
#[local] Hint Resolve keeps_touch_parent : frame.

Lemma keeps_create p : keeps_locks (create_file p : Act _).
Proof. unfold create_file. frame. Qed.

Lemma keeps_drop_cache id : keeps_locks (drop_cache_handle id : Act _).
Proof. unfold drop_cache_handle. frame. Qed.
#[local] Hint Resolve keeps_create keeps_drop_cache : frame.

Lemma keeps_get_cache fh : keeps_locks (get_cache_handle fh : Act _).
Proof. unfold get_cache_handle. frame. Qed.

Lemma keeps_rename a b p : keeps_locks (handle_rename_path a b p : Act _).
Proof. unfold handle_rename_path. frame. Qed.

Lemma keeps_attrs l id : keeps_locks (filehandle_attrs l id : Act _).
Proof. unfold filehandle_attrs. frame. Qed.

Lemma keeps_named i b : keeps_locks (open_named_attr_dir i b : Act _).
Proof. unfold open_named_attr_dir. frame. Qed.

Lemma keeps_grant id c b : keeps_locks (grant_delegation id c b : Act _).
Proof. unfold grant_delegation, make_stateid. frame. Qed.

Lemma keeps_return id s : keeps_locks (return_delegation id s : Act _).
Proof. unfold return_delegation. frame. Qed.

Lemma keeps_reply fh : keeps_locks (reply_with_locks fh : Act _).
Proof. unfold reply_with_locks. frame. Qed.
#[local] Hint Resolve keeps_get_cache keeps_rename keeps_attrs keeps_named keeps_grant keeps_return keeps_reply : frame.

Lemma keeps_sweep : keeps_locks (sweep_pending_deletes : Act _).
Proof. unfold sweep_pending_deletes. frame. Qed.

(** [m] leaves the locks as they are when they are [d]. *)
Definition keeps_from (d : L) {A} (m : Act A) : Prop :=
  forall fm w a fm' w', lockdb fm = d -> m fm w = Some (a, fm', w') -> lockdb fm' = d.

Lemma keeps_keeps_from d {A} (m : Act A) : keeps_locks m -> keeps_from d m.
Proof. intros Hm fm w a fm' w' <- E. by eapply Hm. Qed.

Lemma keeps_from_bind d {A B} (m : Act A) (k : A -> Act B) :
  keeps_from d m -> (forall a, keeps_from d (k a)) -> keeps_from d (bind m k).
Proof.
  intros Hm Hk fm w b fm' w' Hd E. unfold bind in E. destruct (m fm w) as [[[a fm1] w1]|] eqn:Em; [|done].
  eapply Hk; [|exact E]. by eapply Hm.
Qed.

Lemma keeps_from_self d {B} (k : FM -> Act B) :
  (forall fm, lockdb fm = d -> keeps_from d (k fm)) -> keeps_from d (bind self k).
Proof. intros Hk fm w b fm' w' Hd E. exact (Hk fm Hd fm w b fm' w' Hd E). Qed.

Lemma keeps_silly p fh : keeps_locks (silly_rename p fh : Act _).
Proof. unfold silly_rename, remove_regular. frame. Qed.

Lemma keeps_remove_directory p : keeps_locks (remove_directory p : Act _).
Proof. unfold remove_directory. frame. Qed.

Lemma keeps_remove_regular p : keeps_locks (remove_regular p : Act _).
Proof. unfold remove_regular. frame. Qed.
#[local] Hint Resolve keeps_silly keeps_remove_directory keeps_remove_regular : frame.

(** A file is only forgotten when it has no locks to lose. *)
Lemma keeps_forget d fh : mi_get d (on_file (fh_id fh)) = [] -> keeps_from d (forget_file fh : Act _).
Proof.
  intros Hd. unfold forget_file. apply keeps_from_self. intros fm Hfm.
  assert (locks_of fm (fh_id fh) = []) as -> by (unfold locks_of; by rewrite Hfm).
  apply keeps_keeps_from. frame.
Qed.

Lemma keeps_remove p : keeps_locks (remove_file p : Act _).
Proof.
  intros fm w r fm' w' E. revert E. apply (fun X : keeps_from (lockdb fm) (remove_file p) => X fm w r fm' w' eq_refl).
  unfold remove_file. apply keeps_from_bind; [apply keeps_keeps_from; frame|]. intros filehandle.
  apply keeps_from_self. intros fm1 Hfm1. apply keeps_from_bind; [apply keeps_keeps_from; frame|]. intros w1.
  apply keeps_from_bind; [apply keeps_keeps_from; frame|]. intros res.
  apply keeps_from_bind.
  - destruct filehandle as [fh|]; [|apply keeps_keeps_from; frame].
    unfold when. destruct (is_ok res && _) eqn:Ef; [|apply keeps_keeps_from; frame].
    apply keeps_forget. apply andb_true_iff in Ef as [_ Ef]. unfold has_no_locks, locks_of in Ef. rewrite Hfm1 in Ef.
    by destruct (mi_get (lockdb fm) _).
  - intros []. apply keeps_keeps_from. frame.
Qed.

(** ** Reading the table off the lock database *)

Lemma represents_same fm fm' t : lockdb fm' = lockdb fm -> represents fm t -> represents fm' t.
Proof. intros E HR s h. by rewrite E. Qed.

Lemma represents_insert fm d l t :
  represents fm t -> mi_try_insert (lockdb fm) l = Some d ->
  t !! stateid l = None /\ forall fm', lockdb fm' = d -> represents fm' (<[stateid l := held_of l]> t).
Proof.
  intros HR Hd. pose proof (mi_try_insert_spec (lockdb fm) l) as Hs. rewrite Hd in Hs. destruct Hs as [Hfree Hp].
  assert (Hne : forall x, x ∈ mi_iter (lockdb fm) -> stateid x <> stateid l).
  { intros x Hx Es. assert (Ht : existsb (lock_clash l) (mi_iter (lockdb fm)) = true); [|by rewrite Ht in Hfree].
    apply existsb_exists. exists x. split; [by apply list_elem_of_In|]. by apply bool_decide_eq_true_2. }
  split.
  - apply eq_None_not_Some. intros [h Hh]. apply HR in Hh as (x & Hx & Es & _). by apply (Hne x).
  - intros fm' Ed s h. rewrite Ed, lookup_insert_Some, (HR s h). split.
    + intros [[<- <-]|[Hs (x & Hx & Es & Eh)]]; [exists l|exists x]; rewrite Hp; [split; [left|done]|split; [by right|done]].
    + intros (x & Hx & Es & Eh). rewrite Hp in Hx. apply elem_of_cons in Hx as [->|Hx]; [by left|].
      right. split; [intros E; by apply (Hne x Hx); rewrite Es|by exists x].
Qed.

Lemma represents_delete fm s t : represents fm t -> represents (lockdb_remove s fm) (delete s t).
Proof.
  intros HR s' h. rewrite lookup_delete_Some, (HR s' h). cbn [lockdb_remove set_lockdb set_locks lockdb]. split.
  - intros [Hne (x & Hx & Es & Eh)]. exists x. rewrite mi_delete_elem. unfold has_stateid.
    by rewrite bool_decide_eq_false_2 by congruence.
  - intros (x & [Hx Hs]%mi_delete_elem & Es & Eh). unfold has_stateid in Hs. apply bool_decide_eq_false in Hs.
    split; [congruence|]. by exists x.
Qed.

Lemma represents_get fm l t : represents fm t -> l ∈ mi_iter (lockdb fm) -> t !! stateid l = Some (held_of l).
Proof. intros HR Hl. apply HR. by exists l. Qed.

(** A held lock conflicts with a request exactly when they contend at a byte. *)
Lemma conflicts_contend l id c o ty off len :
  lock_ok l -> in_width 64 off -> in_width 64 len ->
  filehandle_id l = id /\ conflicts_with l off len ty o c = true <-> contend (held_of l) (request id c o ty off len).
Proof.
  intros [Hl|(s & n & t & Hr & Hs & Hn)]%lock_ok_cases Ho Hlen.
  - rewrite open_never_conflicts by done. unfold contend, holds, held_of. rewrite Hl. simpl. naive_solver.
  - rewrite (conflicts_with_spec l s n t off len ty o c Hr Hs Hn Ho Hlen). destruct Hr as (E1 & E2 & E3 & E4).
    unfold contend, holds, held_of, request, locks_overlap. rewrite E1, E2, E3, E4. simpl. split.
    + intros (-> & Hne & (b & Hb1 & Hb2) & Hw). split; [done|]. split; [done|].
      exists b, (is_write t), (is_write ty). split; [by exists s, n|]. split; [by exists off, len|done].
    + intros (-> & Hne & b & w & w' & (s1 & n1 & [= <- <- <-] & Hb1) & (s2 & n2 & [= <- <- <-] & Hb2) & Hw).
      split; [done|]. split; [done|]. split; [by exists b|done].
Qed.

(** ** Each message *)

Lemma new_open_state_makes id c o a d fm w l fm' w' :
  new_open_state id c o a d fm w = Some (l, fm', w') ->
  held_range (held_of l) = None /\ mi_try_insert (lockdb fm) l = Some (lockdb fm').
Proof.
  unfold new_open_state, get_new_lockingstate_id, lockdb_insert, bind, self, modify, ret, panic.
  cbn [set_next_stateid_id set_locks lockdb]. intros E.
  destruct (mi_try_insert _ _) as [d'|] eqn:Ed; [|done]. by simplify_eq/=.
Qed.

Lemma opened_step fm1 fm' t id c o a d w l w' :
  represents fm1 t -> new_open_state id c o a d fm1 w = Some (l, fm', w') ->
  lock_service t (Opened (stateid l) (held_of l)) (<[stateid l := held_of l]> t) /\
  represents fm' (<[stateid l := held_of l]> t).
Proof.
  intros HR [Hr Hd]%new_open_state_makes. destruct (represents_insert fm1 _ l t HR Hd) as [Hn HR'].
  split; [by constructor|by apply HR'].
Qed.

Lemma no_conflict_none fm t id c o ty off len :
  inv 0 fm -> represents fm t -> in_width 64 off -> in_width 64 len ->
  find_conflict fm id c o ty off len = None ->
  forall s h, t !! s = Some h -> ~ contend h (request id c o ty off len).
Proof.
  intros Hi HR Ho Hl Hn s h Hh Hc. apply HR in Hh as (l & Hin & _ & <-).
  apply conflicts_contend in Hc as [Hf Hc]; [|by apply (li_ok _ _ (proj1 Hi))|done|done].
  by rewrite (proj1 (find_conflict_none _ _ _ _ _ _ _) Hn l Hin Hf) in Hc.
Qed.

Lemma conflict_found fm t id c o ty off len l :
  inv 0 fm -> represents fm t -> in_width 64 off -> in_width 64 len ->
  find_conflict fm id c o ty off len = Some l ->
  let other := request id (client_id l) (owner l) (default ReadLt (nfs_lock_type l)) (default 0 (start l)) (default 0 (length_ l)) in
  lock_service t (Denied (request id c o ty off len) other) t.
Proof.
  intros Hi HR Ho Hl Hf. destruct (find_conflict_some _ _ _ _ _ _ _ _ Hf) as (Hin & Hid & Hc).
  pose proof (li_ok _ _ (proj1 Hi) l Hin) as Hok.
  assert (Hcont : contend (held_of l) (request id c o ty off len)) by (by apply conflicts_contend).
  assert (Hh : held_of l = request id (client_id l) (owner l) (default ReadLt (nfs_lock_type l)) (default 0 (start l))
    (default 0 (length_ l))).
  { destruct (lock_ok_cases l Hok) as [Hopen|(s & n & t' & (E1 & E2 & E3 & E4) & _)];
      [by rewrite open_never_conflicts in Hc|]. unfold held_of, request. rewrite E1, E2, E3, E4, Hid. done. }
  cbv zeta. rewrite <- Hh. by apply (does_deny t (stateid l)); [apply (represents_get fm)|].
Qed.

Lemma forgotten fm c o fm' w w' r t :
  represents fm t -> inv 0 fm -> handle_release_lock_owner c o fm w = Some (r, fm', w') ->
  r = Nfs4Ok /\ represents fm' (filter (fun x => ~ (held_owner x.2 = (c, o) /\ is_Some (held_range x.2))) t).
Proof.
  intros HR Hi E. unfold handle_release_lock_owner, bind, self, ret in E.
  set (gone := filter (fun l => lock_type l = LockType_ByteRange /\ owner l = o) (mi_get (lockdb fm) (of_client c))) in E.
  destruct (for_each_remove gone fm w) as (fm1 & E1 & Hx & _). rewrite for_each_map in E1. rewrite E1 in E. simplify_eq.
  split; [done|].
  assert (Hgone : forall l, l ∈ mi_iter (lockdb fm) -> l ∈ gone <-> held_owner (held_of l) = (c, o) /\ is_Some (held_range (held_of l))).
  { intros l Hl. unfold gone. rewrite list_elem_of_filter, mi_get_elem. unfold of_client. rewrite Z.eqb_eq.
    pose proof (li_ok _ _ (proj1 Hi) l Hl) as Hok. unfold held_of. simpl.
    destruct (lock_ok_cases l Hok) as [Hopen|(s & n & ty & (E2 & E3 & E4 & E5) & _)].
    - rewrite Hopen. split; [intros [[]]; done|]. by intros [_ [? ?]].
    - rewrite E2, E3, E4, E5. split; [intros [[_ <-] [_ <-]]; by split|]. intros [[= -> ->] _]. by split_and!. }
  intros s h. rewrite map_lookup_filter_Some, (HR s h). simpl. split.
  - intros [(l & Hl & <- & <-) Hn]. exists l. split; [|done]. apply Hx. split; [done|].
    intros (l' & Es & Hl')%list_elem_of_fmap. apply Hn, (Hgone l Hl).
    assert (Hin : l' ∈ mi_iter (lockdb fm)) by (unfold gone in Hl'; apply list_elem_of_filter in Hl' as [_ Hl']; by apply mi_get_elem in Hl' as [? _]).
    by rewrite (mi_distinct_inj stateid (lockdb fm) l l' (li_distinct _ _ (proj1 Hi)) Hl Hin Es).
  - intros (l & Hl & <- & <-). apply Hx in Hl as [Hl Hn]. split; [by exists l|]. intros Hg. apply Hn.
    by apply list_elem_of_fmap_2, (Hgone l Hl).
Qed.

Lemma no_lock_step m fm w reply fm' w' t :
  represents fm t -> keeps_locks (handle_message m) -> handle_message m fm w = Some (reply, fm', w') ->
  tells m reply Silent -> exists e t', tells m reply e /\ lock_service t e t' /\ represents fm' t'.
Proof.
  intros HR Hk E Ht. exists Silent, t. split; [done|]. split; [constructor|].
  apply (represents_same fm); [by eapply Hk|done].
Qed.

Lemma unlock_step s off len fm w r fm' w' t :
  represents fm t -> handle_unlock s off len fm w = Some (r, fm', w') ->
  exists e t', tells (UnlockFile s off len) (ReplyUnlock r) e /\ lock_service t e t' /\ represents fm' t'.
Proof.
  intros HR E. unfold handle_unlock, bind, self, modify, ret in E.
  destruct (mi_get_unique (lockdb fm) (has_stateid s)) as [l|] eqn:El; simplify_eq.
  - apply mi_get_unique_some in El as [Hl Hs]. unfold has_stateid in Hs. apply bool_decide_eq_true in Hs as <-.
    exists (Unlocked (stateid l)), (delete (stateid l) t). split; [by constructor|].
    split; [constructor; exists (held_of l); by apply (represents_get fm)|by apply represents_delete].
  - exists (NoSuch s), t. split; [by constructor|]. split; [|done]. constructor. apply eq_None_not_Some.
    intros [h Hh]. apply HR in Hh as (l & Hl & Es & _). pose proof (proj1 (mi_get_unique_none _ _) El l Hl) as Hn.
    unfold has_stateid in Hn. by apply bool_decide_eq_false in Hn.
Qed.

Lemma lock_step id c o ty off len fm w r fm' w' t :
  inv 1 fm -> represents fm t -> in_width 64 off -> in_width 64 len ->
  handle_lock id c o ty off len fm w = Some (r, fm', w') ->
  exists e t', tells (LockFile id c o ty off len) (ReplyLock r) e /\ lock_service t e t' /\ represents fm' t'.
Proof.
  intros Hi HR Ho Hl E. assert (Hi0 : inv 0 fm) by (eapply inv_weaken; [|exact Hi]; lia).
  pose proof (handle_lock_run 0 fm w id c o ty off len Hi ltac:(lia) Ho Hl) as Hrun.
  destruct (find_conflict fm id c o ty off len) as [l|] eqn:Ef.
  - pose proof (conflict_found fm t id c o ty off len l Hi0 HR Ho Hl Ef) as Hs.
    destruct Hrun as (off' & len' & ty' & R & (_ & E2 & E3 & E4)). rewrite E in R. simplify_eq.
    rewrite E2, E3, E4 in Hs. eexists _, t. split; [constructor|]. by split.
  - destruct Hrun as (d & Hd & R & _). rewrite E in R. simplify_eq.
    destruct (represents_insert fm _ _ t HR Hd) as [Hn HR'].
    eexists _, _. split; [constructor|]. split; [|by apply HR'].
    apply does_grant; [done|]. by apply (no_conflict_none fm).
Qed.

(** The ranges of a message are 64-bit numbers. *)
Definition ranges_ok (m : Msg) : Prop :=
  match m with
  | LockFile _ _ _ _ off len | TestLock _ _ _ _ off len => in_width 64 off /\ in_width 64 len
  | _ => True
  end.

(** C2: The file manager implements [lock_service]: a fresh one has the empty table, and
    from every reachable state every message is a step of the service, with the answer
    that goes out: a range is granted under a stateid no one has, exactly when no other
    owner holds one of its bytes in conflict, a refusal names one who does, a stateid is
    given up once, and no other message and no sweep touches the table. *)
Theorem lock_table_refined :
  (forall root_path fsid_ export_root_ boot w fm w',
     new root_path fsid_ export_root_ boot w = Some (fm, w') -> represents fm ∅) /\
  (forall fm t msg w reply fm' w',
     reachable fm -> ranges_ok msg -> next_stateid_id fm + 1 < 2 ^ 64 -> represents fm t ->
     handle_message msg fm w = Some (reply, fm', w') ->
     exists e t', tells msg reply e /\ lock_service t e t' /\ represents fm' t') /\
  (forall fm t w fm' w',
     represents fm t -> sweep_pending_deletes fm w = Some (tt, fm', w') -> represents fm' t).
Proof.
  split; [|split].
  - intros root_path fsid_ export_root_ boot w fm w' E. unfold new in E.
    destruct (root_fh _ w) as [[[fh fm1] w1]|] eqn:Er; [|done]. simplify_eq.
    intros s h. rewrite (keeps_root _ _ _ _ _ Er). cbn [initial lockdb]. rewrite mi_iter_empty.
    split; [done|]. intros (l & Hl & _). by apply not_elem_of_nil in Hl.
  - intros fm t msg w reply fm' w' Hr Hm Hb HR E. pose proof (inv_budget fm (reachable_inv fm Hr) Hb) as Hi.
    assert (Hi0 : inv 0 fm) by (eapply inv_weaken; [|exact Hi]; lia).
    assert (Hsame : keeps_locks (handle_message msg) -> tells msg reply Silent ->
      exists e t', tells msg reply e /\ lock_service t e t' /\ represents fm' t') by (intros; by eapply no_lock_step).
    destruct msg; try (apply Hsame; [cbn [handle_message]; solve [frame]|by constructor]); cbn [handle_message] in E.
    + unfold bind at 1 in E. destruct (create_file _ fm w) as [[[[fh|] fm1] w1]|] eqn:Ec; [| |done].
      * unfold bind, ret in E. destruct (new_open_state _ _ _ _ _ fm1 w1) as [[[l fm2] w2]|] eqn:En; [|done]. simplify_eq.
        destruct (opened_step fm1 fm' t _ _ _ _ _ _ _ _ (represents_same _ _ _ (keeps_create _ _ _ _ _ _ Ec) HR) En).
        eexists _, _. split; [constructor|]. by split.
      * unfold ret in E. simplify_eq. exists Silent, t. split; [constructor|]. split; [constructor|].
        by apply (represents_same fm); [eapply keeps_create|].
    + unfold bind at 1 in E. destruct (get_filehandle _ fm w) as [[[fh fm1] w1]|] eqn:Ec; [|done].
      unfold bind, ret in E. destruct (new_open_state _ _ _ _ _ fm1 w1) as [[[l fm2] w2]|] eqn:En; [|done]. simplify_eq.
      destruct (opened_step fm1 fm' t _ _ _ _ _ _ _ _ (represents_same _ _ _ (keeps_get_filehandle _ _ _ _ _ _ Ec) HR) En).
      eexists _, _. split; [constructor|]. by split.
    + apply Hsame; [|by constructor]. cbn [handle_message]. apply keeps_bind; [apply keeps_remove|intros ?; apply keeps_ret].
    + destruct Hm as [Ho Hl]. unfold bind, ret in E. destruct (handle_lock _ _ _ _ _ _ fm w) as [[[r fm1] w1]|] eqn:El; [|done].
      simplify_eq. by eapply lock_step.
    + unfold bind, ret in E. destruct (handle_unlock _ _ _ fm w) as [[[r fm1] w1]|] eqn:El; [|done]. simplify_eq.
      by eapply unlock_step.
    + destruct Hm as [Ho Hl]. unfold handle_test_lock, bind, self, ret in E. simplify_eq.
      destruct (find_conflict fm' filehandle_id client_id owner lock_type offset length) as [l|] eqn:Ef.
      * eexists _, t. split; [constructor|]. split; [|done]. by apply (conflict_found fm').
      * exists (Free (request filehandle_id client_id owner lock_type offset length)), t. split; [constructor|].
        split; [|done]. constructor. by apply (no_conflict_none fm').
    + unfold bind, ret in E. destruct (handle_release_lock_owner _ _ fm w) as [[[r fm1] w1]|] eqn:El; [|done]. simplify_eq.
      destruct (forgotten _ _ _ _ _ _ _ t HR Hi0 El) as [-> HR'].
      eexists _, _. split; [constructor|]. split; [constructor|exact HR'].
    + unfold bind, modify, ret in E. simplify_eq.
      eexists _, _. split; [constructor|]. split; [constructor|by apply represents_delete].
  - intros fm t w fm' w' HR E. by eapply represents_same; [eapply keeps_sweep|].
Qed.
End LockTable.

Lemma lock_table_refined_witness :
  exists e t', tells (LockFile file_a 1 [x61] WriteLt 0 100)
      (ReplyLock (LockOk (MkStateid4 1 (lock_stateid 100))) : FileManagerReply string unit) e /\
    lock_service ∅ e t' /\ represents mem_locked t'.
Proof.
  destruct (new ("" : string) (Some 3) "/export" 17 mem_world) as [[fm w]|] eqn:E; [|by vm_compute in E].
  assert (Hs : fm = mem_start) by (unfold mem_start; by rewrite E).
  pose proof (proj1 lock_table_refined _ _ _ _ _ _ _ E) as H0. rewrite Hs in H0.
  destruct (handle_message (LockFile file_a 1 [x61] WriteLt 0 100) mem_start mem_world) as [[[reply fm'] w']|] eqn:El;
    [|by vm_compute in El].
  assert (Hl : fm' = mem_locked) by (unfold mem_locked, run_message; by rewrite El).
  assert (Hr : reply = ReplyLock (LockOk (MkStateid4 1 (lock_stateid 100)))).
  { apply (f_equal (option_map (fun x => x.1.1))) in El. vm_compute in El. vm_compute. by injection El. }
  pose proof (proj1 (proj2 lock_table_refined) mem_start ∅ (LockFile file_a 1 [x61] WriteLt 0 100) mem_world reply fm' w'
    mem_start_reachable ltac:(by split) ltac:(by vm_compute) H0 El)
    as (e & t' & Ht & Hstep & HR).
  exists e, t'. rewrite <- Hr, <- Hl. done.
Defined.
