(* ===== verification/ClientLiveness.v ===== *)
(** * Clients that fall silent

    A client that stops renewing does not keep its records: [lapsed_client_purged] follows
    any run of the client manager in which nothing revives the client, between a sweep
    past its lease and one past its courtesy window. *)

From S2P Require Import Prelude NfsTypes MultiIndex ClientManager ClientManagerSpec.
From stdpp Require Import base list strings.
From Stdlib Require Import Strings.Byte ZArith Lia.
#[local] Open Scope Z_scope.

(** The messages that renew a client's lease or make a record of it a confirmed one. *)
Definition revives (c : Z) (msg : ClientManagerMessage) : bool :=
  match msg with
  | RenewLeases c' | ConfirmClient c' _ _ => c' =? c
  | RestoreClients _ => true
  | _ => false
  end.

Section ClientLiveness.
Context {W M : Type} `{CW : !ClientWorld W} `{MI : !MultiIndex ClientEntry M client_clash}.
#[local] Abbreviation CM := (ClientManager M).
#[local] Abbreviation iter := (mi_iter (E:=ClientEntry) (clash:=client_clash)).
Implicit Types (s : CM) (w : W).

(** Any messages that do not revive the client, in any worlds. *)
Inductive idle_run (c : Z) : CM -> CM -> Prop :=
| idle_stop s : idle_run c s s
| idle_more s msg w s' :
    revives c msg = false -> client_id_seq s < umax 64 ->
    idle_run c (client_handle_message msg s w).1.2 s' -> idle_run c s s'.

(** The client's confirmed records were last renewed by [t0]; with [b] they are in
    courtesy state too. *)
Definition silent_since (c t0 : Z) (b : bool) s : Prop :=
  forall x, x ∈ iter (db s) -> clientid x = c -> confirmed x = true ->
    last_renewed x <= t0 /\ (b = true -> courtesy x = true).

(** Records of the client come only from its records. *)
Lemma silent_sub c t0 b s s' :
  silent_since c t0 b s ->
  (forall x, x ∈ iter (db s') -> clientid x = c -> confirmed x = true ->
     exists e, e ∈ iter (db s) /\ clientid e = c /\ confirmed e = true /\ last_renewed x = last_renewed e /\
       (courtesy e = true -> courtesy x = true)) ->
  silent_since c t0 b s'.
Proof.
  intros Hs Hx x Hin Hc Hconf. destruct (Hx x Hin Hc Hconf) as (e & He & Hce & Hconfe & -> & Hcourt).
  destruct (Hs e He Hce Hconfe) as [H1 H2]. split; [done|]. auto.
Qed.

Lemma silent_step c t0 b s msg w :
  client_reachable s -> client_id_seq s < umax 64 -> revives c msg = false -> silent_since c t0 b s ->
  silent_since c t0 b (client_handle_message msg s w).1.2 /\
  lease_time (client_handle_message msg s w).1.2 = lease_time s.
Proof.
  intros Hi%client_reachable_inv Hseq Hr Hs. assert (Hself : forall x, x ∈ iter (db s) -> clientid x = c -> confirmed x = true ->
    exists e, e ∈ iter (db s) /\ clientid e = c /\ confirmed e = true /\ last_renewed x = last_renewed e /\
      (courtesy e = true -> courtesy x = true)) by (intros x ???; by exists x).
  destruct msg as [v i cb p|c' t p|a f|c'| |c'|c'| |l]; simpl in Hr; cbn [client_handle_message].
  - unfold bind at 1 2. destruct (upsert_client v i cb p s w) as [[r s'] w'] eqn:E.
    apply upsert_client_spec in E as [Hu _]; [|done..]. destruct r as [[e|st]|]; simpl.
    + destruct Hu as (He & Hx & _ & _ & _ & Hl). split; [|done]. apply (silent_sub c t0 b s); [done|].
      intros x [->|[Hin _]]%Hx; [by rewrite He|by apply Hself].
    + by destruct Hu as (_ & -> & _).
    + destruct Hu as (_ & Hx & Hl). split; [|done]. apply (silent_sub c t0 b s); [done|]. intros x Hin. by apply Hself, Hx.
  - unfold bind at 1 2. destruct (confirm_client c' t p s w) as [[r s'] w'] eqn:E.
    apply confirm_client_spec in E as (_ & Hs' & Hu); [|done]. destruct r as [[e|st]|]; simpl; [| |done].
    + destruct Hu as (e0 & _ & Hc0 & _ & -> & _ & Hx). rewrite Hs'. split; [|done].
      apply (silent_sub c t0 b s); [done|]. intros x [->|[Hin _]]%Hx; [|by apply Hself].
      intros Hc. simpl in Hc. lia.
    + destruct Hu as [(_ & -> & _)|(_ & _ & Hx)]; [done|]. rewrite Hs'. split; [|done].
      apply (silent_sub c t0 b s); [done|]. intros x [Hin _]%Hx. by apply Hself.
  - done.
  - unfold bind at 1 2. destruct (renew_leases c' s w) as [[r s'] w'] eqn:E.
    apply (renew_leases_spec (fun _ => True)) in E as (_ & Hs' & Hu); [|done..]. destruct r as [[[]|st]|]; simpl; [| |done].
    + destruct Hu as (_ & _ & F & _). rewrite Hs'. split; [|done]. apply (silent_sub c t0 b s); [done|].
      intros x Hin Hc Hconf. destruct (F x Hin) as (a & Ha & HR & _). destruct (decide (clientid a = c')) as [Ea|Ea].
      * exfalso. destruct HR as (w0 & _ & ->). simpl in Hc. lia.
      * subst x. by apply Hself.
    + by destruct Hu as [-> _].
  - unfold bind at 1 2. destruct (sweep_leases_spec s w Hi) as (d & -> & _ & Hx). simpl. split; [|done].
    apply (silent_sub c t0 b s); [done|]. intros x (e & He & _ & ->)%Hx Hc Hconf. exists e. by destruct (decide _).
  - done.
  - simpl. split; [|done]. apply (silent_sub c t0 b s); [done|]. intros x [Hin _]%mi_delete_elem. by apply Hself.
  - done.
  - done.
Qed.

Lemma silent_run c t0 b s s' :
  idle_run c s s' -> client_reachable s -> silent_since c t0 b s ->
  silent_since c t0 b s' /\ client_reachable s' /\ lease_time s' = lease_time s.
Proof.
  induction 1 as [s|s msg w s' Hr Hseq _ IH]; intros Hreach Hs; [done|].
  destruct (silent_step c t0 b s msg w Hreach Hseq Hr Hs) as [Hs1 Hl1].
  destruct IH as (H1 & H2 & H3); [|done|by rewrite H3, Hl1].
  apply reach_step; [done|done|]. by destruct msg.
Qed.

(** C10: A silent client is purged. Once a lease time has passed since its confirmed records
    were last renewed, a sweep puts them all in courtesy state; and a sweep two lease times
    after that renewal leaves none, whatever other clients do and whatever else is asked of
    this one in between, short of renewing or confirming it. *)
Theorem lapsed_client_purged c t0 s w1 s2 w2 :
  client_reachable s -> client_id_seq s < umax 64 -> lease_time s = 90 -> silent_since c t0 false s ->
  t0 + 90 * 1000000000 <= (now w1).1 -> t0 + 180 * 1000000000 <= (now w2).1 ->
  idle_run c (client_handle_message SweepLeases s w1).1.2 s2 ->
  silent_since c t0 true (client_handle_message SweepLeases s w1).1.2 /\
  forall x, x ∈ iter (db (client_handle_message SweepLeases s2 w2).1.2) -> clientid x = c -> confirmed x = false.
Proof.
  intros Hr Hseq Hlease Hs Ht1 Ht2 Hrun.
  pose proof (reach_step s SweepLeases w1 Hr Hseq eq_refl) as Hr1.
  assert (Hold : forall t x, t0 + 90 * 1000000000 <= t -> last_renewed x <= t0 -> 90 <= elapsed_secs t (last_renewed x)).
  { intros t x Ht Hx. unfold elapsed_secs. apply Z.div_le_lower_bound; lia. }
  assert (H1 : silent_since c t0 true (client_handle_message SweepLeases s w1).1.2 /\
    lease_time (client_handle_message SweepLeases s w1).1.2 = 90).
  { cbn [client_handle_message]. unfold bind at 1 2.
    destruct (sweep_leases_spec s w1 (client_reachable_inv s Hr)) as (d & -> & _ & Hx). simpl. split; [|done].
    intros x (e & He & Hne & ->)%Hx Hc Hconf.
    assert (Hce : clientid e = c) by (by destruct (decide _)).
    assert (Hconfe : confirmed e = true) by (by destruct (decide _)).
    destruct (Hs e He Hce Hconfe) as [Hlast _]. split; [by destruct (decide _)|]. intros _.
    destruct (decide _) as [Hin|Hnin]; [done|]. destruct (courtesy e) eqn:Ec; [done|]. exfalso. apply Hnin.
    apply list_elem_of_fmap_2, list_elem_of_filter. split; [|done]. unfold lapses. rewrite Hconfe, Ec, Hlease.
    rewrite (proj2 (Z.leb_le _ _) (Hold _ e Ht1 Hlast)). done. }
  destruct H1 as [H1 Hl1]. split; [done|].
  destruct (silent_run c t0 true _ s2 Hrun Hr1 H1) as (H2 & Hr2 & Hl2). rewrite Hl1 in Hl2.
  cbn [client_handle_message]. unfold bind at 1.
  destruct (sweep_leases_spec s2 w2 (client_reachable_inv s2 Hr2)) as (d & -> & _ & Hx). simpl.
  intros x (e & He & Hne & ->)%Hx Hc. apply not_true_iff_false. intros Hconf.
  assert (Hce : clientid e = c) by (by destruct (decide _)).
  assert (Hconfe : confirmed e = true) by (by destruct (decide _)).
  destruct (H2 e He Hce Hconfe) as [Hlast Hcourt]. specialize (Hcourt eq_refl).
  apply Hne, list_elem_of_fmap_2, list_elem_of_filter. split; [|done]. unfold expires, lapses.
  rewrite Hconfe, Hcourt, Hl2, andb_false_r. simpl. apply Z.leb_le. unfold wrap, elapsed_secs.
  change ((90 * 2) mod 2 ^ 64) with 180. apply Z.div_le_lower_bound; lia.
Qed.
End ClientLiveness.

(** One client, confirmed at time 1 and never heard of again. *)
Definition quiet_client : ClientManager (list ClientEntry) :=
  (client_handle_message (ConfirmClient 1 (be_bytes 8 7) None)
    (client_handle_message (UpsertClient (replicate 8 x00) "host" (MkClientCallback 0 "tcp" "10.0.0.2.8.1" 0) None)
       new ((0, 7) : Z * Z)).1.2 ((1, 8) : Z * Z)).1.2.

Lemma quiet_client_reachable : client_reachable quiet_client.
Proof. apply reach_step; [|by vm_compute|done]. apply reach_step; [constructor|by vm_compute|done]. Qed.

Lemma lapsed_client_purged_witness :
  length (db quiet_client) = 1%nat /\
  forall x, x ∈ db (client_handle_message SweepLeases
      (client_handle_message SweepLeases quiet_client ((90000000001, 9) : Z * Z)).1.2 ((180000000001, 9) : Z * Z)).1.2 ->
    clientid x = 1 -> confirmed x = false.
Proof.
  split; [by vm_compute|].
  destruct (lapsed_client_purged 1 1 quiet_client ((90000000001, 9) : Z * Z)
    (client_handle_message SweepLeases quiet_client ((90000000001, 9) : Z * Z)).1.2 ((180000000001, 9) : Z * Z)
    quiet_client_reachable eq_refl eq_refl) as [_ H]; [|done|done|apply idle_stop|exact H].
  intros x Hx _ _. vm_compute in Hx. apply list_elem_of_singleton in Hx as ->. split; [by vm_compute|done].
Defined.
