(* ===== verification/FileLaws.v ===== *)
(** * What files promise

    [FileLaws] states the documented behaviour of the [vfs] crate over a physical
    directory and of [std::fs::File]: what files contain ([contents]), which file a handle
    is open on, whether it appends ([O_APPEND]: every write goes to the end, wherever the
    handle was sought to) and where it stands ([open_on]). Calls may fail; [names s p]
    says that the real path [s] is the file [p]. The operations on contents are proved
    against it in [FileSpec], and the disk of [Demo] is an instance of it. *)

From S2P Require Import Prelude FileManager Handle.
From stdpp Require Import base list gmap strings.
From Stdlib Require Import Strings.Byte ZArith Lia.
#[local] Open Scope Z_scope.

(** Bytes put over [old] from offset [n], with zeros between. *)
Definition overwrite (old new : list byte) (n : nat) : list byte :=
  take n (old ++ replicate (n - length old) x00) ++ new ++ drop (n + length new) old.

Definition size_of (d : list byte) : Z := Z.of_nat (length d).

Section Laws.
Context {W P C F : Type} `{V : !Vfs W P C} `{IO : !FileIo W P F}.

(** What contents and handles are: [contents w p] of a file, [open_on f p appends n w]. *)
Class FileView : Type := {
  contents : W -> P -> option (list byte);
  open_on : F -> P -> bool -> Z -> W -> Prop;
  names : string -> P -> Prop;
  (** Two paths of one file. *)
  same_file : P -> P -> bool
}.
Context `{FV : !FileView}.

(** A call on [f] that changes no contents and no other handle. *)
Definition quiet (f : F) (w w' : W) : Prop :=
  (forall p, contents w' p = contents w p) /\
  forall g q b m, g <> f -> open_on g q b m w -> open_on g q b m w'.

(** Opening: nothing changes but for the new handle, which is no other's. *)
Definition opens (p : P) (appends : bool) (o : option F) (w w' : W) : Prop :=
  (forall q, contents w' q = contents w q) /\
  (forall g q b m, open_on g q b m w -> open_on g q b m w') /\
  forall f, o = Some f -> open_on f p appends 0 w' /\ forall q b m, ~ open_on f q b m w.

(** A write of [f]: the file has the contents [d] and other files theirs. *)
Definition leaves (f : F) (p : P) (d : list byte) (w w' : W) : Prop :=
  contents w' p = Some d /\ (forall q, same_file p q = false -> contents w' q = contents w q) /\
  forall g q b m, g <> f -> open_on g q b m w -> open_on g q b m w'.

Definition after_write (appends : bool) (d l : list byte) (n : Z) : list byte :=
  if appends then d ++ l else overwrite d l (Z.to_nat n).

Class FileLaws : Prop := {
  open_file_law p w o w' : vfs_open_file p w = (o, w') -> opens p false o w w';
  append_file_law p w o w' : vfs_append_file p w = (o, w') -> opens p true o w w';
  fs_append_law s p w o w' : names s p -> fs_open_append s w = (o, w') -> opens p true o w w';
  fs_write_law s p w o w' : names s p -> fs_open_write s w = (o, w') -> opens p false o w w';
  fs_exists_law s p d w : names s p -> contents w p = Some d -> fs_exists w s = true;
  fs_len_law s p d w : names s p -> contents w p = Some d -> fs_metadata_len w s = Some (size_of d);
  seek_end_law f p b n d w : open_on f p b n w -> contents w p = Some d ->
    exists w', file_seek_end f w = (Some (size_of d), w') /\ open_on f p b (size_of d) w' /\ quiet f w w';
  seek_law f p b n m w r w' : open_on f p b n w -> 0 <= m -> file_seek f m w = (r, w') ->
    quiet f w w' /\ (r = true -> open_on f p b m w') /\ (r = false -> open_on f p b n w');
  read_law f p b n d k w l w' : open_on f p b n w -> contents w p = Some d -> file_read f k w = (Some l, w') ->
    l = take (length l) (drop (Z.to_nat n) d) /\ (size_of l <= Z.max 0 k) /\
    (l = [] -> k <= 0 \/ size_of d <= n) /\ open_on f p b (n + size_of l) w' /\ quiet f w w';
  read_exact_law f p b n d k w : open_on f p b n w -> contents w p = Some d -> 0 <= k ->
    exists o w', file_read_exact f k w = (o, w') /\ quiet f w w' /\
    forall l, o = Some l -> l = take (Z.to_nat k) (drop (Z.to_nat n) d) /\ n + k <= Z.max n (size_of d);
  write_all_law f p b n d l w w' : open_on f p b n w -> contents w p = Some d -> file_write_all f l w = (true, w') ->
    leaves f p (after_write b d l n) w w' /\ exists m, open_on f p b m w';
  fs_create_law s p d w o w' : names s p -> contents w p = Some d -> fs_open_create s w = (o, w') -> opens p false o w w';
  write_all_at_law f p d l n m w w' : open_on f p false m w -> contents w p = Some d -> 0 <= n ->
    file_write_all_at f l n w = (true, w') -> leaves f p (overwrite d l (Z.to_nat n)) w w' /\ open_on f p false m w';
  flush_law f p b n w r w' : open_on f p b n w -> file_flush f w = (r, w') -> quiet f w w';
  sync_law f p b n w r w' : open_on f p b n w -> file_sync_all f w = (r, w') -> quiet f w w'
}.
End Laws.
#[global] Arguments FileView : clear implicits.
#[global] Arguments FileLaws W P F {IO FV}.
