(* ===== verification/FileSpec.v ===== *)
(** * What the operations do to the contents of files

    READ, WRITE, ALLOCATE, COPY and SETATTR of the size against [FileLaws]: the bytes
    read, the contents left, and that the writing loops end within their fuel. *)

From S2P Require Import Prelude NfsTypes Rpc MultiIndex Locking FileManager Export ClientManager Request Perm.
From S2P Require Import Compound Handle OpsState OpsAttr OpsFile FileLaws.
From stdpp Require Import base list gmap strings.
From Stdlib Require Import Strings.Byte ZArith Lia.
#[local] Open Scope Z_scope.

Section FileSpec.
Context {W P C Fm F : Type} `{V : !Vfs W P C} `{A : !Actors W P C Fm} `{CH : !Channels W P C Fm}
        `{IO : !FileIo W P F} `{SH : !Shared W Fm} `{FV : !FileView W P F} `{FL : !FileLaws W P F}.
#[local] Abbreviation FH := (Filehandle P C).
#[local] Abbreviation Req := (NfsRequest P C Fm).

(** The counters of an export and the times a file manager keeps are not in the files. *)
Class FilesApart : Prop := {
  quota_apart x q w p : contents (set_quota x q w) p = contents w p;
  stats_apart x s w p : contents (set_stats x s w) p = contents w p;
  touch_apart fm i w p : contents (touch_file fm i w) p = contents w p
}.
Context `{FA : !FilesApart}.

Lemma update_quota_contents (r : Req) f w p : contents (update_quota r f w) p = contents w p.
Proof. unfold update_quota. case_match; [apply quota_apart|done]. Qed.

Lemma update_stats_contents (r : Req) f w p : contents (update_stats r f w) p = contents w p.
Proof. unfold update_stats. case_match; [apply stats_apart|done]. Qed.

Lemma quiet_contents f w w' p : quiet f w w' -> contents w' p = contents w p.
Proof. intros H. apply H. Qed.

Lemma opens_contents p b o w w' q : opens p b o w w' -> contents w' q = contents w q.
Proof. intros H. apply H. Qed.

Lemma stretch_length (l d : list byte) n : l = take (length l) (drop n d) -> (length l <= length d - n)%nat.
Proof. intros H. apply (f_equal length) in H. rewrite length_take, length_drop in H. lia. Qed.

Lemma stretch_next (l d : list byte) n c :
  l = take (length l) (drop n d) -> (length l <= c)%nat ->
  l ++ take (c - length l) (drop (n + length l) d) = take c (drop n d).
Proof.
  intros Hl Hc. rewrite <- drop_drop. rewrite Hl at 1. rewrite <- (take_drop (length l) (drop n d)) at 3.
  rewrite take_app, length_take, (take_ge (take (length l) (drop n d))) by (rewrite length_take; lia).
  f_equal. destruct (decide (length l <= length (drop n d))%nat); [by f_equal; lia|].
  by rewrite !drop_ge, !take_nil by lia.
Qed.

(** C12: READ of a file answers a stretch of its bytes from the offset, no longer than asked
    for and empty only when nothing was asked for or left; eof says exactly whether the
    stretch ends at or past the end of the file. No file changes. *)
Theorem read_exact args (r : Req) w fh d resp w' :
  filehandle r = Some fh -> contents w (file fh) = Some d ->
  0 <= read4args_offset args -> 0 <= read4args_count args -> read4args_offset args + size_of d < 2 ^ 64 ->
  op_read args r w = Some (resp, w') -> status resp = Nfs4Ok ->
  exists data, op_result resp = Some (ResOpread (Read4res_Resok4 (MkRead4resok
      (size_of d <=? read4args_offset args + size_of data) data))) /\
    data = take (length data) (drop (Z.to_nat (read4args_offset args)) d) /\
    size_of data <= read4args_count args /\
    (data = [] -> read4args_count args = 0 \/ size_of d <= read4args_offset args) /\
    forall p, contents w' p = contents w p.
Proof.
  intros Hfh Hd Ho Hc Hmax E Hs. unfold op_read, fail, answer in E. rewrite Hfh in E.
  destruct (vfs_open_file (file fh) w) as [[f|] w1] eqn:E1; [|by simplify_eq].
  destruct (open_file_law _ _ _ _ E1) as (Hw1 & _ & Hf). destruct (Hf f eq_refl) as [Hf1 _].
  destruct (seek_end_law f _ _ _ d w1 Hf1) as (w2 & E2 & Hf2 & Hq2); [by rewrite Hw1|]. rewrite E2 in E.
  destruct (file_seek f _ w2) as [[] w3] eqn:E3; [|by simplify_eq].
  destruct (seek_law _ _ _ _ _ _ _ _ Hf2 Ho E3) as (Hq3 & Hf3 & _).
  destruct (file_read f _ w3) as [[data|] w4] eqn:E4; [|by simplify_eq].
  assert (Hd3 : contents w3 (file fh) = Some d).
  { by rewrite (quiet_contents _ _ _ _ Hq3), (quiet_contents _ _ _ _ Hq2), Hw1. }
  destruct (read_law _ _ _ _ _ _ _ _ _ (Hf3 eq_refl) Hd3 E4) as (Hdata & Hlen & Hempty & _ & Hq4).
  cbn [default from_option] in *. simplify_eq. exists data. unfold size_of, sat_sub, Datatypes.id in *.
  pose proof (stretch_length _ _ _ Hdata) as Hl.
  split; [|split; [done|split; [lia|split; [intros He; destruct (Hempty He); lia|]]]].
  - simpl. do 4 f_equal. rewrite wrap_small; [done|]. split; simpl in *; lia.
  - intros p. simpl. by rewrite update_stats_contents, (quiet_contents _ _ _ _ Hq4), (quiet_contents _ _ _ _ Hq3),
      (quiet_contents _ _ _ _ Hq2).
Qed.

(** A write of an appending handle that stays open. *)
Lemma append_all f p n d l w w' :
  open_on f p true n w -> contents w p = Some d -> file_write_all f l w = (true, w') ->
  leaves f p (d ++ l) w w' /\ exists m, open_on f p true m w'.
Proof. intros Hf Hd E. by apply (write_all_law f p true n d l w w'). Qed.

(** SETATTR of the size [n] succeeds only on files of at least [n] bytes, and does not
    cut them: it appends the file's first [n] bytes to it. So it neither truncates nor
    extends a file, short of [n] = 0 on an empty one. *)
Theorem setattr_size_appends (fh : FH) n w d ok w' :
  contents w (file fh) = Some d -> 0 <= n -> Handle.set_size fh n w = (ok, w') -> ok = true ->
  n <= size_of d /\ contents w' (file fh) = Some (d ++ take (Z.to_nat n) d) /\
  forall q, same_file (file fh) q = false -> contents w' q = contents w q.
Proof.
  intros Hd Hn E ->. unfold Handle.set_size in E.
  destruct (vfs_open_file (file fh) w) as [[f|] w1] eqn:E1; [|done].
  destruct (open_file_law _ _ _ _ E1) as (Hw1 & _ & Hf). destruct (Hf f eq_refl) as [Hf1 _].
  destruct (file_seek f 0 w1) as [b w2] eqn:E2.
  destruct (seek_law _ _ _ _ _ _ _ _ Hf1 (Z.le_refl 0) E2) as (Hq2 & Ht & Hff).
  assert (Hf2 : open_on f (file fh) false 0 w2) by (destruct b; auto).
  assert (Hd2 : contents w2 (file fh) = Some d) by (by rewrite (quiet_contents _ _ _ _ Hq2), Hw1).
  destruct (read_exact_law f _ _ _ d n w2 Hf2 Hd2 Hn) as (o & w3 & E3 & Hq3 & Hl). rewrite E3 in E.
  destruct o as [buf|]; [|done]. destruct (Hl buf eq_refl) as [-> Hle].
  destruct (vfs_append_file (file fh) w3) as [[g|] w4] eqn:E4; [|done].
  destruct (append_file_law _ _ _ _ E4) as (Hw4 & _ & Hg). destruct (Hg g eq_refl) as [Hg4 _].
  destruct (file_seek g 0 w4) as [b5 w5] eqn:E5.
  destruct (seek_law _ _ _ _ _ _ _ _ Hg4 (Z.le_refl 0) E5) as (Hq5 & Ht5 & Hff5).
  assert (Hg5 : open_on g (file fh) true 0 w5) by (destruct b5; auto).
  assert (Hc5 : forall q, contents w5 q = contents w q).
  { intros q. by rewrite (quiet_contents _ _ _ _ Hq5), Hw4, (quiet_contents _ _ _ _ Hq3), (quiet_contents _ _ _ _ Hq2). }
  unfold and_then in E. destruct (file_write_all g _ w5) as [[] w6] eqn:E6; [|done].
  destruct (append_all _ _ _ d _ _ _ Hg5 ltac:(by rewrite Hc5) E6) as ((Hp & Hother & _) & m & Hg6).
  pose proof (flush_law _ _ _ _ _ _ _ Hg6 E) as Hq7. split; [unfold size_of in *; lia|]. split.
  - rewrite (quiet_contents _ _ _ _ Hq7), Hp. by rewrite drop_0.
  - intros q Hq. by rewrite (quiet_contents _ _ _ _ Hq7), Hother.
Qed.

(** ** ALLOCATE *)

Lemma write_zeros_unfold fuel f k w :
  write_zeros (S fuel) f k w =
    if k <=? 0 then (true, w) else
    let n := Z.min k ALLOCATE_CHUNK in
    match file_write_all f (replicate (Z.to_nat n) x00) w with
    | (true, w) => write_zeros fuel f (k - n) w
    | (false, w) => (false, w)
    end.
Proof. done. Qed.

Lemma write_zeros_ends fuel f p n d k w w' :
  open_on f p true n w -> contents w p = Some d -> k <= Z.of_nat fuel * ALLOCATE_CHUNK ->
  write_zeros (S fuel) f k w = (true, w') ->
  contents w' p = Some (d ++ replicate (Z.to_nat k) x00) /\
  forall q, same_file p q = false -> contents w' q = contents w q.
Proof.
  revert n d k w. induction fuel as [|fuel IH]; intros n d k w Hf Hd Hk E; rewrite write_zeros_unfold in E;
    unfold ALLOCATE_CHUNK in Hk.
  - assert (Hk0 : (k <=? 0) = true) by lia. rewrite Hk0 in E. simplify_eq.
    assert (Z.to_nat k = 0%nat) as -> by lia. by rewrite app_nil_r.
  - destruct (k <=? 0) eqn:Hk0.
    { simplify_eq. assert (Z.to_nat k = 0%nat) as -> by lia. by rewrite app_nil_r. }
    cbv zeta in E. set (m := Z.min k ALLOCATE_CHUNK) in *.
    assert (Hm : 0 < m <= k /\ k - m <= Z.of_nat fuel * ALLOCATE_CHUNK) by (unfold m, ALLOCATE_CHUNK; lia).
    destruct (file_write_all f _ w) as [[] w1] eqn:E1; [|done].
    destruct (append_all _ _ _ _ _ _ _ Hf Hd E1) as ((Hp & Hother & _) & m' & Hf1).
    destruct (IH _ _ (k - m) _ Hf1 Hp (proj2 Hm) E) as [Hp' Hother'].
    split; [|intros q Hq; rewrite Hother' by done; by apply Hother].
    rewrite Hp', <- app_assoc, <- replicate_add. do 3 f_equal. lia.
Qed.

Lemma write_zeros_fuel fuel fuel' f k w :
  k <= Z.of_nat fuel * ALLOCATE_CHUNK -> (fuel <= fuel')%nat ->
  write_zeros (S fuel') f k w = write_zeros (S fuel) f k w.
Proof.
  revert fuel' k w. induction fuel as [|fuel IH]; intros fuel' k w Hk Hle; unfold ALLOCATE_CHUNK in Hk.
  - rewrite !write_zeros_unfold. by assert ((k <=? 0) = true) as -> by lia.
  - destruct fuel' as [|fuel']; [lia|]. rewrite (write_zeros_unfold (S fuel)), (write_zeros_unfold (S fuel')).
    destruct (k <=? 0) eqn:Hk0; [done|]. cbv zeta. case_match. case_match; [|done].
    apply IH; unfold ALLOCATE_CHUNK in *; lia.
Qed.

Lemma zeros_fuel_enough k :
  0 <= k -> exists n, zeros_fuel k = S n /\ k <= Z.of_nat n * ALLOCATE_CHUNK.
Proof.
  intros Hk. unfold zeros_fuel, ALLOCATE_CHUNK.
  exists (Z.to_nat (k / (64 * 1024) + 1)). pose proof (Z.div_pos k (64 * 1024) Hk ltac:(lia)). split; [lia|].
  pose proof (Z.mul_succ_div_gt k (64 * 1024) ltac:(lia)). lia.
Qed.

(** ALLOCATE leaves a file with its old bytes and zeros up to the end of the range asked
    for, and no other file changed; a range that lies within the file changes nothing. *)
Theorem allocate_zeros args (r : Req) w fh d resp w' :
  filehandle r = Some fh -> contents w (file fh) = Some d ->
  0 <= allocate4args_aa_offset args -> 0 <= allocate4args_aa_length args ->
  allocate4args_aa_offset args + allocate4args_aa_length args < 2 ^ 64 ->
  op_allocate args r w = Some (resp, w') -> status resp = Nfs4Ok ->
  contents w' (file fh) = Some (d ++ replicate
    (Z.to_nat (allocate4args_aa_offset args + allocate4args_aa_length args) - length d) x00) /\
  forall q, same_file (file fh) q = false -> contents w' q = contents w q.
Proof.
  intros Hfh Hd Ho Hl Hmax E Hs. unfold op_allocate, allocate_answer, answer in E. rewrite Hfh in E.
  case_match; [by simplify_eq|].
  destruct (vfs_append_file (file fh) w) as [[f|] w1] eqn:E1; [|by simplify_eq].
  destruct (append_file_law _ _ _ _ E1) as (Hw1 & _ & Hf). destruct (Hf f eq_refl) as [Hf1 _].
  destruct (seek_end_law f _ _ _ d w1 Hf1) as (w2 & E2 & Hf2 & Hq2); [by rewrite Hw1|]. rewrite E2 in E.
  assert (Hc2 : forall q, contents w2 q = contents w q).
  { intros q. by rewrite (quiet_contents _ _ _ _ Hq2). }
  rewrite wrap_small in E by (split; lia). set (alloc_end := _ + _) in *. unfold size_of in *.
  destruct (Z.of_nat (length d) <? alloc_end) eqn:Hlt.
  - set (pad := alloc_end - _) in *. destruct (write_zeros _ f pad w2) as [[] w3] eqn:E3; [|by simplify_eq].
    destruct (zeros_fuel_enough pad) as (n & Hn & Hle); [unfold pad; lia|]. rewrite Hn in E3.
    destruct (write_zeros_ends _ _ _ _ _ _ _ _ Hf2 ltac:(by rewrite Hc2) Hle E3) as [Hp Hother].
    simplify_eq. split.
    + rewrite update_quota_contents, Hp. do 3 f_equal. unfold pad. lia.
    + intros q Hq. rewrite update_quota_contents, Hother by done. apply Hc2.
  - simplify_eq. assert (Z.to_nat alloc_end - length d = 0)%nat as -> by lia. rewrite app_nil_r, Hc2. done.
Qed.

(** ** COPY *)

Lemma copy_loop_unfold fuel src dst c total w :
  copy_loop (F:=F) (S fuel) src dst c total w =
    if c <=? total then (Some total, w) else
    match file_read src (Z.min (c - total) COPY_CHUNK) w with
    | (None, w) => (None, w)
    | (Some [], w) => (Some total, w)
    | (Some buf, w) =>
      match file_write_all dst buf w with
      | (true, w) => copy_loop fuel src dst c (total + Z.of_nat (length buf)) w
      | (false, w) => (None, w)
      end
    end.
Proof. done. Qed.

Lemma copy_loop_fuel fuel fuel' src dst c total w :
  c - total <= Z.of_nat fuel -> (fuel <= fuel')%nat ->
  copy_loop (F:=F) (S fuel') src dst c total w = copy_loop (S fuel) src dst c total w.
Proof.
  revert fuel' total w. induction fuel as [|fuel IH]; intros fuel' total w Hk Hle.
  - rewrite !copy_loop_unfold. by assert ((c <=? total) = true) as -> by lia.
  - destruct fuel' as [|fuel']; [lia|]. rewrite (copy_loop_unfold (S fuel)), (copy_loop_unfold (S fuel')).
    case_match; [done|]. case_match. case_match; [|done]. case_match; [done|]. case_match. case_match; [|done].
    apply IH; simpl; lia.
Qed.

(** C40: The loops that write in chunks end: with any more fuel than the code is given here
    they do the same, so no call of ALLOCATE or COPY stops for lack of it, whatever the
    files answer. *)
Theorem write_loops_total f src dst k c fuel w :
  0 <= k -> (zeros_fuel k <= fuel)%nat -> (copy_fuel c <= fuel)%nat ->
  write_zeros (F:=F) fuel f k w = write_zeros (zeros_fuel k) f k w /\
  copy_loop fuel src dst c 0 w = copy_loop (copy_fuel c) src dst c 0 w.
Proof.
  intros Hk Hz Hc. destruct (zeros_fuel_enough k Hk) as (n & Hn & Hle). rewrite Hn in *.
  destruct fuel as [|fuel]; [lia|]. split; [apply write_zeros_fuel; [done|lia]|].
  unfold copy_fuel in *. apply copy_loop_fuel; lia.
Qed.

Lemma copy_loop_copies fuel f g ps pd ds n m dd c total w t w' :
  open_on f ps false n w -> contents w ps = Some ds -> open_on g pd true m w -> contents w pd = Some dd ->
  f <> g -> same_file pd ps = false -> 0 <= n -> total <= c -> c - total <= size_of ds - n -> c - total <= Z.of_nat fuel ->
  copy_loop (S fuel) f g c total w = (Some t, w') ->
  t = c /\ contents w' pd = Some (dd ++ take (Z.to_nat (c - total)) (drop (Z.to_nat n) ds)) /\
  (forall q, same_file pd q = false -> contents w' q = contents w q) /\ exists m', open_on g pd true m' w'.
Proof.
  revert n m dd total w. induction fuel as [|fuel IH];
    intros n m dd total w Hf Hs Hg Hd Hfg Hsame Hn Hle Hav Hfuel E; rewrite copy_loop_unfold in E.
  - assert (Hc : (c <=? total) = true) by lia. rewrite Hc in E. simplify_eq.
    assert (c = t) as -> by lia. rewrite Z.sub_diag, app_nil_r. eauto.
  - destruct (c <=? total) eqn:Hc.
    { simplify_eq. assert (c = t) as -> by lia. rewrite Z.sub_diag, app_nil_r. eauto. }
    destruct (file_read f _ w) as [[buf|] w1] eqn:E1; [|done].
    destruct (read_law _ _ _ _ _ _ _ _ _ Hf Hs E1) as (Hbuf & Hlen & Hempty & Hf1 & Hq1).
    destruct Hq1 as [Hc1 Ho1]. unfold size_of, COPY_CHUNK in *.
    destruct buf as [|b0 buf0]; [destruct (Hempty eq_refl); lia|]. set (buf := b0 :: buf0) in *.
    assert (Hpos : 0 < Z.of_nat (length buf)) by (unfold buf; simpl; lia).
    destruct (file_write_all g buf w1) as [[] w2] eqn:E2; [|done].
    pose proof (Ho1 g pd true m ltac:(done) Hg) as Hg1.
    destruct (append_all _ _ _ _ _ _ _ Hg1 ltac:(by rewrite Hc1) E2) as ((Hp & Hother & Hkeep) & m' & Hg2).
    pose proof (Hkeep f ps false _ ltac:(done) Hf1) as Hf2.
    pose proof (stretch_length _ _ _ Hbuf) as Hsl.
    destruct (IH (n + Z.of_nat (length buf)) m' (dd ++ buf) (total + Z.of_nat (length buf)) w2) as (Ht & Hp' & Hother' & Hg');
      [done|by rewrite Hother, Hc1|done|done|done|done|lia..|exact E|].
    split; [done|]. split; [|split; [|done]].
    + rewrite Hp', <- app_assoc. do 2 f_equal. rewrite <- (stretch_next buf ds (Z.to_nat n)) by (done || lia).
      f_equal. f_equal; [lia|]. f_equal. lia.
    + intros q Hq. rewrite Hother', Hother by done. apply Hc1.
Qed.

(** The bytes a COPY is to copy. *)
Definition copied_bytes (args : Copy4args) (ds : list byte) : Z :=
  let available := sat_sub (size_of ds) (copy4args_ca_src_offset args) in
  if copy4args_ca_count args =? 0 then available else Z.min (copy4args_ca_count args) available.

Lemma copy_data_appends args (r : Req) (dst : FH) f ps ds dd w resp w' c :
  open_on f ps false (size_of ds) w -> contents w ps = Some ds -> contents w (file dst) = Some dd ->
  same_file (file dst) ps = false -> 0 <= copy4args_ca_src_offset args -> 0 <= copy4args_ca_dst_offset args ->
  0 < c <= size_of ds - copy4args_ca_src_offset args ->
  copy_data args dst f c r w = Some (resp, w') -> status resp = Nfs4Ok ->
  copy_answer r c w' = Some (resp, w') /\
  contents w' (file dst) = Some (dd ++ take (Z.to_nat c) (drop (Z.to_nat (copy4args_ca_src_offset args)) ds)) /\
  forall q, same_file (file dst) q = false -> contents w' q = contents w q.
Proof.
  intros Hf Hs Hd Hsame Ho Hdo Hc E Hst. unfold copy_data, fail, copy_answer, answer in *.
  destruct (file_seek f _ w) as [[] w1] eqn:E1; [|by simplify_eq].
  destruct (seek_law _ _ _ _ _ _ _ _ Hf Ho E1) as ((Hc1 & _) & Hf1 & _). specialize (Hf1 eq_refl).
  destruct (vfs_append_file (file dst) w1) as [[g|] w2] eqn:E2; [|by simplify_eq].
  destruct (append_file_law _ _ _ _ E2) as (Hc2 & Hk2 & Hg). destruct (Hg g eq_refl) as [Hg2 Hnew].
  assert (Hfg : f <> g) by (intros ->; by eapply Hnew).
  destruct (file_seek g _ w2) as [[] w3] eqn:E3; [|by simplify_eq].
  destruct (seek_law _ _ _ _ _ _ _ _ Hg2 Hdo E3) as ((Hc3 & Hk3) & Hg3 & _). specialize (Hg3 eq_refl).
  destruct (copy_loop _ f g c 0 w3) as [[t|] w4] eqn:E4; [|by simplify_eq].
  assert (Hc123 : forall q, contents w3 q = contents w q) by (intros q; by rewrite Hc3, Hc2, Hc1).
  destruct (copy_loop_copies (S (Z.to_nat c)) f g ps (file dst) ds (copy4args_ca_src_offset args)
    (copy4args_ca_dst_offset args) dd c 0 w3 t w4) as (-> & Hp & Hother & m' & Hg4);
    [by apply Hk3, Hk2|by rewrite Hc123|done|by rewrite Hc123|done|done|done|lia..|exact E4|].
  destruct (file_flush g w4) as [[] w5] eqn:E5; [|by simplify_eq].
  destruct (flush_law _ _ _ _ _ _ _ Hg4 E5) as [Hc5 _]. simplify_eq. split; [done|].
  rewrite Z.sub_0_r in Hp. split; [by rewrite update_quota_contents, Hc5|].
  intros q Hq. by rewrite update_quota_contents, Hc5, Hother.
Qed.

(** COPY between two files copies everything asked for of the source that there is, to
    the end of the destination: where the destination offset is makes no difference. The
    bytes it reports are those it copied, and no other file changes. *)
Theorem copy_appends args (r : Req) w src dst ds dd resp w' :
  filehandle r = Some dst -> saved_filehandle r = Some src ->
  contents w (file src) = Some ds -> contents w (file dst) = Some dd -> same_file (file dst) (file src) = false ->
  0 <= copy4args_ca_src_offset args -> 0 <= copy4args_ca_dst_offset args -> 0 <= copy4args_ca_count args ->
  op_copy args r w = Some (resp, w') -> status resp = Nfs4Ok ->
  copy_answer r (copied_bytes args ds) w' = Some (resp, w') /\
  contents w' (file dst) = Some (dd ++ take (Z.to_nat (copied_bytes args ds))
    (drop (Z.to_nat (copy4args_ca_src_offset args)) ds)) /\
  forall q, same_file (file dst) q = false -> contents w' q = contents w q.
Proof.
  intros Hdst Hsrc Hs Hd Hsame Ho Hdo Hcount E Hst. unfold op_copy in E. rewrite Hdst, Hsrc in E.
  case_match; [unfold fail in E; by simplify_eq|].
  destruct (vfs_open_file (file src) w) as [[f|] w1] eqn:E1; [|unfold fail in E; by simplify_eq].
  destruct (open_file_law _ _ _ _ E1) as (Hc1 & _ & Hf). destruct (Hf f eq_refl) as [Hf1 _].
  destruct (seek_end_law f _ _ _ ds w1 Hf1) as (w2 & E2 & Hf2 & Hc2 & _); [by rewrite Hc1|]. rewrite E2 in E.
  cbn [default from_option] in E. unfold Datatypes.id in E.
  change (if copy4args_ca_count args =? 0 then _ else _) with (copied_bytes args ds) in E. cbv zeta in E.
  assert (Hc : copied_bytes args ds = 0 \/ 0 < copied_bytes args ds <= size_of ds - copy4args_ca_src_offset args).
  { unfold copied_bytes, sat_sub, size_of. cbv zeta. destruct (copy4args_ca_count args =? 0) eqn:?; lia. }
  assert (Hc12 : forall q, contents w2 q = contents w q) by (intros q; by rewrite Hc2, Hc1).
  destruct (copied_bytes args ds =? 0) eqn:E0.
  - assert (H0 : copied_bytes args ds = 0) by lia. rewrite H0. unfold copy_answer, answer in *. simplify_eq.
    split; [done|]. rewrite app_nil_r, Hc12. split; [done|]. intros q _. apply Hc12.
  - assert (Hpos : 0 < copied_bytes args ds <= size_of ds - copy4args_ca_src_offset args) by (destruct Hc; [lia|done]).
    destruct (copy_data_appends args r dst f (file src) ds dd w2 resp w' _ Hf2 ltac:(by rewrite Hc12) ltac:(by rewrite Hc12)
      Hsame Ho Hdo Hpos E Hst) as (Hans & Hp & Hother).
    split; [done|]. split; [done|]. intros q Hq. by rewrite Hother.
Qed.

(** ** WRITE *)

Lemma overwrite_end d l : overwrite d l (length d) = d ++ l.
Proof.
  unfold overwrite. rewrite Nat.sub_diag, app_nil_r, take_ge by lia. rewrite drop_ge by lia. by rewrite app_nil_r.
Qed.

Lemma overwrite_range d l n : take (length l) (drop n (overwrite d l n)) = l.
Proof.
  unfold overwrite. assert (Hn : length (take n (d ++ replicate (n - length d) x00)) = n).
  { rewrite length_take, length_app, length_replicate. lia. }
  rewrite drop_app_length' by done. by rewrite take_app_length.
Qed.

Lemma overwrite_outside d l n i :
  (i < n \/ n + length l <= i)%nat -> (i < length d)%nat -> overwrite d l n !! i = d !! i.
Proof.
  intros Hi Hd. unfold overwrite. assert (Hn : length (take n (d ++ replicate (n - length d) x00)) = n).
  { rewrite length_take, length_app, length_replicate. lia. }
  destruct Hi as [Hi|Hi].
  - rewrite lookup_app_l by lia. rewrite lookup_take_lt by done. by rewrite lookup_app_l.
  - rewrite lookup_app_r by lia. rewrite lookup_app_r by lia. rewrite lookup_drop. f_equal. lia.
Qed.

Lemma write_and_sync_exact (opened : option F * W) write n p d' w k w' :
  (forall f w1 w2, opened = (Some f, w1) -> write f w1 = (true, w2) ->
    leaves f p d' w w2 /\ exists b m, open_on f p b m w2) ->
  write_and_sync opened write n = (Some k, w') -> k = wrap 32 n /\
  contents w' p = Some d' /\ forall q, same_file p q = false -> contents w' q = contents w q.
Proof.
  intros Hw E. unfold write_and_sync, and_then in E. destruct opened as [[f|] w1]; [|done].
  destruct (write f w1) as [[] w2] eqn:E2; [|done]. destruct (Hw f w1 w2 eq_refl E2) as ((Hp & Hother & _) & b & m & Hf).
  destruct (file_sync_all f w2) as [[] w3] eqn:E3; [|done]. destruct (sync_law _ _ _ _ _ _ _ Hf E3) as [Hc _].
  simplify_eq. rewrite Hc. split; [done|]. split; [done|]. intros q Hq. rewrite Hc. by apply Hother.
Qed.

Lemma leaves_opened f p d b o w0 w1 w2 : opens p b o w0 w1 -> leaves f p d w1 w2 -> leaves f p d w0 w2.
Proof.
  intros (Ho & Hk & _) (Hp & Hq & Hg). split; [done|]. split; [intros q Hs; by rewrite Hq|].
  intros g q b' m Hne Hopen. by apply Hg, Hk.
Qed.

Lemma write_through_exact args fm (fh : FH) d w k w' :
  contents w (file fh) = Some d -> names (handle_real_path fm (vfs_as_str (file fh))) (file fh) ->
  0 <= write4args_offset args -> write_through args fm fh w = (Some k, w') ->
  k = wrap 32 (size_of (write4args_data args)) /\
  contents w' (file fh) = Some (overwrite d (write4args_data args) (Z.to_nat (write4args_offset args))) /\
  forall q, same_file (file fh) q = false -> contents w' q = contents w q.
Proof.
  intros Hd Hn Ho E. unfold write_through in E. cbv zeta in E.
  rewrite (fs_exists_law _ _ d _ Hn Hd), (fs_len_law _ _ d _ Hn Hd) in E.
  cbn [default from_option] in E. unfold Datatypes.id in E.
  destruct (_ =? _) eqn:Eoff.
  - refine (write_and_sync_exact _ _ _ _ _ w _ _ _ E). intros f w1 w2 E1 E2.
    pose proof (fs_append_law _ _ _ _ _ Hn E1) as Hop. destruct Hop as (Hc & Hk & Hf). destruct (Hf f eq_refl) as [Hf1 _].
    destruct (append_all _ _ _ d _ _ _ Hf1 ltac:(by rewrite Hc) E2) as (Hl & m & Hf2). split; [|by exists true, m].
    assert (Heq : Z.to_nat (write4args_offset args) = length d) by (unfold size_of in Eoff; lia).
    rewrite Heq, overwrite_end. by eapply leaves_opened.
  - refine (write_and_sync_exact _ _ _ _ _ w _ _ _ E). intros f w1 w2 E1 E2.
    pose proof (fs_write_law _ _ _ _ _ Hn E1) as Hop. destruct Hop as (Hc & Hk & Hf). destruct (Hf f eq_refl) as [Hf1 _].
    destruct (write_all_at_law _ _ d _ _ _ _ _ Hf1 ltac:(by rewrite Hc) Ho E2) as (Hl & Hf2).
    split; [|by exists false, 0]. by eapply leaves_opened.
Qed.

(** C11: A stable WRITE leaves a file with the data over its old bytes from the offset (with
    zeros before it if it was shorter), which a read of that range gives back, and every
    byte outside the range and every other file as they were; it reports every byte as
    written to stable storage. *)
Theorem write_exact args (r : Req) w fh fm d resp w' :
  filehandle r = Some fh -> cached_fmanager r = Some fm -> contents w (file fh) = Some d ->
  names (handle_real_path fm (vfs_as_str (file fh))) (file fh) ->
  0 <= write4args_offset args -> size_of (write4args_data args) < 2 ^ 32 -> write4args_stable args <> Unstable4 ->
  op_write args r w = Some (resp, w') -> status resp = Nfs4Ok ->
  op_result resp = Some (ResOpwrite (Write4res_Resok4 (MkWrite4resok (size_of (write4args_data args)) FileSync4
    (verifier_from_boot (boot_time r))))) /\
  (exists d', contents w' (file fh) = Some d' /\
    take (length (write4args_data args)) (drop (Z.to_nat (write4args_offset args)) d') = write4args_data args /\
    forall i, (i < length d)%nat -> (i < Z.to_nat (write4args_offset args) \/
      Z.to_nat (write4args_offset args) + length (write4args_data args) <= i)%nat -> d' !! i = d !! i) /\
  forall q, same_file (file fh) q = false -> contents w' q = contents w q.
Proof.
  intros Hfh Hfm Hd Hn Ho Hlen Hst E Hs. unfold op_write in E. rewrite Hfh, Hfm in E. cbv zeta in E.
  destruct (_ && _); [unfold fail in E; by simplify_eq|]. rewrite bool_decide_eq_false_2 in E by done.
  cbn [mbind option_bind] in E. destruct (write_through args fm fh w) as [[k|] w1] eqn:E1; [|unfold fail in E; by simplify_eq].
  destruct (write_through_exact _ _ _ _ _ _ _ Hd Hn Ho E1) as (-> & Hp & Hother).
  rewrite wrap_small in E by (unfold in_width, size_of in *; lia). unfold write_answer, answer in E. simplify_eq.
  set (touched := if 0 <? size_of (write4args_data args) then touch_file fm (fh_id fh) w1 else w1).
  assert (Ht : forall q, contents touched q = contents w1 q).
  { intros q. unfold touched. case_match; [apply touch_apart|done]. }
  assert (Hw : forall (u : W) (q : P), contents (if 0 <? size_of (write4args_data args) then
    update_quota r (fun m => record_write m (size_of (write4args_data args))) u else u) q = contents u q).
  { intros u q. case_match; [apply update_quota_contents|done]. }
  split; [done|]. split.
  - eexists. split; [by rewrite Hw, update_stats_contents, Ht, Hp|]. split; [apply overwrite_range|].
    intros i Hi Hout. by apply overwrite_outside.
  - intros q Hq. by rewrite Hw, update_stats_contents, Ht, Hother.
Qed.

End FileSpec.
