(* ===== verification/DirSpec.v ===== *)
(** * Listing a directory

    READDIR gives a page of a directory's names: [readdir_reply] says which, and when the
    reply ends the listing. [ServerFiles] has it for the server. *)

From S2P Require Import Prelude NfsTypes Rpc MultiIndex Locking FileManager Export ClientManager Request Perm.
From S2P Require Import Compound Handle OpsState OpsAttr OpsDir.
From stdpp Require Import base list gmap strings.
From Stdlib Require Import Strings.Byte ZArith Lia.
#[local] Open Scope Z_scope.

Section DirSpec.
Context {W P C Fm F : Type} `{V : !Vfs W P C} `{A : !Actors W P C Fm} `{CH : !Channels W P C Fm}
        `{IO : !FileIo W P F} `{SH : !Shared W Fm}.
#[local] Abbreviation FH := (Filehandle P C).

(** The entries READDIR may show. *)
Definition shown (dir : list P) : list P := filter (fun e => hidden_name (vfs_filename e) = false) dir.

(** The names [l] fit into a reply that has taken [dc] and [mc] of its limits. *)
Definition names_size (l : list string) : Z := foldr (fun nm n => 13 + Z.of_nat (String.length nm) + n) 0 l.
Definition fits (args : Readdir4args) (dc mc : Z) (l : list string) : Prop :=
  readdir4args_dircount args = 0 \/
  (dc + names_size l < readdir4args_dircount args /\ mc + 200 * Z.of_nat (length l) < readdir4args_maxcount args).

(** The reply is full: no further entry fits. *)
Definition full (args : Readdir4args) (dircount maxcount : Z) : Prop :=
  readdir4args_dircount args <> 0 /\
  (readdir4args_dircount args <= dircount \/ readdir4args_maxcount args <= maxcount).

Lemma shown_hidden e dir : hidden_name (vfs_filename e) = true -> shown (e :: dir) = shown dir.
Proof. intros H. unfold shown. rewrite filter_cons_False; [done|congruence]. Qed.

Lemma shown_visible e dir : hidden_name (vfs_filename e) = false -> shown (e :: dir) = e :: shown dir.
Proof. intros H. unfold shown. by rewrite filter_cons_True. Qed.

(** One turn of the loop over a name that is shown. *)
Lemma readdir_entries_turn fm args e dir idx dc mc w x w' :
  hidden_name (vfs_filename e) = false -> readdir_entries fm args (e :: dir) idx dc mc w = Some (Some x, w') ->
  exists dc' mc' more names fhs w1, x = (vfs_filename e :: names, more ++ fhs) /\
    readdir_entries fm args dir (idx + 1) dc' mc' w1 = Some (Some (names, fhs), w') /\
    (dc <= dc' /\ mc <= mc') /\
    (if readdir4args_cookie args <=? idx + 2 then dc' = dc + 13 + Z.of_nat (String.length (vfs_filename e)) /\ mc + 200 = mc' else dc' = dc /\ mc' = mc) /\
    ((readdir4args_cookie args <= idx + 2 /\ ~ full args dc' mc' /\
       exists fm' fh, fm = Some fm' /\ more = [(idx + 3, fh)] /\ get_filehandle_for_path fm' (vfs_as_str e) w = (Ok fh, w1)) \/
     (more = [] /\ w1 = w /\ (idx + 2 < readdir4args_cookie args \/ full args dc' mc'))).
Proof.
  intros Hh E. cbn [readdir_entries] in E. rewrite Hh in E. cbv zeta in E.
  set (counted := readdir4args_cookie args <=? idx + 2) in *.
  set (dc' := if counted then _ else dc) in *. set (mc' := if counted then _ else mc) in *.
  assert (Hd : dc <= dc' /\ mc <= mc') by (unfold dc', mc'; destruct counted; lia).
  assert (Hd2 : if counted then dc' = dc + 13 + Z.of_nat (String.length (vfs_filename e)) /\ mc + 200 = mc' else dc' = dc /\ mc' = mc).
  { unfold dc', mc'. destruct counted; [|done]. lia. }
  destruct (counted && _) eqn:Ew.
  - destruct fm as [fm|]; [|done]. cbn [mbind option_bind] in E.
    destruct (get_filehandle_for_path fm (vfs_as_str e) w) as [[fh|s] w1] eqn:Ef; [|by simplify_eq].
    apply bind_Some in E as ([rest w2] & Er & E). destruct rest as [[names fhs]|]; simplify_eq.
    exists dc', mc', [(idx + 3, fh)], names, fhs, w1. split; [done|]. split; [done|]. split; [done|]. split; [done|]. left.
    apply andb_true_iff in Ew as [Hc Hw]. split; [unfold counted in Hc; lia|]. split; [unfold full; lia|].
    by exists fm, fh.
  - cbn [mbind option_bind] in E. apply bind_Some in E as ([rest w2] & Er & E). destruct rest as [[names fhs]|]; simplify_eq.
    exists dc', mc', [], names, fhs, w. split; [done|]. split; [done|]. split; [done|]. split; [done|]. right. split; [done|]. split; [done|].
    apply andb_false_iff in Ew as [Hc|Hw]; [left; unfold counted in Hc; lia|right; unfold full; lia].
Qed.

Lemma full_grows args dc mc dc' mc' : full args dc mc -> dc <= dc' -> mc <= mc' -> full args dc' mc'.
Proof. intros [H1 H2] ? ?. split; [done|lia]. Qed.

(** A full reply stays as it is. *)
Lemma readdir_entries_full fm args dir idx dc mc w names fhs w' :
  full args dc mc -> readdir_entries fm args dir idx dc mc w = Some (Some (names, fhs), w') -> fhs = [].
Proof.
  revert idx dc mc w names fhs. induction dir as [|e dir IH]; intros idx dc mc w names fhs Hf E.
  - by simplify_eq/=.
  - destruct (hidden_name (vfs_filename e)) eqn:Hh.
    { cbn [readdir_entries] in E. rewrite Hh in E. by eapply IH. }
    apply readdir_entries_turn in E as (dc' & mc' & more & nm & l & w1 & Ex & Er & [Hdc Hmc] & _ & Hm); [|done].
    injection Ex as -> ->. assert (Hf' : full args dc' mc') by by eapply full_grows.
    destruct Hm as [(_ & Hn & _)|(-> & _ & _)]; [done|]. simpl. by eapply IH.
Qed.

Lemma full_fits args dc mc nm l :
  full args (dc + 13 + Z.of_nat (String.length nm)) (mc + 200) -> ~ fits args dc mc (nm :: l).
Proof.
  assert (Hpos : 0 <= names_size l) by (unfold names_size; induction l; simpl; lia).
  intros [H1 H2] [H3|[H3 H4]]; [done|]. unfold names_size in *. cbn [foldr length] in *. lia.
Qed.

Lemma fits_cons args dc mc nm l :
  fits args dc mc (nm :: l) <-> fits args (dc + 13 + Z.of_nat (String.length nm)) (mc + 200) l.
Proof. unfold fits, names_size. cbn [foldr length]. lia. Qed.

Section Page.
Context (fm : Fm) (I : W -> Prop) (listed : P -> Prop).
(** A lookup by an entry's path finds an object of the entry's name. *)
Hypothesis named : forall e w r w', I w -> listed e -> get_filehandle_for_path fm (vfs_as_str e) w = (r, w') ->
  I w' /\ forall fh, r = Ok fh -> vfs_filename (file fh) = vfs_filename e.

(** What the loop lists of the names from [idx] on, with [dc] and [mc] taken. *)
Lemma readdir_entries_page args dir idx dc mc w names fhs w' :
  I w -> Forall listed dir ->
  readdir_entries (Some fm) args dir idx dc mc w = Some (Some (names, fhs), w') ->
  names = vfs_filename <$> shown dir /\ I w' /\
  let skip := Z.to_nat (readdir4args_cookie args - 2 - idx) in
  let n := length fhs in
  fhs.*1 = (fun i => idx + Z.of_nat i + 3) <$> seq skip n /\
  (fun x => vfs_filename (file x.2)) <$> fhs = take n (drop skip names) /\
  (n = 0%nat \/ fits args dc mc (take n (drop skip names))) /\
  ((n < length (drop skip names))%nat -> ~ fits args dc mc (take (S n) (drop skip names))).
Proof.
  revert idx dc mc w names fhs. induction dir as [|e dir IH]; intros idx dc mc w names fhs Hw Hdir E.
  { simplify_eq/=. rewrite drop_nil. split; [done|]. split; [done|]. split; [done|]. split; [done|]. split; [by left|]. simpl. lia. }
  apply Forall_cons in Hdir as [He Hdir]. destruct (hidden_name (vfs_filename e)) eqn:Hh.
  { cbn [readdir_entries] in E. rewrite Hh in E. rewrite shown_hidden by done. by eapply IH. }
  rewrite shown_visible by done.
  apply readdir_entries_turn in E as (dc' & mc' & more & nm & l & w1 & Ex & Er & _ & Hd & Hm); [|done].
  injection Ex as -> ->. cbn [fmap list_fmap]. cbv zeta.
  set (skip := Z.to_nat (readdir4args_cookie args - 2 - idx)).
  destruct (decide (idx + 2 < readdir4args_cookie args)) as [Hlt|Hge].
  - destruct Hm as [(Hc & _)|(-> & -> & _)]; [lia|]. rewrite (proj2 (Z.leb_gt _ _) Hlt) in Hd. destruct Hd as [-> ->].
    destruct (IH _ _ _ _ _ _ Hw Hdir Er) as (-> & Hw' & Hc & Hrest). cbv zeta in Hc, Hrest.
    assert (Hs : skip = S (Z.to_nat (readdir4args_cookie args - 2 - (idx + 1)))) by (unfold skip; lia). rewrite Hs.
    split; [done|]. split; [done|]. cbn [app drop]. split; [|exact Hrest]. rewrite Hc, <- fmap_S_seq, <- list_fmap_compose.
    apply list_fmap_ext. intros ? ? ?. simpl. lia.
  - rewrite (proj2 (Z.leb_le _ _)) in Hd by lia. destruct Hd as [-> <-].
    assert (Hs : skip = 0%nat) by (unfold skip; lia). rewrite Hs. cbn [drop].
    destruct Hm as [(_ & Hn & fm' & fh & [= <-] & -> & Hf)|(-> & -> & Hm)].
    + destruct (named e w (Ok fh) w1 Hw He Hf) as [Hw1 Hname]. specialize (Hname fh eq_refl).
      destruct (IH _ _ _ _ _ _ Hw1 Hdir Er) as (-> & Hw' & Hc & Hnm & Hfit & Hmax). cbv zeta in *.
      replace (Z.to_nat (readdir4args_cookie args - 2 - (idx + 1))) with 0%nat in * by lia. cbn [drop] in *.
      split; [done|]. split; [done|]. cbn [app length seq take]. rewrite !fmap_cons. split; [|split; [f_equal; [exact Hname|exact Hnm]|split]].
      * f_equal; [simpl; lia|]. rewrite Hc, <- fmap_S_seq, <- list_fmap_compose. apply list_fmap_ext. intros ? ? ?. simpl. lia.
      * right. apply fits_cons. destruct Hfit as [Hz|Hfit]; [|done]. rewrite Hz. clear -Hn. unfold fits, names_size, full in *. rewrite take_0. cbn [foldr length]. rewrite Z.mul_0_r.
        destruct (decide (readdir4args_dircount args = 0)); [by left|right]; lia.
      * cbn [length]. intros Hl Hf2%fits_cons. rewrite drop_0 in Hmax. apply Hmax; [lia|exact Hf2].
    + destruct Hm as [Hm|Hf]; [lia|]. pose proof (readdir_entries_full _ _ _ _ _ _ _ _ _ _ Hf Er) as ->.
      destruct (IH _ _ _ _ _ _ Hw Hdir Er) as (-> & Hw' & _). cbn [app length seq take].
      split; [done|]. split; [done|]. split; [done|]. split; [done|]. split; [by left|]. intros _. cbn [take]. by apply full_fits.
Qed.

Lemma readdir_attrs_entries w args q fhs entries :
  readdir_attrs (Some fm) w args q fhs = Some entries ->
  (fun e => e.1.1) <$> entries = fhs.*1 /\ (fun e => e.1.2) <$> entries = (fun x => vfs_filename (file x.2)) <$> fhs.
Proof.
  intros E%mapM_Some. induction E as [|[c fh] y fhs entries Hx _ [IH1 IH2]]; [done|].
  apply bind_Some in Hx as (fm' & [= <-] & Hx). apply bind_Some in Hx as ([m v] & _ & [= <-]).
  rewrite !fmap_cons. simpl. by rewrite IH1, IH2.
Qed.

(** The reply of READDIR in a directory of an export. *)
Definition listing (args : Readdir4args) (names : list string) (resp : NfsOpResponse (P:=P) (C:=C) (Fm:=Fm)) : Prop :=
  let rest := drop (Z.to_nat (readdir4args_cookie args - 2)) names in
  let verf := raw_cookieverf names in
  match op_result resp with
  | Some res =>
    status resp = Nfs4Ok /\ (readdir4args_cookie args = 0 \/ verf = readdir4args_cookieverf args) /\
    exists entries eof,
      res = ResOpreaddir (ReadDir4res_Resok4 (MkReadDir4resok (pad_cookieverf verf) (MkDirList4 (link_entries entries) eof))) /\
      let n := length entries in
      (fun e => e.1.2) <$> entries = take n rest /\
      (fun e => e.1.1) <$> entries = (fun i => Z.of_nat i + 3) <$> seq (Z.to_nat (readdir4args_cookie args - 2)) n /\
      (n = 0%nat \/ fits args 0 128 (take n rest)) /\ ((n < length rest)%nat -> ~ fits args 0 128 (take (S n) rest)) /\
      (eof = true <-> n = 0%nat \/ (length rest <= n)%nat)
  | None =>
    (status resp = Nfs4errNotSame /\ readdir4args_cookie args <> 0 /\ verf <> readdir4args_cookieverf args) \/
    status resp = Nfs4errFhexpired \/ status resp = Nfs4errServerfault
  end.

Lemma readdir_reply parse_ip parse_socket args (r : NfsRequest P C Fm) w dir_fh dir resp w' :
  I w -> Forall listed dir -> is_pseudo_root r = false -> filehandle r = Some dir_fh ->
  vfs_read_dir w (file dir_fh) = Some dir -> cached_fmanager r = Some fm ->
  op_readdir parse_ip parse_socket args r w = Some (resp, w') ->
  listing args (vfs_filename <$> shown dir) resp.
Proof.
  intros Hw Hdir Hp Hfh Hd Hfm. unfold op_readdir, listing. rewrite Hp, Hfh, Hd, Hfm.
  destruct (readdir_entries (Some fm) args dir 0 0 128 w) as [[[[names fhs]|] w1]|] eqn:E; [| |done].
  2: { intros [= <- <-]. right. by left. }
  cbn [mbind option_bind]. destruct (readdir_entries_page _ _ _ _ _ _ _ _ _ Hw Hdir E) as (<- & _ & Hc & Hnm & Hfit & Hmax).
  rewrite Z.sub_0_r in Hc, Hnm, Hfit, Hmax.
  destruct (negb (readdir4args_cookie args =? 0) && negb (bool_decide (raw_cookieverf names = readdir4args_cookieverf args))) eqn:Ev.
  { apply andb_true_iff in Ev as [Hz%negb_true_iff%Z.eqb_neq Hv%negb_true_iff%bool_decide_eq_false]. intros [= <- <-]. by left. }
  destruct (readdir_attrs (Some fm) w1 args (quota_info r w1) fhs) as [entries|] eqn:Ea.
  2: { intros [= <- <-]. right. by right. }
  intros [= <- <-]. cbn [op_result status]. split; [done|]. split.
  { apply andb_false_iff in Ev as [Hz%negb_false_iff%Z.eqb_eq|Hv%negb_false_iff%bool_decide_eq_true]; [by left|by right]. }
  exists entries, (readdir_eof entries names). split; [done|]. apply readdir_attrs_entries in Ea as [E1 E2].
  assert (Hl : length entries = length fhs) by (by apply (f_equal length) in E1; rewrite !length_fmap in E1). cbv zeta.
  rewrite E1, E2, Hl. split; [done|]. split; [rewrite Hc; apply list_fmap_ext; intros ? ? ?; lia|]. split; [done|]. split; [done|].
  unfold readdir_eof. destruct entries as [|[[c nm] a] entries]; [destruct fhs; [|done]; split; [by left|done]|].
  destruct fhs as [|x fhs]; [done|]. cbn in E1. injection E1 as Ec _. cbn [length seq] in Hc. rewrite !fmap_cons in Hc.
  injection Hc as Hx _. rewrite length_drop, Z.leb_le, Hl, Ec, Hx. cbn [length].
  assert (Hlen : (S (length fhs) <= length names - Z.to_nat (readdir4args_cookie args - 2))%nat).
  { apply (f_equal length) in Hnm. rewrite length_fmap, length_take, length_drop in Hnm. cbn [length] in Hnm. lia. }
  split; [intros; right; lia|intros [?|?]; lia].
Qed.
End Page.

(** Limits too small for one name are not refused: a dircount of at most 13 bytes, or
    any with a maxcount of at most 328, answers every directory with no entries and eof, as
    if it were empty. *)
Theorem readdir_small_limit fm args dir w names fhs w' :
  0 < readdir4args_dircount args -> readdir4args_dircount args <= 13 \/ readdir4args_maxcount args <= 328 ->
  readdir_entries fm args dir 0 0 128 w = Some (Some (names, fhs), w') ->
  fhs = [] /\ readdir_eof [] names = true.
Proof.
  intros Hpos Hlim E. split; [|done]. revert E. generalize 0 at 1 as idx. revert w names fhs.
  induction dir as [|e dir IH]; intros w names fhs idx E; [by simplify_eq/=|].
  destruct (hidden_name (vfs_filename e)) eqn:Hh; [cbn [readdir_entries] in E; rewrite Hh in E; by eapply IH|].
  apply readdir_entries_turn in E as (dc' & mc' & more & nm & l & w1 & Ex & Er & _ & Hd & Hm); [|done].
  injection Ex as -> ->. destruct (readdir4args_cookie args <=? idx + 2) eqn:Hc.
  - assert (Hf : full args dc' mc') by (split; lia).
    destruct Hm as [(_ & Hn & _)|(-> & _ & _)]; [done|]. by eapply readdir_entries_full.
  - destruct Hd as [-> ->]. destruct Hm as [(Hc' & _)|(-> & _ & _)]; [lia|]. by eapply IH.
Qed.

End DirSpec.
