(* ===== verification/Server.v ===== *)
(** * The whole server ([nfs/src/lib.rs], [nfs40.rs])

    The components put together: the export table, a file manager per export, the client
    manager, the session table, the counters and rate limiters of the exports and the outside world
    ([O]: file system, clock, generator). A call of an actor is one turn of
    its handler on the state held here, so the interfaces of [FileManager], [Request],
    [Handle], [OpsAttr] and [Ops41] all have their instance, and [Promises] holds for it.
    [server_step] is what any task does to what the tasks share, down to one action of a
    running COMPOUND (a message of an actor, a call of the file system, one access to a
    counter, a limiter or the session table); so the reachable states are those at any
    moment, in the middle of COMPOUNDs too, and they keep every component's invariant
    ([server_components_ok]). [Interleave] has COMPOUNDs that take these steps by turns. *)

From S2P Require Import Prelude NfsTypes Rpc MultiIndex Locking FileManager FileManagerProofs FileManagerSpec.
From S2P Require Import F64 RateLimiter Export ClientManager ClientManagerSpec Request Perm Compound Handle OpsState OpsAttr.
From S2P Require Import OpsFile OpsDir Ops41 Execute OpsContract OpsSound.
From S2P Require Sessions.
From stdpp Require Import base list gmap strings.
From Stdlib Require Import Strings.Byte ZArith Lia.
#[local] Open Scope Z_scope.

(** A [FileManagerHandle]: the export whose manager answers, and its root. *)
Record ManagerHandle : Type := MkManagerHandle { manager_export : Z; manager_root : string }.

(** The rest of the outside world: caches, the system clock, the C library. *)
Class Outside (O P C : Type) : Type := {
  cache_write : C -> Z -> list byte -> O -> O;
  cache_commit : C -> O -> list (Z * list byte * bool) * O;
  clock : O -> Z;
  memory_root : P;
  out_lchown : O -> string -> Z -> Z -> bool * O;
  out_in_grace : O -> bool
}.

Section Server.
Context {O P C L H M F : Type}.
Context `{V : !Vfs O P C} `{ML : !MultiIndex LockingState L lock_clash}
        `{MH : !MultiIndex (Filehandle P C) H fh_clash} `{CW : !ClientWorld O}
        `{MC : !MultiIndex ClientEntry M client_clash} `{IO : !FileIo O P F} `{OUT : !Outside O P C}.
#[local] Abbreviation FM := (FileManager P C L H).
#[local] Abbreviation Table := (ExportManager ManagerHandle).

Record Server : Type := MkServer {
  outside_world : O;
  table : Table;
  managers : gmap Z FM;
  clients : ClientManager.ClientManager M;
  stats : gmap Z ExportStats;
  session_table : option Sessions.SessionManager;
  limiters : gmap Z RateLimiter;
  qos_tasks : list QosTask
}.

Definition set_outside (s : Server) (o : O) : Server :=
  MkServer o (table s) (managers s) (clients s) (stats s) (session_table s) (limiters s) (qos_tasks s).
Definition set_table (s : Server) (t : Table) : Server :=
  MkServer (outside_world s) t (managers s) (clients s) (stats s) (session_table s) (limiters s) (qos_tasks s).
Definition set_managers (s : Server) (m : gmap Z FM) : Server :=
  MkServer (outside_world s) (table s) m (clients s) (stats s) (session_table s) (limiters s) (qos_tasks s).
Definition set_clients (s : Server) (c : ClientManager.ClientManager M) : Server :=
  MkServer (outside_world s) (table s) (managers s) c (stats s) (session_table s) (limiters s) (qos_tasks s).
Definition set_export_stats (s : Server) (x : gmap Z ExportStats) : Server :=
  MkServer (outside_world s) (table s) (managers s) (clients s) x (session_table s) (limiters s) (qos_tasks s).
Definition set_session_table (s : Server) (t : option Sessions.SessionManager) : Server :=
  MkServer (outside_world s) (table s) (managers s) (clients s) (stats s) t (limiters s) (qos_tasks s).
Definition set_limiters (s : Server) (l : gmap Z RateLimiter) : Server :=
  MkServer (outside_world s) (table s) (managers s) (clients s) (stats s) (session_table s) l (qos_tasks s).
Definition set_qos_tasks (s : Server) (l : list QosTask) : Server :=
  MkServer (outside_world s) (table s) (managers s) (clients s) (stats s) (session_table s) (limiters s) l.

(** ** The interfaces *)

(** A call of the outside world. *)
Definition lift {R} (f : O -> R * O) (s : Server) : R * Server :=
  let '(x, o) := f (outside_world s) in (x, set_outside s o).

#[export] Instance server_vfs : Vfs Server P C := {|
  vfs_as_str := vfs_as_str;
  vfs_parent := vfs_parent;
  vfs_join := vfs_join;
  vfs_exists s := vfs_exists (outside_world s);
  vfs_is_dir s := vfs_is_dir (outside_world s);
  vfs_len s := vfs_len (outside_world s);
  vfs_create_file s p := lift (fun o => vfs_create_file o p) s;
  vfs_create_dir s p := lift (fun o => vfs_create_dir o p) s;
  vfs_remove_file s p := lift (fun o => vfs_remove_file o p) s;
  vfs_remove_dir s p := lift (fun o => vfs_remove_dir o p) s;
  vfs_move_file s p q := lift (fun o => vfs_move_file o p q) s;
  from_path s := from_path (outside_world s);
  fs_read_dir s := fs_read_dir (outside_world s);
  current_time s := current_time (outside_world s);
  default_hash := default_hash;
  cache_spawn s x p i e := lift (fun o => cache_spawn o x p i e) s
|}.

#[export] Instance server_io : FileIo Server P F := {|
  vfs_open_file p := lift (vfs_open_file p);
  vfs_append_file p := lift (vfs_append_file p);
  vfs_is_file s := vfs_is_file (outside_world s);
  vfs_filename := vfs_filename;
  vfs_read_dir s := vfs_read_dir (outside_world s);
  vfs_move_dir s p q := lift (fun o => vfs_move_dir o p q) s;
  file_seek_end f := lift (file_seek_end f);
  file_seek f n := lift (file_seek f n);
  file_read f n := lift (file_read f n);
  file_read_exact f n := lift (file_read_exact f n);
  file_write f d := lift (file_write f d);
  file_write_all f d := lift (file_write_all f d);
  file_write_all_at f d n := lift (file_write_all_at f d n);
  file_flush f := lift (file_flush f);
  file_sync_all f := lift (file_sync_all f);
  fs_exists s := fs_exists (outside_world s);
  fs_metadata_len s := fs_metadata_len (outside_world s);
  fs_open_append n := lift (fs_open_append n);
  fs_open_write n := lift (fs_open_write n);
  fs_open_create n := lift (fs_open_create n);
  fs_read_link s := fs_read_link (outside_world s);
  fs_symlink a b := lift (fs_symlink a b);
  fs_hard_link a b := lift (fs_hard_link a b);
  fs_rename a b := lift (fs_rename a b);
  libc_chown n u g := lift (libc_chown n u g);
  libc_chmod n m := lift (libc_chmod n m);
  libc_utimens_now n := lift (libc_utimens_now n)
|}.

(** One turn of an export's manager. A manager that panics is gone: its channel closes. *)
Definition call_manager (h : ManagerHandle) (m : FileManagerMessage P C) (s : Server)
    : option (FileManagerReply P C) * Server :=
  match managers s !! manager_export h with
  | None => (None, s)
  | Some fm =>
    match handle_message m fm (outside_world s) with
    | Some (reply, fm, o) =>
      (Some reply, set_outside (set_managers s (<[manager_export h := fm]> (managers s))) o)
    | None => (None, set_managers s (delete (manager_export h) (managers s)))
    end
  end.

(** One turn of the client manager, which catches panics. *)
Definition call_clients (m : ClientManagerMessage) (s : Server) : option ClientManagerReply * Server :=
  let '(reply, c, o) := client_handle_message m (clients s) (outside_world s) in
  (reply, set_outside (set_clients s c) o).

(** [commit] of a write cache: what the cache does when it has handled its messages before,
    and then tells the file manager that made it: that the file was written, if there was
    anything to write, and that it is done with the filehandle. *)
Definition hear_cache (s : Server) (told : Z * list byte * bool) : Server :=
  let '(x, i, written) := told in
  let s := if written : bool then (call_manager (MkManagerHandle x "") (TouchFile i) s).2 else s in
  (call_manager (MkManagerHandle x "") (DropWriteCacheHandle i) s).2.

Definition commit_cache (c : C) (s : Server) : Server :=
  let '(told, o) := cache_commit c (outside_world s) in fold_left hear_cache told (set_outside s o).

#[export] Instance server_channels : Channels Server P C ManagerHandle := {|
  fm_call := call_manager;
  cm_call := call_clients;
  wc_write_bytes c n d s := set_outside s (cache_write c n d (outside_world s));
  wc_commit := commit_cache
|}.

Definition found (x : result (Filehandle P C) NfsStat4 * Server) : option (Filehandle P C) * Server :=
  (match x.1 with Ok fh => Some fh | Err _ => None end, x.2).

#[export] Instance server_actors : Actors Server P C ManagerHandle := {|
  list_exports s := map (fun p => info p.2) (map_to_list (exports (table s)));
  export_by_id_of s := get_export_by_id (table s);
  access_of s x :=
    match get_export_by_id (table s) x with
    | Some (i, _) => Export.access_control i
    | None => MkAccessControl default_access_config []
    end;
  fm_export_root := manager_root;
  fm_root_filehandle h s := found (get_root_filehandle h s);
  fm_filehandle_for_id h i s := found (get_filehandle_for_id h i s);
  fm_filehandle_for_path h p s := found (get_filehandle_for_path h p s);
  fm_update_filehandle h fh s := handle_update_filehandle h fh s;
  system_time s := clock (outside_world s);
  memory_fs_root := memory_root
|}.

(** The quota of an export is shared by its entry and the requests. *)
Definition with_quota_manager (q : QuotaManager) (st : ExportState ManagerHandle) : ExportState ManagerHandle :=
  let i := info st in
  MkExportState (MkExportInfo (Export.export_id i) (Export.name i) (export_path i) (Export.read_only i) q
    (Export.access_control i)) (file_manager st).

Definition put_quota (x : Z) (q : QuotaManager) (t : Table) : Table :=
  match export_by_id t !! x with
  | Some nm => (set_config (with_quota_manager q) t nm).2
  | None => t
  end.

#[export] Instance server_shared : Shared Server ManagerHandle := {|
  export_by_name_of s := get_export_by_name (table s);
  quota_of s x :=
    match get_export_by_id (table s) x with
    | Some (i, _) => Export.quota_manager i
    | None => MkQuotaManager (MkQuotaConfig 0 0) 0
    end;
  set_quota x q s := set_table s (put_quota x q (table s));
  stats_of s x := default ExportStats_new (stats s !! x);
  set_stats x v s := set_export_stats s (<[x := v]> (stats s))
|}.

#[export] Instance server_sessions : SessionStore Server := {|
  session_manager := session_table;
  put_session_manager m s := set_session_table s (Some m)
|}.

(** The limiter of an export, by the export's id, which is its own: [add_export] makes one
    without limits. *)
Definition limiter_of (s : Server) (t x : Z) : RateLimiter := default (RateLimiter_new t (MkQosConfig 0 0)) (limiters s !! x).

(** The dispatcher's [try_consume], under the limiter's lock. *)
Definition server_try_consume (s : Server) (x bytes : Z) : bool * Server :=
  let '(t, o) := now (outside_world s) in
  let '(ok, rl) := try_consume t bytes (limiter_of s t x) in
  (ok, set_limiters (set_outside s o) (<[x := rl]> (limiters s))).

(** A spawned task gets the lock; what [AnswerQos] sends is the limiter's configuration. *)
Definition run_qos_task (t : QosTask) (s : Server) : Server :=
  match t with
  | UpdateQos x c =>
    let '(t, o) := now (outside_world s) in
    set_limiters (set_outside s o) (<[x := qos_update_config t c (limiter_of s t x)]> (limiters s))
  | AnswerQos _ => s
  end.

(** ** What the server does *)

Section Steps.
Variable canonicalize : string -> option string.
Variable is_dir : string -> bool.
Variable export_vfs : string -> P.
Variable parse_ip parse_socket : string -> option IpAddr.
Variable getpwnam getgrnam : string -> option Z.

#[local] Abbreviation handle_export :=
  (export_handle_message canonicalize is_dir MkManagerHandle parse_ip).

Definition server_compound (msg : CallBody) (r : NfsRequest P C ManagerHandle) (s : Server)
    : option (NfsRequest P C ManagerHandle * ReplyBody * Server) :=
  serve_compound (F:=F) parse_ip parse_socket getpwnam getgrnam
    (fun s p u g => lift (fun o => out_lchown o p u g) s)
    server_try_consume
    (fun s => out_in_grace (outside_world s)) msg r s.

(** A server starts without exports, with an empty client table or a restored one. *)
Definition start (o : O) (c : ClientManager.ClientManager M) (sm : option Sessions.SessionManager) : Server :=
  MkServer o empty_exports ∅ c ∅ sm ∅ [].

(** Every counter has [n] more numbers to give out, and one to spare. *)
Definition has_room (n : nat) (s : Server) : Prop :=
  (forall id fm, managers s !! id = Some fm -> next_stateid_id fm + Z.of_nat n + 1 < 2 ^ 64) /\
  client_id_seq (clients s) + Z.of_nat n < umax 64.

Definition ops_of (msg : CallBody) : list NfsArgOp :=
  match Rpc.args msg with Some a => compound4args_argarray a | None => [] end.

(** A COMPOUND that nothing interrupts, one action of a COMPOUND, or what other tasks do:
    administration, the sweep of deleted files, the client manager's messages, and all
    that happens outside. *)
Inductive server_step : Server -> Server -> Prop :=
| step_compound msg r s r' reply s' :
    has_room (length (ops_of msg)) s -> req_ok (V:=server_vfs) r -> Forall args_ok (ops_of msg) ->
    server_compound msg r s = Some (r', reply, s') -> server_step s s'
| step_manager h msg s : msg_ok msg -> has_room 1 s -> server_step s (call_manager h msg s).2
| step_sessions m m' s :
    session_table s = Some m -> Sessions.session_method m m' -> server_step s (set_session_table s (Some m'))
| step_quota x q s : server_step s (set_table s (put_quota x q (table s)))
| step_stats x v s : server_step s (set_export_stats s (<[x := v]> (stats s)))
| step_limiter x bytes s : server_step s (server_try_consume s x bytes).2
| step_export msg s :
    (forall nm path ro, msg <> AddExport nm path ro) ->
    server_step s
      (set_qos_tasks (set_table s (handle_export (table s) msg).2)
        (option_list (qos_task (table s) msg) ++ qos_tasks s))
| step_qos_task t before after s :
    qos_tasks s = before ++ t :: after -> server_step s (set_qos_tasks (run_qos_task t s) (before ++ after))
| step_add_export nm path ro s i t fm o boot :
    add_export canonicalize is_dir MkManagerHandle (table s) nm path ro = (Ok i, t) ->
    FileManager.new (export_vfs (export_path i)) (Some (Export.export_id i)) (export_path i) boot (outside_world s)
      = Some (fm, o) ->
    server_step s
      (set_outside (set_managers (set_table s t) (<[Export.export_id i := fm]> (managers s))) o)
| step_sweep_files id fm s fm' o :
    managers s !! id = Some fm -> sweep_pending_deletes fm (outside_world s) = Some (tt, fm', o) ->
    server_step s (set_outside (set_managers s (<[id := fm']> (managers s))) o)
| step_clients msg s :
    is_restore msg = false -> has_room 1 s -> server_step s (call_clients msg s).2
| step_outside s o : server_step s (set_outside s o).

Inductive server_reachable : Server -> Prop :=
| server_start o c sm :
    client_reachable c -> (forall m, sm = Some m -> m = Sessions.new) -> server_reachable (start o c sm)
| server_run s s' : server_reachable s -> server_step s s' -> server_reachable s'.
End Steps.
End Server.
#[global] Arguments Server : clear implicits.
