(* ===== verification/ServerSpec.v ===== *)
(** * The whole server: what it guarantees

    [server_promises] discharges the interface [Promises] for [Server]: every call of a
    running operation keeps the file managers, the client manager, the session table and
    the export table in reachable states of their own. So every state the server can
    reach, whatever COMPOUNDs, timers, administration and outside changes lead to it, has
    every component's invariant. *)

From S2P Require Import Prelude NfsTypes Rpc MultiIndex Locking FileManager FileManagerProofs FileManagerSpec.
From S2P Require Import F64 RateLimiter Export ClientManager ClientManagerSpec Request Perm Compound Handle OpsState OpsAttr.
From S2P Require Import OpsFile OpsDir Ops41 Execute OpsContract OpsSound Server.
From S2P Require Sessions.
From stdpp Require Import base list gmap strings.
From Stdlib Require Import Strings.Byte ZArith Lia.
#[local] Open Scope Z_scope.

(** ** Client ids are given out one at a time *)

Section Ids.
Context {W M : Type} `{CW : !ClientWorld W} `{MI : !MultiIndex ClientEntry M client_clash}.
#[local] Abbreviation Act := (ClientManager.action (W:=W) (M:=M)).

(** An action that gives out no client id. *)
Definition gives_none {A} (m : Act A) : Prop := forall s w, client_id_seq (m s w).1.2 = client_id_seq s.

Lemma gives_none_ret {A} (a : A) : gives_none (ClientManager.ret a : Act A).
Proof. done. Qed.

Lemma gives_none_self : gives_none (ClientManager.self : Act _).
Proof. done. Qed.

Lemma gives_none_outside {A} (f : W -> A * W) : gives_none (ClientManager.outside f : Act A).
Proof. intros s w. unfold ClientManager.outside. by destruct (f w). Qed.

Lemma gives_none_bind {A B} (m : Act A) (k : A -> Act B) :
  gives_none m -> (forall a, gives_none (k a)) -> gives_none (ClientManager.bind m k).
Proof.
  intros Hm Hk s w. unfold ClientManager.bind. specialize (Hm s w).
  destruct (m s w) as [[[a|] s1] w1]; simpl in *; [rewrite Hk|]; done.
Qed.

Lemma gives_none_modify f :
  (forall s, client_id_seq (f s) = client_id_seq s) -> gives_none (ClientManager.modify f : Act unit).
Proof. intros Hf s w. apply Hf. Qed.

Lemma gives_none_for_each {A} (l : list A) (f : A -> Act unit) :
  (forall a, gives_none (f a)) -> gives_none (ClientManager.for_each l f).
Proof. intros Hf. induction l as [|a l IH]; simpl; [done|]. by apply gives_none_bind. Qed.

Lemma db_insert_gives_none e : gives_none (db_insert e : Act unit).
Proof.
  apply gives_none_bind; [apply gives_none_self|]. intros s. case_match; [by apply gives_none_modify|done].
Qed.

Lemma db_take_gives_none t : gives_none (db_take t : Act _).
Proof.
  apply gives_none_bind; [apply gives_none_self|]. intros s. case_match.
  apply gives_none_bind; [by apply gives_none_modify|done].
Qed.

Lemma db_update_gives_none t f : (forall e, gives_none (f e)) -> gives_none (db_update t f : Act _).
Proof.
  intros Hf. apply gives_none_bind; [apply db_take_gives_none|]. intros [e|]; [|done].
  apply gives_none_bind; [done|]. intros e'. apply gives_none_bind; [apply db_insert_gives_none|done].
Qed.

Lemma confirm_gives_none c t p : gives_none (confirm_client c t p : Act _).
Proof.
  apply gives_none_bind; [apply gives_none_self|]. intros s. cbv zeta. case_match; [done|]. case_match; [done|].
  apply gives_none_bind.
  - case_match; [|done]. by apply gives_none_bind; [apply db_take_gives_none|].
  - intros []. case_match; [|done]. by apply gives_none_bind; [by apply db_update_gives_none|].
Qed.

Lemma renew_gives_none c : gives_none (renew_leases c : Act _).
Proof.
  apply gives_none_bind; [apply gives_none_self|]. intros s. cbv zeta. case_match; [done|].
  apply gives_none_bind; [apply gives_none_outside|]. intros t. case_match; [done|].
  apply gives_none_bind; [|done]. apply gives_none_for_each. intros e.
  apply gives_none_bind; [|done]. apply db_update_gives_none. intros e'.
  by apply gives_none_bind; [apply gives_none_outside|].
Qed.

Lemma sweep_gives_none : gives_none (sweep_leases : Act _).
Proof.
  apply gives_none_bind; [apply gives_none_outside|]. intros t. apply gives_none_bind; [apply gives_none_self|].
  intros s. cbv zeta. apply gives_none_bind.
  - apply gives_none_for_each. intros c. apply gives_none_bind; [apply gives_none_self|]. intros s'.
    apply gives_none_for_each. intros e. by apply gives_none_bind; [by apply db_update_gives_none|].
  - intros []. apply gives_none_bind; [|done]. apply gives_none_for_each. intros c. by apply gives_none_modify.
Qed.

Lemma bind_seq {A B} (m : Act A) (k : A -> Act B) (Q : Z -> Prop) s w :
  gives_none m -> Q (client_id_seq s) ->
  (forall a s1 w1, client_id_seq s1 = client_id_seq s -> Q (client_id_seq (k a s1 w1).1.2)) ->
  Q (client_id_seq (ClientManager.bind m k s w).1.2).
Proof.
  intros Hm Hs Hk. unfold ClientManager.bind. specialize (Hm s w).
  destruct (m s w) as [[[a|] s1] w1]; simpl in *; [by apply Hk|by rewrite Hm].
Qed.

Lemma bind_seq_last {A B} (m : Act A) (k : A -> Act B) (Q : Z -> Prop) s w :
  (forall a, gives_none (k a)) -> Q (client_id_seq (m s w).1.2) ->
  Q (client_id_seq (ClientManager.bind m k s w).1.2).
Proof.
  intros Hk Hs. unfold ClientManager.bind. destruct (m s w) as [[[a|] s1] w1]; simpl in *; [by rewrite Hk|done].
Qed.

(** SETCLIENTID gives out at most one. *)
Lemma upsert_gives_one v i cb p s w :
  in_width 64 (client_id_seq s) -> client_id_seq s < umax 64 ->
  client_id_seq (upsert_client v i cb p s w).1.2 <= client_id_seq s + 1.
Proof.
  intros Hw Hm. unfold upsert_client.
  apply (bind_seq _ _ (fun n => n <= client_id_seq s + 1)); [apply gives_none_self|lia|]. intros s0 s1 w1 E1.
  cbv zeta. case_match; [simpl; lia|].
  apply (bind_seq _ _ (fun n => n <= client_id_seq s + 1)); [|lia|].
  { apply gives_none_for_each. intros e. by apply gives_none_bind; [apply db_take_gives_none|]. }
  intros [] s2 w2 E2. apply (bind_seq_last _ _ (fun n => n <= client_id_seq s + 1)); [done|].
  apply (bind_seq_last _ _ (fun n => n <= client_id_seq s + 1)).
  { intros c. apply gives_none_bind; [apply gives_none_outside|]. intros token.
    apply gives_none_bind; [apply gives_none_outside|]. intros t. cbv zeta.
    by apply gives_none_bind; [apply db_insert_gives_none|]. }
  case_match; [simpl; lia|]. unfold get_next_client_id.
  cbn [ClientManager.bind ClientManager.modify ClientManager.self ClientManager.ret fst snd].
  cbn [client_id_seq set_client_id_seq]. rewrite E2, E1. unwrap. lia.
Qed.

Lemma message_gives msg s w :
  is_restore msg = false -> in_width 64 (client_id_seq s) -> client_id_seq s < umax 64 ->
  client_id_seq (client_handle_message msg s w).1.2 <= client_id_seq s + (if is_upsert msg then 1 else 0).
Proof.
  intros Hr Hw Hm.
  assert (H1 : forall {A B} (m : Act A) (k : A -> B), gives_none m ->
    client_id_seq (ClientManager.bind m (fun a => ClientManager.ret (k a)) s w).1.2 <= client_id_seq s + 0).
  { intros A B m k Hn. rewrite (gives_none_bind m (fun a => ClientManager.ret (k a)) Hn); [lia|done]. }
  destruct msg; simpl in Hr; cbn [client_handle_message is_upsert]; try done.
  - apply (bind_seq_last _ _ (fun n => n <= client_id_seq s + 1)); [done|]. by apply upsert_gives_one.
  - apply H1, confirm_gives_none.
  - apply H1. by apply gives_none_modify.
  - apply H1, renew_gives_none.
  - apply H1, sweep_gives_none.
  - apply H1. by apply gives_none_bind; [apply gives_none_self|].
  - apply H1. by apply gives_none_modify.
  - apply H1. by apply gives_none_bind; [apply gives_none_self|].
Qed.
End Ids.

(** ** How clients are refused *)

Section Refusals.
Context {W M : Type} `{CW : !ClientWorld W} `{MI : !MultiIndex ClientEntry M client_clash}.
#[local] Abbreviation Act := (ClientManager.action (W:=W) (M:=M)).

(** An action that returns only values that [Q]. *)
Definition returns {A} (Q : A -> Prop) (m : Act A) : Prop := forall s w a, (m s w).1.1 = Some a -> Q a.

Lemma returns_ret {A} (Q : A -> Prop) a : Q a -> returns Q (ClientManager.ret a : Act A).
Proof. by intros HQ s w b [= <-]. Qed.

Lemma returns_bind {A B} (Q : B -> Prop) (m : Act A) (k : A -> Act B) :
  (forall a, returns Q (k a)) -> returns Q (ClientManager.bind m k).
Proof. intros Hk s w b. unfold ClientManager.bind. destruct (m s w) as [[[a|] s1] w1]; [apply Hk|done]. Qed.

Lemma returns_map {A B} (Q : A -> Prop) (Q' : B -> Prop) (m : Act A) f :
  returns Q m -> (forall a, Q a -> Q' (f a)) -> returns Q' (ClientManager.bind m (fun a => ClientManager.ret (f a))).
Proof.
  intros Hm Hf s w b. unfold ClientManager.bind. specialize (Hm s w).
  destruct (m s w) as [[[a|] s1] w1]; [|done]. intros [= <-]. by apply Hf, Hm.
Qed.

Lemma upsert_refuses v i cb p :
  returns (fun r => forall e, r = Err e -> e = Nfs4errClidInuse) (upsert_client v i cb p : Act _).
Proof.
  unfold upsert_client. apply returns_bind. intros s0. cbv zeta. case_match; [by apply returns_ret; intros ? [= <-]|].
  apply returns_bind. intros []. apply returns_bind. intros e. by apply returns_ret.
Qed.

Lemma confirm_refuses c t p :
  returns (fun r => forall e, r = Err e -> e ∈ [Nfs4errStaleClientid; Nfs4errClidInuse]) (confirm_client c t p : Act _).
Proof.
  unfold confirm_client. apply returns_bind. intros s0. cbv zeta.
  case_match; [apply returns_ret; intros ? [= <-]; set_solver|]. case_match; [apply returns_ret; intros ? [= <-]; set_solver|].
  apply returns_bind. intros []. case_match; [apply returns_bind; intros o; by apply returns_ret|].
  apply returns_ret. intros ? [= <-]. set_solver.
Qed.

Lemma client_replies msg : returns (client_reply_ok msg) (client_handle_message msg : Act _).
Proof.
  destruct msg; cbn [client_handle_message]; try (by intros s w []).
  - eapply returns_map; [apply upsert_refuses|]. intros [] Hr; [done|by apply Hr].
  - eapply returns_map; [apply confirm_refuses|]. intros [] Hr; [done|by apply Hr].
Qed.
End Refusals.

(** ** The interface, discharged *)

Section Spec.
Context {O P C L H M F : Type}.
Context `{V : !Vfs O P C} `{ML : !MultiIndex LockingState L lock_clash}
        `{MH : !MultiIndex (Filehandle P C) H fh_clash} `{CW : !ClientWorld O}
        `{MC : !MultiIndex ClientEntry M client_clash} `{IO : !FileIo O P F} `{OUT : !Outside O P C}.
Variable is_dir : string -> bool.
Hypothesis memory_root_path : path_of memory_root = "/"%string.
#[local] Abbreviation Srv := (Server O P C L H M).
Implicit Types s : Srv.

Record server_ok s : Prop := {
  managers_ok : forall id fm, managers s !! id = Some fm -> reachable fm;
  clients_ok : client_reachable (clients s);
  sessions_ok : forall m, session_table s = Some m -> Sessions.session_reachable m [];
  exports_ok : table_ok is_dir MkManagerHandle (table s)
}.

(** The invariant of [Promises]: all is well and there is room for [k] more. *)
Definition server_inv (k : nat) s : Prop := server_ok s /\ has_room k s.

Lemma has_room_less n m s : (n <= m)%nat -> has_room m s -> has_room n s.
Proof. intros Hn [H1 H2]. split; [intros id fm Hfm; specialize (H1 id fm Hfm)|]; lia. Qed.

Lemma server_inv_less m n s : (n <= m)%nat -> server_inv m s -> server_inv n s.
Proof. intros Hn [Hok Hroom]. split; [done|by apply (has_room_less n m)]. Qed.

Lemma server_inv_outside k s o : server_inv k s -> server_inv k (set_outside s o).
Proof. intros [[] []]. by split; split. Qed.

Lemma server_inv_limiters k s l : server_inv k s -> server_inv k (set_limiters s l).
Proof. intros [[] []]. by split; split. Qed.

Lemma server_inv_tasks k s l : server_inv k s -> server_inv k (set_qos_tasks s l).
Proof. intros [[] []]. by split; split. Qed.

Lemma try_consume_keeps k s x n : server_inv k s -> server_inv k (server_try_consume s x n).2.
Proof.
  intros Hs. unfold server_try_consume. destruct (now _) as [t o]. destruct (RateLimiter.try_consume _ _ _) as [ok rl].
  by apply server_inv_limiters, server_inv_outside.
Qed.

Lemma lift_keeps {R} k (f : O -> R * O) : keeps (server_inv k) (lift f).
Proof.
  intros s Hs. unfold lift. destruct (f (outside_world s)) as [x o]. by apply server_inv_outside.
Qed.

Lemma manager_inv k s id fm :
  server_inv k s -> managers s !! id = Some fm -> reachable fm /\ inv (Z.of_nat k + 1) fm.
Proof.
  intros [Hok [Hroom _]] Hfm. pose proof (managers_ok s Hok id fm Hfm) as Hr. split; [done|].
  specialize (Hroom id fm Hfm). destruct (reachable_inv fm Hr) as [[H1 H2 H3 H4 H5] Hf].
  split; [|done]. split; [done..|]. lia.
Qed.

Lemma server_inv_manager k s id fm :
  server_inv k s -> reachable fm -> next_stateid_id fm + Z.of_nat k + 1 < 2 ^ 64 ->
  server_inv k (set_managers s (<[id := fm]> (managers s))).
Proof.
  intros [[Hm Hc Hs Ht] [Hroom Hcl]] Hr Hn. split; split; simpl; try done.
  - intros id' fm' [[_ <-]|[_ Hfm]]%lookup_insert_Some; [done|by eapply Hm].
  - intros id' fm' [[_ <-]|[_ Hfm]]%lookup_insert_Some; [done|by eapply Hroom].
Qed.

(** A turn of a manager: it answers as awaited, and stays reachable with what room it
    leaves. *)
Lemma call_manager_inv k h m s :
  server_inv (if issues m then S k else k) s -> msg_ok m ->
  server_inv k (call_manager h m s).2 /\ forall reply, (call_manager h m s).1 = Some reply -> reply_ok m reply.
Proof.
  intros Hs Hm. unfold call_manager. destruct (managers s !! manager_export h) as [fm|] eqn:Efm.
  2: { split; [|done]. by apply (server_inv_less (if issues m then S k else k)); [destruct (issues m); lia|]. }
  destruct (manager_inv _ _ _ _ Hs Efm) as [Hr Hi].
  assert (Hi' : inv (Z.of_nat k + 1 + stateids_for m) fm).
  { eapply inv_weaken; [|exact Hi]. unfold stateids_for. destruct (issues m); lia. }
  destruct (handle_message_triple (Z.of_nat k + 1) m ltac:(lia) Hm fm (outside_world s) Hi')
    as (reply & fm' & o & E & Hi2 & Hreply).
  rewrite E. simpl. split; [|by intros ? [= <-]].
  apply server_inv_outside, server_inv_manager.
  - by apply (server_inv_less (if issues m then S k else k)); [destruct (issues m); lia|].
  - eapply reach_message; [exact Hr|exact Hm| |exact E].
    destruct Hi as [[_ _ _ _ Hc] _]. lia.
  - destruct Hi2 as [[_ _ _ _ Hc] _]. lia.
Qed.

Lemma commit_cache_inv k c s : server_inv k s -> server_inv k (commit_cache c s).
Proof.
  intros Hs. unfold commit_cache. destruct (cache_commit c (outside_world s)) as [told o].
  apply (server_inv_outside k s o) in Hs. generalize dependent (set_outside s o).
  induction told as [|[[x i] written] told IH]; intros s1 Hs; [done|]. apply IH, call_manager_inv; [|done].
  destruct written; [|done]. by apply call_manager_inv.
Qed.

Lemma call_clients_inv k m s :
  is_restore m = false -> server_inv (if is_upsert m then S k else k) s -> server_inv k (call_clients m s).2.
Proof.
  intros Hm [[Hms Hc Hss Ht] [Hroom Hcl]]. pose proof (client_reachable_inv _ Hc) as Hci.
  unfold call_clients.
  pose proof (message_gives m (clients s) (outside_world s) Hm (inv_width _ Hci) ltac:(lia)) as Hseq.
  pose proof (reach_step (clients s) m (outside_world s) Hc ltac:(lia) Hm) as Hc'.
  destruct (client_handle_message m (clients s) (outside_world s)) as [[reply c] o]. simpl in *.
  split; split; simpl; try done.
  - intros id fm Hfm. specialize (Hroom id fm Hfm). destruct (is_upsert m); lia.
  - destruct (is_upsert m); lia.
Qed.

(** Calls through the interfaces themselves. *)
Lemma lookup_found k h p i s :
  server_inv k s ->
  server_inv k (found (send_filehandle_request h p i s)).2 /\
  forall fh, (found (send_filehandle_request h p i s)).1 = Some fh -> fh_ok fh.
Proof.
  intros Hs. unfold send_filehandle_request, found.
  destruct (call_manager_inv k h (GetFilehandle p i) s Hs Logic.I) as [Hi Hreply].
  cbn [fm_call server_channels]. destruct (call_manager h (GetFilehandle p i) s) as [[reply|] s']; [|done].
  specialize (Hreply reply eq_refl). simpl in Hi, Hreply. destruct reply as [| |[fh|]| | | | | | | | | |]; try done; simpl.
  split; [done|]. by destruct p, i.
Qed.

(** ** The export table *)

Lemma info_listed (t : ExportManager ManagerHandle) e :
  table_ok is_dir MkManagerHandle t -> e ∈ map (fun p => info p.2) (map_to_list (exports t)) ->
  exists h, get_export_by_id t (Export.export_id e) = Some (e, h) /\ 1 <= Export.export_id e <= 0xFD.
Proof.
  intros Ht [[nm st] [-> Hin]]%list_elem_of_fmap. apply elem_of_map_to_list in Hin.
  pose proof (ok_next _ _ _ Ht). destruct (ok_by_name _ _ _ Ht nm st Hin) as (_ & Hid & Hrange & _).
  exists (file_manager st). unfold get_export_by_id. simpl. rewrite Hid. simpl. rewrite Hin. simpl. split; [done|lia].
Qed.

Lemma info_named (t : ExportManager ManagerHandle) nm e h :
  table_ok is_dir MkManagerHandle t -> get_export_by_name t nm = Some (e, h) ->
  get_export_by_id t (Export.export_id e) = Some (e, h) /\ 1 <= Export.export_id e <= 0xFD.
Proof.
  intros Ht E. unfold get_export_by_name in E. apply bind_Some in E as (st & Hst & [= <- <-]).
  pose proof (ok_next _ _ _ Ht). destruct (ok_by_name _ _ _ Ht nm st Hst) as (_ & Hid & Hrange & _).
  unfold get_export_by_id. rewrite Hid. simpl. rewrite Hst. simpl. split; [done|lia].
Qed.

Lemma put_quota_ok x q (t : ExportManager ManagerHandle) :
  table_ok is_dir MkManagerHandle t -> table_ok is_dir MkManagerHandle (put_quota x q t).
Proof. intros Ht. unfold put_quota. case_match; [by apply set_config_ok|done]. Qed.

Lemma server_inv_table k s t :
  server_inv k s -> table_ok is_dir MkManagerHandle t -> server_inv k (set_table s t).
Proof. intros [[Hm Hc Hs _] Hr] Ht. by split; [split|]. Qed.

#[export] Instance server_promises : Promises (Fm:=ManagerHandle) (F:=F) server_inv.
Proof.
  split; intros; try apply lift_keeps; try by apply server_inv_outside.
  - by apply (server_inv_less (S k)); [lia|].
  - by apply call_manager_inv.
  - split; [by apply call_clients_inv|]. intros reply. cbn [cm_call server_channels]. unfold call_clients.
    pose proof (client_replies m (clients w) (outside_world w) reply) as Hr.
    destruct (client_handle_message _ _ _) as [[o c] w']. exact Hr.
  - intros w Hw. by apply lookup_found.
  - intros w Hw. by apply lookup_found.
  - intros w Hw. by apply lookup_found.
  - by apply (call_manager_inv k fm (UpdateFilehandle fh)).
  - destruct H0 as [[_ _ _ Ht] _]. destruct (info_listed _ _ Ht H1) as (h & E & Hr). unfold PSEUDO_ROOT_EXPORT_ID.
    split; [lia|]. by exists (e, h).
  - destruct H0 as [[_ _ _ Ht] _]. destruct (info_named _ _ _ _ Ht H1) as (E & Hr). unfold PSEUDO_ROOT_EXPORT_ID.
    split; [lia|done].
  - apply memory_root_path.
  - by apply commit_cache_inv.
  - destruct H0 as [[Hm Hc Hs Ht] Hr]. split; [|done]. split; simpl; try done. intros ? [= <-].
    eapply Sessions.session_method_reachable; [by apply Hs|done].
  - apply server_inv_table; [done|]. destruct H0 as [[_ _ _ Ht] _]. by apply put_quota_ok.
  - destruct H0 as [[Hm Hc Hs Ht] Hr]. by split; [split|].
Qed.
End Spec.
