(* ===== verification/Demo.v ===== *)
(** * A small world to run the server in

    An in-memory file system with contents, owners, open files and a clock: an instance of
    every interface to code outside the repository, on which the witnesses of the
    operations run. Real paths are those of an export at [/export]; files opened for
    appending write at the end wherever they were sought to, as [O_APPEND] has it. *)

From S2P Require Import Prelude NfsTypes Rpc MultiIndex Locking FileManager Export ClientManager Request Perm.
From S2P Require Import Compound Handle FileLaws Server.
From S2P Require Sessions.
From stdpp Require Import base list gmap strings.
From Stdlib Require Import Strings.Byte ZArith Lia.
#[local] Open Scope Z_scope.

(** A directory, or a file with its contents; its owner and group. *)
Inductive node : Type := Directory | Contents (data : list byte).

(** An open file has its path, whether it appends, and its cursor. *)
Record Disk : Type := MkDisk {
  nodes : gmap string (node * (Z * Z));
  opened : list (string * bool * Z);
  ticks : Z
}.

Definition set_nodes (d : Disk) (n : gmap string (node * (Z * Z))) : Disk := MkDisk n (opened d) (ticks d).

(** A handle is the number of the open file. *)
Definition open_handle : Type := nat.

Definition set_cursor (d : Disk) (i : open_handle) (z : Z) : Disk :=
  MkDisk (nodes d) (alter (fun o => (o.1, z)) i (opened d)) (ticks d).

Definition real (p : string) : string := "/export" +:+ p.

Definition data_of (d : Disk) (path : string) : list byte :=
  match nodes d !! path with Some (Contents l, _) => l | _ => [] end.

Definition owner_of (d : Disk) (path : string) : Z * Z :=
  match nodes d !! path with Some (_, o) => o | None => (0, 0) end.

(** A number for a path: its bytes in base 256, cut to 32 bits. *)
Fixpoint path_number (s : string) : Z :=
  match s with
  | String.EmptyString => 1
  | String.String a s => wrap 32 (256 * path_number s + Z.of_nat (Ascii.nat_of_ascii a))
  end.

Definition meta_of (d : Disk) (path : string) : option RealMeta :=
  match nodes d !! path with
  | Some (n, (u, g)) =>
    let '(m, len) := match n with Directory => (0x41ED, 4096) | Contents l => (0x81A4, Z.of_nat (length l)) end in
    Some (MkRealMeta (path_number path) 1 m 1 u g len 0 0 0 (ticks d) 0 0 0)
  | None => None
  end.

(** The part of a path before its last slash. *)
Definition parent_of (p : string) : string :=
  match String.index 0 "/" (String.rev p) with
  | Some n => String.substring 0 (String.length p - n - 1) p
  | None => ""
  end.

(** A name without its leading slashes: empty components of a path do not count. *)
Fixpoint skip_slash (s : string) : string :=
  match s with
  | String.EmptyString => s
  | String.String a t => if (Ascii.nat_of_ascii a =? 47)%nat then skip_slash t else s
  end.

(** The paths of a directory's entries. *)
Definition entries_of (d : Disk) (dir : string) : list string :=
  filter (fun p => parent_of p = dir /\ p <> dir) (map fst (map_to_list (nodes d))).

Definition open_at (path : string) (append : bool) (d : Disk) : option open_handle * Disk :=
  match nodes d !! path with
  | Some (Contents _, _) =>
    (Some (length (opened d)), MkDisk (nodes d) (opened d ++ [(path, append, 0)]) (ticks d))
  | _ => (None, d)
  end.

Definition put_data (path : string) (l : list byte) (d : Disk) : Disk :=
  set_nodes d (<[path := (Contents l, owner_of d path)]> (nodes d)).

Definition handle_of (h : open_handle) (d : Disk) : string * bool * Z := default ("", false, 0) (opened d !! h).
Definition cursor (h : open_handle) (d : Disk) : nat := Z.to_nat (handle_of h d).2.

Definition write_at (h : open_handle) (new : list byte) (at_ : nat) (d : Disk) : Disk :=
  let '(path, append, _) := handle_of h d in
  let old := data_of d path in
  if append then put_data path (old ++ new) (set_cursor d h (size_of old + size_of new))
  else put_data path (overwrite old new at_) (set_cursor d h (Z.of_nat at_ + size_of new)).

(** [pwrite], which leaves the cursor where it is. *)
Definition pwrite (h : open_handle) (new : list byte) (at_ : nat) (d : Disk) : Disk :=
  let '(path, append, _) := handle_of h d in
  let old := data_of d path in
  put_data path (if append then old ++ new else overwrite old new at_) d.

Definition read_at (h : open_handle) (n : Z) (d : Disk) : list byte :=
  take (Z.to_nat n) (drop (cursor h d) (data_of d (handle_of h d).1.1)).

Definition make (n : node) (path : string) (d : Disk) : bool * Disk :=
  match nodes d !! path with
  | Some _ => (false, d)
  | None => (true, set_nodes d (<[path := (n, (0, 0))]> (nodes d)))
  end.

Definition move (p q : string) (d : Disk) : bool * Disk :=
  match nodes d !! p with
  | Some n => (true, set_nodes d (<[q := n]> (delete p (nodes d))))
  | None => (false, d)
  end.

#[export] Instance disk_vfs : Vfs Disk string unit := {|
  vfs_as_str p := p;
  vfs_parent := parent_of;
  vfs_join p name := let n := skip_slash name in Some (if bool_decide (n = "") then p else p +:+ "/" +:+ n);
  vfs_exists d p := bool_decide (is_Some (nodes d !! real p));
  vfs_is_dir d p := match nodes d !! real p with Some (Directory, _) => true | _ => false end;
  vfs_len d p := Z.of_nat (length (data_of d (real p)));
  vfs_create_file d p :=
    (true, match nodes d !! real p with Some (Directory, _) => d | _ => put_data (real p) [] d end);
  vfs_create_dir d p := make Directory (real p) d;
  vfs_remove_file d p := (true, set_nodes d (delete (real p) (nodes d)));
  vfs_remove_dir d p := (None, set_nodes d (delete (real p) (nodes d)));
  vfs_move_file d p q := move (real p) (real q) d;
  from_path := meta_of;
  fs_read_dir d p := Some (map (fun q => (q, q)) (entries_of d p));
  current_time d := MkNfstime4 (ticks d) 0;
  default_hash := path_number;
  cache_spawn d _ _ _ _ := (tt, d)
|}.

#[export] Instance disk_io : FileIo Disk string open_handle := {|
  vfs_open_file p := open_at (real p) false;
  vfs_append_file p := open_at (real p) true;
  vfs_is_file d p := match nodes d !! real p with Some (Contents _, _) => true | _ => false end;
  vfs_filename p := String.substring (String.length (parent_of p) + 1) (String.length p) p;
  vfs_read_dir d p :=
    Some (map (fun q => String.substring 7 (String.length q) q) (entries_of d (real p)));
  vfs_move_dir d p q := move (real p) (real q) d;
  file_seek_end h d :=
    let n := size_of (data_of d (handle_of h d).1.1) in (Some n, set_cursor d h n);
  file_seek h n d := (true, set_cursor d h n);
  file_read h n d := let l := read_at h n d in (Some l, set_cursor d h (Z.of_nat (cursor h d + length l)));
  file_read_exact h n d :=
    let l := read_at h n d in
    if Z.of_nat (length l) =? n then (Some l, set_cursor d h (Z.of_nat (cursor h d + length l))) else (None, d);
  file_write h l d := (Some (Z.of_nat (length l)), write_at h l (cursor h d) d);
  file_write_all h l d := (true, write_at h l (cursor h d) d);
  file_write_all_at h l n d := (true, pwrite h l (Z.to_nat n) d);
  file_flush _ d := (true, d);
  file_sync_all _ d := (true, d);
  fs_exists d p := bool_decide (is_Some (nodes d !! p));
  fs_metadata_len d p := Some (Z.of_nat (length (data_of d p)));
  fs_open_append p := open_at p true;
  fs_open_write p := open_at p false;
  fs_open_create p := open_at p false;
  fs_read_link _ _ := Err InvalidInput;
  fs_symlink _ p d := match make (Contents []) p d with (true, d) => (Ok tt, d) | (false, d) => (Err AlreadyExists, d) end;
  fs_hard_link _ p d := match make (Contents []) p d with (true, d) => (Ok tt, d) | (false, d) => (Err AlreadyExists, d) end;
  fs_rename := move;
  libc_chown p u g d :=
    match nodes d !! p with
    | Some (n, _) => (true, set_nodes d (<[p := (n, (u, g))]> (nodes d)))
    | None => (false, d)
    end;
  libc_chmod _ _ d := (true, d);
  libc_utimens_now _ d := (true, d)
|}.

#[export] Instance disk_clients : ClientWorld Disk := {|
  now d := (ticks d * 1000000000, d);
  random_token d := (be_bytes 8 (ticks d), MkDisk (nodes d) (opened d) (ticks d + 1))
|}.

#[export] Instance disk_outside : Outside Disk string unit := {|
  cache_write _ _ _ d := d;
  cache_commit _ d := ([], d);
  clock := ticks;
  memory_root := "";
  out_lchown d p u g :=
    match nodes d !! p with
    | Some (n, _) => (true, set_nodes d (<[p := (n, (u, g))]> (nodes d)))
    | None => (false, d)
    end;
  out_in_grace _ := false
|}.

(** A disk with an empty export of user 1000. *)
Definition empty_disk : Disk := MkDisk {[real "" := (Directory, (1000, 100))]} [] 1.

Definition disk_server : Type :=
  Server Disk string unit (list LockingState) (list (Filehandle string unit)) (list ClientEntry).

(** ** Running it *)

Definition no_ip (_ : string) : option IpAddr := None.
Definition no_name (_ : string) : option Z := None.
Definition no_vfs (_ : string) : string := "".
Definition every_dir (_ : string) : bool := true.

#[local] Abbreviation demo_add nm :=
  (fun t : ExportManager ManagerHandle => (add_export Some every_dir MkManagerHandle t nm "/export" false).2).

(** The file manager of an export of the disk. *)
Definition demo_manager (id : Z) : FileManager string unit (list LockingState) (list (Filehandle string unit)) :=
  match FileManager.new "" (Some id) "/export" 1 empty_disk with
  | Some (fm, _) => fm
  | None => FileManager.initial "" (Some id) "/export" 1
  end.

(** A server with one export, and one with two of the same directory. *)
Definition one_export : disk_server :=
  MkServer empty_disk (demo_add "a" empty_exports) {[1 := demo_manager 1]} ClientManager.new ∅ (Some Sessions.new) ∅ [].
Definition two_exports : disk_server :=
  MkServer empty_disk (demo_add "b" (demo_add "a" empty_exports)) {[2 := demo_manager 2; 1 := demo_manager 1]}
    ClientManager.new ∅ (Some Sessions.new) ∅ [].

(** A call of user 1000, and a connection's first request. *)
Definition demo_call (ops : list NfsArgOp) : CallBody :=
  MkCallBody 2 100003 4 1 (AuthUnixCred (MkAuthUnix 0 "h" 1000 100 [])) (AuthNull []) (Some (MkCompound4args "t" 0 ops)) None.
Definition demo_request (fm : option ManagerHandle) : NfsRequest string unit ManagerHandle :=
  new_request "10.0.0.1" fm 1 1 (Some ∅).

Definition demo_compound (ops : list NfsArgOp) (fm : option ManagerHandle) (s : disk_server) :=
  server_compound (F:=open_handle) no_ip no_ip no_name no_name (demo_call ops) (demo_request fm) s.

(** The status, the results and the disk a COMPOUND leaves. *)
Definition demo_results (ops : list NfsArgOp) (fm : option ManagerHandle) (s : disk_server)
    : option (NfsStat4 * list NfsResOp4) :=
  match demo_compound ops fm s with
  | Some (_, MsgAccepted (MkAcceptedReply _ (Success res)), _) => Some (compound4res_status res, compound4res_resarray res)
  | _ => None
  end.
Definition demo_after (ops : list NfsArgOp) (fm : option ManagerHandle) (s : disk_server) : disk_server :=
  match demo_compound ops fm s with Some (_, _, s') => s' | None => s end.
