(* ===== verification/ServerProps.v ===== *)
(** * The server's guarantees, and the server running

    The theorems about the whole server ([Server.server_reachable]): its components keep
    their invariants whatever happens, the answers of a COMPOUND are typed, operations do
    not panic. The witnesses run COMPOUNDs on the in-memory world of [Demo]. *)

From S2P Require Import Prelude NfsTypes Rpc MultiIndex Locking FileManager FileManagerProofs FileManagerSpec.
From S2P Require Import Export ClientManager ClientManagerSpec Request Perm Compound Handle OpsState OpsAttr.
From S2P Require Import OpsFile OpsDir Ops41 Execute OpsStatus OpsContract OpsSound Server ServerSpec Demo.
From S2P Require Sessions.
From stdpp Require Import base list gmap strings.
From Stdlib Require Import Strings.Byte ZArith Lia.
#[local] Open Scope Z_scope.

Section Props.
Context {O P C L H M F : Type}.
Context `{V : !Vfs O P C} `{ML : !MultiIndex LockingState L lock_clash}
        `{MH : !MultiIndex (Filehandle P C) H fh_clash} `{CW : !ClientWorld O}
        `{MC : !MultiIndex ClientEntry M client_clash} `{IO : !FileIo O P F} `{OUT : !Outside O P C}.
Variable canonicalize : string -> option string.
Variable is_dir : string -> bool.
Variable export_vfs : string -> P.
Variable parse_ip parse_socket : string -> option IpAddr.
Variable getpwnam getgrnam : string -> option Z.
Hypothesis memory_root_path : path_of memory_root = "/"%string.
#[local] Abbreviation Srv := (Server O P C L H M).
#[local] Abbreviation Req := (NfsRequest P C ManagerHandle).
#[local] Abbreviation request_ok := (req_ok (V:=server_vfs (L:=L) (H:=H) (M:=M))).
#[local] Abbreviation ok := (server_ok is_dir).
#[local] Abbreviation Inv := (server_inv is_dir).
#[local] Abbreviation step := (server_step (F:=F) canonicalize is_dir export_vfs parse_ip parse_socket getpwnam getgrnam).
#[local] Abbreviation compound_of := (server_compound (F:=F) parse_ip parse_socket getpwnam getgrnam).
#[local] Abbreviation Reachable :=
  (server_reachable (F:=F) canonicalize is_dir export_vfs parse_ip parse_socket getpwnam getgrnam).
Implicit Types s : Srv.

#[local] Instance promises : Promises (Fm:=ManagerHandle) (F:=F) Inv := server_promises is_dir memory_root_path.

Lemma ops_of_args (msg : CallBody) (k : nat) :
  (match Rpc.args msg with Some a => length (compound4args_argarray a) | None => 0 end + k)%nat
  = (length (ops_of msg) + k)%nat.
Proof. unfold ops_of. by destruct (Rpc.args msg). Qed.

Lemma server_compound_sound msg (r : Req) s r' rep s' :
  ok s -> has_room (length (ops_of msg)) s -> request_ok r -> Forall args_ok (ops_of msg) ->
  compound_of msg r s = Some (r', rep, s') -> Inv 0 s' /\ request_ok r' /\ answers_compound msg rep.
Proof.
  intros Hs Hroom Hr Ha E. eapply (compound_sound (F:=F) Inv) in E; [exact E|..].
  - intros k w x u g Hw. by apply (lift_keeps is_dir).
  - intros k w x n Hw. by apply (try_consume_keeps is_dir).
  - rewrite ops_of_args. split; [done|]. by rewrite Nat.add_0_r.
  - done.
  - intros a Em. unfold ops_of in Ha. by rewrite Em in Ha.
Qed.

Lemma server_step_ok s s' : step s s' -> ok s -> ok s'.
Proof.
  intros Hstep Hs. destruct Hstep as [msg r s r' rep s' Hroom Hr Ha E|h msg s Hm Hroom|m m' s Em Hmeth|x q s|x v s|x n s|msg s Hm|t l1 l2 s Et|nm path ro s i t fm o boot Ea En|
    id fm s fm' o Hfm Es|msg s Hm Hroom|s o].
  - by apply server_compound_sound in E as [[? _] _].
  - destruct (call_manager_inv is_dir 0 h msg s) as [[? _] _]; [|done..]. split; [done|]. destruct (issues msg); [done|].
    by apply (has_room_less 0 1); [lia|].
  - destruct Hs as [Hms Hc Hss Ht]. split; simpl; try done. intros ? [= <-].
    eapply Sessions.session_method_reachable; [by apply Hss|done].
  - destruct Hs as [Hms Hc Hss Ht]. split; [done..|]. by apply put_quota_ok.
  - by destruct Hs.
  - unfold server_try_consume. destruct (now _) as [t o]. destruct (RateLimiter.try_consume _ _ _). by destruct Hs.
  - destruct Hs as [Hms Hc Hss Ht]. split; [done..|]. by apply handle_ok.
  - destruct Hs as [Hms Hc Hss Ht]. destruct t; [|done]. unfold run_qos_task. by destruct (now _).
  - destruct Hs as [Hms Hc Hss Ht]. pose proof (add_export_ok canonicalize is_dir MkManagerHandle _ nm path ro Ht) as Hadd.
    rewrite Ea in Hadd. split; simpl; [|done..|tauto].
    intros id fm' [[_ <-]|[_ Hfm]]%lookup_insert_Some; [by eapply FileManagerSpec.reach_new|by eapply Hms].
  - destruct Hs as [Hms Hc Hss Ht]. split; simpl; try done.
    intros id' fm0 [[_ <-]|[_ Hfm0]]%lookup_insert_Some; [|by eapply Hms]. eapply reach_sweep; [by eapply Hms|done].
  - destruct (call_clients_inv is_dir 0 msg s Hm) as [? _]; [|done].
    split; [done|]. destruct (is_upsert msg); [done|]. by apply (has_room_less 0 1); [lia|].
  - by destruct Hs.
Qed.

Lemma reachable_ok s : Reachable s -> ok s.
Proof.
  induction 1 as [o c sm Hc Hsm|s s' _ IH Hstep]; [|by eapply server_step_ok].
  split; simpl; [done|done| |apply empty_table_ok]. intros m Hm. rewrite (Hsm m Hm). constructor.
Qed.

(** C3: At every moment, also between two actions of a running COMPOUND, and whatever
    actions of requests, timer sweeps, administration and outside changes led there, every
    component of the server is in a state of its own executions alone: each
    export's file manager is reachable by its own messages and sweeps and has its
    invariant, the client table, the session table and the export table are reachable
    ones. So what is proved of a component by itself holds in the composed server. *)
Theorem server_components_ok s :
  Reachable s ->
  (forall id fm, managers s !! id = Some fm -> reachable fm /\ FileManagerProofs.inv 0 fm) /\
  client_reachable (clients s) /\
  (forall m, session_table s = Some m -> Sessions.session_reachable m []) /\
  table_ok is_dir MkManagerHandle (table s).
Proof.
  intros Hs. destruct (reachable_ok s Hs) as [Hm Hc Hss Ht]. split; [|done].
  intros id fm Hfm. pose proof (Hm id fm Hfm) as Hr. split; [done|by apply reachable_inv].
Qed.

(** C5: The reply of a COMPOUND has the tag of the request and is complete ([completes]):
    with NFS4_OK every operation has its result, in order, under its own number and saying
    NFS4_OK; otherwise the operations up to the one that ended it have, and that one has a
    result of its own that says the COMPOUND's status, unless it ended with one of the
    statuses that the code gives no result for ([unanswered], for each operation) or is one
    of those whose results have no place for a status. PUTPUBFH alone is answered under
    PUTROOTFH's number, and another minor version than 0 and 1 with no result at all. No
    refusal by the dispatcher but the grace period's goes without a result. Answering
    leaves every component in order, and no filehandle in the request that is not filed
    under its own path. *)
Theorem compound_results_typed msg a (r : Req) s r' rep s' :
  Reachable s -> has_room (length (ops_of msg)) s -> request_ok r -> Forall args_ok (ops_of msg) ->
  Rpc.args msg = Some a -> compound_of msg r s = Some (r', rep, s') ->
  (if 1 <? compound4args_minor_version a then rep = reply Nfs4errMinorVersMismatch (compound4args_tag a) []
   else exists st res, rep = reply st (compound4args_tag a) res /\ completes (compound4args_argarray a) st res /\
     (st = Nfs4Ok -> Forall2 answers_to (compound4args_argarray a) res) /\
     (forall arg, arg ∈ compound4args_argarray a ->
        Nfs4Ok ∉ unanswered arg /\ Nfs4errDelay ∉ unanswered arg /\ Nfs4errWrongsec ∉ unanswered arg /\ Nfs4errRofs ∉ unanswered arg)) /\
  ok s' /\ request_ok r'.
Proof.
  intros Hs Hroom Hr Ha Em E. apply server_compound_sound in E as ([? _] & Hr' & Hrep); [|by apply reachable_ok|done..].
  split; [|done]. unfold answers_compound in Hrep. rewrite Em in Hrep. destruct (1 <? _); [done|].
  destruct Hrep as (st & res & -> & Hc). exists st, res. split; [done|]. split; [done|]. split.
  - intros ->. by apply completes_ok.
  - intros arg _. apply unanswered_not.
Qed.

(** C6: With an export selected no operation panics, short of a SETATTR of a size past
    2^63, which no buffer can have: it returns, whatever the other components, the file
    system and the rest of the world answer, with a result under its own number and every
    component in order. *)
Theorem operations_never_panic arg (r : Req) s :
  Reachable s -> has_room 1 s -> request_ok r -> args_ok arg -> cached_fmanager r <> None ->
  (forall a, arg = Opsetattr a -> ~ Exists huge_size (fattr4_attr_vals (setAttr4args_obj_attributes a))) ->
  exists resp s', dispatch parse_ip parse_socket (execute (F:=F) parse_ip parse_socket getpwnam getgrnam) arg r s
    = Some (resp, s') /\ ok s' /\ request_ok (request resp) /\
    match op_result resp with Some res => answers_to arg res | None => status resp ∈ unanswered arg end.
Proof.
  intros Hs Hroom Hr Ha Hfm Hsize.
  pose proof (dispatch_sound (F:=F) Inv 0 parse_ip parse_socket getpwnam getgrnam arg r s) as H0.
  specialize (H0 (conj (reachable_ok s Hs) Hroom) Hr Ha).
  destruct (dispatch _ _ _ _ _ _) as [[resp s']|].
  - destruct H0 as ([? _] & ? & ?). by exists resp, s'.
  - destruct H0 as [?|H0]; [done|]. destruct arg; try done. by destruct (Hsize _ eq_refl).
Qed.
(** The operations that ask the export's file manager whatever the current filehandle is. *)
Definition asks_manager (arg : NfsArgOp) : bool :=
  match arg with
  | Opclose _ | Opcommit _ | Opdelegreturn _ | Oplock _ | Oplockt _ | Oplocku _ | Opopenattr _ | OpreleaseLockOwner _
  | Opreadlink => true
  | _ => false
  end.

#[local] Abbreviation exec := (execute (F:=F) parse_ip parse_socket getpwnam getgrnam).
#[local] Abbreviation chown_of := (fun (s : Srv) p u g => lift (fun o => out_lchown o p u g) s).
#[local] Abbreviation consume_of := server_try_consume.
#[local] Abbreviation loop := (compound_loop parse_ip parse_socket getpwnam getgrnam chown_of consume_of
  (fun s => out_in_grace (outside_world s)) exec).

(** One turn of the loop without a rate limiter. *)
Lemma loop_turn arg ops (r : Req) s acc last c :
  rate_limiter r = None -> guards getpwnam getgrnam (fun s => out_in_grace (outside_world s)) arg r s = Proceed c ->
  loop (arg :: ops) r s acc last =
    '(resp, s1) ← dispatch parse_ip parse_socket exec arg r s;
    let '(resp, s2) := finish_op parse_ip parse_socket chown_of arg (head ops) (creates_object arg s r) c
      (current_export_id r) resp s1 in
    match op_result resp with
    | None => Some (request resp, status resp, acc, s2)
    | Some res =>
      if bool_decide (status resp = Nfs4Ok) then loop ops (request resp) s2 (acc ++ [res]) (status resp)
      else Some (request resp, status resp, acc ++ [res], s2)
    end.
Proof. intros Hl Hg. cbn [compound_loop]. unfold rate_limited. by rewrite Hl, Hg. Qed.

(** Before an export is selected nothing is refused. *)
Lemma unselected_proceeds arg (r : Req) s :
  access_control r = None -> sec_flavor r = Sys -> read_only r = false -> filehandle r = None \/ is_pseudo_root r = true ->
  out_in_grace (outside_world s) = false ->
  guards getpwnam getgrnam (fun s => out_in_grace (outside_world s)) arg r s = Proceed (caller s r).
Proof.
  intros Ha Hs Hro Hfh Hg. unfold guards, sec_allowed. rewrite Hg, Ha, Hs, Hro, (bool_decide_eq_true_2 (Sys = Sys)) by done.
  rewrite orb_true_r. simpl. unfold check_op.
  destruct (is_pseudo_root r); [done|]. destruct Hfh as [->|?]; [|done]. by destruct (cached_fmanager r).
Qed.

Lemma asks_manager_panics arg (r : Req) s :
  asks_manager arg = true -> cached_fmanager r = None -> filehandle r <> None ->
  dispatch parse_ip parse_socket exec arg r s = None.
Proof.
  intros Harg Hfm Hfh. destruct (filehandle r) as [fh|] eqn:E; [|done].
  destruct arg; try discriminate Harg; cbn [dispatch execute].
  - unfold op_close. by rewrite E, Hfm.
  - unfold op_commit. by rewrite E, Hfm.
  - unfold op_delegreturn. by rewrite E, Hfm.
  - unfold op_lock. rewrite E. destruct (locker_owner _). by rewrite Hfm.
  - unfold op_lockt. by rewrite E, Hfm.
  - unfold op_locku. by rewrite Hfm.
  - unfold op_openattr. by rewrite E, Hfm.
  - unfold op_readlink. by rewrite E, Hfm.
  - unfold op_release_lockowner. by rewrite Hfm.
Qed.

(** Those operations panic at the pseudo-root, which has no file manager: with no or
    several exports, PUTROOTFH and one of them end the task of any connection, whoever
    calls. *)
Theorem pseudo_root_panics arg addr fm boot at_ cache tag msg s :
  length (list_exports s) <> 1%nat -> asks_manager arg = true -> out_in_grace (outside_world s) = false ->
  Rpc.args msg = Some (MkCompound4args tag 0 [Opputrootfh; arg]) ->
  compound_of msg (new_request addr fm boot at_ cache) s = None.
Proof.
  intros Hl Harg Hg Em. unfold server_compound, serve_compound, compound. rewrite Em. cbn [compound4args_minor_version].
  change (1 <? 0) with false. cbv iota. cbn [compound4args_argarray].
  set (r := set_auth_cred _ _).
  rewrite (loop_turn _ _ r s [] Nfs4Ok (caller s r)); [|done|by apply unselected_proceeds; [..|left|]].
  assert (E : dispatch parse_ip parse_socket exec Opputrootfh r s =
    Some (MkResponse (put_pseudo_root r pseudo_root_fh s) (Some (ResOpputrootfh (MkPutRootFh4res Nfs4Ok))) Nfs4Ok, s)).
  { cbn [dispatch]. unfold put_root_filehandle. by destruct (list_exports s) as [|e [|e2 l]]. }
  rewrite E. cbn [mbind option_bind finish_op creates_object andb request op_result status].
  set (r1 := put_pseudo_root _ _ _).
  assert (E1 : check_export parse_ip parse_socket (op_code Opputrootfh) (head [arg]) (current_export_id r)
    (MkResponse r1 (Some (ResOpputrootfh (MkPutRootFh4res Nfs4Ok))) Nfs4Ok) s =
    MkResponse r1 (Some (ResOpputrootfh (MkPutRootFh4res Nfs4Ok))) Nfs4Ok) by done.
  rewrite E1. cbn [request op_result status]. rewrite bool_decide_eq_true_2 by done.
  rewrite (loop_turn _ _ r1 s _ Nfs4Ok (caller s r1)); [|done|by apply unselected_proceeds; [..|right|]].
  by rewrite asks_manager_panics.
Qed.
End Props.

(** ** The server of [Demo] running *)

#[local] Abbreviation demo_reachable :=
  (server_reachable (F:=open_handle) Some every_dir no_vfs no_ip no_ip no_name no_name).
#[local] Abbreviation demo_handle := (Some (MkManagerHandle 1 "/export")).

Lemma demo_memory_root : path_of (memory_root (O:=Disk)) = "/"%string.
Proof. by vm_compute. Qed.

Lemma one_export_reachable : demo_reachable one_export.
Proof.
  eapply server_run; [apply (server_start _ _ _ _ _ _ _ empty_disk ClientManager.new (Some Sessions.new)); [constructor|by intros ? [= <-]]|].
  pose proof (step_add_export (F:=open_handle) Some every_dir no_vfs no_ip no_ip no_name no_name "a" "/export" false
    (start empty_disk ClientManager.new (Some Sessions.new) : disk_server)
    (MkExportInfo 1 "a" "/export" false (MkQuotaManager (MkQuotaConfig 0 0) 0) (MkAccessControl default_access_config []))
    (table one_export) (demo_manager 1) empty_disk 1) as H.
  apply H; vm_compute; reflexivity.
Qed.

Lemma two_exports_reachable : demo_reachable two_exports.
Proof.
  eapply server_run; [apply one_export_reachable|].
  pose proof (step_add_export (F:=open_handle) Some every_dir no_vfs no_ip no_ip no_name no_name "b" "/export" false
    one_export
    (MkExportInfo 2 "b" "/export" false (MkQuotaManager (MkQuotaConfig 0 0) 0) (MkAccessControl default_access_config []))
    (table two_exports) (demo_manager 2) empty_disk 1) as H.
  apply H; vm_compute; reflexivity.
Qed.

Lemma one_export_room n : (n <= 1000)%nat -> has_room n one_export.
Proof.
  intros Hn. split.
  - intros id fm E. unfold one_export in E. simpl in E. apply lookup_singleton_Some in E as [_ <-].
    assert (Hs : next_stateid_id (demo_manager 1) = 100) by by vm_compute.
    rewrite Hs. lia.
  - simpl. unfold umax. lia.
Qed.

Definition roomb (n : nat) (s : disk_server) : bool :=
  forallb (fun x => next_stateid_id x.2 + Z.of_nat n + 1 <? 2 ^ 64) (map_to_list (managers s)) &&
  (client_id_seq (clients s) + Z.of_nat n <? umax 64).

Lemma roomb_room n (s : disk_server) : roomb n s = true -> has_room n s.
Proof.
  intros [H1 H2%Z.ltb_lt]%andb_true_iff. split; [|done]. intros id fm Hfm%elem_of_map_to_list.
  rewrite forallb_forall in H1. specialize (H1 (id, fm)). rewrite <- list_elem_of_In in H1. apply H1 in Hfm. simpl in Hfm. lia.
Qed.

Lemma demo_request_ok fm : req_ok (W:=disk_server) (demo_request fm).
Proof. split; simpl; naive_solver. Qed.

Lemma demo_after_reachable ops fm s :
  demo_reachable s -> has_room (length ops) s -> Forall args_ok ops -> demo_reachable (demo_after ops fm s).
Proof.
  intros Hs Hroom Ha. unfold demo_after. destruct (demo_compound ops fm s) as [[[r' rep] s']|] eqn:E; [|done].
  eapply server_run; [exact Hs|]. eapply (step_compound _ _ _ _ _ _ _ (demo_call ops)); [exact Hroom|apply demo_request_ok|exact Ha|exact E].
Qed.

(** A file made, opened for writing and written. *)
Definition demo_open (nm : string) : NfsArgOp :=
  Opopen (MkOpen4args 0 3 0 (MkOpenOwner4 7 [x61]) (How (UNCHECKED4 (MkFattr4 [] []))) (ClaimNull nm)).
Definition demo_write (data : list byte) : NfsArgOp :=
  Opwrite (MkWrite4args (MkStateid4 0 []) 0 FileSync4 data).
Definition write_ops : list NfsArgOp := [Opputrootfh; demo_open "f"; demo_write [x01; x02; x03]].
Definition written : disk_server := demo_after write_ops demo_handle one_export.

Lemma written_reachable : demo_reachable written.
Proof.
  apply demo_after_reachable; [apply one_export_reachable|apply one_export_room; simpl; lia|].
  by repeat constructor.
Qed.

Lemma server_components_ok_witness :
  exists fm, managers written !! 1 = Some fm /\ length (lockdb fm) = 1%nat /\
    reachable fm /\ FileManagerProofs.inv 0 fm.
Proof.
  destruct (server_components_ok (F:=open_handle) Some every_dir no_vfs no_ip no_ip no_name no_name
    demo_memory_root written written_reachable) as (Hm & _).
  destruct (managers written !! 1) as [fm|] eqn:E; [|by vm_compute in E].
  exists fm. split; [done|]. split; [|by eapply Hm].
  apply (f_equal (fun x => (fun f => length (lockdb f)) <$> x)) in E. vm_compute in E. by injection E.
Defined.

(** PUTROOTFH, PUTPUBFH and GETFH answered, an OPEN without a name left without a result. *)
Lemma compound_results_typed_witness :
  let ops := [Opputrootfh; Opputpubfh; Opgetfh; demo_open ""] in
  exists r' rep s', demo_compound ops demo_handle one_export = Some (r', rep, s') /\
    exists st res, rep = reply st "t" res /\ completes ops st res /\ st = Nfs4errInval /\ length res = 3%nat.
Proof.
  intros ops. destruct (demo_compound ops demo_handle one_export) as [[[r' rep] s']|] eqn:E; [|by vm_compute in E].
  exists r', rep, s'. split; [done|].
  destruct (compound_results_typed (F:=open_handle) Some every_dir no_vfs no_ip no_ip no_name no_name demo_memory_root
    (demo_call ops) (MkCompound4args "t" 0 ops) (demo_request demo_handle) one_export r' rep s') as [(st & res & Hrep & Hc & _) _];
    [apply one_export_reachable|by apply one_export_room; simpl; lia|apply demo_request_ok|by repeat constructor|done|exact E|].
  exists st, res. split; [exact Hrep|]. split; [exact Hc|].
  apply (f_equal (option_map (fun x => match x.1.2 with
    | MsgAccepted (MkAcceptedReply _ (Success c)) => (compound4res_status c, length (compound4res_resarray c))
    | _ => (Nfs4Ok, 0%nat) end))) in E.
  vm_compute in E. rewrite Hrep in E. injection E as E1 E2. split; [exact (eq_sym E1)|exact (eq_sym E2)].
Defined.

Lemma operations_never_panic_witness :
  exists resp s', dispatch no_ip no_ip (execute (F:=open_handle) no_ip no_ip no_name no_name) (Oplocku
    (MkLocku4args ReadLt 0 (MkStateid4 0 []) 0 1)) (demo_request demo_handle) one_export = Some (resp, s') /\
    status resp = Nfs4errBadStateid.
Proof.
  destruct (operations_never_panic (F:=open_handle) Some every_dir no_vfs no_ip no_ip no_name no_name demo_memory_root
    (Oplocku (MkLocku4args ReadLt 0 (MkStateid4 0 []) 0 1)) (demo_request demo_handle) one_export) as (resp & s' & E & _);
    [apply one_export_reachable|apply one_export_room; lia|apply demo_request_ok|done..|].
  exists resp, s'. split; [exact E|]. apply (f_equal (option_map (fun x => status x.1))) in E. vm_compute in E.
  by injection E.
Defined.

Lemma pseudo_root_panics_witness :
  demo_compound [Opputrootfh; Opclose (MkClose4args 0 (MkStateid4 0 []))] demo_handle two_exports = None.
Proof.
  apply (pseudo_root_panics (F:=open_handle) no_ip no_ip no_name no_name (Opclose (MkClose4args 0 (MkStateid4 0 [])))
    "10.0.0.1" demo_handle 1 1 (Some ∅) "t"); [by vm_compute|done..].
Defined.
