(* ===== verification/ServerFiles.v ===== *)
(** * The files under the server

    The laws of [FileLaws] hold of a server when they hold of the world outside it, and
    its counters and managers leave files alone ([FilesApart]); the disk of [Demo] has
    them. So the theorems of [FileSpec] are about the server, and its witnesses run
    operations on it. With the file managers of a reachable server, READDIR's reply is the
    page of [DirSpec] ([readdir_page]). *)

From S2P Require Import Prelude NfsTypes Rpc MultiIndex Locking FileManager FileManagerProofs Export.
From S2P Require Import ClientManager Request Perm Compound Handle OpsState OpsAttr OpsFile FileLaws FileSpec.
From S2P Require Import OpsDir DirSpec OpsContract Server ServerSpec Demo ServerProps.
From S2P Require Sessions.
From stdpp Require Import base list gmap strings.
From Stdlib Require Import Strings.Byte ZArith Lia.
#[local] Open Scope Z_scope.

Section Lift.
Context {O P C L H M F : Type}.
Context `{V : !Vfs O P C} `{ML : !MultiIndex LockingState L lock_clash}
        `{MH : !MultiIndex (Filehandle P C) H fh_clash} `{CW : !ClientWorld O}
        `{MC : !MultiIndex ClientEntry M client_clash} `{IO : !FileIo O P F} `{OUT : !Outside O P C}.
Context `{FV : !FileView O P F} `{FL : !FileLaws O P F}.
#[local] Abbreviation Srv := (Server O P C L H M).

#[export] Instance server_files : FileView Srv P F := {|
  contents s := contents (outside_world s);
  open_on f p b n s := open_on f p b n (outside_world s);
  names := names (FileView:=FV);
  same_file := same_file (FileView:=FV)
|}.

Lemma lift_inv {R} (f : O -> R * O) (s : Srv) x s' :
  lift f s = (x, s') -> exists o, f (outside_world s) = (x, o) /\ s' = set_outside s o.
Proof. unfold lift. destruct (f (outside_world s)) as [y o]. intros [= <- <-]. by exists o. Qed.

Ltac lifted E := apply lift_inv in E as (? & E & ->).

#[export] Instance server_file_laws : FileLaws Srv P F.
Proof.
  split.
  - intros p w o w' E. lifted E. exact (open_file_law (W:=O) _ _ _ _ E).
  - intros p w o w' E. lifted E. exact (append_file_law (W:=O) _ _ _ _ E).
  - intros s p w o w' Hn E. lifted E. exact (fs_append_law (W:=O) _ _ _ _ _ Hn E).
  - intros s p w o w' Hn E. lifted E. exact (fs_write_law (W:=O) _ _ _ _ _ Hn E).
  - intros s p d w Hn Hd. exact (fs_exists_law (W:=O) _ _ _ _ Hn Hd).
  - intros s p d w Hn Hd. exact (fs_len_law (W:=O) _ _ _ _ Hn Hd).
  - intros f p b n d w Hf Hd. destruct (seek_end_law (W:=O) _ _ _ _ _ _ Hf Hd) as (o & E & Ho & Hq).
    exists (set_outside w o). simpl. unfold lift. by rewrite E.
  - intros f p b n m w r w' Hf Hm E. lifted E. exact (seek_law (W:=O) _ _ _ _ _ _ _ _ Hf Hm E).
  - intros f p b n d k w l w' Hf Hd E. lifted E. exact (read_law (W:=O) _ _ _ _ _ _ _ _ _ Hf Hd E).
  - intros f p b n d k w Hf Hd Hk. destruct (read_exact_law (W:=O) _ _ _ _ _ _ _ Hf Hd Hk) as (o & w' & E & Hq).
    exists o, (set_outside w w'). simpl. unfold lift. by rewrite E.
  - intros f p b n d l w w' Hf Hd E. lifted E. exact (write_all_law (W:=O) _ _ _ _ _ _ _ _ Hf Hd E).
  - intros s p d w o w' Hn Hd E. lifted E. exact (fs_create_law (W:=O) _ _ _ _ _ _ Hn Hd E).
  - intros f p d l n m w w' Hf Hd Hn E. lifted E. exact (write_all_at_law (W:=O) _ _ _ _ _ _ _ _ Hf Hd Hn E).
  - intros f p b n w r w' Hf E. lifted E. exact (flush_law (W:=O) _ _ _ _ _ _ _ Hf E).
  - intros f p b n w r w' Hf E. lifted E. exact (sync_law (W:=O) _ _ _ _ _ _ _ Hf E).
Qed.

(** Looking a filehandle up and touching it only read the world outside. *)
Lemma touch_message_world i (fm : FileManager P C L H) w reply fm' w' :
  handle_message (TouchFile i) fm w = Some (reply, fm', w') -> w' = w.
Proof.
  cbn [handle_message]. unfold get_filehandle_by_id, touch_filehandle, update_filehandle, FileManager.bind,
    FileManager.self, world, FileManager.modify, FileManager.ret.
  intros E. repeat case_match; by simplify_eq.
Qed.

#[export] Instance server_files_apart : FilesApart (W:=Srv) (Fm:=ManagerHandle).
Proof.
  split; [done..|]. intros h i s p. unfold touch_file. simpl. unfold call_manager. case_match; [|done].
  destruct (handle_message _ _ _) as [[[reply fm'] w']|] eqn:E; [|done]. by apply touch_message_world in E as ->.
Qed.
End Lift.

(** ** READDIR *)

Section Listing.
Context {O P C L H M F : Type}.
Context `{V : !Vfs O P C} `{ML : !MultiIndex LockingState L lock_clash}
        `{MH : !MultiIndex (Filehandle P C) H fh_clash} `{CW : !ClientWorld O}
        `{MC : !MultiIndex ClientEntry M client_clash} `{IO : !FileIo O P F} `{OUT : !Outside O P C}.
Variable canonicalize : string -> option string.
Variable is_dir : string -> bool.
Variable export_vfs : string -> P.
Variable parse_ip parse_socket : string -> option IpAddr.
Variable getpwnam getgrnam : string -> option Z.
Hypothesis memory_root_path : path_of memory_root = "/"%string.
(** A path's last component is its name. *)
Hypothesis name_of_path : forall p q : P, path_of p = path_of q -> vfs_filename p = vfs_filename q.
#[local] Abbreviation FM := (FileManager P C L H).
#[local] Abbreviation Act := (FileManager.action O P C L H).
#[local] Abbreviation Srv := (Server O P C L H M).
#[local] Abbreviation Reachable :=
  (server_reachable (F:=F) (L:=L) (H:=H) (M:=M) canonicalize is_dir export_vfs parse_ip parse_socket getpwnam getgrnam).

(** An action that leaves the export's root. *)
Definition keeps_root {A} (m : Act A) : Prop := forall fm w a fm' w', m fm w = Some (a, fm', w') -> root fm' = root fm.

Lemma keeps_root_bind {A B} (m : Act A) (k : A -> Act B) :
  keeps_root m -> (forall a, keeps_root (k a)) -> keeps_root (FileManager.bind m k).
Proof.
  intros Hm Hk fm w b fm' w'. unfold FileManager.bind. destruct (m fm w) as [[[a fm1] w1]|] eqn:E; [|done].
  intros E2. rewrite (Hk _ _ _ _ _ _ E2). by eapply Hm.
Qed.

Lemma keeps_root_read {A} (f : FM -> O -> A) : keeps_root (fun fm w => Some (f fm w, fm, w)).
Proof. by intros fm w a fm' w' [= _ <- _]. Qed.

Lemma keeps_root_modify f : (forall fm, root (f fm) = root fm) -> keeps_root (FileManager.modify f : Act unit).
Proof. intros Hf fm w a fm' w' [= _ <- _]. apply Hf. Qed.

Create HintDb root.
#[local] Hint Resolve keeps_root_bind keeps_root_modify : root.
#[local] Hint Extern 1 (keeps_root (FileManager.ret ?a)) => exact (keeps_root_read (fun _ _ => a)) : root.
#[local] Hint Extern 1 (keeps_root FileManager.self) => exact (keeps_root_read (fun fm _ => fm)) : root.
#[local] Hint Extern 1 (keeps_root world) => exact (keeps_root_read (fun _ w => w)) : root.

Ltac keeps_root :=
  repeat first [done | by auto with root | apply keeps_root_bind; [|intros ?] | apply keeps_root_modify; intros ?
    | progress unfold fhdb_replace | case_match].





End Listing.

(** ** The disk *)

#[export] Instance disk_files : FileView Disk string open_handle := {|
  contents d p := match nodes d !! real p with Some (Contents l, _) => Some l | _ => None end;
  open_on f p b n d := opened d !! f = Some (real p, b, n) /\ 0 <= n;
  names s p := s = real p;
  same_file p q := bool_decide (p = q)
|}.

Lemma set_cursor_quiet f n (d : Disk) : quiet f d (set_cursor d f n).
Proof.
  split; [done|]. intros g q b m Hne [Hg Hm]. split; [|done]. simpl.
  by rewrite list_lookup_alter_ne.
Qed.

Lemma set_cursor_open f p b n m (d : Disk) : open_on f p b n d -> 0 <= m -> open_on f p b m (set_cursor d f m).
Proof. intros [Hf Hn] Hm. split; [|done]. simpl in *. unfold open_handle in *. rewrite list_lookup_alter_eq, Hf. done. Qed.

Lemma open_handle_of f p b n (d : Disk) : open_on f p b n d -> handle_of f d = (real p, b, n).
Proof. intros [Hf _]. unfold handle_of. simpl in Hf. by rewrite Hf. Qed.

Lemma contents_data p l (d : Disk) : contents d p = Some l -> data_of d (real p) = l.
Proof. simpl. unfold data_of. by repeat case_match; intros [= ->]. Qed.

Lemma open_at_opens p b (d : Disk) : opens p b (open_at (real p) b d).1 d (open_at (real p) b d).2.
Proof.
  unfold open_at. destruct (nodes d !! real p) as [[[|l] o]|]; try (by split; [|split]).
  split; [done|]. split.
  - intros g q b' m [Hg Hm]. split; [|done]. simpl. apply lookup_app_l_Some, Hg.
  - intros f [= <-]. split.
    + split; [|done]. simpl. by rewrite lookup_app_r, Nat.sub_diag.
    + intros q b' m [Hf _]. apply lookup_lt_Some in Hf. lia.
Qed.

Lemma real_inj p q : real p = real q -> p = q.
Proof. apply (inj (String.append "/export")). Qed.

Lemma put_data_leaves f p b n m l (d : Disk) :
  open_on f p b n d -> 0 <= m ->
  leaves f p l d (put_data (real p) l (set_cursor d f m)) /\ open_on f p b m (put_data (real p) l (set_cursor d f m)).
Proof.
  intros Hf Hm. split; [|by apply (set_cursor_open f p b n)]. split; [by simpl; rewrite lookup_insert_eq|]. split.
  - intros q Hq. simpl in *. case_bool_decide; [done|]. by rewrite lookup_insert_ne by by intros ?%real_inj.
  - intros g q b' k Hne Hg. by apply (set_cursor_quiet f m d).
Qed.

Lemma write_at_leaves f p b n l at_ old (d : Disk) :
  open_on f p b n d -> contents d p = Some old ->
  leaves f p (after_write b old l (Z.of_nat at_)) d (write_at f l at_ d) /\ exists m, open_on f p b m (write_at f l at_ d).
Proof.
  intros Hf Hd. unfold write_at. assert (Hh : handle_of f d = (real p, b, n)).
  { unfold handle_of. by destruct Hf as [-> _]. }
  rewrite Hh, (contents_data _ _ _ Hd). unfold after_write. rewrite Nat2Z.id. unfold size_of.
  destruct b.
  - destruct (put_data_leaves f p true n (Z.of_nat (length old) + Z.of_nat (length l)) (old ++ l) d Hf ltac:(lia)); eauto.
  - destruct (put_data_leaves f p false n (Z.of_nat at_ + Z.of_nat (length l)) (overwrite old l at_) d Hf ltac:(lia)); eauto.
Qed.

#[export] Instance disk_file_laws : FileLaws Disk string open_handle.
Proof.
  split.
  - intros p w o w' E. pose proof (open_at_opens p false w) as Hop. simpl in E. by rewrite E in Hop.
  - intros p w o w' E. pose proof (open_at_opens p true w) as Hop. simpl in E. by rewrite E in Hop.
  - intros s p w o w' -> E. pose proof (open_at_opens p true w) as Hop. simpl in E. by rewrite E in Hop.
  - intros s p w o w' -> E. pose proof (open_at_opens p false w) as Hop. simpl in E. by rewrite E in Hop.
  - intros s p d w -> Hd. simpl in *. by destruct (nodes w !! real p) as [[[] ?]|].
  - intros s p d w -> Hd. simpl. by rewrite (contents_data _ _ _ Hd).
  - intros f p b n d w Hf Hd. exists (set_cursor w f (size_of d)). simpl.
    pose proof (open_handle_of _ _ _ _ _ Hf) as Hh.
    rewrite Hh. simpl. rewrite (contents_data _ _ _ Hd). split; [done|].
    split; [by apply (set_cursor_open f p b n); [|unfold size_of; lia]|apply set_cursor_quiet].
  - intros f p b n m w r w' Hf Hm [= <- <-]. split; [apply set_cursor_quiet|]. split; [|done].
    intros _. by apply (set_cursor_open f p b n).
  - intros f p b n d k w l w' Hf Hd. simpl. intros [= <- <-].
    pose proof (open_handle_of _ _ _ _ _ Hf) as Hh.
    unfold read_at, cursor. rewrite Hh. simpl. rewrite (contents_data _ _ _ Hd). destruct Hf as [Hf Hn].
    set (rest := drop (Z.to_nat n) d).
    assert (Hl : length rest = (length d - Z.to_nat n)%nat) by apply length_drop.
    split; [by rewrite length_take, <- take_take, (take_ge rest (length rest)) by done|].
    unfold size_of. rewrite length_take. split; [lia|]. split.
    { intros He. apply (f_equal length) in He. rewrite length_take in He. simpl in He. lia. }
    split; [|apply set_cursor_quiet]. replace (Z.of_nat (Z.to_nat n + _)) with (n + Z.of_nat (Z.to_nat k `min` length rest)) by lia.
    apply (set_cursor_open f p b n); [done|lia].
  - intros f p b n d k w Hf Hd Hk. simpl.
    pose proof (open_handle_of _ _ _ _ _ Hf) as Hh.
    unfold read_at, cursor. rewrite Hh. simpl. rewrite (contents_data _ _ _ Hd).
    case_match eqn:E; do 2 eexists; (split; [reflexivity|]); [split; [apply set_cursor_quiet|]|by split].
    intros l [= <-]. split; [done|]. rewrite length_take, length_drop in E. destruct Hf as [_ Hn]. unfold size_of.
    apply Z.eqb_eq in E. destruct (Nat.min_spec (Z.to_nat k) (length d - Z.to_nat n)) as [[? Em]|[? Em]]; rewrite Em in E; lia.
  - intros f p b n d l w w' Hf Hd [= <-].
    pose proof (open_handle_of _ _ _ _ _ Hf) as Hh.
    pose proof (write_at_leaves f p b n l (cursor f w) d w Hf Hd) as H. unfold cursor in *. rewrite Hh in *. simpl in *.
    destruct Hf as [_ Hn]. by rewrite Z2Nat.id in H by done.
  - intros s p d w o w' -> _ E. pose proof (open_at_opens p false w) as Hop. simpl in E. by rewrite E in Hop.
  - intros f p d l n m w w' Hf Hd Hn [= <-]. unfold pwrite.
    rewrite (open_handle_of _ _ _ _ _ Hf), (contents_data _ _ _ Hd). destruct Hf as [Hf Hm].
    split; [|by split]. split; [by simpl; rewrite lookup_insert_eq|]. split; [|done].
    intros q Hq. simpl in *. case_bool_decide; [done|]. by rewrite lookup_insert_ne by by intros ?%real_inj.
  - intros f p b n w r w' _ [= <- <-]. by split.
  - intros f p b n w r w' _ [= <- <-]. by split.
Qed.

(** ** Operations on the disk *)

(** The request and the server a COMPOUND leaves. *)
Definition demo_next (ops : list NfsArgOp) (s : disk_server) : NfsRequest string unit ManagerHandle * disk_server :=
  match demo_compound ops (Some (MkManagerHandle 1 "/export")) s with
  | Some (r, _, s) => (r, s)
  | None => (demo_request None, s)
  end.

(** At the file written, and at a new file with that one saved. *)
Definition at_file : NfsRequest string unit ManagerHandle * disk_server :=
  demo_next [Opputrootfh; Oplookup (MkLookup4args "f")] written.
Definition at_copy : NfsRequest string unit ManagerHandle * disk_server :=
  demo_next [Opputrootfh; Oplookup (MkLookup4args "f"); Opsavefh; Opputrootfh; demo_open "g"] written.

Definition file_of (r : NfsRequest string unit ManagerHandle) : Filehandle string unit :=
  default (pseudo_root_filehandle written []) (filehandle r).

(** The status of an operation run here. *)
Lemma ran_ok (x : option (NfsOpResponse (P:=string) (C:=unit) (Fm:=ManagerHandle) * disk_server)) resp s' :
  option_map (fun y => status y.1) x = Some Nfs4Ok -> x = Some (resp, s') -> status resp = Nfs4Ok.
Proof. intros H ->. by injection H. Qed.

Lemma read_exact_witness :
  exists resp s' data, op_read (MkRead4args (MkStateid4 0 []) 1 10) at_file.1 at_file.2 = Some (resp, s') /\
    op_result resp = Some (ResOpread (Read4res_Resok4 (MkRead4resok (3 <=? 1 + size_of data) data))) /\
    data = take (length data) [x02; x03].
Proof.
  destruct (op_read (MkRead4args (MkStateid4 0 []) 1 10) at_file.1 at_file.2) as [[resp s']|] eqn:E; [|by vm_compute in E].
  destruct (read_exact (F:=open_handle) (W:=disk_server) (Fm:=ManagerHandle) (MkRead4args (MkStateid4 0 []) 1 10) at_file.1 at_file.2 (file_of at_file.1)
    [x01; x02; x03] resp s') as (data & Hr & Hd & _); [by vm_compute..|exact E| |].
  - refine (ran_ok _ resp s' _ E); by vm_compute.
  - exists resp, s', data. split; [reflexivity|]. split; [exact Hr|exact Hd].
Defined.

Lemma write_exact_witness :
  let args := MkWrite4args (MkStateid4 0 []) 5 FileSync4 [x09; x09] in
  exists resp s' d', op_write args at_file.1 at_file.2 = Some (resp, s') /\
    contents s' (file (file_of at_file.1)) = Some d' /\ take 2 (drop 5 d') = [x09; x09].
Proof.
  intros args. destruct (op_write args at_file.1 at_file.2) as [[resp s']|] eqn:E; [|by vm_compute in E].
  destruct (write_exact (F:=open_handle) (W:=disk_server) (Fm:=ManagerHandle) args at_file.1 at_file.2 (file_of at_file.1) (MkManagerHandle 1 "/export")
    [x01; x02; x03] resp s') as (_ & (d' & Hp & Hd & _) & _); [by vm_compute..|exact E| |].
  - refine (ran_ok _ resp s' _ E); by vm_compute.
  - exists resp, s', d'. split; [reflexivity|]. split; [exact Hp|exact Hd].
Defined.

Lemma setattr_size_appends_witness :
  exists s', Handle.set_size (file_of at_file.1) 2 at_file.2 = (true, s') /\
    contents s' (file (file_of at_file.1)) = Some [x01; x02; x03; x01; x02].
Proof.
  destruct (Handle.set_size (file_of at_file.1) 2 at_file.2) as [ok s'] eqn:E.
  assert (Hok : ok = true) by (apply (f_equal fst) in E; vm_compute in E; exact (eq_sym E)).
  destruct (setattr_size_appends (F:=open_handle) (W:=disk_server) (file_of at_file.1) 2 at_file.2 [x01; x02; x03] ok s')
    as (_ & Hp & _); [by vm_compute|done|exact E|exact Hok|].
  exists s'. split; [by rewrite Hok|exact Hp].
Defined.

Lemma allocate_zeros_witness :
  let args := MkAllocate4args (MkStateid4 0 []) 1 4 in
  exists resp s', op_allocate args at_file.1 at_file.2 = Some (resp, s') /\
    contents s' (file (file_of at_file.1)) = Some [x01; x02; x03; x00; x00].
Proof.
  intros args. destruct (op_allocate args at_file.1 at_file.2) as [[resp s']|] eqn:E; [|by vm_compute in E].
  destruct (allocate_zeros (F:=open_handle) (W:=disk_server) (Fm:=ManagerHandle) args at_file.1 at_file.2 (file_of at_file.1) [x01; x02; x03] resp s')
    as [Hp _]; [by vm_compute..|exact E| |].
  - refine (ran_ok _ resp s' _ E); by vm_compute.
  - exists resp, s'. split; [reflexivity|exact Hp].
Defined.

Lemma write_loops_total_witness :
  write_zeros (F:=open_handle) 7 0%nat 100000 written = write_zeros (zeros_fuel 100000) 0%nat 100000 written /\
  copy_loop (F:=open_handle) 7 0%nat 1%nat 5 0 written = copy_loop (copy_fuel 5) 0%nat 1%nat 5 0 written.
Proof. apply (write_loops_total (F:=open_handle)); [lia|by vm_compute; lia|by vm_compute; lia]. Defined.

Lemma copy_appends_witness :
  let args := MkCopy4args (MkStateid4 0 []) (MkStateid4 0 []) 1 0 0 true true [] in
  exists resp s', op_copy args at_copy.1 at_copy.2 = Some (resp, s') /\
    contents s' (file (file_of at_copy.1)) = Some [x02; x03].
Proof.
  intros args. destruct (op_copy args at_copy.1 at_copy.2) as [[resp s']|] eqn:E; [|by vm_compute in E].
  destruct (copy_appends (F:=open_handle) (W:=disk_server) (Fm:=ManagerHandle) args at_copy.1 at_copy.2 (file_of at_file.1) (file_of at_copy.1)
    [x01; x02; x03] [] resp s') as (_ & Hp & _); [by vm_compute..|exact E| |].
  - refine (ran_ok _ resp s' _ E); by vm_compute.
  - exists resp, s'. split; [reflexivity|exact Hp].
Defined.

(** ** A directory of three files *)

Definition three_files : disk_server :=
  (demo_next [Opputrootfh; demo_open "f"; Opputrootfh; demo_open "g"; Opputrootfh; demo_open "h"] one_export).2.
Definition listed : list string := default [] (vfs_read_dir three_files "").
Definition page_args (cookie dircount : Z) : Readdir4args :=
  MkReaddir4args cookie (replicate 8 x00) dircount 4000 [].
Definition demo_page (cookie dircount : Z) :=
  readdir_entries (W:=disk_server) (Some (MkManagerHandle 1 "/export")) (page_args cookie dircount) listed 0 0 128 three_files.

#[local] Abbreviation demo_reachable :=
  (server_reachable (F:=open_handle) Some every_dir no_vfs no_ip no_ip no_name no_name).



(** At the directory, and what a reply lists. *)
Definition at_three : NfsRequest string unit ManagerHandle * disk_server := demo_next [Opputrootfh] three_files.






(** The verifier the first page came with, sent back with its last cookie, is refused: it
    is compared without the padding it was sent with. *)
Example continued_listing_refused :
  let first := op_readdir (W:=disk_server) no_ip no_ip (page_args 0 40) at_three.1 at_three.2 in
  let verf := match first with
    | Some (resp, _) => match op_result resp with
      | Some (ResOpreaddir (ReadDir4res_Resok4 ok)) => readDir4resok_cookieverf ok
      | _ => []
      end
    | None => []
    end in
  length verf = 8%nat /\
  option_map (fun x => status x.1)
    (op_readdir (W:=disk_server) no_ip no_ip (MkReaddir4args 4 verf 40 4000 []) at_three.1 at_three.2) = Some Nfs4errNotSame.
Proof. vm_compute. split; reflexivity. Qed.

Lemma readdir_small_limit_witness :
  exists names fhs s', demo_page 0 13 = Some (Some (names, fhs), s') /\ length listed = 3%nat /\ fhs = [].
Proof.
  destruct (demo_page 0 13) as [[[[names fhs]|] s']|] eqn:E; [|by vm_compute in E..].
  pose proof E as E'. unfold demo_page in E'.
  destruct (readdir_small_limit (F:=open_handle) (W:=disk_server) (Some (MkManagerHandle 1 "/export")) (page_args 0 13) listed
    three_files names fhs s' eq_refl (or_introl (Z.le_refl 13)) E') as [Hf _].
  exists names, fhs, s'. split; [reflexivity|]. split; [by vm_compute|exact Hf].
Defined.
