(* ===== verification/Interleave.v ===== *)
(** * COMPOUNDs among each other ([nfs/src/lib.rs], [server/nfs40.rs])

    Connections are tasks, and where a COMPOUND awaits a reply or a lock, other tasks run.
    [Among] is the world as a COMPOUND finds it when it is not alone: the states of the
    server in which it reads and acts, one pair for each of its actions. An action (a
    message of an actor, a call that changes files, one access to a counter, a limiter or
    the session table) happens in the next state, and what it leaves is put on record; what
    it reads before comes from an earlier one, the view, so that others may act between a
    check and what is done on it. The operations are those of [Execute], unchanged: they are
    written for any world. [Service] makes the steps of a connection out of it: its next
    action is the one on record when the COMPOUND is run on what it has seen so far.

    A COMPOUND that has seen all its states goes on alone. *)

From S2P Require Import Prelude NfsTypes Rpc MultiIndex Locking FileManager FileManagerProofs Export.
From S2P Require Import RateLimiter ClientManager ClientManagerSpec Request Perm Compound Handle OpsState OpsAttr.
From S2P Require Import OpsFile OpsDir Ops41 Execute OpsStatus OpsContract OpsSound Server ServerSpec ServerProps.
From S2P Require Sessions.
From stdpp Require Import base list gmap strings.
From Stdlib Require Import Strings.Byte ZArith Lia.
#[local] Open Scope Z_scope.

Section Among.
Context {O P C L H M F : Type}.
Context `{V : !Vfs O P C} `{ML : !MultiIndex LockingState L lock_clash}
        `{MH : !MultiIndex (Filehandle P C) H fh_clash} `{CW : !ClientWorld O}
        `{MC : !MultiIndex ClientEntry M client_clash} `{IO : !FileIo O P F} `{OUT : !Outside O P C}.
#[local] Abbreviation Srv := (Server O P C L H M).

(** The states to read and to act in, those of the actions to come, and the actions so far,
    each with the state before and after. *)
Record Among : Type := MkAmong { view : Srv; cur : Srv; later : list (Srv * Srv); record : list (Srv * Srv) }.

Definition act {R} (f : Srv -> R * Srv) (w : Among) : R * Among :=
  let '(x, s) := f (cur w) in
  (x, match later w with
      | (v, c) :: l => MkAmong v c l (record w ++ [(cur w, s)])
      | [] => MkAmong s s [] (record w ++ [(cur w, s)])
      end).

Definition act_ (f : Srv -> Srv) (w : Among) : Among := (act (fun s => (tt, f s)) w).2.

#[export] Instance among_vfs : Vfs Among P C := {|
  vfs_as_str := vfs_as_str;
  vfs_parent := vfs_parent;
  vfs_join := vfs_join;
  vfs_exists w := vfs_exists (view w);
  vfs_is_dir w := vfs_is_dir (view w);
  vfs_len w := vfs_len (view w);
  vfs_create_file w p := act (fun s => vfs_create_file s p) w;
  vfs_create_dir w p := act (fun s => vfs_create_dir s p) w;
  vfs_remove_file w p := act (fun s => vfs_remove_file s p) w;
  vfs_remove_dir w p := act (fun s => vfs_remove_dir s p) w;
  vfs_move_file w p q := act (fun s => vfs_move_file s p q) w;
  from_path w := from_path (view w);
  fs_read_dir w := fs_read_dir (view w);
  current_time w := current_time (view w);
  default_hash := default_hash;
  cache_spawn w x p i e := act (fun s => cache_spawn s x p i e) w
|}.

#[export] Instance among_io : FileIo Among P F := {|
  vfs_open_file p := act (vfs_open_file p);
  vfs_append_file p := act (vfs_append_file p);
  vfs_is_file w := vfs_is_file (view w);
  vfs_filename := vfs_filename;
  vfs_read_dir w := vfs_read_dir (view w);
  vfs_move_dir w p q := act (fun s => vfs_move_dir s p q) w;
  file_seek_end f := act (file_seek_end f);
  file_seek f n := act (file_seek f n);
  file_read f n := act (file_read f n);
  file_read_exact f n := act (file_read_exact f n);
  file_write f d := act (file_write f d);
  file_write_all f d := act (file_write_all f d);
  file_write_all_at f d n := act (file_write_all_at f d n);
  file_flush f := act (file_flush f);
  file_sync_all f := act (file_sync_all f);
  fs_exists w := fs_exists (view w);
  fs_metadata_len w := fs_metadata_len (view w);
  fs_open_append n := act (fs_open_append n);
  fs_open_write n := act (fs_open_write n);
  fs_open_create n := act (fs_open_create n);
  fs_read_link w := fs_read_link (view w);
  fs_symlink a b := act (fs_symlink a b);
  fs_hard_link a b := act (fs_hard_link a b);
  fs_rename a b := act (fs_rename a b);
  libc_chown n u g := act (libc_chown n u g);
  libc_chmod n m := act (libc_chmod n m);
  libc_utimens_now n := act (libc_utimens_now n)
|}.

(** A cache's [commit] is an action of the cache, and so is each message it sends. *)
Definition among_hear (w : Among) (told : Z * list byte * bool) : Among :=
  let '(x, i, written) := told in
  let w := if written : bool then (act (call_manager (MkManagerHandle x "") (TouchFile i)) w).2 else w in
  (act (call_manager (MkManagerHandle x "") (DropWriteCacheHandle i)) w).2.

#[export] Instance among_channels : Channels Among P C ManagerHandle := {|
  fm_call h m := act (call_manager h m);
  cm_call m := act (call_clients m);
  wc_write_bytes c n d := act_ (wc_write_bytes c n d);
  wc_commit c w := let '(told, w) := act (lift (cache_commit c)) w in fold_left among_hear told w
|}.

Definition among_found (x : result (Filehandle P C) NfsStat4 * Among) : option (Filehandle P C) * Among :=
  (match x.1 with Ok fh => Some fh | Err _ => None end, x.2).

#[export] Instance among_actors : Actors Among P C ManagerHandle := {|
  list_exports w := list_exports (view w);
  export_by_id_of w := export_by_id_of (view w);
  access_of w := access_of (view w);
  fm_export_root := manager_root;
  fm_root_filehandle h w := among_found (get_root_filehandle h w);
  fm_filehandle_for_id h i w := among_found (get_filehandle_for_id h i w);
  fm_filehandle_for_path h p w := among_found (get_filehandle_for_path h p w);
  fm_update_filehandle h fh w := handle_update_filehandle h fh w;
  system_time w := system_time (view w);
  memory_fs_root := memory_root
|}.

(** Counters and sessions change under their lock: what is changed is what is read then. *)
#[export] Instance among_shared : Shared Among ManagerHandle := {|
  export_by_name_of w := export_by_name_of (view w);
  quota_of w := quota_of (cur w);
  set_quota x q := act_ (set_quota x q);
  stats_of w := stats_of (cur w);
  set_stats x v := act_ (set_stats x v)
|}.

#[export] Instance among_sessions : SessionStore Among := {|
  session_manager w := session_manager (cur w);
  put_session_manager m := act_ (put_session_manager m)
|}.

Section Compound.
Variable parse_ip parse_socket : string -> option IpAddr.
Variable getpwnam getgrnam : string -> option Z.

(** [server_compound] among others. *)
Definition among_compound (msg : CallBody) (r : NfsRequest P C ManagerHandle) (w : Among)
    : option (NfsRequest P C ManagerHandle * ReplyBody * Among) :=
  serve_compound (F:=F) parse_ip parse_socket getpwnam getgrnam
    (fun w p u g => act (lift (fun o => out_lchown o p u g)) w)
    (fun w x bytes => act (fun s => server_try_consume s x bytes) w)
    (fun w => out_in_grace (outside_world (view w))) msg r w.
End Compound.

(** ** What holds among others

    Run on states of the server that are in order and have room, a COMPOUND takes steps of
    the server only, from the states it was given, and its reply is complete. *)

Section Promise.
Variable canonicalize : string -> option string.
Variable is_dir : string -> bool.
Variable export_vfs : string -> P.
Variable parse_ip parse_socket : string -> option IpAddr.
Variable getpwnam getgrnam : string -> option Z.
Hypothesis memory_root_path : path_of memory_root = "/"%string.
#[local] Abbreviation Inv := (server_inv is_dir).
#[local] Abbreviation step := (server_step (F:=F) canonicalize is_dir export_vfs parse_ip parse_socket getpwnam getgrnam).
(** The stateids and client ids the COMPOUND may take, and the states it is to act in. *)
Variable K : nat.
Variable given : list Srv.

Record among_inv (k : nat) (w : Among) : Prop := {
  among_room : (k <= K)%nat;
  among_view : Inv (S k) (view w);
  among_cur : Inv (S k) (cur w);
  among_later : Forall (fun x => Inv (S K) x.1 /\ Inv (S K) x.2) (later w);
  among_steps : Forall (fun x => step x.1 x.2) (record w);
  among_given : given `prefix_of` (record w).*1 ++ cur w :: (later w).*2
}.

Lemma act_value {R} (f : Srv -> R * Srv) w : (act f w).1 = (f (cur w)).1.
Proof. unfold act. by destruct (f (cur w)). Qed.

Lemma act_inv {R} j k (f : Srv -> R * Srv) w :
  (k <= j)%nat -> (Inv (S j) (cur w) -> Inv (S k) (f (cur w)).2 /\ step (cur w) (f (cur w)).2) -> among_inv j w -> among_inv k (act f w).2.
Proof.
  intros Hkj Hf [Hr Hv Hc Hl Hs Hg]. destruct (Hf Hc) as [Hi Hst]. unfold act. destruct (f (cur w)) as [x s] eqn:E.
  simpl in Hi, Hst. assert (Hs' : Forall (fun x => step x.1 x.2) (record w ++ [(cur w, s)])).
  { apply Forall_app. split; [done|]. by apply Forall_singleton. }
  destruct (later w) as [|[v c] l]; cbn [snd].
  - split; cbn [view cur later record]; [lia|done..|]. rewrite fmap_app, <- app_assoc. cbn. etrans; [exact Hg|]. simpl.
    apply prefix_app. by exists [s].
  - apply Forall_cons in Hl as [[Hv' Hc'] Hl].
    split; cbn [view cur later record]; [lia|by apply (server_inv_less is_dir (S K) (S k)); [lia|]..|done|done|].
    rewrite fmap_app, <- app_assoc. exact Hg.
Qed.

Lemma act_lift {R} k (f : O -> R * O) : keeps (among_inv k) (act (lift f)).
Proof.
  intros w. apply act_inv; [done|]. intros Hs. split; [by apply lift_keeps|].
  unfold lift. destruct (f (outside_world (cur w))). apply step_outside.
Qed.

Lemma among_less k w : among_inv (S k) w -> among_inv k w.
Proof. intros [Hr Hv Hc Hl Hs Hg]. split; [lia|by apply (server_inv_less is_dir (S (S k)) (S k)); [lia|]..|done|done|done]. Qed.

Lemma among_zero k w : among_inv k w -> among_inv 0 w.
Proof. induction k as [|k IH]; [done|]. intros Hw. by apply IH, among_less. Qed.

Lemma room_one k (s : Srv) : Inv (S k) s -> has_room 1 s.
Proof. intros [_ Hroom]. by apply (has_room_less 1 (S k)); [lia|]. Qed.

Lemma among_manager k h m w :
  among_inv (if issues m then S k else k) w -> msg_ok m ->
  among_inv k (act (call_manager h m) w).2 /\ forall reply, (act (call_manager h m) w).1 = Some reply -> reply_ok m reply.
Proof.
  intros Hw Hm. split.
  - eapply act_inv; [|intros Hs|exact Hw]; [destruct (issues m); lia|]. split.
    + apply call_manager_inv; [|done]. by destruct (issues m).
    + apply step_manager; [done|]. by eapply room_one.
  - intros reply. rewrite act_value. destruct Hw as [_ _ Hc _ _ _].
    destruct (call_manager_inv is_dir (S k) h m (cur w)) as [_ Hx]; [by destruct (issues m)|done|apply Hx].
Qed.

Lemma among_lookup k h p i w :
  among_inv k w ->
  among_inv k (among_found (send_filehandle_request h p i w)).2 /\
  forall fh, (among_found (send_filehandle_request h p i w)).1 = Some fh -> fh_ok fh.
Proof.
  intros Hw. unfold send_filehandle_request, among_found. cbn [fm_call among_channels].
  destruct (among_manager k h (GetFilehandle p i) w Hw Logic.I) as [Hi Hreply].
  destruct (act _ w) as [[reply|] w']; [|done].
  specialize (Hreply reply eq_refl). simpl in Hi, Hreply. destruct reply as [| |[fh|]| | | | | | | | | |]; try done; simpl.
  split; [done|]. by destruct p, i.
Qed.

Lemma among_commit k c w : among_inv k w -> among_inv k (wc_commit c w).
Proof.
  intros Hw. cbn [wc_commit among_channels]. pose proof (act_lift k (cache_commit c) w Hw) as H1.
  destruct (act _ w) as [told w1]. cbn [snd] in H1. revert w1 H1.
  induction told as [|[[x i] written] told IH]; intros w1 H1; [done|]. apply IH. unfold among_hear.
  apply among_manager; [|done]. destruct written; [|done]. by apply among_manager.
Qed.

#[export] Instance among_promises : Promises (Fm:=ManagerHandle) (F:=F) among_inv.
Proof.
  split; intros; try apply act_lift; try (by intros w Hw; apply among_lookup).
  - by apply among_less.
  - by apply among_manager.
  - split.
    + apply (act_inv (if is_upsert m then S k else k) k); [by destruct (is_upsert m); lia|intros Hs|done]. split.
      * apply call_clients_inv; [done|]. by destruct (is_upsert m).
      * apply step_clients; [done|]. by eapply room_one.
    + intros reply. cbn [cm_call among_channels]. rewrite act_value. unfold call_clients.
      pose proof (client_replies m (clients (cur w)) (outside_world (cur w)) reply) as Hr.
      destruct (client_handle_message _ _ _) as [[o c] w']. exact Hr.
  - by apply (among_manager k fm (UpdateFilehandle fh)).
  - apply (listed_promise (Promises:=server_promises is_dir memory_root_path) (S k) (view w)); [by apply among_view|done].
  - apply (export_promise (Promises:=server_promises is_dir memory_root_path) (S k) (view w) nm); [by apply among_view|done].
  - apply memory_root_path.
  - apply (act_inv k k); [done| |done]. intros Hs. split; [by apply server_inv_outside|apply step_outside].
  - by apply among_commit.
  - apply (act_inv k k); [done| |done]. intros Hs. split; [|by eapply step_sessions].
    by eapply (sessions_promise (Promises:=server_promises is_dir memory_root_path)).
  - apply (act_inv k k); [done| |done]. intros Hs. split; [|apply step_quota].
    apply (quota_promise (Promises:=server_promises is_dir memory_root_path) (S k) x n (cur w) Hs).
  - apply (act_inv k k); [done| |done]. intros Hs. split; [|apply step_stats].
    apply (stats_promise (Promises:=server_promises is_dir memory_root_path) (S k) x s (cur w) Hs).
Qed.

(** A request is in order in either world. *)
Lemma req_ok_among (r : NfsRequest P C ManagerHandle) :
  req_ok (V:=among_vfs) r <-> req_ok (V:=server_vfs (O:=O) (V:=V) (L:=L) (H:=H) (M:=M)) r.
Proof. split; intros []; split; assumption. Qed.

(** A COMPOUND among others. *)
Lemma among_compound_sound msg (r : NfsRequest P C ManagerHandle) w r' rep w' :
  among_inv (length (ops_of msg)) w -> req_ok (V:=server_vfs (O:=O) (V:=V) (L:=L) (H:=H) (M:=M)) r -> Forall args_ok (ops_of msg) ->
  among_compound parse_ip parse_socket getpwnam getgrnam msg r w = Some (r', rep, w') ->
  among_inv 0 w' /\ req_ok (V:=server_vfs (O:=O) (V:=V) (L:=L) (H:=H) (M:=M)) r' /\ answers_compound msg rep.
Proof.
  rewrite <- !req_ok_among. intros Hw Hr Ha E. eapply (compound_sound (F:=F) among_inv) in E; [exact E|..].
  - intros k w1 x u g Hw1. by apply act_lift.
  - intros k w1 x n Hw1. eapply act_inv; [done| |exact Hw1]. intros Hs. split; [by apply try_consume_keeps|apply step_limiter].
  - rewrite ops_of_args, Nat.add_0_r. exact Hw.
  - done.
  - intros a Em. unfold ops_of in Ha. by rewrite Em in Ha.
Qed.
End Promise.
End Among.
#[global] Arguments Among : clear implicits.
