(* ===== verification/WriteCache.v ===== *)
(** * Write caches ([filemanager/caching.rs], [filemanager/handle.rs])

    A write cache is an actor per file that unstable WRITEs are sent to; it has the file
    open. A handle on it is its number; what was sent to it and not yet handled waits in
    its mailbox. [cached_vfs] and its companions add the caches to any world outside, so
    that the server of [Server] runs with them. *)

From S2P Require Import Prelude NfsTypes MultiIndex Locking FileManager Export ClientManager Request Handle FileLaws Server.
From stdpp Require Import base list gmap strings.
From Stdlib Require Import Strings.Byte ZArith Lia.
#[local] Open Scope Z_scope.

(** [manager] is the export whose file manager made the cache. *)
Record WriteCache (P F : Type) : Type := MkWriteCache {
  cache_file : option F; dirty : bool; cache_vfs : P; cache_fh : list byte; manager : Z
}.
Arguments MkWriteCache {P F}.
Arguments cache_file {P F}.
Arguments dirty {P F}.
Arguments cache_vfs {P F}.
Arguments cache_fh {P F}.
Arguments manager {P F}.

Inductive WriteCacheMessage : Type :=
| Write (offset : Z) (data : list byte)
| Commit.

Section Actor.
Context {W P F : Type} `{IO : !FileIo W P F}.
#[local] Abbreviation Cache := (WriteCache P F).

Definition set_dirty (c : Cache) (b : bool) : Cache := MkWriteCache (cache_file c) b (cache_vfs c) (cache_fh c) (manager c).

(** [WriteCache::new] *)
Definition WriteCache_new (x : Z) (p : P) (i : list byte) (real_path : string) (w : W) : Cache * W :=
  let '(f, w) := fs_open_create real_path w in (MkWriteCache f false p i x, w).

(** A failed write is not told to anyone. *)
Definition cache_take (offset : Z) (data : list byte) (c : Cache) (w : W) : Cache * W :=
  match cache_file c with
  | Some f =>
    match file_write_all_at f data offset w with
    | (true, w) => (set_dirty c true, w)
    | (false, w) => (c, w)
    end
  | None =>
    match vfs_append_file (cache_vfs c) w with
    | (Some f, w) => (set_dirty c true, (file_write_all f data (file_seek f offset w).2).2)
    | (None, w) => (c, w)
    end
  end.

(** [Commit], and what it tells the file manager: that it is done with the filehandle,
    after a touch if there was something to write. *)
Definition cache_flush (c : Cache) (w : W) : (Z * list byte * bool) * Cache * W :=
  let told := (manager c, cache_fh c, dirty c) in
  if dirty c then
    let w := match cache_file c with Some f => (file_sync_all f w).2 | None => w end in (told, set_dirty c false, w)
  else (told, c, w).

(** [handle_message] *)
Definition cache_message (m : WriteCacheMessage) (c : Cache) (w : W) : list (Z * list byte * bool) * Cache * W :=
  match m with
  | Write offset data => let '(c, w) := cache_take offset data c w in ([], c, w)
  | Commit => let '(told, c, w) := cache_flush c w in ([told], c, w)
  end.

(** [run_file_write_cache], on what is in the mailbox: what it tells the file manager,
    itself, and the world. *)
Fixpoint run_cache (l : list WriteCacheMessage) (c : Cache) (w : W) : list (Z * list byte * bool) * Cache * W :=
  match l with
  | [] => ([], c, w)
  | m :: l =>
    let '(told, c, w) := cache_message m c w in
    let '(later, c, w) := run_cache l c w in (told ++ later, c, w)
  end.
End Actor.

(** ** A world with caches *)

Section World.
Context {B P C0 F : Type}.
Context `{V : !Vfs B P C0} `{IO : !FileIo B P F} `{CW : !ClientWorld B} `{OUT : !Outside B P C0}.

Record CacheActor : Type := MkCacheActor { cache : WriteCache P F; mailbox : list WriteCacheMessage }.
Definition Cached : Type := B * list CacheActor.

Definition on_disk {R} (f : B -> R * B) (w : Cached) : R * Cached := let '(x, b) := f w.1 in (x, (b, w.2)).

(** [WriteCacheHandle::new] *)
Definition spawn_cache (w : Cached) (x : Z) (p : P) (i : list byte) (real_path : string) : nat * Cached :=
  let '(c, b) := WriteCache_new x p i real_path w.1 in (length w.2, (b, w.2 ++ [MkCacheActor c []])).

(** [WriteCacheHandle::write_bytes] *)
Definition write_bytes (c : nat) (offset : Z) (data : list byte) (w : Cached) : Cached :=
  (w.1, alter (fun a => MkCacheActor (cache a) (mailbox a ++ [Write offset data])) c w.2).

(** The actor's turns until its mailbox is empty. *)
Definition drain (c : nat) (w : Cached) : list (Z * list byte * bool) * Cached :=
  match w.2 !! c with
  | None => ([], w)
  | Some a =>
    let '(told, k, b) := run_cache (mailbox a) (cache a) w.1 in (told, (b, <[c := MkCacheActor k []]> w.2))
  end.

(** [WriteCacheHandle::commit] waits for the answer to its message. *)
Definition commit (c : nat) (w : Cached) : list (Z * list byte * bool) * Cached :=
  drain c (w.1, alter (fun a => MkCacheActor (cache a) (mailbox a ++ [Commit])) c w.2).

#[export] Instance cached_vfs : Vfs Cached P nat := {|
  vfs_as_str := vfs_as_str;
  vfs_parent := vfs_parent;
  vfs_join := vfs_join;
  vfs_exists w := vfs_exists w.1;
  vfs_is_dir w := vfs_is_dir w.1;
  vfs_len w := vfs_len w.1;
  vfs_create_file w p := on_disk (fun b => vfs_create_file b p) w;
  vfs_create_dir w p := on_disk (fun b => vfs_create_dir b p) w;
  vfs_remove_file w p := on_disk (fun b => vfs_remove_file b p) w;
  vfs_remove_dir w p := on_disk (fun b => vfs_remove_dir b p) w;
  vfs_move_file w p q := on_disk (fun b => vfs_move_file b p q) w;
  from_path w := from_path w.1;
  fs_read_dir w := fs_read_dir w.1;
  current_time w := current_time w.1;
  default_hash := default_hash;
  cache_spawn := spawn_cache
|}.

#[export] Instance cached_io : FileIo Cached P F := {|
  vfs_open_file p := on_disk (vfs_open_file p);
  vfs_append_file p := on_disk (vfs_append_file p);
  vfs_is_file w := vfs_is_file w.1;
  vfs_filename := vfs_filename;
  vfs_read_dir w := vfs_read_dir w.1;
  vfs_move_dir w p q := on_disk (fun b => vfs_move_dir b p q) w;
  file_seek_end f := on_disk (file_seek_end f);
  file_seek f n := on_disk (file_seek f n);
  file_read f n := on_disk (file_read f n);
  file_read_exact f n := on_disk (file_read_exact f n);
  file_write f d := on_disk (file_write f d);
  file_write_all f d := on_disk (file_write_all f d);
  file_write_all_at f d n := on_disk (file_write_all_at f d n);
  file_flush f := on_disk (file_flush f);
  file_sync_all f := on_disk (file_sync_all f);
  fs_exists w := fs_exists w.1;
  fs_metadata_len w := fs_metadata_len w.1;
  fs_open_append n := on_disk (fs_open_append n);
  fs_open_write n := on_disk (fs_open_write n);
  fs_open_create n := on_disk (fs_open_create n);
  fs_read_link w := fs_read_link w.1;
  fs_symlink a b := on_disk (fs_symlink a b);
  fs_hard_link a b := on_disk (fs_hard_link a b);
  fs_rename a b := on_disk (fs_rename a b);
  libc_chown n u g := on_disk (libc_chown n u g);
  libc_chmod n m := on_disk (libc_chmod n m);
  libc_utimens_now n := on_disk (libc_utimens_now n)
|}.

#[export] Instance cached_clients : ClientWorld Cached := {| now := on_disk now; random_token := on_disk random_token |}.

#[export] Instance cached_outside : Outside Cached P nat := {|
  cache_write c offset data w := write_bytes c offset data w;
  cache_commit := commit;
  clock w := clock w.1;
  memory_root := memory_root;
  out_lchown w p u g := on_disk (fun b => out_lchown b p u g) w;
  out_in_grace w := out_in_grace w.1
|}.
End World.
#[global] Arguments CacheActor : clear implicits.
#[global] Arguments Cached : clear implicits.

(** ** What a commit promises *)

Section Spec.
Context {W P C F : Type} `{V : !Vfs W P C} `{IO : !FileIo W P F} `{FV : !FileView W P F} `{FL : !FileLaws W P F}.
#[local] Abbreviation Cache := (WriteCache P F).

(** Positional writes one after the other, each with whether it worked. *)
Fixpoint pwrites (f : F) (writes : list (Z * list byte)) (w : W) : list bool * W :=
  match writes with
  | [] => ([], w)
  | (o, x) :: writes =>
    let '(ok, w) := file_write_all_at f x o w in let '(oks, w) := pwrites f writes w in (ok :: oks, w)
  end.

(** The same through the [vfs] crate, which opens the file to append for every write:
    whether it could be opened, and whether the write worked. *)
Fixpoint vfs_writes (p : P) (writes : list (Z * list byte)) (w : W) : list (bool * bool) * W :=
  match writes with
  | [] => ([], w)
  | (o, x) :: writes =>
    let '(ok, w) :=
      match vfs_append_file p w with
      | (Some f, w) => let '(ok, w) := file_write_all f x (file_seek f o w).2 in ((true, ok), w)
      | (None, w) => ((false, false), w)
      end in
    let '(oks, w) := vfs_writes p writes w in (ok :: oks, w)
  end.

(** The bytes of a file after the writes, in order. *)
Definition overwritten (d : list byte) (writes : list (Z * list byte)) : list byte :=
  fold_left (fun d x => overwrite d x.2 (Z.to_nat x.1)) writes d.

Definition as_messages (writes : list (Z * list byte)) : list WriteCacheMessage := map (fun x => Write x.1 x.2) writes.

(** What the writes make of a cache: it is dirty if one of them did anything. *)
Definition some_ok (oks : list bool) : bool := existsb Datatypes.id oks.

Lemma set_dirty_same (c : Cache) : set_dirty c (dirty c) = c.
Proof. by destruct c. Qed.

Lemma run_pwrites f writes : forall (c : Cache) (w : W),
  cache_file c = Some f ->
  run_cache (as_messages writes) c w = ([], set_dirty c (orb (dirty c) (some_ok (pwrites f writes w).1)), (pwrites f writes w).2).
Proof.
  induction writes as [|[o x] writes IH]; intros c w Hc; cbn [as_messages map run_cache pwrites some_ok existsb fst snd].
  { by rewrite orb_false_r, set_dirty_same. }
  cbn [cache_message]. unfold cache_take. rewrite Hc. fold (as_messages writes).
  destruct (file_write_all_at f x o w) as [[] w1].
  - rewrite IH by done. destruct (pwrites f writes w1) as [oks w2]. cbn. by rewrite !orb_true_r.
  - rewrite IH by done. by destruct (pwrites f writes w1) as [oks w2].
Qed.

Lemma run_vfs_writes writes : forall (c : Cache) (w : W),
  cache_file c = None ->
  run_cache (as_messages writes) c w =
    ([], set_dirty c (orb (dirty c) (some_ok (vfs_writes (cache_vfs c) writes w).1.*1)), (vfs_writes (cache_vfs c) writes w).2).
Proof.
  induction writes as [|[o x] writes IH]; intros c w Hc; cbn [as_messages map run_cache vfs_writes some_ok existsb fst snd].
  { cbn. by rewrite orb_false_r, set_dirty_same. }
  cbn [cache_message]. unfold cache_take. rewrite Hc. fold (as_messages writes).
  destruct (vfs_append_file (cache_vfs c) w) as [[f|] w1].
  - destruct (file_write_all f x (file_seek f o w1).2) as [ok w2]. cbn [snd]. rewrite IH by done.
    cbn [cache_vfs set_dirty]. destruct (vfs_writes (cache_vfs c) writes w2) as [oks w3]. cbn. by rewrite !orb_true_r.
  - rewrite IH by done. by destruct (vfs_writes (cache_vfs c) writes w1) as [oks w2].
Qed.

(** When all of them work they are in the file. *)
Lemma pwrites_contents writes : forall f p m d (w : W),
  open_on f p false m w -> contents w p = Some d -> Forall (fun x => 0 <= x.1) writes ->
  Forall (eq true) (pwrites f writes w).1 ->
  let w' := (pwrites f writes w).2 in open_on f p false m w' /\ leaves f p (overwritten d writes) w w'.
Proof.
  induction writes as [|[o x] writes IH]; intros f p m d w Hf Hd Hw; cbn [pwrites overwritten fold_left].
  { intros _. split; [done|]. by split. }
  apply Forall_cons in Hw as [Ho Hw]. destruct (file_write_all_at f x o w) as [ok w1] eqn:E.
  destruct (pwrites f writes w1) as [oks w2] eqn:Ew. cbn [fst snd]. intros [<- Hoks]%Forall_cons. cbn [fst] in Ho.
  destruct (write_all_at_law _ _ _ _ _ _ _ _ Hf Hd Ho E) as [(Hd1 & Hq1 & Hg1) Hf1].
  pose proof (IH f p m _ w1 Hf1 Hd1 Hw) as H. rewrite Ew in H. cbn [fst snd] in H. destruct (H Hoks) as [Hf' (Hd' & Hq' & Hg')].
  split; [done|]. split; [done|].
  split; [intros q Hq; by rewrite (Hq' q Hq), (Hq1 q Hq)|intros g q b k Hne Hg; by apply Hg', Hg1].
Qed.

(** Through the [vfs] crate they are at its end, wherever they were meant to be. *)
Lemma vfs_writes_contents writes : forall p d (w : W),
  contents w p = Some d -> Forall (fun x => 0 <= x.1) writes -> Forall (eq (true, true)) (vfs_writes p writes w).1 ->
  let w' := (vfs_writes p writes w).2 in
  contents w' p = Some (d ++ concat (snd <$> writes)) /\ (forall q, same_file p q = false -> contents w' q = contents w q).
Proof.
  induction writes as [|[o x] writes IH]; intros p d w Hd Hw; cbn [vfs_writes].
  { intros _. cbn. by rewrite app_nil_r. }
  apply Forall_cons in Hw as [Ho Hw]. cbn [fst] in Ho. destruct (vfs_append_file p w) as [[f|] w1] eqn:Ef.
  2: { destruct (vfs_writes p writes w1) as [oks w2]. cbn [fst]. by intros [? _]%Forall_cons. }
  destruct (append_file_law _ _ _ _ Ef) as (Hq0 & _ & Hopen). destruct (Hopen f eq_refl) as [Hf _].
  destruct (file_seek f o w1) as [r w2] eqn:Es. destruct (seek_law _ _ _ _ _ _ _ _ Hf Ho Es) as ([Hq1 _] & Hok & Hno).
  cbn [snd]. destruct (file_write_all f x w2) as [ok w3] eqn:Ew. destruct (vfs_writes p writes w3) as [oks w4] eqn:El.
  cbn [fst snd]. intros [[= <-] Hoks]%Forall_cons.
  assert (Hf2 : exists k, open_on f p true k w2) by (destruct r; eexists; [by apply Hok|by apply Hno]). destruct Hf2 as [k Hf2].
  destruct (write_all_law _ _ _ _ _ _ _ _ Hf2 ltac:(by rewrite Hq1, Hq0) Ew) as [(Hd3 & Hq3 & _) _].
  pose proof (IH p _ w3 Hd3 Hw) as H. rewrite El in H. cbn [fst snd] in H. destruct (H Hoks) as [Hd4 Hq4]. cbn [after_write] in Hd4. split.
  - rewrite Hd4. cbn. by rewrite <- app_assoc.
  - intros q Hq. by rewrite Hq4, Hq3, Hq1, Hq0.
Qed.
End Spec.

Section Commit.
Context {B P C0 F : Type} `{V : !Vfs B P C0} `{IO : !FileIo B P F} `{FV : !FileView B P F} `{FL : !FileLaws B P F}.
#[local] Abbreviation World := (Cached B P F).

Definition write_each (c : nat) (w : World) (writes : list (Z * list byte)) : World :=
  fold_left (fun w x => write_bytes c x.1 x.2 w) writes w.

Lemma write_each_mailbox c a writes : forall w : World,
  w.2 !! c = Some a ->
  (write_each c w writes).1 = w.1 /\
  (write_each c w writes).2 = <[c := MkCacheActor (cache a) (mailbox a ++ as_messages writes)]> w.2.
Proof.
  revert a. induction writes as [|[o x] writes IH]; intros a w Ha.
  { split; [done|]. cbn [write_each fold_left as_messages map]. rewrite app_nil_r, list_insert_id by (by rewrite Ha; destruct a). done. }
  change (write_each c w ((o, x) :: writes)) with (write_each c (write_bytes c o x w) writes).
  change (as_messages ((o, x) :: writes)) with (Write o x :: as_messages writes).
  destruct (IH (MkCacheActor (cache a) (mailbox a ++ [Write o x])) (write_bytes c o x w)) as [E1 E2].
  { cbn [write_bytes snd]. by rewrite list_lookup_alter_eq, Ha. }
  split; [done|]. rewrite E2. cbn [write_bytes snd cache mailbox]. rewrite <- app_assoc. cbn [app].
  apply list_eq. intros i. destruct (decide (i = c)) as [->|Hne].
  - rewrite !list_lookup_insert_eq; [done|by eapply lookup_lt_Some|by rewrite length_alter; eapply lookup_lt_Some].
  - by rewrite !list_lookup_insert_ne, list_lookup_alter_ne by done.
Qed.

(** The cache's turns on writes and a commit. *)
Lemma run_cache_commit ms : forall (k : WriteCache P F) b,
  run_cache (ms ++ [Commit]) k b =
    let '(t1, k, b) := run_cache ms k b in let '(t2, k, b) := cache_flush k b in (t1 ++ [t2], k, b).
Proof.
  induction ms as [|msg ms IH]; intros k b; cbn [app run_cache cache_message].
  - by destruct (cache_flush k b) as [[t k'] b'].
  - destruct (cache_message msg k b) as [[t k'] b']. rewrite IH. destruct (run_cache ms k' b') as [[t1 k1] b1].
    destruct (cache_flush k1 b1) as [[t2 k2] b2]. by rewrite app_assoc.
Qed.

Lemma commit_runs (w : World) c a before after :
  w.2 !! c = Some a -> mailbox a = as_messages before ->
  commit c (write_each c w after) =
    let '(told, k, b) := run_cache (as_messages (before ++ after) ++ [Commit]) (cache a) w.1 in
    (told, (b, <[c := MkCacheActor k []]> w.2)).
Proof.
  intros Ha Hm. destruct (write_each_mailbox c a after w Ha) as [E1 E2].
  unfold commit, drain. cbn [fst snd]. rewrite E1, E2, list_lookup_alter_eq, list_lookup_insert_eq by (by eapply lookup_lt_Some).
  cbn [fmap option_fmap option_map cache mailbox]. rewrite Hm. unfold as_messages. rewrite <- map_app.
  destruct (run_cache _ _ _) as [[told k] b]. do 2 f_equal. apply list_eq. intros i. destruct (decide (i = c)) as [->|Hne].
  - rewrite !list_lookup_insert_eq; [done|by eapply lookup_lt_Some|by rewrite length_alter, length_insert; eapply lookup_lt_Some].
  - by rewrite !list_lookup_insert_ne, list_lookup_alter_ne, list_lookup_insert_ne by done.
Qed.

(** C36: A commit of a write cache is a barrier. When it returns, every write sent to that
    cache before, whether it was waiting or came just now, has been made, once and in the
    order sent, and nothing is left in the mailbox; if any of them worked, or earlier ones
    had, the file has been synced after the last, and the file manager hears that it was
    written, in any case that the cache is done. If every write worked, the file has them
    over what was there, and no other file has changed. Whether one failed, the answer does
    not say. A cache that has no file open puts them at the end of the file instead, through
    the [vfs] crate, and syncs nothing. *)
Theorem commit_is_barrier (w : World) c a p d before after :
  w.2 !! c = Some a -> mailbox a = as_messages before -> Forall (fun x => 0 <= x.1) (before ++ after) ->
  contents w.1 p = Some d ->
  let done_with (dirt : bool) (b : B) :=
    ([(manager (cache a), cache_fh (cache a), dirt)], (b, <[c := MkCacheActor (set_dirty (cache a) false) []]> w.2)) in
  match cache_file (cache a) with
  | Some f =>
    let '(oks, b) := pwrites f (before ++ after) w.1 in
    let dirt := orb (dirty (cache a)) (some_ok oks) in
    commit c (write_each c w after) = done_with dirt (if dirt then (file_sync_all f b).2 else b) /\
    forall m, open_on f p false m w.1 -> Forall (eq true) oks ->
      let b' := if dirt then (file_sync_all f b).2 else b in
      contents b' p = Some (overwritten d (before ++ after)) /\
      (forall q, same_file p q = false -> contents b' q = contents w.1 q)
  | None =>
    let '(oks, b) := vfs_writes (cache_vfs (cache a)) (before ++ after) w.1 in
    commit c (write_each c w after) = done_with (orb (dirty (cache a)) (some_ok oks.*1)) b /\
    (p = cache_vfs (cache a) -> Forall (eq (true, true)) oks ->
      contents b p = Some (d ++ concat (snd <$> before ++ after)) /\
      (forall q, same_file p q = false -> contents b q = contents w.1 q))
  end.
Proof.
  intros Ha Hm Hw Hd. cbv zeta. rewrite (commit_runs w c a before after Ha Hm), run_cache_commit.
  destruct (cache_file (cache a)) as [f|] eqn:Hc.
  - rewrite (run_pwrites f _ _ _ Hc). pose proof (fun m => pwrites_contents (before ++ after) f p m d w.1) as Hp.
    destruct (pwrites f (before ++ after) w.1) as [oks b]. cbn [fst snd] in *. unfold cache_flush.
    cbn [dirty set_dirty cache_file manager cache_fh]. rewrite Hc. split.
    + by destruct (orb (dirty (cache a)) (some_ok oks)); [|destruct (cache a)].
    + intros m Hf Hoks. destruct (Hp m Hf Hd Hw Hoks) as [Hf' (Hd' & Hq & _)].
      destruct (orb _ _); [|done]. destruct (file_sync_all f b) as [ok b'] eqn:Es.
      destruct (sync_law _ _ _ _ _ _ _ Hf' Es) as [Hs _]. cbn [snd]. split; [by rewrite Hs|]. intros q Hne. by rewrite Hs, Hq.
  - rewrite (run_vfs_writes _ _ _ Hc). pose proof (vfs_writes_contents (before ++ after) p d w.1 Hd Hw) as Hp.
    destruct (vfs_writes (cache_vfs (cache a)) (before ++ after) w.1) as [oks b] eqn:Ev. cbn [fst snd] in *. unfold cache_flush.
    cbn [dirty set_dirty cache_file manager cache_fh]. rewrite Hc. split.
    + by destruct (orb (dirty (cache a)) (some_ok oks.*1)); [|destruct (cache a)].
    + intros -> Hoks. rewrite Ev in Hp. by apply Hp.
Qed.
End Commit.
