(* ===== verification/WriteCacheDemo.v ===== *)
(** * Unstable writes, run

    The server of [Server] on the disk of [Demo] with write caches: unstable WRITEs and
    their COMMIT, from one connection and from two. *)

From S2P Require Import Prelude NfsTypes Rpc MultiIndex Locking FileManager Export ClientManager Request Perm.
From S2P Require Import Compound Handle FileLaws Server Demo ServerProps ServerFiles WriteCache.
From S2P Require Sessions.
From stdpp Require Import base list gmap strings.
From Stdlib Require Import Strings.Byte ZArith Lia.
#[local] Open Scope Z_scope.

Definition cached_disk : Type := Cached Disk string open_handle.
Definition cached_server : Type :=
  Server cached_disk string nat (list LockingState) (list (Filehandle string nat)) (list ClientEntry).

Definition cached_start : cached_disk := (empty_disk, []).
Definition cached_manager : FileManager string nat (list LockingState) (list (Filehandle string nat)) :=
  match FileManager.new "" (Some 1) "/export" 1 cached_start with
  | Some (fm, _) => fm
  | None => FileManager.initial "" (Some 1) "/export" 1
  end.
Definition cached_export : cached_server :=
  MkServer cached_start (add_export Some every_dir MkManagerHandle empty_exports "a" "/export" false).2 {[1 := cached_manager]}
    ClientManager.new ∅ (Some Sessions.new) ∅ [].

(** A connection's filehandles, and a COMPOUND on it: its results, and what it leaves. *)
Definition handles : Type := gmap (list byte) (Z * Filehandle string nat).
Definition on_connection (x : handles * cached_server) (ops : list NfsArgOp)
    : option (list NfsResOp4) * (handles * cached_server) :=
  let r := new_request "10.0.0.1" (Some (MkManagerHandle 1 "/export")) 1 1 (Some x.1) in
  match server_compound (F:=open_handle) no_ip no_ip no_name no_name (demo_call ops) r x.2 with
  | Some (r, MsgAccepted (MkAcceptedReply _ (Success res)), s) =>
    (Some (compound4res_resarray res), (default x.1 (filehandle_cache r), s))
  | _ => (None, x)
  end.
Definition next (x : handles * cached_server) (ops : list NfsArgOp) : handles * cached_server := (on_connection x ops).2.

Definition unstable (off : Z) (d : list byte) : NfsArgOp := Opwrite (MkWrite4args (MkStateid4 0 []) off Unstable4 d).
Definition read_f : NfsArgOp := Opread (MkRead4args (MkStateid4 0 []) 0 100).
Definition commit_f : NfsArgOp := Opcommit (MkCommit4args 0 0).

(** One connection makes the file, and writes [ab] to it; its filehandle. *)
Definition first_written : handles * cached_server := next (∅, cached_export) [Opputrootfh; demo_open "f"; unstable 0 [x61;x62]].
Definition fh_f : list byte :=
  match (on_connection first_written [Opputrootfh; Oplookup (MkLookup4args "f"); Opgetfh]).1 with
  | Some [_; _; ResOpgetfh (GetFh4res_Resok4 g)] => getFh4resok_object g
  | _ => []
  end.
Definition put_f : NfsArgOp := Opputfh (MkPutFh4args fh_f).

(** Another looks at the file; then the first commits. *)
Definition other : handles * cached_server := next (∅, first_written.2) [put_f].
Definition committed : handles * cached_server := next (first_written.1, other.2) [put_f; commit_f].

Definition commit_ok (r : NfsResOp4) : bool := match r with ResOpcommit (Commit4res_Resok4 _) => true | _ => false end.
Definition data_read (r : NfsResOp4) : option (list byte) := match r with ResOpread (Read4res_Resok4 d) => Some (read4resok_data d) | _ => None end.
Definition last_two (r : option (list NfsResOp4)) : option (bool * option (list byte)) :=
  match r with Some [_; _; c; d] => Some (commit_ok c, data_read d) | _ => None end.

(** What is written and committed on a connection is read back. *)
Example commit_then_read :
  last_two (on_connection (first_written.1, other.2) [put_f; unstable 0 [x63;x64]; commit_f; read_f]).1 = Some (true, Some [x63;x64]).
Proof. vm_compute. reflexivity. Qed.

(** But a filehandle that another connection looked at before the commit still names the
    cache that the commit has retired: there, a WRITE and its COMMIT are answered with
    success, and the bytes are still waiting in the old cache. *)
Lemma commit_misses_other_cache :
  let r := on_connection (other.1, committed.2) [put_f; unstable 0 [x63;x64]; commit_f; read_f] in
  last_two r.1 = Some (true, Some [x61;x62]) /\
  map mailbox (outside_world r.2.2).2 = [[Write 0 [x63;x64]]; []].
Proof. vm_compute. split; reflexivity. Qed.

(** A cache for a file of the disk, with one write waiting, and one to come. *)
Definition one_file : Disk := (disk_vfs.(vfs_create_file) empty_disk "/f").2.
Definition one_cache : cached_disk := write_bytes 0 1 [x62] (spawn_cache (one_file, []) 1 "/f" [] (real "/f")).2.

Lemma commit_is_barrier_witness :
  contents (commit 0 (write_each 0 one_cache [(0, [x61;x61]); (2, [x63])])).2.1 "/f" = Some [x61;x61;x63].
Proof.
  pose proof (commit_is_barrier (B:=Disk) (F:=open_handle) (P:=string)
    one_cache 0 (MkCacheActor (MkWriteCache (Some 0%nat) false "/f" [] 1) [Write 1 [x62]]) "/f" []
    [(1, [x62])] [(0, [x61;x61]); (2, [x63])] ltac:(vm_compute; reflexivity) eq_refl
    ltac:(repeat constructor; simpl; lia) ltac:(vm_compute; reflexivity)) as H.
  cbv zeta in H. cbn [cache_file cache] in H.
  destruct (pwrites _ _ _) as [oks b] eqn:Ep. destruct H as [E Hc]. rewrite E. cbn [snd fst].
  destruct (Hc 0) as [Hd _].
  - split; [vm_compute; reflexivity|lia].
  - apply (f_equal fst) in Ep. vm_compute in Ep. cbn [fst] in Ep. subst oks. by repeat constructor.
  - exact Hd.
Defined.

(** A cache whose file could not be opened puts a write to offset 0 at the end. *)
Example fallback_appends :
  let w := (put_data (real "/f") [x61;x62] one_file, [MkCacheActor (MkWriteCache None false "/f" [] 1) []]) : cached_disk in
  contents (commit 0 (write_bytes 0 0 [x63] w)).2.1 "/f" = Some [x61;x62;x63].
Proof. vm_compute. reflexivity. Qed.
