(* ===== verification/KrbCrypto.v ===== *)
(** * Kerberos encryption types ([krb5/src/crypto.rs])

    AES-CBC with ciphertext stealing, n-fold, key derivation, authenticated encryption
    and keyed checksums, over the AES and HMAC primitives of the RustCrypto crates, which
    are the class [Primitives] with the laws [PrimitivesOk]. *)

From S2P Require Import Prelude.
From stdpp Require Import base numbers list strings pretty.
From Stdlib Require Import Strings.Byte ZArith Lia.
#[local] Open Scope Z_scope.

(** [krb5/src/lib.rs]'s [Error]. *)
Inductive Error : Type :=
| Token (m : string)
| Asn1 (m : string)
| Integrity
| UnsupportedEnctype (e : Z)
| NoKey (p : string)
| Rejected (m : string)
| KeytabError (m : string)
| Crypto (m : string).

Inductive Enctype : Type :=
| Aes128CtsHmacSha1_96
| Aes256CtsHmacSha1_96
| Aes128CtsHmacSha256_128
| Aes256CtsHmacSha384_192.

#[export] Instance Enctype_eq_dec : EqDecision Enctype.
Proof. solve_decision. Defined.

Definition ALL : list Enctype :=
  [Aes128CtsHmacSha1_96; Aes256CtsHmacSha1_96; Aes128CtsHmacSha256_128; Aes256CtsHmacSha384_192].

Definition number (e : Enctype) : Z :=
  match e with
  | Aes128CtsHmacSha1_96 => 17
  | Aes256CtsHmacSha1_96 => 18
  | Aes128CtsHmacSha256_128 => 19
  | Aes256CtsHmacSha384_192 => 20
  end.

Definition Enctype_from_i32 (v : Z) : option Enctype := List.find (fun e => number e =? v) ALL.

Definition key_len (e : Enctype) : nat :=
  match e with Aes128CtsHmacSha1_96 | Aes128CtsHmacSha256_128 => 16 | _ => 32 end%nat.

Definition hmac_len (e : Enctype) : nat :=
  match e with
  | Aes128CtsHmacSha1_96 | Aes256CtsHmacSha1_96 => 12
  | Aes128CtsHmacSha256_128 => 16
  | Aes256CtsHmacSha384_192 => 24
  end%nat.

Definition is_rfc8009 (e : Enctype) : bool :=
  match e with Aes128CtsHmacSha256_128 | Aes256CtsHmacSha384_192 => true | _ => false end.

Definition rfc8009_mac_bits (e : Enctype) : Z :=
  match e with Aes256CtsHmacSha384_192 => 192 | _ => 128 end.

(** The derived [Debug] of an enctype. *)
Definition Enctype_debug (e : Enctype) : string :=
  match e with
  | Aes128CtsHmacSha1_96 => "Aes128CtsHmacSha1_96"
  | Aes256CtsHmacSha1_96 => "Aes256CtsHmacSha1_96"
  | Aes128CtsHmacSha256_128 => "Aes128CtsHmacSha256_128"
  | Aes256CtsHmacSha384_192 => "Aes256CtsHmacSha384_192"
  end.

(** ** Primitives of other crates

    Block ciphers and MACs take the key first; a MAC over several parts is the MAC of their
    concatenation ([Mac::update]). [pbkdf2] takes the MAC's enctype, the password, the salt,
    the rounds and the length wanted. *)
Class Primitives : Type := {
  aes128_encrypt : list byte -> list byte -> list byte;
  aes128_decrypt : list byte -> list byte -> list byte;
  aes256_encrypt : list byte -> list byte -> list byte;
  aes256_decrypt : list byte -> list byte -> list byte;
  hmac_sha1 : list byte -> list byte -> list byte;
  hmac_sha256 : list byte -> list byte -> list byte;
  hmac_sha384 : list byte -> list byte -> list byte;
  pbkdf2 : Enctype -> list byte -> list byte -> Z -> nat -> list byte
}.

(** AES under a key is a permutation of blocks; the digests have their lengths. *)
Class PrimitivesOk (P : Primitives) : Prop := {
  aes128_length k b : length b = 16%nat -> length (aes128_encrypt k b) = 16%nat;
  aes256_length k b : length b = 16%nat -> length (aes256_encrypt k b) = 16%nat;
  aes128_length' k b : length b = 16%nat -> length (aes128_decrypt k b) = 16%nat;
  aes256_length' k b : length b = 16%nat -> length (aes256_decrypt k b) = 16%nat;
  aes128_left k b : length b = 16%nat -> aes128_decrypt k (aes128_encrypt k b) = b;
  aes256_left k b : length b = 16%nat -> aes256_decrypt k (aes256_encrypt k b) = b;
  aes128_right k b : length b = 16%nat -> aes128_encrypt k (aes128_decrypt k b) = b;
  aes256_right k b : length b = 16%nat -> aes256_encrypt k (aes256_decrypt k b) = b;
  hmac_sha1_length k m : length (hmac_sha1 k m) = 20%nat;
  hmac_sha256_length k m : length (hmac_sha256 k m) = 32%nat;
  hmac_sha384_length k m : length (hmac_sha384 k m) = 48%nat
}.

Section Crypto.
Context `{P : Primitives}.

Inductive AesKey : Type :=
| A128 (k : list byte)
| A256 (k : list byte).

Definition AesKey_new (key : list byte) : result AesKey Error :=
  match length key with
  | 16%nat => Ok (A128 key)
  | 32%nat => Ok (A256 key)
  | n => Err (Crypto ("bad AES key length " +:+ pretty n))
  end.

Definition AesKey_encrypt (k : AesKey) (block : list byte) : list byte :=
  match k with A128 k => aes128_encrypt k block | A256 k => aes256_encrypt k block end.

Definition AesKey_decrypt (k : AesKey) (block : list byte) : list byte :=
  match k with A128 k => aes128_decrypt k block | A256 k => aes256_decrypt k block end.

(** ** CBC with ciphertext stealing *)

Definition bxor (x y : byte) : byte := byte_of_Z (Z.lxor (Z_of_byte x) (Z_of_byte y)).

(** [b] is no longer than [a] and changes its front only. *)
Fixpoint xor16 (a b : list byte) : list byte :=
  match a, b with
  | x :: a, y :: b => bxor x y :: xor16 a b
  | a, _ => a
  end.

Definition zero_block : list byte := replicate 16 x00.

(** [slice::chunks(16)]. *)
Fixpoint chunks_upto (fuel : nat) (l : list byte) : list (list byte) :=
  match fuel, l with
  | S fuel, _ :: _ => take 16 l :: chunks_upto fuel (drop 16 l)
  | _, _ => []
  end.

Definition chunks (l : list byte) : list (list byte) := chunks_upto (length l) l.

Definition div_ceil16 (n : nat) : nat := ((n + 15) / 16)%nat.

Fixpoint cbc_encrypt (aes : AesKey) (prev : list byte) (l : list (list byte)) : list (list byte) :=
  match l with
  | [] => []
  | chunk :: l => let b := AesKey_encrypt aes (xor16 prev chunk) in b :: cbc_encrypt aes b l
  end.

(** The plain blocks, and the last cipher block. *)
Fixpoint cbc_decrypt (aes : AesKey) (prev : list byte) (l : list (list byte)) : list (list byte) * list byte :=
  match l with
  | [] => ([], prev)
  | chunk :: l =>
    let '(plain, last) := cbc_decrypt aes chunk l in
    (xor16 (AesKey_decrypt aes chunk) prev :: plain, last)
  end.

Definition cts_encrypt (key input : list byte) : result (list byte) Error :=
  if (length input <? 16)%nat then Err (Crypto "CTS input shorter than one block") else
  try aes := AesKey_new key in
  let n := div_ceil16 (length input) in
  let blocks := cbc_encrypt aes zero_block (chunks input) in
  if (n =? 1)%nat then Ok (nth 0 blocks []) else
  let last_len := (length input - 16 * (n - 1))%nat in
  Ok (concat (take (n - 2) blocks) ++ nth (n - 1) blocks [] ++ take last_len (nth (n - 2) blocks [])).

Definition cts_decrypt (key input : list byte) : result (list byte) Error :=
  if (length input <? 16)%nat then Err (Crypto "CTS input shorter than one block") else
  try aes := AesKey_new key in
  let n := div_ceil16 (length input) in
  let '(out, prev) := cbc_decrypt aes zero_block (take (n - 2) (chunks input)) in
  if (n =? 1)%nat then Ok (concat out ++ AesKey_decrypt aes input) else
  let base := (16 * (n - 2))%nat in
  let last_len := (length input - 16 * (n - 1))%nat in
  let swapped := take 16 (drop base input) in
  let tail := drop (base + 16) input in
  let z := AesKey_decrypt aes swapped in
  let c_prev := tail ++ drop last_len z in
  let last_plain := xor16 z c_prev in
  let p := xor16 (AesKey_decrypt aes c_prev) prev in
  Ok (concat out ++ p ++ take last_len last_plain).

(** ** MACs *)

Definition hmac (e : Enctype) (key : list byte) (parts : list (list byte)) : list byte :=
  match e with
  | Aes128CtsHmacSha1_96 | Aes256CtsHmacSha1_96 => hmac_sha1 key (concat parts)
  | Aes128CtsHmacSha256_128 => hmac_sha256 key (concat parts)
  | Aes256CtsHmacSha384_192 => hmac_sha384 key (concat parts)
  end.

Definition ct_eq (a b : list byte) : bool :=
  (length a =? length b)%nat &&
  (foldl (fun d xy => Z.lor d (Z.lxor (Z_of_byte xy.1) (Z_of_byte xy.2))) 0 (zip a b) =? 0).

(** ** n-fold

    [u32] sums wrap in release builds; the theorems ask that they are far from it. *)

Definition input_bit (input : list byte) (src : nat) : Z :=
  Z.land (Z.shiftr (Z_of_byte (nth (src / 8) input x00)) (7 - Z.of_nat (src mod 8))) 1.

(** Byte [i] of the copies of the input, the [k]th rotated right by [13 * k] bits. *)
Definition byte_at (input : list byte) (i : nat) : Z :=
  let in_len := length input in
  let in_bits := (in_len * 8)%nat in
  let k := (i / in_len)%nat in
  let pos := (i mod in_len)%nat in
  let rot := ((13 * k) mod in_bits)%nat in
  let bit b := input_bit input ((b + in_bits - rot) mod in_bits)%nat in
  foldl (fun acc j => Z.lor (wrap 8 (Z.shiftl acc 1)) (bit (pos * 8 + j)%nat)) 0 (seq 0 8).

Definition n_fold_lcm (in_len out_len : nat) : nat := (in_len / Nat.gcd in_len out_len * out_len)%nat.

Definition n_fold_sums (input : list byte) (out_len : nat) : list Z :=
  foldl (fun acc i => alter (fun v => wrap 32 (v + byte_at input i)) (i mod out_len)%nat acc)
    (replicate out_len 0) (seq 0 (n_fold_lcm (length input) out_len)).

(** One pass from the last byte to the first: the bytes and the carry out of the first. *)
Fixpoint carry_pass (acc : list Z) : list Z * Z :=
  match acc with
  | [] => ([], 0)
  | v :: acc =>
    let '(acc, carry) := carry_pass acc in
    let v := wrap 32 (v + carry) in (Z.land v 0xff :: acc, Z.shiftr v 8)
  end.

(** The loop adds the carry to the last byte until there is none; every round takes at
    least [256 ^ out_len - 1] off the value, and there are no more of those in it than
    copies ([n_fold_reference]). *)
Fixpoint carry_loop (fuel : nat) (acc : list Z) : list Z :=
  match fuel with
  | O => acc
  | S fuel =>
    let '(acc, carry) := carry_pass acc in
    if carry =? 0 then acc
    else carry_loop fuel (alter (fun v => wrap 32 (v + carry)) (length acc - 1)%nat acc)
  end.

Definition n_fold (input : list byte) (out_len : nat) : list byte :=
  byte_of_Z <$> carry_loop (S (n_fold_lcm (length input) out_len / out_len)) (n_fold_sums input out_len).

(** ** Key derivation *)

Fixpoint dk_blocks (fuel : nat) (aes : AesKey) (len : nat) (block out : list byte) : list byte :=
  match fuel with
  | O => out
  | S fuel =>
    if (len <=? length out)%nat then out else
    let block := AesKey_encrypt aes block in dk_blocks fuel aes len block (out ++ block)
  end.

(** A round adds a block: a round per byte wanted is more than enough. *)
Definition dk (key constant : list byte) : result (list byte) Error :=
  try aes := AesKey_new key in
  Ok (take (length key) (dk_blocks (length key) aes (length key) (n_fold constant 16) [])).

Definition kdf_hmac_sha2 (e : Enctype) (key label : list byte) (k_bits : Z) : list byte :=
  take (Z.to_nat (k_bits / 8)) (hmac e key [be_bytes 4 1; label; [x00]; be_bytes 4 k_bits]).

Definition derive (e : Enctype) (base : list byte) (usage : Z) (tag : byte) : result (list byte) Error :=
  if negb (length base =? key_len e)%nat
  then Err (Crypto ("key length " +:+ pretty (length base) +:+ " does not match " +:+ Enctype_debug e)) else
  let label := be_bytes 4 usage ++ [tag] in
  if is_rfc8009 e then
    Ok (kdf_hmac_sha2 e base label (if byte_eq_dec tag xaa then Z.of_nat (key_len e) * 8 else rfc8009_mac_bits e))
  else dk base label.

Definition string_to_key (e : Enctype) (password salt : list byte) (iterations : option Z)
    : result (list byte) Error :=
  let len := key_len e in
  if is_rfc8009 e then
    let name := String.list_byte_of_string (match e with
      | Aes128CtsHmacSha256_128 => "aes128-cts-hmac-sha256-128" | _ => "aes256-cts-hmac-sha384-192" end) in
    let tkey := pbkdf2 e password (name ++ [x00] ++ salt) (default 32768 iterations) len in
    Ok (kdf_hmac_sha2 e tkey (String.list_byte_of_string "kerberos") (Z.of_nat (len * 8)))
  else
    dk (pbkdf2 e password salt (default 4096 iterations) len) (String.list_byte_of_string "kerberos").

(** ** Encryption and checksums *)

Definition encrypt_with_confounder (e : Enctype) (base_key : list byte) (usage : Z)
    (plaintext confounder : list byte) : result (list byte) Error :=
  try ke := derive e base_key usage xaa in
  try ki := derive e base_key usage x55 in
  let data := confounder ++ plaintext in
  try out := cts_encrypt ke data in
  let mac := if is_rfc8009 e then hmac e ki [zero_block; out] else hmac e ki [data] in
  Ok (out ++ take (hmac_len e) mac).

(** [random] is what the system's generator gives for the confounder. *)
Definition encrypt (e : Enctype) (base_key : list byte) (usage : Z) (plaintext : list byte)
    (random : result (list byte) Error) : result (list byte) Error :=
  try confounder := random in encrypt_with_confounder e base_key usage plaintext confounder.

Definition decrypt (e : Enctype) (base_key : list byte) (usage : Z) (ciphertext : list byte)
    : result (list byte) Error :=
  let h := hmac_len e in
  if (length ciphertext <? 16 + h)%nat then Err Integrity else
  let c := take (length ciphertext - h) ciphertext in
  let mac := drop (length ciphertext - h) ciphertext in
  try ke := derive e base_key usage xaa in
  try ki := derive e base_key usage x55 in
  if is_rfc8009 e then
    if negb (ct_eq (take h (hmac e ki [zero_block; c])) mac) then Err Integrity else
    try data := cts_decrypt ke c in Ok (drop 16 data)
  else
    try data := cts_decrypt ke c in
    if negb (ct_eq (take h (hmac e ki [data])) mac) then Err Integrity else Ok (drop 16 data).

Definition checksum (e : Enctype) (base_key : list byte) (usage : Z) (message : list (list byte))
    : result (list byte) Error :=
  try kc := derive e base_key usage x99 in
  Ok (take (hmac_len e) (hmac e kc message)).
End Crypto.

(** RFC 3961 A.1: the 64-fold of "012345" and the 56-fold of "password". *)
Example n_fold_012345 :
  n_fold (String.list_byte_of_string "012345") 8 = [xbe; x07; x26; x31; x27; x6b; x19; x55].
Proof. vm_compute. reflexivity. Qed.

Example n_fold_password :
  n_fold (String.list_byte_of_string "password") 7 = [x78; xa0; x7b; x6c; xaf; x85; xfa].
Proof. vm_compute. reflexivity. Qed.
