(* ===== verification/KrbCryptoSpec.v ===== *)
(** * Kerberos encryption is exact

    Ciphertext stealing is a permutation of the strings of at least a block, so decryption
    accepts exactly what encryption produces; and n-fold is the ones' complement sum of RFC
    3961. *)

From S2P Require Import Prelude KrbCrypto.
From stdpp Require Import base numbers list strings.
From Stdlib Require Import Strings.Byte ZArith Lia.
#[local] Open Scope Z_scope.

(** ** Bytes and blocks *)

Lemma Z_of_byte_bxor x y : Z_of_byte (bxor x y) = Z.lxor (Z_of_byte x) (Z_of_byte y).
Proof.
  unfold bxor. rewrite Z_of_byte_of_Z. apply Z.mod_small.
  pose proof (Z_of_byte_range x) as Hx. pose proof (Z_of_byte_range y) as Hy.
  assert (0 <= Z.lxor (Z_of_byte x) (Z_of_byte y)) by (apply Z.lxor_nonneg; lia).
  split; [done|]. destruct (Z.eq_dec (Z.lxor (Z_of_byte x) (Z_of_byte y)) 0) as [->|Hnz]; [lia|].
  apply (Z.log2_lt_pow2 _ 8); [lia|]. pose proof (Z.log2_lxor (Z_of_byte x) (Z_of_byte y) ltac:(lia) ltac:(lia)).
  pose proof (Z.log2_le_mono (Z_of_byte x) 255 ltac:(lia)). pose proof (Z.log2_le_mono (Z_of_byte y) 255 ltac:(lia)).
  change (Z.log2 255) with 7 in *. lia.
Qed.

Lemma Z_of_byte_inj x y : Z_of_byte x = Z_of_byte y -> x = y.
Proof. intros E. by rewrite <- (byte_of_Z_of_byte x), E, byte_of_Z_of_byte. Qed.

Lemma bxor_cancel x y : bxor (bxor x y) x = y.
Proof.
  apply Z_of_byte_inj. rewrite !Z_of_byte_bxor.
  by rewrite (Z.lxor_comm (Z_of_byte x)), Z.lxor_assoc, Z.lxor_nilpotent, Z.lxor_0_r.
Qed.

Lemma bxor_comm x y : bxor x y = bxor y x.
Proof. apply Z_of_byte_inj. by rewrite !Z_of_byte_bxor, Z.lxor_comm. Qed.

Lemma length_xor16 a b : length (xor16 a b) = length a.
Proof. revert b. induction a as [|x a IH]; intros [|y b]; simpl; auto. Qed.

Lemma drop_xor16 a b : drop (length b) (xor16 a b) = drop (length b) a.
Proof. revert b. induction a as [|x a IH]; intros [|y b]; simpl; auto. Qed.

Lemma xor16_cancel a b : (length b <= length a)%nat -> take (length b) (xor16 (xor16 a b) a) = b.
Proof.
  revert b. induction a as [|x a IH]; intros [|y b]; simpl; try done; [lia|].
  intros H. by rewrite bxor_cancel, IH by lia.
Qed.

Lemma xor16_cancel_block a b : length b = length a -> xor16 (xor16 a b) a = b.
Proof.
  intros H. rewrite <- (xor16_cancel a b) at 2 by lia.
  by rewrite firstn_all2 by (rewrite !length_xor16; lia).
Qed.

Lemma xor16_comm a b : length a = length b -> xor16 a b = xor16 b a.
Proof. revert b. induction a as [|x a IH]; intros [|y b]; simpl; try done. intros [=]. by rewrite bxor_comm, IH. Qed.

(** Undoing it from the other side: what of [z] the [t] covers is given back by the xor,
    and the rest is [z]'s own. *)
Lemma xor16_steal t z :
  (length t <= length z)%nat ->
  xor16 (t ++ drop (length t) z) (take (length t) (xor16 z (t ++ drop (length t) z))) = z.
Proof.
  revert z. induction t as [|y t IH]; intros [|x z]; simpl; try done; [lia|]. intros H.
  rewrite bxor_comm, (bxor_comm x), bxor_cancel. f_equal. apply IH. lia.
Qed.

(** ** Cutting into blocks *)

Definition is_block (b : list byte) : Prop := length b = 16%nat.

Lemma chunks_upto_enough f l : (length l <= f)%nat -> chunks_upto f l = chunks l.
Proof.
  unfold chunks. revert l. induction f as [f IH] using (well_founded_induction lt_wf). intros l Hl.
  destruct l as [|x l]; [by destruct f|]. destruct f as [|f]; [simpl in Hl; lia|].
  cbn [chunks_upto length]. f_equal. simpl in Hl.
  rewrite (IH f), (IH (length l)) by (rewrite ?length_drop; simpl; lia). done.
Qed.

Lemma chunks_block b l : is_block b -> chunks (b ++ l) = b :: chunks l.
Proof.
  unfold is_block. intros H. unfold chunks at 1. destruct b as [|x b]; [done|].
  cbn [chunks_upto length app]. change (x :: b ++ l) with ((x :: b) ++ l).
  rewrite chunks_upto_enough by (rewrite length_drop, !length_app; simpl in *; lia).
  by rewrite take_app_length', drop_app_length' by done.
Qed.

Lemma chunks_last l : (0 < length l <= 16)%nat -> chunks l = [l].
Proof.
  destruct l as [|x l]; simpl; [lia|]. intros H. unfold chunks. cbn [length chunks_upto].
  rewrite firstn_all2 by (simpl; lia). f_equal. rewrite drop_ge by (simpl; lia). by destruct (length l).
Qed.

Lemma chunks_blocks bs l : Forall is_block bs -> chunks (concat bs ++ l) = bs ++ chunks l.
Proof.
  induction 1 as [|b bs Hb _ IH]; [done|]. cbn [concat app].
  by rewrite <- (assoc_L (++)), chunks_block, IH.
Qed.

(** A string longer than a block: whole blocks, one more, and a last one that is cut. *)
Lemma split_blocks l :
  (16 < length l)%nat ->
  exists bs p r, l = concat bs ++ p ++ r /\ Forall is_block bs /\ is_block p /\ (0 < length r <= 16)%nat.
Proof.
  induction l as [l IH] using (induction_ltof1 _ length). unfold ltof in IH. intros Hl.
  assert (Ht : is_block (take 16 l)) by (unfold is_block; rewrite length_take; lia).
  destruct (decide (length l <= 32)%nat) as [H|H].
  - exists [], (take 16 l), (drop 16 l). rewrite take_drop, length_drop.
    repeat split; [constructor|done|lia|lia].
  - destruct (IH (drop 16 l)) as (bs & p & r & E & Hbs & Hp & Hr); [rewrite length_drop; lia..|].
    exists (take 16 l :: bs), p, r. cbn [concat]. rewrite <- (assoc_L (++)), <- E, take_drop.
    repeat split; [by constructor|done|lia|lia].
Qed.

Lemma length_concat_blocks bs : Forall is_block bs -> length (concat bs) = (16 * length bs)%nat.
Proof. induction 1 as [|b bs Hb _ IH]; [done|]. cbn [concat]. rewrite length_app, IH, Hb. simpl. lia. Qed.

(** The numbers the code computes for such a string. *)
Lemma blocks_count bs p r :
  Forall is_block bs -> is_block p -> (0 < length r <= 16)%nat ->
  let l := concat bs ++ p ++ r in
  div_ceil16 (length l) = (length bs + 2)%nat /\ (length l <? 16)%nat = false /\
  (length l - 16 * (length bs + 2 - 1))%nat = length r.
Proof.
  intros Hbs Hp Hr l. unfold is_block in Hp. assert (Hl : length l = (16 * length bs + 16 + length r)%nat).
  { unfold l. rewrite !length_app, length_concat_blocks by done. lia. }
  rewrite Hl. unfold div_ceil16. repeat split; [|apply Nat.ltb_ge; lia|lia].
  symmetry. apply (Nat.div_unique _ 16 _ (length r - 1)); lia.
Qed.

Section CtsSpec.
Context `{HP : PrimitivesOk}.

Lemma AesKey_length aes b : is_block b -> is_block (AesKey_encrypt aes b).
Proof. destruct aes; intros H; simpl; [by apply aes128_length|by apply aes256_length]. Qed.
Lemma AesKey_length' aes b : is_block b -> is_block (AesKey_decrypt aes b).
Proof. destruct aes; intros H; simpl; [by apply aes128_length'|by apply aes256_length']. Qed.
Lemma AesKey_left aes b : is_block b -> AesKey_decrypt aes (AesKey_encrypt aes b) = b.
Proof. destruct aes; intros H; simpl; [by apply aes128_left|by apply aes256_left]. Qed.
Lemma AesKey_right aes b : is_block b -> AesKey_encrypt aes (AesKey_decrypt aes b) = b.
Proof. destruct aes; intros H; simpl; [by apply aes128_right|by apply aes256_right]. Qed.

Lemma is_block_xor a b : is_block a -> is_block (xor16 a b).
Proof. unfold is_block. by rewrite length_xor16. Qed.

Hint Resolve AesKey_length AesKey_length' is_block_xor : core.

(** ** Chaining *)

Lemma cbc_decrypts aes bs prev :
  Forall is_block bs -> is_block prev ->
  exists prev', is_block prev' /\ cbc_decrypt aes prev (cbc_encrypt aes prev bs) = (bs, prev') /\
    Forall is_block (cbc_encrypt aes prev bs) /\ length (cbc_encrypt aes prev bs) = length bs /\
    forall l, cbc_encrypt aes prev (bs ++ l) = cbc_encrypt aes prev bs ++ cbc_encrypt aes prev' l.
Proof.
  intros Hbs. revert prev. induction Hbs as [|b bs Hb _ IH]; intros prev Hprev; [by exists prev|].
  destruct (IH (AesKey_encrypt aes (xor16 prev b))) as (prev' & ? & E & ? & Hl & Happ); [auto|].
  exists prev'. simpl. rewrite E, AesKey_left by auto. rewrite xor16_cancel_block by (unfold is_block in *; lia).
  split_and!; [done|done|auto|by rewrite Hl|]. intros l. by rewrite Happ.
Qed.

Lemma cbc_encrypts aes cs prev :
  Forall is_block cs -> is_block prev ->
  exists bs prev', is_block prev' /\ cbc_decrypt aes prev cs = (bs, prev') /\
    Forall is_block bs /\ length bs = length cs /\
    forall l, cbc_encrypt aes prev (bs ++ l) = cs ++ cbc_encrypt aes prev' l.
Proof.
  intros Hcs. revert prev. induction Hcs as [|c cs Hc _ IH]; intros prev Hprev; [by exists [], prev|].
  destruct (IH c Hc) as (bs & prev' & ? & E & ? & Hl & Happ).
  exists (xor16 (AesKey_decrypt aes c) prev :: bs), prev'. simpl. rewrite E.
  split_and!; [done|done|constructor; auto|by rewrite Hl|]. intros l.
  rewrite (xor16_comm (AesKey_decrypt aes c)) by (unfold is_block in *; rewrite AesKey_length'; done).
  rewrite (xor16_comm prev (xor16 _ _)) by (rewrite length_xor16; done).
  rewrite xor16_cancel_block by (unfold is_block in *; by rewrite AesKey_length').
  by rewrite AesKey_right, Happ by done.
Qed.

(** ** Stealing *)

Lemma cts_encrypt_blocks key aes bs p r prev' :
  AesKey_new key = Ok aes -> Forall is_block bs -> is_block p -> (0 < length r <= 16)%nat ->
  (forall l, cbc_encrypt aes zero_block (bs ++ l) = cbc_encrypt aes zero_block bs ++ cbc_encrypt aes prev' l) ->
  length (cbc_encrypt aes zero_block bs) = length bs ->
  let c := AesKey_encrypt aes (xor16 prev' p) in
  cts_encrypt key (concat bs ++ p ++ r) =
  Ok (concat (cbc_encrypt aes zero_block bs) ++ AesKey_encrypt aes (xor16 c r) ++ take (length r) c).
Proof.
  intros Hk Hbs Hp Hr Happ Hlen c. destruct (blocks_count bs p r Hbs Hp Hr) as (Hn & Hlt & Hlast).
  unfold cts_encrypt. rewrite Hlt, Hk. cbn [result_bind]. rewrite Hn.
  rewrite (proj2 (Nat.eqb_neq _ 1)) by lia. rewrite Hlast.
  rewrite chunks_blocks, chunks_block, chunks_last, Happ by done. cbn [cbc_encrypt]. fold c.
  replace (length bs + 2 - 2)%nat with (length bs) by lia. replace (length bs + 2 - 1)%nat with (S (length bs)) by lia.
  rewrite <- Hlen. rewrite take_app_length, !app_nth2 by lia. rewrite Nat.sub_succ_l, Nat.sub_diag by lia. done.
Qed.

Lemma cts_decrypt_blocks key aes cs s t out prev :
  AesKey_new key = Ok aes -> Forall is_block cs -> is_block s -> (0 < length t <= 16)%nat ->
  cbc_decrypt aes zero_block cs = (out, prev) ->
  let z := AesKey_decrypt aes s in
  let c := t ++ drop (length t) z in
  cts_decrypt key (concat cs ++ s ++ t) =
  Ok (concat out ++ xor16 (AesKey_decrypt aes c) prev ++ take (length t) (xor16 z c)).
Proof.
  intros Hk Hcs Hs Ht E z c. destruct (blocks_count cs s t Hcs Hs Ht) as (Hn & Hlt & Hlast).
  unfold cts_decrypt. rewrite Hlt, Hk. cbn [result_bind]. rewrite Hn.
  rewrite (proj2 (Nat.eqb_neq _ 1)) by lia. rewrite Hlast, chunks_blocks by done.
  replace (length cs + 2 - 2)%nat with (length cs) by lia. rewrite take_app_length, E.
  rewrite <- length_concat_blocks, drop_app_length by done. rewrite <- drop_drop, drop_app_length.
  rewrite take_app_length', drop_app_length' by done. done.
Qed.

Lemma xor16_zero n a : length a = n -> xor16 a (replicate n x00) = a.
Proof.
  revert a. induction n as [|n IH]; intros [|x a]; simpl; try done. intros [= H]. rewrite IH by done. f_equal.
  apply Z_of_byte_inj. rewrite Z_of_byte_bxor. apply Z.lxor_0_r.
Qed.

Lemma zero_is_block : is_block zero_block.
Proof. done. Qed.

Lemma one_block_ok key aes m :
  AesKey_new key = Ok aes -> is_block m ->
  cts_encrypt key m = Ok (AesKey_encrypt aes m) /\ cts_decrypt key m = Ok (AesKey_decrypt aes m).
Proof.
  intros Hk Hm. unfold cts_encrypt, cts_decrypt. rewrite Hk, Hm. cbn [result_bind].
  change (div_ceil16 16) with 1%nat. cbn -[Nat.ltb AesKey_encrypt AesKey_decrypt chunks xor16 zero_block].
  rewrite chunks_last by (rewrite Hm; lia). cbn -[AesKey_encrypt AesKey_decrypt xor16 zero_block]. split; [|done].
  do 2 f_equal. rewrite xor16_comm by (by rewrite Hm). by apply xor16_zero.
Qed.

Lemma block_or_longer (l : list byte) : (16 <= length l)%nat -> is_block l \/ (16 < length l)%nat.
Proof. unfold is_block. lia. Qed.

Lemma cts_decrypt_encrypt key aes m :
  AesKey_new key = Ok aes -> (16 <= length m)%nat ->
  exists c, cts_encrypt key m = Ok c /\ length c = length m /\ cts_decrypt key c = Ok m.
Proof.
  intros Hk [Hm|Hm]%block_or_longer.
  { exists (AesKey_encrypt aes m). destruct (one_block_ok key aes m) as [-> _]; [done..|].
    destruct (one_block_ok key aes (AesKey_encrypt aes m)) as [_ ->]; [auto..|].
    rewrite AesKey_left by done. rewrite Hm. split_and!; [done| |done]. by apply AesKey_length. }
  destruct (split_blocks m Hm) as (bs & p & r & -> & Hbs & Hp & Hr). clear Hm.
  destruct (cbc_decrypts aes bs zero_block Hbs zero_is_block) as (prev & Hprev & E & Hcs & Hl & Happ).
  rewrite (cts_encrypt_blocks key aes bs p r prev) by done. cbv zeta. set (c := AesKey_encrypt aes (xor16 prev p)).
  assert (Hc : is_block c) by (unfold c; auto). eexists. split; [done|].
  assert (Hs : is_block (AesKey_encrypt aes (xor16 c r))) by auto.
  assert (Ht : length (take (length r) c) = length r) by (rewrite length_take; unfold is_block in Hc; lia).
  split.
  { unfold is_block in *. rewrite !length_app, !length_concat_blocks, Hl by done. lia. }
  erewrite cts_decrypt_blocks; [|done|exact Hcs|exact Hs|lia|exact E]. cbv zeta.
  rewrite Ht, AesKey_left, drop_xor16, take_drop by auto.
  do 3 f_equal; [|by apply xor16_cancel; unfold is_block in Hc; lia].
  unfold c. rewrite AesKey_left by auto. apply xor16_cancel_block. unfold is_block in *. lia.
Qed.

Lemma cts_encrypt_decrypt key aes c :
  AesKey_new key = Ok aes -> (16 <= length c)%nat ->
  exists m, cts_decrypt key c = Ok m /\ length m = length c /\ cts_encrypt key m = Ok c.
Proof.
  intros Hk [Hc|Hc]%block_or_longer.
  { exists (AesKey_decrypt aes c). destruct (one_block_ok key aes c) as [_ ->]; [done..|].
    destruct (one_block_ok key aes (AesKey_decrypt aes c)) as [-> _]; [auto..|].
    rewrite AesKey_right by done. rewrite Hc. split_and!; [done| |done]. by apply AesKey_length'. }
  destruct (split_blocks c Hc) as (cs & s & t & -> & Hcs & Hs & Ht). clear Hc.
  destruct (cbc_encrypts aes cs zero_block Hcs zero_is_block) as (bs & prev & Hprev & E & Hbs & Hl & Happ).
  rewrite (cts_decrypt_blocks key aes cs s t bs prev) by done. set (z := AesKey_decrypt aes s).
  set (c := t ++ drop (length t) z). assert (Hz : is_block z) by (unfold z; auto).
  assert (Hcb : is_block c) by (unfold c, is_block in *; rewrite length_app, length_drop; lia).
  eexists. split; [done|]. assert (Hr : length (take (length t) (xor16 z c)) = length t)
    by (rewrite length_take, length_xor16; unfold is_block in Hz; lia).
  assert (Hd : length (AesKey_decrypt aes c) = 16%nat) by (by apply AesKey_length').
  split; [unfold is_block in *; rewrite !length_app, !length_concat_blocks, length_xor16, Hl by done; lia|].
  assert (Henc : cbc_encrypt aes zero_block bs = cs) by (by rewrite <- (app_nil_r bs), Happ, app_nil_r).
  erewrite cts_encrypt_blocks; [|done|exact Hbs|auto|lia| |by rewrite Henc]; [|intros l; by rewrite Henc, Happ].
  cbv zeta. rewrite Henc, Hr.
  rewrite (xor16_comm (AesKey_decrypt aes c) prev), (xor16_comm prev (xor16 _ _))
    by (unfold is_block in *; rewrite ?length_xor16; congruence).
  rewrite xor16_cancel_block by (unfold is_block in *; congruence).
  rewrite AesKey_right by done. unfold c at 1 2. rewrite xor16_steal by (unfold is_block in Hz; lia).
  unfold z. rewrite AesKey_right by done. unfold c. by rewrite take_app_length.
Qed.

(** ** Derived keys *)

Lemma length_carry_pass acc : length (carry_pass acc).1 = length acc.
Proof. induction acc as [|v acc IH]; simpl; [done|]. destruct (carry_pass acc). simpl in *. by rewrite IH. Qed.

Lemma length_carry_loop fuel acc : length (carry_loop fuel acc) = length acc.
Proof.
  revert acc. induction fuel as [|fuel IH]; intros acc; [done|]. simpl. pose proof (length_carry_pass acc) as H.
  destruct (carry_pass acc) as [acc' carry]. simpl in H. case_match; [done|]. by rewrite IH, length_alter.
Qed.

Lemma length_n_fold_sums input n : length (n_fold_sums input n) = n.
Proof.
  unfold n_fold_sums. transitivity (length (replicate n 0)); [|by rewrite length_replicate].
  generalize (replicate n 0). induction (seq 0 (n_fold_lcm (length input) n)) as [|i l IH]; intros acc; [done|].
  simpl. by rewrite IH, length_alter.
Qed.

Lemma length_n_fold input n : length (n_fold input n) = n.
Proof. unfold n_fold. by rewrite length_fmap, length_carry_loop, length_n_fold_sums. Qed.

Lemma dk_blocks_length fuel aes len block out :
  is_block block -> (len <= length out + fuel)%nat -> (len <= length (dk_blocks fuel aes len block out))%nat.
Proof.
  revert block out. induction fuel as [|fuel IH]; intros block out Hb H; simpl; [lia|].
  destruct (Nat.leb_spec len (length out)); [done|]. apply IH; [auto|].
  rewrite length_app, AesKey_length by done. lia.
Qed.

Lemma hmac_length e k parts : (hmac_len e <= length (hmac e k parts))%nat /\ (key_len e <= length (hmac e k parts) \/ is_rfc8009 e = false)%nat.
Proof.
  destruct e; simpl; rewrite ?hmac_sha1_length, ?hmac_sha256_length, ?hmac_sha384_length; split; auto; lia.
Qed.

Lemma length_mac e k parts : length (take (hmac_len e) (hmac e k parts)) = hmac_len e.
Proof. rewrite length_take. destruct (hmac_length e k parts). lia. Qed.

Lemma AesKey_new_ok e key : length key = key_len e -> exists aes, AesKey_new key = Ok aes.
Proof. intros H. unfold AesKey_new. rewrite H. destruct e; simpl; eauto. Qed.

Lemma derive_ok e base usage tag : length base = key_len e -> exists k, derive e base usage tag = Ok k.
Proof.
  intros H. unfold derive. rewrite H, Nat.eqb_refl. simpl. case_match; [eauto|]. unfold dk.
  destruct (AesKey_new_ok e base H) as [aes ->]. simpl. eauto.
Qed.

Lemma derive_key e base usage :
  length base = key_len e -> exists k aes, derive e base usage xaa = Ok k /\ AesKey_new k = Ok aes.
Proof.
  intros H. enough (exists k, derive e base usage xaa = Ok k /\ length k = key_len e) as (k & -> & Hk).
  { destruct (AesKey_new_ok e k Hk) as [aes ?]. eauto. }
  unfold derive. rewrite H, Nat.eqb_refl. cbn [negb]. destruct (is_rfc8009 e) eqn:E.
  - eexists. split; [done|]. destruct (byte_eq_dec xaa xaa); [|done]. unfold kdf_hmac_sha2. rewrite length_take.
    match goal with |- context [hmac e base ?ps] => destruct (hmac_length e base ps) as [_ [Hl|?]] end; [|congruence].
    rewrite Z.div_mul, Nat2Z.id by done. lia.
  - unfold dk. destruct (AesKey_new_ok e base H) as [aes ->]. simpl. eexists. split; [done|].
    rewrite length_take, H. match goal with |- context [dk_blocks ?f ?a ?l ?b ?o] =>
      assert (l <= length (dk_blocks f a l b o))%nat; [apply dk_blocks_length; [apply length_n_fold|simpl; lia]|] end.
    lia.
Qed.

Lemma ct_eq_spec a b : ct_eq a b = true <-> a = b.
Proof.
  assert (H : forall l d, 0 <= d -> (foldl (fun d xy => Z.lor d (Z.lxor (Z_of_byte xy.1) (Z_of_byte xy.2))) d l = 0 <->
    d = 0 /\ Forall (fun xy : byte * byte => xy.1 = xy.2) l)).
  { induction l as [|[x y] l IH]; intros d Hd; simpl; [naive_solver|].
    pose proof (Z_of_byte_range x). pose proof (Z_of_byte_range y).
    rewrite IH by (apply Z.lor_nonneg; split; [done|]; apply Z.lxor_nonneg; lia).
    rewrite Z.lor_eq_0_iff, Z.lxor_eq_0_iff, Forall_cons. simpl. split; [intros ((? & ?) & ?)|intros (? & -> & ?)]; auto.
    split_and!; [done| |done]. by apply Z_of_byte_inj. }
  unfold ct_eq. rewrite andb_true_iff, Nat.eqb_eq, Z.eqb_eq, H by lia. split.
  - intros (Hl & _ & Hf). revert b Hl Hf. induction a as [|x a IH]; intros [|y b] [=]; [done|]. simpl.
    intros [Hxy Hf]%Forall_cons. simpl in Hxy. f_equal; auto.
  - intros <-. split_and!; [done..|]. induction a; simpl; constructor; done.
Qed.

Lemma ct_eq_refl a : ct_eq a a = true.
Proof. by apply ct_eq_spec. Qed.

(** ** Authenticated encryption *)

(** Encryption succeeds on every message, decryption gives the message back, and accepts
    nothing that was not encrypted. *)
Lemma encrypts e key usage p confounder :
  length key = key_len e -> is_block confounder ->
  exists c, encrypt_with_confounder e key usage p confounder = Ok c /\
    length c = (16 + length p + hmac_len e)%nat /\ decrypt e key usage c = Ok p.
Proof.
  intros Hk Hc. destruct (derive_key e key usage Hk) as (ke & aes & Eke & Eaes).
  destruct (derive_ok e key usage x55 Hk) as (ki & Eki).
  unfold encrypt_with_confounder, decrypt. rewrite Eke, Eki. cbn [result_bind].
  destruct (cts_decrypt_encrypt ke aes (confounder ++ p) Eaes) as (c & -> & Hl & Hd).
  { rewrite length_app, Hc. lia. }
  rewrite length_app, Hc in Hl. cbn [result_bind].
  set (mac := if is_rfc8009 e then _ else _). assert (Hm : length (take (hmac_len e) mac) = hmac_len e)
    by (unfold mac; case_match; apply length_mac).
  eexists. split; [done|]. split; [rewrite length_app; lia|].
  rewrite length_app, Hm, Nat.add_sub, take_app_length, drop_app_length.
  rewrite (proj2 (Nat.ltb_ge _ _)) by lia. cbn [result_bind]. rewrite Hd.
  unfold mac. destruct (is_rfc8009 e); cbn [result_bind]; rewrite ct_eq_refl; cbn [negb];
    by rewrite drop_app_length'.
Qed.

Lemma decrypts e key usage p c :
  length key = key_len e -> decrypt e key usage c = Ok p ->
  exists confounder, is_block confounder /\ encrypt_with_confounder e key usage p confounder = Ok c.
Proof.
  intros Hk. destruct (derive_key e key usage Hk) as (ke & aes & Eke & Eaes).
  destruct (derive_ok e key usage x55 Hk) as (ki & Eki).
  unfold encrypt_with_confounder, decrypt. rewrite Eke, Eki. cbn [result_bind].
  destruct (Nat.ltb_spec (length c) (16 + hmac_len e)) as [|Hl]; [done|].
  destruct (cts_encrypt_decrypt ke aes (take (length c - hmac_len e) c) Eaes) as (data & Hd & Hlen & He).
  { rewrite length_take. lia. }
  rewrite length_take in Hlen. rewrite Hd. cbn [result_bind].
  intros E. assert (p = drop 16 data /\ take (hmac_len e) (if is_rfc8009 e then hmac e ki [zero_block;
    take (length c - hmac_len e) c] else hmac e ki [data]) = drop (length c - hmac_len e) c) as [-> Hm].
  { destruct (is_rfc8009 e); case_match eqn:Em; try done; cbn [result_bind] in E; simplify_eq.
    all: apply negb_false_iff, ct_eq_spec in Em; done. }
  exists (take 16 data). split; [unfold is_block; rewrite length_take; lia|].
  rewrite take_drop, He. cbn [result_bind]. by rewrite Hm, take_drop.
Qed.

(** ** Keyed checksums *)

Lemma checksums e key usage m : length key = key_len e -> exists c, checksum e key usage m = Ok c /\ length c = hmac_len e.
Proof.
  intros Hk. unfold checksum. destruct (derive_ok e key usage x99 Hk) as (kc & ->). cbn [result_bind].
  eexists. split; [done|]. apply length_mac.
Qed.

(** Parts are only joined. *)
Lemma checksum_parts e key usage m m' : concat m = concat m' -> checksum e key usage m = checksum e key usage m'.
Proof. intros H. unfold checksum. destruct (derive _ _ _ _); [|done]. simpl. unfold hmac. by rewrite H. Qed.
End CtsSpec.

(** C21: Kerberos encryption under a key of the right length succeeds on every message, and
    decryption accepts exactly the ciphertexts it makes, with the messages they were made
    of: nothing that was not encrypted decrypts. *)
Theorem encryption_exact `{HP : PrimitivesOk} e key usage :
  length key = key_len e ->
  (forall p confounder, is_block confounder ->
    exists c, encrypt_with_confounder e key usage p confounder = Ok c /\ length c = (16 + length p + hmac_len e)%nat) /\
  (forall p c, decrypt e key usage c = Ok p <->
    exists confounder, is_block confounder /\ encrypt_with_confounder e key usage p confounder = Ok c).
Proof.
  intros Hk. split.
  - intros p cf Hcf. destruct (encrypts e key usage p cf Hk Hcf) as (c & ? & ? & _). eauto.
  - intros p c. split; [by apply decrypts|]. intros (cf & Hcf & E).
    destruct (encrypts e key usage p cf Hk Hcf) as (c' & E' & _ & Hd). congruence.
Qed.

(** ** Primitives to run it on *)

(** A permutation of blocks and digests of the right lengths. *)
Definition toy_cipher (k b : list byte) : list byte := xor16 b k.
Definition toy_hmac (n : nat) (k m : list byte) : list byte := be_bytes n (be_val (m ++ k)).

#[export] Instance toy_primitives : Primitives := {|
  aes128_encrypt := toy_cipher; aes128_decrypt := toy_cipher;
  aes256_encrypt := toy_cipher; aes256_decrypt := toy_cipher;
  hmac_sha1 := toy_hmac 20; hmac_sha256 := toy_hmac 32; hmac_sha384 := toy_hmac 48;
  pbkdf2 _ password salt _ n := be_bytes n (be_val (password ++ salt))
|}.

Lemma xor16_twice a k : xor16 (xor16 a k) k = a.
Proof.
  revert k. induction a as [|x a IH]; intros [|y k]; simpl; try done. by rewrite (bxor_comm x), bxor_cancel, IH.
Qed.

#[export] Instance toy_primitives_ok : PrimitivesOk toy_primitives.
Proof.
  split; intros; cbn; unfold toy_cipher, toy_hmac; rewrite ?length_xor16, ?xor16_twice, ?length_be_bytes; done.
Qed.

Definition toy_key : list byte := be_bytes 16 0x00112233445566778899aabbccddeeff.

Lemma encryption_exact_witness :
  exists c, encrypt_with_confounder Aes128CtsHmacSha1_96 toy_key 22 (be_bytes 20 77) (be_bytes 16 5) = Ok c /\
    decrypt Aes128CtsHmacSha1_96 toy_key 22 c = Ok (be_bytes 20 77).
Proof.
  destruct (encryption_exact Aes128CtsHmacSha1_96 toy_key 22 ltac:(reflexivity)) as [He Hd].
  destruct (He (be_bytes 20 77) (be_bytes 16 5) ltac:(reflexivity)) as (c & E & _). exists c. split; [exact E|].
  apply Hd. exists (be_bytes 16 5). split; [reflexivity|exact E].
Defined.
