(* ===== verification/NFold.v ===== *)
(** * n-fold is the one of RFC 3961

    The code takes every byte of the copies of its input apart into bits and adds the
    bytes up in columns; RFC 3961 5.1 rotates whole copies and adds whole words in ones'
    complement, that is, modulo [256 ^ n - 1]. *)

From S2P Require Import Prelude KrbCrypto KrbCryptoSpec.
From stdpp Require Import base numbers list.
From Stdlib Require Import Strings.Byte ZArith Lia.
#[local] Open Scope Z_scope.

(** ** The reference *)

(** A [bits]-bit number rotated right. *)
Definition rotr (bits r v : Z) : Z := v / 2 ^ r + (v mod 2 ^ r) * 2 ^ (bits - r).

(** The copies of the input, the [k]th rotated right by [13 * k] bits. *)
Definition rotated_copy (input : list byte) (k : nat) : list byte :=
  let bits := 8 * Z.of_nat (length input) in
  be_bytes (length input) (rotr bits (13 * Z.of_nat k mod bits) (be_val input)).

Definition rotated_copies (input : list byte) (n : nat) : list byte :=
  concat (rotated_copy input <$> seq 0 n).

(** ** Bits of rotated numbers *)

Lemma rotr_testbit bits r v m :
  in_width bits v -> 0 <= r < bits -> 0 <= m < bits ->
  Z.testbit (rotr bits r v) m = Z.testbit v ((m + r) mod bits).
Proof.
  intros Hv Hr Hm. unfold rotr, in_width in *.
  assert (Hq : 0 <= v / 2 ^ r < 2 ^ (bits - r)).
  { split; [apply Z.div_pos; lia|]. apply Z.div_lt_upper_bound; [lia|]. rewrite <- Z.pow_add_r by lia.
    replace (r + (bits - r)) with bits by lia. apply Hv. }
  rewrite Z.add_nocarry_lxor, Z.lxor_spec.
  - rewrite <- Z.shiftl_mul_pow2, Z.shiftl_spec, <- Z.shiftr_div_pow2, Z.shiftr_spec by lia.
    destruct (Z.ltb_spec m (bits - r)).
    + rewrite (Z.testbit_neg_r _ (m - (bits - r))), xorb_false_r by lia. by rewrite Z.mod_small by lia.
    + rewrite (Z.bits_above_log2 v (m + r)), xorb_false_l.
      * rewrite Z.mod_pow2_bits_low by lia. f_equal.
        apply (Z.mod_unique _ _ 1); lia.
      * lia.
      * destruct (Z.eq_dec v 0) as [->|]; [simpl; lia|]. apply Z.log2_lt_pow2; [lia|].
        eapply Z.lt_le_trans; [apply Hv|]. apply Z.pow_le_mono_r; lia.
  - apply Z.bits_inj'. intros i Hi. rewrite Z.land_spec, Z.bits_0, <- Z.shiftl_mul_pow2, Z.shiftl_spec by lia.
    destruct (Z.ltb_spec i (bits - r)).
    + by rewrite (Z.testbit_neg_r _ (i - (bits - r))), andb_false_r by lia.
    + rewrite (Z.bits_above_log2 (v / 2 ^ r)); [done|lia|].
      destruct (Z.eq_dec (v / 2 ^ r) 0) as [->|]; [simpl; lia|]. apply Z.log2_lt_pow2; [lia|].
      eapply Z.lt_le_trans; [apply Hq|]. apply Z.pow_le_mono_r; lia.
Qed.

(** The byte at a place of a number's bytes, and the bits of it. *)
Lemma nth_be_bytes n z j :
  (j < n)%nat -> nth j (be_bytes n z) x00 = byte_of_Z (Z.shiftr z (8 * (Z.of_nat n - 1 - Z.of_nat j))).
Proof.
  revert j. induction n as [|n IH]; intros j Hj; [lia|]. change (be_bytes (S n) z) with
    (byte_of_Z (Z.shiftr z (8 * Z.of_nat n)) :: be_bytes n z).
  destruct j as [|j]; simpl nth; [do 2 f_equal; lia|]. rewrite IH by lia. do 2 f_equal. lia.
Qed.

Lemma input_bit_testbit input src :
  (src < length input * 8)%nat ->
  input_bit input src = Z.b2z (Z.testbit (be_val input) (8 * Z.of_nat (length input) - 1 - Z.of_nat src)).
Proof.
  intros H. unfold input_bit.
  assert (Hq : (src / 8 < length input)%nat) by (apply Nat.Div0.div_lt_upper_bound; lia).
  pose proof (Nat.div_mod_eq src 8) as Hd. pose proof (Nat.mod_upper_bound src 8 ltac:(lia)) as Hm.
  rewrite <- (be_bytes_be_val input) at 1. rewrite nth_be_bytes, Z_of_byte_of_Z by done.
  change 1 with (Z.ones 1). rewrite Z.land_ones by lia. change (2 ^ 1) with 2.
  rewrite <- Z.bit0_mod, Z.shiftr_spec by lia. change 256 with (2 ^ 8).
  rewrite Z.mod_pow2_bits_low, Z.shiftr_spec by lia. change (Z.ones 1) with 1. do 2 f_equal. lia.
Qed.

(** Eight bits put together from the first one on. *)
Lemma push_bit acc b m :
  0 <= m < 8 ->
  Z.testbit (Z.lor (wrap 8 (Z.shiftl acc 1)) (Z.b2z b)) m = if m =? 0 then b else Z.testbit acc (m - 1).
Proof.
  intros Hm. unfold wrap. rewrite Z.lor_spec, Z.mod_pow2_bits_low, Z.shiftl_spec by lia.
  destruct (Z.eqb_spec m 0) as [->|Hne].
  - rewrite Z.testbit_neg_r by lia. by destruct b.
  - rewrite (Z.bits_above_log2 (Z.b2z b)), orb_false_r; [done|by destruct b|].
    destruct b; simpl; lia.
Qed.

Lemma fold_bits (bit : nat -> bool) m :
  0 <= m < 8 ->
  Z.testbit (foldl (fun acc j => Z.lor (wrap 8 (Z.shiftl acc 1)) (Z.b2z (bit j))) 0 (seq 0 8)) m =
  bit (7 - Z.to_nat m)%nat.
Proof.
  intros Hm. assert (m = 0 \/ m = 1 \/ m = 2 \/ m = 3 \/ m = 4 \/ m = 5 \/ m = 6 \/ m = 7) as H by lia.
  change (seq 0 8) with [0; 1; 2; 3; 4; 5; 6; 7]%nat. cbn [foldl].
  destruct_or! H; subst m; by repeat (rewrite push_bit by lia; cbn [Z.eqb Z.sub Z.opp Z.add Z.pos_sub Pos.pred_double]).
Qed.

Lemma fold_bits_ext (bits : nat -> Z) (bit : nat -> bool) l acc :
  (forall j, j ∈ l -> bits j = Z.b2z (bit j)) ->
  foldl (fun acc j => Z.lor (wrap 8 (Z.shiftl acc 1)) (bits j)) acc l =
  foldl (fun acc j => Z.lor (wrap 8 (Z.shiftl acc 1)) (Z.b2z (bit j))) acc l.
Proof.
  revert acc. induction l as [|j l IH]; intros acc H; [done|]. simpl. rewrite H by left.
  apply IH. intros k Hk. apply H. by right.
Qed.

Lemma fold_bits_range (bit : nat -> bool) :
  0 <= foldl (fun acc j => Z.lor (wrap 8 (Z.shiftl acc 1)) (Z.b2z (bit j))) 0 (seq 0 8) < 256.
Proof.
  change (seq 0 8) with (seq 0 7 ++ [7%nat]). rewrite foldl_app. cbn [foldl].
  set (v := foldl _ _ _). assert (H : in_width 8 (wrap 8 (Z.shiftl v 1))) by auto with width.
  unfold in_width in H. split; [apply Z.lor_nonneg; destruct (bit 7%nat); simpl; lia|].
  destruct (Z.eq_dec (Z.lor (wrap 8 (Z.shiftl v 1)) (Z.b2z (bit 7%nat))) 0) as [->|Hnz]; [lia|].
  assert (0 <= Z.lor (wrap 8 (Z.shiftl v 1)) (Z.b2z (bit 7%nat))) by (apply Z.lor_nonneg; destruct (bit 7%nat); simpl; lia).
  apply (Z.log2_lt_pow2 _ 8); [lia|]. rewrite Z.log2_lor by (destruct (bit 7%nat); simpl; lia).
  pose proof (Z.log2_le_mono (wrap 8 (Z.shiftl v 1)) 255 ltac:(lia)). change (Z.log2 255) with 7 in *.
  destruct (bit 7%nat); simpl; lia.
Qed.

(** Byte [i] is the byte at [i] of the rotated copies. *)
Lemma byte_at_rotated input i :
  (0 < length input)%nat ->
  byte_at input i = Z_of_byte (nth (i mod length input) (rotated_copy input (i / length input)) x00).
Proof.
  intros Hlen. set (k := (i / length input)%nat). set (pos := (i mod length input)%nat).
  assert (Hpos : (pos < length input)%nat) by (apply Nat.mod_upper_bound; lia).
  set (bits := (length input * 8)%nat). set (rot := ((13 * k) mod bits)%nat).
  assert (Hrot : (rot < bits)%nat) by (apply Nat.mod_upper_bound; unfold bits; lia).
  set (bit := fun j => Z.testbit (be_val input) ((8 * (Z.of_nat (length input) - 1 - Z.of_nat pos) + (7 - Z.of_nat j) + Z.of_nat rot)
    mod (8 * Z.of_nat (length input)))).
  assert (E : byte_at input i = foldl (fun acc j => Z.lor (wrap 8 (Z.shiftl acc 1)) (Z.b2z (bit j))) 0 (seq 0 8)).
  { unfold byte_at. apply (fold_bits_ext (fun j => input_bit input ((pos * 8 + j + bits - rot) mod bits)%nat)).
    intros j Hj%elem_of_seq. pose proof (Nat.mod_upper_bound (pos * 8 + j + bits - rot) bits ltac:(unfold bits; lia)).
    rewrite input_bit_testbit by done. f_equal. unfold bit. f_equal.
    pose proof (Nat.div_mod_eq (pos * 8 + j + bits - rot) bits) as Hd.
    apply (Z.mod_unique _ _ (1 - Z.of_nat ((pos * 8 + j + bits - rot) / bits))); unfold bits in *; nia. }
  rewrite E. unfold rotated_copy. rewrite nth_be_bytes, Z_of_byte_of_Z by done.
  assert (Hr : 13 * Z.of_nat k mod (8 * Z.of_nat (length input)) = Z.of_nat rot).
  { unfold rot, bits. rewrite Nat2Z.inj_mod. f_equal; lia. }
  rewrite Hr. apply Z.bits_inj'. intros m Hm. destruct (Z.ltb_spec m 8).
  - rewrite fold_bits by lia. change 256 with (2 ^ 8). rewrite Z.mod_pow2_bits_low, Z.shiftr_spec by lia.
    pose proof (be_val_range input) as Hv. rewrite rotr_testbit; [unfold bit; do 2 f_equal; lia| |unfold bits in *; lia|lia].
    unfold in_width. rewrite Z.pow_mul_r by lia. apply Hv.
  - pose proof (fold_bits_range bit) as Hf. set (v := foldl _ _ _) in *.
    transitivity false; [|symmetry; change 256 with (2 ^ 8); apply Z.mod_pow2_bits_high; lia].
    destruct (Z.eq_dec v 0) as [->|]; [apply Z.bits_0|]. apply Z.bits_above_log2; [lia|].
    apply Z.log2_lt_pow2; [lia|]. pose proof (Z.pow_le_mono_r 2 8 m ltac:(lia) H). lia.
Qed.

(** ** Columns *)

(** The number a list of columns stands for. *)
Fixpoint cols (acc : list Z) : Z :=
  match acc with [] => 0 | v :: acc => v * 256 ^ Z.of_nat (length acc) + cols acc end.

Lemma cols_app l1 l2 : cols (l1 ++ l2) = cols l1 * 256 ^ Z.of_nat (length l2) + cols l2.
Proof.
  induction l1 as [|v l1 IH]; simpl; [lia|]. rewrite IH, length_app, Nat2Z.inj_add, Z.pow_add_r by lia. ring.
Qed.

Lemma cols_bytes l : cols (Z_of_byte <$> l) = be_val l.
Proof. induction l as [|b l IH]; [done|]. by rewrite be_val_cons, fmap_cons, <- IH, <- (length_fmap Z_of_byte l). Qed.

Lemma cols_add acc l : length acc = length l -> cols (zip_with Z.add acc l) = cols acc + cols l.
Proof.
  revert l. induction acc as [|v acc IH]; intros [|x l]; simpl; try done. intros [= H].
  rewrite IH, length_zip_with, H, Nat.min_id by done. lia.
Qed.

Lemma cols_range B acc : Forall (fun v => 0 <= v <= B) acc -> 0 <= cols acc /\ 255 * cols acc <= B * (256 ^ Z.of_nat (length acc) - 1).
Proof.
  induction 1 as [|v acc Hv _ IH]; [simpl; lia|]. cbn [cols length]. rewrite Nat2Z.inj_succ, Z.pow_succ_r by lia.
  pose proof (Z.pow_pos_nonneg 256 (Z.of_nat (length acc)) ltac:(lia) ltac:(lia)). nia.
Qed.

Lemma byte_at_range input i : (0 < length input)%nat -> 0 <= byte_at input i < 256.
Proof. intros H. rewrite byte_at_rotated by done. apply Z_of_byte_range. Qed.

Lemma modulus_pos n : (0 < n)%nat -> 255 <= 256 ^ Z.of_nat n - 1.
Proof.
  intros Hn. destruct n as [|m]; [lia|]. rewrite Nat2Z.inj_succ, Z.pow_succ_r by lia.
  pose proof (Z.pow_pos_nonneg 256 (Z.of_nat m) ltac:(lia) ltac:(lia)). lia.
Qed.

Section Sums.
Context (input : list byte) (n : nat) (Hlen : (0 < length input)%nat) (Hn : (0 < n)%nat).

Let add_byte (acc : list Z) (i : nat) : list Z := alter (fun v => wrap 32 (v + byte_at input i)) (i mod n)%nat acc.

(** A round over the columns adds a word. *)
Lemma add_word q acc m :
  (m <= n)%nat -> length acc = n ->
  foldl add_byte acc (seq (n * q) m) =
  zip_with (fun v x => wrap 32 (v + x)) (take m acc) (byte_at input <$> seq (n * q) m) ++ drop m acc.
Proof.
  intros Hm Hacc. induction m as [|m IH]; [done|]. rewrite seq_S, foldl_app, IH by lia. cbn [foldl].
  unfold add_byte. replace ((n * q + m) mod n)%nat with m; cycle 1.
  { rewrite (Nat.mul_comm n), Nat.add_comm, Nat.Div0.mod_add, Nat.mod_small; lia. }
  destruct (lookup_lt_is_Some_2 acc m) as [v Hv]; [lia|].
  rewrite (drop_S _ _ _ Hv), (take_S_r _ _ _ Hv), fmap_app. cbn [fmap list_fmap].
  rewrite zip_with_app by (rewrite length_take, length_fmap, length_seq; lia). cbn [zip_with].
  rewrite <- (assoc_L (++)). cbn [app].
  assert (H : length (zip_with (fun v x => wrap 32 (v + x)) (take m acc) (byte_at input <$> seq (n * q) m)) = m)
    by (rewrite length_zip_with, length_take, length_fmap, length_seq; lia).
  rewrite alter_app_r_alt by lia. by rewrite H, Nat.sub_diag.
Qed.

Lemma seq_word q : seq 0 (n * S q) = seq 0 (n * q) ++ seq (n * q) n.
Proof. rewrite <- (Nat.add_0_l (n * q)) at 2. rewrite <- seq_app. f_equal. lia. Qed.

Let modulus : Z := 256 ^ Z.of_nat n - 1.

(** A whole word more is, in ones' complement, another summand. *)
Lemma cols_word_mod l w : length w = n -> cols (l ++ w) mod modulus = (cols l + cols w) mod modulus.
Proof.
  intros Hw. rewrite cols_app, Hw. pose proof (modulus_pos n Hn).
  replace (cols l * 256 ^ Z.of_nat n + cols w) with (cols l + cols w + cols l * modulus) by (unfold modulus; ring).
  by rewrite Z_mod_plus_full.
Qed.

Lemma sums_words q :
  255 * Z.of_nat q < 2 ^ 32 ->
  let acc := foldl add_byte (replicate n 0) (seq 0 (n * q)) in
  length acc = n /\ Forall (fun v => 0 <= v <= 255 * Z.of_nat q) acc /\
  cols acc mod modulus = cols (byte_at input <$> seq 0 (n * q)) mod modulus.
Proof.
  induction q as [|q IH]; intros Hq.
  { rewrite Nat.mul_0_r. cbn. rewrite length_replicate. split_and!; [done| |].
    - apply Forall_replicate. lia.
    - f_equal. clear. induction n; simpl; [done|]. lia. }
  destruct IH as (Hl & Hb & Hc); [lia|]. cbv zeta. rewrite seq_word, foldl_app. set (acc := foldl _ _ _) in *.
  rewrite add_word, firstn_all2, drop_ge, app_nil_r by lia.
  set (w := byte_at input <$> seq (n * q) n). assert (Hw : length w = n) by (unfold w; by rewrite length_fmap, length_seq).
  assert (Hwb : Forall (fun x => 0 <= x < 256) w) by (unfold w; apply Forall_fmap, Forall_true; intros i; by apply byte_at_range).
  assert (zip_with (fun v x => wrap 32 (v + x)) acc w = zip_with Z.add acc w /\
    Forall (fun v => 0 <= v <= 255 * Z.of_nat (S q)) (zip_with Z.add acc w)) as [-> Hb'].
  { clear Hc. clearbody acc w. revert w Hw Hwb. rewrite <- Hl. clear Hl. induction Hb as [|v acc Hv _ IH]; intros [|x w]; simpl; try done.
    intros [= Hw] [Hx Hwb]%Forall_cons. destruct (IH w) as [-> ?]; [done..|].
    split; [f_equal; apply Z.mod_small; lia|constructor; [lia|done]]. }
  rewrite length_zip_with, Hl, Hw, Nat.min_id, fmap_app. split_and!; [done..|]. fold w.
  rewrite cols_add, cols_word_mod by congruence. pose proof (modulus_pos n Hn) as HM. fold modulus in HM.
  by rewrite Z.add_mod, Hc, <- Z.add_mod by lia.
Qed.

End Sums.

(** ** Carries *)

Lemma carry_pass_cols B acc :
  0 <= B < 2 ^ 31 -> Forall (fun v => 0 <= v <= B) acc ->
  let '(acc', carry) := carry_pass acc in
  Forall (fun v => 0 <= v < 256) acc' /\ 0 <= carry <= B /\ cols acc' + carry * 256 ^ Z.of_nat (length acc) = cols acc.
Proof.
  intros HB. induction 1 as [|v acc Hv _ IH]; simpl; [split_and!; [done|lia..]|].
  pose proof (length_carry_pass acc) as Hlen. destruct (carry_pass acc) as [acc' carry].
  destruct IH as (Hb & Hc & E). simpl in Hlen. rewrite wrap_small by (unfold in_width; lia).
  rewrite Z.shiftr_div_pow2 by lia. change 0xff with (Z.ones 8). rewrite Z.land_ones by lia. change (2 ^ 8) with 256.
  pose proof (Z.mod_pos_bound (v + carry) 256 ltac:(lia)). pose proof (Z.div_mod (v + carry) 256 ltac:(lia)) as Hd.
  split_and!; [by constructor|apply Z.div_pos; lia|apply Z.div_le_upper_bound; lia|].
  cbn [cols]. rewrite Hlen, <- E. change (Z.of_nat (S (length acc))) with (Z.of_nat (1 + length acc)).
  rewrite Nat2Z.inj_add, Z.pow_add_r by lia. change (256 ^ Z.of_nat 1) with 256.
  generalize (256 ^ Z.of_nat (length acc)). intros p. apply (f_equal (fun x => x * p)) in Hd. lia.
Qed.

Lemma cols_last acc c : (0 < length acc)%nat -> cols (alter (fun v => v + c) (length acc - 1)%nat acc) = cols acc + c.
Proof.
  intros H. destruct acc as [|x acc _] using rev_ind; [simpl in H; lia|]. rewrite length_app. cbn [length].
  rewrite alter_app_r_alt by lia. replace (length acc + 1 - 1 - length acc)%nat with 0%nat by lia. cbn [alter list_alter].
  rewrite !cols_app. simpl. lia.
Qed.

Lemma Forall_alter_weaken (P Q : Z -> Prop) f i acc :
  Forall P acc -> (forall v, P v -> Q v /\ Q (f v)) -> Forall Q (alter f i acc).
Proof.
  intros H HPQ. revert i. induction H as [|v acc Hv H IH]; intros [|i]; simpl; constructor; try by apply HPQ.
  - eapply Forall_impl; [exact H|]. intros. by apply HPQ.
  - apply IH.
Qed.

(** With [K] words of value and a round for each of them the loop leaves bytes, and a
    value that is the same in ones' complement. *)
Lemma carry_loop_cols fuel K acc :
  let modulus := 256 ^ Z.of_nat (length acc) - 1 in
  (0 < length acc)%nat -> 0 <= K -> 255 * K + 255 < 2 ^ 31 -> (0 < fuel)%nat ->
  Forall (fun v => 0 <= v <= 255 * K + 255) acc ->
  cols acc <= K * modulus -> cols acc <= (Z.of_nat fuel - 1) * modulus ->
  Forall (fun v => 0 <= v < 256) (carry_loop fuel acc) /\ cols (carry_loop fuel acc) mod modulus = cols acc mod modulus.
Proof.
  intros M Hl HK HB Hf. pose proof (modulus_pos (length acc) Hl) as HM. fold M in HM.
  revert acc M Hl HM. induction fuel as [|fuel IH]; [lia|]. intros acc M Hl HM Hb HV Hfuel. cbn [carry_loop].
  pose proof (carry_pass_cols (255 * K + 255) acc ltac:(lia) Hb) as Hp. pose proof (length_carry_pass acc) as Hlen.
  destruct (carry_pass acc) as [acc' carry]. destruct Hp as (Hb' & Hc & E). simpl in Hlen.
  destruct (Z.eqb_spec carry 0) as [->|Hne]; [split; [done|f_equal; lia]|].
  assert (Hpos : 0 <= cols acc') by (apply (cols_range 255 acc'), (Forall_impl _ _ _ Hb'); lia).
  assert (HcK : carry <= K) by (unfold M in *; nia).
  assert (Ealt : alter (fun v => wrap 32 (v + carry)) (length acc' - 1)%nat acc' =
    alter (fun v => v + carry) (length acc' - 1)%nat acc').
  { clear -Hb' Hc HcK HB HK. generalize (length acc' - 1)%nat. induction Hb' as [|v acc' Hv _ IH]; intros [|i]; simpl; [done..| |].
    - f_equal. apply Z.mod_small. lia.
    - f_equal. apply IH. }
  rewrite Ealt. pose proof (cols_last acc' carry ltac:(lia)) as Ec. pose proof (length_alter (fun v => v + carry) acc' (length acc' - 1)) as Hla.
  clear Ealt. set (acc'' := alter (fun v => v + carry) (length acc' - 1)%nat acc') in *. destruct fuel as [|fuel]; [unfold M in *; nia|].
  replace M with (256 ^ Z.of_nat (length acc'') - 1) by (unfold M; by rewrite Hla, Hlen).
  destruct (IH ltac:(lia) acc'') as [Hr Hm]; rewrite ?Hla, ?Hlen; fold M; [done..| | | |].
  - unfold acc''. apply (Forall_alter_weaken _ _ _ _ _ Hb'). intros; lia.
  - unfold M in *. nia.
  - unfold M in *. nia.
  - split; [done|]. rewrite Hla, Hlen in Hm. fold M in Hm. rewrite Hm, Ec, <- E.
    replace (cols acc' + carry * 256 ^ Z.of_nat (length acc)) with (cols acc' + carry + carry * M) by (unfold M; ring).
    by rewrite Z_mod_plus_full.
Qed.

(** ** n-fold *)

Lemma rotated_copies_bytes input k :
  (0 < length input)%nat -> Z_of_byte <$> rotated_copies input k = byte_at input <$> seq 0 (length input * k).
Proof.
  intros Hlen. induction k as [|k IH]; [by rewrite Nat.mul_0_r|]. unfold rotated_copies in *.
  rewrite seq_S, fmap_app, concat_app, fmap_app, IH, (seq_word input) by done. rewrite fmap_app. f_equal. cbn [fmap list_fmap concat].
  rewrite app_nil_r. apply list_eq. intros j. rewrite !list_lookup_fmap.
  assert (Hl : length (rotated_copy input k) = length input) by apply length_be_bytes.
  destruct (Nat.ltb_spec j (length input)) as [Hj|Hj].
  - rewrite lookup_seq_lt by done. destruct (lookup_lt_is_Some_2 (rotated_copy input k) j) as [b Hb]; [lia|].
    simpl. rewrite Hb. simpl. rewrite byte_at_rotated by done.
    rewrite <- (Nat.div_unique (length input * k + j) (length input) k j) by lia.
    rewrite <- (Nat.mod_unique (length input * k + j) (length input) k j) by lia.
    by rewrite (nth_lookup_Some _ _ _ _ Hb).
  - by rewrite lookup_seq_ge, (lookup_ge_None_2 (rotated_copy input _)) by (rewrite ?length_be_bytes; unfold rotated_copy; rewrite ?length_be_bytes; lia).
Qed.

(** The bytes of [n_fold], as the number they are, are the sum modulo [256 ^ n - 1] of the
    [n]-byte words of the rotated copies: as [256 ^ n] is one there, that is the number the
    copies are. *)
Lemma n_fold_congruent input n :
  (0 < length input)%nat -> (0 < n)%nat -> Z.of_nat (n_fold_lcm (length input) n / n) < 2 ^ 22 ->
  be_val (n_fold input n) mod (256 ^ Z.of_nat n - 1) =
  be_val (rotated_copies input (n_fold_lcm (length input) n / length input)) mod (256 ^ Z.of_nat n - 1).
Proof.
  intros Hlen Hn. set (q := (n_fold_lcm (length input) n / n)%nat). intros Hq.
  destruct (Nat.gcd_divide_l (length input) n) as [a Ha]. destruct (Nat.gcd_divide_r (length input) n) as [b Hb].
  set (g := Nat.gcd (length input) n) in *. assert (Hg : (0 < g)%nat) by (destruct g; lia).
  assert (Ediv : (length input / g = a)%nat) by (rewrite Ha; apply Nat.div_mul; lia).
  assert (Elcm : n_fold_lcm (length input) n = (n * a)%nat) by (unfold n_fold_lcm; fold g; rewrite Ediv; lia).
  assert (Eq : q = a) by (unfold q; rewrite Elcm, Nat.mul_comm, Nat.div_mul; lia).
  assert (Ek : (n_fold_lcm (length input) n / length input = b)%nat).
  { rewrite Elcm. replace (n * a)%nat with (b * length input)%nat by (rewrite Ha, Hb; lia). apply Nat.div_mul. lia. }
  rewrite Ek, <- (cols_bytes (rotated_copies input b)), rotated_copies_bytes by done.
  replace (length input * b)%nat with (n * q)%nat by (rewrite Eq, Ha, Hb at 1; lia).
  destruct (sums_words input n Hlen Hn q ltac:(lia)) as (Hl & Hf & Hc). rewrite <- Hc. clear Hc.
  unfold n_fold, n_fold_sums. fold q. rewrite Elcm, <- Eq. set (acc := foldl _ _ _) in *.
  destruct (cols_range _ _ Hf) as [Hr0 Hr]. rewrite Hl in Hr.
  destruct (carry_loop_cols (S q) (Z.of_nat q) acc) as [Hbytes Hm]; rewrite ?Hl; try lia.
  { eapply Forall_impl; [exact Hf|]. simpl. lia. }
  rewrite Hl in Hm. rewrite <- Hm, <- cols_bytes. f_equal. f_equal.
  rewrite <- list_fmap_compose. clear -Hbytes. induction Hbytes as [|v l Hv _ IH]; [done|]. rewrite fmap_cons, IH. f_equal. cbn.
  rewrite Z_of_byte_of_Z. by apply Z.mod_small.
Qed.

(** The n-fold of an input is a string of the length asked for that, as a number, is
    the ones' complement sum (modulo [256 ^ n - 1]) of the words of the copies of the
    input, each rotated thirteen bits further right, as RFC 3961 has it; so the loop that
    carries has come to its end. *)
Theorem n_fold_reference input n :
  (0 < length input)%nat -> (0 < n)%nat -> Z.of_nat (n_fold_lcm (length input) n / n) < 2 ^ 22 ->
  length (n_fold input n) = n /\
  be_val (n_fold input n) mod (256 ^ Z.of_nat n - 1) =
  be_val (rotated_copies input (n_fold_lcm (length input) n / length input)) mod (256 ^ Z.of_nat n - 1).
Proof. intros. split; [apply length_n_fold|by apply n_fold_congruent]. Qed.

Lemma n_fold_reference_witness :
  length (n_fold (be_bytes 5 0x0000000199) 16) = 16%nat /\
  be_val (n_fold (be_bytes 5 0x0000000199) 16) mod (256 ^ 16 - 1) =
  be_val (rotated_copies (be_bytes 5 0x0000000199) 16) mod (256 ^ 16 - 1).
Proof.
  apply (n_fold_reference (be_bytes 5 0x0000000199) 16); [vm_compute; lia|lia|vm_compute; reflexivity].
Defined.
