(* ===== verification/KrbToken.v ===== *)
(** * Kerberos tokens ([krb5/src/cfx.rs], [token.rs])

    The MIC and Wrap tokens of an established context (RFC 4121 4.2) and the framing of
    the tokens that establish one (RFC 2743 3.1). *)

From S2P Require Import Prelude KrbCrypto KrbCryptoSpec.
From stdpp Require Import base numbers list strings.
From Stdlib Require Import Strings.Byte ZArith Lia.
#[local] Open Scope Z_scope.

Definition KG_USAGE_ACCEPTOR_SEAL : Z := 22.
Definition KG_USAGE_ACCEPTOR_SIGN : Z := 23.
Definition KG_USAGE_INITIATOR_SEAL : Z := 24.
Definition KG_USAGE_INITIATOR_SIGN : Z := 25.

Definition FLAG_SENT_BY_ACCEPTOR : Z := 1.
Definition FLAG_SEALED : Z := 2.
Definition FLAG_ACCEPTOR_SUBKEY : Z := 4.

Definition TOK_MIC : list byte := [x04; x04].
Definition TOK_WRAP : list byte := [x05; x04].

Record ContextKey : Type := MkContextKey { enctype : Enctype; key : list byte; acceptor_subkey : bool }.

Inductive Sender : Type :=
| Initiator
| Acceptor.

Definition sender_flag (s : Sender) : Z := match s with Acceptor => FLAG_SENT_BY_ACCEPTOR | Initiator => 0 end.
Definition sign_usage (s : Sender) : Z :=
  match s with Acceptor => KG_USAGE_ACCEPTOR_SIGN | Initiator => KG_USAGE_INITIATOR_SIGN end.
Definition seal_usage (s : Sender) : Z :=
  match s with Acceptor => KG_USAGE_ACCEPTOR_SEAL | Initiator => KG_USAGE_INITIATOR_SEAL end.

Definition flags (k : ContextKey) (s : Sender) : Z :=
  Z.lor (sender_flag s) (if acceptor_subkey k then FLAG_ACCEPTOR_SUBKEY else 0).

Definition check_flags (k : ContextKey) (flags : Z) (s : Sender) : result unit Error :=
  if negb (Z.land flags FLAG_SENT_BY_ACCEPTOR =? sender_flag s) then Err (Token "token sent in the wrong direction")
  else if negb (Bool.eqb (has_bits flags FLAG_ACCEPTOR_SUBKEY) (acceptor_subkey k))
  then Err (Token "AcceptorSubkey flag does not match the context")
  else Ok tt.

Section Cfx.
Context `{P : Primitives}.

(** ** MIC tokens *)

Definition mic_header (k : ContextKey) (s : Sender) (seq : Z) : list byte :=
  TOK_MIC ++ [byte_of_Z (flags k s)] ++ replicate 5 xff ++ be_bytes 8 seq.

Definition get_mic (k : ContextKey) (s : Sender) (seq : Z) (message : list byte) : result (list byte) Error :=
  let header := mic_header k s seq in
  try cksum := checksum (enctype k) (key k) (sign_usage s) [message; header] in
  Ok (header ++ cksum).

Definition verify_mic (k : ContextKey) (s : Sender) (message token : list byte) : result Z Error :=
  if (length token <? 16)%nat || negb (bool_decide (take 2 token = TOK_MIC)) ||
     negb (bool_decide (take 5 (drop 3 token) = replicate 5 xff))
  then Err (Token "not a MIC token") else
  try _ := check_flags k (Z_of_byte (nth 2 token x00)) s in
  let header := take 16 token in
  let cksum := drop 16 token in
  try want := checksum (enctype k) (key k) (sign_usage s) [message; header] in
  if negb (ct_eq want cksum) then Err Integrity else Ok (be_val (drop 8 header)).

(** ** Wrap tokens

    A header with its extra count and rotation. *)
Definition wrap_header (flags ec rrc seq : Z) : list byte :=
  TOK_WRAP ++ [byte_of_Z flags; xff] ++ be_bytes 2 ec ++ be_bytes 2 rrc ++ be_bytes 8 seq.

(** [random] is what the system's generator gives for the confounder of a sealed token. *)
Definition wrap_token (k : ContextKey) (s : Sender) (seq : Z) (sealed : bool) (message : list byte)
    (random : result (list byte) Error) : result (list byte) Error :=
  let fl := Z.lor (flags k s) (if sealed then FLAG_SEALED else 0) in
  let header := wrap_header fl 0 0 seq in
  if sealed then
    try body := encrypt (enctype k) (key k) (seal_usage s) (message ++ header) random in
    Ok (header ++ body)
  else
    try cksum := checksum (enctype k) (key k) (seal_usage s) [message; header] in
    Ok (wrap_header fl (wrap 16 (Z.of_nat (length cksum))) 0 seq ++ message ++ cksum).

(** [header[lo..lo + 2].copy_from_slice(&[0, 0])]. *)
Definition zero_word (lo : nat) (header : list byte) : list byte :=
  take lo header ++ [x00; x00] ++ drop (lo + 2) header.

(** Undoes a right rotation by [rrc]. *)
Definition unrotate (rrc : nat) (rest : list byte) : list byte :=
  match rest with
  | [] => []
  | _ => let r := (rrc mod length rest)%nat in drop r rest ++ take r rest
  end.

Definition unwrap_token (k : ContextKey) (s : Sender) (token : list byte) : result (list byte * bool * Z) Error :=
  if (length token <? 16)%nat || negb (bool_decide (take 2 token = TOK_WRAP)) ||
     negb (bool_decide (nth 3 token x00 = xff))
  then Err (Token "not a Wrap token") else
  let fl := Z_of_byte (nth 2 token x00) in
  try _ := check_flags k fl s in
  let sealed := has_bits fl FLAG_SEALED in
  let ec := Z.to_nat (be_val (take 2 (drop 4 token))) in
  let rrc := Z.to_nat (be_val (take 2 (drop 6 token))) in
  let seq := be_val (take 8 (drop 8 token)) in
  let data := unrotate rrc (drop 16 token) in
  let header := zero_word 6 (take 16 token) in
  if sealed then
    try plain := decrypt (enctype k) (key k) (seal_usage s) data in
    if (length plain <? 16 + ec)%nat then Err (Token "sealed Wrap token too short") else
    let inner := drop (length plain - 16) plain in
    if negb (ct_eq inner header) then Err Integrity else
    let plain := take (length plain - 16) plain in
    Ok (take (length plain - ec) plain, true, seq)
  else
    let h := hmac_len (enctype k) in
    if negb (ec =? h)%nat || (length data <? h)%nat then Err (Token "bad Wrap checksum length") else
    let message := take (length data - h) data in
    let cksum := drop (length data - h) data in
    let header := zero_word 4 header in
    try want := checksum (enctype k) (key k) (seal_usage s) [message; header] in
    if negb (ct_eq want cksum) then Err Integrity else Ok (message, false, seq).
End Cfx.

(** ** Framing of context tokens *)

Definition KRB5_MECH_OID : list byte := [x06; x09; x2a; x86; x48; x86; xf7; x12; x01; x02; x02].

Definition TOK_ID_AP_REQ : list byte := [x01; x00].
Definition TOK_ID_AP_REP : list byte := [x02; x00].
Definition TOK_ID_ERROR : list byte := [x03; x00].

(** [pos] is the front of the buffer; the length is a [usize]. *)
Definition read_len (buf : list byte) : result (Z * list byte) Error :=
  match buf with
  | [] => Err (Token "truncated")
  | first :: buf =>
    if Z.land (Z_of_byte first) 0x80 =? 0 then Ok (Z_of_byte first, buf) else
    let n := Z.to_nat (Z.land (Z_of_byte first) 0x7f) in
    if (n =? 0)%nat || (4 <? n)%nat then Err (Token "bad length") else
    if (n <=? length buf)%nat
    then Ok (foldl (fun acc b => Z.lor (wrap 64 (Z.shiftl acc 8)) (Z_of_byte b)) 0 (take n buf), drop n buf)
    else Err (Token "truncated")
  end.

Fixpoint skip_zeros (l : list byte) : list byte :=
  match l with b :: l' => if byte_eq_dec b x00 then skip_zeros l' else l | [] => [] end.

Definition write_len (len : nat) : list byte :=
  if (len <? 0x80)%nat then [byte_of_Z (Z.of_nat len)] else
  let bytes := skip_zeros (be_bytes 4 (wrap 32 (Z.of_nat len))) in
  byte_of_Z (Z.lor 0x80 (Z.of_nat (length bytes))) :: bytes.

(** [strip_prefix]. *)
Fixpoint strip_prefix (pre l : list byte) : option (list byte) :=
  match pre, l with
  | [], _ => Some l
  | p :: pre, b :: l => if byte_eq_dec p b then strip_prefix pre l else None
  | _ :: _, [] => None
  end.

Definition token_parse (buf : list byte) : result (list byte * list byte) Error :=
  match buf with
  | x60 :: buf =>
    try lb := read_len buf in
    let '(len, buf) := lb in
    if Z.of_nat (length buf) <? len then Err (Token "truncated") else
    match strip_prefix KRB5_MECH_OID (take (Z.to_nat len) buf) with
    | None => Err (Token "not the Kerberos V5 mechanism")
    | Some inner =>
      if (length inner <? 2)%nat then Err (Token "truncated") else Ok (take 2 inner, drop 2 inner)
    end
  | _ => Err (Token "not a GSS initial context token")
  end.

Definition token_build (tok_id message : list byte) : list byte :=
  let body_len := (length KRB5_MECH_OID + 2 + length message)%nat in
  [x60] ++ write_len body_len ++ KRB5_MECH_OID ++ tok_id ++ message.

(** ** Flags and headers *)

Lemma check_flags_own k s (sealed : bool) :
  check_flags k (Z_of_byte (byte_of_Z (Z.lor (flags k s) (if sealed then FLAG_SEALED else 0)))) s = Ok tt /\
  has_bits (Z_of_byte (byte_of_Z (Z.lor (flags k s) (if sealed then FLAG_SEALED else 0)))) FLAG_SEALED = sealed.
Proof. rewrite Z_of_byte_of_Z. unfold flags, check_flags. by destruct s, (acceptor_subkey k) eqn:E, sealed; cbn; rewrite ?E. Qed.

Lemma check_flags_other k s s' (sealed : bool) u :
  s' <> s -> check_flags k (Z_of_byte (byte_of_Z (Z.lor (flags k s) (if sealed then FLAG_SEALED else 0)))) s' <> Ok u.
Proof. rewrite Z_of_byte_of_Z. unfold flags, check_flags. by destruct s, s', (acceptor_subkey k), sealed. Qed.

Lemma check_flags_plain k s : flags k s = Z.lor (flags k s) (if false then FLAG_SEALED else 0).
Proof. by rewrite Z.lor_0_r. Qed.

Lemma length_mic_header k s seq : length (mic_header k s seq) = 16%nat.
Proof. unfold mic_header. by rewrite !length_app, length_be_bytes. Qed.

Lemma length_wrap_header fl ec rrc seq : length (wrap_header fl ec rrc seq) = 16%nat.
Proof. unfold wrap_header. by rewrite !length_app, !length_be_bytes. Qed.

Section CfxSpec.
Context `{HP : PrimitivesOk}.

Definition key_ok (k : ContextKey) : Prop := length (key k) = key_len (enctype k).

Lemma mic_verifies k s seq message :
  key_ok k -> in_width 64 seq ->
  exists token, get_mic k s seq message = Ok token /\ (length token = 16 + hmac_len (enctype k))%nat /\
    verify_mic k s message token = Ok seq /\ forall s' n, s' <> s -> verify_mic k s' message token <> Ok n.
Proof.
  intros Hk Hseq. unfold get_mic. set (h := mic_header k s seq). assert (Hh : length h = 16%nat) by apply length_mic_header.
  destruct (checksums (enctype k) (key k) (sign_usage s) [message; h] Hk) as (c & Ec & Hc). rewrite Ec. cbn [result_bind].
  exists (h ++ c). split; [done|]. split; [rewrite length_app; lia|].
  assert (Hlen : (length (h ++ c) <? 16)%nat = false) by (apply Nat.ltb_ge; rewrite length_app; lia).
  assert (Hn : nth 2 (h ++ c) x00 = byte_of_Z (flags k s)) by done.
  unfold verify_mic. rewrite Hlen, Hn, (take_app_length' h c 16), (drop_app_length' h c 16) by done. rewrite !bool_decide_true by done.
  cbn [orb negb]. rewrite check_flags_plain. split.
  - rewrite (proj1 (check_flags_own k s false)). cbn [result_bind]. rewrite Ec. cbn [result_bind].
    rewrite ct_eq_refl. cbn [negb]. f_equal. change (drop 8 h) with (be_bytes 8 seq). by apply be_val_be_bytes_small.
  - intros s' n Hs. destruct (check_flags k _ s') as [u|] eqn:E; [|done]. by apply (check_flags_other _ _ _ false) in E.
Qed.

(** A MIC that one side made of a message verifies at the other side, which reads its
    sequence number, and in no other direction; and whatever verifies over a message is a
    header with the keyed checksum of that message and that header. *)
Theorem mic_exact k s seq message :
  key_ok k -> in_width 64 seq ->
  (exists token, get_mic k s seq message = Ok token /\ verify_mic k s message token = Ok seq /\
    forall s' n, s' <> s -> verify_mic k s' message token <> Ok n) /\
  (forall token n, verify_mic k s message token = Ok n ->
    exists header, length header = 16%nat /\ be_val (drop 8 header) = n /\
      checksum (enctype k) (key k) (sign_usage s) [message; header] = Ok (drop 16 token) /\
      token = header ++ drop 16 token).
Proof.
  intros Hk Hseq. split.
  - destruct (mic_verifies k s seq message Hk Hseq) as (token & ? & _ & ? & ?). by exists token.
  - intros token n. unfold verify_mic. case_match eqn:E; [done|].
    apply orb_false_iff in E as [[Hl _]%orb_false_iff _]. apply Nat.ltb_ge in Hl.
    destruct (check_flags _ _ _); [|done]. cbn [result_bind].
    destruct (checksum _ _ _ _) as [want|] eqn:Ec; [|done]. cbn [result_bind].
    destruct (ct_eq want (drop 16 token)) eqn:Eq; [|done]. apply ct_eq_spec in Eq as ->. intros [= <-].
    exists (take 16 token). rewrite take_drop, length_take. split_and!; [lia|done..].
Qed.

(** ** Wrapping *)

(** A token whose sender rotated what follows the header right by [r]. *)
Definition rotate_right (r : nat) (l : list byte) : list byte :=
  let m := (length l - r mod length l)%nat in drop m l ++ take m l.

Definition rotated (r : Z) (token : list byte) : list byte :=
  take 6 token ++ be_bytes 2 r ++ drop 8 (take 16 token) ++ rotate_right (Z.to_nat r) (drop 16 token).

Lemma length_rotate_right r l : length (rotate_right r l) = length l.
Proof. unfold rotate_right. rewrite length_app, length_drop, length_take. lia. Qed.

Lemma unrotate_rotate r l : unrotate r (rotate_right r l) = l.
Proof.
  destruct l as [|b l0] eqn:El; [by unfold rotate_right, unrotate|]. rewrite <- El. assert (Hl : (0 < length l)%nat) by (subst; simpl; lia).
  unfold unrotate. destruct (rotate_right r l) eqn:E.
  { apply (f_equal length) in E. rewrite length_rotate_right in E. simpl in E. lia. }
  rewrite <- E, length_rotate_right. pose proof (Nat.mod_upper_bound r (length l) ltac:(lia)).
  unfold rotate_right. set (m := (length l - r mod length l)%nat).
  assert (Hd : length (drop m l) = (r mod length l)%nat) by (rewrite length_drop; unfold m; lia).
  rewrite <- Hd, take_app_length, drop_app_length. apply take_drop.
Qed.

(** What [unwrap_token] reads off the front of a rotated token. *)
Lemma rotated_fields fl ec r seq body :
  in_width 16 ec -> in_width 16 r -> in_width 64 seq ->
  let token := rotated r (wrap_header fl ec 0 seq ++ body) in
  (length token <? 16)%nat = false /\ take 2 token = TOK_WRAP /\ nth 3 token x00 = xff /\
  nth 2 token x00 = byte_of_Z fl /\ be_val (take 2 (drop 4 token)) = ec /\
  be_val (take 8 (drop 8 token)) = seq /\
  unrotate (Z.to_nat (be_val (take 2 (drop 6 token)))) (drop 16 token) = body /\
  zero_word 6 (take 16 token) = wrap_header fl ec 0 seq.
Proof.
  intros Hec Hr Hseq token.
  assert (Et : token = wrap_header fl ec r seq ++ rotate_right (Z.to_nat r) body).
  { unfold token, rotated. rewrite (take_app_length' _ _ 16), (drop_app_length' _ _ 16) by (by rewrite length_wrap_header). done. }
  rewrite Et. rewrite (take_app_length' _ _ 16), (drop_app_length' _ _ 16) by (by rewrite length_wrap_header).
  split_and!; try done.
  - change (be_val (be_bytes 2 ec) = ec). by apply be_val_be_bytes_small.
  - change (be_val (be_bytes 8 seq) = seq). by apply be_val_be_bytes_small.
  - change (unrotate (Z.to_nat (be_val (be_bytes 2 r))) (rotate_right (Z.to_nat r) body) = body).
    rewrite be_val_be_bytes_small by done. apply unrotate_rotate.
Qed.

(** What a wrapped token carries after its header. *)
Definition protects (k : ContextKey) (s : Sender) (sealed : bool) (message h : list byte) (ec : Z) (body : list byte) : Prop :=
  if sealed then ec = 0 /\ decrypt (enctype k) (key k) (seal_usage s) body = Ok (message ++ h)
  else ec = Z.of_nat (hmac_len (enctype k)) /\ exists cksum, length cksum = hmac_len (enctype k) /\
    body = message ++ cksum /\ checksum (enctype k) (key k) (seal_usage s) [message; h] = Ok cksum.

Lemma wrap_token_form k s seq (sealed : bool) message confounder :
  key_ok k -> is_block confounder ->
  let fl := Z.lor (flags k s) (if sealed then FLAG_SEALED else 0) in
  exists ec body, wrap_token k s seq sealed message (Ok confounder) = Ok (wrap_header fl ec 0 seq ++ body) /\
    in_width 16 ec /\ (length body <= length message + 56)%nat /\ protects k s sealed message (wrap_header fl 0 0 seq) ec body.
Proof.
  intros Hk Hcf fl. assert (Hmac : (hmac_len (enctype k) <= 24)%nat) by (destruct (enctype k); simpl; lia).
  unfold wrap_token, protects. fold fl. set (h := wrap_header fl 0 0 seq). destruct sealed.
  - destruct (encrypts (enctype k) (key k) (seal_usage s) (message ++ h) confounder Hk Hcf) as (c & Ec & Hc & Hd).
    unfold encrypt. cbn [result_bind]. rewrite Ec. exists 0, c. split_and!; try done.
    rewrite Hc, length_app. unfold h. rewrite length_wrap_header. lia.
  - destruct (checksums (enctype k) (key k) (seal_usage s) [message; h] Hk) as (c & Ec & Hc). rewrite Ec. cbn [result_bind].
    assert (Hw : in_width 16 (Z.of_nat (hmac_len (enctype k)))) by (unfold in_width; destruct (enctype k); simpl; lia).
    exists (Z.of_nat (hmac_len (enctype k))), (message ++ c). rewrite Hc, wrap_small by done.
    split; [done|]. split; [done|]. split; [rewrite length_app; lia|]. split; [done|]. by exists c.
Qed.

Lemma wrapped_opens k s seq sealed message confounder r :
  key_ok k -> in_width 64 seq -> is_block confounder -> in_width 16 r ->
  exists token, wrap_token k s seq sealed message (Ok confounder) = Ok token /\ (length token <= length message + 72)%nat /\
    unwrap_token k s (rotated r token) = Ok (message, sealed, seq) /\
    forall s' res, s' <> s -> unwrap_token k s' (rotated r token) <> Ok res.
Proof.
  intros Hk Hseq Hcf Hr. destruct (wrap_token_form k s seq sealed message confounder Hk Hcf) as (ec & body & -> & Hec & Hlen & Hbody).
  set (fl := Z.lor _ _) in *. set (h := wrap_header fl 0 0 seq) in *. assert (Hh : length h = 16%nat) by apply length_wrap_header.
  eexists. split; [done|]. split; [rewrite length_app, length_wrap_header; lia|].
  destruct (rotated_fields fl ec r seq body Hec Hr Hseq) as (E1 & E2 & E3 & E4 & E5 & E6 & E7 & E8).
  set (token := rotated _ _) in *. unfold unwrap_token. rewrite E1, E4, E5, E6, E7, E8, !bool_decide_true by done. cbn [orb negb].
  split; cycle 1.
  { intros s' res Hs. destruct (check_flags k _ s') as [u|] eqn:E; [|done]. by apply check_flags_other in E. }
  unfold fl at 1 2. destruct (check_flags_own k s sealed) as [-> ->]. cbn [result_bind]. destruct sealed.
  - destruct Hbody as [-> ->]. cbn [result_bind]. rewrite length_app, Hh.
    rewrite (proj2 (Nat.ltb_ge _ _)) by (simpl; lia). rewrite Nat.add_sub, take_app_length, drop_app_length.
    fold h. rewrite ct_eq_refl. cbn [negb]. rewrite Nat.sub_0_r, firstn_all. done.
  - destruct Hbody as (-> & c & Hc & -> & Ec). rewrite Nat2Z.id, Nat.eqb_refl. cbn [negb orb].
    rewrite (proj2 (Nat.ltb_ge _ _)) by (rewrite length_app; lia).
    rewrite length_app, Hc, Nat.add_sub, take_app_length, drop_app_length.
    change (zero_word 4 (wrap_header fl (Z.of_nat (hmac_len (enctype k))) 0 seq)) with h. rewrite Ec. cbn [result_bind].
    by rewrite ct_eq_refl.
Qed.

(** A wrapped message, sealed or only signed, and sent with any rotation of its body,
    unwraps at the other side to the message, what protected it and its sequence number;
    and it does not unwrap as a token of the other side. *)
Theorem wrap_unwrap k s seq sealed message confounder r :
  key_ok k -> in_width 64 seq -> is_block confounder -> in_width 16 r ->
  exists token, wrap_token k s seq sealed message (Ok confounder) = Ok token /\
    unwrap_token k s (rotated r token) = Ok (message, sealed, seq) /\
    forall s' res, s' <> s -> unwrap_token k s' (rotated r token) <> Ok res.
Proof.
  intros Hk Hseq Hcf Hr. destruct (wrapped_opens k s seq sealed message confounder r Hk Hseq Hcf Hr) as (token & ? & _ & ? & ?).
  by exists token.
Qed.
(** As the wrapping side leaves a token. *)
Lemma rotated_0 k s seq (sealed : bool) message random token :
  wrap_token k s seq sealed message random = Ok token -> rotated 0 token = token.
Proof.
  assert (H : forall fl ec body, rotated 0 (wrap_header fl ec 0 seq ++ body) = wrap_header fl ec 0 seq ++ body).
  { intros fl ec body. unfold rotated. rewrite (take_app_length' _ _ 16), (drop_app_length' _ _ 16) by (by rewrite length_wrap_header).
    unfold rotate_right. destruct body as [|b body]; [done|]. change (Z.to_nat 0) with O.
    rewrite Nat.Div0.mod_0_l, Nat.sub_0_r, firstn_all, drop_all. done. }
  unfold wrap_token. destruct sealed.
  - destruct (encrypt _ _ _ _ _) as [body|]; [|done]. intros [= <-]. apply H.
  - destruct (checksum _ _ _ _) as [cksum|]; [|done]. intros [= <-]. apply H.
Qed.
End CfxSpec.

(** ** Framing *)

Lemma lor_byte a b : Z.lor (a * 256) (Z_of_byte b) = a * 256 + Z_of_byte b.
Proof.
  pose proof (Z_of_byte_range b) as Hb. assert (H : Z.land (a * 2 ^ 8) (Z_of_byte b) = 0).
  { apply Z.bits_inj'. intros n Hn. rewrite Z.land_spec, Z.bits_0, Z.mul_pow2_bits by lia.
    destruct (Z.ltb_spec n 8); [by rewrite Z.testbit_neg_r by lia|].
    rewrite (Z.bits_above_log2 (Z_of_byte b)), andb_false_r; [done|lia|].
    destruct (Z.eq_dec (Z_of_byte b) 0) as [->|]; [simpl; lia|].
    apply Z.log2_lt_pow2; [lia|]. pose proof (Z.pow_le_mono_r 2 8 n ltac:(lia) ltac:(lia)). lia. }
  change 256 with (2 ^ 8). by rewrite <- Z.lxor_lor, Z.add_nocarry_lxor.
Qed.

Lemma fold_len_bytes l acc :
  0 <= acc -> (acc + 1) * 256 ^ Z.of_nat (length l) <= 2 ^ 64 ->
  foldl (fun acc b => Z.lor (wrap 64 (Z.shiftl acc 8)) (Z_of_byte b)) acc l = be_val_from acc l.
Proof.
  revert acc. induction l as [|b l IH]; intros acc Hacc H; [done|]. cbn [foldl be_val_from length] in *.
  rewrite Nat2Z.inj_succ, Z.pow_succ_r in H by lia. pose proof (Z_of_byte_range b) as Hb.
  pose proof (Z.pow_pos_nonneg 256 (Z.of_nat (length l)) ltac:(lia) ltac:(lia)).
  rewrite Z.shiftl_mul_pow2, wrap_small by (unfold in_width; nia). change (2 ^ 8) with 256.
  rewrite lor_byte. apply IH; nia.
Qed.

Lemma be_val_skip_zeros l : be_val (skip_zeros l) = be_val l.
Proof.
  induction l as [|b l IH]; [done|]. simpl. destruct (byte_eq_dec b x00) as [->|]; [|done].
  rewrite IH, be_val_cons. change (Z_of_byte x00) with 0. lia.
Qed.

Lemma length_skip_zeros l : (length (skip_zeros l) <= length l)%nat.
Proof. induction l as [|b l IH]; simpl; [lia|]. case_match; simpl; lia. Qed.

Lemma read_write_len len rest : Z.of_nat len < 2 ^ 32 -> read_len (write_len len ++ rest) = Ok (Z.of_nat len, rest).
Proof.
  intros Hlen. unfold write_len. destruct (Nat.ltb_spec len 0x80) as [H|H].
  - cbn [app read_len]. rewrite Z_of_byte_of_Z, Z.mod_small by lia.
    assert (E : Z.land (Z.of_nat len) 0x80 = 0); [|by rewrite E].
    change 0x80 with (2 ^ 7). apply Z.bits_inj'. intros n Hn. rewrite Z.land_spec, Z.bits_0, Z.pow2_bits_eqb by lia.
    destruct (Z.eqb_spec 7 n) as [<-|]; [|apply andb_false_r]. rewrite andb_true_r.
    destruct (Nat.eq_dec len 0) as [->|]; [done|]. apply Z.bits_above_log2; [lia|]. apply Z.log2_lt_pow2; lia.
  - rewrite wrap_small by (unfold in_width; lia). set (bytes := skip_zeros _).
    assert (Hb : (length bytes <= 4)%nat) by apply (length_skip_zeros (be_bytes 4 (Z.of_nat len))).
    assert (Hv : be_val bytes = Z.of_nat len).
    { unfold bytes. rewrite be_val_skip_zeros. apply be_val_be_bytes_small. unfold in_width. lia. }
    assert (Hpos : bytes <> []) by (intros E; rewrite E in Hv; change (be_val []) with 0 in Hv; lia).
    clearbody bytes. destruct bytes as [|b0 bytes0]; [done|]. clear Hpos. set (bytes := b0 :: bytes0) in *.
    cbn [app read_len]. rewrite Z_of_byte_of_Z.
    assert (Hf : Z.lor 0x80 (Z.of_nat (length bytes)) mod 256 = 128 + Z.of_nat (length bytes) /\
      Z.land (128 + Z.of_nat (length bytes)) 0x7f = Z.of_nat (length bytes) /\ Z.land (128 + Z.of_nat (length bytes)) 0x80 = 128).
    { unfold bytes in *. simpl in Hb. do 4 (destruct bytes0 as [|? bytes0]; [done|]). simpl in Hb. lia. }
    destruct Hf as (-> & E1 & E2). rewrite E2, E1, Nat2Z.id. cbn [Z.eqb].
    rewrite (proj2 (Nat.eqb_neq _ _)), (proj2 (Nat.ltb_ge _ _)), (proj2 (Nat.leb_le _ _)) by (rewrite ?length_app; unfold bytes in *; simpl in *; lia).
    cbn [orb]. rewrite take_app_length, drop_app_length, fold_len_bytes; [by f_equal; f_equal|lia|].
    rewrite Z.mul_1_l. etransitivity; [apply (Z.pow_le_mono_r _ _ 4); lia|lia].
Qed.

Lemma strip_prefix_app pre l : strip_prefix pre (pre ++ l) = Some l.
Proof. induction pre as [|b pre IH]; simpl; [done|]. by destruct (byte_eq_dec b b). Qed.

Lemma framing_parse id message rest :
  length id = 2%nat -> Z.of_nat (length message) + 13 < 2 ^ 32 ->
  token_parse (token_build id message ++ rest) = Ok (id, message).
Proof.
  intros Hid Hm. unfold token_build. rewrite <- !(assoc_L (++)). cbn [app token_parse].
  rewrite read_write_len by (simpl; lia). cbn [result_bind].
  set (n := (length KRB5_MECH_OID + 2 + length message)%nat).
  assert (Hn : length (KRB5_MECH_OID ++ id ++ message) = n) by (rewrite !length_app; unfold n; lia).
  rewrite (assoc_L (++) id), (assoc_L (++) KRB5_MECH_OID). rewrite (proj2 (Z.ltb_ge _ _)) by (rewrite length_app; lia).
  rewrite Nat2Z.id, take_app_length' by done. rewrite strip_prefix_app.
  rewrite (proj2 (Nat.ltb_ge _ _)) by (rewrite length_app; lia).
  by rewrite take_app_length', drop_app_length' by done.
Qed.

(** A framed context token is taken apart into the identifier and the message it was
    made of, whatever follows it. *)
Theorem framing_roundtrip id message rest :
  length id = 2%nat -> Z.of_nat (length message) + 13 < 2 ^ 32 ->
  token_parse (token_build id message ++ rest) = Ok (id, message).
Proof. apply framing_parse. Qed.

Definition toy_context : ContextKey := MkContextKey Aes128CtsHmacSha1_96 toy_key false.

Lemma mic_exact_witness :
  exists token, get_mic toy_context Acceptor 7 [x01; x02] = Ok token /\
    verify_mic toy_context Acceptor [x01; x02] token = Ok 7.
Proof.
  destruct (mic_exact toy_context Acceptor 7 [x01; x02] ltac:(reflexivity) ltac:(unfold in_width; lia)) as [(t & E & V & _) _].
  exists t. split; [exact E|exact V].
Defined.

Lemma wrap_unwrap_witness :
  exists token, wrap_token toy_context Initiator 9 true [x01; x02; x03] (Ok (be_bytes 16 3)) = Ok token /\
    unwrap_token toy_context Initiator (rotated 28 token) = Ok ([x01; x02; x03], true, 9).
Proof.
  destruct (wrap_unwrap toy_context Initiator 9 true [x01; x02; x03] (be_bytes 16 3) 28 ltac:(reflexivity)
    ltac:(unfold in_width; lia) ltac:(reflexivity) ltac:(unfold in_width; lia)) as (t & E & U & _).
  exists t. split; [exact E|exact U].
Defined.

Lemma framing_roundtrip_witness :
  token_parse (token_build TOK_ID_AP_REQ (be_bytes 200 1) ++ [x00]) = Ok (TOK_ID_AP_REQ, be_bytes 200 1).
Proof. apply framing_roundtrip; [reflexivity|vm_compute; reflexivity]. Defined.
