(* ===== verification/KrbKeytab.v ===== *)
(** * Keytabs ([krb5/src/keytab.rs])

    The MIT keytab format 0x0502, read and written. *)

From S2P Require Import Prelude Xdr KrbCrypto.
From stdpp Require Import base numbers list strings.
From Stdlib Require Import Strings.Byte ZArith Lia.
#[local] Open Scope Z_scope.

Record KeytabEntry : Type := MkKeytabEntry {
  realm : string; components : list string; name_type : Z; timestamp : Z;
  kvno : Z; entry_enctype : Z; entry_key : list byte
}.

(** [primary/instance@REALM]. *)
Definition principal (e : KeytabEntry) : string :=
  String.concat "/" (components e) +:+ "@" +:+ realm e.

Definition KeytabEntry_enctype (e : KeytabEntry) : option Enctype := Enctype_from_i32 (entry_enctype e).

Record Keytab : Type := MkKeytab { entries : list KeytabEntry }.

(** ** Reading

    [Reader]: the bytes of an entry that are left. *)
Definition kreader (A : Type) : Type := list byte -> result (A * list byte) Error.

Definition kret {A} (a : A) : kreader A := fun buf => Ok (a, buf).
Definition kbind {A B} (m : kreader A) (k : A -> kreader B) : kreader B :=
  fun buf => match m buf with Ok (a, buf) => k a buf | Err e => Err e end.

Notation "'field' x '<-' m 'in' k" := (kbind m (fun x => k))
  (at level 10, x binder, m at level 100, k at level 200).

Definition ktake (n : nat) : kreader (list byte) :=
  fun buf => if (n <=? length buf)%nat then Ok (take n buf, drop n buf) else Err (KeytabError "truncated entry").

Definition read_u8 : kreader Z := field b <- ktake 1 in kret (be_val b).
Definition read_u16 : kreader Z := field b <- ktake 2 in kret (be_val b).
Definition read_u32 : kreader Z := field b <- ktake 4 in kret (be_val b).
Definition read_data : kreader (list byte) := field n <- read_u16 in ktake (Z.to_nat n).
Definition read_string : kreader string :=
  field d <- read_data in kret (String.string_of_list_byte (utf8_lossy d)).

Fixpoint read_strings (n : nat) : kreader (list string) :=
  match n with
  | O => kret []
  | S n => field s <- read_string in field l <- read_strings n in kret (s :: l)
  end.

Definition read_entry : kreader KeytabEntry :=
  field n <- read_u16 in
  field realm <- read_string in
  field components <- read_strings (Z.to_nat n) in
  field name_type <- read_u32 in
  field timestamp <- read_u32 in
  field kvno8 <- read_u8 in
  field enctype <- read_u16 in
  field key <- read_data in
  fun buf =>
    let kvno := match read_u32 buf with
                | Ok (v, _) => if v =? 0 then kvno8 else v
                | Err _ => kvno8
                end in
    Ok (MkKeytabEntry realm components name_type timestamp kvno enctype key, buf).

(** The loop over the slots; every round takes the four bytes of a size. *)
Fixpoint parse_slots (fuel : nat) (bytes : list byte) (entries : list KeytabEntry) : result Keytab Error :=
  match fuel with
  | O => Ok (MkKeytab entries)
  | S fuel =>
    if (length bytes <? 4)%nat then Ok (MkKeytab entries) else
    let size := signed 32 (be_val (take 4 bytes)) in
    let bytes := drop 4 bytes in
    let len := Z.to_nat (Z.abs size) in
    if (len =? 0)%nat then Ok (MkKeytab entries) else
    if (length bytes <? len)%nat then Err (KeytabError "truncated entry") else
    if size <? 0 then parse_slots fuel (drop len bytes) entries else
    try eb := read_entry (take len bytes) in
    parse_slots fuel (drop len bytes) (entries ++ [eb.1])
  end.

Definition Keytab_parse (bytes : list byte) : result Keytab Error :=
  match bytes with
  | x05 :: x02 :: slots => parse_slots (S (length slots)) slots []
  | x05 :: x01 :: _ => Err (KeytabError "keytab version 0x0501 is not supported")
  | _ => Err (KeytabError "not a keytab (bad magic)")
  end.

(** ** Writing *)

Definition string_field (s : string) : list byte :=
  let b := String.list_byte_of_string s in be_bytes 2 (wrap 16 (Z.of_nat (length b))) ++ b.

Definition entry_body (e : KeytabEntry) : list byte :=
  be_bytes 2 (wrap 16 (Z.of_nat (length (components e)))) ++
  concat (string_field <$> (realm e :: components e)) ++
  be_bytes 4 (name_type e) ++ be_bytes 4 (timestamp e) ++ [byte_of_Z (kvno e)] ++
  be_bytes 2 (wrap 16 (entry_enctype e)) ++
  be_bytes 2 (wrap 16 (Z.of_nat (length (entry_key e)))) ++ entry_key e ++
  be_bytes 4 (kvno e).

Definition slot_bytes (e : KeytabEntry) : list byte :=
  be_bytes 4 (wrap 32 (Z.of_nat (length (entry_body e)))) ++ entry_body e.

Definition Keytab_to_bytes (k : Keytab) : list byte :=
  [x05; x02] ++ concat (slot_bytes <$> entries k).

(** ** Reading what was written *)

Definition string_ok (s : string) : Prop :=
  utf8_valid (String.list_byte_of_string s) = true /\ Z.of_nat (length (String.list_byte_of_string s)) < 2 ^ 16.

(** What the fields of a keytab entry can hold. *)
Definition entry_ok (e : KeytabEntry) : Prop :=
  string_ok (realm e) /\ Forall string_ok (components e) /\ Z.of_nat (length (components e)) < 2 ^ 16 /\
  in_width 32 (name_type e) /\ in_width 32 (timestamp e) /\ in_width 32 (kvno e) /\
  in_width 16 (entry_enctype e) /\ Z.of_nat (length (entry_key e)) < 2 ^ 16.

(** A slot of a keytab file: an entry, with its 32-bit version number and what later
    formats append, or an old one without; or a deleted entry's bytes. *)
Inductive slot : Type :=
| Live (e : KeytabEntry) (extra : list byte)
| Short (e : KeytabEntry) (extra : list byte)
| Deleted (junk : list byte).

(** The body up to the 32-bit version number. *)
Definition entry_front (e : KeytabEntry) : list byte :=
  be_bytes 2 (Z.of_nat (length (components e))) ++
  concat (string_field <$> (realm e :: components e)) ++
  be_bytes 4 (name_type e) ++ be_bytes 4 (timestamp e) ++ [byte_of_Z (kvno e)] ++
  be_bytes 2 (entry_enctype e) ++ be_bytes 2 (Z.of_nat (length (entry_key e))) ++ entry_key e.

Definition slot_body (s : slot) : list byte :=
  match s with
  | Live e extra => entry_front e ++ be_bytes 4 (kvno e) ++ extra
  | Short e extra => entry_front e ++ extra
  | Deleted junk => junk
  end.

Definition slot_ok (s : slot) : Prop :=
  (0 < length (slot_body s))%nat /\ Z.of_nat (length (slot_body s)) < 2 ^ 31 /\
  match s with
  | Live e _ => entry_ok e
  | Short e extra => entry_ok e /\ kvno e < 256 /\ (length extra < 4)%nat
  | Deleted _ => True
  end.

Definition slot_file (s : slot) : list byte :=
  let n := Z.of_nat (length (slot_body s)) in
  be_bytes 4 (match s with Deleted _ => 2 ^ 32 - n | _ => n end) ++ slot_body s.

Definition slot_entry (s : slot) : option KeytabEntry :=
  match s with Live e _ | Short e _ => Some e | Deleted _ => None end.

Lemma kbind_ok {A B} (m : kreader A) (k : A -> kreader B) a x rest :
  m (a ++ rest) = Ok (x, rest) -> kbind m k (a ++ rest) = k x rest.
Proof. unfold kbind. by intros ->. Qed.

Lemma ktake_app a rest : ktake (length a) (a ++ rest) = Ok (a, rest).
Proof.
  unfold ktake. rewrite (proj2 (Nat.leb_le _ _)) by (rewrite length_app; lia).
  by rewrite take_app_length, drop_app_length.
Qed.

Lemma read_u16_put z rest : in_width 16 z -> read_u16 (be_bytes 2 z ++ rest) = Ok (z, rest).
Proof.
  intros H. unfold read_u16. rewrite (kbind_ok _ _ _ (be_bytes 2 z)) by (rewrite <- (length_be_bytes 2 z) at 1; apply ktake_app).
  unfold kret. by rewrite be_val_be_bytes_small.
Qed.

Lemma keytab_u32_put z rest : in_width 32 z -> read_u32 (be_bytes 4 z ++ rest) = Ok (z, rest).
Proof.
  intros H. unfold read_u32. rewrite (kbind_ok _ _ _ (be_bytes 4 z)) by (rewrite <- (length_be_bytes 4 z) at 1; apply ktake_app).
  unfold kret. by rewrite be_val_be_bytes_small.
Qed.

Lemma read_u8_put b rest : read_u8 ([b] ++ rest) = Ok (Z_of_byte b, rest).
Proof. unfold read_u8. rewrite (kbind_ok _ _ _ [b]) by apply (ktake_app [b]). done. Qed.

Lemma read_data_put d rest :
  Z.of_nat (length d) < 2 ^ 16 -> read_data (be_bytes 2 (Z.of_nat (length d)) ++ d ++ rest) = Ok (d, rest).
Proof.
  intros H. unfold read_data. rewrite (kbind_ok _ _ _ (Z.of_nat (length d)) (d ++ rest)) by (apply read_u16_put; unfold in_width; lia).
  rewrite Nat2Z.id. apply ktake_app.
Qed.

Lemma read_string_put s rest : string_ok s -> read_string (string_field s ++ rest) = Ok (s, rest).
Proof.
  intros [Hu Hl]. unfold read_string, string_field. rewrite wrap_small by (unfold in_width; lia).
  rewrite (kbind_ok _ _ _ (String.list_byte_of_string s) rest) by (rewrite <- (assoc_L (++)); by apply read_data_put).
  unfold kret. by rewrite utf8_lossy_valid, String.string_of_list_byte_of_string.
Qed.

Lemma read_strings_put l rest :
  Forall string_ok l -> read_strings (length l) (concat (string_field <$> l) ++ rest) = Ok (l, rest).
Proof.
  induction 1 as [|s l Hs _ IH]; [done|]. cbn [length read_strings fmap list_fmap concat]. rewrite <- (assoc_L (++)).
  rewrite (kbind_ok _ _ _ s) by by apply read_string_put. by rewrite (kbind_ok _ _ _ l).
Qed.

(** An entry is read from its front and what is left tells the version number. *)
Lemma read_entry_front e tail :
  entry_ok e ->
  read_entry (entry_front e ++ tail) =
  Ok (MkKeytabEntry (realm e) (components e) (name_type e) (timestamp e)
    (match read_u32 tail with
     | Ok (v, _) => if v =? 0 then kvno e mod 256 else v
     | Err _ => kvno e mod 256
     end) (entry_enctype e) (entry_key e), tail).
Proof.
  intros (Hr & Hc & Hn & Hnt & Ht & Hv & He & Hk). unfold entry_front, read_entry. cbn [fmap list_fmap concat].
  rewrite <- !(assoc_L (++)).
  rewrite (kbind_ok _ _ _ (Z.of_nat (length (components e)))) by (apply read_u16_put; unfold in_width; lia).
  rewrite (kbind_ok _ _ _ (realm e)) by by apply read_string_put.
  rewrite Nat2Z.id, (kbind_ok _ _ _ (components e)) by by apply read_strings_put.
  rewrite (kbind_ok _ _ _ (name_type e)) by by apply keytab_u32_put.
  rewrite (kbind_ok _ _ _ (timestamp e)) by by apply keytab_u32_put.
  rewrite (kbind_ok _ _ _ (Z_of_byte (byte_of_Z (kvno e)))) by by apply read_u8_put.
  rewrite (kbind_ok _ _ _ (entry_enctype e)) by by apply read_u16_put.
  rewrite (assoc_L (++)). rewrite (kbind_ok _ _ _ (entry_key e)) by (rewrite <- (assoc_L (++)); by apply read_data_put).
  by rewrite Z_of_byte_of_Z.
Qed.

Lemma read_slot s e : slot_ok s -> slot_entry s = Some e -> exists rest, read_entry (slot_body s) = Ok (e, rest).
Proof.
  intros (_ & _ & H) Es. destruct s as [e' extra|e' extra|]; cbn [slot_entry] in Es; simplify_eq; eexists.
  - cbn [slot_body]. rewrite read_entry_front by done. rewrite keytab_u32_put by apply H. f_equal. f_equal.
    destruct (Z.eqb_spec (kvno e) 0) as [E0|]; [|by destruct e]. rewrite E0. by destruct e; simplify_eq/=.
  - destruct H as (H & Hv & Hx). cbn [slot_body]. rewrite read_entry_front by done.
    assert (E : read_u32 extra = Err (KeytabError "truncated entry")).
    { unfold read_u32, kbind, ktake. by rewrite (proj2 (Nat.leb_gt _ _)). }
    rewrite E, Z.mod_small by (unfold entry_ok, in_width in H; lia). by destruct e.
Qed.

(** A round of the loop takes a slot. *)
Lemma parse_slot fuel s rest entries :
  slot_ok s ->
  parse_slots (S fuel) (slot_file s ++ rest) entries =
  parse_slots fuel rest (entries ++ match slot_entry s with Some e => [e] | None => [] end).
Proof.
  intros Hs. pose proof Hs as (Hpos & Hlt & _). unfold slot_file. set (n := match s with Deleted _ => _ | _ => _ end).
  set (size := match s with Deleted _ => - Z.of_nat (length (slot_body s)) | _ => Z.of_nat (length (slot_body s)) end).
  assert (Hn : signed 32 (be_val (be_bytes 4 n)) = size).
  { rewrite be_val_be_bytes_small by (unfold n, in_width; destruct s; lia).
    unfold signed, n, size. destruct s; case_match; lia. }
  assert (Ha : Z.to_nat (Z.abs size) = length (slot_body s)) by (unfold size; destruct s; lia).
  cbn [parse_slots]. rewrite <- (assoc_L (++)).
  rewrite (proj2 (Nat.ltb_ge _ _)) by (rewrite length_app, length_be_bytes; lia).
  rewrite (take_app_length' _ _ 4), (drop_app_length' _ _ 4) by (by rewrite length_be_bytes). rewrite Hn, Ha.
  rewrite (proj2 (Nat.eqb_neq _ _)), (proj2 (Nat.ltb_ge _ _)) by (rewrite ?length_app; lia).
  rewrite take_app_length, drop_app_length. destruct s as [e extra|e extra|junk].
  1,2: rewrite (proj2 (Z.ltb_ge _ _)) by (unfold size; lia);
    destruct (read_slot _ e Hs eq_refl) as [r ->]; done.
  rewrite (proj2 (Z.ltb_lt _ _)) by (unfold size; lia). by rewrite app_nil_r.
Qed.

Lemma parse_all_slots l fuel entries :
  Forall slot_ok l -> (length l < fuel)%nat ->
  parse_slots fuel (concat (slot_file <$> l)) entries = Ok (MkKeytab (entries ++ omap slot_entry l)).
Proof.
  intros H. revert fuel entries. induction H as [|s l Hs _ IH]; intros [|fuel] entries Hf; simpl in Hf; [lia| |lia|].
  - cbn [fmap list_fmap concat omap list_omap]. by rewrite app_nil_r.
  - cbn [fmap list_fmap concat]. rewrite parse_slot, IH by (done || lia). f_equal. f_equal. rewrite <- (assoc_L (++)).
    cbn [omap list_omap]. by destruct (slot_entry s).
Qed.

Lemma length_slot_files l : Forall slot_ok l -> (4 * length l <= length (concat (slot_file <$> l)))%nat.
Proof.
  induction 1 as [|s l Hs _ IH]; [done|]. cbn [fmap list_fmap concat length]. rewrite length_app.
  unfold slot_file at 1. rewrite length_app, length_be_bytes. lia.
Qed.

(** A keytab file of any entries, with or without 32-bit version numbers, and of
    deleted slots between them, is read as its entries in order; and what [to_bytes]
    writes is such a file. *)
Theorem keytab_roundtrip slots :
  Forall slot_ok slots ->
  Keytab_parse ([x05; x02] ++ concat (slot_file <$> slots)) = Ok (MkKeytab (omap slot_entry slots)) /\
  (forall k, Forall (fun e => slot_ok (Live e [])) (entries k) ->
    Keytab_to_bytes k = [x05; x02] ++ concat (slot_file <$> ((fun e => Live e []) <$> entries k)) /\
    Keytab_parse (Keytab_to_bytes k) = Ok k).
Proof.
  assert (Hp : forall l, Forall slot_ok l ->
    Keytab_parse ([x05; x02] ++ concat (slot_file <$> l)) = Ok (MkKeytab (omap slot_entry l))).
  { intros l Hl. cbn [app Keytab_parse]. pose proof (length_slot_files l Hl). by rewrite parse_all_slots by (done || lia). }
  intros Hs. split; [by apply Hp|]. intros k Hk.
  assert (E : Keytab_to_bytes k = [x05; x02] ++ concat (slot_file <$> ((fun e => Live e []) <$> entries k))).
  { unfold Keytab_to_bytes. do 2 f_equal. rewrite <- list_fmap_compose. apply list_fmap_ext. intros i e He.
    pose proof (Forall_lookup_1 _ _ _ _ Hk He) as (_ & Hl & Hc & _ & Hn & _ & _ & _ & Het & Hkl). cbn [slot_body] in Hl.
    assert (Eb : entry_body e = entry_front e ++ be_bytes 4 (kvno e) ++ []).
    { unfold entry_body, entry_front. rewrite !wrap_small by (done || unfold in_width; lia). by rewrite app_nil_r, <- !(assoc_L (++)). }
    unfold slot_bytes, slot_file. cbn [slot_body compose]. by rewrite Eb, wrap_small by (unfold in_width; lia). }
  split; [done|]. rewrite E, Hp.
  - f_equal. destruct k as [l]. f_equal. cbn [entries]. clear. induction l; cbn; [done|]. by f_equal.
  - apply Forall_fmap. done.
Qed.

Definition demo_entry : KeytabEntry :=
  MkKeytabEntry "EXAMPLE.LO" ["nfs"; "server.example.lo"]%string 2 1700000000 300 18 (be_bytes 32 17).

Lemma keytab_roundtrip_witness :
  Keytab_parse ([x05; x02] ++ concat (slot_file <$> [Deleted [x00; x01]; Live demo_entry [x07]])) =
    Ok (MkKeytab [demo_entry]) /\
  Keytab_parse (Keytab_to_bytes (MkKeytab [demo_entry])) = Ok (MkKeytab [demo_entry]).
Proof.
  assert (H : forall x, slot_ok (Live demo_entry (if x : bool then [x07] else []))).
  { intros x. unfold slot_ok, entry_ok, string_ok, in_width.
    split; [destruct x; vm_compute; lia|]. split; [destruct x; vm_compute; reflexivity|].
    cbn [components demo_entry].
    repeat match goal with
           | |- _ /\ _ => split
           | |- Forall _ (_ :: _) => apply Forall_cons_2
           | |- Forall _ [] => apply Forall_nil_2
           end; vm_compute; congruence. }
  destruct (keytab_roundtrip [Deleted [x00; x01]; Live demo_entry [x07]]) as [E F].
  - apply Forall_cons_2; [|apply Forall_cons_2; [exact (H true)|apply Forall_nil_2]].
    split; [vm_compute; lia|split; [vm_compute; reflexivity|exact I]].
  - split; [exact E|]. apply F. apply Forall_cons_2; [exact (H false)|apply Forall_nil_2].
Defined.
