(* ===== verification/KrbAcceptor.v ===== *)
(** * Accepting and starting Kerberos contexts ([krb5/src/acceptor.rs], [initiator.rs])

    The messages are the records below, with the fields the code reads and writes; their
    DER encoding is the [rasn] crates', the class [Der]. Times are seconds of the epoch,
    instants nanoseconds. *)

From S2P Require Import Prelude Xdr Attrs KrbCrypto KrbToken KrbKeytab.
From stdpp Require Import base numbers list gmap strings.
From Stdlib Require Import Strings.Byte ZArith Lia.
#[local] Open Scope Z_scope.

Definition CLOCK_SKEW_SECS : Z := 300.
Definition GSS_CHECKSUM_TYPE : Z := 0x8003.
Definition GSS_C_MUTUAL_FLAG : Z := 2.
Definition KU_TICKET : Z := 2.
Definition KU_AP_REQ_AUTH : Z := 11.
Definition KU_AP_REP_ENCPART : Z := 12.

(** ** Kerberos messages

    A [GeneralString] is its bytes. *)
Record EncryptedData : Type := MkEncryptedData { etype : Z; data_kvno : option Z; cipher : list byte }.
Record EncryptionKey : Type := MkEncryptionKey { key_type : Z; key_value : list byte }.
Record PrincipalName : Type := MkPrincipalName { name_kind : Z; name_string : list (list byte) }.
Record Ticket : Type := MkTicket { ticket_realm : list byte; sname : PrincipalName; ticket_enc_part : EncryptedData }.
Record ApReq : Type := MkApReq { mutual_required : bool; ticket : Ticket; authenticator : EncryptedData }.
Record EncTicketPart : Type := MkEncTicketPart {
  session_key : EncryptionKey; crealm : list byte; cname : PrincipalName;
  auth_time : Z; start_time : option Z; end_time : Z
}.
Record Checksum : Type := MkChecksum { checksum_type : Z; checksum_bytes : list byte }.
Record Authenticator : Type := MkAuthenticator {
  auth_crealm : list byte; auth_cname : PrincipalName; auth_cksum : option Checksum;
  ctime : Z; cusec : Z; auth_subkey : option EncryptionKey; auth_seq_number : option Z
}.
Record EncApRepPart : Type := MkEncApRepPart {
  rep_ctime : Z; rep_cusec : Z; rep_subkey : option EncryptionKey; rep_seq_number : option Z
}.
Record ApRep : Type := MkApRep { rep_enc_part : EncryptedData }.

#[export] Instance PrincipalName_eq_dec : EqDecision PrincipalName.
Proof. solve_decision. Defined.

(** Encoders and decoders, with the decoder's message on failure. *)
Class Der : Type := {
  put_ap_req : ApReq -> list byte;
  get_ap_req : list byte -> result ApReq string;
  put_ticket_part : EncTicketPart -> list byte;
  get_ticket_part : list byte -> result EncTicketPart string;
  put_authenticator : Authenticator -> list byte;
  get_authenticator : list byte -> result Authenticator string;
  put_rep_part : EncApRepPart -> list byte;
  get_rep_part : list byte -> result EncApRepPart string;
  put_ap_rep : ApRep -> list byte;
  get_ap_rep : list byte -> result ApRep string
}.

Definition der {A} (r : result A string) : result A Error :=
  match r with Ok a => Ok a | Err m => Err (Asn1 m) end.

Definition principal_string (name : PrincipalName) (realm : list byte) : string :=
  String.concat "/" (lossy <$> name_string name) +:+ "@" +:+ lossy realm.

Record Accepted : Type := MkAccepted {
  client : string; accepted_service : string; context_key : ContextKey; accepted_flags : Z;
  initiator_seq : Z; acceptor_seq : Z; expires : Z; output_token : option (list byte)
}.

(** ** Replay cache *)

Record ReplayCache : Type := MkReplayCache { seen : gmap (list byte) Z }.

Definition replay_ttl : Z := 2 * CLOCK_SKEW_SECS * 1000000000.

(** [now.duration_since(t) < ttl]. *)
Definition recent (now t : Z) : bool := Z.max 0 (now - t) <? replay_ttl.

(** A long cache drops what is too old to matter. *)
Definition prune (now : Z) (m : gmap (list byte) Z) : gmap (list byte) Z :=
  if 1024 <? Z.of_nat (size m) then filter (fun kt => recent now kt.2 = true) m else m.

Definition check_and_insert (key : list byte) (now : Z) (c : ReplayCache) : bool * ReplayCache :=
  let kept := prune now (seen c) in
  match kept !! key with
  | Some t => if recent now t then (false, MkReplayCache kept) else (true, MkReplayCache (<[key := now]> kept))
  | None => (true, MkReplayCache (<[key := now]> kept))
  end.

(** ** Accepting *)

(** What a call of the acceptor takes from outside: the time of day, the clock, and what
    the random generator gives for the sequence number and the confounder. *)
Record Moment : Type := MkMoment {
  at_time : Z; at_instant : Z; random_seq : result (list byte) Error; random_confounder : result (list byte) Error
}.

(** [sort_by_key] with the key [(Some(e.kvno) != kvno, Reverse(e.kvno))], stable. *)
Definition key_before (wanted : option Z) (a b : KeytabEntry) : bool :=
  let other e := negb (bool_decide (Some (kvno e) = wanted)) in
  if Bool.eqb (other a) (other b) then kvno b <=? kvno a else negb (other a).

Fixpoint insert_candidate (wanted : option Z) (e : KeytabEntry) (l : list KeytabEntry) : list KeytabEntry :=
  match l with
  | [] => [e]
  | x :: l' => if key_before wanted e x then e :: l else x :: insert_candidate wanted e l'
  end.

Definition sort_candidates (wanted : option Z) (l : list KeytabEntry) : list KeytabEntry :=
  foldr (insert_candidate wanted) [] l.

Section Acceptor.
Context `{P : Primitives} `{D : Der}.

(** [find_map]: the first key that decrypts. *)
Fixpoint try_keys (e : Enctype) (l : list KeytabEntry) (cipher : list byte) : option (list byte) :=
  match l with
  | [] => None
  | k :: l => match decrypt e (entry_key k) KU_TICKET cipher with Ok p => Some p | Err _ => try_keys e l cipher end
  end.

Definition service_keys (keytab : Keytab) (t : Ticket) (e : Enctype) : list KeytabEntry :=
  filter (fun k => realm k = lossy (ticket_realm t) /\ components k = lossy <$> name_string (sname t) /\
    entry_enctype k = number e) (entries keytab).

Definition or_err {A} (o : option A) (e : Error) : result A Error := match o with Some a => Ok a | None => Err e end.

Definition check (b : bool) (e : Error) : result unit Error := if b then Ok tt else Err e.

(** The ticket, decrypted with a key of the keytab and in its time. *)
Definition open_ticket (keytab : Keytab) (t : Ticket) (now : Z) : result EncTicketPart Error :=
  let part := ticket_enc_part t in
  try e := or_err (Enctype_from_i32 (etype part)) (UnsupportedEnctype (etype part)) in
  let candidates := service_keys keytab t e in
  try _ := check (negb (bool_decide (candidates = [])))
    (NoKey (principal_string (sname t) (ticket_realm t) +:+ " (" +:+ Enctype_debug e +:+ ")")) in
  try enc_ticket := or_err (try_keys e (sort_candidates (data_kvno part) candidates) (cipher part)) Integrity in
  try tkt := der (get_ticket_part enc_ticket) in
  let start := default (auth_time tkt) (start_time tkt) in
  try _ := check (negb (now <? start - CLOCK_SKEW_SECS)) (Rejected "ticket not yet valid") in
  try _ := check (negb (end_time tkt + CLOCK_SKEW_SECS <? now)) (Rejected "ticket expired") in
  Ok tkt.

(** The authenticator, decrypted with the session key and checked against the ticket and
    the time; with its bytes and the flags of its checksum. *)
Definition open_authenticator (tkt : EncTicketPart) (req : ApReq) (now : Z)
    : result (Enctype * list byte * Authenticator * Z) Error :=
  try sess := or_err (Enctype_from_i32 (key_type (session_key tkt))) (UnsupportedEnctype (key_type (session_key tkt))) in
  try auth_bytes := decrypt sess (key_value (session_key tkt)) KU_AP_REQ_AUTH (cipher (authenticator req)) in
  try auth := der (get_authenticator auth_bytes) in
  try _ := check (bool_decide (auth_crealm auth = crealm tkt) && bool_decide (auth_cname auth = cname tkt))
    (Rejected "authenticator does not match the ticket") in
  try _ := check (negb (CLOCK_SKEW_SECS <? Z.abs (ctime auth - now))) (Rejected "clock skew too great") in
  try cksum := or_err (auth_cksum auth) (Rejected "no GSS checksum in the authenticator") in
  try _ := check ((checksum_type cksum =? GSS_CHECKSUM_TYPE) && (24 <=? length (checksum_bytes cksum))%nat)
    (Rejected "malformed GSS checksum") in
  let flags := be_val (rev (take 4 (drop 20 (checksum_bytes cksum)))) in
  Ok (sess, auth_bytes, auth, flags).

Definition replay_key (tkt : EncTicketPart) (auth_bytes : list byte) : list byte :=
  String.list_byte_of_string (principal_string (cname tkt) (crealm tkt)) ++ [x00] ++ auth_bytes.

(** The key of the context: the initiator's subkey or the session key. *)
Definition choose_key (tkt : EncTicketPart) (sess : Enctype) (auth : Authenticator) : result ContextKey Error :=
  try k := (match auth_subkey auth with
            | Some sk =>
              try e := or_err (Enctype_from_i32 (key_type sk)) (UnsupportedEnctype (key_type sk)) in
              Ok (MkContextKey e (key_value sk) false)
            | None => Ok (MkContextKey sess (key_value (session_key tkt)) false)
            end) in
  try _ := check (length (key k) =? key_len (enctype k))%nat (Rejected "subkey length does not match its enctype") in
  Ok k.

(** The sequence number of the acceptor's side and, for mutual authentication, the AP-REP. *)
Definition answer_ap_req (tkt : EncTicketPart) (sess : Enctype) (auth : Authenticator) (flags seq : Z) (m : Moment)
    : result (Z * option (list byte)) Error :=
  if has_bits flags GSS_C_MUTUAL_FLAG then
    try r := random_seq m in
    let own := Z.land (be_val r) 0x3fffffff in
    let part := put_rep_part (MkEncApRepPart (ctime auth) (cusec auth) None (Some own)) in
    try c := encrypt sess (key_value (session_key tkt)) KU_AP_REP_ENCPART part (random_confounder m) in
    Ok (own, Some (token_build TOK_ID_AP_REP (put_ap_rep (MkApRep (MkEncryptedData (number sess) None c)))))
  else Ok (seq, None).

(** Everything up to the replay cache. *)
Definition read_token (keytab : Keytab) (input : list byte) (now : Z)
    : result (ApReq * EncTicketPart * (Enctype * list byte * Authenticator * Z)) Error :=
  try im := token_parse input in
  let '(tok_id, msg) := im in
  try _ := check (bool_decide (tok_id = TOK_ID_AP_REQ)) (Token "expected an AP-REQ") in
  try req := der (get_ap_req msg) in
  try tkt := open_ticket keytab (ticket req) now in
  try a := open_authenticator tkt req now in
  Ok (req, tkt, a).

Definition accept_at (keytab : Keytab) (input : list byte) (m : Moment) (c : ReplayCache)
    : result Accepted Error * ReplayCache :=
  match read_token keytab input (at_time m) with
  | Err e => (Err e, c)
  | Ok (req, tkt, (sess, auth_bytes, auth, flags)) =>
    let '(new, c) := check_and_insert (replay_key tkt auth_bytes) (at_instant m) c in
    if negb new then (Err (Rejected "authenticator replayed"), c) else
    (try k := choose_key tkt sess auth in
     let seq := default 0 (auth_seq_number auth) in
     try a := answer_ap_req tkt sess auth flags seq m in
     Ok (MkAccepted (principal_string (cname tkt) (crealm tkt))
       (principal_string (sname (ticket req)) (ticket_realm (ticket req))) k flags seq a.1 (end_time tkt) a.2), c)
  end.

(** ** The initiator, and the tickets it starts from *)

(** [str::split] at a byte. *)
Fixpoint split_byte (sep : byte) (l : list byte) : list (list byte) :=
  match l with
  | [] => [[]]
  | b :: l =>
    if byte_eq_dec b sep then [] :: split_byte sep l
    else match split_byte sep l with c :: cs => (b :: c) :: cs | [] => [] end
  end.

(** The names are ASCII, as [GeneralString] asks. *)
Definition principal_name (name : string) : PrincipalName :=
  let parts := split_byte x2f (String.list_byte_of_string name) in
  MkPrincipalName (if (1 <? length parts)%nat then 2 else 1) parts.

Record Credential : Type := MkCredential {
  cred_client : string; client_realm : string; cred_ticket : Ticket;
  session_enctype : Enctype; cred_session_key : list byte
}.

(** [random_key] and [random_confounder] come from the system's generator. *)
Definition issue_ticket (service_key : KeytabEntry) (client : string) (session : Enctype) (start end_ : Z)
    (random_key random_cf : result (list byte) Error) : result Credential Error :=
  try e := or_err (KeytabEntry_enctype service_key) (UnsupportedEnctype (entry_enctype service_key)) in
  try sk := random_key in
  let realm_bytes := String.list_byte_of_string (realm service_key) in
  let part := MkEncTicketPart (MkEncryptionKey (number session) sk) realm_bytes (principal_name client)
    start (Some start) end_ in
  try c := encrypt e (entry_key service_key) KU_TICKET (put_ticket_part part) random_cf in
  let name := MkPrincipalName (signed 32 (name_type service_key)) (String.list_byte_of_string <$> components service_key) in
  Ok (MkCredential client (realm service_key)
    (MkTicket realm_bytes name (MkEncryptedData (number e) (Some (kvno service_key)) c)) session sk).

Record Initiator_ : Type := MkInitiator {
  ini_key : ContextKey; ini_seq : Z; ini_ctime : Z; ini_session_enctype : Enctype; ini_session_key : list byte
}.

Definition le_bytes (n : nat) (z : Z) : list byte := rev (be_bytes n z).

Definition Initiator_start (cred : Credential) (flags : Z) (subkey : option Enctype) (time : Z)
    (random_key random_seq random_cf : result (list byte) Error) : result (Initiator_ * list byte) Error :=
  let cksum := le_bytes 4 16 ++ replicate 16 x00 ++ le_bytes 4 flags in
  try k := (match subkey with
            | Some e => try v := random_key in Ok (MkContextKey e v false)
            | None => Ok (MkContextKey (session_enctype cred) (cred_session_key cred) false)
            end) in
  try r := random_seq in
  let seq := Z.land (be_val r) 0x3fffffff in
  let auth := MkAuthenticator (String.list_byte_of_string (client_realm cred)) (principal_name (cred_client cred))
    (Some (MkChecksum 0x8003 cksum)) time 123456
    ((fun _ => MkEncryptionKey (number (enctype k)) (key k)) <$> subkey) (Some seq) in
  try c := encrypt (session_enctype cred) (cred_session_key cred) KU_AP_REQ_AUTH (put_authenticator auth) random_cf in
  let req := MkApReq (has_bits flags GSS_C_MUTUAL_FLAG) (cred_ticket cred)
    (MkEncryptedData (number (session_enctype cred)) None c) in
  Ok (MkInitiator k seq time (session_enctype cred) (cred_session_key cred),
      token_build TOK_ID_AP_REQ (put_ap_req req)).

(** The acceptor's first sequence number; the initiator takes over a subkey. *)
Definition Initiator_finish (ini : Initiator_) (ap_rep_token : list byte) : result (Z * Initiator_) Error :=
  try im := token_parse ap_rep_token in
  let '(id, msg) := im in
  try _ := check (bool_decide (id = TOK_ID_AP_REP)) (Token "expected an AP-REP") in
  try rep := der (get_ap_rep msg) in
  try plain := decrypt (ini_session_enctype ini) (ini_session_key ini) KU_AP_REP_ENCPART (cipher (rep_enc_part rep)) in
  try part := der (get_rep_part plain) in
  try _ := check (rep_ctime part =? ini_ctime ini) (Rejected "AP-REP ctime does not echo the authenticator") in
  try k := (match rep_subkey part with
            | Some sk =>
              try e := or_err (Enctype_from_i32 (key_type sk)) (UnsupportedEnctype (key_type sk)) in
              Ok (MkContextKey e (key_value sk) true)
            | None => Ok (ini_key ini)
            end) in
  Ok (default 0 (rep_seq_number part),
      MkInitiator k (ini_seq ini) (ini_ctime ini) (ini_session_enctype ini) (ini_session_key ini)).
End Acceptor.

(** What the encoders promise: their decoders read what they wrote. *)
Class DerOk (D : Der) : Prop := {
  ap_req_ok a : get_ap_req (put_ap_req a) = Ok a;
  ticket_part_ok a : get_ticket_part (put_ticket_part a) = Ok a;
  authenticator_ok a : get_authenticator (put_authenticator a) = Ok a;
  rep_part_ok a : get_rep_part (put_rep_part a) = Ok a;
  ap_rep_ok a : get_ap_rep (put_ap_rep a) = Ok a
}.
