(* ===== verification/KrbHandshake.v ===== *)
(** * Establishing Kerberos contexts

    A context an initiator starts with a ticket of the service is accepted with the same
    key on both sides, whatever was accepted before, and a token accepted twice has
    outlived the replay cache. *)

From S2P Require Import Prelude Xdr Attrs KrbCrypto KrbCryptoSpec KrbToken KrbKeytab KrbAcceptor.
From stdpp Require Import base numbers list gmap strings.
From Stdlib Require Import Strings.Byte ZArith Lia.
#[local] Open Scope Z_scope.

Lemma Enctype_from_number e : Enctype_from_i32 (number e) = Some e.
Proof. by destruct e. Qed.

Lemma lossy_utf8 s : utf8_valid (String.list_byte_of_string s) = true -> lossy (String.list_byte_of_string s) = s.
Proof. intros H. unfold lossy. by rewrite utf8_lossy_valid, String.string_of_list_byte_of_string. Qed.

Lemma insert_candidate_elem w e l x : x ∈ insert_candidate w e l <-> x = e \/ x ∈ l.
Proof.
  induction l as [|y l IH]; simpl; [by rewrite list_elem_of_singleton, elem_of_nil; intuition|].
  case_match; rewrite ?elem_of_cons, ?IH; intuition.
Qed.

Lemma sort_candidates_elem w l x : x ∈ sort_candidates w l <-> x ∈ l.
Proof.
  induction l as [|y l IH]; simpl; [done|]. fold (sort_candidates w l) in *.
  by rewrite insert_candidate_elem, IH, elem_of_cons.
Qed.

(** ** The replay cache *)

Lemma prune_recent now m (k : list byte) t : m !! k = Some t -> recent now t = true -> prune now m !! k = Some t.
Proof. intros. unfold prune. case_match; [|done]. by apply map_lookup_filter_Some. Qed.

(** A key that is in the cache and recent is refused, and stays as long as it is. *)
Lemma check_and_insert_recent key now c t :
  seen c !! key = Some t -> recent now t = true -> (check_and_insert key now c).1 = false.
Proof. intros Hs Hr. unfold check_and_insert. by rewrite (prune_recent _ _ _ _ Hs Hr), Hr. Qed.

Lemma check_and_insert_keeps key now c k t :
  seen c !! k = Some t -> recent now t = true -> seen (check_and_insert key now c).2 !! k = Some t.
Proof.
  intros Hs Hr. pose proof (prune_recent _ _ _ _ Hs Hr) as Hk. unfold check_and_insert.
  destruct (decide (k = key)) as [->|Hne]; [by rewrite Hk, Hr|].
  case_match; [case_match|]; simpl; rewrite ?lookup_insert_ne by congruence; done.
Qed.

Lemma check_and_insert_new key now c :
  (check_and_insert key now c).1 = true -> seen (check_and_insert key now c).2 !! key = Some now.
Proof. unfold check_and_insert. repeat case_match; simpl; try done; intros _; apply lookup_insert_eq. Qed.

Section Handshake.
Context `{HP : PrimitivesOk} `{HD : DerOk}.

(** ** No token twice *)

(** The calls of one acceptor, each with its time; the tokens, the last one first. *)
Inductive accepts (keytab : Keytab) : list (list byte) -> ReplayCache -> Z -> ReplayCache -> Z -> Prop :=
| accepts_none c i : accepts keytab [] c i c i
| accepts_more l c i c1 i1 input m :
    accepts keytab l c i c1 i1 -> i1 <= at_instant m ->
    accepts keytab (input :: l) c i (accept_at keytab input m c1).2 (at_instant m).

Lemma accepts_instant keytab l c i c' i' : accepts keytab l c i c' i' -> i <= i'.
Proof. induction 1; lia. Qed.

Lemma check_ok b e u : check b e = Ok u -> b = true.
Proof. by destruct b. Qed.

(** The steps of a [try] chain that succeeded. *)
Ltac steps H :=
  repeat match type of H with
         | result_bind ?r _ = Ok _ =>
           let E := fresh "E" in destruct r eqn:E; [cbn [result_bind] in H; try apply check_ok in E|discriminate H]
         end.

Lemma open_ticket_time keytab t n1 n2 a b :
  open_ticket keytab t n1 = Ok a -> open_ticket keytab t n2 = Ok b -> a = b.
Proof. unfold open_ticket. intros H1 H2. steps H1. steps H2. simplify_eq. congruence. Qed.

Lemma open_authenticator_time tkt req n1 n2 a b :
  open_authenticator tkt req n1 = Ok a -> open_authenticator tkt req n2 = Ok b ->
  a = b /\ Z.abs (ctime a.1.2 - n1) <= 300.
Proof.
  unfold open_authenticator. intros H1 H2. steps H1. steps H2. simplify_eq. split; [congruence|]. simpl.
  match goal with H : negb (CLOCK_SKEW_SECS <? Z.abs (_ - n1)) = true |- _ => apply negb_true_iff, Z.ltb_ge in H; done end.
Qed.

(** A token reads the same at any two times it is read at, both close to its own. *)
Lemma read_token_time keytab input n1 n2 a b :
  read_token keytab input n1 = Ok a -> read_token keytab input n2 = Ok b -> a = b /\ Z.abs (ctime a.2.1.2 - n1) <= 300.
Proof.
  unfold read_token. destruct (token_parse input) as [[id msg]|]; [|done]. cbn [result_bind].
  intros H1 H2. steps H1. steps H2. simplify_eq.
  match goal with A : open_ticket _ _ n1 = Ok _, B : open_ticket _ _ n2 = Ok _ |- _ =>
    pose proof (open_ticket_time _ _ _ _ _ _ A B) as -> end.
  match goal with A : open_authenticator _ _ n1 = Ok _, B : open_authenticator _ _ n2 = Ok _ |- _ =>
    destruct (open_authenticator_time _ _ _ _ _ _ A B) as [-> ?] end. done.
Qed.

Lemma accept_at_ok keytab input m c acc c' :
  accept_at keytab input m c = (Ok acc, c') ->
  exists r, read_token keytab input (at_time m) = Ok r /\
    check_and_insert (replay_key r.1.2 r.2.1.1.2) (at_instant m) c = (true, c').
Proof.
  unfold accept_at. destruct (read_token _ _ _) as [[[req tkt] [[[sess ab] auth] fl]]|]; [|done]. intros E.
  eexists. split; [done|]. simpl. destruct (check_and_insert _ _ _) as [[] c1]; simpl in E; congruence.
Qed.

Lemma accept_at_cache keytab input m c :
  (accept_at keytab input m c).2 = c \/
  exists r, read_token keytab input (at_time m) = Ok r /\
    (accept_at keytab input m c).2 = (check_and_insert (replay_key r.1.2 r.2.1.1.2) (at_instant m) c).2.
Proof.
  unfold accept_at. destruct (read_token _ _ _) as [[[req tkt] [[[sess ab] auth] fl]]|]; [|by left]. right.
  eexists. split; [done|]. cbn [fst snd]. by destruct (check_and_insert _ _ _) as [[] c1].
Qed.

(** What is in the cache came from a token. *)
Lemma check_and_insert_old key now c k t :
  seen (check_and_insert key now c).2 !! k = Some t -> k = key \/ seen c !! k = Some t.
Proof.
  assert (Hp : forall k, prune now (seen c) !! k = Some t -> seen c !! k = Some t).
  { intros k'. unfold prune. case_match; [|done]. by intros [? _]%map_lookup_filter_Some. }
  unfold check_and_insert. repeat case_match; cbn [snd seen]; intros H1;
    [right; by apply Hp|apply lookup_insert_Some in H1 as [[<- _]|[_ H1]]; [by left|right; by apply Hp]..].
Qed.

Lemma accepts_keys keytab l c i c' i' k t :
  accepts keytab l c i c' i' -> seen c' !! k = Some t ->
  seen c !! k = Some t \/ exists input n r, input ∈ l /\ read_token keytab input n = Ok r /\ k = replay_key r.1.2 r.2.1.1.2.
Proof.
  induction 1 as [c i|l c i c1 i1 input m _ IH _]; [by left|]. intros Hk.
  assert (Hold : seen c1 !! k = Some t -> seen c !! k = Some t \/
    exists input0 n r, input0 ∈ input :: l /\ read_token keytab input0 n = Ok r /\ k = replay_key r.1.2 r.2.1.1.2).
  { intros [?|(x & n & r & Hx & ?)]%IH; [by left|]. right. exists x, n, r. split; [by right|done]. }
  destruct (accept_at_cache keytab input m c1) as [E|(r & Er & E)]; rewrite E in Hk; [by apply Hold|].
  apply check_and_insert_old in Hk as [->|Hk]; [|by apply Hold]. right. exists input, (at_time m), r. split; [by left|done].
Qed.

Lemma recent_earlier i i' t : i <= i' -> recent i' t = true -> recent i t = true.
Proof. unfold recent. rewrite !Z.ltb_lt. lia. Qed.

Lemma accepts_keeps keytab l c i c' i' k t :
  accepts keytab l c i c' i' -> seen c !! k = Some t -> recent i' t = true -> seen c' !! k = Some t.
Proof.
  induction 1 as [|l c i c1 i1 input m _ IH Hle]; intros Hk Hr; [done|].
  specialize (IH Hk (recent_earlier _ _ _ Hle Hr)).
  destruct (accept_at_cache keytab input m c1) as [->|(r & _ & ->)]; [done|]. by apply check_and_insert_keeps.
Qed.

(** C19: A context token that is accepted a second time, whatever tokens come in between, has
    outlived the replay cache and not yet its own time: ten minutes have passed on the
    monotonic clock and at most ten by the time of day. So with two clocks that agree no
    token is accepted twice, but for one that was five minutes ahead of the clock, exactly
    ten minutes later. *)
Theorem accepted_once keytab token m1 c acc1 c1 l c2 i2 m2 acc2 c3 :
  accept_at keytab token m1 c = (Ok acc1, c1) ->
  accepts keytab l c1 (at_instant m1) c2 i2 -> i2 <= at_instant m2 ->
  accept_at keytab token m2 c2 = (Ok acc2, c3) ->
  replay_ttl <= at_instant m2 - at_instant m1 /\ at_time m2 - at_time m1 <= 2 * CLOCK_SKEW_SECS.
Proof.
  intros H1 Hrun Hi H2. destruct (accept_at_ok _ _ _ _ _ _ H1) as (r1 & E1 & C1).
  destruct (accept_at_ok _ _ _ _ _ _ H2) as (r2 & E2 & C2).
  destruct (read_token_time _ _ _ _ _ _ E1 E2) as [-> Ht1]. destruct (read_token_time _ _ _ _ _ _ E2 E1) as [_ Ht2].
  pose proof (check_and_insert_new (replay_key r2.1.2 r2.2.1.1.2) (at_instant m1) c) as Hnew. rewrite C1 in Hnew.
  specialize (Hnew eq_refl). cbn [snd] in Hnew. split; [|unfold CLOCK_SKEW_SECS; lia].
  destruct (Z.le_gt_cases replay_ttl (at_instant m2 - at_instant m1)) as [|Hlt]; [done|exfalso].
  assert (Hr : recent (at_instant m2) (at_instant m1) = true).
  { unfold recent. apply Z.ltb_lt. pose proof (accepts_instant _ _ _ _ _ _ Hrun). unfold replay_ttl in *. lia. }
  pose proof (accepts_keeps _ _ _ _ _ _ _ _ Hrun Hnew (recent_earlier _ _ _ Hi Hr)) as Hc2.
  pose proof (check_and_insert_recent _ _ _ _ Hc2 Hr) as Hf. by rewrite C2 in Hf.
Qed.

(** ** A context both sides agree on *)

Lemma try_keys_only e l c p k0 :
  k0 ∈ l -> decrypt e (entry_key k0) KU_TICKET c = Ok p ->
  (forall k q, k ∈ l -> decrypt e (entry_key k) KU_TICKET c = Ok q -> q = p) -> try_keys e l c = Some p.
Proof.
  induction l as [|k l IH]; intros Hin Hd Hall; [by apply elem_of_nil in Hin|]. simpl.
  destruct (decrypt e (entry_key k) KU_TICKET c) as [q|] eqn:E; [f_equal; eapply Hall; [left|done]|].
  apply elem_of_cons in Hin as [->|Hin]; [congruence|]. apply IH; [done..|]. intros k' q Hk. apply Hall. by right.
Qed.

(** What an entry's key encrypts it decrypts. *)
Lemma encrypt_decrypt e k usage p cf c :
  length k = key_len e -> is_block cf -> encrypt e k usage p (Ok cf) = Ok c -> decrypt e k usage c = Ok p.
Proof.
  intros Hk Hcf. unfold encrypt. cbn [result_bind]. destruct (encrypts e k usage p cf Hk Hcf) as (c' & -> & _ & Hd).
  by intros [= <-].
Qed.

(** The flags survive the checksum they are sent in. *)
Lemma checksum_flags flags :
  in_width 32 flags ->
  let b := le_bytes 4 16 ++ replicate 16 x00 ++ le_bytes 4 flags in
  length b = 24%nat /\ be_val (rev (take 4 (drop 20 b))) = flags.
Proof.
  intros Hf b. split; [done|]. change (be_val (rev (rev (be_bytes 4 flags))) = flags).
  rewrite rev_involutive. by apply be_val_be_bytes_small.
Qed.

Lemma short_token id message :
  length id = 2%nat -> Z.of_nat (length (token_build id message)) < 2 ^ 32 ->
  token_parse (token_build id message) = Ok (id, message).
Proof.
  intros Hid Hl. rewrite <- (app_nil_r (token_build id message)). apply framing_parse; [done|].
  unfold token_build in Hl. rewrite !length_app in Hl. simpl in Hl. lia.
Qed.

(** A name without a NUL byte ends at the first one. *)
Lemma split_at_nul (p1 p2 a1 a2 : list byte) :
  x00 ∉ p1 -> x00 ∉ p2 -> p1 ++ [x00] ++ a1 = p2 ++ [x00] ++ a2 -> a1 = a2.
Proof.
  revert p2. induction p1 as [|b p1 IH]; intros [|b2 p2] H1 H2; cbn [app]; intros E; injection E.
  - done.
  - intros _ <-. destruct H2. by left.
  - intros _ ->. destruct H1. by left.
  - intros E2 _. apply (IH p2); [| |exact E2]; [intros Hin; apply H1|intros Hin; apply H2]; by right.
Qed.

Definition principal_bytes (tkt : EncTicketPart) : list byte :=
  String.list_byte_of_string (principal_string (cname tkt) (crealm tkt)).

Section Ticket.
Context (keytab : Keytab) (svc : KeytabEntry) (e sess : Enctype) (cl : string) (start end_ : Z).
Context (sk cf1 : list byte) (cred : Credential).
Hypothesis svc_in : svc ∈ entries keytab.
Hypothesis svc_key : entry_enctype svc = number e /\ length (entry_key svc) = key_len e.
Hypothesis svc_name : utf8_valid (String.list_byte_of_string (realm svc)) = true /\
  Forall (fun s => utf8_valid (String.list_byte_of_string s) = true) (components svc).
Hypothesis sk_length : length sk = key_len sess.
Hypothesis cf1_block : is_block cf1.
Hypothesis issued : issue_ticket svc cl sess start end_ (Ok sk) (Ok cf1) = Ok cred.

Definition ticket_part : EncTicketPart :=
  MkEncTicketPart (MkEncryptionKey (number sess) sk) (String.list_byte_of_string (realm svc)) (principal_name cl)
    start (Some start) end_.

(** No other key of the keytab opens the ticket. *)
Definition sole_key : Prop :=
  forall k q, k ∈ entries keytab -> entry_enctype k = number e ->
    decrypt e (entry_key k) KU_TICKET (cipher (ticket_enc_part (cred_ticket cred))) = Ok q -> entry_key k = entry_key svc.

Lemma ticket_opens now :
  sole_key -> start - 300 <= now <= end_ + 300 -> open_ticket keytab (cred_ticket cred) now = Ok ticket_part.
Proof.
  destruct svc_key as [He Hk]. destruct svc_name as [Hr Hc]. unfold sole_key. pose proof issued as Hi.
  unfold issue_ticket, KeytabEntry_enctype in Hi. rewrite He, Enctype_from_number in Hi. cbn [or_err result_bind] in Hi.
  fold ticket_part in Hi. destruct (encrypt _ _ _ _ _) as [c|] eqn:E; [|done]. cbn [result_bind] in Hi. injection Hi as <-.
  cbn [cred_ticket ticket_enc_part cipher]. intros Hsole Hnow. apply encrypt_decrypt in E; [|done..].
  unfold open_ticket. cbn [ticket_enc_part etype cipher data_kvno]. rewrite Enctype_from_number. cbn [or_err result_bind].
  set (keys := service_keys _ _ _). assert (Hin : svc ∈ keys).
  { unfold keys, service_keys. apply list_elem_of_filter. cbn [ticket_realm sname name_string]. split; [|done].
    rewrite lossy_utf8 by done. split_and!; [done| |done]. rewrite <- list_fmap_compose.
    clear -Hc. induction Hc as [|x l Hx _ IH]; [done|]. cbn. rewrite lossy_utf8 by done. by f_equal. }
  rewrite bool_decide_false by (intros E0; rewrite E0 in Hin; by apply elem_of_nil in Hin). cbn [check negb result_bind].
  rewrite (try_keys_only _ _ _ (put_ticket_part ticket_part) svc); cycle 1.
  - by apply sort_candidates_elem.
  - done.
  - intros k q Hkin Hq. apply sort_candidates_elem in Hkin. apply list_elem_of_filter in Hkin as [(_ & _ & Hke) Hkin].
    pose proof (Hsole k q Hkin Hke Hq) as Heq. rewrite Heq in Hq. congruence.
  - cbn [or_err result_bind]. rewrite ticket_part_ok. cbn [der result_bind ticket_part default start_time auth_time end_time from_option].
    unfold Datatypes.id, CLOCK_SKEW_SECS. rewrite !(proj2 (Z.ltb_ge _ _)) by lia. done.
Qed.

Context (flags time : Z) (sub : option Enctype) (subkey r cf2 : list byte) (ini : Initiator_) (token : list byte).
Hypothesis subkey_length : forall e', sub = Some e' -> length subkey = key_len e'.
Hypothesis cf2_block : is_block cf2.
Hypothesis flags_width : in_width 32 flags.
Hypothesis started : Initiator_start cred flags sub time (Ok subkey) (Ok r) (Ok cf2) = Ok (ini, token).

Definition sent_authenticator : Authenticator :=
  MkAuthenticator (String.list_byte_of_string (realm svc)) (principal_name cl)
    (Some (MkChecksum 0x8003 (le_bytes 4 16 ++ replicate 16 x00 ++ le_bytes 4 flags))) time 123456
    ((fun _ => MkEncryptionKey (number (enctype (ini_key ini))) (key (ini_key ini))) <$> sub) (Some (ini_seq ini)).

Lemma cred_fields : cred_client cred = cl /\ client_realm cred = realm svc /\ session_enctype cred = sess /\ cred_session_key cred = sk.
Proof. pose proof issued as Hi. unfold issue_ticket in Hi. steps Hi. by simplify_eq. Qed.

Lemma started_token :
  exists req, token = token_build TOK_ID_AP_REQ (put_ap_req req) /\ ticket req = cred_ticket cred /\
    decrypt sess sk KU_AP_REQ_AUTH (cipher (authenticator req)) = Ok (put_authenticator sent_authenticator) /\
    ini_ctime ini = time /\ ini_session_enctype ini = sess /\ ini_session_key ini = sk /\
    acceptor_subkey (ini_key ini) = false /\ length (key (ini_key ini)) = key_len (enctype (ini_key ini)) /\
    (sub = None -> enctype (ini_key ini) = sess /\ key (ini_key ini) = sk).
Proof.
  destruct cred_fields as (Ecl & Er & Ese & Esk). pose proof started as Hs. unfold Initiator_start in Hs.
  rewrite Ecl, Er, Ese, Esk in Hs. cbn [result_bind] in Hs.
  assert (exists k, (match sub with Some e => Ok (MkContextKey e subkey false) | None => Ok (MkContextKey sess sk false) end
    : result ContextKey Error) = Ok k /\ acceptor_subkey k = false /\ length (key k) = key_len (enctype k) /\
    (sub = None -> enctype k = sess /\ key k = sk)) as (k & Ek & Hk).
  { destruct sub as [e'|]; eexists; (split; [done|]); cbn; split_and!; auto; done. }
  rewrite Ek in Hs. cbn [result_bind] in Hs.
  destruct (encrypt _ _ _ _ _) as [c|] eqn:E; [|done]. cbn [result_bind] in Hs. injection Hs as Hini <-.
  apply encrypt_decrypt in E; [|done..]. eexists. split; [done|]. rewrite <- Hini. split; [done|].
  destruct Hk as (Hk1 & Hk2 & Hk3). split; [|by split_and!]. cbn [authenticator cipher]. rewrite E. unfold sent_authenticator. by rewrite <- Hini.
Qed.

Lemma authenticator_opens req now :
  decrypt sess sk KU_AP_REQ_AUTH (cipher (authenticator req)) = Ok (put_authenticator sent_authenticator) ->
  Z.abs (time - now) <= 300 ->
  open_authenticator ticket_part req now = Ok (sess, put_authenticator sent_authenticator, sent_authenticator, flags).
Proof.
  intros Hd Hnow. unfold open_authenticator. cbn [ticket_part session_key key_type key_value].
  rewrite Enctype_from_number. cbn [or_err result_bind]. rewrite Hd. cbn [result_bind].
  rewrite authenticator_ok. cbn [der result_bind sent_authenticator auth_crealm auth_cname auth_cksum ctime crealm cname].
  rewrite !bool_decide_true by done. cbn [andb check result_bind]. unfold CLOCK_SKEW_SECS.
  rewrite (proj2 (Z.ltb_ge _ _)) by done. cbn [negb check result_bind or_err checksum_type checksum_bytes].
  destruct (checksum_flags flags flags_width) as [Hl Hf]. rewrite Hl, Hf. done.
Qed.

Lemma key_chosen :
  length (key (ini_key ini)) = key_len (enctype (ini_key ini)) -> acceptor_subkey (ini_key ini) = false ->
  (sub = None -> enctype (ini_key ini) = sess /\ key (ini_key ini) = sk) ->
  choose_key ticket_part sess sent_authenticator = Ok (ini_key ini).
Proof.
  intros Hl Ha Hn. unfold choose_key. cbn [sent_authenticator auth_subkey ticket_part session_key key_value].
  destruct (ini_key ini) as [ke kv ka]. cbn [enctype key acceptor_subkey] in *. subst ka. destruct sub as [e'|].
  - cbn [fmap option_fmap option_map key_type key_value]. rewrite Enctype_from_number. cbn [or_err result_bind enctype key].
    by rewrite Hl, Nat.eqb_refl.
  - destruct (Hn eq_refl) as [-> ->]. cbn [fmap option_fmap option_map result_bind enctype key]. by rewrite sk_length, Nat.eqb_refl.
Qed.

(** Tokens with other authenticators, of any client, this one too; no name has a NUL byte. *)
Definition other_logins (l : list (list byte)) : Prop :=
  x00 ∉ principal_bytes ticket_part /\
  forall input n x, input ∈ l -> read_token keytab input n = Ok x ->
    x00 ∉ principal_bytes x.1.2 /\ x.2.1.1.2 <> put_authenticator sent_authenticator.

Lemma other_logins_new l i0 c i :
  accepts keytab l (MkReplayCache ∅) i0 c i -> other_logins l ->
  seen c !! replay_key ticket_part (put_authenticator sent_authenticator) = None.
Proof.
  intros Hrun [Hp Hl]. destruct (seen c !! _) as [t|] eqn:Et; [exfalso|done].
  destruct (accepts_keys _ _ _ _ _ _ _ _ Hrun Et) as [Hk|(input & n & x & Hin & Hx & Hk)]; [done|].
  destruct (Hl input n x Hin Hx) as [Hn Hne]. apply Hne, eq_sym. by eapply (split_at_nul _ _ _ _ Hp Hn).
Qed.

(** C18: A context that an initiator starts with a ticket of the service, within the
    ticket's time and the clock skew, is accepted by an acceptor that has taken any tokens
    before, valid or not, of this client and of others, but none with this authenticator:
    both sides hold the same key and know the initiator's sequence number; and if mutual
    authentication was asked for, the answer authenticates the acceptor and gives the
    initiator its sequence number. *)
Theorem handshake m l i0 c i r' cf3 :
  sole_key -> start - 300 <= at_time m <= end_ + 300 -> Z.abs (time - at_time m) <= 300 ->
  Z.of_nat (length token) < 2 ^ 32 -> random_seq m = Ok r' -> random_confounder m = Ok cf3 -> is_block cf3 ->
  accepts keytab l (MkReplayCache ∅) i0 c i -> other_logins l ->
  exists acc c', accept_at keytab token m c = (Ok acc, c') /\
    context_key acc = ini_key ini /\ initiator_seq acc = ini_seq ini /\ expires acc = end_ /\ accepted_flags acc = flags /\
    match output_token acc with
    | None => has_bits flags GSS_C_MUTUAL_FLAG = false /\ acceptor_seq acc = ini_seq ini
    | Some out => has_bits flags GSS_C_MUTUAL_FLAG = true /\ (Z.of_nat (length out) < 2 ^ 32 ->
        exists ini', Initiator_finish ini out = Ok (acceptor_seq acc, ini') /\ ini_key ini' = context_key acc)
    end.
Proof.
  intros Hsole Hnow Hskew Hlen Hr' Hcf3 Hblock Hrun Hother.
  destruct started_token as (req & Htok & Htk & Hd & Hct & Hse & Hsk & Ha & Hl & Hn).
  rewrite Htok in Hlen |- *.
  assert (Hread : read_token keytab (token_build TOK_ID_AP_REQ (put_ap_req req)) (at_time m) =
    Ok (req, ticket_part, (sess, put_authenticator sent_authenticator, sent_authenticator, flags))).
  { unfold read_token. rewrite short_token by done. cbn [result_bind]. rewrite bool_decide_true by done. cbn [check result_bind].
    rewrite ap_req_ok. cbn [der result_bind]. rewrite Htk, ticket_opens by done. cbn [result_bind].
    by rewrite authenticator_opens. }
  unfold accept_at. rewrite Hread, key_chosen by done.
  destruct (check_and_insert _ _ _) as [new c'] eqn:Ec.
  assert (new = true) as ->.
  { unfold check_and_insert in Ec. destruct (prune _ _ !! _) as [t|] eqn:Et; [|by simplify_eq].
    assert (Hs : seen c !! replay_key ticket_part (put_authenticator sent_authenticator) = Some t).
    { unfold prune in Et. destruct (1024 <? _); [by apply map_lookup_filter_Some in Et as [? _]|done]. }
    by rewrite (other_logins_new _ _ _ _ Hrun Hother) in Hs. }
  cbn [negb result_bind sent_authenticator auth_seq_number default from_option]. unfold answer_ap_req.
  destruct (has_bits flags GSS_C_MUTUAL_FLAG) eqn:Em.
  - rewrite Hr', Hcf3. cbn [result_bind ticket_part session_key key_value].
    set (part := put_rep_part _). destruct (encrypts sess sk KU_AP_REP_ENCPART part cf3 sk_length Hblock) as (cr & Ecr & _ & Hdr).
    unfold encrypt. cbn [result_bind]. rewrite Ecr. cbn [result_bind]. eexists _, _. split; [done|].
    cbn [context_key initiator_seq expires accepted_flags output_token acceptor_seq fst snd]. split_and!; try done.
    intros Hout. eexists. split; [|reflexivity]. unfold Initiator_finish. rewrite short_token by done. cbn [result_bind].
    rewrite bool_decide_true by done. cbn [check result_bind]. rewrite ap_rep_ok. cbn [der result_bind rep_enc_part cipher].
    rewrite Hse, Hsk, Hdr. cbn [result_bind]. unfold part. rewrite rep_part_ok. cbn [der result_bind rep_ctime rep_subkey].
    rewrite Hct, Z.eqb_refl. cbn [check result_bind rep_seq_number default from_option]. rewrite <- Hse, <- Hsk, <- Hct. by destruct ini.
  - eexists _, _. split; [done|]. by cbn.
Qed.
End Ticket.
End Handshake.
