(* ===== verification/KrbDemo.v ===== *)
(** * A Kerberos context, from ticket to answer

    Toy encoders of the Kerberos messages, a service with a keytab and a client with a
    ticket, on which the theorems about contexts run. *)

From S2P Require Import Prelude Xdr Attrs KrbCrypto KrbCryptoSpec KrbToken KrbKeytab KrbAcceptor KrbHandshake.
From stdpp Require Import base numbers list gmap countable strings.
From Stdlib Require Import Strings.Byte ZArith Lia.
#[local] Open Scope Z_scope.

(** ** A wire format without limits

    A string goes out with a mark before each byte and another one at its end. *)
Class Wire (A : Type) : Type := {
  put_value : A -> list byte;
  get_prefix : list byte -> option (A * list byte);
  get_put a rest : get_prefix (put_value a ++ rest) = Some (a, rest)
}.

Fixpoint put_marked (l : list byte) : list byte :=
  match l with [] => [x00] | b :: l => x01 :: b :: put_marked l end.

Fixpoint get_marked (l : list byte) : option (list byte * list byte) :=
  match l with
  | x00 :: l => Some ([], l)
  | x01 :: b :: l => '(s, rest) ← get_marked l; Some (b :: s, rest)
  | _ => None
  end.

Lemma get_put_marked l rest : get_marked (put_marked l ++ rest) = Some (l, rest).
Proof. induction l as [|b l IH]; [done|]. cbn [put_marked app get_marked]. by rewrite IH. Qed.

#[export] Instance wire_bytes : Wire (list byte) :=
  {| put_value := put_marked; get_prefix := get_marked; get_put := get_put_marked |}.

#[export] Program Instance wire_prod {A B} `{Wire A, Wire B} : Wire (A * B) := {|
  put_value ab := put_value ab.1 ++ put_value ab.2;
  get_prefix l := '(a, l) ← get_prefix l; '(b, l) ← get_prefix l; Some ((a, b), l)
|}.
Next Obligation. intros A B ? ? [a b] rest. cbn. by rewrite <- (assoc_L (++)), get_put; cbn; rewrite get_put. Qed.

Definition wire_map {A B} (f : A -> B) (g : B -> A) (Hgf : forall b, f (g b) = b) `{Wire A} : Wire B.
Proof.
  refine {| put_value b := put_value (g b); get_prefix l := '(a, l) ← get_prefix l; Some (f a, l) |}.
  intros b rest. rewrite get_put. cbn. by rewrite Hgf.
Defined.

(** An integer as its sign and its bytes. *)
Definition Z_bytes (z : Z) : list byte :=
  (if z <? 0 then xff else x00) :: be_bytes (Z.to_nat (Z.log2 (Z.abs z) / 8 + 1)) (Z.abs z).
Definition bytes_Z (l : list byte) : Z :=
  match l with b :: l => if byte_eq_dec b xff then - be_val l else be_val l | [] => 0 end.

Lemma bytes_Z_bytes z : bytes_Z (Z_bytes z) = z.
Proof.
  unfold bytes_Z, Z_bytes. set (w := Z.abs z). assert (E : be_val (be_bytes (Z.to_nat (Z.log2 w / 8 + 1)) w) = w).
  { pose proof (Z.log2_nonneg w). pose proof (Z.div_mod (Z.log2 w) 8 ltac:(lia)). pose proof (Z.mod_pos_bound (Z.log2 w) 8 ltac:(lia)).
    assert (0 <= Z.log2 w / 8) by (apply Z.div_pos; lia). apply be_val_be_bytes_small. split; [lia|].
    destruct (Z.eq_dec w 0) as [->|]; [done|]. apply Z.log2_lt_pow2; lia. }
  rewrite E. destruct (Z.ltb_spec z 0); [destruct (byte_eq_dec xff xff)|destruct (byte_eq_dec x00 xff)]; try done; unfold w; lia.
Qed.

#[export] Instance wire_Z : Wire Z := wire_map bytes_Z Z_bytes bytes_Z_bytes.

Definition get_option {A} `{Wire A} (l : list byte) : option (option A * list byte) :=
  match l with
  | x00 :: l => Some (None, l)
  | x01 :: l => '(a, l) ← get_prefix l; Some (Some a, l)
  | _ => None
  end.

#[export] Instance wire_option {A} `{Wire A} : Wire (option A).
Proof.
  refine {| put_value o := match o with Some a => x01 :: put_value a | None => [x00] end; get_prefix := get_option |}.
  intros [a|] rest; cbn; [by rewrite get_put|done].
Defined.

(** A list of strings as the string of their encodings. *)
Fixpoint get_many (fuel : nat) (l : list byte) : list (list byte) :=
  match fuel with
  | O => []
  | S fuel => match get_marked l with Some (s, rest) => s :: get_many fuel rest | None => [] end
  end.

Lemma get_many_put l fuel : (length l <= fuel)%nat -> get_many fuel (concat (put_marked <$> l)) = l.
Proof.
  revert fuel. induction l as [|s l IH]; intros [|fuel]; cbn -[get_marked]; try done; [lia|]. intros H.
  by rewrite get_put_marked, IH by lia.
Qed.

Lemma get_strings_put (l : list (list byte)) :
  get_many (length (concat (put_marked <$> l))) (concat (put_marked <$> l)) = l.
Proof.
  apply get_many_put. induction l as [|s l IH]; [done|]. cbn -[put_marked]. rewrite length_app.
  destruct s; cbn; lia.
Qed.

#[export] Instance wire_strings : Wire (list (list byte)) :=
  wire_map (fun b => get_many (length b) b) (fun l => concat (put_marked <$> l)) get_strings_put.

#[export] Instance wire_data : Wire EncryptedData.
Proof. refine (wire_map (fun '(a, b, c) => MkEncryptedData a b c) (fun x => (etype x, data_kvno x, cipher x)) _). by intros []. Defined.
#[export] Instance wire_key : Wire EncryptionKey.
Proof. refine (wire_map (fun '(a, b) => MkEncryptionKey a b) (fun x => (key_type x, key_value x)) _). by intros []. Defined.
#[export] Instance wire_name : Wire PrincipalName.
Proof. refine (wire_map (fun '(a, b) => MkPrincipalName a b) (fun x => (name_kind x, name_string x)) _). by intros []. Defined.
#[export] Instance wire_ticket : Wire Ticket.
Proof. refine (wire_map (fun '(a, b, c) => MkTicket a b c) (fun x => (ticket_realm x, sname x, ticket_enc_part x)) _). by intros []. Defined.
#[export] Instance wire_req : Wire ApReq.
Proof.
  refine (wire_map (fun '(a, b, c) => MkApReq (negb (a =? 0)) b c)
    (fun x => (Z.b2z (mutual_required x), ticket x, authenticator x)) _). by intros [[] ? ?].
Defined.
#[export] Instance wire_ticket_part : Wire EncTicketPart.
Proof.
  refine (wire_map (fun '(a, b, c, d, e, f) => MkEncTicketPart a b c d e f)
    (fun x => (session_key x, crealm x, cname x, auth_time x, start_time x, end_time x)) _). by intros [].
Defined.
#[export] Instance wire_checksum : Wire Checksum.
Proof. refine (wire_map (fun '(a, b) => MkChecksum a b) (fun x => (checksum_type x, checksum_bytes x)) _). by intros []. Defined.
#[export] Instance wire_authenticator : Wire Authenticator.
Proof.
  refine (wire_map (fun '(a, b, c, d, e, f, g) => MkAuthenticator a b c d e f g)
    (fun x => (auth_crealm x, auth_cname x, auth_cksum x, ctime x, cusec x, auth_subkey x, auth_seq_number x)) _). by intros [].
Defined.
#[export] Instance wire_rep_part : Wire EncApRepPart.
Proof.
  refine (wire_map (fun '(a, b, c, d) => MkEncApRepPart a b c d)
    (fun x => (rep_ctime x, rep_cusec x, rep_subkey x, rep_seq_number x)) _). by intros [].
Defined.
#[export] Instance wire_rep : Wire ApRep.
Proof. refine (wire_map MkApRep rep_enc_part _). by intros []. Defined.

Definition get_value {A} `{Wire A} (l : list byte) : result A string :=
  match get_prefix l with Some (a, []) => Ok a | _ => Err "not a value"%string end.

Lemma get_put_value {A} `{Wire A} (a : A) : get_value (put_value a) = Ok a.
Proof. unfold get_value. rewrite <- (app_nil_r (put_value a)), get_put. done. Qed.

#[export] Instance toy_der : Der := {|
  put_ap_req := put_value; get_ap_req := get_value;
  put_ticket_part := put_value; get_ticket_part := get_value;
  put_authenticator := put_value; get_authenticator := get_value;
  put_rep_part := put_value; get_rep_part := get_value;
  put_ap_rep := put_value; get_ap_rep := get_value
|}.

#[export] Instance toy_der_ok : DerOk toy_der.
Proof. split; intros; apply get_put_value. Qed.

(** ** A service and a client *)

Definition service_entry : KeytabEntry :=
  MkKeytabEntry "EXAMPLE.LO" ["nfs"; "server"]%string 3 0 2 17 toy_key.
Definition service_keytab : Keytab := MkKeytab [service_entry].

Definition alice_key : list byte := be_bytes 32 0x1234.
Definition alice_subkey : list byte := be_bytes 16 0x5678.

Definition alice_issue : result Credential Error :=
  issue_ticket service_entry "alice" Aes256CtsHmacSha1_96 1000 5000 (Ok alice_key) (Ok (be_bytes 16 1)).

Definition alice_cred : Credential :=
  match alice_issue with
  | Ok c => c
  | Err _ => MkCredential "" "" (MkTicket [] (MkPrincipalName 0 []) (MkEncryptedData 0 None [])) Aes256CtsHmacSha1_96 []
  end.

Definition alice_start : result (Initiator_ * list byte) Error :=
  Initiator_start alice_cred GSS_C_MUTUAL_FLAG (Some Aes128CtsHmacSha256_128) 2000 (Ok alice_subkey)
    (Ok (be_bytes 4 99)) (Ok (be_bytes 16 2)).

Definition alice : Initiator_ * list byte :=
  match alice_start with Ok x => x | Err _ => (MkInitiator toy_context 0 0 Aes256CtsHmacSha1_96 [], []) end.

Definition at_server (time instant : Z) : Moment := MkMoment time instant (Ok (be_bytes 4 7)) (Ok (be_bytes 16 3)).

Lemma alice_issued : alice_issue = Ok alice_cred.
Proof. vm_compute. reflexivity. Qed.

Lemma alice_started : alice_start = Ok (alice.1, alice.2).
Proof. vm_compute. reflexivity. Qed.

(** An earlier login of alice, five seconds before, and bytes that are no token. *)
Definition alice_early : list byte :=
  match Initiator_start alice_cred GSS_C_MUTUAL_FLAG None 1995 (Ok alice_subkey) (Ok (be_bytes 4 98)) (Ok (be_bytes 16 4)) with
  | Ok (_, token) => token
  | Err _ => []
  end.
Definition taken : ReplayCache :=
  (accept_at service_keytab [x01] (at_server 2009 9) (accept_at service_keytab alice_early (at_server 2000 0) (MkReplayCache ∅)).2).2.

Lemma taken_run : accepts service_keytab [[x01]; alice_early] (MkReplayCache ∅) 0 taken 9.
Proof.
  apply (accepts_more service_keytab [alice_early] _ _ _ 0 [x01] (at_server 2009 9)); [|cbn; lia].
  apply (accepts_more service_keytab [] _ _ _ 0 alice_early (at_server 2000 0)); [apply accepts_none|cbn; lia].
Qed.

(** What the service reads of the earlier login. *)
Definition early_read : result (ApReq * EncTicketPart * (Enctype * list byte * Authenticator * Z)) Error :=
  read_token service_keytab alice_early 2000.

Lemma handshake_witness :
  is_ok (accept_at service_keytab alice_early (at_server 2000 0) (MkReplayCache ∅)).1 = true /\
  exists acc c', accept_at service_keytab alice.2 (at_server 2010 10) taken = (Ok acc, c') /\
    context_key acc = ini_key alice.1 /\ expires acc = 5000.
Proof.
  split; [vm_compute; reflexivity|].
  destruct (handshake service_keytab service_entry Aes128CtsHmacSha1_96 Aes256CtsHmacSha1_96 "alice" 1000 5000
    alice_key (be_bytes 16 1) alice_cred) with (flags := GSS_C_MUTUAL_FLAG) (time := 2000)
    (sub := Some Aes128CtsHmacSha256_128) (subkey := alice_subkey) (r := be_bytes 4 99) (cf2 := be_bytes 16 2)
    (ini := alice.1) (token := alice.2) (m := at_server 2010 10) (l := [[x01]; alice_early]) (i0 := 0) (c := taken) (i := 9)
    (r' := be_bytes 4 7) (cf3 := be_bytes 16 3) as (acc & c' & E & Ek & _ & Ee & _).
  - left.
  - split; reflexivity.
  - split; [reflexivity|]. repeat constructor.
  - reflexivity.
  - reflexivity.
  - exact alice_issued.
  - intros e' [= <-]. reflexivity.
  - reflexivity.
  - unfold in_width. vm_compute. split; [discriminate|reflexivity].
  - exact alice_started.
  - intros k q Hk _ _. apply list_elem_of_singleton in Hk as ->. reflexivity.
  - cbn. lia.
  - cbn. lia.
  - vm_compute. reflexivity.
  - reflexivity.
  - reflexivity.
  - reflexivity.
  - exact taken_run.
  - split; [apply (bool_decide_unpack _); vm_compute; exact I|]. intros input n x [->|Hin]%elem_of_cons Hx.
    { exfalso. vm_compute in Hx. discriminate Hx. }
    apply list_elem_of_singleton in Hin as ->.
    destruct early_read as [y|err] eqn:Ey; [|exfalso; vm_compute in Ey; discriminate Ey].
    assert (Hd : match early_read with
      | Ok y => bool_decide (x00 ∉ principal_bytes y.1.2 /\ y.2.1.1.2 <> put_authenticator
          (sent_authenticator service_entry "alice" GSS_C_MUTUAL_FLAG 2000 (Some Aes128CtsHmacSha256_128) alice.1))
      | Err _ => false end = true) by (vm_compute; reflexivity).
    rewrite Ey in Hd. unfold early_read in Ey.
    destruct (read_token_time service_keytab alice_early n 2000 x y Hx Ey) as [-> _]. exact (bool_decide_eq_true_1 _ Hd).
  - exists acc, c'. split; [exact E|]. split; [exact Ek|exact Ee].
Defined.

(** The boundary: an authenticator five minutes ahead is accepted a second time when the
    clock and the time of day are exactly ten minutes on. *)
Definition ahead : result (Initiator_ * list byte) Error :=
  Initiator_start alice_cred GSS_C_MUTUAL_FLAG (Some Aes128CtsHmacSha256_128) 2300 (Ok alice_subkey)
    (Ok (be_bytes 4 99)) (Ok (be_bytes 16 2)).
Definition ahead_token : list byte := match ahead with Ok (_, token) => token | Err _ => [] end.

Example accepted_at_the_boundary :
  let '(first, c1) := accept_at service_keytab ahead_token (at_server 2000 0) (MkReplayCache ∅) in
  is_ok first && is_ok (accept_at service_keytab ahead_token (at_server 2600 replay_ttl) c1).1 = true.
Proof. vm_compute. reflexivity. Qed.

(** A second later the token is still refused; at the boundary it is what the theorem says. *)
Lemma accepted_once_witness :
  let '(first, c1) := accept_at service_keytab ahead_token (at_server 2000 0) (MkReplayCache ∅) in
  is_ok first = true /\ is_ok (accept_at service_keytab ahead_token (at_server 2001 1000000000) c1).1 = false /\
  is_ok (accept_at service_keytab ahead_token (at_server 2600 replay_ttl) c1).1 = true /\
  (replay_ttl <= replay_ttl - 0 /\ 2600 - 2000 <= 2 * CLOCK_SKEW_SECS).
Proof.
  pose proof accepted_at_the_boundary as Hb. revert Hb.
  destruct (accept_at service_keytab ahead_token (at_server 2000 0) (MkReplayCache ∅)) as [first c1] eqn:E1.
  intros [Ho H2]%andb_true_iff. split; [exact Ho|]. destruct first as [acc|]; [|discriminate Ho]. split.
  { destruct (accept_at service_keytab ahead_token (at_server 2001 1000000000) c1) as [[acc2|] c3] eqn:E2; [exfalso|reflexivity].
    destruct (accepted_once service_keytab ahead_token (at_server 2000 0) (MkReplayCache ∅) acc c1 [] c1 0
      (at_server 2001 1000000000) acc2 c3) as [Hl _]; [exact E1|apply accepts_none|cbn; lia|exact E2|].
    cbn in Hl. unfold replay_ttl, CLOCK_SKEW_SECS in Hl. lia. }
  split; [exact H2|].
  destruct (accept_at service_keytab ahead_token (at_server 2600 replay_ttl) c1) as [[acc2|] c3] eqn:E2; [|discriminate H2].
  apply (accepted_once service_keytab ahead_token (at_server 2000 0) (MkReplayCache ∅) acc c1 [] c1 0
    (at_server 2600 replay_ttl) acc2 c3); [exact E1|apply accepts_none|cbn; unfold replay_ttl, CLOCK_SKEW_SECS; lia|exact E2].
Defined.
