(* ===== verification/Gss.v ===== *)
(** * The RPCSEC_GSS server ([nfs/src/server/gss.rs])

    Contexts are shared: the table holds a reference, and so does the reply of every call
    in progress, which outlives the removal of its context. They live in an arena, by
    index; the table maps handles to indices. A method takes its locks one at a time and
    between them only reads what does not change, so it is one step here. *)

From S2P Require Import Prelude NfsTypes Xdr Rpc Export KrbCrypto KrbToken KrbKeytab KrbAcceptor.
From stdpp Require Import base numbers list gmap strings.
From Stdlib Require Import Strings.Byte ZArith Lia.
#[local] Open Scope Z_scope.

Definition SEQ_WINDOW : Z := 128.
Definition MAXSEQ : Z := 0x80000000.
Definition MAX_CONTEXTS : nat := Z.to_nat 16384.

Definition GSS_S_DEFECTIVE_TOKEN : Z := Z.shiftl 9 16.
Definition GSS_S_DEFECTIVE_CREDENTIAL : Z := Z.shiftl 10 16.
Definition GSS_S_CREDENTIALS_EXPIRED : Z := Z.shiftl 11 16.
Definition GSS_S_NO_CONTEXT : Z := Z.shiftl 8 16.
Definition GSS_S_FAILURE : Z := Z.shiftl 13 16.

(** [None]: the export's anonymous user. *)
Definition Identity : Type := option (Z * Z * list Z).

(** ** Principals *)

Record PrincipalMapping : Type := MkPrincipalMapping { map_principal : string; map_uid : Z; map_gid : Z; map_gids : list Z }.

Record IdMap : Type := MkIdMap { explicit : gmap string (Z * Z * list Z); local_realms : gset string; etc : string }.

Definition IdMap_new (mappings : list PrincipalMapping) (realms : list string) (etc : string) : IdMap :=
  MkIdMap (foldl (fun m p => <[map_principal p := (map_uid p, map_gid p, map_gids p)]> m) ∅ mappings)
    (list_to_set realms) etc.

(** [str::split] at a character, [rsplit_once] and [lines]. *)
Fixpoint split_at (c : Ascii.ascii) (s : string) : list string :=
  match s with
  | String.EmptyString => [""%string]
  | String.String a s =>
    if Ascii.eqb a c then ""%string :: split_at c s
    else match split_at c s with w :: ws => String.String a w :: ws | [] => [] end
  end.

Fixpoint rsplit_once (c : Ascii.ascii) (s : string) : option (string * string) :=
  match s with
  | String.EmptyString => None
  | String.String a s' =>
    match rsplit_once c s' with
    | Some (l, r) => Some (String.String a l, r)
    | None => if Ascii.eqb a c then Some (""%string, s') else None
    end
  end.

Definition newline : Ascii.ascii := Ascii.ascii_of_nat 10.
Definition return_char : Ascii.ascii := Ascii.ascii_of_nat 13.
Definition colon : Ascii.ascii := Ascii.ascii_of_nat 58.
Definition comma : Ascii.ascii := Ascii.ascii_of_nat 44.
Definition slash : Ascii.ascii := Ascii.ascii_of_nat 47.
Definition at_sign : Ascii.ascii := Ascii.ascii_of_nat 64.

(** A carriage return before the end of a line goes with it. *)
Fixpoint strip_return (s : string) : string :=
  match s with
  | String.EmptyString => ""%string
  | String.String a String.EmptyString => if Ascii.eqb a return_char then ""%string else s
  | String.String a s => String.String a (strip_return s)
  end.

(** The part after the last line end is a line, unless it is empty, and keeps its return. *)
Fixpoint lines_of (parts : list string) : list string :=
  match parts with
  | [] => []
  | [last] => if bool_decide (last = ""%string) then [] else [last]
  | p :: ps => strip_return p :: lines_of ps
  end.

Definition lines (s : string) : list string := lines_of (split_at newline s).

Section IdMap.
(** [std::fs::read_to_string] of a path. *)
Variable read_to_string : string -> option string.

Definition passwd_line (user line : string) : option (Z * Z) :=
  match split_at colon line with
  | name :: _ :: uid :: gid :: _ =>
    if bool_decide (name = user) then
      uid ← parse_uint (umax 32) uid; gid ← parse_uint (umax 32) gid; Some (uid, gid)
    else None
  | _ => None
  end.

Definition group_line (user : string) (gid : Z) (gids : list Z) (line : string) : list Z :=
  match split_at colon line with
  | _ :: _ :: g :: members :: _ =>
    if bool_decide (user ∈ split_at comma members) then
      match parse_uint (umax 32) g with
      | Some g => if (g =? gid) || bool_decide (g ∈ gids) then gids else gids ++ [g]
      | None => gids
      end
    else gids
  | _ => gids
  end.

Definition passwd (m : IdMap) (user : string) : Identity :=
  file ← read_to_string (etc m +:+ "/passwd");
  '(uid, gid) ← head (omap (passwd_line user) (lines file));
  let gids :=
    match read_to_string (etc m +:+ "/group") with
    | Some group => foldl (group_line user gid) [] (lines group)
    | None => []
    end in
  Some (uid, gid, gids).

Definition identity (m : IdMap) (principal : string) : Identity :=
  match explicit m !! principal with
  | Some i => Some i
  | None =>
    '(name, realm) ← rsplit_once at_sign principal;
    if bool_decide (realm ∉ local_realms m) then None else
    match split_at slash name with
    | [user] => passwd m user
    | [service; _] => if bool_decide (service ∈ ["nfs"; "host"; "root"]%string) then Some (0, 0, []) else None
    | _ => None
    end
  end.
End IdMap.

(** ** Sequence numbers *)

Record SeqWindow : Type := MkSeqWindow { started : bool; highest : Z; window_seen : Z }.

Definition SeqWindow_default : SeqWindow := MkSeqWindow false 0 0.

Definition window_accept (seq : Z) (w : SeqWindow) : bool * SeqWindow :=
  if negb (started w) then (true, MkSeqWindow true seq 1) else
  if highest w <? seq then
    let shift := seq - highest w in
    let moved := if 128 <=? shift then 0 else wrap 128 (Z.shiftl (window_seen w) shift) in
    (true, MkSeqWindow true seq (Z.lor moved 1))
  else
    let d := highest w - seq in
    if (SEQ_WINDOW <=? d) || negb (Z.land (window_seen w) (Z.shiftl 1 d) =? 0) then (false, w)
    else (true, MkSeqWindow true (highest w) (Z.lor (window_seen w) (Z.shiftl 1 d))).

(** ** Contexts *)

Record GssContext : Type := MkGssContext {
  ctx_key : ContextKey; ctx_principal : string; ctx_identity : Identity; ctx_expires : Z;
  created : Z; window : SeqWindow; send_seq : Z
}.

Definition set_window (c : GssContext) (w : SeqWindow) : GssContext :=
  MkGssContext (ctx_key c) (ctx_principal c) (ctx_identity c) (ctx_expires c) (created c) w (send_seq c).
Definition set_send_seq (c : GssContext) (n : Z) : GssContext :=
  MkGssContext (ctx_key c) (ctx_principal c) (ctx_identity c) (ctx_expires c) (created c) (window c) n.

(** How to protect the reply of a DATA call; its context by index. *)
Record GssReply : Type := MkGssReply {
  reply_ctx : nat; reply_seq : Z; reply_service : Z; reply_proc : Z; reply_flavor : SecFlavor
}.

Inductive GssCall : Type :=
| Reply (r : RpcReplyMsg)
| Drop
| Proceed (msg : RpcCallMsg) (info : GssReply).

Record GssServer : Type := MkGssServer {
  keytab : Keytab; idmap : IdMap; replay : ReplayCache;
  arena : list GssContext; contexts : gmap (list byte) nat
}.

Definition set_arena (g : GssServer) (l : list GssContext) : GssServer :=
  MkGssServer (keytab g) (idmap g) (replay g) l (contexts g).
Definition set_contexts (g : GssServer) (m : gmap (list byte) nat) : GssServer :=
  MkGssServer (keytab g) (idmap g) (replay g) (arena g) m.
Definition set_replay (g : GssServer) (c : ReplayCache) : GssServer :=
  MkGssServer (keytab g) (idmap g) c (arena g) (contexts g).

Definition with_etc (k : Keytab) (mappings : list PrincipalMapping) (etc : string) : GssServer :=
  MkGssServer k (IdMap_new mappings (realm <$> entries k) etc) (MkReplayCache ∅) [] ∅.

Definition GssServer_new (k : Keytab) (mappings : list PrincipalMapping) : GssServer := with_etc k mappings "/etc".

Definition context_count (g : GssServer) : nat := size (contexts g).

(** Padded to four bytes, the length as it is. *)
Definition gss_put_opaque (data : list byte) : list byte :=
  be_bytes 4 (wrap 32 (Z.of_nat (length data))) ++ data ++ replicate ((4 - length data mod 4) mod 4) x00.

(** The data and what is behind its padding; a cut padding is allowed. *)
Definition gss_take_opaque (buf : list byte) : option (list byte * list byte) :=
  len ← word buf 0;
  data ← slice 4 (Z.to_nat len) buf;
  Some (data, drop (4 + Z.to_nat len + (4 - Z.to_nat len mod 4) mod 4) buf).

Definition denied (xid : Z) (stat : AuthStat) : RpcReplyMsg := MkRpcReplyMsg xid (MsgDenied (AuthError stat)).
Definition accepted (xid : Z) (verf : OpaqueAuth) (data : AcceptBody) : RpcReplyMsg :=
  MkRpcReplyMsg xid (MsgAccepted (MkAcceptedReply verf data)).

(** What a call takes from outside: the acceptor's moment and 16 random bytes. *)
Record GssMoment : Type := MkGssMoment { moment : Moment; random_handle : result (list byte) Error }.

Section GssServer.
Context `{P : Primitives} `{D : Der}.
Variable read_to_string : string -> option string.
(** The derived reader and writer of COMPOUND. *)
Variable compound_args : reader Compound4args.
Variable compound_res : Compound4res -> result (list byte) XdrError.

Definition decode_compound_args (bytes : list byte) : result Compound4args XdrError :=
  try ab := compound_args bytes in Ok ab.1.

(** [GssContext::mic]: the next MIC of the acceptor's side, empty if there is none. *)
Definition ctx_mic (c : GssContext) (data : list byte) : list byte * GssContext :=
  (match get_mic (ctx_key c) Acceptor (send_seq c) data with Ok t => t | Err _ => [] end,
   set_send_seq c (wrap 64 (send_seq c + 1))).

(** The same through the reference. *)
Definition arena_mic (i : nat) (data : list byte) (g : GssServer) : list byte * GssServer :=
  match arena g !! i with
  | Some c => let '(t, c) := ctx_mic c data in (t, set_arena g (<[i := c]> (arena g)))
  | None => ([], g)
  end.

(** ** INIT *)

(** [min_by_key(created)] over the table: the first of the least. *)
Definition oldest (g : GssServer) : option (list byte) :=
  fst <$> foldl (fun best ki =>
    match arena g !! (ki.2 : nat), best with
    | Some c, Some (_, t) => if created c <? t then Some (ki.1, created c) else best
    | Some c, None => Some (ki.1, created c)
    | None, _ => best
    end) None (map_to_list (contexts g)).

Fixpoint drop_oldest (fuel : nat) (g : GssServer) : GssServer :=
  match fuel with
  | O => g
  | S fuel =>
    if (MAX_CONTEXTS <=? size (contexts g))%nat then
      match oldest g with
      | Some k => drop_oldest fuel (set_contexts g (delete k (contexts g)))
      | None => g
      end
    else g
  end.

Definition live (now : Z) (g : GssServer) (i : nat) : bool :=
  match arena g !! i with Some c => now <? ctx_expires c | None => false end.

(** A full table drops what has expired, and then the oldest until there is room; every
    round removes one. *)
Definition make_room (now : Z) (g : GssServer) : GssServer :=
  if (MAX_CONTEXTS <=? size (contexts g))%nat then
    let g := set_contexts g (filter (fun ki => live now g ki.2 = true) (contexts g)) in
    drop_oldest (size (contexts g)) g
  else g.

Definition init_res (handle : list byte) (major window : Z) (token : list byte) : list byte :=
  gss_put_opaque handle ++ be_bytes 4 major ++ be_bytes 4 0 ++ be_bytes 4 window ++ gss_put_opaque token.

Definition init_fail (xid major : Z) : RpcReplyMsg :=
  accepted xid (AuthNull []) (SuccessRaw (init_res [] major 0 [])).

Definition error_major (e : Error) : Z :=
  match e with
  | Token _ | Asn1 _ => GSS_S_DEFECTIVE_TOKEN
  | Rejected m => if bool_decide (m = "ticket expired"%string) then GSS_S_CREDENTIALS_EXPIRED else GSS_S_FAILURE
  | Integrity | NoKey _ => GSS_S_DEFECTIVE_CREDENTIAL
  | _ => GSS_S_FAILURE
  end.

Definition init (xid : Z) (call : CallBody) (cred : RpcSecGssCred) (args : list byte) (m : GssMoment) (g : GssServer)
    : RpcReplyMsg * GssServer :=
  if negb (proc call =? 0) then (denied xid AuthBadCred, g) else
  if gss_proc cred =? RPCSEC_GSS_CONTINUE_INIT then (init_fail xid GSS_S_NO_CONTEXT, g) else
  match gss_take_opaque args with
  | None => (accepted xid (AuthNull []) GarbageArgs, g)
  | Some (token, _) =>
    let '(r, cache) := accept_at (keytab g) token (moment m) (replay g) in
    let g := set_replay g cache in
    match r with
    | Err e => (init_fail xid (error_major e), g)
    | Ok acc =>
      match random_handle m with
      | Err _ => (init_fail xid GSS_S_FAILURE, g)
      | Ok handle =>
        let c := MkGssContext (context_key acc) (client acc) (identity read_to_string (idmap g) (client acc))
                   (expires acc) (at_instant (moment m)) SeqWindow_default (acceptor_seq acc) in
        let '(mic, c) := ctx_mic c (be_bytes 4 SEQ_WINDOW) in
        let g := make_room (at_time (moment m)) g in
        let g := set_contexts (set_arena g (arena g ++ [c])) (<[handle := length (arena g)]> (contexts g)) in
        (accepted xid (GssVerf mic) (SuccessRaw (init_res handle 0 SEQ_WINDOW (default [] (output_token acc)))), g)
      end
    end
  end.

(** ** DATA and DESTROY *)

(** The verified and unwrapped arguments, or [None] for garbage: what the services carry is
    the sequence number and the arguments. *)
Definition open_args (k : ContextKey) (cred : RpcSecGssCred) (args : list byte) : option (list byte) :=
  if service cred =? RPC_GSS_SVC_NONE then Some args else
  body ←
    (if service cred =? RPC_GSS_SVC_INTEGRITY then
       '(body, rest) ← gss_take_opaque args;
       '(cksum, _) ← gss_take_opaque rest;
       if is_ok (verify_mic k Initiator body cksum) then Some body else None
     else
       '(tok, _) ← gss_take_opaque args;
       match unwrap_token k Initiator tok with
       | Ok (plain, true, _) => Some plain
       | _ => None
       end);
  seq ← word body 0;
  if seq =? seq_num cred then Some (drop 4 body) else None.

Definition remove_context (h : list byte) (g : GssServer) : GssServer := set_contexts g (delete h (contexts g)).

(** Every exit with a verifier makes the MIC of the sequence number. *)
Definition answer_mic (xid : Z) (i : nat) (seq : Z) (body : AcceptBody) (g : GssServer) : GssCall * GssServer :=
  let '(mic, g) := arena_mic i (be_bytes 4 seq) g in (Reply (accepted xid (GssVerf mic) body), g).

Definition mapped_cred (c : GssContext) : OpaqueAuth :=
  match ctx_identity c with
  | Some (uid, gid, gids) => AuthUnixCred (MkAuthUnix 0 (ctx_principal c) uid gid gids)
  | None => AuthNull []
  end.

Definition proceed (xid : Z) (call : CallBody) (cred : RpcSecGssCred) (i : nat) (c : GssContext) (flavor : SecFlavor)
    (args : option Compound4args) : GssCall :=
  Proceed (MkRpcCallMsg xid (Call (MkCallBody (rpcvers call) (prog call) (vers call) (proc call) (mapped_cred c)
      (verf call) args None)))
    (MkGssReply i (seq_num cred) (service cred) (proc call) flavor).

Definition run_data (xid : Z) (call : CallBody) (cred : RpcSecGssCred) (raw : GssCallData) (i : nat) (c : GssContext)
    (g : GssServer) : GssCall * GssServer :=
  match from_gss_service (service cred) with
  | None => (Reply (denied xid AuthBadCred), g)
  | Some flavor =>
    match open_args (ctx_key c) cred (gss_args raw) with
    | None => answer_mic xid i (seq_num cred) GarbageArgs g
    | Some bytes =>
      if (proc call =? 1) && (prog call =? 100003) then
        match decode_compound_args bytes with
        | Ok a => (proceed xid call cred i c flavor (Some a), g)
        | Err _ => answer_mic xid i (seq_num cred) GarbageArgs g
        end
      else (proceed xid call cred i c flavor (args call), g)
    end
  end.

Definition data (xid : Z) (call : CallBody) (cred : RpcSecGssCred) (raw : GssCallData) (now : Z) (g : GssServer)
    : GssCall * GssServer :=
  match contexts g !! handle cred ≫= fun i => (fun c => (i, c)) <$> arena g !! i with
  | None => (Reply (denied xid RpcsecGssCredProblem), g)
  | Some (i, c) =>
    if ctx_expires c <? now then (Reply (denied xid RpcsecGssCtxProblem), remove_context (handle cred) g) else
    let verified := match verf call with
                    | GssVerf tok => is_ok (verify_mic (ctx_key c) Initiator (header raw) tok)
                    | _ => false
                    end in
    if negb verified then (Reply (denied xid RpcsecGssCredProblem), g) else
    if MAXSEQ <=? seq_num cred then (Reply (denied xid RpcsecGssCtxProblem), remove_context (handle cred) g) else
    let '(fresh, w) := window_accept (seq_num cred) (window c) in
    let g := set_arena g (<[i := set_window c w]> (arena g)) in
    if negb fresh then (Drop, g) else
    if gss_proc cred =? RPCSEC_GSS_DESTROY
    then answer_mic xid i (seq_num cred) (SuccessRaw []) (remove_context (handle cred) g)
    else run_data xid call cred raw i c g
  end.

Definition gss_handle (msg : RpcCallMsg) (m : GssMoment) (g : GssServer) : GssCall * GssServer :=
  let xid := call_xid msg in
  match call_body msg with
  | Call call =>
    match cred call with
    | AuthGss c =>
      if negb (version c =? 1) then (Reply (denied xid AuthBadCred), g) else
      let raw := default (MkGssCallData [] []) (gss call) in
      if (gss_proc c =? RPCSEC_GSS_INIT) || (gss_proc c =? RPCSEC_GSS_CONTINUE_INIT) then
        let '(r, g) := init xid call c (gss_args raw) m g in (Reply r, g)
      else if (gss_proc c =? RPCSEC_GSS_DATA) || (gss_proc c =? RPCSEC_GSS_DESTROY) then
        data xid call c raw (at_time (moment m)) g
      else (Reply (denied xid AuthBadCred), g)
    | _ => (Reply (denied xid AuthBadCred), g)
    end
  | ParseError _ => (Drop, g)
  end.

(** ** Replies *)

Definition with_data (reply : RpcReplyMsg) (verf : OpaqueAuth) (data : AcceptBody) : RpcReplyMsg :=
  MkRpcReplyMsg (reply_xid reply) (MsgAccepted (MkAcceptedReply verf data)).

(** The results to protect: [None] when there is nothing to wrap, an error when they do
    not encode. *)
Definition results_of (info : GssReply) (data : AcceptBody) : option (result (list byte) XdrError) :=
  match data with
  | Success res => Some (if reply_proc info =? 0 then Ok [] else compound_res res)
  | SuccessRaw b => Some (Ok b)
  | _ => None
  end.

(** The random bytes are for the confounder of a sealed reply. *)
Definition wrap_reply (reply : RpcReplyMsg) (info : GssReply) (random : result (list byte) Error) (g : GssServer)
    : RpcReplyMsg * GssServer :=
  match reply_body reply with
  | MsgDenied _ => (reply, g)
  | MsgAccepted acc =>
    let '(mic, g) := arena_mic (reply_ctx info) (be_bytes 4 (reply_seq info)) g in
    let verf := GssVerf mic in
    if reply_service info =? RPC_GSS_SVC_NONE then (with_data reply verf (reply_data acc), g) else
    match results_of info (reply_data acc) with
    | None => (with_data reply verf (reply_data acc), g)
    | Some (Err _) => (with_data reply verf GarbageArgs, g)
    | Some (Ok results) =>
      let body := be_bytes 4 (reply_seq info) ++ results in
      if reply_service info =? RPC_GSS_SVC_INTEGRITY then
        let '(mic, g) := arena_mic (reply_ctx info) body g in
        (with_data reply verf (SuccessRaw (gss_put_opaque body ++ gss_put_opaque mic)), g)
      else if reply_service info =? RPC_GSS_SVC_PRIVACY then
        match arena g !! reply_ctx info with
        | None => (with_data reply verf GarbageArgs, g)
        | Some c =>
          let g := set_arena g (<[reply_ctx info := set_send_seq c (wrap 64 (send_seq c + 1))]> (arena g)) in
          match wrap_token (ctx_key c) Acceptor (send_seq c) true body random with
          | Ok tok => (with_data reply verf (SuccessRaw (gss_put_opaque tok)), g)
          | Err _ => (with_data reply verf GarbageArgs, g)
          end
        end
      else (with_data reply verf (SuccessRaw []), g)
    end
  end.
End GssServer.
