(* ===== verification/GssSpec.v ===== *)
(** * RPCSEC_GSS: what the server promises

    No sequence number of a context is taken twice, a call goes on only when its context
    vouches for it, replies open at the client, and the table keeps its bound. *)

From S2P Require Import Prelude NfsTypes Xdr Rpc Export KrbCrypto KrbCryptoSpec KrbToken KrbKeytab KrbAcceptor Gss.
From stdpp Require Import base numbers list gmap strings.
From Stdlib Require Import Strings.Byte ZArith Lia.
#[local] Open Scope Z_scope.

(** ** The sequence window

    Abstractly the set of the numbers taken. The window stands for it when it knows the
    largest and which of the 127 before it are in the set. *)
Definition stands_for (w : SeqWindow) (s : gset Z) : Prop :=
  if started w then
    highest w ∈ s /\ (forall x, x ∈ s -> x <= highest w) /\ in_width 128 (window_seen w) /\
    forall d, 0 <= d < 128 -> Z.testbit (window_seen w) d = bool_decide ((highest w - d) ∈ s)
  else s = ∅.

(** What the server should take: nothing twice, and nothing 128 behind the largest. *)
Definition takes (s : gset Z) (seq : Z) : Prop := (seq ∉ s) /\ (forall x, x ∈ s -> (x - SEQ_WINDOW < seq)%Z).

Lemma shifted_bit v n d :
  0 <= n -> 0 <= d < 128 -> Z.testbit (wrap 128 (Z.shiftl v n)) d = if d <? n then false else Z.testbit v (d - n).
Proof.
  intros Hn Hd. unfold wrap. rewrite Z.mod_pow2_bits_low, Z.shiftl_spec by lia.
  destruct (Z.ltb_spec d n); [by rewrite Z.testbit_neg_r by lia|done].
Qed.

Lemma lor_width w a b : 0 < w -> in_width w a -> in_width w b -> in_width w (Z.lor a b).
Proof.
  unfold in_width. intros Hw Ha Hb. assert (0 <= Z.lor a b) by (apply Z.lor_nonneg; lia). split; [done|].
  destruct (Z.eq_dec (Z.lor a b) 0) as [->|]; [lia|]. apply Z.log2_lt_pow2; [lia|].
  rewrite Z.log2_lor by lia. apply Z.max_lub_lt.
  - destruct (Z.eq_dec a 0) as [->|]; [simpl; lia|apply Z.log2_lt_pow2; lia].
  - destruct (Z.eq_dec b 0) as [->|]; [simpl; lia|apply Z.log2_lt_pow2; lia].
Qed.

Lemma land_bit v d : 0 <= d -> (Z.land v (Z.shiftl 1 d) =? 0) = negb (Z.testbit v d).
Proof.
  intros Hd. rewrite Z.shiftl_1_l. destruct (Z.testbit v d) eqn:E; simpl.
  - apply Z.eqb_neq. intros H. apply (f_equal (fun z => Z.testbit z d)) in H.
    rewrite Z.land_spec, Z.pow2_bits_true, E, Z.bits_0 in H by lia. done.
  - apply Z.eqb_eq, Z.bits_inj'. intros n Hn. rewrite Z.land_spec, Z.pow2_bits_eqb, Z.bits_0 by lia.
    destruct (Z.eqb_spec d n) as [<-|]; [by rewrite E|by rewrite andb_false_r].
Qed.

Lemma bit0 d : 0 <= d -> Z.testbit 1 d = (d =? 0).
Proof. intros Hd. change 1 with (2 ^ 0). rewrite Z.pow2_bits_eqb by lia. by rewrite Z.eqb_sym. Qed.

(** A larger number than any moves the window. *)
Lemma moves_window w s seq :
  started w = true -> stands_for w s -> highest w < seq ->
  stands_for (window_accept seq w).2 ({[seq]} ∪ s) /\ (window_accept seq w).1 = true.
Proof.
  intros Hst Hs Hlt. unfold window_accept. rewrite Hst. cbn [negb]. rewrite (proj2 (Z.ltb_lt _ _)) by done.
  unfold stands_for in *. rewrite Hst in Hs. destruct Hs as (Hmax & Hle & Hw & Hbits). cbn [fst snd started highest window_seen].
  split; [|done]. split; [set_solver|]. split; [|split].
  - intros x [->%elem_of_singleton|Hx]%elem_of_union; [lia|]. specialize (Hle x Hx). lia.
  - apply lor_width; [lia| |unfold in_width; lia]. case_match; [unfold in_width; lia|apply wrap_in_width; lia].
  - intros d Hd. rewrite Z.lor_spec, bit0 by lia. destruct (Z.eqb_spec d 0) as [->|Hd0].
    { rewrite orb_true_r. symmetry. apply bool_decide_true. rewrite Z.sub_0_r. set_solver. }
    rewrite orb_false_r. transitivity (bool_decide ((seq - d) ∈ s)).
    2: { apply bool_decide_ext. split; [set_solver|]. intros [Hx%elem_of_singleton|?]%elem_of_union; [lia|done]. }
    destruct (Z.leb_spec 128 (seq - highest w)).
    { rewrite Z.bits_0. symmetry. apply bool_decide_false. intros Hin. apply Hle in Hin. lia. }
    rewrite shifted_bit by lia. destruct (Z.ltb_spec d (seq - highest w)).
    { symmetry. apply bool_decide_false. intros Hin. apply Hle in Hin. lia. }
    rewrite Hbits by lia. by replace (highest w - (d - (seq - highest w))) with (seq - d) by lia.
Qed.

(** The rest is in it or behind it. *)
Lemma window_exact w s seq :
  stands_for w s ->
  ((window_accept seq w).1 = true <-> takes s seq) /\
  stands_for (window_accept seq w).2 (if (window_accept seq w).1 then {[seq]} ∪ s else s).
Proof.
  intros Hs. destruct (started w) eqn:Hst; cycle 1.
  { unfold window_accept, stands_for in *. rewrite Hst in *. subst s. cbn. split; [split; [intros _; unfold takes; set_solver|done]|].
    split; [set_solver|]. split; [set_solver|]. split; [unfold in_width; lia|]. intros d Hd. rewrite bit0 by lia.
    destruct (Z.eqb_spec d 0) as [->|]; symmetry; [apply bool_decide_true; rewrite Z.sub_0_r; set_solver|].
    apply bool_decide_false. intros [H%elem_of_singleton|H%elem_of_empty]%elem_of_union; [lia|done]. }
  destruct (Z.ltb_spec (highest w) seq) as [Hlt|Hge].
  { destruct (moves_window w s seq Hst Hs Hlt) as [Hm ->]. split; [|done]. split; [intros _|done].
    unfold stands_for in Hs. rewrite Hst in Hs. destruct Hs as (_ & Hle & _). unfold takes, SEQ_WINDOW.
    split; [intros Hin; apply Hle in Hin; lia|]. intros x Hx. apply Hle in Hx. lia. }
  unfold window_accept. rewrite Hst. cbn [negb]. rewrite (proj2 (Z.ltb_ge _ _)) by done.
  pose proof Hs as Hs0. unfold stands_for in Hs. rewrite Hst in Hs. destruct Hs as (Hmax & Hle & Hw & Hbits).
  destruct (Z.leb_spec SEQ_WINDOW (highest w - seq)) as [Hb|Hb].
  { cbn. split; [|done]. split; [done|]. intros [_ Ht]. specialize (Ht _ Hmax). lia. }
  unfold SEQ_WINDOW in Hb. rewrite land_bit, negb_involutive, Hbits by lia. cbn [orb].
  replace (highest w - (highest w - seq)) with seq by lia. destruct (bool_decide_reflect (seq ∈ s)) as [Hin|Hin].
  { cbn. split; [|done]. split; [done|]. by intros [? _]. }
  cbn [fst snd]. split.
  { split; [intros _|done]. split; [done|]. intros x Hx. apply Hle in Hx. unfold SEQ_WINDOW. lia. }
  unfold stands_for. cbn [started highest window_seen]. split; [set_solver|]. split; [set_solver|]. split.
  { apply lor_width; [lia|done|]. rewrite Z.shiftl_1_l. unfold in_width. split; [lia|]. apply Z.pow_lt_mono_r; lia. }
  intros d Hd. rewrite Z.lor_spec, Z.shiftl_1_l, Z.pow2_bits_eqb, Hbits by lia.
  destruct (Z.eqb_spec (highest w - seq) d) as [<-|Hne].
  - rewrite orb_true_r. symmetry. apply bool_decide_true. replace (highest w - (highest w - seq)) with seq by lia. set_solver.
  - rewrite orb_false_r. apply bool_decide_ext. split; [set_solver|]. intros [Hx%elem_of_singleton|?]%elem_of_union; [lia|done].
Qed.

(** ** Runs of the server *)

Section Server.
Context `{HP : PrimitivesOk} `{D : Der}.
Variable read_to_string : string -> option string.
Variable compound_args : reader Compound4args.
Variable compound_res : Compound4res -> result (list byte) XdrError.

(** The context and the sequence number of a call that goes on. *)
Definition passed (call : GssCall) : list (nat * Z) :=
  match call with Proceed _ info => [(reply_ctx info, reply_seq info)] | _ => [] end.

(** Calls of any connections, and replies of calls in progress, in any order; with the
    calls that went on, the last one first. *)
Inductive gss_run (g0 : GssServer) : list (nat * Z) -> GssServer -> Prop :=
| run_start : gss_run g0 [] g0
| run_call t g msg m call g' :
    gss_run g0 t g -> gss_handle read_to_string compound_args msg m g = (call, g') -> gss_run g0 (passed call ++ t) g'
| run_reply t g reply info random r g' :
    gss_run g0 t g -> wrap_reply compound_res reply info random g = (r, g') -> gss_run g0 t g'.

(** A context whose window stands for a set that has every number taken under it. *)
Definition ctx_ok (t : list (nat * Z)) (i : nat) (c : GssContext) : Prop :=
  key_ok (ctx_key c) /\ exists s, stands_for (window c) s /\ forall q, (i, q) ∈ t -> q ∈ s.

Definition ids_ok (g : GssServer) : Prop := forall h i, contexts g !! h = Some i -> (i < length (arena g))%nat.

Definition gss_inv (t : list (nat * Z)) (g : GssServer) : Prop :=
  ids_ok g /\ (size (contexts g) <= MAX_CONTEXTS)%nat /\ (forall i c, arena g !! i = Some c -> ctx_ok t i c) /\
  (forall i q, (i, q) ∈ t -> (i < length (arena g))%nat) /\ NoDup t.

(** Only counters of the arena moved on. *)
Definition counted (g g' : GssServer) : Prop :=
  contexts g' = contexts g /\ length (arena g') = length (arena g) /\
  forall i c', arena g' !! i = Some c' -> exists c n, arena g !! i = Some c /\ c' = set_send_seq c n.

Lemma counted_refl g : counted g g.
Proof. split_and!; [done..|]. intros i c Hc. exists c, (send_seq c). destruct c; auto. Qed.

Lemma counted_inv t g g' : counted g g' -> gss_inv t g -> gss_inv t g'.
Proof.
  intros (Hc & Hl & Ha) (Hi & Hs & Hw & Ht & Hn). unfold gss_inv, ids_ok. rewrite Hc, Hl. split_and!; try done.
  intros i c' H. destruct (Ha i c' H) as (c & n & Hg & ->). by destruct (Hw i c Hg).
Qed.

Lemma counted_insert g i c n :
  arena g !! i = Some c -> counted g (set_arena g (<[i := set_send_seq c n]> (arena g))).
Proof.
  intros Hc. split_and!; [done|apply length_insert|]. cbn [arena set_arena]. intros j c'.
  destruct (decide (i = j)) as [<-|Hne].
  - rewrite list_lookup_insert_eq by (by eapply lookup_lt_Some). intros [= <-]. eauto.
  - rewrite list_lookup_insert_ne by done. intros H. exists c', (send_seq c'). destruct c'; auto.
Qed.

Lemma counted_trans g1 g2 g3 : counted g1 g2 -> counted g2 g3 -> counted g1 g3.
Proof.
  intros (H1 & H2 & H3) (H4 & H5 & H6). split_and!; [congruence..|]. intros i c3 Hc3.
  destruct (H6 i c3 Hc3) as (c2 & n2 & Hc2 & ->). destruct (H3 i c2 Hc2) as (c1 & n1 & Hc1 & ->). by exists c1, n2.
Qed.

Lemma arena_mic_counted i data g : counted g (arena_mic i data g).2.
Proof.
  unfold arena_mic. destruct (arena g !! i) as [c|] eqn:Hc; [|apply counted_refl].
  by apply counted_insert.
Qed.

Lemma wrap_reply_counted reply info random g : counted g (wrap_reply compound_res reply info random g).2.
Proof.
  unfold wrap_reply. destruct (reply_body reply) as [acc|]; [|apply counted_refl].
  pose proof (arena_mic_counted (reply_ctx info) (be_bytes 4 (reply_seq info)) g) as Hfirst.
  destruct (arena_mic _ _ g) as [mic g1]. cbn [snd] in Hfirst.
  destruct (reply_service info =? RPC_GSS_SVC_NONE); [done|]. destruct (results_of _ _ _) as [[results|]|]; [|done..].
  destruct (reply_service info =? RPC_GSS_SVC_INTEGRITY).
  - pose proof (arena_mic_counted (reply_ctx info) (be_bytes 4 (reply_seq info) ++ results) g1) as Hsecond.
    destruct (arena_mic _ _ g1) as [mic2 g2]. eapply counted_trans; [exact Hfirst|exact Hsecond].
  - destruct (reply_service info =? RPC_GSS_SVC_PRIVACY); [|done]. destruct (arena g1 !! reply_ctx info) as [c|] eqn:Hc; [|done].
    assert (Hsecond : counted g1 (set_arena g1 (<[reply_ctx info := set_send_seq c (wrap 64 (send_seq c + 1))]> (arena g1))))
      by by apply counted_insert.
    destruct (wrap_token _ _ _ _ _ _); eapply counted_trans; [exact Hfirst|exact Hsecond|exact Hfirst|exact Hsecond].
Qed.

(** ** The table *)

Lemma inv_contexts t g m :
  gss_inv t g -> (forall h i, m !! h = Some i -> contexts g !! h = Some i) -> gss_inv t (set_contexts g m).
Proof.
  intros (Hi & Hs & Hw & Ht & Hn) Hm. split_and!; try done; cbn [contexts set_contexts].
  - intros h i Hh. by eapply Hi, Hm.
  - etransitivity; [|exact Hs]. apply map_subseteq_size, map_subseteq_spec. exact Hm.
Qed.

Lemma inv_remove t g h : gss_inv t g -> gss_inv t (remove_context h g).
Proof. intros H. apply inv_contexts; [done|]. by intros h' i [_ Hi]%lookup_delete_Some. Qed.

Definition oldest_step (g : GssServer) (best : option (list byte * Z)) (ki : list byte * nat) : option (list byte * Z) :=
  match arena g !! ki.2, best with
  | Some c, Some (_, t) => if created c <? t then Some (ki.1, created c) else best
  | Some c, None => Some (ki.1, created c)
  | None, _ => best
  end.

Lemma oldest_fold g l best :
  Forall (fun ki : list byte * nat => is_Some (arena g !! ki.2)) l ->
  match foldl (oldest_step g) best l with
  | Some kt => (exists t, best = Some (kt.1, t)) \/ kt.1 ∈ l.*1
  | None => best = None /\ l = []
  end.
Proof.
  intros H. revert best. induction H as [|[k i] l [c Hc] _ IH]; intros best; simpl.
  - destruct best as [[k t]|]; [left; by exists t|done].
  - specialize (IH (oldest_step g best (k, i))). destruct (foldl _ _ _) as [[k' t']|].
    + destruct IH as [[t Ht]|Hin]; [|right; simpl; by right]. unfold oldest_step in Ht. simpl in *. rewrite Hc in Ht.
      destruct best as [[kb tb]|]; [case_match|]; simplify_eq; [right; by left|left; eauto|right; by left].
    + destruct IH as [Hb _]. unfold oldest_step in Hb. cbn [fst snd] in Hb, Hc. rewrite Hc in Hb.
      destruct best as [[kb tb]|]; [destruct (created c <? tb)|]; discriminate.
Qed.

Lemma oldest_some g :
  ids_ok g -> match oldest g with Some k => is_Some (contexts g !! k) | None => contexts g = ∅ end.
Proof.
  intros Hi. unfold oldest. pose proof (oldest_fold g (map_to_list (contexts g)) None) as H.
  change (foldl _ None (map_to_list (contexts g))) with (foldl (oldest_step g) None (map_to_list (contexts g))).
  assert (Hf : Forall (fun ki : list byte * nat => is_Some (arena g !! ki.2)) (map_to_list (contexts g))).
  { apply Forall_forall. intros [h i] Hin%elem_of_map_to_list. apply lookup_lt_is_Some. by eapply Hi. }
  specialize (H Hf). destruct (foldl _ _ _) as [[k t]|]; cbn [fst fmap option_fmap option_map].
  - destruct H as [[t' Ht]|Hin]; [done|]. apply list_elem_of_fmap in Hin as ([h i] & E & Hin). cbn [fst] in E. subst k.
    apply elem_of_map_to_list in Hin. by exists i.
  - destruct H as [_ H]. by apply map_to_list_empty_iff in H.
Qed.

Lemma drop_oldest_room t fuel g :
  gss_inv t g -> (size (contexts g) <= fuel)%nat ->
  gss_inv t (drop_oldest fuel g) /\ (size (contexts (drop_oldest fuel g)) < MAX_CONTEXTS)%nat /\ arena (drop_oldest fuel g) = arena g.
Proof.
  assert (Hmax : (0 < MAX_CONTEXTS)%nat) by (unfold MAX_CONTEXTS; lia).
  revert g. induction fuel as [|fuel IH]; intros g Hg Hf; cbn [drop_oldest]; [split_and!; [done|lia|done]|].
  destruct (Nat.leb_spec MAX_CONTEXTS (size (contexts g))) as [Hle|]; [|by split_and!].
  pose proof (oldest_some g (proj1 Hg)) as Ho. destruct (oldest g) as [k|].
  - destruct Ho as [i Hi]. destruct (IH (set_contexts g (delete k (contexts g)))) as (? & ? & ?); [by apply inv_remove| |by split_and!].
    cbn [contexts set_contexts]. rewrite map_size_delete_Some by done. lia.
  - rewrite Ho, map_size_empty in Hle. lia.
Qed.

Lemma make_room_room t now g :
  gss_inv t g ->
  gss_inv t (make_room now g) /\ (size (contexts (make_room now g)) < MAX_CONTEXTS)%nat /\ arena (make_room now g) = arena g.
Proof.
  intros Hg. unfold make_room. destruct (Nat.leb_spec MAX_CONTEXTS (size (contexts g))) as [Hle|]; [|by split_and!].
  set (g1 := set_contexts g _). destruct (drop_oldest_room t (size (contexts g1)) g1) as (? & ? & ->); [|done|by split_and!].
  apply inv_contexts; [done|]. by intros h i [Hi _]%map_lookup_filter_Some.
Qed.

(** ** Handling a call *)

Lemma accept_at_key keytab input m c acc c' : accept_at keytab input m c = (Ok acc, c') -> key_ok (context_key acc).
Proof.
  unfold accept_at. destruct (read_token _ _ _) as [[[req tkt] [[[sess ab] auth] fl]]|]; [|done].
  destruct (check_and_insert _ _ _) as [[] c1]; [|done]. cbn [negb].
  destruct (choose_key tkt sess auth) as [k|] eqn:Ek; [|done]. cbn [result_bind].
  destruct (answer_ap_req _ _ _ _ _ _) as [a|]; [|done]. cbn [result_bind]. intros [= <- <-]. cbn [context_key].
  unfold choose_key in Ek. destruct (match auth_subkey auth with Some _ => _ | None => _ end) as [k0|]; [|done].
  cbn [result_bind] in Ek. unfold check in Ek. destruct (Nat.eqb_spec (length (key k0)) (key_len (enctype k0))); [|done].
  cbn [result_bind] in Ek. by injection Ek as <-.
Qed.

Lemma ctx_ok_new t i c :
  key_ok (ctx_key c) -> window c = SeqWindow_default -> (forall q, (i, q) ∉ t) -> ctx_ok t i c.
Proof. intros Hk Hw Ht. split; [done|]. exists ∅. rewrite Hw. split; [done|]. intros q Hq. by destruct (Ht q). Qed.

Lemma init_inv t xid call cred args m g :
  gss_inv t g -> gss_inv t (init read_to_string xid call cred args m g).2.
Proof.
  intros Hg. unfold init. repeat (case_match; [done|]). destruct (gss_take_opaque args) as [[token rest]|]; [|done].
  destruct (accept_at _ _ _ _) as [r cache] eqn:Ea. assert (Hg1 : gss_inv t (set_replay g cache)) by done.
  destruct r as [acc|]; [|done]. destruct (random_handle m) as [h|]; [|done]. unfold ctx_mic.
  set (c := set_send_seq _ _). destruct (make_room_room t (at_time (moment m)) _ Hg1) as (Hr & Hs & Har).
  set (g2 := make_room _ _) in *. clearbody g2. destruct Hr as (Hi & _ & Hw & Ht & Hn). cbn [snd].
  unfold gss_inv, ids_ok. cbn [contexts arena set_contexts set_arena]. split_and!; [| | | |done].
  - intros h' i. rewrite length_app. cbn [length]. intros [[_ <-]|[_ Hh]]%lookup_insert_Some; [lia|]. specialize (Hi h' i Hh). lia.
  - rewrite map_size_insert. destruct (contexts g2 !! h); unfold Peano.lt in Hs; [etransitivity; [|exact Hs]; by apply le_S|exact Hs].
  - intros i c' Hc'. destruct (decide (i < length (arena g2))%nat) as [Hlt|Hge].
    + rewrite lookup_app_l in Hc' by done. by apply Hw.
    + assert (i = length (arena g2)) as ->.
      { apply lookup_lt_Some in Hc'. rewrite length_app in Hc'. simpl in Hc'. lia. }
      rewrite lookup_app_r, Nat.sub_diag in Hc' by lia. injection Hc' as <-.
      apply ctx_ok_new; [by apply accept_at_key in Ea|done|]. intros q Hq. specialize (Ht _ _ Hq). lia.
  - intros i q Hq. rewrite length_app. specialize (Ht i q Hq). lia.
Qed.

Lemma answer_mic_counted xid i seq body g : counted g (answer_mic xid i seq body g).2.
Proof. unfold answer_mic. pose proof (arena_mic_counted i (be_bytes 4 seq) g) as H. by destruct (arena_mic _ _ _). Qed.

Lemma run_data_counted xid call cred raw i c g : counted g (run_data compound_args xid call cred raw i c g).2.
Proof.
  unfold run_data. repeat case_match; try apply counted_refl; apply answer_mic_counted.
Qed.

Lemma run_data_passed xid call cred raw i c g :
  passed (run_data compound_args xid call cred raw i c g).1 = [] \/ passed (run_data compound_args xid call cred raw i c g).1 = [(i, seq_num cred)].
Proof.
  unfold run_data, answer_mic. repeat case_match; cbn; auto.
Qed.

(** The number just taken joins the set of its context. *)
Lemma taken_inv t g i c seq w :
  gss_inv t g -> arena g !! i = Some c -> window_accept seq (window c) = (true, w) ->
  let g' := set_arena g (<[i := set_window c w]> (arena g)) in gss_inv t g' /\ gss_inv ((i, seq) :: t) g'.
Proof.
  intros (Hi & Hs & Hw & Ht & Hn) Hc Hacc g'. destruct (Hw i c Hc) as [Hk (s & Hst & Hin)].
  destruct (window_exact (window c) s seq Hst) as [Htk Hst']. rewrite Hacc in Htk, Hst'. cbn [fst snd] in Htk, Hst'.
  destruct (proj1 Htk eq_refl) as [Hfresh _].
  assert (Hlen : length (arena g') = length (arena g)) by apply length_insert.
  assert (Hall : gss_inv ((i, seq) :: t) g').
  { split_and!; [intros h j Hj; rewrite Hlen; by eapply Hi|done| | |].
    - intros j c' Hj. subst g'. cbn [arena set_arena] in Hj. destruct (decide (i = j)) as [<-|Hne].
      + rewrite list_lookup_insert_eq in Hj by (by eapply lookup_lt_Some). injection Hj as <-. split; [done|].
        exists ({[seq]} ∪ s). split; [done|]. intros q [[= <-]|Hq]%elem_of_cons; [set_solver|]. apply Hin in Hq. set_solver.
      + rewrite list_lookup_insert_ne in Hj by done. destruct (Hw j c' Hj) as [Hk' (s' & Hs' & Hin')]. split; [done|].
        exists s'. split; [done|]. intros q [[= -> ->]|Hq]%elem_of_cons; [done|by apply Hin'].
    - intros j q [[= -> ->]|Hq]%elem_of_cons; rewrite Hlen; [by eapply lookup_lt_Some|by eapply Ht].
    - constructor; [|done]. intros Hin2. by apply Hfresh, Hin. }
  split; [|done]. destruct Hall as (H1 & H2 & H3 & H4 & H5). split_and!; [done|done| | |done].
  - intros j c' Hj. destruct (H3 j c' Hj) as [Hk' (s' & Hs' & Hin')]. split; [done|]. exists s'. split; [done|].
    intros q Hq. apply Hin'. by right.
  - intros j q Hq. apply (H4 j q). by right.
Qed.

Lemma data_inv t xid call cred raw now g :
  gss_inv t g ->
  let r := data compound_args xid call cred raw now g in gss_inv (passed r.1 ++ t) r.2.
Proof.
  intros Hg r. subst r. unfold data. destruct (contexts g !! handle cred) as [i|]; [|done]. cbn [mbind option_bind].
  destruct (arena g !! i) as [c|] eqn:Hc; [|done]. cbn [fmap option_fmap option_map].
  destruct (ctx_expires c <? now); [by apply inv_remove|]. destruct (negb _); [done|].
  destruct (MAXSEQ <=? seq_num cred); [by apply inv_remove|].
  destruct (window_accept (seq_num cred) (window c)) as [[] w] eqn:Hacc; cbn [negb].
  - destruct (taken_inv t g i c _ _ Hg Hc Hacc) as [Hkeep Htake]. set (g' := set_arena g _) in *.
    destruct (gss_proc cred =? RPCSEC_GSS_DESTROY).
    + eapply counted_inv; [apply answer_mic_counted|]. unfold answer_mic.
      destruct (arena_mic _ _ _). by apply inv_remove.
    + eapply counted_inv; [apply run_data_counted|].
      destruct (run_data_passed xid call cred raw i c g') as [-> | ->]; done.
  - assert (w = window c) as ->.
    { unfold window_accept in Hacc. destruct (negb _); [done|]. destruct (_ <? _); [done|]. destruct (_ || _); congruence. }
    cbn [fst snd passed app]. eapply counted_inv; [|exact Hg].
    split_and!; [done|apply length_insert|]. intros j c' Hj. exists c', (send_seq c'). split; [|by destruct c'].
    cbn [arena set_arena] in Hj. replace (set_window c (window c)) with c in Hj by (by destruct c).
    by rewrite list_insert_id in Hj.
Qed.

Lemma gss_handle_inv t msg m g :
  gss_inv t g ->
  let r := gss_handle read_to_string compound_args msg m g in gss_inv (passed r.1 ++ t) r.2.
Proof.
  intros Hg r. subst r. unfold gss_handle. destruct (call_body msg) as [call|]; [|done]. destruct (cred call) as [ | | | |c|]; try done.
  destruct (negb _); [done|]. destruct (_ || _).
  - pose proof (init_inv t (call_xid msg) call c (gss_args (default (MkGssCallData [] []) (gss call))) m g Hg) as H.
    by destruct (init _ _ _ _ _ _ _).
  - destruct (_ || _); [by apply data_inv|done].
Qed.

Lemma run_inv g0 t g : gss_inv [] g0 -> gss_run g0 t g -> gss_inv t g.
Proof.
  intros H0 Hr. induction Hr as [|t g msg m call g' _ IH Hh|t g reply info random r g' _ IH Hw]; [done| |].
  - specialize (gss_handle_inv t msg m g IH). by rewrite Hh.
  - eapply counted_inv; [|exact IH]. specialize (wrap_reply_counted reply info random g). by rewrite Hw.
Qed.

Lemma start_inv k mappings etc : gss_inv [] (with_etc k mappings etc).
Proof.
  split_and!; cbn; [by intros h i|rewrite map_size_empty; lia|by intros i c| |constructor].
  intros i q Hq. by apply not_elem_of_nil in Hq.
Qed.

(** C16: Over any run of the server, with calls and replies of any connections in any order,
    no sequence number of a context lets a call through twice, and the table never holds
    more than its limit of contexts, each of which exists. *)
Theorem gss_no_replay k mappings etc t g :
  gss_run (with_etc k mappings etc) t g ->
  NoDup t /\ (context_count g <= MAX_CONTEXTS)%nat /\ forall h i, contexts g !! h = Some i -> is_Some (arena g !! i).
Proof.
  intros Hr. destruct (run_inv _ _ _ (start_inv k mappings etc) Hr) as (Hi & Hs & _ & _ & Hn).
  split_and!; [done..|]. intros h i Hh. by apply lookup_lt_is_Some, (Hi h).
Qed.

(** ** A call that goes on *)

Lemma answer_mic_stops xid i seq body g msg info g' : answer_mic xid i seq body g = (Proceed msg info, g') -> False.
Proof. unfold answer_mic. by destruct (arena_mic _ _ _). Qed.

(** Arguments as a client protects them for a service: behind the sequence number, under a
    MIC of both or sealed. *)
Definition protected_args (k : ContextKey) (service seq : Z) (args bytes : list byte) : Prop :=
  let body := be_bytes 4 seq ++ bytes in
  (service = RPC_GSS_SVC_NONE /\ bytes = args) \/
  (service = RPC_GSS_SVC_INTEGRITY /\ exists rest cksum n tail, gss_take_opaque args = Some (body, rest) /\
    gss_take_opaque rest = Some (cksum, tail) /\ verify_mic k Initiator body cksum = Ok n) \/
  (service = RPC_GSS_SVC_PRIVACY /\ exists tok n tail, gss_take_opaque args = Some (tok, tail) /\
    unwrap_token k Initiator tok = Ok (body, true, n)).

Lemma numbered_body body seq bytes :
  (n ← word body 0; if n =? seq then Some (drop 4 body) else None) = Some bytes -> body = be_bytes 4 seq ++ bytes.
Proof.
  unfold word, slice. destruct (Nat.leb_spec (0 + 4) (length body)); [|done]. cbn [fmap option_fmap option_map mbind option_bind].
  destruct (Z.eqb_spec (be_val (take 4 (drop 0 body))) seq) as [<-|]; [|done]. intros [= <-]. rewrite drop_0.
  replace 4%nat with (length (take 4 body)) at 1 by (rewrite length_take; lia). by rewrite be_bytes_be_val, take_drop.
Qed.

Lemma open_args_protected k cred args bytes :
  is_Some (from_gss_service (service cred)) -> open_args k cred args = Some bytes ->
  protected_args k (service cred) (seq_num cred) args bytes.
Proof.
  intros Hs. unfold open_args, protected_args. destruct (Z.eqb_spec (service cred) RPC_GSS_SVC_NONE) as [E|E].
  { intros [= <-]. by left. }
  destruct (Z.eqb_spec (service cred) RPC_GSS_SVC_INTEGRITY) as [Ei|Ei].
  - destruct (gss_take_opaque args) as [[body rest]|]; [|done]. cbn [mbind option_bind].
    destruct (gss_take_opaque rest) as [[cksum tail]|] eqn:Er; [|done]. cbn [mbind option_bind].
    destruct (verify_mic _ _ _ _) as [n|] eqn:Ev; [|done]. intros ->%numbered_body. right; left. split; [done|].
    by exists rest, cksum, n, tail.
  - destruct (gss_take_opaque args) as [[tok tail]|]; [|done]. cbn [mbind option_bind].
    destruct (unwrap_token _ _ _) as [[[plain []] n]|] eqn:Eu; try done. intros ->%numbered_body. right; right.
    split; [|by exists tok, n, tail]. destruct Hs as [f Hf]. unfold from_gss_service in Hf.
    unfold RPC_GSS_SVC_NONE, RPC_GSS_SVC_INTEGRITY, RPC_GSS_SVC_PRIVACY in *. repeat (case_match; try done).
Qed.

(** The arguments the handlers see: a COMPOUND's are the opened ones. *)
Definition seen_args (call : CallBody) (bytes : list byte) (a : option Compound4args) : Prop :=
  if (proc call =? 1) && (prog call =? 100003) then
    exists x, decode_compound_args compound_args bytes = Ok x /\ a = Some x
  else a = args call.

Lemma run_data_proceeds xid call cred raw i c g msg info g' :
  run_data compound_args xid call cred raw i c g = (Proceed msg info, g') ->
  g' = g /\ exists flavor bytes a, from_gss_service (service cred) = Some flavor /\
    open_args (ctx_key c) cred (gss_args raw) = Some bytes /\ seen_args call bytes a /\
    Proceed msg info = proceed xid call cred i c flavor a.
Proof.
  unfold run_data, seen_args. destruct (from_gss_service _) as [flavor|]; [|done].
  destruct (open_args _ _ _) as [bytes|]; [|by intros ?%answer_mic_stops].
  destruct (_ && _).
  - destruct (decode_compound_args _ _) as [a|] eqn:Ed; [|by intros ?%answer_mic_stops].
    intros [= <- <- <-]. split; [done|]. exists flavor, bytes, (Some a).
    split; [done|]. split; [done|]. split; [by exists a|].
    done.
  - intros [= <- <- <-]. split; [done|]. by exists flavor, bytes, (args call).
Qed.

Lemma gss_handle_proceeds msg m g msg' info g' :
  gss_handle read_to_string compound_args msg m g = (Proceed msg' info, g') ->
  exists call cr c tok n w flavor bytes a,
    call_body msg = Call call /\ cred call = AuthGss cr /\
    contexts g !! handle cr = Some (reply_ctx info) /\ arena g !! reply_ctx info = Some c /\
    at_time (moment m) <= ctx_expires c /\
    (verf call = GssVerf tok /\
      verify_mic (ctx_key c) Initiator (header (default (MkGssCallData [] []) (gss call))) tok = Ok n) /\
    seq_num cr < MAXSEQ /\ window_accept (seq_num cr) (window c) = (true, w) /\
    g' = set_arena g (<[reply_ctx info := set_window c w]> (arena g)) /\
    from_gss_service (service cr) = Some flavor /\
    open_args (ctx_key c) cr (gss_args (default (MkGssCallData [] []) (gss call))) = Some bytes /\
    seen_args call bytes a /\ Proceed msg' info = proceed (call_xid msg) call cr (reply_ctx info) c flavor a.
Proof.
  unfold gss_handle. destruct (call_body msg) as [call|]; [|done]. destruct (cred call) as [ | | | |cr|] eqn:Ecr; try done.
  destruct (negb _); [done|]. set (raw := default _ _). destruct (_ || _); [by destruct (init _ _ _ _ _ _ _)|].
  destruct (_ || _); [|done]. unfold data. destruct (contexts g !! handle cr) as [i|] eqn:Ei; [|done]. cbn [mbind option_bind].
  destruct (arena g !! i) as [c|] eqn:Ec; [|done]. cbn [fmap option_fmap option_map].
  destruct (Z.ltb_spec (ctx_expires c) (at_time (moment m))); [done|].
  destruct (verf call) as [| | | | |tok] eqn:Ev; try done. destruct (verify_mic _ _ _ tok) as [n|] eqn:En; [|done]. cbn [is_ok negb].
  destruct (Z.leb_spec MAXSEQ (seq_num cr)); [done|]. destruct (window_accept _ _) as [[] w] eqn:Ew; [|done]. cbn [negb].
  destruct (_ =? RPCSEC_GSS_DESTROY); [by intros ?%answer_mic_stops|].
  intros (-> & flavor & bytes & a & Hf & Ho & Ha & Hp)%run_data_proceeds.
  assert (reply_ctx info = i) as -> by (by injection Hp as _ ->). by exists call, cr, c, tok, n, w, flavor, bytes, a.
Qed.

(** C17: A call goes on to the handlers only when it names a context of the table that has
    not expired, its header carries the MIC of the context's initiator, its number is below
    the limit and new in the context's window, and the arguments open under the context's
    key for the service it names, with that number inside; the handlers then see the opened
    arguments and the identity of the context's principal, and nothing the call said about
    who it is. *)
Theorem proceed_authenticated msg m g msg' info g' :
  gss_handle read_to_string compound_args msg m g = (Proceed msg' info, g') ->
  exists call cr c tok n w flavor bytes a,
    call_body msg = Call call /\ cred call = AuthGss cr /\
    contexts g !! handle cr = Some (reply_ctx info) /\ arena g !! reply_ctx info = Some c /\
    at_time (moment m) <= ctx_expires c /\
    (verf call = GssVerf tok /\
      verify_mic (ctx_key c) Initiator (header (default (MkGssCallData [] []) (gss call))) tok = Ok n) /\
    seq_num cr < MAXSEQ /\ window_accept (seq_num cr) (window c) = (true, w) /\
    g' = set_arena g (<[reply_ctx info := set_window c w]> (arena g)) /\
    from_gss_service (service cr) = Some flavor /\
    protected_args (ctx_key c) (service cr) (seq_num cr) (gss_args (default (MkGssCallData [] []) (gss call))) bytes /\
    seen_args call bytes a /\ Proceed msg' info = proceed (call_xid msg) call cr (reply_ctx info) c flavor a.
Proof.
  intros (call & cr & c & tok & n & w & flavor & bytes & a & Hp)%gss_handle_proceeds.
  exists call, cr, c, tok, n, w, flavor, bytes, a. repeat (destruct Hp as [? Hp]; split; [done|]).
  destruct Hp as [Ho Hp]. split; [apply open_args_protected; [by eexists|done]|done].
Qed.

(** ** Replies *)

Lemma gss_opaque_roundtrip d rest :
  Z.of_nat (length d) < 2 ^ 32 -> gss_take_opaque (gss_put_opaque d ++ rest) = Some (d, rest).
Proof.
  intros Hd. unfold gss_take_opaque, gss_put_opaque. rewrite wrap_small by (unfold in_width; lia).
  assert (Ew : word (be_bytes 4 (Z.of_nat (length d)) ++ d ++ replicate ((4 - length d mod 4) mod 4) x00 ++ rest) 0
      = Some (Z.of_nat (length d))).
  { unfold word, slice. rewrite (proj2 (Nat.leb_le _ _)) by (rewrite length_app, length_be_bytes; lia).
    rewrite drop_0, take_app_length' by (by rewrite length_be_bytes). cbn [fmap option_fmap option_map].
    by rewrite be_val_be_bytes_small by (unfold in_width; lia). }
  rewrite <- !(assoc_L (++)), Ew. cbn [mbind option_bind]. rewrite Nat2Z.id. unfold slice.
  rewrite (proj2 (Nat.leb_le _ _)) by (rewrite !length_app, length_be_bytes; lia).
  rewrite (drop_app_length' (be_bytes 4 _) _ 4) by (by rewrite length_be_bytes). rewrite take_app_length. cbn [mbind option_bind].
  do 2 f_equal. rewrite (assoc_L (++) d), (assoc_L (++) (be_bytes _ _)). apply drop_app_length'.
  rewrite !length_app, length_be_bytes, length_replicate. lia.
Qed.

Lemma gss_opaque_aligned d : (length (gss_put_opaque d) mod 4 = 0)%nat.
Proof.
  unfold gss_put_opaque. rewrite !length_app, length_replicate, Nat.add_comm, length_be_bytes.
  change ((4 - length d mod 4) mod 4)%nat with (padding (length d)). rewrite Nat.Div0.add_mod, padding_aligns. done.
Qed.

(** The client's side of an accepted reply: the results and what protects them. *)
Definition open_reply (k : ContextKey) (service seq : Z) (raw : list byte) : option (list byte) :=
  body ←
    (if service =? RPC_GSS_SVC_INTEGRITY then
       '(body, rest) ← gss_take_opaque raw;
       '(cksum, _) ← gss_take_opaque rest;
       if is_ok (verify_mic k Acceptor body cksum) then Some body else None
     else
       '(tok, _) ← gss_take_opaque raw;
       match unwrap_token k Acceptor tok with
       | Ok (plain, true, _) => Some plain
       | _ => None
       end);
  n ← word body 0;
  if n =? seq then Some (drop 4 body) else None.

Lemma body_opens seq results :
  in_width 32 seq ->
  (n ← word (be_bytes 4 seq ++ results) 0; if n =? seq then Some (drop 4 (be_bytes 4 seq ++ results)) else None) = Some results.
Proof.
  intros Hs. unfold word, slice. rewrite (proj2 (Nat.leb_le _ _)) by (rewrite length_app, length_be_bytes; lia).
  rewrite drop_0, take_app_length', drop_app_length' by (by rewrite length_be_bytes). cbn [fmap option_fmap option_map mbind option_bind].
  by rewrite be_val_be_bytes_small, Z.eqb_refl by done.
Qed.

Lemma arena_mic_some i d g c :
  arena g !! i = Some c -> key_ok (ctx_key c) -> in_width 64 (send_seq c) ->
  exists mic c', arena_mic i d g = (mic, set_arena g (<[i := c']> (arena g))) /\
    c' = set_send_seq c (wrap 64 (send_seq c + 1)) /\ Z.of_nat (length mic) < 2 ^ 32 /\
    verify_mic (ctx_key c) Acceptor d mic = Ok (send_seq c).
Proof.
  intros Hc Hk Hs. destruct (mic_verifies (ctx_key c) Acceptor (send_seq c) d Hk Hs) as (mic & E & Hl & Hv & _).
  exists mic, (set_send_seq c (wrap 64 (send_seq c + 1))). unfold arena_mic. rewrite Hc. unfold ctx_mic. rewrite E.
  split_and!; try done. rewrite Hl. destruct (enctype (ctx_key c)); simpl; lia.
Qed.

Lemma arena_set_lookup g i c c' : arena g !! i = Some c -> arena (set_arena g (<[i := c']> (arena g))) !! i = Some c'.
Proof. intros H. cbn [arena set_arena]. apply list_lookup_insert_eq. by eapply lookup_lt_Some. Qed.

(** C20: The reply to a call that went on carries the MIC of the call's sequence number under
    the context's key; without protection the results go out as they are, and with integrity
    or privacy what goes out is whole words that open at the client to exactly the encoded
    results under that number. *)
Theorem reply_protects reply acc info confounder g c results :
  reply_body reply = MsgAccepted acc -> arena g !! reply_ctx info = Some c -> key_ok (ctx_key c) ->
  in_width 64 (send_seq c) -> in_width 32 (reply_seq info) -> is_block confounder ->
  is_Some (from_gss_service (reply_service info)) ->
  results_of compound_res info (reply_data acc) = Some (Ok results) -> Z.of_nat (length results) + 76 < 2 ^ 32 ->
  exists mic out g', wrap_reply compound_res reply info (Ok confounder) g = (with_data reply (GssVerf mic) out, g') /\
    verify_mic (ctx_key c) Acceptor (be_bytes 4 (reply_seq info)) mic = Ok (send_seq c) /\
    if reply_service info =? RPC_GSS_SVC_NONE then out = reply_data acc
    else exists raw, out = SuccessRaw raw /\ (length raw mod 4 = 0)%nat /\
      open_reply (ctx_key c) (reply_service info) (reply_seq info) raw = Some results.
Proof.
  intros Hr Hc Hk Hs Hq Hcf Hf Hres Hlen. unfold wrap_reply. rewrite Hr.
  destruct (arena_mic_some (reply_ctx info) (be_bytes 4 (reply_seq info)) g c Hc Hk Hs) as (mic & c1 & -> & Ec1 & _ & Hv).
  destruct (Z.eqb_spec (reply_service info) RPC_GSS_SVC_NONE) as [En|En]; [by exists mic, (reply_data acc); eexists|].
  rewrite Hres. set (g1 := set_arena g _). assert (Hc1 : arena g1 !! reply_ctx info = Some c1) by by eapply arena_set_lookup.
  assert (Hs1 : in_width 64 (send_seq c1)) by (rewrite Ec1; apply wrap_in_width; lia).
  assert (Hk1 : ctx_key c1 = ctx_key c) by by rewrite Ec1.
  set (body := be_bytes 4 (reply_seq info) ++ results).
  assert (Hb : length body = (4 + length results)%nat) by (unfold body; by rewrite length_app, length_be_bytes).
  unfold open_reply. destruct (Z.eqb_spec (reply_service info) RPC_GSS_SVC_INTEGRITY) as [Ei|Ei].
  - destruct (arena_mic_some (reply_ctx info) body g1 c1 Hc1) as (mic2 & c2 & -> & _ & Hm & Hv2); [by rewrite Hk1|done|].
    exists mic. do 2 eexists. split; [done|]. split; [done|]. eexists. split; [done|]. split.
    { rewrite length_app, Nat.Div0.add_mod, !gss_opaque_aligned. done. }
    rewrite gss_opaque_roundtrip by lia. cbn [mbind option_bind]. rewrite <- (app_nil_r (gss_put_opaque mic2)), gss_opaque_roundtrip by done.
    cbn [mbind option_bind]. rewrite Hk1 in Hv2. rewrite Hv2. cbn [is_ok mbind option_bind]. by apply body_opens.
  - destruct (Z.eqb_spec (reply_service info) RPC_GSS_SVC_PRIVACY) as [Ep|Ep].
    2: { exfalso. unfold RPC_GSS_SVC_NONE, RPC_GSS_SVC_INTEGRITY, RPC_GSS_SVC_PRIVACY in *.
         unfold from_gss_service in Hf. destruct Hf as [x Hx]. repeat (case_match; try done). }
    rewrite Hc1, Hk1. destruct (wrapped_opens (ctx_key c) Acceptor (send_seq c1) true body confounder 0 Hk Hs1 Hcf)
      as (tok & Et & Hl & Hu & _); [unfold in_width; lia|]. rewrite (rotated_0 _ _ _ _ _ _ _ Et) in Hu. rewrite Et.
    exists mic. do 2 eexists. split; [done|]. split; [done|]. eexists. split; [done|]. split; [apply gss_opaque_aligned|].
    rewrite <- (app_nil_r (gss_put_opaque tok)), gss_opaque_roundtrip by lia. cbn [mbind option_bind]. rewrite Hu.
    cbn [mbind option_bind]. by apply body_opens.
Qed.
End Server.
