(* ===== verification/GssDemo.v ===== *)
(** * A Kerberos client calls

    Alice's context established with the server, a protected COMPOUND under it, and its
    reply: the run on which the theorems about the server are instantiated. *)

From S2P Require Import Prelude NfsTypes Xdr Rpc Export KrbCrypto KrbCryptoSpec KrbToken KrbKeytab KrbAcceptor.
From S2P Require Import KrbHandshake KrbDemo Gss GssSpec.
From stdpp Require Import base numbers list gmap strings.
From Stdlib Require Import Strings.Byte ZArith Lia.
#[local] Open Scope Z_scope.

(** A COMPOUND as its tag; results as one word. *)
Definition toy_args : reader Compound4args := fun b => Ok (MkCompound4args (String.string_of_list_byte b) 0 [], []).
Definition toy_res (res : Compound4res) : result (list byte) XdrError := Ok (be_bytes 4 (NfsStat4_to_u32 (compound4res_status res))).
Definition no_files (path : string) : option string := None.

Definition alice_handle : list byte := be_bytes 16 77.
Definition service_start : GssServer :=
  with_etc service_keytab [MkPrincipalMapping "alice@EXAMPLE.LO" 1001 1001 [10]] "/etc".

Definition gss_call (proc gss_proc seq service : Z) (handle : list byte) (verf : OpaqueAuth) (header args : list byte) : RpcCallMsg :=
  MkRpcCallMsg seq (Call (MkCallBody 2 100003 4 proc (AuthGss (MkRpcSecGssCred 1 gss_proc seq service handle)) verf None
    (Some (MkGssCallData header args)))).

Definition alice_init : RpcCallMsg := gss_call 0 RPCSEC_GSS_INIT 0 1 [] (AuthNull []) [] (gss_put_opaque alice.2).

Definition at_gss (time instant : Z) : GssMoment := MkGssMoment (at_server time instant) (Ok alice_handle).

Definition alice_mic (data : list byte) : list byte :=
  match get_mic (ini_key alice.1) Initiator 0 data with Ok t => t | Err _ => [] end.

(** A COMPOUND with integrity. *)
Definition alice_compound (seq : Z) : RpcCallMsg :=
  let header := be_bytes 40 seq in
  let body := be_bytes 4 seq ++ [x68; x69] in
  gss_call 1 RPCSEC_GSS_DATA seq RPC_GSS_SVC_INTEGRITY alice_handle (GssVerf (alice_mic header)) header
    (gss_put_opaque body ++ gss_put_opaque (alice_mic body)).

Definition established : GssServer := Eval vm_compute in (gss_handle no_files toy_args alice_init (at_gss 2010 10) service_start).2.
Definition called : GssServer :=
  Eval vm_compute in (gss_handle no_files toy_args (alice_compound 10) (at_gss 2020 20) established).2.

Definition alice_msg : RpcCallMsg :=
  Eval vm_compute in MkRpcCallMsg 10 (Call (MkCallBody 2 100003 4 1
    (AuthUnixCred (MkAuthUnix 0 "alice@EXAMPLE.LO" 1001 1001 [10])) (GssVerf (alice_mic (be_bytes 40 10)))
    (Some (MkCompound4args "hi" 0 [])) None)).
Definition alice_info : GssReply := MkGssReply 0 10 RPC_GSS_SVC_INTEGRITY 1 Krb5i.

Definition init_answer : GssCall :=
  Eval vm_compute in (gss_handle no_files toy_args alice_init (at_gss 2010 10) service_start).1.

Lemma init_replies : gss_handle no_files toy_args alice_init (at_gss 2010 10) service_start = (init_answer, established).
Proof. vm_cast_no_check (eq_refl (init_answer, established)). Qed.

Lemma called_proceeds :
  gss_handle no_files toy_args (alice_compound 10) (at_gss 2020 20) established = (Proceed alice_msg alice_info, called).
Proof. vm_cast_no_check (eq_refl (Proceed alice_msg alice_info, called)). Qed.

(** The same call again is dropped. *)
Lemma replayed_drops : gss_handle no_files toy_args (alice_compound 10) (at_gss 2021 21) called = (Drop, called).
Proof. vm_cast_no_check (eq_refl (Drop, called)). Qed.

Lemma alice_run : gss_run no_files toy_args toy_res service_start [(0%nat, 10)] called.
Proof.
  apply (run_call _ _ _ _ [(0%nat, 10)] called (alice_compound 10) (at_gss 2021 21) Drop called); [|exact replayed_drops].
  apply (run_call _ _ _ _ [] established (alice_compound 10) (at_gss 2020 20) (Proceed alice_msg alice_info) called); [|exact called_proceeds].
  apply (run_call _ _ _ _ [] service_start alice_init (at_gss 2010 10) init_answer established); [apply run_start|exact init_replies].
Qed.

Lemma gss_no_replay_witness : NoDup [(0%nat, 10)] /\ (context_count called <= MAX_CONTEXTS)%nat.
Proof.
  destruct (gss_no_replay no_files toy_args toy_res service_keytab _ "/etc" [(0%nat, 10)] called alice_run) as (H & Hb & _).
  split; [exact H|exact Hb].
Defined.

Lemma proceed_authenticated_witness : exists c, arena established !! 0%nat = Some c /\ 2020 <= ctx_expires c.
Proof.
  destruct (proceed_authenticated no_files toy_args (alice_compound 10) (at_gss 2020 20) established alice_msg alice_info called
    called_proceeds) as (call & cr & c & tok & n & w & flavor & bytes & a & _ & _ & _ & Hc & He & _).
  exists c. split; [exact Hc|exact He].
Defined.

Definition alice_reply : RpcReplyMsg :=
  MkRpcReplyMsg 10 (MsgAccepted (MkAcceptedReply (AuthNull []) (Success (MkCompound4res Nfs4Ok "hi" [])))).

Lemma reply_protects_witness :
  exists c mic raw g', arena called !! 0%nat = Some c /\
    wrap_reply toy_res alice_reply alice_info (Ok (be_bytes 16 3)) called =
      (with_data alice_reply (GssVerf mic) (SuccessRaw raw), g') /\
    open_reply (ctx_key c) RPC_GSS_SVC_INTEGRITY 10 raw = Some (be_bytes 4 0).
Proof.
  destruct (arena called !! 0%nat) as [c|] eqn:Hc; [|vm_compute in Hc; discriminate].
  destruct (reply_protects toy_res alice_reply (MkAcceptedReply (AuthNull []) (Success (MkCompound4res Nfs4Ok "hi" [])))
    alice_info (be_bytes 16 3) called c (be_bytes 4 0)) as (mic & out & g' & E & _ & raw & -> & _ & Ho).
  - reflexivity.
  - exact Hc.
  - vm_compute in Hc. injection Hc as <-. reflexivity.
  - vm_compute in Hc. injection Hc as <-. unfold in_width. vm_compute. split; [discriminate|reflexivity].
  - unfold in_width. vm_compute. split; [discriminate|reflexivity].
  - reflexivity.
  - eexists. reflexivity.
  - reflexivity.
  - vm_compute. reflexivity.
  - exists c, mic, raw, g'. split; [reflexivity|]. split; [exact E|exact Ho].
Defined.
