(* ===== verification/Startup.v ===== *)
(** * Configuration and start ([src/src/config.rs], [src/src/main.rs], [nfs/src/lib.rs])

    What [nextnfs serve] makes of its command line and configuration file: the exports it
    registers in the composed server, the keytab it loads, and the ways in which it gives
    up. A [PathBuf] is its string. Reading and parsing the file (toml), the file system and
    rustls are arguments; what is only logged is left out. *)

From S2P Require Import Prelude NfsTypes Rpc MultiIndex Locking FileManager RateLimiter Export ClientManager Request.
From S2P Require Import Handle OpsState OpsAttr Ops41 Execute Server KrbCrypto KrbKeytab Gss StateFile.
From S2P Require Sessions.
From stdpp Require Import base list gmap strings.
From Stdlib Require Import Strings.Byte ZArith Lia.
#[local] Open Scope Z_scope.

(** ** The configuration file *)

Record Krb5Map : Type := MkKrb5Map { krb5_principal : string; krb5_uid : Z; krb5_gid : Z; krb5_gids : list Z }.

Record ServerConfig : Type := MkServerConfig {
  listen : string; api_listen : string; state_dir : option string; tls_cert : option string; tls_key : option string;
  rdma_device : option string; rdma_port : option Z; krb5_keytab : option string; krb5_map : list Krb5Map
}.

Record ExportConfig : Type := MkExportConfig { single_path : string; single_read_only : bool }.

Record ExportEntry : Type := MkExportEntry {
  entry_name : string; entry_path : string; entry_read_only : bool; entry_max_ops : Z; entry_max_bytes : Z;
  entry_clients : list string; entry_squash : string; entry_anon_uid : Z; entry_anon_gid : Z; entry_sec : list string
}.

Record Config : Type := MkConfig { server : ServerConfig; export : option ExportConfig; entries : list ExportEntry }.

Definition default_listen : string := "0.0.0.0:2049".
Definition default_api_listen : string := "0.0.0.0:8080".
Definition default_export_path : string := "/export".

Definition ServerConfig_default : ServerConfig :=
  MkServerConfig default_listen default_api_listen None None None None None None [].
Definition ExportConfig_default : ExportConfig := MkExportConfig default_export_path false.

(** [Path::file_name]: the last component, unless that is [..]. *)
Definition file_name (path : string) : option string :=
  match last (filter (fun c => c <> "" /\ c <> ".") (split_at slash path)) with
  | Some ".." => None
  | c => c
  end%string.

(** An entry that only has a name and a path. *)
Definition plain_entry (path : string) (ro : bool) (squash : string) : ExportEntry :=
  MkExportEntry (default "export" (file_name path)) path ro 0 0 [] squash 65534 65534 [].

(** The single [export] goes in front of the others, unless one of them has its path. *)
Definition resolved_exports (c : Config) : list ExportEntry :=
  match export c with
  | Some single =>
    if existsb (fun e => bool_decide (entry_path e = single_path single)) (entries c) then entries c
    else plain_entry (single_path single) (single_read_only single) "" :: entries c
  | None => entries c
  end.

(** ** The command line *)

Record Cli : Type := MkCli {
  cli_export : string; cli_listen : string; cli_api_listen : string; cli_config : option string; cli_squash : option string
}.

(** [serve]'s own options, which come before the global ones. *)
Record Serve : Type := MkServe {
  serve_export : option string; serve_listen : option string; serve_api_listen : option string; serve_config : option string
}.

Definition serve_args (cli : Cli) (command : option Serve) : Cli :=
  match command with
  | Some s =>
    MkCli (default (cli_export cli) (serve_export s)) (default (cli_listen cli) (serve_listen s))
      (default (cli_api_listen cli) (serve_api_listen s))
      (match serve_config s with Some c => Some c | None => cli_config cli end) (cli_squash cli)
  | None => cli
  end.

(** What is served, and where. *)
Record Settings : Type := MkSettings {
  set_exports : list ExportEntry; set_listen : string; set_api_listen : string; set_state_dir : option string;
  set_tls_cert : option string; set_tls_key : option string; set_keytab : option string; set_krb5_map : list Krb5Map
}.

(** An address given on the command line counts if it is not the default one. *)
Definition merge_settings (args : Cli) (cfg : option Config) : Settings :=
  let fallback := [plain_entry (cli_export args) false (default "" (cli_squash args))]%string in
  match cfg with
  | Some cfg =>
    let s := server cfg in
    MkSettings (match resolved_exports cfg with [] => fallback | es => es end)
      (if bool_decide (cli_listen args <> default_listen) then cli_listen args else listen s)
      (if bool_decide (cli_api_listen args <> default_api_listen) then cli_api_listen args else api_listen s)
      (state_dir s) (tls_cert s) (tls_key s) (krb5_keytab s) (krb5_map s)
  | None => MkSettings fallback (cli_listen args) (cli_api_listen args) None None None None []
  end.

(** ** Giving up *)

(** The exits with status 1, and the panics before the server is built. [AddFailed] has no
    error when the export manager is gone. *)
Inductive Exit : Type :=
| ConfigUnreadable
| UnknownFlavor (nm sec : string)
| KeytabNotSet (nm : string)
| PathMissing (path : string)
| PathNotDirectory (path : string)
| AddFailed (nm : string) (e : option ExportError)
| UnknownSquash (nm squash : string)
| StateDirFailed (dir : string)
| KeytabUnreadable (path : string)
| NoUsableKeys (path : string)
| TlsPanics (cert key : string).

(** The flavours of an entry's [sec]; none are [sys]. *)
Fixpoint parse_flavors (nm : string) (l : list string) : result (list SecFlavor) Exit :=
  match l with
  | [] => Ok []
  | s :: l =>
    match SecFlavor_parse s with
    | None => Err (UnknownFlavor nm s)
    | Some f => try fs := parse_flavors nm l in Ok (f :: fs)
    end
  end.

Definition entry_flavors (keytab : option string) (e : ExportEntry) : result (list SecFlavor) Exit :=
  try fs := parse_flavors (entry_name e) (entry_sec e) in
  let fs := match fs with [] => [Sys] | _ => fs end in
  if existsb is_kerberos fs && bool_decide (keytab = None) then Err (KeytabNotSet (entry_name e)) else Ok fs.

Fixpoint export_sec (keytab : option string) (es : list ExportEntry) : result (list (list SecFlavor)) Exit :=
  match es with
  | [] => Ok []
  | e :: es => try fs := entry_flavors keytab e in try l := export_sec keytab es in Ok (fs :: l)
  end.

Definition squash_of (s : string) : option SquashMode :=
  if bool_decide (s ∈ [""; "root_squash"]) then Some RootSquash else
  if bool_decide (s = "all_squash") then Some AllSquash else
  if bool_decide (s ∈ ["none"; "no_root_squash"]) then Some SquashNone else None.

(** [Keytab::load] *)
Definition Keytab_load (read : string -> option (list byte)) (path : string) : option Keytab :=
  bytes ← read path;
  match Keytab_parse bytes with Ok k => Some k | Err _ => None end.

Definition mappings_of (l : list Krb5Map) : list PrincipalMapping :=
  map (fun m => MkPrincipalMapping (krb5_principal m) (krb5_uid m) (krb5_gid m) (krb5_gids m)) l.

(** ** The start *)

Section Start.
Context {O P C L H M F : Type}.
Context `{V : !Vfs O P C} `{ML : !MultiIndex LockingState L lock_clash}
        `{MH : !MultiIndex (Filehandle P C) H fh_clash} `{CW : !ClientWorld O}
        `{MC : !MultiIndex ClientEntry M client_clash} `{IO : !FileIo O P F} `{OUT : !Outside O P C}.
Variable canonicalize : string -> option string.
Variable is_dir : string -> bool.
Variable export_vfs : string -> P.
Variable parse_ip : string -> option IpAddr.
(** Seconds since the epoch, which a file manager reads when it is made. *)
Variable epoch : O -> Z.
Variable load_config : string -> option Config.
Variable read_file : string -> option (list byte).
Variable create_dir_all : string -> bool.
(** Whether rustls takes a certificate and a key; the code does not expect that it refuses. *)
Variable tls_ready : string -> string -> bool.
#[local] Abbreviation Srv := (Server O P C L H M).

(** A message to the export manager that adds no export; a task may go with it. *)
Definition tell_exports (msg : ExportManagerMessage) (s : Srv) : ExportReply * Srv :=
  let '(reply, t) := export_handle_message canonicalize is_dir MkManagerHandle parse_ip (table s) msg in
  (reply, set_qos_tasks (set_table s t) (option_list (qos_task (table s) msg) ++ qos_tasks s)).

(** [ExportManagerHandle::add_export]; the manager makes the export's file manager. *)
Definition server_add_export (nm path : string) (ro : bool) (s : Srv) : result ExportInfo (option ExportError) * Srv :=
  match add_export canonicalize is_dir MkManagerHandle (table s) nm path ro with
  | (Err e, _) => (Err (Some e), s)
  | (Ok i, t) =>
    match FileManager.new (export_vfs (export_path i)) (Some (Export.export_id i)) (export_path i) (epoch (outside_world s))
            (outside_world s) with
    | Some (fm, o) => (Ok i, set_outside (set_managers (set_table s t) (<[Export.export_id i := fm]> (managers s))) o)
    | None => (Err None, s)
    end
  end.

Definition access_of (e : ExportEntry) (mode : SquashMode) (sec : list SecFlavor) : AccessConfig :=
  MkAccessConfig (entry_clients e) mode (entry_anon_uid e) (entry_anon_gid e) sec.

(** One entry: the export, its limits if it has any, and its access control. *)
Definition register (e : ExportEntry) (sec : list SecFlavor) (s : Srv) : result Srv Exit :=
  match canonicalize (entry_path e) with
  | None => Err (PathMissing (entry_path e))
  | Some canonical =>
    if negb (is_dir canonical) then Err (PathNotDirectory canonical) else
    match server_add_export (entry_name e) canonical (entry_read_only e) s with
    | (Err x, _) => Err (AddFailed (entry_name e) x)
    | (Ok _, s) =>
      let s :=
        if (0 <? entry_max_ops e) || (0 <? entry_max_bytes e)
        then (tell_exports (SetQos (entry_name e) (MkQosConfig (entry_max_ops e) (entry_max_bytes e))) s).2 else s in
      match squash_of (entry_squash e) with
      | None => Err (UnknownSquash (entry_name e) (entry_squash e))
      | Some mode => Ok (tell_exports (SetAccess (entry_name e) (access_of e mode sec)) s).2
      end
    end
  end.

Fixpoint register_all (l : list (ExportEntry * list SecFlavor)) (s : Srv) : result Srv Exit :=
  match l with
  | [] => Ok s
  | (e, sec) :: l => try s := register e sec s in register_all l s
  end.

(** The RPCSEC_GSS server of a keytab, which has to have a key of a known type. *)
Definition gss_of (path : string) (maps : list Krb5Map) : result GssServer Exit :=
  match Keytab_load read_file path with
  | None => Err (KeytabUnreadable path)
  | Some k =>
    if (length (filter (fun e => is_Some (KeytabEntry_enctype e)) (KrbKeytab.entries k)) =? 0)%nat then Err (NoUsableKeys path)
    else Ok (GssServer_new k (mappings_of maps))
  end.

(** [NFSServer], as it is built. *)
Record NFSServer : Type := MkNFSServer {
  bind_address : string; api_address : string; core : Srv; state_directory : option string; tls : option (string * string);
  gss : option GssServer
}.

(** [run_server] up to its two tasks. *)
Definition start_up (st : Settings) (o : O) : result NFSServer Exit :=
  try secs := export_sec (set_keytab st) (set_exports st) in
  try s := register_all (zip (set_exports st) secs) (Server.start o ClientManager.new (Some Sessions.new)) in
  try _ := match set_state_dir st with
           | Some d => if create_dir_all d then Ok tt else Err (StateDirFailed d)
           | None => Ok tt
           end in
  try g := match set_keytab st with
           | Some path => try g := gss_of path (set_krb5_map st) in Ok (Some g)
           | None => Ok None
           end in
  let pair := match set_tls_cert st, set_tls_key st with Some c, Some k => Some (c, k) | _, _ => None end in
  try _ := match pair with
           | Some (c, k) => if tls_ready c k then Ok tt else Err (TlsPanics c k)
           | None => Ok tt
           end in
  Ok (MkNFSServer (set_listen st) (set_api_listen st) s (set_state_dir st) pair g).

Definition settings (args : Cli) : option Settings :=
  match cli_config args with
  | Some path => cfg ← load_config path; Some (merge_settings args (Some cfg))
  | None => Some (merge_settings args None)
  end.

Definition run_server (args : Cli) (o : O) : result NFSServer Exit :=
  match settings args with
  | Some st => start_up st o
  | None => Err ConfigUnreadable
  end.

(** ** [NFSServer::serve], before it takes connections *)

Variable from_json : string -> option StateSnapshot.

(** The clients of the state file, if there is a directory for it. *)
Definition restore_state (now : Z) (d : option Directory) (s : Srv) : Srv * option Directory :=
  match d with
  | Some d => let '(c, o, d) := recover from_json now d (outside_world s) in (set_outside (Server.set_clients s c) o, Some d)
  | None => (s, None)
  end.

(** The file manager that connections begin with: the first export that is listed. *)
Definition default_fm (s : Srv) : option ManagerHandle :=
  match list_exports s with
  | e :: _ => snd <$> get_export_by_id (table s) (Export.export_id e)
  | [] => None
  end.
End Start.
