(* ===== verification/StartupSpec.v ===== *)
(** * What a start comes to ([Startup])

    The condition under which the server starts, and the exports that it has then: those of
    the settings, in their order, each with its own access control, and nothing else. *)

From S2P Require Import Prelude NfsTypes Rpc MultiIndex Locking FileManager FileManagerProofs FileManagerSpec RateLimiter Export.
From S2P Require Import ClientManager ClientManagerSpec Request Handle OpsState OpsAttr Ops41 Execute Server KrbCrypto KrbKeytab Gss.
From S2P Require Import StateFile Startup.
From S2P Require Sessions.
From stdpp Require Import base list gmap strings.
From Stdlib Require Import Strings.Byte ZArith Lia.
#[local] Open Scope Z_scope.

(** ** Security flavours *)

Definition flavors_of (e : ExportEntry) : list SecFlavor :=
  let fs := omap SecFlavor_parse (entry_sec e) in match fs with [] => [Sys] | _ => fs end.

(** Every flavour is known, and one of Kerberos comes with a keytab. *)
Definition flavors_fit (keytab : option string) (e : ExportEntry) : Prop :=
  Forall (fun x => is_Some (SecFlavor_parse x)) (entry_sec e) /\
  (keytab = None -> Forall (fun f => f = Sys) (flavors_of e)).

Lemma parse_flavors_ok nm l :
  match parse_flavors nm l with
  | Ok fs => Forall (fun x => is_Some (SecFlavor_parse x)) l /\ fs = omap SecFlavor_parse l
  | Err _ => ~ Forall (fun x => is_Some (SecFlavor_parse x)) l
  end.
Proof.
  induction l as [|x l IH]; [done|]. cbn [parse_flavors].
  change (omap SecFlavor_parse (x :: l)) with (match SecFlavor_parse x with Some f => f :: omap SecFlavor_parse l | None => omap SecFlavor_parse l end).
  destruct (SecFlavor_parse x) as [f|] eqn:Ex; [|intros [[f Hf] _]%Forall_cons; congruence].
  destruct (parse_flavors nm l) as [fs|e]; cbn [result_bind]; [|by intros [_ ?]%Forall_cons].
  destruct IH as [H1 ->]. split; [|done]. apply Forall_cons; split; [by eexists|done].
Qed.

Lemma no_kerberos fs : existsb is_kerberos fs = false <-> Forall (fun f => f = Sys) fs.
Proof.
  rewrite <-not_true_iff_false, existsb_exists, Forall_forall. unfold is_kerberos. split.
  - intros Hn f Hf. apply dec_stable. intros Hs. apply Hn. exists f. split; [by apply list_elem_of_In|by apply bool_decide_eq_true].
  - intros Ha (f & Hf & Hk%bool_decide_eq_true). apply list_elem_of_In in Hf. by apply Hk, Ha.
Qed.

Lemma entry_flavors_ok keytab e :
  match entry_flavors keytab e with
  | Ok fs => flavors_fit keytab e /\ fs = flavors_of e
  | Err _ => ~ flavors_fit keytab e
  end.
Proof.
  unfold entry_flavors, flavors_fit. pose proof (parse_flavors_ok (entry_name e) (entry_sec e)) as Hp.
  destruct (parse_flavors _ _) as [fs|x]; cbn [result_bind]; [|tauto]. destruct Hp as [Hp ->]. change (match omap SecFlavor_parse (entry_sec e) with [] => [Sys] | _ => omap SecFlavor_parse (entry_sec e) end) with (flavors_of e).
  destruct (existsb is_kerberos (flavors_of e)) eqn:Ek; cbn [andb].
  - case_bool_decide as Hk; [|by split]. intros [_ Hn]. specialize (Hn Hk). apply no_kerberos in Hn. congruence.
  - apply no_kerberos in Ek. done.
Qed.

Lemma export_sec_ok keytab es :
  match export_sec keytab es with
  | Ok l => Forall (flavors_fit keytab) es /\ l = flavors_of <$> es
  | Err _ => ~ Forall (flavors_fit keytab) es
  end.
Proof.
  induction es as [|e es IH]; [done|]. cbn [export_sec]. pose proof (entry_flavors_ok keytab e) as He.
  destruct (entry_flavors keytab e) as [fs|x]; cbn [result_bind]; [|by intros [? _]%Forall_cons]. destruct He as [He ->].
  destruct (export_sec keytab es) as [l|x]; cbn [result_bind]; [|by intros [_ ?]%Forall_cons]. destruct IH as [IH ->].
  split; [|done]. by apply Forall_cons.
Qed.

(** ** Registering *)

Section StartSpec.
Context {O P C L H M F : Type}.
Context `{V : !Vfs O P C} `{ML : !MultiIndex LockingState L lock_clash}
        `{MH : !MultiIndex (Filehandle P C) H fh_clash} `{CW : !ClientWorld O}
        `{MC : !MultiIndex ClientEntry M client_clash} `{IO : !FileIo O P F} `{OUT : !Outside O P C}.
Variable canonicalize : string -> option string.
Variable is_dir : string -> bool.
Variable export_vfs : string -> P.
Variable parse_ip parse_socket : string -> option IpAddr.
Variable getpwnam getgrnam : string -> option Z.
Variable epoch : O -> Z.
(** A canonical path is its own canonical path. *)
Hypothesis canonical_fixed : forall p c, canonicalize p = Some c -> canonicalize c = Some c.
#[local] Abbreviation Srv := (Server O P C L H M).
#[local] Abbreviation Reachable :=
  (server_reachable (F:=F) canonicalize is_dir export_vfs parse_ip parse_socket getpwnam getgrnam).
#[local] Abbreviation registers := (register canonicalize is_dir export_vfs parse_ip epoch).
#[local] Abbreviation registers_all := (register_all canonicalize is_dir export_vfs parse_ip epoch).

Lemma manager_made (root : P) fsid path boot (o : O) :
  exists fm o', FileManager.new (L:=L) (H:=H) root fsid path boot o = Some (fm, o').
Proof.
  unfold FileManager.new. destruct (root_fh_triple 0 (initial root fsid path boot) o (initial_inv root fsid path boot)) as (fh & fm & w & -> & _).
  by do 2 eexists.
Qed.

(** The export an entry becomes, under an id. *)
Definition state_of (id : Z) (canonical : string) (mode : SquashMode) (e : ExportEntry) : ExportState ManagerHandle :=
  MkExportState (MkExportInfo id (entry_name e) canonical (entry_read_only e) (MkQuotaManager (MkQuotaConfig 0 0) 0)
      (AccessControl_new parse_ip (access_of e mode (flavors_of e)))) (MkManagerHandle id canonical).

(** The task that sets its limits. *)
Definition limits_task (id : Z) (e : ExportEntry) : list QosTask :=
  if (0 <? entry_max_ops e) || (0 <? entry_max_bytes e) then [UpdateQos id (MkQosConfig (entry_max_ops e) (entry_max_bytes e))] else [].

(** An entry that can become an export of its own. *)
Definition entry_fits (e : ExportEntry) (canonical : string) (mode : SquashMode) : Prop :=
  canonicalize (entry_path e) = Some canonical /\ is_dir canonical = true /\ squash_of (entry_squash e) = Some mode.

Lemma told_access nm cfg (s : Srv) st :
  exports (table s) !! nm = Some st ->
  (tell_exports canonicalize is_dir parse_ip (SetAccess nm cfg) s).2 =
  set_table s (MkExportManager (<[nm := with_access parse_ip st cfg]> (exports (table s))) (export_by_id (table s)) (next_export_id (table s))).
Proof. intros Es. unfold tell_exports. cbn [export_handle_message qos_task]. unfold set_config. by rewrite Es. Qed.

Lemma told_qos nm cfg (s : Srv) st :
  exports (table s) !! nm = Some st ->
  (tell_exports canonicalize is_dir parse_ip (SetQos nm cfg) s).2 = set_qos_tasks s (UpdateQos (Export.export_id (info st)) cfg :: qos_tasks s).
Proof.
  intros Es. unfold tell_exports. cbn [export_handle_message qos_task]. rewrite Es. cbn [mbind option_bind option_list app snd].
  by destruct s.
Qed.

Lemma register_ok e (s : Srv) :
  match registers e (flavors_of e) s with
  | Ok s' =>
    exists canonical mode, entry_fits e canonical mode /\ exports (table s) !! entry_name e = None /\ next_export_id (table s) < 0xFE /\
    let id := next_export_id (table s) in
    table s' = MkExportManager (<[entry_name e := state_of id canonical mode e]> (exports (table s)))
                 (<[id := entry_name e]> (export_by_id (table s))) (wrap 8 (id + 1)) /\
    qos_tasks s' = limits_task id e ++ qos_tasks s /\ (Reachable s -> Reachable s')
  | Err _ =>
    ~ ((exists canonical mode, entry_fits e canonical mode) /\ exports (table s) !! entry_name e = None /\ next_export_id (table s) < 0xFE)
  end.
Proof.
  unfold register, entry_fits. destruct (canonicalize (entry_path e)) as [c|] eqn:Ec; [|by intros ((? & ? & ? & _) & _)].
  destruct (is_dir c) eqn:Ed; cbn [negb]; [|intros ((? & ? & [= <-] & ? & _) & _); congruence].
  unfold server_add_export. destruct (add_export _ _ _ _ _ _ _) as [[i|x] t] eqn:Ea.
  2: { intros (_ & En & Hid). unfold add_export in Ea. rewrite En, (canonical_fixed _ _ Ec), Ed in Ea. cbn [negb] in Ea.
    apply Z.leb_gt in Hid. by rewrite Hid in Ea. }
  destruct (manager_made (export_vfs (export_path i)) (Some (Export.export_id i)) (export_path i) (epoch (outside_world s)) (outside_world s))
    as (fm & o & En). rewrite En. pose proof (step_add_export (F:=F) canonicalize is_dir export_vfs parse_ip parse_socket getpwnam getgrnam
      _ _ _ s _ _ _ _ _ Ea En) as Hstep. set (s1 := set_outside _ o) in *.
  unfold add_export in Ea. destruct (exports (table s) !! entry_name e) eqn:Ef; [done|].
  destruct (Z.leb_spec 0xFE (next_export_id (table s))); [done|]. rewrite (canonical_fixed _ _ Ec), Ed in Ea. cbn [negb] in Ea.
  injection Ea as <- <-. destruct (squash_of (entry_squash e)) as [mode|]; [|by intros ((? & ? & ? & ? & ?) & _)].
  exists c, mode. split; [done|]. split; [done|]. split; [done|]. cbv zeta.
  assert (Htell : forall msg s2, (forall nm path ro, msg <> AddExport nm path ro) -> Reachable s2 ->
    Reachable (tell_exports canonicalize is_dir parse_ip msg s2).2).
  { intros msg s2 Hm Hs2. eapply server_run; [exact Hs2|]. pose proof (step_export (F:=F) canonicalize is_dir export_vfs parse_ip parse_socket getpwnam getgrnam
      msg s2 Hm) as Hx. unfold tell_exports. by destruct (export_handle_message _ _ _ _ _ _). }
  unfold limits_task. destruct ((0 <? entry_max_ops e) || (0 <? entry_max_bytes e)).
  - rewrite (told_qos (entry_name e) _ s1 _ (lookup_insert_eq _ _ _)). split_and!.
    + erewrite told_access by apply lookup_insert_eq. cbn. by rewrite insert_insert_eq.
    + by erewrite told_access by apply lookup_insert_eq.
    + intros Hs. apply Htell; [done|]. rewrite <-(told_qos (entry_name e) _ s1 _ (lookup_insert_eq _ _ _)). apply Htell; [done|].
      by eapply server_run.
  - split_and!.
    + erewrite told_access by apply lookup_insert_eq. cbn. by rewrite insert_insert_eq.
    + by erewrite told_access by apply lookup_insert_eq.
    + intros Hs. apply Htell; [done|]. by eapply server_run.
Qed.
(** The tasks of several entries, the latest first. *)
Fixpoint limits_tasks (id : Z) (es : list ExportEntry) : list QosTask :=
  match es with [] => [] | e :: es => limits_tasks (id + 1) es ++ limits_task id e end.

(** Entries that can all become exports, from an id on, beside those of a table. *)
Definition entries_fit (t : ExportManager ManagerHandle) (es : list ExportEntry) : Prop :=
  Forall (fun e => (exists canonical mode, entry_fits e canonical mode) /\ exports t !! entry_name e = None) es /\
  NoDup (entry_name <$> es) /\ (next_export_id t + Z.of_nat (length es) <= 0xFE).

Definition becomes (id : Z) (es : list ExportEntry) (nm : string) (st : ExportState ManagerHandle) : Prop :=
  exists i e canonical mode, es !! i = Some e /\ entry_name e = nm /\ entry_fits e canonical mode /\
    st = state_of (id + Z.of_nat i) canonical mode e.

Lemma becomes_cons id e es nm st :
  becomes id (e :: es) nm st <->
  (exists canonical mode, entry_name e = nm /\ entry_fits e canonical mode /\ st = state_of id canonical mode e) \/ becomes (id + 1) es nm st.
Proof.
  split.
  - intros ([|i] & e' & c & m & Hl & Hn & Hf & ->); [left|right].
    + injection Hl as <-. exists c, m. by rewrite Z.add_0_r.
    + exists i, e', c, m. split_and!; [done..|]. f_equal; lia.
  - intros [(c & m & Hn & Hf & ->)|(i & e' & c & m & Hl & Hn & Hf & ->)].
    + exists 0%nat, e, c, m. by rewrite Z.add_0_r.
    + exists (S i), e', c, m. split_and!; [done..|]. f_equal; lia.
Qed.

Lemma entries_fit_cons (t : ExportManager ManagerHandle) e es id st m2 :
  next_export_id t = id -> 1 <= id ->
  ((exists canonical mode, entry_fits e canonical mode) /\ exports t !! entry_name e = None /\ id < 0xFE) ->
  entries_fit t (e :: es) <-> entries_fit (MkExportManager (<[entry_name e := st]> (exports t)) m2 (wrap 8 (id + 1))) es.
Proof.
  intros <- Hid (Hf & Hn & Hlt). unfold entries_fit. cbn [exports next_export_id length fmap list_fmap].
  rewrite Forall_cons, NoDup_cons. unwrap. rewrite !Forall_forall. split.
  - intros ((_ & Ha) & (Hx & Hd) & Hl). split_and!; [|done|lia]. intros e' He'. split; [by apply Ha|].
    rewrite lookup_insert_ne; [by apply Ha|]. intros Heq. apply Hx. rewrite Heq. by apply list_elem_of_fmap_2.
  - intros (Ha & Hd & Hl). split_and!; [done|done| | |done|lia].
    + intros e' He'. destruct (Ha e' He') as [Hf' [Hn' _]%lookup_insert_None]. done.
    + intros (e' & Heq & He')%list_elem_of_fmap_1. destruct (Ha e' He') as [_ [_ Hne]%lookup_insert_None]. done.
Qed.

Lemma register_all_ok es : forall s : Srv, 1 <= next_export_id (table s) <= 0xFE ->
  match registers_all (zip es (flavors_of <$> es)) s with
  | Ok s' =>
    entries_fit (table s) es /\
    (forall nm st, exports (table s') !! nm = Some st <-> exports (table s) !! nm = Some st \/ becomes (next_export_id (table s)) es nm st) /\
    next_export_id (table s') = next_export_id (table s) + Z.of_nat (length es) /\
    qos_tasks s' = limits_tasks (next_export_id (table s)) es ++ qos_tasks s /\ (Reachable s -> Reachable s')
  | Err _ => ~ entries_fit (table s) es
  end.
Proof.
  induction es as [|e es IH]; intros s Hn; cbn [zip zip_with fmap list_fmap register_all].
  - split; [split_and!; [done|constructor|cbn; lia]|]. split; [|split_and!; [cbn; lia|done|done]].
    intros nm st. split; [by left|]. intros [?|(i & ? & ? & ? & ? & _)]; [done|]. by rewrite lookup_nil in *.
  - pose proof (register_ok e s) as R. destruct (registers e (flavors_of e) s) as [s1|x]; cbn [result_bind].
    2: { intros (Ha & _ & Hl). apply R. apply Forall_cons in Ha as [[? ?] _]. cbn in Hl. split_and!; [done|done|lia]. }
    destruct R as (c & m & Hf & Hx & Hlt & R). cbv zeta in R. destruct R as (Et & Eq & Hr).
    assert (En : next_export_id (table s1) = next_export_id (table s) + 1) by (rewrite Et; cbn; unwrap; lia).
    pose proof (entries_fit_cons (table s) e es _ (state_of (next_export_id (table s)) c m e) (<[next_export_id (table s) := entry_name e]> (export_by_id (table s)))
      eq_refl ltac:(lia) ltac:(by split; [do 2 eexists|])) as Hfit. rewrite <-Et in Hfit.
    specialize (IH s1 ltac:(lia)). destruct (registers_all _ s1) as [s2|x]; [|by rewrite Hfit].
    destruct IH as (H1 & H2 & H3 & H4 & H5). split; [by apply Hfit|]. split_and!; [|rewrite H3, En; cbn; lia| |tauto].
    + intros nm st. rewrite H2, En, Et, becomes_cons. cbn [exports]. rewrite lookup_insert_Some. split.
      * intros [[[<- <-]|[_ ?]]|?]; [right; left; by exists c, m|by left|by right; right].
      * intros [Hs|[(c' & m' & <- & Hf' & ->)|?]]; [|left; left|by right].
        -- left. right. split; [|done]. intros <-. congruence.
        -- split; [done|]. destruct Hf as (? & ? & ?), Hf' as (? & ? & ?). congruence.
    + rewrite H4, Eq, En. cbn [limits_tasks]. by rewrite <-app_assoc.
Qed.

(** ** The start *)

Variable read_file : string -> option (list byte).
Variable create_dir_all : string -> bool.
Variable tls_ready : string -> string -> bool.

(** What has to hold for a start. *)
Record start_fits (st : Settings) : Prop := MkStartFits {
  fit_flavors : Forall (flavors_fit (set_keytab st)) (set_exports st);
  fit_paths e : e ∈ set_exports st -> exists canonical mode, entry_fits e canonical mode;
  fit_names : NoDup (entry_name <$> set_exports st);
  fit_number : (length (set_exports st) <= 253)%nat;
  fit_state_dir d : set_state_dir st = Some d -> create_dir_all d = true;
  fit_keytab path : set_keytab st = Some path ->
    exists k e, Keytab_load read_file path = Some k /\ e ∈ KrbKeytab.entries k /\ is_Some (KeytabEntry_enctype e);
  fit_tls c k : set_tls_cert st = Some c -> set_tls_key st = Some k -> tls_ready c k = true
}.

Lemma empty_entries_fit es :
  entries_fit empty_exports es <->
  (forall e, e ∈ es -> exists canonical mode, entry_fits e canonical mode) /\ NoDup (entry_name <$> es) /\ (length es <= 253)%nat.
Proof.
  unfold entries_fit. cbn [empty_exports exports next_export_id]. rewrite Forall_forall. split.
  - intros (Ha & Hd & Hl). split_and!; [|done|lia]. intros e He. by apply Ha.
  - intros (Ha & Hd & Hl). split_and!; [|done|lia]. intros e He. split; [by apply Ha|done].
Qed.

Lemma gss_of_ok path maps :
  match gss_of read_file path maps with
  | Ok _ => exists k e, Keytab_load read_file path = Some k /\ e ∈ KrbKeytab.entries k /\ is_Some (KeytabEntry_enctype e)
  | Err _ => ~ exists k e, Keytab_load read_file path = Some k /\ e ∈ KrbKeytab.entries k /\ is_Some (KeytabEntry_enctype e)
  end.
Proof.
  unfold gss_of. destruct (Keytab_load read_file path) as [k|]; [|by intros (? & ? & ? & _)].
  destruct (filter _ (KrbKeytab.entries k)) as [|e l] eqn:Ef; cbn [length Nat.eqb].
  - intros (k' & e & [= <-] & He & Hk). assert (Hin : e ∈ filter (fun e => is_Some (KeytabEntry_enctype e)) (KrbKeytab.entries k))
      by (by apply list_elem_of_filter). rewrite Ef in Hin. by apply not_elem_of_nil in Hin.
  - exists k, e. assert (Hin : e ∈ filter (fun e => is_Some (KeytabEntry_enctype e)) (KrbKeytab.entries k)) by (rewrite Ef; by left).
    apply list_elem_of_filter in Hin as [Hk He]. done.
Qed.

#[local] Abbreviation starts_up := (start_up (L:=L) (H:=H) (M:=M) canonicalize is_dir export_vfs parse_ip epoch read_file create_dir_all tls_ready).

Lemma start_up_ok st (o : O) :
  match starts_up st o with
  | Ok n =>
    start_fits st /\ (forall nm x, exports (table (core n)) !! nm = Some x <-> becomes 1 (set_exports st) nm x) /\
    qos_tasks (core n) = limits_tasks 1 (set_exports st) /\ (gss n = None <-> set_keytab st = None) /\ Reachable (core n)
  | Err _ => ~ start_fits st
  end.
Proof.
  unfold start_up. pose proof (export_sec_ok (set_keytab st) (set_exports st)) as Hsec.
  destruct (export_sec _ _) as [secs|x]; cbn [result_bind]; [|intros Hf; by apply Hsec, fit_flavors]. destruct Hsec as [Hsec ->].
  pose proof (register_all_ok (set_exports st) (Server.start o ClientManager.new (Some Sessions.new)) ltac:(done)) as R.
  destruct (registers_all _ _) as [s|x]; cbn [result_bind].
  2: { intros Hf. apply R, empty_entries_fit. split_and!; [apply fit_paths|apply fit_names|apply fit_number]; done. }
  destruct R as (He%empty_entries_fit & R1 & _ & R2 & R3). destruct He as (He1 & He2 & He3).
  assert (Hr : Reachable s) by (apply R3, server_start; [constructor|by intros ? [= <-]]).
  destruct (set_state_dir st) as [d|] eqn:Ed; [destruct (create_dir_all d) eqn:Ec|]; cbn [result_bind];
    [|intros Hf; apply (fit_state_dir _ Hf) in Ed; congruence|].
  all: destruct (set_keytab st) as [path|] eqn:Ek;
    [pose proof (gss_of_ok path (set_krb5_map st)) as Hg; destruct (gss_of read_file path (set_krb5_map st)) as [g|x]|];
    cbn [result_bind]; [|intros Hf; by apply Hg, (fit_keytab _ Hf)|].
  all: destruct (set_tls_cert st) as [c|] eqn:Et; [destruct (set_tls_key st) as [k|] eqn:Et2; [destruct (tls_ready c k) eqn:Et3|]|];
    cbn [result_bind]; try (intros Hf; pose proof (fit_tls _ Hf _ _ Et Et2); congruence).
  all: cbn [core gss].
  all: (split; [|split_and!; [by intros nm x; rewrite (R1 nm x); split; [intros [?|?]|right]|by rewrite R2, app_nil_r|done|done]]).
  all: split; rewrite ?Ek; try done; intros; simplify_eq; try done.
Qed.

Variable load_config : string -> option Config.

(** C34: The server starts exactly when every security flavour of an entry is known and one
    of Kerberos has a keytab, every path leads to a directory and every squash mode is
    known, no two entries have the same name, there are at most 253, and the state
    directory, the keytab and the TLS files are what they should be. Its exports are then
    those of the settings and no others, the first under id 1 and so on in their order,
    each on its canonical path and with its own clients, squashing and flavours; the
    limits are on their way, RPCSEC_GSS is served exactly if there is a keytab, and the
    server is a reachable one. *)
Theorem start_exact args st (o : O) :
  settings load_config args = Some st ->
  let started := run_server (L:=L) (H:=H) (M:=M) canonicalize is_dir export_vfs parse_ip epoch load_config read_file create_dir_all
                   tls_ready args o in
  ((exists n, started = Ok n) <-> start_fits st) /\
  forall n, started = Ok n ->
    (forall nm x, exports (table (core n)) !! nm = Some x <-> becomes 1 (set_exports st) nm x) /\
    qos_tasks (core n) = limits_tasks 1 (set_exports st) /\ (gss n = None <-> set_keytab st = None) /\ Reachable (core n).
Proof.
  intros Es. cbv zeta. unfold run_server. rewrite Es. pose proof (start_up_ok st o) as Hst.
  destruct (starts_up st o) as [n|x].
  - destruct Hst as [Hf Hst]. split; [split; [done|by eexists]|]. by intros n' [= <-].
  - split; [|done]. split; [by intros [? ?]|done].
Qed.
End StartSpec.
