(* ===== verification/Api.v ===== *)
(** * The REST interface ([src/src/api.rs])

    Its handlers on the composed server, with the status and the content of their answers;
    routing, JSON and the pages of the web interface are left out. The answer to a query
    for an export's limits waits for the export's task. *)

From S2P Require Import Prelude NfsTypes Rpc MultiIndex Locking FileManager F64 RateLimiter Export ClientManager Request.
From S2P Require Import Handle OpsState OpsAttr Ops41 Execute Server ServerProps Startup StartupSpec.
From S2P Require Sessions.
From stdpp Require Import base list gmap strings.
From Stdlib Require Import Strings.Byte ZArith Lia.
#[local] Open Scope Z_scope.

Record ExportResponse : Type := MkExportResponse {
  resp_name : string; resp_path : string; resp_read_only : bool; resp_export_id : Z; resp_stats : ExportStats
}.

(** An error of [add_export] is [None] when the export manager is gone. *)
Inductive Body : Type :=
| NoBody
| HealthBody (status : string) (exports : nat)
| ExportsBody (l : list ExportResponse)
| AddedBody (nm path : string) (ro : bool) (id : Z)
| StatsBody (totals : ExportStats) (l : list ExportResponse)
| ExportBody (e : ExportResponse)
| QosBody (c : QosConfig)
| ErrorBody (e : option ExportError).

Inductive ApiAnswer : Type :=
| Answer (status : Z) (body : Body)
| Awaits (x : Z).

Inductive ApiRequest : Type :=
| Health
| ListRequest
| AddRequest (nm path : string) (ro : bool)
| RemoveRequest (nm : string)
| StatsRequest
| ExportStatsRequest (nm : string)
| QosRequest (nm : string)
| SetQosRequest (nm : string) (c : QosConfig).

(** [+=] on [u64]s, as a release build has it. *)
Definition add_stats (a b : ExportStats) : ExportStats :=
  MkExportStats (wrap 64 (reads a + reads b)) (wrap 64 (writes a + writes b)) (wrap 64 (bytes_read a + bytes_read b))
    (wrap 64 (bytes_written a + bytes_written b)) (wrap 64 (ops a + ops b)).

Section Api.
Context {O P C L H M F : Type}.
Context `{V : !Vfs O P C} `{ML : !MultiIndex LockingState L lock_clash}
        `{MH : !MultiIndex (Filehandle P C) H fh_clash} `{CW : !ClientWorld O}
        `{MC : !MultiIndex ClientEntry M client_clash} `{IO : !FileIo O P F} `{OUT : !Outside O P C}.
Variable canonicalize : string -> option string.
Variable is_dir : string -> bool.
Variable export_vfs : string -> P.
Variable parse_ip : string -> option IpAddr.
Variable epoch : O -> Z.
#[local] Abbreviation Srv := (Server O P C L H M).
#[local] Abbreviation tells := (tell_exports canonicalize is_dir parse_ip).

Definition export_response (s : Srv) (e : ExportInfo) : ExportResponse :=
  MkExportResponse (Export.name e) (export_path e) (Export.read_only e) (Export.export_id e) (stats_of s (Export.export_id e)).

Definition health (s : Srv) : ApiAnswer := Answer 200 (HealthBody "ok" (length (list_exports s))).
Definition api_list_exports (s : Srv) : ApiAnswer := Answer 200 (ExportsBody (map (export_response s) (list_exports s))).

Definition api_add_export (nm path : string) (ro : bool) (s : Srv) : ApiAnswer * Srv :=
  match server_add_export canonicalize is_dir export_vfs epoch nm path ro s with
  | (Ok i, s) => (Answer 201 (AddedBody (Export.name i) (export_path i) (Export.read_only i) (Export.export_id i)), s)
  | (Err e, s) => (Answer 400 (ErrorBody e), s)
  end.

Definition api_remove_export (nm : string) (s : Srv) : ApiAnswer * Srv :=
  match tells (RemoveExport nm) s with
  | (Done (Err e), s) => (Answer 404 (ErrorBody (Some e)), s)
  | (_, s) => (Answer 204 NoBody, s)
  end.

Definition server_stats (s : Srv) : ApiAnswer :=
  let l := map (export_response s) (list_exports s) in
  Answer 200 (StatsBody (foldl add_stats ExportStats_new (map resp_stats l)) l).

Definition api_export_stats (nm : string) (s : Srv) : ApiAnswer :=
  match list_find (fun e => Export.name e = nm) (list_exports s) with
  | Some (_, e) => Answer 200 (ExportBody (export_response s e))
  | None => Answer 404 (ErrorBody (Some (Export.NotFound nm)))
  end.

Definition api_get_qos (nm : string) (s : Srv) : ApiAnswer * Srv :=
  match tells (GetQos nm) s, get_export_by_name (table s) nm with
  | (AnsweredByTask, s), Some (i, _) => (Awaits (Export.export_id i), s)
  | (_, s), _ => (Answer 404 (ErrorBody (Some (Export.NotFound nm))), s)
  end.

(** What the task of [get_qos] sends when it has the limiter's lock. *)
Definition qos_answer (x : Z) (s : Srv) : ApiAnswer :=
  Answer 200 (QosBody (qos_config (limiter_of s (now (outside_world s)).1 x))).

Definition api_set_qos (nm : string) (c : QosConfig) (s : Srv) : ApiAnswer * Srv :=
  match tells (SetQos nm c) s with
  | (Done (Err e), s) => (Answer 404 (ErrorBody (Some e)), s)
  | (_, s) => (Answer 200 NoBody, s)
  end.

Definition api_handle (req : ApiRequest) (s : Srv) : ApiAnswer * Srv :=
  match req with
  | Health => (health s, s)
  | ListRequest => (api_list_exports s, s)
  | AddRequest nm path ro => api_add_export nm path ro s
  | RemoveRequest nm => api_remove_export nm s
  | StatsRequest => (server_stats s, s)
  | ExportStatsRequest nm => (api_export_stats nm s, s)
  | QosRequest nm => api_get_qos nm s
  | SetQosRequest nm c => api_set_qos nm c s
  end.
End Api.

(** ** What the requests come to *)

Section ApiSpec.
Context {O P C L H M F : Type}.
Context `{V : !Vfs O P C} `{ML : !MultiIndex LockingState L lock_clash}
        `{MH : !MultiIndex (Filehandle P C) H fh_clash} `{CW : !ClientWorld O}
        `{MC : !MultiIndex ClientEntry M client_clash} `{IO : !FileIo O P F} `{OUT : !Outside O P C}.
Variable canonicalize : string -> option string.
Variable is_dir : string -> bool.
Variable export_vfs : string -> P.
Variable parse_ip parse_socket : string -> option IpAddr.
Variable getpwnam getgrnam : string -> option Z.
Variable epoch : O -> Z.
Hypothesis memory_root_path : path_of memory_root = "/"%string.
#[local] Abbreviation Srv := (Server O P C L H M).
#[local] Abbreviation Reachable :=
  (server_reachable (F:=F) canonicalize is_dir export_vfs parse_ip parse_socket getpwnam getgrnam).
#[local] Abbreviation handles := (api_handle canonicalize is_dir export_vfs parse_ip epoch).
#[local] Abbreviation tells := (tell_exports canonicalize is_dir parse_ip).

(** A request for one export that leaves a task behind, or finds no such export. *)
Lemma told_missing msg nm (s : Srv) :
  msg = RemoveExport nm \/ (exists c, msg = SetQos nm c) -> exports (table s) !! nm = None -> tells msg s = (Done (Err (Export.NotFound nm)), s).
Proof.
  intros Hm En. unfold tell_exports.
  destruct Hm as [->|[c ->]]; cbn [export_handle_message qos_task]; unfold remove_export; rewrite En; cbn; by destruct s.
Qed.

Lemma told_reachable msg (s : Srv) : (forall nm path ro, msg <> AddExport nm path ro) -> Reachable s -> Reachable (tells msg s).2.
Proof.
  intros Hm Hs. eapply server_run; [exact Hs|].
  pose proof (step_export (F:=F) canonicalize is_dir export_vfs parse_ip parse_socket getpwnam getgrnam msg s Hm) as Hx.
  unfold tell_exports. by destruct (export_handle_message _ _ _ _ _ _).
Qed.

Lemma added nm path ro (s : Srv) :
  Reachable s ->
  match server_add_export canonicalize is_dir export_vfs epoch nm path ro s with
  | (Ok i, s') =>
    Reachable s' /\ canonicalize path = Some (export_path i) /\ is_dir (export_path i) = true /\ exports (table s) !! nm = None /\
    i = MkExportInfo (next_export_id (table s)) nm (export_path i) ro (MkQuotaManager (MkQuotaConfig 0 0) 0) (MkAccessControl default_access_config []) /\
    exports (table s') = <[nm := MkExportState i (MkManagerHandle (Export.export_id i) (export_path i))]> (exports (table s)) /\
    clients s' = clients s /\ session_table s' = session_table s /\ stats s' = stats s /\ limiters s' = limiters s /\ qos_tasks s' = qos_tasks s
  | (Err e, s') => s' = s /\ e <> None
  end.
Proof.
  intros Hs. unfold server_add_export. destruct (add_export _ _ _ _ _ _ _) as [[i|x] t] eqn:Ea; [|done].
  destruct (manager_made (export_vfs (export_path i)) (Some (Export.export_id i)) (export_path i) (epoch (outside_world s)) (outside_world s))
    as (fm & o & En). rewrite En. split.
  { eapply server_run; [exact Hs|]. by eapply (step_add_export (F:=F) canonicalize is_dir export_vfs parse_ip parse_socket getpwnam getgrnam). }
  unfold add_export in Ea. destruct (exports (table s) !! nm) eqn:Ef; [done|]. destruct (0xFE <=? next_export_id (table s)); [done|].
  destruct (canonicalize path) as [c|]; [|done]. destruct (is_dir c) eqn:Ed; [|done]. cbn [negb] in Ea. by injection Ea as <- <-.
Qed.

Lemma told_qos_missing nm (s : Srv) : exports (table s) !! nm = None -> tells (GetQos nm) s = (Qos None, s).
Proof. intros En. unfold tell_exports. cbn [export_handle_message qos_task]. rewrite En. cbn. by destruct s. Qed.

Lemma told_qos_present nm (s : Srv) st : exports (table s) !! nm = Some st ->
  tells (GetQos nm) s = (AnsweredByTask, set_qos_tasks s (AnswerQos (Export.export_id (info st)) :: qos_tasks s)) /\
  forall c, tells (SetQos nm c) s = (Done (Ok tt), set_qos_tasks s (UpdateQos (Export.export_id (info st)) c :: qos_tasks s)).
Proof. intros En. unfold tell_exports. cbn [export_handle_message qos_task]. rewrite En. split; intros; cbn; by destruct s. Qed.

(** Limits that were set are the ones a later query gets, once the tasks have run. *)
Lemma limits_set_then_read x c (s : Srv) : qos_answer x (run_qos_task (UpdateQos x c) s) = Answer 200 (QosBody c).
Proof.
  unfold qos_answer, run_qos_task. destruct (now (outside_world s)) as [t o]. unfold limiter_of. cbn. by rewrite lookup_insert_eq.
Qed.

Lemma named_export nm (s : Srv) :
  table_ok is_dir MkManagerHandle (table s) ->
  is_Some (list_find (fun e => Export.name e = nm) (list_exports s)) <-> is_Some (exports (table s) !! nm).
Proof.
  intros Hok. destruct (list_find _ _) as [[i e]|] eqn:E.
  - split; [intros _|by eexists]. apply list_find_Some in E as (Hl & <- & _). apply list_elem_of_lookup_2 in Hl.
    cbn in Hl. apply list_elem_of_fmap in Hl as ([nm st] & -> & Hin%elem_of_map_to_list). cbn [snd].
    rewrite (proj1 (ok_by_name _ _ _ Hok _ _ Hin)). by eexists.
  - split; [by intros [? ?]|]. intros [st Hst]. apply list_find_None in E. exfalso.
    apply (proj1 (Forall_forall _ _) E (info st)); [|by apply (ok_by_name _ _ _ Hok)].
    cbn. apply list_elem_of_fmap. exists (nm, st). split; [done|]. by apply elem_of_map_to_list.
Qed.

(** C35: A request changes the export table and the tasks for the limits at most, and by
    the right status: an export is added under a fresh id, with the access of a new export
    (any client, no Kerberos, root squashed), or refused for a reason and nothing changes;
    one that is there is removed or gets a task for its limits; one that is not is
    answered 404 and nothing changes; the other requests only read. Clients, sessions,
    counters and limiters stay, and the server is a reachable one. *)
Theorem api_exact req (s : Srv) a s' :
  Reachable s -> handles req s = (a, s') ->
  Reachable s' /\ clients s' = clients s /\ session_table s' = session_table s /\ stats s' = stats s /\ limiters s' = limiters s /\
  match req with
  | AddRequest nm path ro =>
    (exists i, a = Answer 201 (AddedBody nm (export_path i) ro (Export.export_id i)) /\ canonicalize path = Some (export_path i) /\
       is_dir (export_path i) = true /\ exports (table s) !! nm = None /\ Export.export_id i = next_export_id (table s) /\
       Export.access_control i = MkAccessControl (MkAccessConfig [] RootSquash 65534 65534 [Sys]) [] /\
       exports (table s') = <[nm := MkExportState i (MkManagerHandle (Export.export_id i) (export_path i))]> (exports (table s))) \/
    (exists e, a = Answer 400 (ErrorBody (Some e)) /\ s' = s)
  | RemoveRequest nm =>
    match exports (table s) !! nm with
    | Some _ => a = Answer 204 NoBody /\ exports (table s') = delete nm (exports (table s))
    | None => a = Answer 404 (ErrorBody (Some (Export.NotFound nm))) /\ s' = s
    end
  | QosRequest nm =>
    match exports (table s) !! nm with
    | Some x => a = Awaits (Export.export_id (info x)) /\ s' = set_qos_tasks s (AnswerQos (Export.export_id (info x)) :: qos_tasks s)
    | None => a = Answer 404 (ErrorBody (Some (Export.NotFound nm))) /\ s' = s
    end
  | SetQosRequest nm c =>
    match exports (table s) !! nm with
    | Some x => a = Answer 200 NoBody /\ s' = set_qos_tasks s (UpdateQos (Export.export_id (info x)) c :: qos_tasks s)
    | None => a = Answer 404 (ErrorBody (Some (Export.NotFound nm))) /\ s' = s
    end
  | ExportStatsRequest nm =>
    s' = s /\ ((exists e, Export.name e = nm /\ a = Answer 200 (ExportBody (export_response s e))) <-> is_Some (exports (table s) !! nm))
  | Health => s' = s /\ a = Answer 200 (HealthBody "ok" (size (exports (table s))))
  | ListRequest | StatsRequest => s' = s
  end.
Proof.
  intros Hs E. pose proof (reachable_ok (F:=F) canonicalize is_dir export_vfs parse_ip parse_socket getpwnam getgrnam memory_root_path s Hs) as [_ _ _ Hok].
  destruct req as [| |nm path ro|nm| |nm|nm|nm c]; cbn [api_handle] in E.
  - injection E as <- <-. split_and!; try done. unfold health. cbn. by rewrite length_map, length_map_to_list.
  - by injection E as <- <-.
  - pose proof (added nm path ro s Hs) as A. unfold api_add_export in E. destruct (server_add_export _ _ _ _ _ _ _ _) as [[i|x] s1].
    + injection E as <- <-. destruct A as (Hr & Hc & Hd & Hn & Hi & He & H1 & H2 & H3 & H4 & _). split_and!; try done. left. exists i.
      split_and!; try done; by rewrite Hi.
    + injection E as <- <-. destruct A as [-> Hx]. destruct x as [e|]; [|done]. split_and!; try done. right. by exists e.
  - unfold api_remove_export in E. destruct (exports (table s) !! nm) as [st|] eqn:En.
    + pose proof (told_reachable (RemoveExport nm) s ltac:(done) Hs) as Hr. unfold tell_exports in *. cbn [export_handle_message qos_task] in *.
      unfold remove_export in *. rewrite En in *. cbn in E, Hr. by injection E as <- <-.
    + rewrite (told_missing _ nm s (or_introl eq_refl) En) in E. by injection E as <- <-.
  - by injection E as <- <-.
  - injection E as <- <-. split_and!; try done. rewrite <-(named_export nm s Hok). unfold api_export_stats. destruct (list_find _ _) as [[i e]|] eqn:El.
    + apply list_find_Some in El as (_ & Hn & _). split; [by eexists|]. intros _. by exists e.
    + split; [by intros (? & _ & ?)|by intros [? ?]].
  - unfold api_get_qos in E. unfold get_export_by_name in E. destruct (exports (table s) !! nm) as [st|] eqn:En.
    + pose proof (told_reachable (GetQos nm) s ltac:(done) Hs) as Hr. rewrite (proj1 (told_qos_present nm s st En)) in *. by injection E as <- <-.
    + rewrite (told_qos_missing nm s En) in E. by injection E as <- <-.
  - unfold api_set_qos in E. destruct (exports (table s) !! nm) as [st|] eqn:En.
    + pose proof (told_reachable (SetQos nm c) s ltac:(done) Hs) as Hr. rewrite (proj2 (told_qos_present nm s st En)) in *. by injection E as <- <-.
    + rewrite (told_missing (SetQos nm c) nm s (or_intror (ex_intro _ c eq_refl)) En) in E. by injection E as <- <-.
Qed.
End ApiSpec.
