(* ===== verification/StartupDemo.v ===== *)
(** * Starts of the server of [Demo] *)

From S2P Require Import Prelude NfsTypes Xdr Rpc MultiIndex Locking FileManager F64 RateLimiter Export ClientManager.
From S2P Require Import Request Perm Compound Handle Execute Server Demo ServerProps KrbCrypto KrbKeytab Gss Startup StartupSpec Api.
From S2P Require Sessions.
From stdpp Require Import base list gmap strings.
From Stdlib Require Import Strings.Byte ZArith Lia.
#[local] Open Scope Z_scope.

(** [Path::file_name] of some paths. *)
Example file_names :
  map file_name ["/export"; "/srv/data/"; "/srv/data/."; "a/.."; "/"; "."; "./a"; "//x//y"]%string
  = [Some "export"; Some "data"; Some "data"; None; None; None; Some "a"; Some "y"]%string.
Proof. by vm_compute. Qed.

Definition demo_entries : list ExportEntry :=
  [MkExportEntry "secure" "/srv/secure" true 0 0 ["10.0.0.0/8"] "none" 65534 65534 ["krb5p"; "krb5i"];
   MkExportEntry "plain" "/srv/plain" false 100 0 [] "" 65534 65534 []]%string.
Definition demo_config : Config :=
  MkConfig (MkServerConfig "10.0.0.1:2049" default_api_listen (Some "/var/lib/nextnfs") None None None None (Some "/etc/krb5.keytab")
      [MkKrb5Map "alice@EXAMPLE.LO" 1001 1001 [10]])%string
    (Some (MkExportConfig "/data/old" false))%string demo_entries.
Definition demo_args (listen : string) : Cli := MkCli default_export_path listen default_api_listen (Some "nextnfs.toml") None.
Definition demo_files (path : string) : option (list byte) :=
  if bool_decide (path = "/etc/krb5.keytab"%string) then Some (Keytab_to_bytes (MkKeytab [demo_entry])) else None.

Definition demo_settings (cfg : Config) : Settings := merge_settings (demo_args default_listen) (Some cfg).
Definition demo_start (cfg : Config) : result (NFSServer (O:=Disk) (P:=string) (C:=unit) (L:=list LockingState)
    (H:=list (Filehandle string unit)) (M:=list ClientEntry)) Exit :=
  run_server Some every_dir no_vfs no_ip (fun _ => 1) (fun _ => Some cfg) demo_files every_dir (fun _ _ => true) (demo_args default_listen) empty_disk.

(** What the command line says about the address does not count when it says the default. *)
Example addresses :
  set_listen (demo_settings demo_config) = "10.0.0.1:2049"%string /\
  set_listen (merge_settings (demo_args "127.0.0.1:20490") (Some demo_config)) = "127.0.0.1:20490"%string.
Proof. done. Qed.

(** The old entry is first; the exports, their squashing and their flavours. *)
Definition table_of_start (cfg : Config) : result (list (string * (Z * string * SquashMode * list SecFlavor))) Exit :=
  match demo_start cfg with
  | Ok n => Ok (map (fun p => let i := info p.2 in let c := access_config (Export.access_control i) in
      (p.1, (Export.export_id i, export_path i, squash c, sec c))) (map_to_list (exports (table (core n)))))
  | Err e => Err e
  end.

Example exports_of_start :
  table_of_start demo_config = Ok [("old", (1, "/data/old", RootSquash, [Sys]));
    ("secure", (2, "/srv/secure", SquashNone, [Krb5p; Krb5i])); ("plain", (3, "/srv/plain", RootSquash, [Sys]))]%string.
Proof. vm_compute. reflexivity. Qed.

(** Without the keytab, and with an old entry whose directory has the name of another
    export, the server does not start. *)
Definition with_keytab (k : option string) (cfg : Config) : Config :=
  MkConfig (MkServerConfig (listen (server cfg)) (api_listen (server cfg)) (state_dir (server cfg)) None None None None k [])
    (export cfg) (entries cfg).
Example no_keytab : table_of_start (with_keytab None demo_config) = Err (KeytabNotSet "secure").
Proof. vm_compute. reflexivity. Qed.

Example clashing_name :
  table_of_start (MkConfig (server demo_config) (Some (MkExportConfig "/data/plain" false)) demo_entries)
  = Err (AddFailed "plain" (Some (Export.AlreadyExists "plain"))).
Proof. vm_compute. reflexivity. Qed.

(** ** Witnesses *)

Definition started : NFSServer (O:=Disk) (P:=string) (C:=unit) (L:=list LockingState)
    (H:=list (Filehandle string unit)) (M:=list ClientEntry) :=
  match demo_start demo_config with
  | Ok n => n
  | Err _ => MkNFSServer "" "" one_export None None None
  end.

Lemma demo_started : demo_start demo_config = Ok started.
Proof. vm_compute. reflexivity. Qed.

Lemma start_exact_witness :
  settings (fun _ => Some demo_config) (demo_args default_listen) = Some (demo_settings demo_config) /\
  (exists n, demo_start demo_config = Ok n) /\
  ((exists n, demo_start demo_config = Ok n) <-> start_fits Some every_dir demo_files every_dir (fun _ _ => true) (demo_settings demo_config)) /\
  qos_tasks (core started) = [UpdateQos 3 (MkQosConfig 100 0)] /\
  server_reachable (F:=open_handle) Some every_dir no_vfs no_ip no_ip no_name no_name (core started).
Proof.
  pose proof (start_exact (F:=open_handle) Some every_dir no_vfs no_ip no_ip no_name no_name (fun _ => 1) ltac:(by intros p c [= <-]) demo_files
    every_dir (fun _ _ => true) (fun _ => Some demo_config) (demo_args default_listen) (demo_settings demo_config) empty_disk eq_refl) as [H1 H2].
  split; [reflexivity|]. split; [exists started; exact demo_started|]. split; [exact H1|].
  destruct (H2 started demo_started) as (_ & Hq & _ & Hr). split; [rewrite Hq; vm_compute; reflexivity|exact Hr].
Defined.

Lemma api_exact_witness :
  server_reachable (F:=open_handle) Some every_dir no_vfs no_ip no_ip no_name no_name
    (api_handle Some every_dir no_vfs no_ip (fun _ => 1) (AddRequest "b" "/b" true) one_export).2 /\
  (api_handle Some every_dir no_vfs no_ip (fun _ => 1) (AddRequest "b" "/b" true) one_export).1 = Answer 201 (AddedBody "b" "/b" true 2).
Proof.
  destruct (api_handle Some every_dir no_vfs no_ip (fun _ => 1) (AddRequest "b" "/b" true) one_export) as [a s'] eqn:E.
  pose proof (api_exact (F:=open_handle) Some every_dir no_vfs no_ip no_ip no_name no_name (fun _ => 1) demo_memory_root _ _ _ _
    one_export_reachable E) as (Hr & _). split; [exact Hr|].
  change a with (a, s').1. rewrite <-E. vm_compute. reflexivity.
Defined.
