(* ===== verification/Service.v ===== *)
(** * RPC service and connections ([nfs/src/server/mod.rs], [nfs/src/lib.rs])

    [service_call] is [NFSService::call]. A connection is a task that takes one message
    after the other off its socket: the decoder, RPCSEC_GSS, the call, the protection of
    the reply, the encoder; [phase] says what comes next. [receive_turn] and [answer_turn]
    share the RPCSEC_GSS server with the other tasks, which each of them locks once. A call
    shares the file server, and awaits others at every action: [call_turn] is its next
    action, or its end. A call in progress is what it has seen ([Interleave]): running it on
    the states it has read and acted in so far tells what it does now. *)

From S2P Require Import Prelude NfsTypes Xdr Rpc MultiIndex Locking FileManager Export ClientManager Request.
From S2P Require Import Handle Execute Server Interleave KrbCrypto KrbAcceptor Gss.
From stdpp Require Import base list gmap strings.
From Stdlib Require Import Strings.Byte ZArith Lia.
#[local] Open Scope Z_scope.

(** [NFS40Server::null] *)
Definition null : ReplyBody := MsgAccepted (MkAcceptedReply (AuthNull []) (Success (MkCompound4res Nfs4Ok "" []))).

Definition plain_reply (xid : Z) (body : AcceptBody) : RpcReplyMsg :=
  MkRpcReplyMsg xid (MsgAccepted (MkAcceptedReply (AuthNull []) body)).

Section Service.
Context {O P C L H M F : Type}.
Context `{V : !Vfs O P C} `{ML : !MultiIndex LockingState L lock_clash}
        `{MH : !MultiIndex (Filehandle P C) H fh_clash} `{CW : !ClientWorld O}
        `{MC : !MultiIndex ClientEntry M client_clash} `{IO : !FileIo O P F} `{OUT : !Outside O P C}.
Context `{PR : Primitives} `{D : Der}.
Variable parse_ip parse_socket : string -> option IpAddr.
Variable getpwnam getgrnam : string -> option Z.
Variable read_to_string : string -> option string.
Variable compound_args : reader Compound4args.
Variable compound_res : Compound4res -> result (list byte) XdrError.
#[local] Abbreviation Srv := (Server O P C L H M).
#[local] Abbreviation Req := (NfsRequest P C ManagerHandle).
#[local] Abbreviation Cache := (gmap (list byte) (Z * Filehandle P C)).

(** On any world with its COMPOUND; [None] is a panic of an operation. *)
Definition service_call {W} (compound : CallBody -> Req -> W -> option (Req * ReplyBody * W))
    (msg : RpcCallMsg) (r : Req) (s : W) : option (RpcReplyMsg * Req * W) :=
  let xid := call_xid msg in
  match call_body msg with
  | Call call =>
    if negb (prog call =? 100003) then Some (plain_reply xid ProgUnavail, r, s) else
    if negb (vers call =? 4) then Some (plain_reply xid (ProgMismatch (MkMismatchInfo 4 4)), r, s) else
    match cred call with
    | AuthGss _ => Some (MkRpcReplyMsg xid (MsgDenied (AuthError AuthBadCred)), r, s)
    | _ =>
      if proc call =? 0 then Some (MkRpcReplyMsg xid null, r, s) else
      if proc call =? 1 then
        '(r, body, s) ← compound call r s;
        Some (MkRpcReplyMsg xid body, r, s)
      else Some (plain_reply xid ProcUnavail, r, s)
    end
  | ParseError _ => Some (plain_reply xid GarbageArgs, r, s)
  end.

(** ** Connections *)

(** Where the task is: waiting for a message, in a call, about to send its reply;
    [GssReply] is how to protect the reply. A call has read and acted in the states [seen],
    and what it reads for its next action it has [looked] at. *)
Inductive Phase : Type :=
| Reading
| Calling (msg : RpcCallMsg) (info : option GssReply) (seen : list (Srv * Srv)) (looked : option Srv)
| Answering (reply : RpcReplyMsg) (info : option GssReply).

(** The fields of [ConnectionContext] that are the connection's own, its filehandle cache,
    what has arrived and is not yet decoded, and what has been sent. *)
Record Connection : Type := MkConnection {
  conn_addr : string; conn_manager : option ManagerHandle; conn_boot : Z; conn_cache : Cache;
  inbuf : list byte; at_eof : bool; outbuf : list byte; phase : Phase
}.

Definition connect (addr : string) (dfm : option ManagerHandle) (boot : Z) : Connection :=
  MkConnection addr dfm boot ∅ [] false [] Reading.

Definition set_inbuf (c : Connection) (b : list byte) (eof : bool) : Connection :=
  MkConnection (conn_addr c) (conn_manager c) (conn_boot c) (conn_cache c) b eof (outbuf c) (phase c).
Definition set_phase (c : Connection) (p : Phase) : Connection :=
  MkConnection (conn_addr c) (conn_manager c) (conn_boot c) (conn_cache c) (inbuf c) (at_eof c) (outbuf c) p.
Definition set_conn_cache (c : Connection) (x : Cache) : Connection :=
  MkConnection (conn_addr c) (conn_manager c) (conn_boot c) x (inbuf c) (at_eof c) (outbuf c) (phase c).

(** [nfs_transport.send]; a reply that does not encode ends the connection. *)
Definition send (reply : RpcReplyMsg) (c : Connection) : option Connection :=
  match Rpc.encode compound_res reply (outbuf c) with
  | Ok out =>
    Some (MkConnection (conn_addr c) (conn_manager c) (conn_boot c) (conn_cache c) (inbuf c) (at_eof c) out Reading)
  | Err _ => None
  end.

Definition take_message (m : GssMoment) (msg : RpcCallMsg) (c : Connection) (g : option GssServer)
    : option Connection * option GssServer :=
  match call_body msg with
  | ParseError _ => (send (plain_reply (call_xid msg) GarbageArgs) c, g)
  | Call call =>
    match cred call, g with
    | AuthGss _, Some gs =>
      match gss_handle read_to_string compound_args msg m gs with
      | (Reply reply, gs) => (send reply c, Some gs)
      | (Drop, gs) => (Some c, Some gs)
      | (Proceed msg info, gs) => (Some (set_phase c (Calling msg (Some info) [] None)), Some gs)
      end
    | _, _ => (Some (set_phase c (Calling msg None [] None)), g)
    end
  end.

(** The next message, when one is complete; [None] ends the connection: the codec's error,
    or the end of the stream. *)
Definition receive_turn (m : GssMoment) (c : Connection) (g : option GssServer) : option Connection * option GssServer :=
  match (if at_eof c then Rpc.decode_eof compound_args else Rpc.decode compound_args) (inbuf c) with
  | (_, Err _) => (None, g)
  | (buf, Ok None) => if at_eof c then (None, g) else (Some (set_inbuf c buf false), g)
  | (buf, Ok (Some msg)) => take_message m msg (set_inbuf c buf (at_eof c)) g
  end.

Definition request_of (c : Connection) (info : option GssReply) (s : Srv) : Req :=
  let r := new_request (conn_addr c) (conn_manager c) (conn_boot c) (elapsed_secs (clock (outside_world s)) 0)
             (Some (conn_cache c)) in
  match info with Some i => set_sec_flavor r (reply_flavor i) | None => r end.

(** The end of a call. *)
Definition called (c : Connection) (r : Req) (reply : RpcReplyMsg) (info : option GssReply) : Connection :=
  set_phase (set_conn_cache c (default (conn_cache c) (filehandle_cache r))) (Answering reply info).

(** A call from its beginning, on the states it reads and acts in. *)
Definition call_on (msg : RpcCallMsg) (info : option GssReply) (c : Connection) (states : list (Srv * Srv))
    : option (RpcReplyMsg * Req * Among O P C L H M) :=
  match states with
  | [] => None
  | (v, s) :: l =>
    service_call (among_compound (F:=F) parse_ip parse_socket getpwnam getgrnam) msg (request_of c info v) (MkAmong v s l [])
  end.

(** The next action of a call, on [s] and with what it read in [v]; without one, its end.
    [future] is how the server may go on, for an operation that would panic alone. *)
Definition call_turn (msg : RpcCallMsg) (info : option GssReply) (seen : list (Srv * Srv)) (v : Srv)
    (future : list (Srv * Srv)) (c : Connection) (s : Srv) : option (Connection * Srv) :=
  '(reply, r, w) ← call_on msg info c (seen ++ (v, s) :: future);
  Some (match record w !! length seen with
        | Some (_, s') => (set_phase c (Calling msg info (seen ++ [(v, s)]) None), s')
        | None => (called c r reply info, s)
        end).

(** A whole call while no other task runs. *)
Definition call_alone (msg : RpcCallMsg) (info : option GssReply) (c : Connection) (s : Srv) : option (Connection * Srv) :=
  '(reply, r, s) ← service_call (server_compound (F:=F) parse_ip parse_socket getpwnam getgrnam) msg (request_of c info s) s;
  Some (called c r reply info, s).

Definition answer_turn (random : result (list byte) Error) (reply : RpcReplyMsg) (info : option GssReply)
    (c : Connection) (g : option GssServer) : option Connection * option GssServer :=
  match g, info with
  | Some gs, Some i =>
    let '(reply, gs) := wrap_reply compound_res reply i random gs in (send reply c, Some gs)
  | _, _ => (send reply c, g)
  end.

(** ** The process

    The file server, the RPCSEC_GSS server if there is a keytab, and the connections. *)
Record Host : Type := MkHost { nfs : Srv; gss_server : option GssServer; connections : gmap nat Connection }.

Definition set_nfs (h : Host) (s : Srv) : Host := MkHost s (gss_server h) (connections h).
Definition set_connection (id : nat) (c : option Connection) (g : option GssServer) (h : Host) : Host :=
  MkHost (nfs h) g (match c with Some c => <[id := c]> (connections h) | None => delete id (connections h) end).
End Service.
