(* ===== verification/ServiceSpec.v ===== *)
(** * Connections: what clients and the file server can rely on

    On its connection a client gets one reply for every message that RPCSEC_GSS does not
    drop, in the order of the messages and under their ids. And the calls of all
    connections, one action at a time and in whatever order, are steps of the file server,
    so that every state of the process is a reachable one of the file server's own and of
    the RPCSEC_GSS server's own, and every COMPOUND's reply is complete. *)

From S2P Require Import Prelude NfsTypes Xdr Rpc MultiIndex Locking FileManager FileManagerProofs FileManagerSpec.
From S2P Require Import Export ClientManager ClientManagerSpec Request Perm Compound Handle OpsState OpsAttr.
From S2P Require Import OpsFile OpsDir Ops41 Execute OpsContract OpsSound Server ServerSpec ServerProps Interleave.
From S2P Require Import KrbCrypto KrbCryptoSpec KrbToken KrbKeytab KrbAcceptor Gss GssSpec Service.
From stdpp Require Import base list gmap strings.
From Stdlib Require Import Strings.Byte ZArith Lia.
#[local] Open Scope Z_scope.

Section ServiceSpec.
Context {O P C L H M F : Type}.
Context `{V : !Vfs O P C} `{ML : !MultiIndex LockingState L lock_clash}
        `{MH : !MultiIndex (Filehandle P C) H fh_clash} `{CW : !ClientWorld O}
        `{MC : !MultiIndex ClientEntry M client_clash} `{IO : !FileIo O P F} `{OUT : !Outside O P C}.
Context `{HPR : PrimitivesOk} `{D : Der}.
Variable parse_ip parse_socket : string -> option IpAddr.
Variable getpwnam getgrnam : string -> option Z.
Variable read_to_string : string -> option string.
Variable compound_args : reader Compound4args.
Variable compound_res : Compound4res -> result (list byte) XdrError.
#[local] Abbreviation Srv := (Server O P C L H M).
#[local] Abbreviation Conn := (Connection (O:=O) (P:=P) (C:=C) (L:=L) (H:=H) (M:=M)).
#[local] Abbreviation receives := (receive_turn (O:=O) (P:=P) (C:=C) (L:=L) (H:=H) (M:=M) read_to_string compound_args compound_res).
#[local] Abbreviation calls :=
  (call_turn (L:=L) (H:=H) (M:=M) (F:=F) parse_ip parse_socket getpwnam getgrnam).
#[local] Abbreviation answers := (answer_turn (O:=O) (P:=P) (C:=C) (L:=L) (H:=H) (M:=M) compound_res).
#[local] Abbreviation takes_message := (take_message (O:=O) (P:=P) (C:=C) (L:=L) (H:=H) (M:=M) read_to_string compound_args compound_res).

(** ** Ids are kept *)

Lemma init_xid xid call cred args m g : reply_xid (init read_to_string xid call cred args m g).1 = xid.
Proof.
  unfold init. repeat (case_match; [done|]). destruct (gss_take_opaque args) as [[token rest]|]; [|done].
  destruct (accept_at _ _ _ _) as [[acc|] cache]; [|done]. destruct (random_handle m); [|done]. done.
Qed.

Definition call_keeps (xid : Z) (call : GssCall) : Prop :=
  match call with Reply r => reply_xid r = xid | Drop => True | Proceed msg _ => call_xid msg = xid end.

Lemma answer_mic_xid xid i seq body g : call_keeps xid (answer_mic xid i seq body g).1.
Proof. unfold answer_mic. by destruct (arena_mic _ _ _). Qed.

Lemma gss_handle_xid msg m g : call_keeps (call_xid msg) (gss_handle read_to_string compound_args msg m g).1.
Proof.
  unfold gss_handle. destruct (call_body msg) as [call|]; [|done]. destruct (cred call); try done.
  destruct (negb _); [done|]. destruct (_ || _).
  { pose proof (init_xid (call_xid msg) call cred (gss_args (default (MkGssCallData [] []) (gss call))) m g) as Hx.
    by destruct (init _ _ _ _ _ _ _). }
  destruct (_ || _); [|done]. unfold data. destruct (mbind _ _) as [[i c]|]; [|done].
  destruct (ctx_expires c <? _); [done|]. destruct (negb _); [done|]. destruct (MAXSEQ <=? _); [done|].
  destruct (window_accept _ _) as [[] w]; [|done]. cbn [negb]. destruct (_ =? _); [apply answer_mic_xid|].
  unfold run_data. repeat (case_match; try done); apply answer_mic_xid.
Qed.

Lemma wrap_reply_xid reply info random g : reply_xid (wrap_reply compound_res reply info random g).1 = reply_xid reply.
Proof.
  unfold wrap_reply. destruct (reply_body reply); [|done]. destruct (arena_mic _ _ g) as [mic g1].
  destruct (_ =? RPC_GSS_SVC_NONE); [done|]. destruct (results_of _ _ _) as [[results|]|]; [|done..].
  destruct (_ =? RPC_GSS_SVC_INTEGRITY); [by destruct (arena_mic _ _ g1)|]. destruct (_ =? RPC_GSS_SVC_PRIVACY); [|done].
  destruct (arena g1 !! _); [|done]. by destruct (wrap_token _ _ _ _ _ _).
Qed.

Lemma service_call_xid {W} (compound : CallBody -> NfsRequest P C ManagerHandle -> W -> _) msg r (w : W) reply r' w' :
  service_call compound msg r w = Some (reply, r', w') -> reply_xid reply = call_xid msg.
Proof.
  unfold service_call. destruct (call_body msg) as [call|]; [|by intros [= <- _ _]].
  destruct (negb _); [by intros [= <- _ _]|]. destruct (negb _); [by intros [= <- _ _]|].
  destruct (cred call); try (by intros [= <- _ _]).
  all: destruct (_ =? 0); [by intros [= <- _ _]|]; destruct (_ =? 1); [|by intros [= <- _ _]].
  all: destruct (compound _ _ _) as [[[r1 b1] s1]|]; [|done]; by intros [= <- _ _].
Qed.

(** A turn of a call: an action, or the end. *)
Lemma call_turn_cases msg info seen v future (c : Conn) (s : Srv) c' s' :
  calls msg info seen v future c s = Some (c', s') ->
  exists reply r w, call_on (F:=F) parse_ip parse_socket getpwnam getgrnam msg info c (seen ++ (v, s) :: future) = Some (reply, r, w) /\
    match record w !! length seen with
    | Some x => c' = set_phase c (Calling msg info (seen ++ [(v, s)]) None) /\ s' = x.2
    | None => c' = called c r reply info /\ s' = s
    end.
Proof.
  unfold call_turn. destruct (call_on _ _ _ _ _ _ _ _) as [[[reply r] w]|]; [|done]. cbn [mbind option_bind].
  intros E. exists reply, r, w. split; [done|]. destruct (record w !! _) as [[x y]|]; by injection E as <- <-.
Qed.

Lemma call_on_xid msg info (c : Conn) states reply r w :
  call_on (F:=F) parse_ip parse_socket getpwnam getgrnam msg info c states = Some (reply, r, w) -> reply_xid reply = call_xid msg.
Proof. unfold call_on. destruct states as [|[v s] l]; [done|]. apply service_call_xid. Qed.

(** ** One reply for every message *)

(** The message that the next turn of a waiting connection takes. *)
Definition next_message (c : Conn) : option RpcCallMsg :=
  match (if at_eof c then Rpc.decode_eof compound_args else Rpc.decode compound_args) (inbuf c) with
  | (_, Ok msg) => msg
  | _ => None
  end.

(** A message without an answer: RPCSEC_GSS drops replays. *)
Definition dropped (m : GssMoment) (g : option GssServer) (msg : RpcCallMsg) : bool :=
  match call_body msg, g with
  | Call call, Some gs =>
    match cred call with
    | AuthGss _ => match (gss_handle read_to_string compound_args msg m gs).1 with Drop => true | _ => false end
    | _ => false
    end
  | _, _ => false
  end.

(** The turns of a connection among whatever other tasks do to what it shares with them, with the ids of the messages
    to answer, the first one first. *)
Inductive conn_run (addr : string) (dfm : option ManagerHandle) (boot : Z) : list Z -> Conn -> Prop :=
| conn_starts : conn_run addr dfm boot [] (connect addr dfm boot)
| conn_arrives taken c bytes :
    conn_run addr dfm boot taken c -> at_eof c = false -> conn_run addr dfm boot taken (set_inbuf c (inbuf c ++ bytes) false)
| conn_ends taken c : conn_run addr dfm boot taken c -> conn_run addr dfm boot taken (set_inbuf c (inbuf c) true)
| conn_receives taken m c g c' g' :
    conn_run addr dfm boot taken c -> phase c = Reading -> receives m c g = (Some c', g') ->
    conn_run addr dfm boot (taken ++ match next_message c with
                                    | Some msg => if dropped m g msg then [] else [call_xid msg]
                                    | None => []
                                    end) c'
| conn_looks taken msg info seen x c (s : Srv) :
    conn_run addr dfm boot taken c -> phase c = Calling msg info seen x ->
    conn_run addr dfm boot taken (set_phase c (Calling msg info seen (Some s)))
| conn_calls taken msg info seen v future c (s : Srv) c' s' :
    conn_run addr dfm boot taken c -> phase c = Calling msg info seen (Some v) -> calls msg info seen v future c s = Some (c', s') ->
    conn_run addr dfm boot taken c'
| conn_answers taken random reply info c g c' g' :
    conn_run addr dfm boot taken c -> phase c = Answering reply info -> answers random reply info c g = (Some c', g') ->
    conn_run addr dfm boot taken c'.

(** The ids of the messages whose answer is on its way. *)
Definition unanswered (c : Conn) : list Z :=
  match phase c with Reading => [] | Calling msg _ _ _ => [call_xid msg] | Answering reply _ => [reply_xid reply] end.

(** Bytes that are the records of the replies to these ids. *)
Definition answers_of (xids : list Z) (out : list byte) : Prop :=
  exists replies : list (RpcReplyMsg * list byte),
    Forall (fun rb => RpcReplyMsg_to_bytes compound_res rb.1 = Ok rb.2) replies /\
    (fun rb => reply_xid rb.1) <$> replies = xids /\ out = concat ((fun rb => frame rb.2) <$> replies).

Lemma answers_of_snoc xids out reply bytes :
  answers_of xids out -> RpcReplyMsg_to_bytes compound_res reply = Ok bytes ->
  answers_of (xids ++ [reply_xid reply]) (out ++ frame bytes).
Proof.
  intros (l & Hl & Hx & ->) Hb. exists (l ++ [(reply, bytes)]). split; [by apply Forall_app; split; [|repeat constructor]|].
  rewrite !fmap_app, concat_app, Hx. cbn. by rewrite app_nil_r.
Qed.

Lemma send_answers xids reply (c c' : Conn) :
  answers_of xids (outbuf c) -> send compound_res reply c = Some c' ->
  answers_of (xids ++ [reply_xid reply]) (outbuf c') /\ phase c' = Reading.
Proof.
  intros Hx. unfold send, Rpc.encode. destruct (RpcReplyMsg_to_bytes compound_res reply) as [bytes|] eqn:Hb; [|done].
  cbn [result_bind]. intros [= <-]. split; [by apply answers_of_snoc|done].
Qed.

(** Everything taken is answered or on its way. *)
Definition keeps_up (taken : list Z) (c : Conn) : Prop :=
  exists done, taken = done ++ unanswered c /\ answers_of done (outbuf c).

Lemma reading_keeps_up taken (c c' : Conn) :
  keeps_up taken c -> phase c = Reading -> phase c' = Reading -> outbuf c' = outbuf c -> keeps_up taken c'.
Proof.
  intros (d & -> & Ho) H1 H2 E. exists d. unfold unanswered. rewrite H1, H2, E. done.
Qed.

Lemma sent_keeps_up taken reply (c c' : Conn) :
  keeps_up taken c -> phase c = Reading -> send compound_res reply c = Some c' -> keeps_up (taken ++ [reply_xid reply]) c'.
Proof.
  intros (d & -> & Ho) Hp Hs. apply (send_answers d) in Hs as [Ha Hp']; [|done]. unfold unanswered. rewrite Hp, app_nil_r.
  exists (d ++ [reply_xid reply]). unfold unanswered. by rewrite Hp', app_nil_r.
Qed.

Lemma calling_keeps_up taken msg info (c : Conn) :
  keeps_up taken c -> phase c = Reading -> keeps_up (taken ++ [call_xid msg]) (set_phase c (Calling msg info [] None)).
Proof. intros (d & -> & Ho) Hp. exists d. unfold unanswered. by rewrite Hp, app_nil_r. Qed.

Lemma take_message_keeps_up taken m msg (c c' : Conn) g g' :
  keeps_up taken c -> phase c = Reading -> takes_message m msg c g = (Some c', g') ->
  keeps_up (taken ++ if dropped m g msg then [] else [call_xid msg]) c'.
Proof.
  intros Hk Hp. unfold take_message, dropped. destruct (call_body msg) as [call|e] eqn:Eb.
  2: { intros [Hs <-]%pair_equal_spec. by apply (sent_keeps_up taken) in Hs. }
  assert (Hplain : (Some (set_phase c (Calling msg None [] None)), g) = (Some c', g') -> keeps_up (taken ++ [call_xid msg]) c').
  { intros [= <- <-]. by apply calling_keeps_up. }
  destruct g as [gs|]; [|destruct (cred call); exact Hplain]. destruct (cred call); try exact Hplain.
  pose proof (gss_handle_xid msg m gs) as Hx. destruct (gss_handle _ _ msg m gs) as [[r| |msg' info] gs']; cbn [fst call_keeps] in *.
  - intros [Hs <-]%pair_equal_spec. apply (sent_keeps_up taken) in Hs; [|done..]. by rewrite <- Hx.
  - intros [= <- <-]. by rewrite app_nil_r.
  - intros [= <- <-]. rewrite <- Hx. by apply calling_keeps_up.
Qed.

Lemma receive_keeps_up taken m (c c' : Conn) g g' :
  keeps_up taken c -> phase c = Reading -> receives m c g = (Some c', g') ->
  keeps_up (taken ++ match next_message c with
                     | Some msg => if dropped m g msg then [] else [call_xid msg]
                     | None => []
                     end) c'.
Proof.
  intros Hk Hp. unfold receive_turn, next_message.
  destruct ((if at_eof c then Rpc.decode_eof compound_args else Rpc.decode compound_args) (inbuf c)) as [buf [[msg|]|e]]; [| |done].
  - apply take_message_keeps_up; [by apply (reading_keeps_up taken c)|done].
  - destruct (at_eof c); [done|]. intros [[= <-] <-]%pair_equal_spec. rewrite app_nil_r.
    by apply (reading_keeps_up taken c).
Qed.

Lemma conn_keeps_up addr dfm boot taken c : conn_run addr dfm boot taken c -> keeps_up taken c.
Proof.
  induction 1 as [|taken c bytes _ IH _|taken c _ IH|taken m c g c' g' _ IH Hp Hr|taken msg info seen x c s _ IH Hp|
    taken msg info seen v future c s c' s' _ IH Hp Hc|taken random reply info c g c' g' _ IH Hp Ha].
  - exists []. split; [done|]. by exists [].
  - exact IH.
  - exact IH.
  - by eapply receive_keeps_up.
  - destruct IH as (d & -> & Ho). exists d. split; [|done]. unfold unanswered. by rewrite Hp.
  - apply call_turn_cases in Hc as (reply & r & w & E%call_on_xid & Hc). destruct IH as (d & -> & Ho).
    exists d. unfold unanswered. rewrite Hp. destruct (record w !! _); destruct Hc as [-> ->]; [done|].
    split; [|done]. cbn [phase set_phase called]. by rewrite E.
  - assert (Hs : exists reply', reply_xid reply' = reply_xid reply /\ send compound_res reply' c = Some c').
    { unfold answer_turn in Ha. destruct g as [gs|]; [destruct info as [i|]|]; try (apply pair_equal_spec in Ha as [Ha _]; by exists reply).
      pose proof (wrap_reply_xid reply i random gs) as Hx. destruct (wrap_reply _ _ _ _ _) as [reply' gs'].
        apply pair_equal_spec in Ha as [Ha _]. by exists reply'. }
    destruct Hs as (reply' & Hx & Hs). destruct IH as (d & -> & Ho). apply (send_answers d) in Hs as [Hout Hp']; [|done].
    exists (d ++ [reply_xid reply']). unfold unanswered. by rewrite Hp, Hp', app_nil_r, <- Hx.
Qed.

(** C15: What a connection has sent is one record after the other, each the reply to one
    message: the replies stand in the order in which the messages came, each once and
    under its message's id, and only the last message can still be without its reply.
    Messages that RPCSEC_GSS drops have none, and every other message that was taken has
    its own. Whatever other tasks do to the file server and the contexts in between. *)
Theorem replies_in_order addr dfm boot taken c :
  conn_run addr dfm boot taken c -> answers_of (take (length taken - length (unanswered c)) taken) (outbuf c) /\
    (length (unanswered c) <= 1)%nat /\ drop (length taken - length (unanswered c)) taken = unanswered c.
Proof.
  intros (d & -> & Ho)%conn_keeps_up. rewrite length_app, Nat.add_sub, take_app_length, drop_app_length.
  split; [done|]. split; [unfold unanswered; destruct (phase c); simpl; lia|done].
Qed.

(** ** The process and its parts *)

Variable canonicalize : string -> option string.
Variable is_dir : string -> bool.
Variable export_vfs : string -> P.
Hypothesis memory_root_path : path_of memory_root = "/"%string.
(** The derived reader makes numbers of their width. *)
Hypothesis decoded_args_ok : forall b a rest, compound_args b = Ok (a, rest) -> Forall args_ok (compound4args_argarray a).
#[local] Abbreviation Reachable :=
  (server_reachable (F:=F) (L:=L) (H:=H) (M:=M) canonicalize is_dir export_vfs parse_ip parse_socket getpwnam getgrnam).
#[local] Abbreviation step :=
  (server_step (F:=F) (L:=L) (H:=H) (M:=M) canonicalize is_dir export_vfs parse_ip parse_socket getpwnam getgrnam).
#[local] Abbreviation Hst := (Host (O:=O) (P:=P) (C:=C) (L:=L) (H:=H) (M:=M)).
#[local] Abbreviation GRun := (gss_run read_to_string compound_args compound_res).

Definition ops_of_msg (msg : RpcCallMsg) : list NfsArgOp :=
  match call_body msg with Call call => ops_of call | ParseError _ => [] end.

(** The call that RPCSEC_GSS let through in the last turn of a connection. *)
Definition let_through (c : option Conn) : list (nat * Z) :=
  match c with
  | Some c => match phase c with Calling _ (Some info) _ _ => [(reply_ctx info, reply_seq info)] | _ => [] end
  | None => []
  end.

(** The server has room for all that a call can take, and one more. *)
Definition roomy (msg : RpcCallMsg) (s : Srv) : Prop := Reachable s /\ has_room (S (length (ops_of_msg msg))) s.

(** What the process does: connections come, get bytes, take their turns and go, in any
    order, and between any two turns whatever else changes the file server. In a call a
    connection looks at the server and then acts on it, or ends; what a call that is to
    panic does before is among what else changes the server. With it goes the list of
    the calls that RPCSEC_GSS let through. *)
Inductive net_step : list (nat * Z) -> Hst -> list (nat * Z) -> Hst -> Prop :=
| net_connects t h id addr dfm boot :
    connections h !! id = None -> net_step t h t (set_connection id (Some (connect addr dfm boot)) (gss_server h) h)
| net_arrives t h id c bytes eof :
    connections h !! id = Some c -> net_step t h t (set_connection id (Some (set_inbuf c (inbuf c ++ bytes) eof)) (gss_server h) h)
| net_receives t h id c m c' g' :
    connections h !! id = Some c -> phase c = Reading -> receives m c (gss_server h) = (c', g') ->
    net_step t h (let_through c' ++ t) (set_connection id c' g' h)
| net_looks t h id c msg info seen x :
    connections h !! id = Some c -> phase c = Calling msg info seen x -> has_room (S (length (ops_of_msg msg))) (nfs h) ->
    net_step t h t (set_connection id (Some (set_phase c (Calling msg info seen (Some (nfs h))))) (gss_server h) h)
| net_calls t h id c msg info seen v future c' s' :
    connections h !! id = Some c -> phase c = Calling msg info seen (Some v) ->
    has_room (S (length (ops_of_msg msg))) (nfs h) -> Forall (fun x => roomy msg x.1 /\ roomy msg x.2) future ->
    calls msg info seen v future c (nfs h) = Some (c', s') ->
    net_step t h t (set_connection id (Some c') (gss_server h) (set_nfs h s'))
| net_answers t h id c random reply info c' g' :
    connections h !! id = Some c -> phase c = Answering reply info ->
    answers random reply info c (gss_server h) = (c', g') -> net_step t h t (set_connection id c' g' h)
| net_goes t h id : net_step t h t (set_connection id None (gss_server h) h)
| net_elsewhere t h s' : step (nfs h) s' -> net_step t h t (set_nfs h s').

Inductive net_run (g0 : option GssServer) : list (nat * Z) -> Hst -> Prop :=
| net_starts s : Reachable s -> net_run g0 [] (MkHost s g0 ∅)
| net_continues t h t' h' : net_run g0 t h -> net_step t h t' h' -> net_run g0 t' h'.

Definition conn_ok (c : Conn) : Prop :=
  (forall k x, conn_cache c !! k = Some x -> fh_ok x.2) /\
  match phase c with
  | Calling msg _ seen looked =>
    Forall args_ok (ops_of_msg msg) /\ Forall (fun x => roomy msg x.1 /\ roomy msg x.2) seen /\
    forall v, looked = Some v -> roomy msg v
  | _ => True
  end.

(** The RPCSEC_GSS server, if there is one, ran these calls. *)
Definition gss_ran (g0 : option GssServer) (t : list (nat * Z)) (g : option GssServer) : Prop :=
  match g0 with
  | Some g0 => exists g1, g = Some g1 /\ GRun g0 t g1
  | None => g = None /\ t = []
  end.

Definition host_ok (g0 : option GssServer) (t : list (nat * Z)) (h : Hst) : Prop :=
  Reachable (nfs h) /\ gss_ran g0 t (gss_server h) /\ forall id c, connections h !! id = Some c -> conn_ok c.

#[local] Ltac read_field E := let x := fresh in apply result_bind_ok in E as ([x ?] & _ & E).

(** Arguments come from the reader. *)
Lemma decoded_ok eof b buf msg :
  (if eof : bool then Rpc.decode_eof compound_args else Rpc.decode compound_args) b = (buf, Ok (Some msg)) ->
  Forall args_ok (ops_of_msg msg).
Proof.
  assert (Hd : forall b buf msg, Rpc.decode compound_args b = (buf, Ok (Some msg)) -> Forall args_ok (ops_of_msg msg)).
  { clear b buf msg. intros b buf msg. unfold Rpc.decode. destruct (read_record b) as [b' [| |data]]; try done.
    destruct (from_bytes compound_args data) as [msg'|] eqn:E; intros [= _ <-]; [|constructor].
    unfold from_bytes in E. do 2 read_field E. destruct (negb _); [done|]. do 6 read_field E.
    match type of E with match ?cred with _ => _ end = _ => destruct cred end; try (injection E as <-; constructor).
    all: destruct (_ || _); [injection E as <-; constructor|].
    all: destruct (compound_args _) as [[args rest]|] eqn:Ea; injection E as <-; [|constructor].
    all: by apply decoded_args_ok in Ea. }
  destruct eof; [|apply Hd]. unfold Rpc.decode_eof. destruct (Rpc.decode compound_args b) as [b' [[m|]|]] eqn:E; try done.
  intros [= <- <-]. by eapply Hd.
Qed.

Lemma proceed_args_ok msg m gs msg' info gs' :
  Forall args_ok (ops_of_msg msg) -> gss_handle read_to_string compound_args msg m gs = (Proceed msg' info, gs') ->
  Forall args_ok (ops_of_msg msg').
Proof.
  intros Hm (call & cr & c & _ & _ & _ & flavor & bytes & a & Hc & _ & _ & _ & _ & _ & _ & _ & _ & _ & _ & Ha & Hp)%gss_handle_proceeds.
  injection Hp as -> _. unfold ops_of_msg in Hm. rewrite Hc in Hm. unfold ops_of_msg, ops_of. cbn [call_body Rpc.args].
  unfold seen_args in Ha. destruct (_ && _); [|by subst a].
  destruct Ha as (x & Hx & ->). unfold decode_compound_args in Hx. apply result_bind_ok in Hx as ([y rest] & Hy & [= <-]).
  by apply decoded_args_ok in Hy.
Qed.

Lemma send_ok reply (c c' : Conn) : conn_ok c -> send compound_res reply c = Some c' -> conn_ok c' /\ let_through (Some c') = [].
Proof.
  intros [Hc _]. unfold send. destruct (Rpc.encode _ _ _); [|done]. intros [= <-]. by split.
Qed.

Lemma gss_ran_step g0 t g msg m call g' :
  gss_ran g0 t (Some g) -> gss_handle read_to_string compound_args msg m g = (call, g') -> gss_ran g0 (passed call ++ t) (Some g').
Proof.
  unfold gss_ran. destruct g0 as [g0|]; [|by intros [? _]]. intros (g1 & [= <-] & Hr) Hh. exists g'. split; [done|].
  by eapply run_call.
Qed.

Lemma take_message_ok g0 t m msg (c : Conn) c' g g' :
  gss_ran g0 t g -> conn_ok c -> phase c = Reading -> Forall args_ok (ops_of_msg msg) -> takes_message m msg c g = (c', g') ->
  gss_ran g0 (let_through c' ++ t) g' /\ forall x, c' = Some x -> conn_ok x.
Proof.
  intros Hg Hc Hp Ha.
  assert (Hsend : forall reply t g, gss_ran g0 t g ->
    gss_ran g0 (let_through (send compound_res reply c) ++ t) g /\ forall x, send compound_res reply c = Some x -> conn_ok x).
  { intros reply t' g1 Hr. destruct (send compound_res reply c) as [x|] eqn:E; [|done].
    apply send_ok in E as [Hx ->]; [|done]. split; [done|]. by intros ? [= <-]. }
  assert (Hplain : gss_ran g0 (let_through (Some (set_phase c (Calling msg None [] None))) ++ t) g /\
    forall x, Some (set_phase c (Calling msg None [] None)) = Some x -> conn_ok x).
  { split; [done|]. intros x [= <-]. split; [apply Hc|]. by split; [|split]. }
  unfold take_message. destruct (call_body msg) as [call|e] eqn:Eb.
  2: { intros [<- <-]%pair_equal_spec. by apply Hsend. }
  destruct g as [gs|]; [|destruct (cred call); intros [<- <-]%pair_equal_spec; exact Hplain].
  destruct (cred call); try (intros [<- <-]%pair_equal_spec; exact Hplain).
  destruct (gss_handle _ _ msg m gs) as [[r| |msg' info] gs'] eqn:Eh; intros [<- <-]%pair_equal_spec;
    pose proof (gss_ran_step g0 t gs msg m _ gs' Hg Eh) as Hg'.
  - by apply Hsend.
  - split; [unfold let_through; by rewrite Hp|]. by intros x [= <-].
  - split; [done|]. intros x [= <-]. split; [apply Hc|]. split; [by eapply proceed_args_ok|by split].
Qed.

Lemma receive_ok g0 t m (c : Conn) c' g g' :
  gss_ran g0 t g -> conn_ok c -> phase c = Reading -> receives m c g = (c', g') ->
  gss_ran g0 (let_through c' ++ t) g' /\ forall x, c' = Some x -> conn_ok x.
Proof.
  intros Hg Hc Hp. unfold receive_turn.
  destruct ((if at_eof c then _ else _) (inbuf c)) as [buf [[msg|]|e]] eqn:Ed; [| |by intros [<- <-]%pair_equal_spec].
  - apply take_message_ok; [done|exact Hc|done|by eapply decoded_ok].
  - destruct (at_eof c); intros [<- <-]%pair_equal_spec; [done|]. split; [unfold let_through; cbn [phase set_inbuf]; by rewrite Hp|].
    by intros x [= <-].
Qed.

Lemma answer_ok g0 t random reply info (c : Conn) c' g g' :
  gss_ran g0 t g -> conn_ok c -> answers random reply info c g = (c', g') ->
  gss_ran g0 t g' /\ forall x, c' = Some x -> conn_ok x.
Proof.
  intros Hg Hc. assert (Hsend : forall r x, send compound_res r c = Some x -> conn_ok x) by (intros r x Hs; by apply send_ok in Hs as [? _]).
  unfold answer_turn. destruct g as [gs|]; [|intros [<- <-]%pair_equal_spec; split; [done|apply Hsend]].
  destruct info as [i|]; [|intros [<- <-]%pair_equal_spec; split; [done|apply Hsend]].
  destruct (wrap_reply _ _ _ _ _) as [r gs'] eqn:Ew. intros [<- <-]%pair_equal_spec. split; [|apply Hsend].
  unfold gss_ran in *. destruct g0 as [g0|]; [|by destruct Hg]. destruct Hg as (g1 & [= <-] & Hr). exists gs'. split; [done|].
  by eapply run_reply.
Qed.

#[local] Abbreviation request_ok := (req_ok (V:=server_vfs (O:=O) (V:=V) (L:=L) (H:=H) (M:=M))).

(** The reply to a message: to a COMPOUND that is let in, a complete one. *)
Definition runs_compound (call : CallBody) : bool :=
  (prog call =? 100003) && (vers call =? 4) && (proc call =? 1) && match cred call with AuthGss _ => false | _ => true end.
Definition answers_message (msg : RpcCallMsg) (reply : RpcReplyMsg) : Prop :=
  reply_xid reply = call_xid msg /\
  forall call, call_body msg = Call call -> runs_compound call = true -> answers_compound call (reply_body reply).

#[local] Abbreviation ainv msg := (among_inv (F:=F) canonicalize is_dir export_vfs parse_ip parse_socket getpwnam getgrnam (length (ops_of_msg msg))).
#[local] Abbreviation acompound := (among_compound (F:=F) parse_ip parse_socket getpwnam getgrnam).

Lemma service_call_ok given msg r (w : Among O P C L H M) reply r' w' :
  ainv msg given (length (ops_of_msg msg)) w -> request_ok r -> Forall args_ok (ops_of_msg msg) ->
  service_call acompound msg r w = Some (reply, r', w') ->
  ainv msg given 0 w' /\ request_ok r' /\ answers_message msg reply.
Proof.
  intros Hw Hr Ha E. pose proof (service_call_xid _ _ _ _ _ _ _ E) as Hx. revert E.
  assert (H0 : ainv msg given 0 w) by by eapply among_zero.
  assert (Hplain : forall rep, Some (rep, r, w) = Some (reply, r', w') ->
    (forall call, call_body msg = Call call -> runs_compound call = false) ->
    ainv msg given 0 w' /\ request_ok r' /\ answers_message msg reply).
  { intros rep [= _ <- <-] Hn. split; [done|]. split; [done|]. split; [done|]. intros call Hc Hrun. by rewrite (Hn call Hc) in Hrun. }
  unfold service_call. unfold ops_of_msg in *. destruct (call_body msg) as [call|] eqn:Eb; [|intros E; by apply (Hplain _ E)].
  assert (Hcall : forall call0, Call call = Call call0 -> call0 = call) by (by intros ? [= ->]).
  destruct (negb _) eqn:Ep; [intros E; apply (Hplain _ E); intros ? ->%Hcall; unfold runs_compound; apply negb_true_iff in Ep; by rewrite Ep|].
  destruct (negb _) eqn:Ev in |- *; [intros E; apply (Hplain _ E); intros ? ->%Hcall; unfold runs_compound; apply negb_true_iff in Ev; by rewrite Ev, andb_false_r|].
  destruct (cred call) eqn:Ecr; try (intros E; apply (Hplain _ E); intros ? ->%Hcall; unfold runs_compound; by rewrite Ecr, !andb_false_r).
  all: destruct (proc call =? 0) eqn:E0;
    [intros E; apply (Hplain _ E); intros ? ->%Hcall; unfold runs_compound; apply Z.eqb_eq in E0; by rewrite E0, andb_false_r|].
  all: destruct (proc call =? 1) eqn:E1;
    [|intros E; apply (Hplain _ E); intros ? ->%Hcall; unfold runs_compound; by rewrite E1, andb_false_r].
  all: destruct (acompound call r w) as [[[r1 b1] w1]|] eqn:E; [|done]; cbn [mbind option_bind]; intros [= <- <- <-].
  all: destruct (among_compound_sound canonicalize is_dir export_vfs parse_ip parse_socket getpwnam getgrnam memory_root_path
    _ given call r w r1 b1 w1 Hw Hr Ha E) as (Hw1 & Hr1 & Hc).
  all: split; [done|]; split; [done|]; split; [done|]; intros call0; rewrite Eb; by intros ->%Hcall _.
Qed.

Lemma roomy_inv msg s : roomy msg s -> server_inv is_dir (S (length (ops_of_msg msg))) s.
Proof.
  intros [Hs Hroom]. split; [|done].
  by eapply (reachable_ok canonicalize is_dir export_vfs parse_ip parse_socket getpwnam getgrnam).
Qed.

Lemma call_on_ok msg info seen v future (c : Conn) (s : Srv) reply r w :
  conn_ok c -> phase c = Calling msg info seen (Some v) -> roomy msg s -> Forall (fun x => roomy msg x.1 /\ roomy msg x.2) future ->
  call_on (F:=F) parse_ip parse_socket getpwnam getgrnam msg info c (seen ++ (v, s) :: future) = Some (reply, r, w) ->
  (forall x, record w !! length seen = Some x -> x.1 = s /\ step s x.2) /\ request_ok r /\ answers_message msg reply.
Proof.
  intros [Hcache Hp] Ep Hs Hf E. rewrite Ep in Hp. destruct Hp as (Ha & Hseen & Hv). specialize (Hv v eq_refl).
  set (states := seen ++ (v, s) :: future) in *.
  assert (Hall : Forall (fun x => server_inv is_dir (S (length (ops_of_msg msg))) x.1 /\ server_inv is_dir (S (length (ops_of_msg msg))) x.2) states).
  { unfold states. apply Forall_app. split; [|constructor]; [| |].
    - eapply Forall_impl; [exact Hseen|]. intros x [? ?]. by split; apply roomy_inv.
    - by split; apply roomy_inv.
    - eapply Forall_impl; [exact Hf|]. intros x [? ?]. by split; apply roomy_inv. }
  unfold call_on in E. assert (Hat : states.*2 !! length seen = Some s).
  { unfold states. rewrite fmap_app, lookup_app_r, length_fmap, Nat.sub_diag by (by rewrite length_fmap). done. }
  clearbody states. destruct states as [|[v0 s0] l]; [done|]. apply Forall_cons in Hall as [[H1 H2] Hl].
  apply (service_call_ok ((v0, s0) :: l).*2) in E as ([_ _ _ _ Hst Hg] & Hr & Hx); [|split|split|done].
  - split; [|by split]. intros x Hx1. assert (Hxs : x.1 = s).
    { apply (prefix_lookup_Some _ _ _ _ Hat) in Hg. rewrite lookup_app_l in Hg; [|rewrite length_fmap; by eapply lookup_lt_Some].
      rewrite list_lookup_fmap, Hx1 in Hg. by injection Hg. }
    split; [exact Hxs|]. rewrite <- Hxs. exact (Forall_lookup_1 _ _ _ _ Hst Hx1).
  - done.
  - exact H1.
  - exact H2.
  - exact Hl.
  - constructor.
  - done.
  - unfold request_of. destruct info; simpl; by intros fh.
  - unfold request_of. destruct info; simpl; by intros fh.
  - unfold request_of. destruct info; simpl; intros ? k x [= <-]; apply Hcache.
Qed.

(** A turn of a call is one step of the file server, or ends the call with its reply. *)
Lemma call_turn_ok msg info seen v future (c c' : Conn) (s s' : Srv) :
  conn_ok c -> phase c = Calling msg info seen (Some v) -> roomy msg s -> Forall (fun x => roomy msg x.1 /\ roomy msg x.2) future ->
  calls msg info seen v future c s = Some (c', s') ->
  conn_ok c' /\
  ((phase c' = Calling msg info (seen ++ [(v, s)]) None /\ step s s') \/
   (s' = s /\ exists reply, phase c' = Answering reply info /\ answers_message msg reply)).
Proof.
  intros Hok Hp Hs Hf (reply & r & w & Ec & Hw)%call_turn_cases.
  destruct (call_on_ok msg info seen v future c s reply r w Hok Hp Hs Hf Ec) as (Hst & Hr & Hx).
  pose proof Hok as [Hcache Ha]. rewrite Hp in Ha. destruct Ha as (Ha & Hseen & Hv).
  destruct (record w !! length seen) as [x|]; destruct Hw as [-> ->].
  - destruct (Hst x eq_refl) as [Hx1 Hstep]. split; [|left; by split]. split; [exact Hcache|]. split; [done|]. split; [|done].
    apply Forall_app. split; [done|]. apply Forall_singleton. split; [by apply Hv|done].
  - split; [|right; split; [done|]; by exists reply]. split; [|done]. cbn [conn_cache called set_phase set_conn_cache].
    destruct (filehandle_cache r) as [cache|] eqn:Ecache; cbn [default]; [|done]. intros k x Hk. by eapply (cache_ok _ Hr).
Qed.

Lemma set_connection_ok g0 t id c g h :
  Reachable (nfs h) -> gss_ran g0 t g -> (forall id c, connections h !! id = Some c -> conn_ok c) ->
  (forall x, c = Some x -> conn_ok x) -> host_ok g0 t (set_connection id c g h).
Proof.
  intros Hs Hg Hc Hx. split; [done|]. split; [done|]. intros id' c' Hl. cbn [connections set_connection] in Hl.
  destruct c as [x|].
  - apply lookup_insert_Some in Hl as [[_ <-]|[_ Hl]]; [by apply Hx|by eapply Hc].
  - apply lookup_delete_Some in Hl as [_ Hl]. by eapply Hc.
Qed.

Lemma net_step_ok g0 t h t' h' : host_ok g0 t h -> net_step t h t' h' -> host_ok g0 t' h'.
Proof.
  intros (Hs & Hg & Hc) Hstep. destruct Hstep as [t h id addr dfm boot _|t h id c bytes eof Hid|t h id c m c' g' Hid Hp Hr|
    t h id c msg info seen x Hid Hp Hroom|t h id c msg info seen v future c' s' Hid Hp Hroom Hf Hr|
    t h id c random reply info c' g' Hid Hp Hr|t h id|t h s' Hstep].
  - apply set_connection_ok; try done. intros x [= <-]. by split.
  - apply set_connection_ok; try done. intros x [= <-]. exact (Hc id c Hid).
  - destruct (receive_ok g0 t m c c' _ _ Hg (Hc id c Hid) Hp Hr). by apply set_connection_ok.
  - apply set_connection_ok; try done. intros y [= <-]. destruct (Hc id c Hid) as [Hcache Ha]. rewrite Hp in Ha.
    destruct Ha as (Ha & Hseen & _). split; [exact Hcache|]. split; [done|]. split; [done|]. by intros ? [= <-].
  - destruct (call_turn_ok msg info seen v future c c' _ _ (Hc id c Hid) Hp (conj Hs Hroom) Hf Hr) as [Hc' Hstep].
    apply (set_connection_ok g0 t id (Some c') (gss_server h) (set_nfs h s')); try done; [|by intros x [= <-]].
    cbn [nfs set_nfs]. destruct Hstep as [[_ Hstep]|[-> _]]; [by eapply server_run|done].
  - destruct (answer_ok g0 t random reply info c c' _ _ Hg (Hc id c Hid) Hr). by apply set_connection_ok.
  - by apply set_connection_ok.
  - split; [by eapply server_run|done].
Qed.

Lemma host_starts_ok g0 (s : Server O P C L H M) : Reachable s -> host_ok g0 [] (MkHost s g0 ∅).
Proof. intros Hs. split; [done|]. split; [|by intros]. cbn. destruct g0 as [g0|]; [|done]. exists g0. split; [done|constructor]. Qed.

Lemma net_host_ok g0 t h : net_run g0 t h -> host_ok g0 t h.
Proof. induction 1 as [s Hs|t h t' h' _ IH Hstep]; [by apply host_starts_ok|by eapply net_step_ok]. Qed.

(** C14: Whatever bytes arrive on whatever connections, in whatever order the connections
    take their turns, an action of a COMPOUND being one, and whatever else happens to the
    file server in between, the process refines its parts: the file server is in a state it
    reaches by its own steps, so every theorem about those holds in the middle of COMPOUNDs
    too, and the RPCSEC_GSS server in a state of a run of its own in which exactly the
    calls that reached the handlers were let through. A turn of a call is one step of the
    file server or the call's end, and however the others came in between, a COMPOUND ends
    with a complete reply. *)
Theorem process_refines_parts k mappings etc t h :
  net_run (Some (with_etc k mappings etc)) t h ->
  Reachable (nfs h) /\ (exists g, gss_server h = Some g /\ GRun (with_etc k mappings etc) t g) /\
  forall id c msg info seen v future c' s',
    connections h !! id = Some c -> phase c = Calling msg info seen (Some v) -> has_room (S (length (ops_of_msg msg))) (nfs h) ->
    Forall (fun x => roomy msg x.1 /\ roomy msg x.2) future -> calls msg info seen v future c (nfs h) = Some (c', s') ->
    (phase c' = Calling msg info (seen ++ [(v, nfs h)]) None /\ step (nfs h) s') \/
    (s' = nfs h /\ exists reply, phase c' = Answering reply info /\ answers_message msg reply).
Proof.
  intros (Hs & (g & Hg & Hr) & Hc)%net_host_ok. split; [done|]. split; [by exists g|].
  intros id c msg info seen v future c' s' Hid Hp Hroom Hf E.
  by apply (call_turn_ok msg info seen v future c c' _ _ (Hc id c Hid) Hp (conj Hs Hroom) Hf).
Qed.
End ServiceSpec.
