(* ===== verification/ServiceDemo.v ===== *)
(** * A call through the process

    Alice connects, establishes a context and sends a COMPOUND under it, as bytes on her
    connection to the server of [Demo]. Between the two actions of her COMPOUND, Bob's on
    another connection takes its first. *)

From S2P Require Import Prelude NfsTypes Xdr Rpc MultiIndex Locking FileManager Export ClientManager Request Perm Compound Handle.
From S2P Require Import Execute OpsContract Server ServerSpec Demo ServerProps Interleave.
From S2P Require Import KrbCrypto KrbCryptoSpec KrbToken KrbKeytab KrbAcceptor KrbHandshake KrbDemo Gss GssSpec GssDemo.
From S2P Require Import Service ServiceSpec.
From stdpp Require Import base list gmap strings.
From Stdlib Require Import Strings.Byte ZArith Lia.
#[local] Open Scope Z_scope.

(** Every COMPOUND is a PUTROOTFH. *)
Definition root_args : reader Compound4args := fun b => Ok (MkCompound4args (String.string_of_list_byte b) 0 [Opputrootfh], []).

Definition wire_header (xid proc : Z) (cred : RpcSecGssCred) : list byte :=
  concat (be_bytes 4 <$> [xid; 0; 2; 100003; 4; proc; 6]) ++ gss_put_opaque (RpcSecGssCred_encode cred).

(** Alice's calls as records. *)
Definition init_record : list byte :=
  fragment true (wire_header 1 0 (MkRpcSecGssCred 1 RPCSEC_GSS_INIT 0 1 []) ++ replicate 8 x00 ++ gss_put_opaque alice.2).
Definition compound_record (seq : Z) : list byte :=
  let header := wire_header (100 + seq) 1 (MkRpcSecGssCred 1 RPCSEC_GSS_DATA seq RPC_GSS_SVC_INTEGRITY alice_handle) in
  let body := be_bytes 4 seq ++ [x68; x69] in
  fragment true (header ++ be_bytes 4 6 ++ gss_put_opaque (alice_mic header) ++
    gss_put_opaque body ++ gss_put_opaque (alice_mic body)).

Definition demo_conn : Type :=
  Connection (O:=Disk) (P:=string) (C:=unit) (L:=list LockingState) (H:=list (Filehandle string unit)) (M:=list ClientEntry).
Definition demo_process : Type :=
  Host (O:=Disk) (P:=string) (C:=unit) (L:=list LockingState) (H:=list (Filehandle string unit)) (M:=list ClientEntry).

Definition demo_receive (m : GssMoment) (c : demo_conn) (g : option GssServer) : option demo_conn * option GssServer :=
  receive_turn no_files root_args toy_res m c g.
Definition demo_calls (c : demo_conn) (s : disk_server) : option (demo_conn * disk_server) :=
  match phase c with
  | Calling msg info seen (Some v) => call_turn (F:=open_handle) no_ip no_ip no_name no_name msg info seen v [] c s
  | _ => None
  end.
Definition looks (c : demo_conn) (s : disk_server) : demo_conn :=
  match phase c with Calling msg info seen _ => set_phase c (Calling msg info seen (Some s)) | _ => c end.
Definition demo_answers (reply : RpcReplyMsg) (info : option GssReply) (c : demo_conn) (g : option GssServer) :
    option demo_conn * option GssServer :=
  answer_turn toy_res (Ok (be_bytes 16 3)) reply info c g.

Definition got (x : option demo_conn * option GssServer) (c : demo_conn) : demo_conn := default c x.1.

(** The turns of Alice's connection. *)
Definition alice_conn : demo_conn :=
  Eval vm_compute in set_inbuf (connect "10.0.0.5:700" (Some (MkManagerHandle 1 "/export")) 1) (init_record ++ compound_record 10) false.
Definition turn1 : option demo_conn * option GssServer := Eval vm_compute in demo_receive (at_gss 2010 10) alice_conn (Some service_start).
Definition conn1 : demo_conn := Eval vm_compute in got turn1 alice_conn.
Definition turn2 : option demo_conn * option GssServer := Eval vm_compute in demo_receive (at_gss 2020 20) conn1 turn1.2.
Definition conn2 : demo_conn := Eval vm_compute in got turn2 conn1.

(** Bob's connection, and his COMPOUND read. *)
Definition bob_record : list byte :=
  fragment true (concat (be_bytes 4 <$> [7; 0; 2; 100003; 4; 1; 1]) ++
    gss_put_opaque (concat (be_bytes 4 <$> [0; 1]) ++ [x68; x00; x00; x00] ++ concat (be_bytes 4 <$> [1000; 100; 0])) ++
    be_bytes 4 0 ++ be_bytes 4 0 ++ [x68; x69]).
Definition bob_conn : demo_conn :=
  Eval vm_compute in set_inbuf (connect "10.0.0.6:701" (Some (MkManagerHandle 1 "/export")) 1) bob_record false.
Definition bob1 : demo_conn := Eval vm_compute in got (demo_receive (at_gss 2020 20) bob_conn turn2.2) bob_conn.

(** Alice's first action, Bob's first, Alice's second and the end of her call. *)
Definition after (x : option (demo_conn * disk_server)) (s : disk_server) : disk_server := default s (snd <$> x).
Definition now_at (x : option (demo_conn * disk_server)) (c : demo_conn) : demo_conn := default c (fst <$> x).
Definition looked2 : demo_conn := Eval vm_compute in looks conn2 one_export.
Definition act1 : option (demo_conn * disk_server) := Eval vm_compute in demo_calls looked2 one_export.
Definition alice1 : demo_conn := Eval vm_compute in now_at act1 looked2.
Definition server1 : disk_server := Eval vm_compute in after act1 one_export.
Definition bob_looked : demo_conn := Eval vm_compute in looks bob1 server1.
Definition bob_act : option (demo_conn * disk_server) := Eval vm_compute in demo_calls bob_looked server1.
Definition bob2 : demo_conn := Eval vm_compute in now_at bob_act bob_looked.
Definition server2 : disk_server := Eval vm_compute in after bob_act server1.
Definition alice2 : demo_conn := Eval vm_compute in looks alice1 server2.
Definition act2 : option (demo_conn * disk_server) := Eval vm_compute in demo_calls alice2 server2.
Definition alice3 : demo_conn := Eval vm_compute in now_at act2 alice2.
Definition server3 : disk_server := Eval vm_compute in after act2 server2.
Definition alice4 : demo_conn := Eval vm_compute in looks alice3 server3.
Definition turn3 : option (demo_conn * disk_server) := Eval vm_compute in demo_calls alice4 server3.
Definition conn3 : demo_conn := Eval vm_compute in now_at turn3 alice4.
Definition pending_answer : RpcReplyMsg * option GssReply :=
  Eval vm_compute in match phase conn3 with Answering reply info => (reply, info) | _ => (alice_reply, None) end.
Definition turn4 : option demo_conn * option GssServer :=
  Eval vm_compute in demo_answers pending_answer.1 pending_answer.2 conn3 turn2.2.
Definition conn4 : demo_conn := Eval vm_compute in got turn4 conn3.

Lemma first_turn : demo_receive (at_gss 2010 10) alice_conn (Some service_start) = (Some conn1, turn1.2).
Proof. vm_cast_no_check (eq_refl (Some conn1, turn1.2)). Qed.
Lemma second_turn : demo_receive (at_gss 2020 20) conn1 turn1.2 = (Some conn2, turn2.2).
Proof. vm_cast_no_check (eq_refl (Some conn2, turn2.2)). Qed.
Lemma bob_turn : demo_receive (at_gss 2020 20) bob_conn turn2.2 = (Some bob1, turn2.2).
Proof. vm_cast_no_check (eq_refl (Some bob1, turn2.2)). Qed.
Lemma alice_looks : looked2 = looks conn2 one_export.
Proof. vm_cast_no_check (eq_refl looked2). Qed.
Lemma alice_acts : demo_calls looked2 one_export = Some (alice1, server1).
Proof. vm_cast_no_check (eq_refl (Some (alice1, server1))). Qed.
Lemma bob_looks : bob_looked = looks bob1 server1.
Proof. vm_cast_no_check (eq_refl bob_looked). Qed.
Lemma bob_acts : demo_calls bob_looked server1 = Some (bob2, server2).
Proof. vm_cast_no_check (eq_refl (Some (bob2, server2))). Qed.
Lemma alice_looks_again : alice2 = looks alice1 server2.
Proof. vm_cast_no_check (eq_refl alice2). Qed.
Lemma alice_acts_again : demo_calls alice2 server2 = Some (alice3, server3).
Proof. vm_cast_no_check (eq_refl (Some (alice3, server3))). Qed.
Lemma alice_looks_last : alice4 = looks alice3 server3.
Proof. vm_cast_no_check (eq_refl alice4). Qed.
Lemma alice_ends : demo_calls alice4 server3 = Some (conn3, server3).
Proof. vm_cast_no_check (eq_refl (Some (conn3, server3))). Qed.
Lemma fourth_turn : demo_answers pending_answer.1 pending_answer.2 conn3 turn2.2 = (Some conn4, turn4.2).
Proof. vm_cast_no_check (eq_refl (Some conn4, turn4.2)). Qed.

#[local] Opaque receive_turn call_turn answer_turn.

#[local] Abbreviation alice_net :=
  (net_run (F:=open_handle) no_ip no_ip no_name no_name no_files root_args toy_res Some every_dir no_vfs (Some service_start)).

Lemma connect_bytes : alice_conn = set_inbuf (connect "10.0.0.5:700" (Some (MkManagerHandle 1 "/export")) 1) (init_record ++ compound_record 10) false.
Proof. vm_cast_no_check (eq_refl alice_conn). Qed.
Lemma bob_bytes : bob_conn = set_inbuf (connect "10.0.0.6:701" (Some (MkManagerHandle 1 "/export")) 1) bob_record false.
Proof. vm_cast_no_check (eq_refl bob_conn). Qed.

(** A connection that comes with its bytes. *)
Lemma net_came t (h : demo_process) id addr dfm boot bytes :
  alice_net t h -> connections h !! id = None ->
  alice_net t (set_connection id (Some (set_inbuf (connect addr dfm boot) bytes false)) (gss_server h) h).
Proof.
  intros Hn Hid. set (c0 := connect addr dfm boot).
  replace (set_connection id _ _ h) with (set_connection id (Some (set_inbuf c0 (inbuf c0 ++ bytes) false))
    (gss_server h) (set_connection id (Some c0) (gss_server h) h)) by (unfold set_connection; cbn [connections nfs inbuf c0 connect app]; by rewrite insert_insert_eq).
  assert (H1 : alice_net t (set_connection id (Some c0) (gss_server h) h)).
  { eapply net_continues; [exact Hn|]. by apply net_connects. }
  eapply net_continues; [exact H1|]. apply net_arrives with (h := set_connection id (Some c0) (gss_server h) h), lookup_insert_eq.
Qed.

Definition room_for (c : demo_conn) (s : disk_server) : bool :=
  match phase c with Calling msg _ _ _ => roomb (S (length (ops_of_msg msg))) s | _ => false end.

Lemma net_looked t (h : demo_process) id c s :
  alice_net t h -> connections h !! id = Some c -> nfs h = s -> room_for c s = true ->
  alice_net t (set_connection id (Some (looks c s)) (gss_server h) h).
Proof.
  intros Hn Hc <- Hroom. unfold room_for in Hroom. unfold looks. destruct (phase c) as [|msg info seen x|] eqn:Ep; try discriminate Hroom.
  eapply net_continues; [exact Hn|]. eapply net_looks; [exact Hc|exact Ep|by apply roomb_room].
Qed.

Lemma net_acted t (h : demo_process) id c s c' s' :
  alice_net t h -> connections h !! id = Some c -> nfs h = s -> room_for c s = true -> demo_calls c s = Some (c', s') ->
  alice_net t (set_connection id (Some c') (gss_server h) (set_nfs h s')).
Proof.
  intros Hn Hc <- Hroom Ec. unfold room_for in Hroom. unfold demo_calls in Ec.
  destruct (phase c) as [|msg info seen [v|]|] eqn:Ep; try discriminate Hroom; try discriminate Ec.
  eapply net_continues; [exact Hn|]. eapply net_calls; [exact Hc|exact Ep|by apply roomb_room|by apply Forall_nil|exact Ec].
Qed.

(** The process when both have read their messages, and when Bob came between. *)
Definition host0 : demo_process := MkHost one_export (Some service_start) ∅.
Definition host1 : demo_process :=
  set_connection 2 (Some bob1) turn2.2 (set_connection 2 (Some bob_conn) turn2.2 (set_connection 1 (Some conn2) turn2.2
    (set_connection 1 (Some conn1) turn1.2 (set_connection 1 (Some alice_conn) (Some service_start) host0)))).
Definition host2 : demo_process :=
  set_connection 1 (Some alice2) turn2.2 (set_connection 2 (Some bob2) turn2.2 (set_nfs (set_connection 2 (Some bob_looked) turn2.2
    (set_connection 1 (Some alice1) turn2.2 (set_nfs (set_connection 1 (Some looked2) turn2.2 host1) server1))) server2)).

Ltac conn := unfold host2, host1, host0; cbn [connections set_connection set_nfs nfs]; repeat (rewrite lookup_insert_ne by done); apply lookup_insert_eq.

Lemma read_run : alice_net [(0%nat, 10)] host1.
Proof.
  assert (R1 : alice_net [] (set_connection 1 (Some alice_conn) (Some service_start) host0)).
  { rewrite connect_bytes. apply (net_came _ host0); [|done]. apply net_starts. exact one_export_reachable. }
  assert (R2 : alice_net [] (set_connection 1 (Some conn1) turn1.2 (set_connection 1 (Some alice_conn) (Some service_start) host0))).
  { change (@nil (nat * Z)) with (let_through (Some conn1) ++ []). eapply net_continues; [exact R1|].
    apply net_receives with (c := alice_conn) (m := at_gss 2010 10); [conn|done|exact first_turn]. }
  assert (S2 : alice_net [(0%nat, 10)] (set_connection 1 (Some conn2) turn2.2 (set_connection 1 (Some conn1) turn1.2
    (set_connection 1 (Some alice_conn) (Some service_start) host0)))).
  { change [(0%nat, 10)] with (let_through (Some conn2) ++ []). eapply net_continues; [exact R2|].
    apply net_receives with (c := conn1) (m := at_gss 2020 20); [conn|done|exact second_turn]. }
  assert (R3 : alice_net [(0%nat, 10)] (set_connection 2 (Some bob_conn) turn2.2 (set_connection 1 (Some conn2) turn2.2
    (set_connection 1 (Some conn1) turn1.2 (set_connection 1 (Some alice_conn) (Some service_start) host0))))).
  { rewrite bob_bytes. apply net_came; [exact S2|]. reflexivity. }
  eapply net_continues; [exact R3|]. change [(0%nat, 10)] with (let_through (Some bob1) ++ [(0%nat, 10)]).
  apply net_receives with (c := bob_conn) (m := at_gss 2020 20); [conn|done|exact bob_turn].
Qed.

Lemma between_run : alice_net [(0%nat, 10)] host2.
Proof.
  unfold host2. rewrite alice_looks_again. eapply net_looked; [|conn|done|by vm_compute].
  eapply net_acted; [|conn|done|by vm_compute|exact bob_acts].
  rewrite bob_looks. eapply net_looked; [|conn|done|by vm_compute].
  eapply net_acted; [|conn|done|by vm_compute|exact alice_acts].
  rewrite alice_looks. eapply net_looked; [exact read_run|conn|done|by vm_compute].
Qed.

Lemma process_run : exists h : demo_process,
  alice_net [(0%nat, 10)] h /\ nfs h = server3 /\ gss_server h = turn4.2 /\ connections h !! 1%nat = Some conn4.
Proof.
  eexists (set_connection 1 (Some conn4) turn4.2 (set_connection 1 (Some conn3) turn2.2 (set_nfs
    (set_connection 1 (Some alice4) turn2.2 (set_connection 1 (Some alice3) turn2.2 (set_nfs host2 server3))) server3))).
  split; [|split; [done|split; [done|conn]]].
  eapply net_continues; [|eapply net_answers with (c := conn3) (random := Ok (be_bytes 16 3)) (reply := pending_answer.1) (info := pending_answer.2);
    [conn|done|exact fourth_turn]].
  eapply net_acted; [|conn|done|by vm_compute|exact alice_ends].
  rewrite alice_looks_last. eapply net_looked; [|conn|done|by vm_compute].
  eapply net_acted; [exact between_run|conn|done|by vm_compute|exact alice_acts_again].
Qed.

(** Alice's second action, after Bob's, is a step of the server. *)
Lemma process_refines_parts_witness :
  server_reachable (F:=open_handle) Some every_dir no_vfs no_ip no_ip no_name no_name server2 /\
  (exists seen, length seen = 2%nat /\ match phase alice3 with Calling _ _ seen' _ => seen' = seen | _ => False end) /\
  server_step (F:=open_handle) Some every_dir no_vfs no_ip no_ip no_name no_name server2 server3.
Proof.
  destruct (process_refines_parts no_ip no_ip no_name no_name no_files root_args toy_res Some every_dir no_vfs demo_memory_root)
    with (k := service_keytab) (mappings := [MkPrincipalMapping "alice@EXAMPLE.LO" 1001 1001 [10]]) (etc := "/etc"%string)
    (t := [(0%nat, 10)]) (h := host2) as (Hr & _ & Ht).
  - intros b a rest [= <- _]. repeat constructor.
  - exact between_run.
  - split; [exact Hr|]. pose proof alice_acts_again as Ec. unfold demo_calls in Ec.
    destruct (phase alice2) as [|msg info seen [v|]|] eqn:Ep; try discriminate Ec.
    assert (Hroom : room_for alice2 server2 = true) by (vm_compute; reflexivity). unfold room_for in Hroom. rewrite Ep in Hroom.
    destruct (Ht 1%nat alice2 msg info seen v [] alice3 server3) as [[Hp Hs]|(_ & reply & Hp & _)];
      [conn|exact Ep|by apply roomb_room|by apply Forall_nil|exact Ec| |exfalso].
    + split; [|exact Hs]. exists (seen ++ [(v, server2)]). rewrite Hp. split; [|reflexivity].
      assert (Hl : length seen = 1%nat).
      { change 1%nat with (match phase alice2 with Calling _ _ l _ => length l | _ => 0%nat end). rewrite Ep. reflexivity. }
      rewrite length_app, Hl. reflexivity.
    + apply (f_equal (fun p => match p with Answering _ _ => true | _ => false end)) in Hp. vm_compute in Hp. discriminate Hp.
Defined.

(** Both calls are answered. *)
Definition taken_ids (m : GssMoment) (c : demo_conn) (g : option GssServer) : list Z :=
  match next_message root_args c with
  | Some msg => if dropped no_files root_args m g msg then [] else [call_xid msg]
  | None => []
  end.

Lemma first_taken : taken_ids (at_gss 2010 10) alice_conn (Some service_start) = [1].
Proof. vm_cast_no_check (eq_refl [1]). Qed.
Lemma second_taken : taken_ids (at_gss 2020 20) conn1 turn1.2 = [110].
Proof. vm_cast_no_check (eq_refl [110]). Qed.

#[local] Abbreviation alice_turns :=
  (conn_run (L:=list LockingState) (H:=list (Filehandle string unit)) (M:=list ClientEntry) (F:=open_handle)
    no_ip no_ip no_name no_name no_files root_args toy_res "10.0.0.5:700" (Some (MkManagerHandle 1 "/export")) 1).

Lemma alice_conn_run : alice_turns [1; 110] conn4.
Proof.
  assert (R1 : alice_turns [] alice_conn).
  { rewrite connect_bytes. apply (conn_arrives _ _ _ _ _ _ _ _ _ _ _ (connect _ _ _)); [apply conn_starts|done]. }
  assert (R2 : alice_turns [1] conn1).
  { change [1] with ([] ++ [1]). rewrite <- first_taken. eapply conn_receives; [exact R1|done|exact first_turn]. }
  assert (R3 : alice_turns [1; 110] conn2).
  { change [1; 110] with ([1] ++ [110]). rewrite <- second_taken. eapply conn_receives; [exact R2|done|exact second_turn]. }
  assert (Rl : forall c s, alice_turns [1; 110] c -> alice_turns [1; 110] (looks c s)).
  { intros c s Hc. unfold looks. destruct (phase c) as [|msg info seen x|] eqn:Ep; try exact Hc. by eapply conn_looks. }
  assert (Rc : forall c s c' s', alice_turns [1; 110] c -> demo_calls c s = Some (c', s') -> alice_turns [1; 110] c').
  { intros c s c' s' Hc. unfold demo_calls. destruct (phase c) as [|msg info seen [v|]|] eqn:Ep; intros Ec; try discriminate Ec.
    eapply conn_calls; [exact Hc|exact Ep|exact Ec]. }
  eapply conn_answers with (c := conn3) (random := Ok (be_bytes 16 3)) (reply := pending_answer.1) (info := pending_answer.2); [|done|exact fourth_turn].
  eapply Rc; [|exact alice_ends]. rewrite alice_looks_last. apply Rl. eapply Rc; [|exact alice_acts_again].
  rewrite alice_looks_again. apply Rl. eapply Rc; [|exact alice_acts]. rewrite alice_looks. by apply Rl.
Qed.

Lemma replies_in_order_witness : answers_of toy_res [1; 110] (outbuf conn4).
Proof.
  destruct (replies_in_order no_ip no_ip no_name no_name no_files root_args toy_res "10.0.0.5:700" _ 1 [1; 110] conn4 alice_conn_run)
    as (Ha & _).
  exact Ha.
Defined.
