(* ===== verification/Process.v ===== *)
(** * The life of the program, over its restarts

    A process is started with some settings, goes on with the clients of the state file,
    serves connections, saves its clients now and then, and stops at any moment, also in
    the middle of a save; what it leaves behind is the state directory. *)

From S2P Require Import Prelude NfsTypes Xdr Rpc MultiIndex Locking FileManager Export ClientManager ClientManagerSpec StateFile Request.
From S2P Require Import Handle OpsState OpsContract Server ServerProps KrbCrypto KrbCryptoSpec KrbKeytab KrbAcceptor Gss GssSpec Startup StartupSpec.
From S2P Require Import Service ServiceSpec.
From S2P Require Sessions.
From stdpp Require Import base list gmap strings.
From Stdlib Require Import Strings.Byte ZArith Lia.
#[local] Open Scope Z_scope.

Section Process.
Context {O P C L H M F : Type}.
Context `{V : !Vfs O P C} `{ML : !MultiIndex LockingState L lock_clash}
        `{MH : !MultiIndex (Filehandle P C) H fh_clash} `{CW : !ClientWorld O}
        `{MC : !MultiIndex ClientEntry M client_clash} `{IO : !FileIo O P F} `{OUT : !Outside O P C}.
Context `{HPR : PrimitivesOk} `{D : Der}.
Variable parse_ip parse_socket : string -> option IpAddr.
Variable getpwnam getgrnam : string -> option Z.
Variable read_to_string : string -> option string.
Variable compound_args : reader Compound4args.
Variable compound_res : Compound4res -> result (list byte) XdrError.
Variable canonicalize : string -> option string.
Variable is_dir : string -> bool.
Variable export_vfs : string -> P.
Variable epoch : O -> Z.
Variable read_file : string -> option (list byte).
Variable create_dir_all : string -> bool.
Variable tls_ready : string -> string -> bool.
Variable to_json : StateSnapshot -> option string.
Variable from_json : string -> option StateSnapshot.
Hypothesis memory_root_path : path_of memory_root = "/"%string.
Hypothesis decoded_args_ok : forall b a rest, compound_args b = Ok (a, rest) -> Forall args_ok (compound4args_argarray a).
Hypothesis canonical_fixed : forall p c, canonicalize p = Some c -> canonicalize c = Some c.
Hypothesis json_roundtrip : forall x j, to_json x = Some j -> from_json j = Some x.
#[local] Abbreviation Srv := (Server O P C L H M).
#[local] Abbreviation Hst := (Host (O:=O) (P:=P) (C:=C) (L:=L) (H:=H) (M:=M)).
#[local] Abbreviation Nfs := (NFSServer (O:=O) (P:=P) (C:=C) (L:=L) (H:=H) (M:=M)).
#[local] Abbreviation Reachable :=
  (server_reachable (F:=F) (L:=L) (H:=H) (M:=M) canonicalize is_dir export_vfs parse_ip parse_socket getpwnam getgrnam).
#[local] Abbreviation goes :=
  (net_step (F:=F) parse_ip parse_socket getpwnam getgrnam read_to_string compound_args compound_res canonicalize is_dir export_vfs).
#[local] Abbreviation starts_up := (start_up canonicalize is_dir export_vfs parse_ip epoch read_file create_dir_all tls_ready).
#[local] Abbreviation registers_all := (register_all canonicalize is_dir export_vfs parse_ip epoch).

(** Client ids are unsigned, and not the last one. *)
Definition ids_fit (c : ClientManager M) : Prop := Forall (fun e => 0 <= clientid e < umax 64) (mi_iter (db c)).

(** The directory that a server keeps its state in. *)
Definition files_of (n : Nfs) (d : Directory) : option Directory := (fun _ => d) <$> state_directory n.

(** A running process has its settings' server, the calls that RPCSEC_GSS let through, and
    its host. *)
Inductive life : option (Nfs * list (nat * Z) * Hst) -> Directory -> Prop :=
| life_begins d : d !! state_path = None -> life None d
| life_starts d st o n now s d' :
    life None d -> starts_up st o = Ok n -> restore_state from_json now (files_of n d) (core n) = (s, d') ->
    life (Some (n, [], MkHost s (gss n) ∅)) (default d d')
| life_goes n t h d t' h' : life (Some (n, t, h)) d -> goes t h t' h' -> life (Some (n, t', h')) d
| life_saves n t h d io now boot r d' :
    life (Some (n, t, h)) d -> state_directory n <> None -> ids_fit (clients (nfs h)) ->
    save_clients to_json io now boot (clients (nfs h)) (outside_world (nfs h)) d = (r, d') -> life (Some (n, t, h)) d'
| life_stops p d : life p d -> life None d.

(** A state file is one that a start can go on with. *)
Definition file_ok (d : Directory) : Prop :=
  forall j, d !! state_path = Some j ->
    exists x, from_json j = Some x /\ version x = 1 /\ snapshots_ok (saved_clients x) /\
      Forall (fun p => snap_confirmed p = true) (saved_clients x).

Lemma save_keeps io now boot (c : ClientManager M) (w : O) d r d' :
  cm_inv c -> ids_fit c -> file_ok d -> save_clients to_json io now boot c w d = (r, d') -> file_ok d'.
Proof.
  intros Hc Hids Hd. unfold save_clients. change (get_all_clients c w) with (Some (filter (fun e => confirmed e = true) (mi_iter (db c))), c, w).
  cbn [fst]. set (x := MkStateSnapshot _ _ _ _ _). intros Hs.
  assert (Hkept : io <> Saves -> file_ok d').
  { intros Hio j Hj. apply Hd. rewrite <-(save_atomic to_json io x d Hio), Hs. exact Hj. }
  destruct io; [|by apply Hkept..]. clear Hkept. unfold save in Hs. destruct (to_json x) as [j|] eqn:Ej; injection Hs as _ <-; [|done].
  intros j' [= <-]%lookup_insert_rev. exists x. split; [by apply json_roundtrip|]. split; [done|].
  split; [by apply saved_snapshots_ok|]. apply Forall_fmap, Forall_forall. intros e [He _]%list_elem_of_filter. done.
Qed.

(** What a start makes of the file is a client table of the client manager's own. *)
Lemma recovered_reachable now d (w : O) : file_ok d -> client_reachable (recover (M:=M) from_json now d w).1.1 /\ file_ok (recover (M:=M) from_json now d w).2.
Proof.
  intros Hd. unfold recover. destruct (load from_json now d) as [x|e] eqn:El; [|split; [constructor|exact Hd]].
  assert (Hx : snapshots_ok (saved_clients x) /\ Forall (fun p => snap_confirmed p = true) (saved_clients x)).
  { unfold load in El. destruct (d !! state_path) as [j|] eqn:Ej; [|done]. destruct (Hd j Ej) as (y & Ey & _ & H1 & H2).
    rewrite Ey in El. repeat case_match; try done. by injection El as <-. }
  destruct Hx as [H1 H2]. pose proof (reach_restored (saved_clients x) w H1 H2) as Hr. cbn [client_handle_message] in Hr. unfold bind at 1 in Hr.
  destruct (restore_clients (saved_clients x) 0 ClientManager.new w) as [[r c] w']. cbn [fst snd] in *. split.
  - by destruct r.
  - intros j. unfold clear. by rewrite lookup_delete_eq.
Qed.

(** The export table is set up without regard to the clients. *)
Lemma tell_with_clients msg (s : Srv) c :
  (tell_exports canonicalize is_dir parse_ip msg (Server.set_clients s c)).2 = Server.set_clients (tell_exports canonicalize is_dir parse_ip msg s).2 c.
Proof. unfold tell_exports. change (table (Server.set_clients s c)) with (table s). by destruct (export_handle_message _ _ _ _ (table s) msg). Qed.

Definition with_clients (c : ClientManager M) {E} (r : result Srv E) : result Srv E := try s := r in Ok (Server.set_clients s c).

Lemma register_with_clients e sec (s : Srv) c :
  register canonicalize is_dir export_vfs parse_ip epoch e sec (Server.set_clients s c)
  = with_clients c (register canonicalize is_dir export_vfs parse_ip epoch e sec s).
Proof.
  unfold register. destruct (canonicalize (entry_path e)) as [p|]; [|done]. destruct (negb (is_dir p)); [done|].
  unfold server_add_export. change (table (Server.set_clients s c)) with (table s). change (outside_world (Server.set_clients s c)) with (outside_world s).
  destruct (add_export _ _ _ (table s) _ _ _) as [[i|x] t]; [|done]. destruct (FileManager.new _ _ _ _ _) as [[fm o]|]; [|done].
  change (set_outside (set_managers (set_table (Server.set_clients s c) t) (<[Export.export_id i := fm]> (managers (Server.set_clients s c)))) o)
    with (Server.set_clients (set_outside (set_managers (set_table s t) (<[Export.export_id i := fm]> (managers s))) o) c).
  destruct (_ || _); destruct (squash_of (entry_squash e)); try done; unfold with_clients; cbn [result_bind]; by rewrite ?tell_with_clients.
Qed.

Lemma register_all_with_clients l : forall (s : Srv) c,
  registers_all l (Server.set_clients s c) = with_clients c (registers_all l s).
Proof.
  induction l as [|[e sec] l IH]; intros s c; [done|]. cbn [register_all]. rewrite register_with_clients.
  destruct (register _ _ _ _ _ e sec s) as [s1|x]; cbn [with_clients result_bind]; [|done]. apply IH.
Qed.

Lemma started_parts st o n :
  starts_up st o = Ok n ->
  Reachable (core n) /\ (forall c o', client_reachable c -> Reachable (set_outside (Server.set_clients (core n) c) o')) /\
  (forall g, gss n = Some g -> exists k mappings, g = with_etc k mappings "/etc").
Proof.
  intros E. split.
  { pose proof (start_up_ok (F:=F) canonicalize is_dir export_vfs parse_ip parse_socket getpwnam getgrnam epoch canonical_fixed
      read_file create_dir_all tls_ready st o) as R. rewrite E in R. tauto. }
  unfold start_up in E. apply result_bind_ok in E as (secs & Esec & E). apply result_bind_ok in E as (s & Er & E).
  apply result_bind_ok in E as (_ & _ & E). apply result_bind_ok in E as (g & Eg & E).
  apply result_bind_ok in E as (_ & _ & [= <-]). cbn [core gss]. split.
  - intros c o' Hc. pose proof (export_sec_ok (set_keytab st) (set_exports st)) as Hsec. rewrite Esec in Hsec. destruct Hsec as [_ ->].
    pose proof (register_all_ok (F:=F) canonicalize is_dir export_vfs parse_ip parse_socket getpwnam getgrnam epoch canonical_fixed
      (set_exports st) (Server.start o c (Some Sessions.new)) ltac:(done)) as R.
    change (Server.start o c (Some Sessions.new)) with (Server.set_clients (Server.start o ClientManager.new (Some Sessions.new) : Srv) c) in R at 1.
    rewrite register_all_with_clients, Er in R. cbn [with_clients result_bind] in R. destruct R as (_ & _ & _ & _ & R).
    eapply server_run; [apply R, server_start; [done|by intros ? [= <-]]|]. apply step_outside.
  - intros g' ->. destruct (set_keytab st) as [path|]; [|done]. apply result_bind_ok in Eg as (g & Eg & [= ->]). unfold gss_of in Eg.
    destruct (Keytab_load read_file path) as [k|]; [|done]. destruct (_ =? 0)%nat; [done|]. injection Eg as <-. by do 2 eexists.
Qed.

(** What holds of the program at every moment. *)
Definition sound (p : option (Nfs * list (nat * Z) * Hst)) : Prop :=
  match p with
  | Some (n, t, h) =>
    host_ok (F:=F) parse_ip parse_socket getpwnam getgrnam read_to_string compound_args compound_res canonicalize is_dir export_vfs (gss n) t h /\
    forall g, gss n = Some g -> exists k mappings, g = with_etc k mappings "/etc"
  | None => True
  end.

Lemma restored_sound d st o n now s d' :
  file_ok d -> starts_up st o = Ok n -> restore_state from_json now (files_of n d) (core n) = (s, d') ->
  sound (Some (n, [], MkHost s (gss n) ∅)) /\ file_ok (default d d').
Proof.
  intros Hd (Hn & Hr & Hg)%started_parts. unfold restore_state, files_of. destruct (state_directory n); cbn [fmap option_fmap option_map].
  - pose proof (recovered_reachable now d (outside_world (core n)) Hd) as [Hc Hd']. destruct (recover _ _ _ _) as [[c o'] d2]. cbn [fst snd] in *.
    intros [= <- <-]. split; [|done]. split; [|done]. apply host_starts_ok. by apply Hr.
  - intros [= <- <-]. split; [|done]. split; [|done]. by apply host_starts_ok.
Qed.
Lemma life_sound p d : life p d -> sound p /\ file_ok d.
Proof.
  induction 1 as [d Hd|d st o n now s d' _ [_ Hd] Est Er|n t h d t' h' _ [[Hh Hg] Hd] Hstep|
    n t h d io now boot r d' _ [[Hh Hg] Hd] _ Hids Es|p d _ [_ Hd]].
  - split; [done|]. intros j Hj. congruence.
  - by eapply restored_sound.
  - split; [|done]. split; [|done]. by eapply net_step_ok.
  - split; [done|]. eapply save_keeps; [|exact Hids|exact Hd|exact Es]. apply client_reachable_inv. destruct Hh as (Hs & _).
    by destruct (reachable_ok (F:=F) canonicalize is_dir export_vfs parse_ip parse_socket getpwnam getgrnam memory_root_path _ Hs).
  - done.
Qed.

(** C38: Over any number of starts, with whatever settings, and of stops at any moment, also
    in the middle of a save: the state file, if there is one, is complete and of the
    version that a start reads, and has confirmed clients only, none of them twice; and the
    file server of a running process is in a state of its own executions, while
    RPCSEC_GSS lets no call of a context through twice, and none at all without a keytab. *)
Theorem restarts_safe p d :
  life p d ->
  (forall j, d !! state_path = Some j -> exists x, from_json j = Some x /\ version x = 1 /\ snapshots_ok (saved_clients x) /\
     Forall (fun c => snap_confirmed c = true) (saved_clients x)) /\
  forall n t h, p = Some (n, t, h) -> Reachable (nfs h) /\ NoDup t /\ (gss n = None -> t = [] /\ gss_server h = None).
Proof.
  intros [Hp Hd]%life_sound. split; [exact Hd|]. intros n t h ->. destruct Hp as ((Hs & Hg & _) & Hk). split; [exact Hs|].
  unfold gss_ran in Hg. destruct (gss n) as [g0|]; [|destruct Hg as [-> ->]; by split; [constructor|]].
  destruct Hg as (g & _ & Hr). destruct (Hk g0 eq_refl) as (k & mappings & ->).
  destruct (run_inv _ _ _ _ _ _ (start_inv k mappings "/etc") Hr) as (_ & _ & _ & _ & Hn). by split.
Qed.
End Process.
