(* ===== verification/ProcessDemo.v ===== *)
(** * A restart of the server of [StartupDemo] *)

From S2P Require Import Prelude NfsTypes Xdr Rpc MultiIndex Locking FileManager Export ClientManager ClientManagerSpec StateFile Request.
From S2P Require Import Perm Compound Handle Execute OpsContract Server ServerSpec Demo ServerProps KrbCrypto KrbCryptoSpec KrbKeytab KrbAcceptor.
From S2P Require Import KrbDemo Gss GssSpec GssDemo Startup StartupSpec StartupDemo Service ServiceSpec ServiceDemo Process.
From stdpp Require Import base list gmap strings.
From Stdlib Require Import Strings.Byte ZArith Lia.
#[local] Open Scope Z_scope.

Definition demo_life :=
  life (F:=open_handle) no_ip no_ip no_name no_name no_files root_args toy_res Some every_dir no_vfs (fun _ => 1) demo_files every_dir (fun _ _ => true)
    toy_json toy_parse.

(** The first start finds no file. *)
Definition first : disk_server * option StateFile.Directory := restore_state toy_parse 50 (Some ∅) (core started).
Definition first_host : demo_process := MkHost first.1 (gss started) ∅.

(** A client registers and confirms. *)
Definition registers : ClientManagerMessage := UpsertClient (replicate 8 x01) "client" (MkClientCallback 0 "" "" 0) None.
Definition registered_server : disk_server := (call_clients registers first.1).2.
Definition token : list byte := match db (clients registered_server) with e :: _ => setclientid_confirm e | [] => [] end.
Definition confirmed_server : disk_server := (call_clients (ConfirmClient 1 token None) registered_server).2.
Definition clients_of (s : disk_server) : list (Z * string * bool) := map (fun e => (clientid e, id e, confirmed e)) (db (clients s)).

(** Its clients are saved, a later save stops halfway, and the server starts again. *)
Definition saved : StateFile.Directory := (save_clients toy_json Saves 100 1 (clients confirmed_server) (outside_world confirmed_server) ∅).2.
Definition left_behind : StateFile.Directory :=
  (save_clients toy_json (WriteStops 7) 130 1 (clients confirmed_server) (outside_world confirmed_server) saved).2.
Definition second : disk_server * option StateFile.Directory := restore_state toy_parse 150 (Some left_behind) (core started).

Example restart_demo :
  clients_of confirmed_server = [(1, "client"%string, true)] /\ clients_of second.1 = [(1, "client"%string, true)] /\
  (state_path ∈ dom left_behind) /\ (state_path ∉ dom (default ∅ second.2)).
Proof.
  split; [vm_compute; reflexivity|]. split; [vm_compute; reflexivity|].
  split; apply (bool_decide_unpack _); vm_compute; exact I.
Qed.

(** The life of it. *)
Lemma demo_canonical (p c : string) : Some p = Some c -> Some c = Some c.
Proof. done. Qed.

Lemma demo_settings_start : start_up Some every_dir no_vfs no_ip (fun _ => 1) demo_files every_dir (fun _ _ => true) (demo_settings demo_config) empty_disk = Ok started.
Proof. exact demo_started. Qed.

Lemma room_in (s : disk_server) :
  map_Forall (fun _ fm => next_stateid_id fm + 1 + 1 < 2 ^ 64) (managers s) -> client_id_seq (clients s) + 1 < umax 64 -> has_room 1 s.
Proof. intros Hm Hc. split; [|exact Hc]. intros id fm E. exact (Hm id fm E). Qed.

Lemma clients_told t (h : demo_process) msg d :
  demo_life (Some (started, t, h)) d -> is_restore msg = false ->
  map_Forall (fun _ fm => next_stateid_id fm + 1 + 1 < 2 ^ 64) (managers (nfs h)) -> client_id_seq (clients (nfs h)) + 1 < umax 64 ->
  demo_life (Some (started, t, set_nfs h (call_clients msg (nfs h)).2)) d.
Proof.
  intros Hl Hm H1 H2. eapply life_goes; [exact Hl|]. apply net_elsewhere. apply step_clients; [exact Hm|by apply room_in].
Qed.

(** What a host holds after it was told, and what a save leaves, whatever the server is. *)
Lemma nfs_told (h : demo_process) (s : disk_server) : nfs (set_nfs h s) = s.
Proof. done. Qed.

Lemma saved_told t (h : demo_process) (s : disk_server) io now d :
  demo_life (Some (started, t, set_nfs h s)) d -> state_directory started <> None -> ids_fit (clients s) ->
  demo_life (Some (started, t, set_nfs h s)) (save_clients toy_json io now 1 (clients s) (outside_world s) d).2.
Proof.
  intros Hl Hd Hids. unfold demo_life in *. eapply life_saves; [exact Hl|exact Hd|by rewrite nfs_told|]. rewrite nfs_told. apply surjective_pairing.
Qed.

Lemma starts_told d now (s : disk_server) d' :
  demo_life None d -> restore_state toy_parse now (Some d) (core started) = (s, Some d') ->
  demo_life (Some (started, [], MkHost s (gss started) ∅)) d'.
Proof.
  intros Hl Hr. unfold demo_life in *. change d' with (default d (Some d')). eapply life_starts; [exact Hl|exact demo_settings_start|].
  replace (files_of started d) with (Some d); [exact Hr|]. unfold files_of. by destruct (state_directory started) eqn:E; [|vm_compute in E].
Qed.

Definition told_host : demo_process := set_nfs first_host registered_server.
#[local] Opaque first registered_server confirmed_server saved left_behind second.

Lemma first_life : demo_life (Some (started, [], set_nfs told_host confirmed_server)) ∅.
Proof.
  assert (H0 : demo_life (Some (started, [], first_host)) ∅).
  { apply (starts_told ∅ 50 first.1); [by apply life_begins|]. vm_compute. reflexivity. }
  assert (H1 : demo_life (Some (started, [], told_host)) ∅).
  { apply (clients_told _ _ registers _ H0); [done| |by vm_compute]. apply (bool_decide_unpack _). vm_compute. exact I. }
  apply (clients_told _ _ (ConfirmClient 1 token None) _ H1); [done| |by vm_compute]. apply (bool_decide_unpack _). vm_compute. exact I.
Qed.

Lemma confirmed_fits : ids_fit (clients confirmed_server).
Proof. apply (bool_decide_unpack _). vm_compute. exact I. Qed.

Lemma started_saves : state_directory started <> None.
Proof. vm_compute. discriminate. Qed.

Lemma saved_life : demo_life (Some (started, [], set_nfs told_host confirmed_server)) saved.
Proof. exact (saved_told [] told_host confirmed_server Saves 100 ∅ first_life started_saves confirmed_fits). Qed.

Lemma left_life : demo_life None left_behind.
Proof.
  refine (life_stops _ _ _ _ _ _ _ _ _ _ _ _ _ _ _ _ _ left_behind
    (saved_told [] told_host confirmed_server (WriteStops 7) 130 saved saved_life started_saves confirmed_fits)).
Qed.

Lemma second_life : demo_life (Some (started, [], MkHost second.1 (gss started) ∅)) (delete state_path left_behind).
Proof. apply (starts_told left_behind 150 second.1 _ left_life). vm_compute. reflexivity. Qed.

Lemma restarts_safe_witness :
  clients_of second.1 = [(1, "client"%string, true)] /\
  server_reachable (F:=open_handle) Some every_dir no_vfs no_ip no_ip no_name no_name second.1 /\
  exists j x, left_behind !! state_path = Some j /\ toy_parse j = Some x /\ version x = 1.
Proof.
  split; [vm_compute; reflexivity|]. split.
  - refine (proj1 (proj2 (restarts_safe (F:=open_handle) no_ip no_ip no_name no_name no_files root_args toy_res Some every_dir no_vfs
      (fun _ => 1) demo_files every_dir (fun _ _ => true) toy_json toy_parse demo_memory_root _ demo_canonical toy_json_roundtrip _ _ second_life)
      started [] _ eq_refl)).
    intros b a rest [= <- _]. repeat constructor.
  - assert (Hd : is_Some (left_behind !! state_path)) by (apply (bool_decide_unpack _); vm_compute; exact I).
    destruct Hd as [j Ej]. exists j.
    destruct (proj1 (restarts_safe (F:=open_handle) no_ip no_ip no_name no_name no_files root_args toy_res Some every_dir no_vfs
      (fun _ => 1) demo_files every_dir (fun _ _ => true) toy_json toy_parse demo_memory_root
      ltac:(intros b a rest [= <- _]; repeat constructor) demo_canonical toy_json_roundtrip _ _ left_life) j Ej) as (x & Ex & Hv & _).
    exact (ex_intro _ x (conj Ej (conj Ex Hv))).
Defined.
