(* ===== verification/NfsCodec.v ===== *)
(** * The COMPOUND arguments on the wire ([proto/src/nfs4_proto.rs])

    What serde derives for the argument types, over the serializer of [Xdr]: a struct
    is its fields in order, an enum the position of its variant in the declaration and
    then the variant's value, whatever numbers the declaration gives its variants.
    [codec_X] is the pair of [Serialize] and [Deserialize] of [X], with the fields'
    [serde(with = ...)]; [valid_X] is what the Rust type guarantees of its values and
    the lengths the wire can count. The codecs follow the declarations one by one. *)

From S2P Require Import Prelude NfsTypes Xdr Attrs.
From stdpp Require Import base list strings numbers sorting.
From Stdlib Require Import Strings.Byte ZArith Lia.
#[local] Open Scope Z_scope.

Notation "ca ⊗ cb" := (codec_pair ca cb) (at level 40, left associativity) : nfs_scope.

(** [utf8_opaque]: [serialize_bytes], and on the way in bytes that are then checked. *)
Definition codec_utf8_opaque : codec string :=
  Codec (fun s => put_opaque (String.list_byte_of_string s))
        (read d <- get_opaque in
         if utf8_valid d then rret (String.string_of_list_byte d)
         else rfail (Message "invalid utf-8 sequence")).

(** [Attrlist4<FileAttr>]: the words of its bitmap. *)
Definition codec_attrlist : codec (list FileAttr) := codec_iso from_u32 file_attrs_to_bitmap (codec_seq codec_u32).

(** [serialize_unit_variant], [serialize_newtype_variant]; a variant that holds [()] is
    written like one that holds nothing. *)
Definition ser_unit (index : Z) : result (list byte) XdrError := Ok (put_u32 index).
Definition ser_variant {A} (index : Z) (c : codec A) (a : A) : result (list byte) XdrError :=
  try b := c.(ser) a in Ok (put_u32 index ++ b).

(** The derived visitor: the position picks the variant, [newtype_variant] its value. *)
Definition de_variant {A V} (k : A -> V) (c : codec A) : reader V := read a <- c.(de) in rret (k a).
Definition de_variants {V} (name : string) (variants : list (reader V)) : reader V :=
  read r <- deserialize_enum name variants in r.

(** ** What the codecs promise *)

Definition i64_valid (v : Z) : Prop := - 2 ^ 63 <= v < 2 ^ 63.
Definition seq_valid {A} (va : A -> Prop) (l : list A) : Prop := Z.of_nat (length l) < 2 ^ 32 /\ Forall va l.

#[export] Instance codec_i64_valid_ok : CodecOk codec_i64 i64_valid := codec_i64_ok.
#[export] Instance codec_seq_valid_ok {A} (c : codec A) va : CodecOk c va -> CodecOk (codec_seq c) (seq_valid va) := fun _ => codec_seq_ok c va.

#[export] Instance codec_utf8_opaque_ok : CodecOk codec_utf8_opaque string_valid.
Proof.
  split; [apply codec_string_ok| |apply codec_string_ok].
  intros s bs rest [Hu _] Hs. cbn [de codec_utf8_opaque].
  rewrite (rbind_ok _ _ _ (String.list_byte_of_string s) rest) by (by apply get_opaque_put).
  rewrite Hu, String.string_of_list_byte_of_string. done.
Qed.

#[export] Instance codec_attrlist_ok : CodecOk codec_attrlist (StronglySorted attr_lt).
Proof.
  assert (Hv : forall l, Z.of_nat (length (file_attrs_to_bitmap l)) < 2 ^ 32 /\ Forall (in_width 32) (file_attrs_to_bitmap l)).
  { intros l. destruct (file_attrs_to_bitmap_bounds l) as [Hb Hw]. split; [change (2 ^ 32) with 4294967296; lia|done]. }
  split.
  - intros l _. apply (codec_total (c := codec_seq codec_u32)), Hv.
  - intros l bs rest Hl E. cbn [de codec_attrlist codec_iso].
    rewrite (rbind_ok _ _ _ _ _ (codec_roundtrip (c := codec_seq codec_u32) _ bs rest (Hv l) E)).
    unfold rret. by rewrite file_attrs_to_bitmap_sorted_inv.
  - intros l bs. apply (codec_aligned (c := codec_seq codec_u32) (file_attrs_to_bitmap l)).
Qed.

Lemma ser_unit_total i : exists bs, ser_unit i = Ok bs.
Proof. by eexists. Qed.

Lemma ser_unit_aligned i bs : ser_unit i = Ok bs -> (length bs mod 4 = 0)%nat.
Proof. intros <-%Ok_inj. apply aligned_word. Qed.

Lemma ser_variant_total {A} i (c : codec A) va a : CodecOk c va -> va a -> exists bs, ser_variant i c a = Ok bs.
Proof. intros Hc Ha. unfold ser_variant. destruct (codec_total a Ha) as [b ->]. simpl. eauto. Qed.

Lemma ser_variant_aligned {A} i (c : codec A) va a bs :
  CodecOk c va -> ser_variant i c a = Ok bs -> (length bs mod 4 = 0)%nat.
Proof.
  intros Hc (b & E & <-%Ok_inj)%result_bind_ok.
  apply aligned_app; [apply aligned_word|exact (codec_aligned (c := c) a b E)].
Qed.

Lemma deserialize_enum_at {W} name (vs : list W) i w s :
  in_width 32 i -> vs !! Z.to_nat i = Some w -> deserialize_enum name vs (put_u32 i ++ s) = Ok (w, s).
Proof.
  intros Hi Hr. unfold deserialize_enum. rewrite (rbind_ok _ _ _ i s) by (by apply get_u32_put).
  apply lookup_lt_Some in Hr as Hlt. rewrite (proj2 (Z.leb_gt _ _)) by (unfold in_width in Hi; lia).
  by rewrite Hr.
Qed.

Lemma de_variants_at {V} name (vs : list (reader V)) i r s :
  in_width 32 i -> vs !! Z.to_nat i = Some r -> de_variants name vs (put_u32 i ++ s) = r s.
Proof.
  intros Hi Hr. unfold de_variants.
  exact (rbind_ok _ _ _ r s (deserialize_enum_at name vs i r s Hi Hr)).
Qed.

Lemma de_variant_roundtrip {A V} name (vs : list (reader V)) i (k : A -> V) (c : codec A) va a bs rest :
  CodecOk c va -> va a -> in_width 32 i -> vs !! Z.to_nat i = Some (de_variant k c) ->
  ser_variant i c a = Ok bs -> de_variants name vs (bs ++ rest) = Ok (k a, rest).
Proof.
  intros Hc Ha Hi Hr (b & E & <-%Ok_inj)%result_bind_ok.
  rewrite <- app_assoc, (de_variants_at _ _ _ _ _ Hi Hr). unfold de_variant.
  by rewrite (rbind_ok _ _ _ a rest) by (by apply codec_roundtrip).
Qed.

Lemma de_unit_roundtrip {V} name (vs : list (reader V)) i (v : V) bs rest :
  in_width 32 i -> vs !! Z.to_nat i = Some (rret v) ->
  ser_unit i = Ok bs -> de_variants name vs (bs ++ rest) = Ok (v, rest).
Proof. intros Hi Hr <-%Ok_inj. by rewrite (de_variants_at _ _ _ _ _ Hi Hr). Qed.

(** The codec of a struct from the codecs of its fields, and of an enum from the codecs
    of its variants. *)
Ltac codec_struct :=
  eapply codec_ok_impl;
  [ eapply codec_iso_ok; [typeclasses eauto | intros []; reflexivity]
  | intros x Hx; try red in Hx; cbn beta iota delta [fst snd]; unfold seq_valid in *; tauto ].

Ltac codec_enum :=
  split;
  [ intros [] Hx; first [apply ser_unit_total | eapply ser_variant_total; [typeclasses eauto | exact Hx || exact I]]
  | intros [] bs rest Hx Hs;
    first [ eapply de_unit_roundtrip with (3 := Hs); [by vm_compute | reflexivity]
          | eapply de_variant_roundtrip with (5 := Hs);
            [typeclasses eauto | exact Hx || exact I | by vm_compute | reflexivity] ]
  | intros [] bs Hs;
    first [ eapply ser_variant_aligned with (2 := Hs); typeclasses eauto | eapply ser_unit_aligned with (1 := Hs) ] ].
#[local] Opaque ser_unit ser_variant.

(** ** The types *)

Definition codec_Access4args : codec Access4args :=
  codec_iso MkAccess4args access4args_access codec_u32.
Definition valid_Access4args (x : Access4args) : Prop :=
  in_width 32 (access4args_access x).
#[export] Instance codec_Access4args_ok : CodecOk codec_Access4args valid_Access4args.
Proof. codec_struct. Qed.

Definition codec_Stateid4 : codec Stateid4 :=
  codec_iso (fun '(a, b) => MkStateid4 a b)
    (fun x => (stateid4_seqid x, stateid4_other x))
    (codec_u32 ⊗ (codec_fixed 12)).
Definition valid_Stateid4 (x : Stateid4) : Prop :=
  in_width 32 (stateid4_seqid x) /\ length (stateid4_other x) = 12%nat.
#[export] Instance codec_Stateid4_ok : CodecOk codec_Stateid4 valid_Stateid4.
Proof. codec_struct. Qed.

Definition codec_Allocate4args : codec Allocate4args :=
  codec_iso (fun '(a, b, c) => MkAllocate4args a b c)
    (fun x => (allocate4args_aa_stateid x, allocate4args_aa_offset x, allocate4args_aa_length x))
    (codec_Stateid4 ⊗ codec_u64 ⊗ codec_u64).
Definition valid_Allocate4args (x : Allocate4args) : Prop :=
  valid_Stateid4 (allocate4args_aa_stateid x) /\ in_width 64 (allocate4args_aa_offset x) /\
    in_width 64 (allocate4args_aa_length x).
#[export] Instance codec_Allocate4args_ok : CodecOk codec_Allocate4args valid_Allocate4args.
Proof. codec_struct. Qed.

Definition codec_ChannelDirFromClient4 : codec ChannelDirFromClient4 :=
  Codec (fun x => match x with
  | ChannelDirFromClient4_Fore => ser_unit 0
  | ChannelDirFromClient4_Back => ser_unit 1
  | ForeOrBoth => ser_unit 2
  end)
  (de_variants "ChannelDirFromClient4"
    [rret ChannelDirFromClient4_Fore;
     rret ChannelDirFromClient4_Back;
     rret ForeOrBoth]).
#[export] Instance codec_ChannelDirFromClient4_ok : CodecOk codec_ChannelDirFromClient4 (fun _ => True).
Proof. codec_enum. Qed.

Definition codec_BindConnToSession4args : codec BindConnToSession4args :=
  codec_iso (fun '(a, b, c) => MkBindConnToSession4args a b c)
    (fun x => (bindConnToSession4args_bctsa_sessid x, bindConnToSession4args_bctsa_dir x,
      bindConnToSession4args_bctsa_use_conn_in_rdma_mode x))
    ((codec_fixed 16) ⊗ codec_ChannelDirFromClient4 ⊗ codec_bool).
Definition valid_BindConnToSession4args (x : BindConnToSession4args) : Prop :=
  length (bindConnToSession4args_bctsa_sessid x) = 16%nat.
#[export] Instance codec_BindConnToSession4args_ok : CodecOk codec_BindConnToSession4args
  valid_BindConnToSession4args.
Proof. codec_struct. Qed.

Definition codec_Close4args : codec Close4args :=
  codec_iso (fun '(a, b) => MkClose4args a b)
    (fun x => (close4args_seqid x, close4args_open_stateid x))
    (codec_u32 ⊗ codec_Stateid4).
Definition valid_Close4args (x : Close4args) : Prop :=
  in_width 32 (close4args_seqid x) /\ valid_Stateid4 (close4args_open_stateid x).
#[export] Instance codec_Close4args_ok : CodecOk codec_Close4args valid_Close4args.
Proof. codec_struct. Qed.

Definition codec_Commit4args : codec Commit4args :=
  codec_iso (fun '(a, b) => MkCommit4args a b)
    (fun x => (commit4args_offset x, commit4args_count x))
    (codec_u64 ⊗ codec_u32).
Definition valid_Commit4args (x : Commit4args) : Prop :=
  in_width 64 (commit4args_offset x) /\ in_width 32 (commit4args_count x).
#[export] Instance codec_Commit4args_ok : CodecOk codec_Commit4args valid_Commit4args.
Proof. codec_struct. Qed.

Definition codec_Netloc4 : codec Netloc4 :=
  Codec (fun x => match x with
  | Name a => ser_variant 0 codec_string a
  | Url a => ser_variant 1 codec_string a
  end)
  (de_variants "Netloc4"
    [de_variant Name codec_string;
     de_variant Url codec_string]).
Definition valid_Netloc4 (x : Netloc4) : Prop :=
  match x with
  | Name a => string_valid a
  | Url a => string_valid a
  end.
#[export] Instance codec_Netloc4_ok : CodecOk codec_Netloc4 valid_Netloc4.
Proof. codec_enum. Qed.

Definition codec_Copy4args : codec Copy4args :=
  codec_iso (fun '(a, b, c, d, e, f, g, h) => MkCopy4args a b c d e f g h)
    (fun x => (copy4args_ca_src_stateid x, copy4args_ca_dst_stateid x, copy4args_ca_src_offset x,
      copy4args_ca_dst_offset x, copy4args_ca_count x, copy4args_ca_consecutive x,
      copy4args_ca_synchronous x, copy4args_ca_source_server x))
    (codec_Stateid4 ⊗ codec_Stateid4 ⊗ codec_u64 ⊗ codec_u64 ⊗ codec_u64 ⊗ codec_bool ⊗ codec_bool ⊗
      (codec_seq codec_Netloc4)).
Definition valid_Copy4args (x : Copy4args) : Prop :=
  valid_Stateid4 (copy4args_ca_src_stateid x) /\ valid_Stateid4 (copy4args_ca_dst_stateid x) /\
    in_width 64 (copy4args_ca_src_offset x) /\ in_width 64 (copy4args_ca_dst_offset x) /\
    in_width 64 (copy4args_ca_count x) /\ seq_valid valid_Netloc4 (copy4args_ca_source_server x).
#[export] Instance codec_Copy4args_ok : CodecOk codec_Copy4args valid_Copy4args.
Proof. codec_struct. Qed.

Definition codec_Specdata4 : codec Specdata4 :=
  codec_iso (fun '(a, b) => MkSpecdata4 a b)
    (fun x => (specdata4_specdata1 x, specdata4_specdata2 x))
    (codec_u32 ⊗ codec_u32).
Definition valid_Specdata4 (x : Specdata4) : Prop :=
  in_width 32 (specdata4_specdata1 x) /\ in_width 32 (specdata4_specdata2 x).
#[export] Instance codec_Specdata4_ok : CodecOk codec_Specdata4 valid_Specdata4.
Proof. codec_struct. Qed.

Definition codec_Createtype4 : codec Createtype4 :=
  Codec (fun x => match x with
  | Createtype4_Nf4Undef => ser_unit 0
  | Createtype4_Nf4reg => ser_unit 1
  | Createtype4_Nf4dir => ser_unit 2
  | Createtype4_Nf4blk => ser_unit 3
  | Createtype4_Nf4chr a => ser_variant 4 codec_Specdata4 a
  | Createtype4_Nf4lnk a => ser_variant 5 codec_string a
  | Createtype4_Nf4sock => ser_unit 6
  | Createtype4_Nf4fifo => ser_unit 7
  | Createtype4_Nf4attrdir => ser_unit 8
  | Createtype4_Nf4namedattr => ser_unit 9
  end)
  (de_variants "Createtype4"
    [rret Createtype4_Nf4Undef;
     rret Createtype4_Nf4reg;
     rret Createtype4_Nf4dir;
     rret Createtype4_Nf4blk;
     de_variant Createtype4_Nf4chr codec_Specdata4;
     de_variant Createtype4_Nf4lnk codec_string;
     rret Createtype4_Nf4sock;
     rret Createtype4_Nf4fifo;
     rret Createtype4_Nf4attrdir;
     rret Createtype4_Nf4namedattr]).
Definition valid_Createtype4 (x : Createtype4) : Prop :=
  match x with
  | Createtype4_Nf4chr a => valid_Specdata4 a
  | Createtype4_Nf4lnk a => string_valid a
  | _ => True
  end.
#[export] Instance codec_Createtype4_ok : CodecOk codec_Createtype4 valid_Createtype4.
Proof. codec_enum. Qed.

Definition codec_Create4args : codec Create4args :=
  codec_iso (fun '(a, b, c) => MkCreate4args a b c)
    (fun x => (create4args_objtype x, create4args_objname x, create4args_createattrs x))
    (codec_Createtype4 ⊗ codec_utf8_opaque ⊗ codec_fattr4).
Definition valid_Create4args (x : Create4args) : Prop :=
  valid_Createtype4 (create4args_objtype x) /\ string_valid (create4args_objname x) /\
    valid_fattr4 (create4args_createattrs x).
#[export] Instance codec_Create4args_ok : CodecOk codec_Create4args valid_Create4args.
Proof. codec_struct. Qed.

Definition codec_AuthsysParms4 : codec AuthsysParms4 :=
  codec_iso (fun '(a, b, c, d, e) => MkAuthsysParms4 a b c d e)
    (fun x => (authsysParms4_stamp x, authsysParms4_machinename x, authsysParms4_uid x,
      authsysParms4_gid x, authsysParms4_gids x))
    (codec_u32 ⊗ codec_utf8_opaque ⊗ codec_u32 ⊗ codec_u32 ⊗ (codec_seq codec_u32)).
Definition valid_AuthsysParms4 (x : AuthsysParms4) : Prop :=
  in_width 32 (authsysParms4_stamp x) /\ string_valid (authsysParms4_machinename x) /\
    in_width 32 (authsysParms4_uid x) /\ in_width 32 (authsysParms4_gid x) /\
    seq_valid (in_width 32) (authsysParms4_gids x).
#[export] Instance codec_AuthsysParms4_ok : CodecOk codec_AuthsysParms4 valid_AuthsysParms4.
Proof. codec_struct. Qed.

Definition codec_CallbackSecParms4 : codec CallbackSecParms4 :=
  Codec (fun x => match x with
  | CallbackSecParms4_AuthNone => ser_unit 0
  | CallbackSecParms4_AuthSys a => ser_variant 1 codec_AuthsysParms4 a
  end)
  (de_variants "CallbackSecParms4"
    [rret CallbackSecParms4_AuthNone;
     de_variant CallbackSecParms4_AuthSys codec_AuthsysParms4]).
Definition valid_CallbackSecParms4 (x : CallbackSecParms4) : Prop :=
  match x with
  | CallbackSecParms4_AuthSys a => valid_AuthsysParms4 a
  | _ => True
  end.
#[export] Instance codec_CallbackSecParms4_ok : CodecOk codec_CallbackSecParms4 valid_CallbackSecParms4.
Proof. codec_enum. Qed.

Definition codec_ChannelAttrs4 : codec ChannelAttrs4 :=
  codec_iso (fun '(a, b, c, d, e, f, g) => MkChannelAttrs4 a b c d e f g)
    (fun x => (channelAttrs4_ca_headerpadsize x, channelAttrs4_ca_maxrequestsize x,
      channelAttrs4_ca_maxresponsesize x, channelAttrs4_ca_maxresponsesize_cached x,
      channelAttrs4_ca_maxoperations x, channelAttrs4_ca_maxrequests x, channelAttrs4_ca_rdma_ird x))
    (codec_u32 ⊗ codec_u32 ⊗ codec_u32 ⊗ codec_u32 ⊗ codec_u32 ⊗ codec_u32 ⊗ (codec_seq codec_u32)).
Definition valid_ChannelAttrs4 (x : ChannelAttrs4) : Prop :=
  in_width 32 (channelAttrs4_ca_headerpadsize x) /\ in_width 32 (channelAttrs4_ca_maxrequestsize x) /\
    in_width 32 (channelAttrs4_ca_maxresponsesize x) /\
    in_width 32 (channelAttrs4_ca_maxresponsesize_cached x) /\
    in_width 32 (channelAttrs4_ca_maxoperations x) /\ in_width 32 (channelAttrs4_ca_maxrequests x) /\
    seq_valid (in_width 32) (channelAttrs4_ca_rdma_ird x).
#[export] Instance codec_ChannelAttrs4_ok : CodecOk codec_ChannelAttrs4 valid_ChannelAttrs4.
Proof. codec_struct. Qed.

Definition codec_CreateSession4args : codec CreateSession4args :=
  codec_iso (fun '(a, b, c, d, e, f, g) => MkCreateSession4args a b c d e f g)
    (fun x => (createSession4args_csa_clientid x, createSession4args_csa_sequence x,
      createSession4args_csa_flags x, createSession4args_csa_fore_chan_attrs x,
      createSession4args_csa_back_chan_attrs x, createSession4args_csa_cb_program x,
      createSession4args_csa_sec_parms x))
    (codec_u64 ⊗ codec_u32 ⊗ codec_u32 ⊗ codec_ChannelAttrs4 ⊗ codec_ChannelAttrs4 ⊗ codec_u32 ⊗
      (codec_seq codec_CallbackSecParms4)).
Definition valid_CreateSession4args (x : CreateSession4args) : Prop :=
  in_width 64 (createSession4args_csa_clientid x) /\ in_width 32 (createSession4args_csa_sequence x) /\
    in_width 32 (createSession4args_csa_flags x) /\
    valid_ChannelAttrs4 (createSession4args_csa_fore_chan_attrs x) /\
    valid_ChannelAttrs4 (createSession4args_csa_back_chan_attrs x) /\
    in_width 32 (createSession4args_csa_cb_program x) /\
    seq_valid valid_CallbackSecParms4 (createSession4args_csa_sec_parms x).
#[export] Instance codec_CreateSession4args_ok : CodecOk codec_CreateSession4args valid_CreateSession4args.
Proof. codec_struct. Qed.

Definition codec_DelegPurge4args : codec DelegPurge4args :=
  codec_iso MkDelegPurge4args delegPurge4args_clientid codec_u64.
Definition valid_DelegPurge4args (x : DelegPurge4args) : Prop :=
  in_width 64 (delegPurge4args_clientid x).
#[export] Instance codec_DelegPurge4args_ok : CodecOk codec_DelegPurge4args valid_DelegPurge4args.
Proof. codec_struct. Qed.

Definition codec_DelegReturn4args : codec DelegReturn4args :=
  codec_iso MkDelegReturn4args delegReturn4args_deleg_stateid codec_Stateid4.
Definition valid_DelegReturn4args (x : DelegReturn4args) : Prop :=
  valid_Stateid4 (delegReturn4args_deleg_stateid x).
#[export] Instance codec_DelegReturn4args_ok : CodecOk codec_DelegReturn4args valid_DelegReturn4args.
Proof. codec_struct. Qed.

Definition codec_DestroyClientId4args : codec DestroyClientId4args :=
  codec_iso MkDestroyClientId4args destroyClientId4args_dca_clientid codec_u64.
Definition valid_DestroyClientId4args (x : DestroyClientId4args) : Prop :=
  in_width 64 (destroyClientId4args_dca_clientid x).
#[export] Instance codec_DestroyClientId4args_ok : CodecOk codec_DestroyClientId4args
  valid_DestroyClientId4args.
Proof. codec_struct. Qed.

Definition codec_DestroySession4args : codec DestroySession4args :=
  codec_iso MkDestroySession4args destroySession4args_dsa_sessionid (codec_fixed 16).
Definition valid_DestroySession4args (x : DestroySession4args) : Prop :=
  length (destroySession4args_dsa_sessionid x) = 16%nat.
#[export] Instance codec_DestroySession4args_ok : CodecOk codec_DestroySession4args
  valid_DestroySession4args.
Proof. codec_struct. Qed.

Definition codec_ClientOwner4 : codec ClientOwner4 :=
  codec_iso (fun '(a, b) => MkClientOwner4 a b)
    (fun x => (clientOwner4_co_verifier x, clientOwner4_co_ownerid x))
    ((codec_fixed 8) ⊗ codec_opaque).
Definition valid_ClientOwner4 (x : ClientOwner4) : Prop :=
  length (clientOwner4_co_verifier x) = 8%nat /\ opaque_valid (clientOwner4_co_ownerid x).
#[export] Instance codec_ClientOwner4_ok : CodecOk codec_ClientOwner4 valid_ClientOwner4.
Proof. codec_struct. Qed.

Definition codec_Nfstime4 : codec Nfstime4 :=
  codec_iso (fun '(a, b) => MkNfstime4 a b)
    (fun x => (nfstime4_seconds x, nfstime4_nseconds x))
    (codec_i64 ⊗ codec_u32).
Definition valid_Nfstime4 (x : Nfstime4) : Prop :=
  i64_valid (nfstime4_seconds x) /\ in_width 32 (nfstime4_nseconds x).
#[export] Instance codec_Nfstime4_ok : CodecOk codec_Nfstime4 valid_Nfstime4.
Proof. codec_struct. Qed.

Definition codec_NfsImplId4 : codec NfsImplId4 :=
  codec_iso (fun '(a, b, c) => MkNfsImplId4 a b c)
    (fun x => (nfsImplId4_nii_domain x, nfsImplId4_nii_name x, nfsImplId4_nii_date x))
    (codec_utf8_opaque ⊗ codec_utf8_opaque ⊗ codec_Nfstime4).
Definition valid_NfsImplId4 (x : NfsImplId4) : Prop :=
  string_valid (nfsImplId4_nii_domain x) /\ string_valid (nfsImplId4_nii_name x) /\
    valid_Nfstime4 (nfsImplId4_nii_date x).
#[export] Instance codec_NfsImplId4_ok : CodecOk codec_NfsImplId4 valid_NfsImplId4.
Proof. codec_struct. Qed.

Definition codec_StateProtect4a : codec StateProtect4a :=
  Codec (fun x => match x with
  | StateProtect4a_SpNone => ser_unit 0
  end)
  (de_variants "StateProtect4a"
    [rret StateProtect4a_SpNone]).
#[export] Instance codec_StateProtect4a_ok : CodecOk codec_StateProtect4a (fun _ => True).
Proof. codec_enum. Qed.

Definition codec_ExchangeId4args : codec ExchangeId4args :=
  codec_iso (fun '(a, b, c, d) => MkExchangeId4args a b c d)
    (fun x => (exchangeId4args_eia_clientowner x, exchangeId4args_eia_flags x,
      exchangeId4args_eia_state_protect x, exchangeId4args_eia_client_impl_id x))
    (codec_ClientOwner4 ⊗ codec_u32 ⊗ codec_StateProtect4a ⊗ (codec_seq codec_NfsImplId4)).
Definition valid_ExchangeId4args (x : ExchangeId4args) : Prop :=
  valid_ClientOwner4 (exchangeId4args_eia_clientowner x) /\ in_width 32 (exchangeId4args_eia_flags x) /\
    seq_valid valid_NfsImplId4 (exchangeId4args_eia_client_impl_id x).
#[export] Instance codec_ExchangeId4args_ok : CodecOk codec_ExchangeId4args valid_ExchangeId4args.
Proof. codec_struct. Qed.

Definition codec_FreeStateid4args : codec FreeStateid4args :=
  codec_iso MkFreeStateid4args freeStateid4args_fsa_stateid codec_Stateid4.
Definition valid_FreeStateid4args (x : FreeStateid4args) : Prop :=
  valid_Stateid4 (freeStateid4args_fsa_stateid x).
#[export] Instance codec_FreeStateid4args_ok : CodecOk codec_FreeStateid4args valid_FreeStateid4args.
Proof. codec_struct. Qed.

Definition codec_LayoutType4 : codec LayoutType4 :=
  Codec (fun x => match x with
  | LayoutNfsv4Files => ser_unit 0
  | LayoutOsd2Objects => ser_unit 1
  | LayoutBlockVolume => ser_unit 2
  | LayoutFlexFiles => ser_unit 3
  end)
  (de_variants "LayoutType4"
    [rret LayoutNfsv4Files;
     rret LayoutOsd2Objects;
     rret LayoutBlockVolume;
     rret LayoutFlexFiles]).
#[export] Instance codec_LayoutType4_ok : CodecOk codec_LayoutType4 (fun _ => True).
Proof. codec_enum. Qed.

Definition codec_GetDeviceInfo4args : codec GetDeviceInfo4args :=
  codec_iso (fun '(a, b, c) => MkGetDeviceInfo4args a b c)
    (fun x => (getDeviceInfo4args_gdia_device_id x, getDeviceInfo4args_gdia_layout_type x,
      getDeviceInfo4args_gdia_maxcount x))
    ((codec_fixed 16) ⊗ codec_LayoutType4 ⊗ codec_u32).
Definition valid_GetDeviceInfo4args (x : GetDeviceInfo4args) : Prop :=
  length (getDeviceInfo4args_gdia_device_id x) = 16%nat /\ in_width 32 (getDeviceInfo4args_gdia_maxcount x).
#[export] Instance codec_GetDeviceInfo4args_ok : CodecOk codec_GetDeviceInfo4args valid_GetDeviceInfo4args.
Proof. codec_struct. Qed.

Definition codec_GetDeviceList4args : codec GetDeviceList4args :=
  codec_iso (fun '(a, b, c, d) => MkGetDeviceList4args a b c d)
    (fun x => (getDeviceList4args_gdla_layout_type x, getDeviceList4args_gdla_maxdevices x,
      getDeviceList4args_gdla_cookie x, getDeviceList4args_gdla_cookieverf x))
    (codec_LayoutType4 ⊗ codec_u32 ⊗ codec_u64 ⊗ (codec_fixed 8)).
Definition valid_GetDeviceList4args (x : GetDeviceList4args) : Prop :=
  in_width 32 (getDeviceList4args_gdla_maxdevices x) /\ in_width 64 (getDeviceList4args_gdla_cookie x) /\
    length (getDeviceList4args_gdla_cookieverf x) = 8%nat.
#[export] Instance codec_GetDeviceList4args_ok : CodecOk codec_GetDeviceList4args valid_GetDeviceList4args.
Proof. codec_struct. Qed.

Definition codec_Getattr4args : codec Getattr4args :=
  codec_iso MkGetattr4args getattr4args_attr_request codec_attrlist.
Definition valid_Getattr4args (x : Getattr4args) : Prop :=
  StronglySorted attr_lt (getattr4args_attr_request x).
#[export] Instance codec_Getattr4args_ok : CodecOk codec_Getattr4args valid_Getattr4args.
Proof. codec_struct. Qed.

Definition codec_LayoutCommit4args : codec LayoutCommit4args :=
  codec_iso (fun '(a, b, c, d, e, f) => MkLayoutCommit4args a b c d e f)
    (fun x => (layoutCommit4args_loca_offset x, layoutCommit4args_loca_length x,
      layoutCommit4args_loca_reclaim x, layoutCommit4args_loca_stateid x,
      layoutCommit4args_loca_last_write_offset x, layoutCommit4args_loca_layout_type x))
    (codec_u64 ⊗ codec_u64 ⊗ codec_bool ⊗ codec_Stateid4 ⊗ codec_bool ⊗ codec_LayoutType4).
Definition valid_LayoutCommit4args (x : LayoutCommit4args) : Prop :=
  in_width 64 (layoutCommit4args_loca_offset x) /\ in_width 64 (layoutCommit4args_loca_length x) /\
    valid_Stateid4 (layoutCommit4args_loca_stateid x).
#[export] Instance codec_LayoutCommit4args_ok : CodecOk codec_LayoutCommit4args valid_LayoutCommit4args.
Proof. codec_struct. Qed.

Definition codec_LayoutIomode4 : codec LayoutIomode4 :=
  Codec (fun x => match x with
  | LayoutiomodeRead => ser_unit 0
  | LayoutiomodeRw => ser_unit 1
  end)
  (de_variants "LayoutIomode4"
    [rret LayoutiomodeRead;
     rret LayoutiomodeRw]).
#[export] Instance codec_LayoutIomode4_ok : CodecOk codec_LayoutIomode4 (fun _ => True).
Proof. codec_enum. Qed.

Definition codec_LayoutGet4args : codec LayoutGet4args :=
  codec_iso (fun '(a, b, c, d, e, f, g, h) => MkLayoutGet4args a b c d e f g h)
    (fun x => (layoutGet4args_loga_signal_layout_avail x, layoutGet4args_loga_layout_type x,
      layoutGet4args_loga_iomode x, layoutGet4args_loga_offset x, layoutGet4args_loga_length x,
      layoutGet4args_loga_minlength x, layoutGet4args_loga_stateid x, layoutGet4args_loga_maxcount x))
    (codec_bool ⊗ codec_LayoutType4 ⊗ codec_LayoutIomode4 ⊗ codec_u64 ⊗ codec_u64 ⊗ codec_u64 ⊗
      codec_Stateid4 ⊗ codec_u32).
Definition valid_LayoutGet4args (x : LayoutGet4args) : Prop :=
  in_width 64 (layoutGet4args_loga_offset x) /\ in_width 64 (layoutGet4args_loga_length x) /\
    in_width 64 (layoutGet4args_loga_minlength x) /\ valid_Stateid4 (layoutGet4args_loga_stateid x) /\
    in_width 32 (layoutGet4args_loga_maxcount x).
#[export] Instance codec_LayoutGet4args_ok : CodecOk codec_LayoutGet4args valid_LayoutGet4args.
Proof. codec_struct. Qed.

Definition codec_LayoutReturnType4 : codec LayoutReturnType4 :=
  Codec (fun x => match x with
  | LayoutreturnFile => ser_unit 0
  | LayoutreturnFsid => ser_unit 1
  | LayoutreturnAll => ser_unit 2
  end)
  (de_variants "LayoutReturnType4"
    [rret LayoutreturnFile;
     rret LayoutreturnFsid;
     rret LayoutreturnAll]).
#[export] Instance codec_LayoutReturnType4_ok : CodecOk codec_LayoutReturnType4 (fun _ => True).
Proof. codec_enum. Qed.

Definition codec_LayoutReturn4args : codec LayoutReturn4args :=
  codec_iso (fun '(a, b, c, d) => MkLayoutReturn4args a b c d)
    (fun x => (layoutReturn4args_lora_reclaim x, layoutReturn4args_lora_layout_type x,
      layoutReturn4args_lora_iomode x, layoutReturn4args_lora_return_type x))
    (codec_bool ⊗ codec_LayoutType4 ⊗ codec_LayoutIomode4 ⊗ codec_LayoutReturnType4).
#[export] Instance codec_LayoutReturn4args_ok : CodecOk codec_LayoutReturn4args (fun _ => True).
Proof. codec_struct. Qed.

Definition codec_Link4args : codec Link4args :=
  codec_iso MkLink4args link4args_newname codec_utf8_opaque.
Definition valid_Link4args (x : Link4args) : Prop :=
  string_valid (link4args_newname x).
#[export] Instance codec_Link4args_ok : CodecOk codec_Link4args valid_Link4args.
Proof. codec_struct. Qed.

Definition codec_ExistLockOwner4 : codec ExistLockOwner4 :=
  codec_iso (fun '(a, b) => MkExistLockOwner4 a b)
    (fun x => (existLockOwner4_lock_stateid x, existLockOwner4_lock_seqid x))
    (codec_Stateid4 ⊗ codec_u32).
Definition valid_ExistLockOwner4 (x : ExistLockOwner4) : Prop :=
  valid_Stateid4 (existLockOwner4_lock_stateid x) /\ in_width 32 (existLockOwner4_lock_seqid x).
#[export] Instance codec_ExistLockOwner4_ok : CodecOk codec_ExistLockOwner4 valid_ExistLockOwner4.
Proof. codec_struct. Qed.

Definition codec_LockOwner4 : codec LockOwner4 :=
  codec_iso (fun '(a, b) => MkLockOwner4 a b)
    (fun x => (lockOwner4_clientid x, lockOwner4_owner x))
    (codec_u64 ⊗ codec_opaque).
Definition valid_LockOwner4 (x : LockOwner4) : Prop :=
  in_width 64 (lockOwner4_clientid x) /\ opaque_valid (lockOwner4_owner x).
#[export] Instance codec_LockOwner4_ok : CodecOk codec_LockOwner4 valid_LockOwner4.
Proof. codec_struct. Qed.

Definition codec_OpenToLockOwner4 : codec OpenToLockOwner4 :=
  codec_iso (fun '(a, b, c, d) => MkOpenToLockOwner4 a b c d)
    (fun x => (openToLockOwner4_open_seqid x, openToLockOwner4_open_stateid x,
      openToLockOwner4_lock_seqid x, openToLockOwner4_lock_owner x))
    (codec_u32 ⊗ codec_Stateid4 ⊗ codec_u32 ⊗ codec_LockOwner4).
Definition valid_OpenToLockOwner4 (x : OpenToLockOwner4) : Prop :=
  in_width 32 (openToLockOwner4_open_seqid x) /\ valid_Stateid4 (openToLockOwner4_open_stateid x) /\
    in_width 32 (openToLockOwner4_lock_seqid x) /\ valid_LockOwner4 (openToLockOwner4_lock_owner x).
#[export] Instance codec_OpenToLockOwner4_ok : CodecOk codec_OpenToLockOwner4 valid_OpenToLockOwner4.
Proof. codec_struct. Qed.

Definition codec_Locker4 : codec Locker4 :=
  Codec (fun x => match x with
  | OpenOwner a => ser_variant 0 codec_OpenToLockOwner4 a
  | LockOwner a => ser_variant 1 codec_ExistLockOwner4 a
  end)
  (de_variants "Locker4"
    [de_variant OpenOwner codec_OpenToLockOwner4;
     de_variant LockOwner codec_ExistLockOwner4]).
Definition valid_Locker4 (x : Locker4) : Prop :=
  match x with
  | OpenOwner a => valid_OpenToLockOwner4 a
  | LockOwner a => valid_ExistLockOwner4 a
  end.
#[export] Instance codec_Locker4_ok : CodecOk codec_Locker4 valid_Locker4.
Proof. codec_enum. Qed.

Definition codec_NfsLockType4 : codec NfsLockType4 :=
  Codec (fun x => match x with
  | ReadLt => ser_unit 0
  | WriteLt => ser_unit 1
  | ReadwLt => ser_unit 2
  | WritewLt => ser_unit 3
  end)
  (de_variants "NfsLockType4"
    [rret ReadLt;
     rret WriteLt;
     rret ReadwLt;
     rret WritewLt]).
#[export] Instance codec_NfsLockType4_ok : CodecOk codec_NfsLockType4 (fun _ => True).
Proof. codec_enum. Qed.

Definition codec_Lock4args : codec Lock4args :=
  codec_iso (fun '(a, b, c, d, e) => MkLock4args a b c d e)
    (fun x => (lock4args_locktype x, lock4args_reclaim x, lock4args_offset x, lock4args_length x,
      lock4args_locker x))
    (codec_NfsLockType4 ⊗ codec_bool ⊗ codec_u64 ⊗ codec_u64 ⊗ codec_Locker4).
Definition valid_Lock4args (x : Lock4args) : Prop :=
  in_width 64 (lock4args_offset x) /\ in_width 64 (lock4args_length x) /\
    valid_Locker4 (lock4args_locker x).
#[export] Instance codec_Lock4args_ok : CodecOk codec_Lock4args valid_Lock4args.
Proof. codec_struct. Qed.

Definition codec_Lockt4args : codec Lockt4args :=
  codec_iso (fun '(a, b, c, d) => MkLockt4args a b c d)
    (fun x => (lockt4args_locktype x, lockt4args_offset x, lockt4args_length x, lockt4args_owner x))
    (codec_NfsLockType4 ⊗ codec_u64 ⊗ codec_u64 ⊗ codec_LockOwner4).
Definition valid_Lockt4args (x : Lockt4args) : Prop :=
  in_width 64 (lockt4args_offset x) /\ in_width 64 (lockt4args_length x) /\
    valid_LockOwner4 (lockt4args_owner x).
#[export] Instance codec_Lockt4args_ok : CodecOk codec_Lockt4args valid_Lockt4args.
Proof. codec_struct. Qed.

Definition codec_Locku4args : codec Locku4args :=
  codec_iso (fun '(a, b, c, d, e) => MkLocku4args a b c d e)
    (fun x => (locku4args_locktype x, locku4args_seqid x, locku4args_lock_stateid x, locku4args_offset x,
      locku4args_length x))
    (codec_NfsLockType4 ⊗ codec_u32 ⊗ codec_Stateid4 ⊗ codec_u64 ⊗ codec_u64).
Definition valid_Locku4args (x : Locku4args) : Prop :=
  in_width 32 (locku4args_seqid x) /\ valid_Stateid4 (locku4args_lock_stateid x) /\
    in_width 64 (locku4args_offset x) /\ in_width 64 (locku4args_length x).
#[export] Instance codec_Locku4args_ok : CodecOk codec_Locku4args valid_Locku4args.
Proof. codec_struct. Qed.

Definition codec_Lookup4args : codec Lookup4args :=
  codec_iso MkLookup4args lookup4args_objname codec_utf8_opaque.
Definition valid_Lookup4args (x : Lookup4args) : Prop :=
  string_valid (lookup4args_objname x).
#[export] Instance codec_Lookup4args_ok : CodecOk codec_Lookup4args valid_Lookup4args.
Proof. codec_struct. Qed.

Definition codec_Nverify4args : codec Nverify4args :=
  codec_iso MkNverify4args nverify4args_obj_attributes codec_fattr4.
Definition valid_Nverify4args (x : Nverify4args) : Prop :=
  valid_fattr4 (nverify4args_obj_attributes x).
#[export] Instance codec_Nverify4args_ok : CodecOk codec_Nverify4args valid_Nverify4args.
Proof. codec_struct. Qed.

Definition codec_OpenClaimDelegateCur4 : codec OpenClaimDelegateCur4 :=
  codec_iso (fun '(a, b) => MkOpenClaimDelegateCur4 a b)
    (fun x => (openClaimDelegateCur4_delegate_stateid x, openClaimDelegateCur4_file x))
    (codec_Stateid4 ⊗ codec_utf8_opaque).
Definition valid_OpenClaimDelegateCur4 (x : OpenClaimDelegateCur4) : Prop :=
  valid_Stateid4 (openClaimDelegateCur4_delegate_stateid x) /\ string_valid (openClaimDelegateCur4_file x).
#[export] Instance codec_OpenClaimDelegateCur4_ok : CodecOk codec_OpenClaimDelegateCur4
  valid_OpenClaimDelegateCur4.
Proof. codec_struct. Qed.

Definition codec_OpenDelegationType4 : codec OpenDelegationType4 :=
  Codec (fun x => match x with
  | OpenDelegateNone => ser_unit 0
  | OpenDelegateRead => ser_unit 1
  | OpenDelegateWrite => ser_unit 2
  end)
  (de_variants "OpenDelegationType4"
    [rret OpenDelegateNone;
     rret OpenDelegateRead;
     rret OpenDelegateWrite]).
#[export] Instance codec_OpenDelegationType4_ok : CodecOk codec_OpenDelegationType4 (fun _ => True).
Proof. codec_enum. Qed.

Definition codec_OpenClaim4 : codec OpenClaim4 :=
  Codec (fun x => match x with
  | ClaimNull a => ser_variant 0 codec_string a
  | ClaimPrevious a => ser_variant 1 codec_OpenDelegationType4 a
  | ClaimDelegateCur a => ser_variant 2 codec_OpenClaimDelegateCur4 a
  | ClaimDelegatePrev a => ser_variant 3 codec_string a
  end)
  (de_variants "OpenClaim4"
    [de_variant ClaimNull codec_string;
     de_variant ClaimPrevious codec_OpenDelegationType4;
     de_variant ClaimDelegateCur codec_OpenClaimDelegateCur4;
     de_variant ClaimDelegatePrev codec_string]).
Definition valid_OpenClaim4 (x : OpenClaim4) : Prop :=
  match x with
  | ClaimNull a => string_valid a
  | ClaimDelegateCur a => valid_OpenClaimDelegateCur4 a
  | ClaimDelegatePrev a => string_valid a
  | _ => True
  end.
#[export] Instance codec_OpenClaim4_ok : CodecOk codec_OpenClaim4 valid_OpenClaim4.
Proof. codec_enum. Qed.

Definition codec_CreateHow4 : codec CreateHow4 :=
  Codec (fun x => match x with
  | UNCHECKED4 a => ser_variant 0 codec_fattr4 a
  | GUARDED4 a => ser_variant 1 codec_fattr4 a
  | EXCLUSIVE4 a => ser_variant 2 (codec_fixed 8) a
  end)
  (de_variants "CreateHow4"
    [de_variant UNCHECKED4 codec_fattr4;
     de_variant GUARDED4 codec_fattr4;
     de_variant EXCLUSIVE4 (codec_fixed 8)]).
Definition valid_CreateHow4 (x : CreateHow4) : Prop :=
  match x with
  | UNCHECKED4 a => valid_fattr4 a
  | GUARDED4 a => valid_fattr4 a
  | EXCLUSIVE4 a => length a = 8%nat
  end.
#[export] Instance codec_CreateHow4_ok : CodecOk codec_CreateHow4 valid_CreateHow4.
Proof. codec_enum. Qed.

Definition codec_OpenFlag4 : codec OpenFlag4 :=
  Codec (fun x => match x with
  | Open4Nocreate => ser_unit 0
  | How a => ser_variant 1 codec_CreateHow4 a
  end)
  (de_variants "OpenFlag4"
    [rret Open4Nocreate;
     de_variant How codec_CreateHow4]).
Definition valid_OpenFlag4 (x : OpenFlag4) : Prop :=
  match x with
  | How a => valid_CreateHow4 a
  | _ => True
  end.
#[export] Instance codec_OpenFlag4_ok : CodecOk codec_OpenFlag4 valid_OpenFlag4.
Proof. codec_enum. Qed.

Definition codec_OpenOwner4 : codec OpenOwner4 :=
  codec_iso (fun '(a, b) => MkOpenOwner4 a b)
    (fun x => (openOwner4_clientid x, openOwner4_owner x))
    (codec_u64 ⊗ codec_opaque).
Definition valid_OpenOwner4 (x : OpenOwner4) : Prop :=
  in_width 64 (openOwner4_clientid x) /\ opaque_valid (openOwner4_owner x).
#[export] Instance codec_OpenOwner4_ok : CodecOk codec_OpenOwner4 valid_OpenOwner4.
Proof. codec_struct. Qed.

Definition codec_Open4args : codec Open4args :=
  codec_iso (fun '(a, b, c, d, e, f) => MkOpen4args a b c d e f)
    (fun x => (open4args_seqid x, open4args_share_access x, open4args_share_deny x, open4args_owner x,
      open4args_openhow x, open4args_claim x))
    (codec_u32 ⊗ codec_u32 ⊗ codec_u32 ⊗ codec_OpenOwner4 ⊗ codec_OpenFlag4 ⊗ codec_OpenClaim4).
Definition valid_Open4args (x : Open4args) : Prop :=
  in_width 32 (open4args_seqid x) /\ in_width 32 (open4args_share_access x) /\
    in_width 32 (open4args_share_deny x) /\ valid_OpenOwner4 (open4args_owner x) /\
    valid_OpenFlag4 (open4args_openhow x) /\ valid_OpenClaim4 (open4args_claim x).
#[export] Instance codec_Open4args_ok : CodecOk codec_Open4args valid_Open4args.
Proof. codec_struct. Qed.

Definition codec_OpenAttr4args : codec OpenAttr4args :=
  codec_iso MkOpenAttr4args openAttr4args_createdir codec_bool.
#[export] Instance codec_OpenAttr4args_ok : CodecOk codec_OpenAttr4args (fun _ => True).
Proof. codec_struct. Qed.

Definition codec_OpenConfirm4args : codec OpenConfirm4args :=
  codec_iso (fun '(a, b) => MkOpenConfirm4args a b)
    (fun x => (openConfirm4args_open_stateid x, openConfirm4args_seqid x))
    (codec_Stateid4 ⊗ codec_u32).
Definition valid_OpenConfirm4args (x : OpenConfirm4args) : Prop :=
  valid_Stateid4 (openConfirm4args_open_stateid x) /\ in_width 32 (openConfirm4args_seqid x).
#[export] Instance codec_OpenConfirm4args_ok : CodecOk codec_OpenConfirm4args valid_OpenConfirm4args.
Proof. codec_struct. Qed.

Definition codec_OpenDowngrade4args : codec OpenDowngrade4args :=
  codec_iso (fun '(a, b, c, d) => MkOpenDowngrade4args a b c d)
    (fun x => (openDowngrade4args_open_stateid x, openDowngrade4args_seqid x,
      openDowngrade4args_share_access x, openDowngrade4args_share_deny x))
    (codec_Stateid4 ⊗ codec_u32 ⊗ codec_u32 ⊗ codec_u32).
Definition valid_OpenDowngrade4args (x : OpenDowngrade4args) : Prop :=
  valid_Stateid4 (openDowngrade4args_open_stateid x) /\ in_width 32 (openDowngrade4args_seqid x) /\
    in_width 32 (openDowngrade4args_share_access x) /\ in_width 32 (openDowngrade4args_share_deny x).
#[export] Instance codec_OpenDowngrade4args_ok : CodecOk codec_OpenDowngrade4args valid_OpenDowngrade4args.
Proof. codec_struct. Qed.

Definition codec_PutFh4args : codec PutFh4args :=
  codec_iso MkPutFh4args putFh4args_object codec_opaque.
Definition valid_PutFh4args (x : PutFh4args) : Prop :=
  opaque_valid (putFh4args_object x).
#[export] Instance codec_PutFh4args_ok : CodecOk codec_PutFh4args valid_PutFh4args.
Proof. codec_struct. Qed.

Definition codec_Read4args : codec Read4args :=
  codec_iso (fun '(a, b, c) => MkRead4args a b c)
    (fun x => (read4args_stateid x, read4args_offset x, read4args_count x))
    (codec_Stateid4 ⊗ codec_u64 ⊗ codec_u32).
Definition valid_Read4args (x : Read4args) : Prop :=
  valid_Stateid4 (read4args_stateid x) /\ in_width 64 (read4args_offset x) /\
    in_width 32 (read4args_count x).
#[export] Instance codec_Read4args_ok : CodecOk codec_Read4args valid_Read4args.
Proof. codec_struct. Qed.

Definition codec_Readdir4args : codec Readdir4args :=
  codec_iso (fun '(a, b, c, d, e) => MkReaddir4args a b c d e)
    (fun x => (readdir4args_cookie x, readdir4args_cookieverf x, readdir4args_dircount x,
      readdir4args_maxcount x, readdir4args_attr_request x))
    (codec_u64 ⊗ (codec_fixed 8) ⊗ codec_u32 ⊗ codec_u32 ⊗ codec_attrlist).
Definition valid_Readdir4args (x : Readdir4args) : Prop :=
  in_width 64 (readdir4args_cookie x) /\ length (readdir4args_cookieverf x) = 8%nat /\
    in_width 32 (readdir4args_dircount x) /\ in_width 32 (readdir4args_maxcount x) /\
    StronglySorted attr_lt (readdir4args_attr_request x).
#[export] Instance codec_Readdir4args_ok : CodecOk codec_Readdir4args valid_Readdir4args.
Proof. codec_struct. Qed.

Definition codec_ReclaimComplete4args : codec ReclaimComplete4args :=
  codec_iso MkReclaimComplete4args reclaimComplete4args_rca_one_fs codec_bool.
#[export] Instance codec_ReclaimComplete4args_ok : CodecOk codec_ReclaimComplete4args (fun _ => True).
Proof. codec_struct. Qed.

Definition codec_ReleaseLockowner4args : codec ReleaseLockowner4args :=
  codec_iso MkReleaseLockowner4args releaseLockowner4args_lock_owner codec_LockOwner4.
Definition valid_ReleaseLockowner4args (x : ReleaseLockowner4args) : Prop :=
  valid_LockOwner4 (releaseLockowner4args_lock_owner x).
#[export] Instance codec_ReleaseLockowner4args_ok : CodecOk codec_ReleaseLockowner4args
  valid_ReleaseLockowner4args.
Proof. codec_struct. Qed.

Definition codec_Remove4args : codec Remove4args :=
  codec_iso MkRemove4args remove4args_target codec_utf8_opaque.
Definition valid_Remove4args (x : Remove4args) : Prop :=
  string_valid (remove4args_target x).
#[export] Instance codec_Remove4args_ok : CodecOk codec_Remove4args valid_Remove4args.
Proof. codec_struct. Qed.

Definition codec_Rename4args : codec Rename4args :=
  codec_iso (fun '(a, b) => MkRename4args a b)
    (fun x => (rename4args_oldname x, rename4args_newname x))
    (codec_utf8_opaque ⊗ codec_utf8_opaque).
Definition valid_Rename4args (x : Rename4args) : Prop :=
  string_valid (rename4args_oldname x) /\ string_valid (rename4args_newname x).
#[export] Instance codec_Rename4args_ok : CodecOk codec_Rename4args valid_Rename4args.
Proof. codec_struct. Qed.

Definition codec_Renew4args : codec Renew4args :=
  codec_iso MkRenew4args renew4args_clientid codec_u64.
Definition valid_Renew4args (x : Renew4args) : Prop :=
  in_width 64 (renew4args_clientid x).
#[export] Instance codec_Renew4args_ok : CodecOk codec_Renew4args valid_Renew4args.
Proof. codec_struct. Qed.

Definition codec_SecInfo4args : codec SecInfo4args :=
  codec_iso MkSecInfo4args secInfo4args_name codec_utf8_opaque.
Definition valid_SecInfo4args (x : SecInfo4args) : Prop :=
  string_valid (secInfo4args_name x).
#[export] Instance codec_SecInfo4args_ok : CodecOk codec_SecInfo4args valid_SecInfo4args.
Proof. codec_struct. Qed.

Definition codec_SecinfoStyle4 : codec SecinfoStyle4 :=
  Codec (fun x => match x with
  | SecinfoStyle4CurrentFh => ser_unit 0
  | SecinfoStyle4Parent => ser_unit 1
  end)
  (de_variants "SecinfoStyle4"
    [rret SecinfoStyle4CurrentFh;
     rret SecinfoStyle4Parent]).
#[export] Instance codec_SecinfoStyle4_ok : CodecOk codec_SecinfoStyle4 (fun _ => True).
Proof. codec_enum. Qed.

Definition codec_SecinfoNoName4args : codec SecinfoNoName4args :=
  codec_iso MkSecinfoNoName4args secinfoNoName4args_sina_style codec_SecinfoStyle4.
#[export] Instance codec_SecinfoNoName4args_ok : CodecOk codec_SecinfoNoName4args (fun _ => True).
Proof. codec_struct. Qed.

Definition codec_DataContent4 : codec DataContent4 :=
  Codec (fun x => match x with
  | DataContent4_Data => ser_unit 0
  | DataContent4_Hole => ser_unit 1
  end)
  (de_variants "DataContent4"
    [rret DataContent4_Data;
     rret DataContent4_Hole]).
#[export] Instance codec_DataContent4_ok : CodecOk codec_DataContent4 (fun _ => True).
Proof. codec_enum. Qed.

Definition codec_Seek4args : codec Seek4args :=
  codec_iso (fun '(a, b, c) => MkSeek4args a b c)
    (fun x => (seek4args_sa_stateid x, seek4args_sa_offset x, seek4args_sa_what x))
    (codec_Stateid4 ⊗ codec_u64 ⊗ codec_DataContent4).
Definition valid_Seek4args (x : Seek4args) : Prop :=
  valid_Stateid4 (seek4args_sa_stateid x) /\ in_width 64 (seek4args_sa_offset x).
#[export] Instance codec_Seek4args_ok : CodecOk codec_Seek4args valid_Seek4args.
Proof. codec_struct. Qed.

Definition codec_Sequence4args : codec Sequence4args :=
  codec_iso (fun '(a, b, c, d, e) => MkSequence4args a b c d e)
    (fun x => (sequence4args_sa_sessionid x, sequence4args_sa_sequenceid x, sequence4args_sa_slotid x,
      sequence4args_sa_highest_slotid x, sequence4args_sa_cachethis x))
    ((codec_fixed 16) ⊗ codec_u32 ⊗ codec_u32 ⊗ codec_u32 ⊗ codec_bool).
Definition valid_Sequence4args (x : Sequence4args) : Prop :=
  length (sequence4args_sa_sessionid x) = 16%nat /\ in_width 32 (sequence4args_sa_sequenceid x) /\
    in_width 32 (sequence4args_sa_slotid x) /\ in_width 32 (sequence4args_sa_highest_slotid x).
#[export] Instance codec_Sequence4args_ok : CodecOk codec_Sequence4args valid_Sequence4args.
Proof. codec_struct. Qed.

Definition codec_SetAttr4args : codec SetAttr4args :=
  codec_iso (fun '(a, b) => MkSetAttr4args a b)
    (fun x => (setAttr4args_stateid x, setAttr4args_obj_attributes x))
    (codec_Stateid4 ⊗ codec_fattr4).
Definition valid_SetAttr4args (x : SetAttr4args) : Prop :=
  valid_Stateid4 (setAttr4args_stateid x) /\ valid_fattr4 (setAttr4args_obj_attributes x).
#[export] Instance codec_SetAttr4args_ok : CodecOk codec_SetAttr4args valid_SetAttr4args.
Proof. codec_struct. Qed.

Definition codec_ClientAddr4 : codec ClientAddr4 :=
  codec_iso (fun '(a, b) => MkClientAddr4 a b)
    (fun x => (clientAddr4_rnetid x, clientAddr4_raddr x))
    (codec_utf8_opaque ⊗ codec_utf8_opaque).
Definition valid_ClientAddr4 (x : ClientAddr4) : Prop :=
  string_valid (clientAddr4_rnetid x) /\ string_valid (clientAddr4_raddr x).
#[export] Instance codec_ClientAddr4_ok : CodecOk codec_ClientAddr4 valid_ClientAddr4.
Proof. codec_struct. Qed.

Definition codec_CbClient4 : codec CbClient4 :=
  codec_iso (fun '(a, b) => MkCbClient4 a b)
    (fun x => (cbClient4_cb_program x, cbClient4_cb_location x))
    (codec_u32 ⊗ codec_ClientAddr4).
Definition valid_CbClient4 (x : CbClient4) : Prop :=
  in_width 32 (cbClient4_cb_program x) /\ valid_ClientAddr4 (cbClient4_cb_location x).
#[export] Instance codec_CbClient4_ok : CodecOk codec_CbClient4 valid_CbClient4.
Proof. codec_struct. Qed.

Definition codec_NfsClientId4 : codec NfsClientId4 :=
  codec_iso (fun '(a, b) => MkNfsClientId4 a b)
    (fun x => (nfsClientId4_verifier x, nfsClientId4_id x))
    ((codec_fixed 8) ⊗ codec_utf8_opaque).
Definition valid_NfsClientId4 (x : NfsClientId4) : Prop :=
  length (nfsClientId4_verifier x) = 8%nat /\ string_valid (nfsClientId4_id x).
#[export] Instance codec_NfsClientId4_ok : CodecOk codec_NfsClientId4 valid_NfsClientId4.
Proof. codec_struct. Qed.

Definition codec_SetClientId4args : codec SetClientId4args :=
  codec_iso (fun '(a, b, c) => MkSetClientId4args a b c)
    (fun x => (setClientId4args_client x, setClientId4args_callback x, setClientId4args_callback_ident x))
    (codec_NfsClientId4 ⊗ codec_CbClient4 ⊗ codec_u32).
Definition valid_SetClientId4args (x : SetClientId4args) : Prop :=
  valid_NfsClientId4 (setClientId4args_client x) /\ valid_CbClient4 (setClientId4args_callback x) /\
    in_width 32 (setClientId4args_callback_ident x).
#[export] Instance codec_SetClientId4args_ok : CodecOk codec_SetClientId4args valid_SetClientId4args.
Proof. codec_struct. Qed.

Definition codec_SetClientIdConfirm4args : codec SetClientIdConfirm4args :=
  codec_iso (fun '(a, b) => MkSetClientIdConfirm4args a b)
    (fun x => (setClientIdConfirm4args_clientid x, setClientIdConfirm4args_setclientid_confirm x))
    (codec_u64 ⊗ (codec_fixed 8)).
Definition valid_SetClientIdConfirm4args (x : SetClientIdConfirm4args) : Prop :=
  in_width 64 (setClientIdConfirm4args_clientid x) /\
    length (setClientIdConfirm4args_setclientid_confirm x) = 8%nat.
#[export] Instance codec_SetClientIdConfirm4args_ok : CodecOk codec_SetClientIdConfirm4args
  valid_SetClientIdConfirm4args.
Proof. codec_struct. Qed.

Definition codec_TestStateid4args : codec TestStateid4args :=
  codec_iso MkTestStateid4args testStateid4args_ts_stateids (codec_seq codec_Stateid4).
Definition valid_TestStateid4args (x : TestStateid4args) : Prop :=
  seq_valid valid_Stateid4 (testStateid4args_ts_stateids x).
#[export] Instance codec_TestStateid4args_ok : CodecOk codec_TestStateid4args valid_TestStateid4args.
Proof. codec_struct. Qed.

Definition codec_Verify4args : codec Verify4args :=
  codec_iso MkVerify4args verify4args_obj_attributes codec_fattr4.
Definition valid_Verify4args (x : Verify4args) : Prop :=
  valid_fattr4 (verify4args_obj_attributes x).
#[export] Instance codec_Verify4args_ok : CodecOk codec_Verify4args valid_Verify4args.
Proof. codec_struct. Qed.

Definition codec_StableHow4 : codec StableHow4 :=
  Codec (fun x => match x with
  | Unstable4 => ser_unit 0
  | DataSync4 => ser_unit 1
  | FileSync4 => ser_unit 2
  end)
  (de_variants "StableHow4"
    [rret Unstable4;
     rret DataSync4;
     rret FileSync4]).
#[export] Instance codec_StableHow4_ok : CodecOk codec_StableHow4 (fun _ => True).
Proof. codec_enum. Qed.

Definition codec_Write4args : codec Write4args :=
  codec_iso (fun '(a, b, c, d) => MkWrite4args a b c d)
    (fun x => (write4args_stateid x, write4args_offset x, write4args_stable x, write4args_data x))
    (codec_Stateid4 ⊗ codec_u64 ⊗ codec_StableHow4 ⊗ codec_opaque).
Definition valid_Write4args (x : Write4args) : Prop :=
  valid_Stateid4 (write4args_stateid x) /\ in_width 64 (write4args_offset x) /\
    opaque_valid (write4args_data x).
#[export] Instance codec_Write4args_ok : CodecOk codec_Write4args valid_Write4args.
Proof. codec_struct. Qed.

Definition codec_NfsArgOp : codec NfsArgOp :=
  Codec (fun x => match x with
  | OpUndef0 => ser_unit 0
  | OpUndef1 => ser_unit 1
  | OpUndef2 => ser_unit 2
  | OpAccess a => ser_variant 3 codec_Access4args a
  | Opclose a => ser_variant 4 codec_Close4args a
  | Opcommit a => ser_variant 5 codec_Commit4args a
  | Opcreate a => ser_variant 6 codec_Create4args a
  | Opdelegpurge a => ser_variant 7 codec_DelegPurge4args a
  | Opdelegreturn a => ser_variant 8 codec_DelegReturn4args a
  | Opgetattr a => ser_variant 9 codec_Getattr4args a
  | Opgetfh => ser_unit 10
  | Oplink a => ser_variant 11 codec_Link4args a
  | Oplock a => ser_variant 12 codec_Lock4args a
  | Oplockt a => ser_variant 13 codec_Lockt4args a
  | Oplocku a => ser_variant 14 codec_Locku4args a
  | Oplookup a => ser_variant 15 codec_Lookup4args a
  | Oplookupp => ser_unit 16
  | Opnverify a => ser_variant 17 codec_Nverify4args a
  | Opopen a => ser_variant 18 codec_Open4args a
  | Opopenattr a => ser_variant 19 codec_OpenAttr4args a
  | OpopenConfirm a => ser_variant 20 codec_OpenConfirm4args a
  | OpopenDowngrade a => ser_variant 21 codec_OpenDowngrade4args a
  | Opputfh a => ser_variant 22 codec_PutFh4args a
  | Opputpubfh => ser_unit 23
  | Opputrootfh => ser_unit 24
  | Opread a => ser_variant 25 codec_Read4args a
  | Opreaddir a => ser_variant 26 codec_Readdir4args a
  | Opreadlink => ser_unit 27
  | Opremove a => ser_variant 28 codec_Remove4args a
  | Oprename a => ser_variant 29 codec_Rename4args a
  | Oprenew a => ser_variant 30 codec_Renew4args a
  | Oprestorefh => ser_unit 31
  | Opsavefh => ser_unit 32
  | OpSecinfo a => ser_variant 33 codec_SecInfo4args a
  | Opsetattr a => ser_variant 34 codec_SetAttr4args a
  | Opsetclientid a => ser_variant 35 codec_SetClientId4args a
  | OpsetclientidConfirm a => ser_variant 36 codec_SetClientIdConfirm4args a
  | Opverify a => ser_variant 37 codec_Verify4args a
  | Opwrite a => ser_variant 38 codec_Write4args a
  | OpreleaseLockOwner a => ser_variant 39 codec_ReleaseLockowner4args a
  | OpbindConnToSession a => ser_variant 40 codec_BindConnToSession4args a
  | OpexchangeId a => ser_variant 41 codec_ExchangeId4args a
  | OpcreateSession a => ser_variant 42 codec_CreateSession4args a
  | OpdestroySession a => ser_variant 43 codec_DestroySession4args a
  | OpfreeStateid a => ser_variant 44 codec_FreeStateid4args a
  | OpgetdeviceInfo a => ser_variant 45 codec_GetDeviceInfo4args a
  | OpgetdeviceList a => ser_variant 46 codec_GetDeviceList4args a
  | OplayoutCommit a => ser_variant 47 codec_LayoutCommit4args a
  | OplayoutGet a => ser_variant 48 codec_LayoutGet4args a
  | OplayoutReturn a => ser_variant 49 codec_LayoutReturn4args a
  | OpsecinfoNoName a => ser_variant 50 codec_SecinfoNoName4args a
  | Opsequence a => ser_variant 51 codec_Sequence4args a
  | OptestStateid a => ser_variant 52 codec_TestStateid4args a
  | OpdestroyClientid a => ser_variant 53 codec_DestroyClientId4args a
  | OpreclaimComplete a => ser_variant 54 codec_ReclaimComplete4args a
  | Opallocate a => ser_variant 55 codec_Allocate4args a
  | Opcopy a => ser_variant 56 codec_Copy4args a
  | Opseek a => ser_variant 57 codec_Seek4args a
  end)
  (de_variants "NfsArgOp"
    [rret OpUndef0;
     rret OpUndef1;
     rret OpUndef2;
     de_variant OpAccess codec_Access4args;
     de_variant Opclose codec_Close4args;
     de_variant Opcommit codec_Commit4args;
     de_variant Opcreate codec_Create4args;
     de_variant Opdelegpurge codec_DelegPurge4args;
     de_variant Opdelegreturn codec_DelegReturn4args;
     de_variant Opgetattr codec_Getattr4args;
     rret Opgetfh;
     de_variant Oplink codec_Link4args;
     de_variant Oplock codec_Lock4args;
     de_variant Oplockt codec_Lockt4args;
     de_variant Oplocku codec_Locku4args;
     de_variant Oplookup codec_Lookup4args;
     rret Oplookupp;
     de_variant Opnverify codec_Nverify4args;
     de_variant Opopen codec_Open4args;
     de_variant Opopenattr codec_OpenAttr4args;
     de_variant OpopenConfirm codec_OpenConfirm4args;
     de_variant OpopenDowngrade codec_OpenDowngrade4args;
     de_variant Opputfh codec_PutFh4args;
     rret Opputpubfh;
     rret Opputrootfh;
     de_variant Opread codec_Read4args;
     de_variant Opreaddir codec_Readdir4args;
     rret Opreadlink;
     de_variant Opremove codec_Remove4args;
     de_variant Oprename codec_Rename4args;
     de_variant Oprenew codec_Renew4args;
     rret Oprestorefh;
     rret Opsavefh;
     de_variant OpSecinfo codec_SecInfo4args;
     de_variant Opsetattr codec_SetAttr4args;
     de_variant Opsetclientid codec_SetClientId4args;
     de_variant OpsetclientidConfirm codec_SetClientIdConfirm4args;
     de_variant Opverify codec_Verify4args;
     de_variant Opwrite codec_Write4args;
     de_variant OpreleaseLockOwner codec_ReleaseLockowner4args;
     de_variant OpbindConnToSession codec_BindConnToSession4args;
     de_variant OpexchangeId codec_ExchangeId4args;
     de_variant OpcreateSession codec_CreateSession4args;
     de_variant OpdestroySession codec_DestroySession4args;
     de_variant OpfreeStateid codec_FreeStateid4args;
     de_variant OpgetdeviceInfo codec_GetDeviceInfo4args;
     de_variant OpgetdeviceList codec_GetDeviceList4args;
     de_variant OplayoutCommit codec_LayoutCommit4args;
     de_variant OplayoutGet codec_LayoutGet4args;
     de_variant OplayoutReturn codec_LayoutReturn4args;
     de_variant OpsecinfoNoName codec_SecinfoNoName4args;
     de_variant Opsequence codec_Sequence4args;
     de_variant OptestStateid codec_TestStateid4args;
     de_variant OpdestroyClientid codec_DestroyClientId4args;
     de_variant OpreclaimComplete codec_ReclaimComplete4args;
     de_variant Opallocate codec_Allocate4args;
     de_variant Opcopy codec_Copy4args;
     de_variant Opseek codec_Seek4args]).
Definition valid_NfsArgOp (x : NfsArgOp) : Prop :=
  match x with
  | OpAccess a => valid_Access4args a
  | Opclose a => valid_Close4args a
  | Opcommit a => valid_Commit4args a
  | Opcreate a => valid_Create4args a
  | Opdelegpurge a => valid_DelegPurge4args a
  | Opdelegreturn a => valid_DelegReturn4args a
  | Opgetattr a => valid_Getattr4args a
  | Oplink a => valid_Link4args a
  | Oplock a => valid_Lock4args a
  | Oplockt a => valid_Lockt4args a
  | Oplocku a => valid_Locku4args a
  | Oplookup a => valid_Lookup4args a
  | Opnverify a => valid_Nverify4args a
  | Opopen a => valid_Open4args a
  | OpopenConfirm a => valid_OpenConfirm4args a
  | OpopenDowngrade a => valid_OpenDowngrade4args a
  | Opputfh a => valid_PutFh4args a
  | Opread a => valid_Read4args a
  | Opreaddir a => valid_Readdir4args a
  | Opremove a => valid_Remove4args a
  | Oprename a => valid_Rename4args a
  | Oprenew a => valid_Renew4args a
  | OpSecinfo a => valid_SecInfo4args a
  | Opsetattr a => valid_SetAttr4args a
  | Opsetclientid a => valid_SetClientId4args a
  | OpsetclientidConfirm a => valid_SetClientIdConfirm4args a
  | Opverify a => valid_Verify4args a
  | Opwrite a => valid_Write4args a
  | OpreleaseLockOwner a => valid_ReleaseLockowner4args a
  | OpbindConnToSession a => valid_BindConnToSession4args a
  | OpexchangeId a => valid_ExchangeId4args a
  | OpcreateSession a => valid_CreateSession4args a
  | OpdestroySession a => valid_DestroySession4args a
  | OpfreeStateid a => valid_FreeStateid4args a
  | OpgetdeviceInfo a => valid_GetDeviceInfo4args a
  | OpgetdeviceList a => valid_GetDeviceList4args a
  | OplayoutCommit a => valid_LayoutCommit4args a
  | OplayoutGet a => valid_LayoutGet4args a
  | Opsequence a => valid_Sequence4args a
  | OptestStateid a => valid_TestStateid4args a
  | OpdestroyClientid a => valid_DestroyClientId4args a
  | Opallocate a => valid_Allocate4args a
  | Opcopy a => valid_Copy4args a
  | Opseek a => valid_Seek4args a
  | _ => True
  end.
#[export] Instance codec_NfsArgOp_ok : CodecOk codec_NfsArgOp valid_NfsArgOp.
Proof. codec_enum. Qed.

Definition codec_Compound4args : codec Compound4args :=
  codec_iso (fun '(a, b, c) => MkCompound4args a b c)
    (fun x => (compound4args_tag x, compound4args_minor_version x, compound4args_argarray x))
    (codec_utf8_opaque ⊗ codec_u32 ⊗ (codec_seq codec_NfsArgOp)).
Definition valid_Compound4args (x : Compound4args) : Prop :=
  string_valid (compound4args_tag x) /\ in_width 32 (compound4args_minor_version x) /\
    seq_valid valid_NfsArgOp (compound4args_argarray x).
#[export] Instance codec_Compound4args_ok : CodecOk codec_Compound4args valid_Compound4args.
Proof. codec_struct. Qed.
