(* ===== verification/NfsReply.v ===== *)
(** * The COMPOUND results on the wire ([proto/src/nfs4_proto.rs], [proto/src/utils.rs])

    [Serialize] of the result types: what serde derives, and the hand-written ones of the
    status, GETATTR, the security flavors and the result array ([write_argarray]). The
    server never reads results, so there are encoders only. [enc_X] fails when it holds
    opaque data, a string or a sequence whose length does not fit the wire. *)

From S2P Require Import Prelude NfsTypes Xdr Attrs NfsCodec.
From stdpp Require Import base list strings numbers.
From Stdlib Require Import Strings.Byte ZArith Lia.
#[local] Open Scope Z_scope.

Definition encoded : Type := result (list byte) XdrError.

(** [serialize_struct], [serialize_tuple]: one after the other, the first error ends it. *)
Fixpoint enc_fields (l : list encoded) : encoded :=
  match l with
  | [] => Ok []
  | e :: l' => try b := e in try bs := enc_fields l' in Ok (b ++ bs)
  end.

Definition enc_variant (index : Z) (e : encoded) : encoded := try b := e in Ok (put_u32 index ++ b).

Definition enc_option {A} (e : A -> encoded) (o : option A) : encoded :=
  match o with None => Ok (put_u32 0) | Some a => enc_variant 1 (e a) end.

Definition enc_seq {A} (e : A -> encoded) (l : list A) : encoded :=
  try n := length_u32 (length l) "sequence" in enc_variant n (enc_fields (map e l)).

(** ** The types *)

Definition enc_Access4resok (x : Access4resok) : encoded :=
  enc_fields
    [codec_u32.(ser) (access4resok_supported x);
     codec_u32.(ser) (access4resok_access x)].

Definition enc_Access4res (x : Access4res) : encoded :=
  match x with
  | Access4res_Resok4 a => enc_variant 0 (enc_Access4resok a)
  end.

(** Its number, whatever its position. *)
Definition enc_NfsStat4 (x : NfsStat4) : encoded := Ok (put_u32 (NfsStat4_to_u32 x)).

Definition enc_Allocate4res (x : Allocate4res) : encoded :=
  enc_fields
    [enc_NfsStat4 (allocate4res_ar_status x)].

Definition enc_ChannelDirFromServer4 (x : ChannelDirFromServer4) : encoded :=
  match x with
  | ChannelDirFromServer4_Fore => ser_unit 0
  | ChannelDirFromServer4_Back => ser_unit 1
  | Both => ser_unit 2
  end.

Definition enc_BindConnToSession4resok (x : BindConnToSession4resok) : encoded :=
  enc_fields
    [(codec_fixed 16).(ser) (bindConnToSession4resok_bctsr_sessid x);
     enc_ChannelDirFromServer4 (bindConnToSession4resok_bctsr_dir x);
     codec_bool.(ser) (bindConnToSession4resok_bctsr_use_conn_in_rdma_mode x)].

Definition enc_BindConnToSession4res (x : BindConnToSession4res) : encoded :=
  match x with
  | BindConnToSession4res_Resok4 a => enc_variant 0 (enc_BindConnToSession4resok a)
  end.

Definition enc_Close4res (x : Close4res) : encoded :=
  match x with
  | OpenStateid a => enc_variant 0 (codec_Stateid4.(ser) a)
  end.

Definition enc_Commit4resok (x : Commit4resok) : encoded :=
  enc_fields
    [(codec_fixed 8).(ser) (commit4resok_writeverf x)].

Definition enc_Commit4res (x : Commit4res) : encoded :=
  match x with
  | Commit4res_Resok4 a => enc_variant 0 (enc_Commit4resok a)
  end.

Definition enc_CopyRequirements4 (x : CopyRequirements4) : encoded :=
  enc_fields
    [codec_bool.(ser) (copyRequirements4_cr_consecutive x);
     codec_bool.(ser) (copyRequirements4_cr_synchronous x)].

Definition enc_WriteResponse4 (x : WriteResponse4) : encoded :=
  enc_fields
    [enc_seq (codec_Stateid4.(ser)) (writeResponse4_wr_callback_id x);
     codec_u64.(ser) (writeResponse4_wr_count x);
     codec_StableHow4.(ser) (writeResponse4_wr_committed x);
     (codec_fixed 8).(ser) (writeResponse4_wr_writeverf x)].

Definition enc_Copy4resok (x : Copy4resok) : encoded :=
  enc_fields
    [enc_WriteResponse4 (copy4resok_cr_response x);
     enc_CopyRequirements4 (copy4resok_cr_requirements x)].

Definition enc_Copy4res (x : Copy4res) : encoded :=
  match x with
  | Copy4res_Resok4 a => enc_variant 0 (enc_Copy4resok a)
  end.

Definition enc_ChangeInfo4 (x : ChangeInfo4) : encoded :=
  enc_fields
    [codec_bool.(ser) (changeInfo4_atomic x);
     codec_u64.(ser) (changeInfo4_before x);
     codec_u64.(ser) (changeInfo4_after x)].

Definition enc_Create4resok (x : Create4resok) : encoded :=
  enc_fields
    [enc_ChangeInfo4 (create4resok_cinfo x);
     codec_attrlist.(ser) (create4resok_attrset x)].

Definition enc_Create4res (x : Create4res) : encoded :=
  match x with
  | Create4res_Resok4 a => enc_variant 0 (enc_Create4resok a)
  end.

Definition enc_CreateSession4resok (x : CreateSession4resok) : encoded :=
  enc_fields
    [(codec_fixed 16).(ser) (createSession4resok_csr_sessionid x);
     codec_u32.(ser) (createSession4resok_csr_sequenceid x);
     codec_u32.(ser) (createSession4resok_csr_flags x);
     codec_ChannelAttrs4.(ser) (createSession4resok_csr_fore_chan_attrs x);
     codec_ChannelAttrs4.(ser) (createSession4resok_csr_back_chan_attrs x)].

Definition enc_CreateSession4res (x : CreateSession4res) : encoded :=
  match x with
  | CreateSession4res_Resok4 a => enc_variant 0 (enc_CreateSession4resok a)
  end.

Definition enc_DelegPurge4res (x : DelegPurge4res) : encoded :=
  enc_fields
    [enc_NfsStat4 (delegPurge4res_status x)].

Definition enc_DelegReturn4res (x : DelegReturn4res) : encoded :=
  enc_fields
    [enc_NfsStat4 (delegReturn4res_status x)].

Definition enc_DestroyClientId4res (x : DestroyClientId4res) : encoded :=
  enc_fields
    [enc_NfsStat4 (destroyClientId4res_dcr_status x)].

Definition enc_DestroySession4res (x : DestroySession4res) : encoded :=
  enc_fields
    [enc_NfsStat4 (destroySession4res_dsr_status x)].

Definition enc_ServerOwner4 (x : ServerOwner4) : encoded :=
  enc_fields
    [codec_u64.(ser) (serverOwner4_so_minor_id x);
     codec_opaque.(ser) (serverOwner4_so_major_id x)].

Definition enc_StateProtect4r (x : StateProtect4r) : encoded :=
  match x with
  | StateProtect4r_SpNone => ser_unit 0
  end.

Definition enc_ExchangeId4resok (x : ExchangeId4resok) : encoded :=
  enc_fields
    [codec_u64.(ser) (exchangeId4resok_eir_clientid x);
     codec_u32.(ser) (exchangeId4resok_eir_sequenceid x);
     codec_u32.(ser) (exchangeId4resok_eir_flags x);
     enc_StateProtect4r (exchangeId4resok_eir_state_protect x);
     enc_ServerOwner4 (exchangeId4resok_eir_server_owner x);
     codec_opaque.(ser) (exchangeId4resok_eir_server_scope x);
     enc_seq (codec_NfsImplId4.(ser)) (exchangeId4resok_eir_server_impl_id x)].

Definition enc_ExchangeId4res (x : ExchangeId4res) : encoded :=
  match x with
  | ExchangeId4res_Resok4 a => enc_variant 0 (enc_ExchangeId4resok a)
  end.

Definition enc_FreeStateid4res (x : FreeStateid4res) : encoded :=
  enc_fields
    [enc_NfsStat4 (freeStateid4res_fsr_status x)].

Definition enc_GetDeviceInfo4resok (x : GetDeviceInfo4resok) : encoded :=
  enc_fields
    [codec_u32.(ser) (getDeviceInfo4resok_gdir_notification x)].

Definition enc_GetDeviceInfo4res (x : GetDeviceInfo4res) : encoded :=
  match x with
  | GetDeviceInfo4res_Resok4 a => enc_variant 0 (enc_GetDeviceInfo4resok a)
  | GetDeviceInfo4res_Err a => enc_variant 1 (enc_NfsStat4 a)
  end.

Definition enc_GetDeviceList4resok (x : GetDeviceList4resok) : encoded :=
  enc_fields
    [codec_u64.(ser) (getDeviceList4resok_gdlr_cookie x);
     (codec_fixed 8).(ser) (getDeviceList4resok_gdlr_cookieverf x);
     codec_bool.(ser) (getDeviceList4resok_gdlr_eof x)].

Definition enc_GetDeviceList4res (x : GetDeviceList4res) : encoded :=
  match x with
  | GetDeviceList4res_Resok4 a => enc_variant 0 (enc_GetDeviceList4resok a)
  | GetDeviceList4res_Err a => enc_variant 1 (enc_NfsStat4 a)
  end.

Definition enc_GetFh4resok (x : GetFh4resok) : encoded :=
  enc_fields
    [codec_opaque.(ser) (getFh4resok_object x)].

Definition enc_GetFh4res (x : GetFh4res) : encoded :=
  match x with
  | GetFh4res_Resok4 a => enc_variant 0 (enc_GetFh4resok a)
  end.

(** The attributes are written under NFS4_OK only. *)
Definition enc_Getattr4resok (x : Getattr4resok) : encoded :=
  if negb (bool_decide (getattr4resok_status x = Nfs4Ok)) then enc_NfsStat4 (getattr4resok_status x) else
  match getattr4resok_obj_attributes x with
  | Some attrs => enc_fields [enc_NfsStat4 (getattr4resok_status x); codec_fattr4.(ser) attrs]
  | None => enc_NfsStat4 (getattr4resok_status x)
  end.

Definition enc_LayoutCommit4resok (x : LayoutCommit4resok) : encoded :=
  enc_fields
    [codec_bool.(ser) (layoutCommit4resok_locr_newsize x)].

Definition enc_LayoutCommit4res (x : LayoutCommit4res) : encoded :=
  match x with
  | LayoutCommit4res_Resok4 a => enc_variant 0 (enc_LayoutCommit4resok a)
  | LayoutCommit4res_Err a => enc_variant 1 (enc_NfsStat4 a)
  end.

Definition enc_LayoutGet4resok (x : LayoutGet4resok) : encoded :=
  enc_fields
    [codec_bool.(ser) (layoutGet4resok_logr_return_on_close x);
     codec_Stateid4.(ser) (layoutGet4resok_logr_stateid x)].

Definition enc_LayoutGet4res (x : LayoutGet4res) : encoded :=
  match x with
  | LayoutGet4res_Resok4 a => enc_variant 0 (enc_LayoutGet4resok a)
  | LayoutGet4res_Err a => enc_variant 1 (enc_NfsStat4 a)
  end.

Definition enc_LayoutReturn4resok (x : LayoutReturn4resok) : encoded :=
  enc_fields
    [codec_bool.(ser) (layoutReturn4resok_lorr_present x)].

Definition enc_LayoutReturn4res (x : LayoutReturn4res) : encoded :=
  match x with
  | LayoutReturn4res_Resok4 a => enc_variant 0 (enc_LayoutReturn4resok a)
  | LayoutReturn4res_Err a => enc_variant 1 (enc_NfsStat4 a)
  end.

Definition enc_Link4resok (x : Link4resok) : encoded :=
  enc_fields
    [enc_ChangeInfo4 (link4resok_cinfo x)].

Definition enc_Link4res (x : Link4res) : encoded :=
  match x with
  | Link4res_Resok4 a => enc_variant 0 (enc_Link4resok a)
  end.

Definition enc_Lock4denied (x : Lock4denied) : encoded :=
  enc_fields
    [codec_u64.(ser) (lock4denied_offset x);
     codec_u64.(ser) (lock4denied_length x);
     codec_NfsLockType4.(ser) (lock4denied_locktype x);
     codec_LockOwner4.(ser) (lock4denied_owner x)].

Definition enc_Lock4resok (x : Lock4resok) : encoded :=
  enc_fields
    [codec_Stateid4.(ser) (lock4resok_lock_stateid x)].

Definition enc_Lock4res (x : Lock4res) : encoded :=
  match x with
  | Lock4res_Resok4 a => enc_variant 0 (enc_Lock4resok a)
  | Lock4res_Denied a => enc_variant 1 (enc_Lock4denied a)
  end.

Definition enc_Lockt4res (x : Lockt4res) : encoded :=
  match x with
  | Lockt4res_Denied a => enc_variant 0 (enc_Lock4denied a)
  end.

Definition enc_Locku4res (x : Locku4res) : encoded :=
  match x with
  | LockStateid a => enc_variant 0 (codec_Stateid4.(ser) a)
  end.

Definition enc_Lookup4res (x : Lookup4res) : encoded :=
  enc_fields
    [enc_NfsStat4 (lookup4res_status x)].

Definition enc_LookupP4res (x : LookupP4res) : encoded :=
  enc_fields
    [enc_NfsStat4 (lookupP4res_status x)].

Definition enc_Nverify4res (x : Nverify4res) : encoded :=
  enc_fields
    [enc_NfsStat4 (nverify4res_status x)].

Definition enc_Nfsace4 (x : Nfsace4) : encoded :=
  enc_fields
    [codec_u32.(ser) (nfsace4_acetype x);
     codec_u32.(ser) (nfsace4_flag x);
     codec_u32.(ser) (nfsace4_access_mask x);
     codec_utf8_opaque.(ser) (nfsace4_who x)].

Definition enc_OpenReadDelegation4 (x : OpenReadDelegation4) : encoded :=
  enc_fields
    [codec_Stateid4.(ser) (openReadDelegation4_stateid x);
     codec_bool.(ser) (openReadDelegation4_recall x);
     enc_Nfsace4 (openReadDelegation4_permissions x)].

Definition enc_NfsModifiedLimit4 (x : NfsModifiedLimit4) : encoded :=
  enc_fields
    [codec_u32.(ser) (nfsModifiedLimit4_num_blocks x);
     codec_u32.(ser) (nfsModifiedLimit4_bytes_per_block x)].

Definition enc_NfsSpaceLimit4 (x : NfsSpaceLimit4) : encoded :=
  match x with
  | Filesize a => enc_variant 0 (codec_u64.(ser) a)
  | ModBlocks a => enc_variant 1 (enc_NfsModifiedLimit4 a)
  end.

Definition enc_OpenWriteDelegation4 (x : OpenWriteDelegation4) : encoded :=
  enc_fields
    [codec_Stateid4.(ser) (openWriteDelegation4_stateid x);
     codec_bool.(ser) (openWriteDelegation4_recall x);
     enc_NfsSpaceLimit4 (openWriteDelegation4_space_limit x);
     enc_Nfsace4 (openWriteDelegation4_permissions x)].

Definition enc_OpenDelegation4 (x : OpenDelegation4) : encoded :=
  match x with
  | OpenDelegation4_None => ser_unit 0
  | Read a => enc_variant 1 (enc_OpenReadDelegation4 a)
  | Write a => enc_variant 2 (enc_OpenWriteDelegation4 a)
  end.

Definition enc_Open4resok (x : Open4resok) : encoded :=
  enc_fields
    [codec_Stateid4.(ser) (open4resok_stateid x);
     enc_ChangeInfo4 (open4resok_cinfo x);
     codec_u32.(ser) (open4resok_rflags x);
     codec_attrlist.(ser) (open4resok_attrset x);
     enc_OpenDelegation4 (open4resok_delegation x)].

Definition enc_Open4res (x : Open4res) : encoded :=
  match x with
  | Open4res_Resok4 a => enc_variant 0 (enc_Open4resok a)
  end.

Definition enc_OpenAttr4res (x : OpenAttr4res) : encoded :=
  enc_fields
    [enc_NfsStat4 (openAttr4res_status x)].

Definition enc_OpenConfirm4resok (x : OpenConfirm4resok) : encoded :=
  enc_fields
    [codec_Stateid4.(ser) (openConfirm4resok_open_stateid x)].

Definition enc_OpenConfirm4res (x : OpenConfirm4res) : encoded :=
  match x with
  | OpenConfirm4res_Resok4 a => enc_variant 0 (enc_OpenConfirm4resok a)
  end.

Definition enc_OpenDowngrade4resok (x : OpenDowngrade4resok) : encoded :=
  enc_fields
    [codec_Stateid4.(ser) (openDowngrade4resok_open_stateid x)].

Definition enc_OpenDowngrade4res (x : OpenDowngrade4res) : encoded :=
  match x with
  | OpenDowngrade4res_Resok4 a => enc_variant 0 (enc_OpenDowngrade4resok a)
  end.

Definition enc_PutFh4res (x : PutFh4res) : encoded :=
  enc_fields
    [enc_NfsStat4 (putFh4res_status x)].

Definition enc_PutRootFh4res (x : PutRootFh4res) : encoded :=
  enc_fields
    [enc_NfsStat4 (putRootFh4res_status x)].

Definition enc_Read4resok (x : Read4resok) : encoded :=
  enc_fields
    [codec_bool.(ser) (read4resok_eof x);
     codec_opaque.(ser) (read4resok_data x)].

Definition enc_Read4res (x : Read4res) : encoded :=
  match x with
  | Read4res_Resok4 a => enc_variant 0 (enc_Read4resok a)
  end.

Fixpoint enc_Entry4 (x : Entry4) : encoded :=
  let '(MkEntry4 cookie name attrs nextentry) := x in
  enc_fields
    [codec_u64.(ser) cookie;
     codec_utf8_opaque.(ser) name;
     codec_fattr4.(ser) attrs;
     enc_option enc_Entry4 nextentry].

Definition enc_DirList4 (x : DirList4) : encoded :=
  enc_fields
    [enc_option enc_Entry4 (dirList4_entries x);
     codec_bool.(ser) (dirList4_eof x)].

Definition enc_ReadDir4resok (x : ReadDir4resok) : encoded :=
  enc_fields
    [(codec_fixed 8).(ser) (readDir4resok_cookieverf x);
     enc_DirList4 (readDir4resok_reply x)].

Definition enc_ReadDir4res (x : ReadDir4res) : encoded :=
  match x with
  | ReadDir4res_Resok4 a => enc_variant 0 (enc_ReadDir4resok a)
  end.

Definition enc_Readlink4res (x : Readlink4res) : encoded :=
  enc_fields
    [enc_NfsStat4 (readlink4res_status x);
     codec_utf8_opaque.(ser) (readlink4res_link x)].

Definition enc_ReclaimComplete4res (x : ReclaimComplete4res) : encoded :=
  enc_fields
    [enc_NfsStat4 (reclaimComplete4res_rcr_status x)].

Definition enc_ReleaseLockowner4res (x : ReleaseLockowner4res) : encoded :=
  enc_fields
    [enc_NfsStat4 (releaseLockowner4res_status x)].

Definition enc_Remove4res (x : Remove4res) : encoded :=
  enc_fields
    [enc_NfsStat4 (remove4res_status x);
     enc_ChangeInfo4 (remove4res_cinfo x)].

Definition enc_Rename4resok (x : Rename4resok) : encoded :=
  enc_fields
    [enc_ChangeInfo4 (rename4resok_source_cinfo x);
     enc_ChangeInfo4 (rename4resok_target_cinfo x)].

Definition enc_Rename4res (x : Rename4res) : encoded :=
  match x with
  | Rename4res_Resok4 a => enc_variant 0 (enc_Rename4resok a)
  end.

Definition enc_Renew4res (x : Renew4res) : encoded :=
  enc_fields
    [enc_NfsStat4 (renew4res_status x)].

Definition enc_RestoreFh4res (x : RestoreFh4res) : encoded :=
  enc_fields
    [enc_NfsStat4 (restoreFh4res_status x)].

Definition enc_SaveFh4res (x : SaveFh4res) : encoded :=
  enc_fields
    [enc_NfsStat4 (saveFh4res_status x)].

(** [info.service as u32] *)
Definition RpcGssSvc_as_u32 (x : RpcGssSvc) : Z :=
  match x with RpcGssSvcNone => 1 | RpcGssSvcIntegrity => 2 | RpcGssSvcPrivacy => 3 end.

Definition enc_SeCinfo4 (x : SeCinfo4) : encoded :=
  match x with
  | SeCinfo4_AuthNone => Ok (put_u32 0)
  | SeCinfo4_AuthSys => Ok (put_u32 1)
  | FlavorInfo info =>
    enc_fields
      [Ok (put_u32 6);
       put_opaque (rpcSecGssInfo_oid info);
       Ok (put_u32 (rpcSecGssInfo_qop info));
       Ok (put_u32 (RpcGssSvc_as_u32 (rpcSecGssInfo_service info)))]
  end.

Definition enc_SecInfo4res (x : SecInfo4res) : encoded :=
  match x with
  | SecInfo4res_Resok4 a => enc_variant 0 (enc_seq enc_SeCinfo4 a)
  end.

Definition enc_SeekRes4 (x : SeekRes4) : encoded :=
  enc_fields
    [codec_bool.(ser) (seekRes4_sr_eof x);
     codec_u64.(ser) (seekRes4_sr_offset x)].

Definition enc_Seek4res (x : Seek4res) : encoded :=
  match x with
  | Seek4res_Resok4 a => enc_variant 0 (enc_SeekRes4 a)
  end.

Definition enc_Sequence4resok (x : Sequence4resok) : encoded :=
  enc_fields
    [(codec_fixed 16).(ser) (sequence4resok_sr_sessionid x);
     codec_u32.(ser) (sequence4resok_sr_sequenceid x);
     codec_u32.(ser) (sequence4resok_sr_slotid x);
     codec_u32.(ser) (sequence4resok_sr_highest_slotid x);
     codec_u32.(ser) (sequence4resok_sr_target_highest_slotid x);
     codec_u32.(ser) (sequence4resok_sr_status_flags x)].

Definition enc_Sequence4res (x : Sequence4res) : encoded :=
  match x with
  | Sequence4res_Resok4 a => enc_variant 0 (enc_Sequence4resok a)
  end.

Definition enc_SetAttr4res (x : SetAttr4res) : encoded :=
  enc_fields
    [enc_NfsStat4 (setAttr4res_status x);
     codec_attrlist.(ser) (setAttr4res_attrsset x)].

Definition enc_SetClientId4resok (x : SetClientId4resok) : encoded :=
  enc_fields
    [codec_u64.(ser) (setClientId4resok_clientid x);
     (codec_fixed 8).(ser) (setClientId4resok_setclientid_confirm x)].

Definition enc_SetClientId4res (x : SetClientId4res) : encoded :=
  match x with
  | SetClientId4res_Resok4 a => enc_variant 0 (enc_SetClientId4resok a)
  | ClientUsing a => enc_variant 1 (codec_ClientAddr4.(ser) a)
  end.

Definition enc_SetClientIdConfirm4res (x : SetClientIdConfirm4res) : encoded :=
  enc_fields
    [enc_NfsStat4 (setClientIdConfirm4res_status x)].

Definition enc_TestStateid4resok (x : TestStateid4resok) : encoded :=
  enc_fields
    [enc_seq (codec_u32.(ser)) (testStateid4resok_tsr_status_codes x)].

Definition enc_TestStateid4res (x : TestStateid4res) : encoded :=
  match x with
  | TestStateid4res_Resok4 a => enc_variant 0 (enc_TestStateid4resok a)
  end.

Definition enc_Verify4res (x : Verify4res) : encoded :=
  enc_fields
    [enc_NfsStat4 (verify4res_status x)].

Definition enc_Write4resok (x : Write4resok) : encoded :=
  enc_fields
    [codec_u32.(ser) (write4resok_count x);
     codec_StableHow4.(ser) (write4resok_committed x);
     (codec_fixed 8).(ser) (write4resok_writeverf x)].

Definition enc_Write4res (x : Write4res) : encoded :=
  match x with
  | Write4res_Resok4 a => enc_variant 0 (enc_Write4resok a)
  end.

Definition enc_NfsResOp4 (x : NfsResOp4) : encoded :=
  match x with
  | ResOpUndef0 => ser_unit 0
  | ResOpUndef1 => ser_unit 1
  | ResOpUndef2 => ser_unit 2
  | ResOpAccess a => enc_variant 3 (enc_Access4res a)
  | ResOpclose a => enc_variant 4 (enc_Close4res a)
  | ResOpcommit a => enc_variant 5 (enc_Commit4res a)
  | ResOpcreate a => enc_variant 6 (enc_Create4res a)
  | ResOpdelegpurge a => enc_variant 7 (enc_DelegPurge4res a)
  | ResOpdelegreturn a => enc_variant 8 (enc_DelegReturn4res a)
  | ResOpgetattr a => enc_variant 9 (enc_Getattr4resok a)
  | ResOpgetfh a => enc_variant 10 (enc_GetFh4res a)
  | ResOplink a => enc_variant 11 (enc_Link4res a)
  | ResOplock a => enc_variant 12 (enc_Lock4res a)
  | ResOplockt a => enc_variant 13 (enc_Lockt4res a)
  | ResOplocku a => enc_variant 14 (enc_Locku4res a)
  | ResOplookup a => enc_variant 15 (enc_Lookup4res a)
  | ResOplookupp a => enc_variant 16 (enc_LookupP4res a)
  | ResOpnverify a => enc_variant 17 (enc_Nverify4res a)
  | ResOpopen a => enc_variant 18 (enc_Open4res a)
  | ResOpopenattr a => enc_variant 19 (enc_OpenAttr4res a)
  | ResOpopenConfirm a => enc_variant 20 (enc_OpenConfirm4res a)
  | ResOpopenDowngrade a => enc_variant 21 (enc_OpenDowngrade4res a)
  | ResOpputfh a => enc_variant 22 (enc_PutFh4res a)
  | ResOpputpubfh => ser_unit 23
  | ResOpputrootfh a => enc_variant 24 (enc_PutRootFh4res a)
  | ResOpread a => enc_variant 25 (enc_Read4res a)
  | ResOpreaddir a => enc_variant 26 (enc_ReadDir4res a)
  | ResOpreadlink a => enc_variant 27 (enc_Readlink4res a)
  | ResOpremove a => enc_variant 28 (enc_Remove4res a)
  | ResOprename a => enc_variant 29 (enc_Rename4res a)
  | ResOprenew a => enc_variant 30 (enc_Renew4res a)
  | ResOprestorefh a => enc_variant 31 (enc_RestoreFh4res a)
  | ResOpsavefh a => enc_variant 32 (enc_SaveFh4res a)
  | ResOpSecinfo a => enc_variant 33 (enc_SecInfo4res a)
  | ResOpsetattr a => enc_variant 34 (enc_SetAttr4res a)
  | ResOpsetclientid a => enc_variant 35 (enc_SetClientId4res a)
  | ResOpsetclientidConfirm a => enc_variant 36 (enc_SetClientIdConfirm4res a)
  | ResOpverify a => enc_variant 37 (enc_Verify4res a)
  | ResOpwrite a => enc_variant 38 (enc_Write4res a)
  | ResOpreleaseLockOwner a => enc_variant 39 (enc_ReleaseLockowner4res a)
  | ResOpbindConnToSession a => enc_variant 40 (enc_BindConnToSession4res a)
  | ResOpexchangeId a => enc_variant 41 (enc_ExchangeId4res a)
  | ResOpcreateSession a => enc_variant 42 (enc_CreateSession4res a)
  | ResOpdestroySession a => enc_variant 43 (enc_DestroySession4res a)
  | ResOpfreeStateid a => enc_variant 44 (enc_FreeStateid4res a)
  | ResOpgetdeviceInfo a => enc_variant 45 (enc_GetDeviceInfo4res a)
  | ResOpgetdeviceList a => enc_variant 46 (enc_GetDeviceList4res a)
  | ResOplayoutCommit a => enc_variant 47 (enc_LayoutCommit4res a)
  | ResOplayoutGet a => enc_variant 48 (enc_LayoutGet4res a)
  | ResOplayoutReturn a => enc_variant 49 (enc_LayoutReturn4res a)
  | ResOpsecinfoNoName a => enc_variant 50 (enc_SecInfo4res a)
  | ResOpsequence a => enc_variant 51 (enc_Sequence4res a)
  | ResOptestStateid a => enc_variant 52 (enc_TestStateid4res a)
  | ResOpdestroyClientid a => enc_variant 53 (enc_DestroyClientId4res a)
  | ResOpreclaimComplete a => enc_variant 54 (enc_ReclaimComplete4res a)
  | ResOpallocate a => enc_variant 55 (enc_Allocate4res a)
  | ResOpcopy a => enc_variant 56 (enc_Copy4res a)
  | ResOpseek a => enc_variant 57 (enc_Seek4res a)
  | ResOpError op status => Err (Message "the enum variant NfsResOp4::OpError cannot be serialized")
  end.

(** [write_argarray]: [OpError] is the operation and the status. *)
Definition enc_result (x : NfsResOp4) : encoded :=
  match x with
  | ResOpError op status => enc_fields [codec_u32.(ser) op; enc_NfsStat4 status]
  | other => enc_NfsResOp4 other
  end.
Definition write_argarray (values : list NfsResOp4) : encoded :=
  match values with
  | [] => Ok (put_u32 0)
  | _ => enc_seq enc_result values
  end.

Definition enc_Compound4res (x : Compound4res) : encoded :=
  enc_fields
    [enc_NfsStat4 (compound4res_status x);
     codec_utf8_opaque.(ser) (compound4res_tag x);
     write_argarray (compound4res_resarray x)].
