(* ===== verification/NfsWire.v ===== *)
(** * What the wire says ([nfs4_proto.rs], [utils.rs], [xdr.rs])

    The codecs of [NfsCodec] and [NfsReply] against the numbers of the protocol: which
    operation a number on the wire is read as, which lock a lock type is read as, under
    which number and status a result goes out. *)

From S2P Require Import Prelude NfsTypes Xdr Attrs NfsCodec NfsReply Rpc MultiIndex Locking FileManager.
From S2P Require Import Export ClientManager Request Perm Compound Handle OpsState OpsAttr OpsFile OpsDir Ops41.
From S2P Require Import Execute OpsStatus OpsContract FileManagerProofs FileManagerSpec.
From stdpp Require Import base list gmap strings.
From Stdlib Require Import Strings.Byte ZArith Lia.
#[local] Open Scope Z_scope.

(** ** Arguments *)

(** The numbers the declaration gives the lock types, RFC 7530's. *)
Definition NfsLockType4_to_u32 (x : NfsLockType4) : Z :=
  match x with ReadLt => 1 | WriteLt => 2 | ReadwLt => 3 | WritewLt => 4 end.

(** C26: The arguments of a COMPOUND, with every operation the server knows, values in
    range and attributes in mask order of kinds that the reader has an arm for, survive the
    wire: they encode into whole words, and decoding what was encoded gives them back and
    leaves what follows. What becomes of other attributes is [fattr4_roundtrip]. *)
Theorem compound_args_roundtrip (a : Compound4args) (rest : list byte) :
  valid_Compound4args a ->
  exists bs, codec_Compound4args.(ser) a = Ok bs /\ (length bs mod 4 = 0)%nat /\
    codec_Compound4args.(de) (bs ++ rest) = Ok (a, rest).
Proof.
  intros Ha. destruct (codec_total a Ha) as [bs E]. exists bs.
  split_and!; [done|exact (codec_aligned (c := codec_Compound4args) a bs E)|by apply codec_roundtrip].
Qed.

(** The position of an operation among the variants, from its number: the numbers 40, 46,
    54, 56 and 61 to 68 have no variant. *)
Definition opcode_position (n : Z) : Z :=
  if n <=? 39 then n else if n <=? 45 then n - 1 else if n <=? 53 then n - 2 else
  if n <=? 55 then n - 3 else if n <=? 60 then n - 4 else n - 12.

(** Everything a list of variant readers can read, with the position it is read at. *)
Lemma de_variants_inv {V} name (vs : list (reader V)) i s v rest :
  in_width 32 i -> de_variants name vs (put_u32 i ++ s) = Ok (v, rest) ->
  exists r, vs !! Z.to_nat i = Some r /\ r s = Ok (v, rest).
Proof.
  intros Hi. unfold de_variants, deserialize_enum, rbind.
  rewrite get_u32_put by done. destruct (Z.of_nat (length vs) <=? i); [done|].
  destruct (vs !! Z.to_nat i) as [r|]; [|done]. simpl. eauto.
Qed.

Lemma de_variant_inv {A V} (k : A -> V) (c : codec A) s v rest :
  de_variant k c s = Ok (v, rest) -> exists a, v = k a.
Proof.
  unfold de_variant, rbind. destruct (c.(de) s) as [[a s']|]; [|done].
  intros [= <- _]%Ok_inj. by exists a.
Qed.

Lemma rret_inv {V} (u : V) s v rest : rret u s = Ok (v, rest) -> v = u.
Proof. by intros [= <- _]%Ok_inj. Qed.

Lemma arg_position n s arg rest :
  in_width 32 n -> codec_NfsArgOp.(de) (put_u32 n ++ s) = Ok (arg, rest) -> opcode_position (op_code arg) = n.
Proof.
  intros Hn (r & Hr & E)%de_variants_inv; [|done]. rewrite <- (Z2Nat.id n) by (unfold in_width in Hn; lia).
  destruct (Z.to_nat n) as [|k]; [by injection Hr as <-; apply rret_inv in E as ->|].
  do 57 (destruct k as [|k];
    [injection Hr as <-; first [apply rret_inv in E as -> | apply de_variant_inv in E as [a ->]]; reflexivity|]).
  discriminate Hr.
Qed.

(** C28: The number of an operation picks a variant by position, and position and number
    agree up to 39 only: the server reads an operation as the one the client numbered
    exactly when it is one of NFSv4.0; the number of a later one is read as another
    operation, one of those numbered after it. *)
Theorem operation_numbers n s arg rest :
  in_width 32 n -> codec_NfsArgOp.(de) (put_u32 n ++ s) = Ok (arg, rest) ->
  opcode_position (op_code arg) = n /\ (op_code arg = n <-> n <= 39) /\ n <= op_code arg.
Proof.
  intros Hn E. pose proof (arg_position n s arg rest Hn E) as Hp. split; [done|].
  rewrite <- Hp. unfold opcode_position. destruct arg; cbn [op_code]; repeat case_match; lia.
Qed.

(** SEQUENCE, as a client sends it: number 53 and a session id. The server destroys the
    client whose id is the first half of the session id, and reads the rest as an
    operation. *)
Lemma operation_numbers_witness :
  op_code (OpdestroyClientid (MkDestroyClientId4args 1)) <> 53.
Proof.
  intros H. pose proof (operation_numbers 53 (be_bytes 8 1 ++ be_bytes 8 2) (OpdestroyClientid (MkDestroyClientId4args 1))
    (be_bytes 8 2) ltac:(by vm_compute) ltac:(by vm_compute)) as (_ & [Hn _] & _).
  specialize (Hn H). lia.
Defined.

(** A lock type is read as the next one. *)
Lemma lock_type_shifted t s :
  codec_NfsLockType4.(de) (put_u32 (NfsLockType4_to_u32 t) ++ s) =
    match t with
    | ReadLt => Ok (WriteLt, s) | WriteLt => Ok (ReadwLt, s) | ReadwLt => Ok (WritewLt, s)
    | WritewLt => Err (Message "invalid NfsLockType4 variant")
    end.
Proof.
  destruct t; cbn [de codec_NfsLockType4 NfsLockType4_to_u32];
    try (by erewrite de_variants_at by (done || by vm_compute)).
  unfold de_variants, deserialize_enum, rbind. by rewrite get_u32_put by (by vm_compute).
Qed.

Lemma inv_budget_two {W P C L H} `{V : !Vfs W P C} `{ML : !MultiIndex LockingState L lock_clash}
    `{MH : !MultiIndex (Filehandle P C) H fh_clash} (fm : FileManager P C L H) :
  reachable fm -> next_stateid_id fm + 2 < 2 ^ 64 -> inv 2 fm.
Proof.
  intros Hr Hb. destruct (reachable_inv fm Hr) as [[? ? ? ? Hn] Hf]. split; [|done].
  split; try done. unfold in_width in *. lia.
Qed.

Section Locks.
Context {W P C L H : Type} `{V : !Vfs W P C} `{ML : !MultiIndex LockingState L lock_clash}
        `{MH : !MultiIndex (Filehandle P C) H fh_clash}.
Implicit Types (fm : FileManager P C L H) (w : W).

(** A write lock that is free is granted, and leaves no write lock behind on the file. *)
Lemma read_as_shared k fm w id client ow off len :
  inv (k + 1) fm -> 0 <= k -> in_width 64 off -> in_width 64 len ->
  (forall l, l ∈ mi_iter (lockdb fm) -> filehandle_id l = id -> nfs_lock_type l = Some ReadwLt) ->
  exists s fm', handle_lock id client ow ReadwLt off len fm w = Some (LockOk s, fm', w) /\ inv k fm' /\
    forall l, l ∈ mi_iter (lockdb fm') -> filehandle_id l = id -> nfs_lock_type l = Some ReadwLt.
Proof.
  intros Hi Hk Ho Hl Hshared. pose proof (handle_lock_run k fm w id client ow ReadwLt off len Hi Hk Ho Hl) as R.
  assert (E : find_conflict fm id client ow ReadwLt off len = None).
  { apply find_conflict_none. intros l Hin Hf. unfold conflicts_with. rewrite (Hshared l Hin Hf).
    by repeat case_match. }
  rewrite E in R. destruct R as (d & Ed & R & Hi'). eexists _, _. split; [exact R|]. split; [done|].
  pose proof (mi_try_insert_spec (lockdb fm) (new_byte_range_lock id (lock_stateid (next_stateid_id fm)) client ow
    ReadwLt off len)) as S. rewrite Ed in S. destruct S as [_ Sp]. intros l Hin Hf.
  cbn [lockdb set_locks] in Hin. rewrite Sp in Hin. apply elem_of_cons in Hin as [->|Hin]; [done|by apply Hshared].
Qed.

(** C27: Exclusive locks do not exclude over the wire: the number of WRITE_LT is read as a
    lock type that conflicts with nothing of its kind, so on a file without locks two
    owners who both ask for an exclusive lock of the same bytes both get it. *)
Theorem wire_write_locks_shared fm w id c1 o1 c2 o2 off len s :
  reachable fm -> next_stateid_id fm + 2 < 2 ^ 64 -> in_width 64 off -> in_width 64 len ->
  (forall l, l ∈ mi_iter (lockdb fm) -> filehandle_id l <> id) ->
  exists t s1 fm1 s2 fm2,
    codec_NfsLockType4.(de) (put_u32 (NfsLockType4_to_u32 WriteLt) ++ s) = Ok (t, s) /\
    handle_lock id c1 o1 t off len fm w = Some (LockOk s1, fm1, w) /\
    handle_lock id c2 o2 t off len fm1 w = Some (LockOk s2, fm2, w).
Proof.
  intros Hr Hb Ho Hl Hfree. exists ReadwLt.
  destruct (read_as_shared 1 fm w id c1 o1 off len (inv_budget_two fm Hr Hb)) as (s1 & fm1 & E1 & Hi1 & Hs1);
    [done..|intros l Hin Hf; by destruct (Hfree l Hin)|].
  destruct (read_as_shared 0 fm1 w id c2 o2 off len Hi1) as (s2 & fm2 & E2 & _); [done..|].
  exists s1, fm1, s2, fm2. split_and!; [apply (lock_type_shifted WriteLt)|done..].
Qed.
End Locks.

Lemma wire_write_locks_shared_witness :
  exists s1 fm1 s2 fm2,
    handle_lock file_a 1 [x61] ReadwLt 0 100 mem_start mem_world = Some (LockOk s1, fm1, mem_world) /\
    handle_lock file_a 2 [x62] ReadwLt 0 100 fm1 mem_world = Some (LockOk s2, fm2, mem_world).
Proof.
  destruct (wire_write_locks_shared mem_start mem_world file_a 1 [x61] 2 [x62] 0 100 [] mem_start_reachable
    ltac:(by vm_compute) ltac:(by vm_compute) ltac:(by vm_compute)) as (t & s1 & fm1 & s2 & fm2 & Et & E1 & E2).
  - intros l Hl. assert (E : lockdb mem_start = []) by (by vm_compute).
    change (l ∈ lockdb mem_start) in Hl. rewrite E in Hl. by apply not_elem_of_nil in Hl.
  - assert (t = ReadwLt) as -> by (vm_compute in Et; congruence). by exists s1, fm1, s2, fm2.
Defined.

(** ** Results *)

Lemma enc_variant_inv i e bs : enc_variant i e = Ok bs -> exists b, e = Ok b /\ bs = put_u32 i ++ b.
Proof. intros (b & E & <-%Ok_inj)%result_bind_ok. by exists b. Qed.

Lemma enc_fields_inv e l bs :
  enc_fields (e :: l) = Ok bs -> exists b rest, e = Ok b /\ enc_fields l = Ok rest /\ bs = b ++ rest.
Proof. intros (b & E & (rest & E' & <-%Ok_inj)%result_bind_ok)%result_bind_ok. by exists b, rest. Qed.

Lemma enc_status_inv x bs : enc_NfsStat4 x = Ok bs -> bs = put_u32 (NfsStat4_to_u32 x).
Proof. by intros <-%Ok_inj. Qed.

(** Where a result's number and status stand. *)
Definition res_position (res : NfsResOp4) : Z :=
  match res with ResOpError op _ => op | _ => opcode_position (res_op res) end.

Ltac open_result E :=
  unfold
    enc_Access4res, enc_Allocate4res, enc_BindConnToSession4res, enc_Close4res, enc_Commit4res,
    enc_Copy4res, enc_Create4res, enc_CreateSession4res, enc_DelegPurge4res, enc_DelegReturn4res,
    enc_DestroyClientId4res, enc_DestroySession4res, enc_ExchangeId4res, enc_FreeStateid4res,
    enc_GetDeviceInfo4res, enc_GetDeviceList4res, enc_GetFh4res, enc_Getattr4resok,
    enc_LayoutCommit4res, enc_LayoutGet4res, enc_LayoutReturn4res, enc_Link4res, enc_Lock4res,
    enc_Lockt4res, enc_Locku4res, enc_Lookup4res, enc_LookupP4res, enc_Nverify4res, enc_Open4res,
    enc_OpenAttr4res, enc_OpenConfirm4res, enc_OpenDowngrade4res, enc_PutFh4res, enc_PutRootFh4res,
    enc_Read4res, enc_ReadDir4res, enc_Readlink4res, enc_ReclaimComplete4res,
    enc_ReleaseLockowner4res, enc_Remove4res, enc_Rename4res, enc_Renew4res, enc_RestoreFh4res,
    enc_SaveFh4res, enc_SecInfo4res, enc_Seek4res, enc_Sequence4res, enc_SetAttr4res,
    enc_SetClientId4res, enc_SetClientIdConfirm4res, enc_TestStateid4res, enc_Verify4res,
    enc_Write4res in E;
  repeat match type of E with
  | match ?a with _ => _ end = Ok _ => destruct a
  | (if ?b then _ else _) = Ok _ => destruct b
  | enc_variant _ _ = Ok _ => let b := fresh "b" in apply enc_variant_inv in E as (b & E & ->)
  end.

Lemma enc_result_words res word bs :
  enc_result res = Ok bs -> body_word res = Some word ->
  exists rest, bs = put_u32 (res_position res) ++ put_u32 word ++ rest.
Proof.
  intros E Hw. destruct res; try discriminate Hw; cbn [enc_result] in E;
    unfold enc_NfsResOp4 in E; try (apply enc_variant_inv in E as (b & E & ->)); cbn [res_position res_op body_word] in Hw |- *.
  all: open_result E.
  all: cbn in Hw; injection Hw as <-.
  all: try (by eexists).
  all: try (apply enc_status_inv in E as ->; by exists []).
  all: apply enc_fields_inv in E as (w1 & rest & E1 & E2 & ->); apply enc_status_inv in E1 as ->; by eexists.
Qed.

(** ** Statuses *)

Section Statuses.
Context {W P C Fm F : Type} `{V : !Vfs W P C} `{A : !Actors W P C Fm} `{CH : !Channels W P C Fm}
        `{IO : !FileIo W P F} `{SH : !Shared W Fm} `{ST : !SessionStore W}.
Variable parse_ip parse_socket : string -> option IpAddr.
Variable getpwnam getgrnam : string -> option Z.
Variable lchown : W -> string -> Z -> Z -> bool * W.
Variable try_consume : W -> Z -> Z -> bool * W.
Variable in_grace : W -> bool.
#[local] Abbreviation Req := (NfsRequest P C Fm).
#[local] Abbreviation exec := (execute (F:=F) parse_ip parse_socket getpwnam getgrnam).

(** The results of a COMPOUND that ends with [st]: under NFS4_OK up to the last one, and
    that one under [st]. *)
Definition told (res : list NfsResOp4) (st : NfsStat4) : Prop :=
  Forall (fun x => worded x Nfs4Ok) res \/
  exists ok last, res = ok ++ [last] /\ Forall (fun x => worded x Nfs4Ok) ok /\ worded last st.

Lemma told_snoc res x st : Forall (fun x => worded x Nfs4Ok) res -> worded x st -> told (res ++ [x]) st.
Proof. intros Hr Hx. right. by exists res, x. Qed.

Lemma compound_loop_tells ops (r : Req) w res last r' st res' w' :
  Forall (fun arg => misworded arg = false) ops -> Forall (fun x => worded x Nfs4Ok) res ->
  compound_loop parse_ip parse_socket getpwnam getgrnam lchown try_consume in_grace exec ops r w res last
    = Some (r', st, res', w') ->
  told res' st.
Proof.
  intros Hops. revert r w res last. induction Hops as [|arg ops Harg Hops IH]; intros r w res last Hres.
  { intros [= <- <- <- <-]. by left. }
  cbn [compound_loop]. destruct (rate_limited try_consume arg r w) as [limited w1]. destruct limited.
  { intros [= <- <- <- <-]. by apply told_snoc. }
  destruct (guards getpwnam getgrnam in_grace arg r w1) as [c|s [|]].
  2: { intros [= <- <- <- <-]. by apply told_snoc. }
  2: { intros [= <- <- <- <-]. by left. }
  cbv zeta. pose proof (dispatch_tells (F:=F) parse_ip parse_socket getpwnam getgrnam arg r w1) as Hd.
  destruct (dispatch parse_ip parse_socket exec arg r w1) as [[resp w2]|]; [|done]. cbn [mbind option_bind].
  pose proof (finish_tells parse_ip parse_socket lchown arg arg (head ops) (creates_object arg w1 r) c (current_export_id r) resp w2 Hd) as Hf.
  destruct (finish_op _ _ _ _ _ _ _ _ _ _) as [resp' w3]. cbn [tells] in Hf.
  destruct (op_result resp') as [x|]; [|intros [= <- <- <- <-]; by left].
  assert (Hx : worded x (status resp')) by (destruct Hf as [Hx|[Hm _]]; [done|by rewrite Harg in Hm]).
  case_bool_decide as Es.
  - apply IH. apply Forall_app_2; [done|]. apply Forall_singleton. by rewrite <- Es.
  - intros [= <- <- <- <-]. by apply told_snoc.
Qed.

(** A client can go by the words on the wire: in the reply to a COMPOUND without the
    misworded operations every result, encoded, is its number and a status, NFS4_OK up to
    the last result, and there NFS4_OK or the status of the COMPOUND. *)
Theorem results_tell_status msg a (r : Req) w r' rep w' :
  Rpc.args msg = Some a -> Forall (fun arg => misworded arg = false) (compound4args_argarray a) ->
  serve_compound (F:=F) parse_ip parse_socket getpwnam getgrnam lchown try_consume in_grace msg r w
    = Some (r', rep, w') ->
  exists st res, rep = reply st (compound4args_tag a) res /\
    forall i x bs, res !! i = Some x -> enc_result x = Ok bs ->
      exists s rest, bs = put_u32 (res_position x) ++ put_u32 (NfsStat4_to_u32 s) ++ rest /\
        (s = Nfs4Ok \/ (s = st /\ S i = length res)).
Proof.
  intros Ea Hops. unfold serve_compound, compound. rewrite Ea. case_match.
  { intros [= <- <- <-]. exists Nfs4errMinorVersMismatch, []. by split. }
  destruct (compound_loop _ _ _ _ _ _ _ _ _ _ _ _ _) as [[[[r1 st] res] w1]|] eqn:El; [|done].
  intros [= <- <- <-]. apply compound_loop_tells in El; [|done|done]. exists st, res. split; [done|].
  intros i x bs Hi Ex. destruct El as [Hok|(ok & last & -> & Hok & Hlast)].
  - destruct (enc_result_words _ _ _ Ex (proj1 (Forall_lookup _ _) Hok i x Hi)) as (rest & ->). exists Nfs4Ok, rest. auto.
  - apply lookup_app_Some in Hi as [Hi|[Hl Hi]].
    + destruct (enc_result_words _ _ _ Ex (proj1 (Forall_lookup _ _) Hok i x Hi)) as (rest & ->). exists Nfs4Ok, rest. auto.
    + apply list_lookup_singleton_Some in Hi as [Hi <-].
      destruct (enc_result_words _ _ _ Ex Hlast) as (rest & ->). exists st, rest.
      split; [done|]. right. rewrite length_app. simpl. split; [done|lia].
Qed.
End Statuses.

(** A client reads the denial of a LOCK as NFS4ERR_PERM, and that of a LOCKT as a success. *)
Lemma denials_misworded d bs :
  (enc_result (ResOplock (Lock4res_Denied d)) = Ok bs -> exists rest, bs = put_u32 12 ++ put_u32 1 ++ rest) /\
  (enc_result (ResOplockt (Lockt4res_Denied d)) = Ok bs -> exists rest, bs = put_u32 13 ++ put_u32 0 ++ rest).
Proof. split; intros E; by apply (enc_result_words _ _ _ E). Qed.
