(* ===== verification/WireClient.v ===== *)
(** * The wire-level test client ([nfstest/src/wire/xdr.rs], [rpc.rs], [nfs4.rs])

    The repository's own client: its XDR encoder and decoder, its RPC calls, the operations
    it builds and its NFSv4 tests. It shares no code with the server, so what the two make
    of each other's bytes says something about both. A test runs in a small monad over the
    client's state; [Err] is [anyhow::bail!] or [?], with the message's text but not the
    values printed in it. The other end of the socket is [transmit], which takes what the
    client sends and gives what comes back before the server waits for more. *)

From S2P Require Import Prelude Xdr.
From stdpp Require Import base list strings numbers.
From Stdlib Require Import Strings.Byte ZArith Lia.
#[local] Open Scope Z_scope.

(** ** [XdrEncoder]

    An encoder is the bytes written so far; [put_X] is what it appends. *)
Module XdrEncoder.
Definition put_u32 (v : Z) : list byte := be_bytes 4 v.
Definition put_u64 (v : Z) : list byte := be_bytes 8 v.
Definition put_bool (b : bool) : list byte := put_u32 (if b then 1 else 0).
Definition put_opaque_fixed (data : list byte) : list byte :=
  data ++ replicate ((4 - length data mod 4) mod 4)%nat x00.
Definition put_opaque (data : list byte) : list byte :=
  put_u32 (wrap 32 (Z.of_nat (length data))) ++ put_opaque_fixed data.
Definition put_string (s : string) : list byte := put_opaque (String.list_byte_of_string s).
End XdrEncoder.

(** ** [XdrDecoder] *)

Record XdrDecoder : Type := MkXdrDecoder { dec_buf : list byte; dec_pos : nat }.

Module XdrDecoder.
Definition dec (A : Type) : Type := XdrDecoder -> result (A * XdrDecoder) string.

(** [XdrDecoder::new] *)
Definition start (data : list byte) : XdrDecoder := MkXdrDecoder data 0.

Definition remaining (d : XdrDecoder) : nat := (length (dec_buf d) - dec_pos d)%nat.

Definition get_u32 : dec Z := fun d =>
  if (remaining d <? 4)%nat then Err "XDR underflow"
  else Ok (be_val (take 4 (drop (dec_pos d) (dec_buf d))), MkXdrDecoder (dec_buf d) (dec_pos d + 4)).

Definition get_u64 : dec Z := fun d =>
  if (remaining d <? 8)%nat then Err "XDR underflow" else
  try hi := get_u32 d in
  try lo := get_u32 hi.2 in
  Ok (Z.lor (Z.shiftl hi.1 32) lo.1, lo.2).

Definition get_opaque_fixed (len : nat) : dec (list byte) := fun d =>
  let padded := (len + (4 - len mod 4) mod 4)%nat in
  if (remaining d <? padded)%nat then Err "XDR underflow"
  else Ok (take len (drop (dec_pos d) (dec_buf d)), MkXdrDecoder (dec_buf d) (dec_pos d + padded)).

Definition get_opaque : dec (list byte) := fun d =>
  try len := get_u32 d in get_opaque_fixed (Z.to_nat len.1) len.2.

Definition get_string : dec string := fun d =>
  try data := get_opaque d in
  if utf8_valid data.1 then Ok (String.string_of_list_byte data.1, data.2) else Err "invalid utf-8 sequence".
End XdrDecoder.

(** ** [RpcClient] *)

Definition RPC_VERSION : Z := 2.
Definition MSG_TYPE_CALL : Z := 0.
Definition MSG_TYPE_REPLY : Z := 1.
Definition REPLY_ACCEPTED : Z := 0.
Definition ACCEPT_SUCCESS : Z := 0.
Definition AUTH_SYS : Z := 1.
Definition AUTH_NONE : Z := 0.
Definition NFS_PROGRAM : Z := 100003.
Definition NFS_V4 : Z := 4.

(** The client with what has arrived on its socket and is not read yet, and the other end. *)
Record RpcClient (S : Type) : Type := MkRpcClient {
  client_xid : Z; client_uid : Z; client_gid : Z; inbox : list byte; peer : S
}.
Arguments MkRpcClient {S}.
Arguments client_xid {S}.
Arguments client_uid {S}.
Arguments client_gid {S}.
Arguments inbox {S}.
Arguments peer {S}.

(** [Vec::from(auth_sys())] *)
Definition auth_sys (uid gid : Z) : list byte :=
  XdrEncoder.put_u32 0 ++ XdrEncoder.put_string "nextnfstest" ++ XdrEncoder.put_u32 uid ++ XdrEncoder.put_u32 gid ++
  XdrEncoder.put_u32 0.

(** The record [call] writes. *)
Definition call_message (xid uid gid program version procedure : Z) (args : list byte) : list byte :=
  XdrEncoder.put_u32 xid ++ XdrEncoder.put_u32 MSG_TYPE_CALL ++ XdrEncoder.put_u32 RPC_VERSION ++
  XdrEncoder.put_u32 program ++ XdrEncoder.put_u32 version ++ XdrEncoder.put_u32 procedure ++
  XdrEncoder.put_u32 AUTH_SYS ++ XdrEncoder.put_opaque (auth_sys uid gid) ++
  XdrEncoder.put_u32 AUTH_NONE ++ XdrEncoder.put_u32 0 ++ args.

Definition call_frame (message : list byte) : list byte :=
  be_bytes 4 (Z.lor 0x80000000 (wrap 32 (Z.of_nat (length message)))) ++ message.

(** [RpcClient::read_record], on what has arrived: the record and the rest. A record that
    has not arrived in full is an error here, whether the peer has closed or says no more.
    A round takes at least four bytes. *)
Fixpoint read_record_from (fuel : nat) (acc stream : list byte) : result (list byte * list byte) string :=
  match fuel with
  | O => Err "early eof"
  | S fuel =>
    if (length stream <? 4)%nat then Err "early eof" else
    let header := be_val (take 4 stream) in
    let last := negb (Z.land header 0x80000000 =? 0) in
    let frag_len := Z.land header 0x7FFFFFFF in
    if 16 * 1024 * 1024 <? frag_len then Err "Fragment too large" else
    let n := Z.to_nat frag_len in
    if (length stream <? 4 + n)%nat then Err "early eof" else
    let acc := acc ++ take n (drop 4 stream) in
    let rest := drop (4 + n) stream in
    if last then Ok (acc, rest) else read_record_from fuel acc rest
  end.

Definition accept_stat_name (stat : Z) : string :=
  match stat with
  | 0 => "SUCCESS" | 1 => "PROG_UNAVAIL" | 2 => "PROG_MISMATCH" | 3 => "PROC_UNAVAIL" | 4 => "GARBAGE_ARGS"
  | 5 => "SYSTEM_ERR" | _ => "UNKNOWN"
  end.

(** The reply header; what follows it is the procedure's reply. *)
Definition parse_reply (xid : Z) (reply : list byte) : result (list byte) string :=
  try x := XdrDecoder.get_u32 (XdrDecoder.start reply) in
  if negb (x.1 =? xid) then Err "XID mismatch" else
  try t := XdrDecoder.get_u32 x.2 in
  if negb (t.1 =? MSG_TYPE_REPLY) then Err "Expected REPLY (1)" else
  try st := XdrDecoder.get_u32 t.2 in
  if negb (st.1 =? REPLY_ACCEPTED) then try _ := XdrDecoder.get_u32 st.2 in Err "RPC rejected" else
  try vf := XdrDecoder.get_u32 st.2 in
  try vb := XdrDecoder.get_opaque vf.2 in
  try ac := XdrDecoder.get_u32 vb.2 in
  if negb (ac.1 =? ACCEPT_SUCCESS) then Err ("RPC accept error: " +:+ accept_stat_name ac.1)
  else Ok (drop (dec_pos ac.2) reply).

(** ** Operations ([wire/nfs4.rs]) *)

Definition OP_ACCESS : Z := 3.
Definition OP_GETATTR : Z := 9.
Definition OP_GETFH : Z := 10.
Definition OP_LOOKUP : Z := 15.
Definition OP_LOOKUPP : Z := 16.
Definition OP_PUTFH : Z := 22.
Definition OP_PUTROOTFH : Z := 24.
Definition OP_READDIR : Z := 26.
Definition OP_RENEW : Z := 30.
Definition OP_RESTOREFH : Z := 31.
Definition OP_SAVEFH : Z := 32.
Definition OP_SECINFO : Z := 33.
Definition OP_SETCLIENTID : Z := 35.
Definition OP_SETCLIENTID_CONFIRM : Z := 36.
Definition OP_EXCHANGE_ID : Z := 42.
Definition OP_CREATE_SESSION : Z := 43.
Definition OP_DESTROY_SESSION : Z := 44.
Definition OP_SEQUENCE : Z := 53.
Definition OP_RECLAIM_COMPLETE : Z := 58.
Definition NFS4_OK : Z := 0.
Definition NFS4ERR_NOENT : Z := 2.
Definition NFS4ERR_OP_ILLEGAL : Z := 10044.
Definition NFSPROC4_COMPOUND : Z := 1.
Definition FATTR4_TYPE : Z := 1.
Definition FATTR4_FH_EXPIRE_TYPE : Z := 2.
Definition FATTR4_CHANGE : Z := 3.
Definition FATTR4_SIZE : Z := 4.
Definition FATTR4_LINK_SUPPORT : Z := 5.
Definition FATTR4_SYMLINK_SUPPORT : Z := 6.

(** [words[word_idx] |= 1 << bit_idx] for every bit. *)
Definition attr_bitmap (bits : list Z) : list Z :=
  let max_bit := foldr Z.max 0 bits in
  fold_left (fun words bit => alter (fun w => Z.lor w (Z.shiftl 1 (bit mod 32))) (Z.to_nat (bit / 32)) words)
    bits (replicate (Z.to_nat (max_bit / 32) + 1) 0).

Definition encode_bitmap (bitmap : list Z) : list byte :=
  XdrEncoder.put_u32 (wrap 32 (Z.of_nat (length bitmap))) ++ concat (map XdrEncoder.put_u32 bitmap).

(** Every operation is copied behind what was written so far, both as fixed opaque data. *)
Definition build_compound (tag : string) (minor_version : Z) (ops : list (list byte)) : list byte :=
  fold_left (fun enc op => XdrEncoder.put_opaque_fixed enc ++ XdrEncoder.put_opaque_fixed op) ops
    (XdrEncoder.put_string tag ++ XdrEncoder.put_u32 minor_version ++
     XdrEncoder.put_u32 (wrap 32 (Z.of_nat (length ops)))).

Definition op_putrootfh : list byte := XdrEncoder.put_u32 OP_PUTROOTFH.
Definition op_getfh : list byte := XdrEncoder.put_u32 OP_GETFH.
Definition op_getattr (bits : list Z) : list byte := XdrEncoder.put_u32 OP_GETATTR ++ encode_bitmap (attr_bitmap bits).
Definition op_putfh (fh : list byte) : list byte := XdrEncoder.put_u32 OP_PUTFH ++ XdrEncoder.put_opaque fh.
Definition op_lookup (name : string) : list byte := XdrEncoder.put_u32 OP_LOOKUP ++ XdrEncoder.put_string name.
Definition op_lookupp : list byte := XdrEncoder.put_u32 OP_LOOKUPP.
Definition op_access (access_bits : Z) : list byte := XdrEncoder.put_u32 OP_ACCESS ++ XdrEncoder.put_u32 access_bits.
Definition op_readdir (cookie : Z) (cookieverf : list byte) (dircount maxcount : Z) (attr_bits : list Z) : list byte :=
  XdrEncoder.put_u32 OP_READDIR ++ XdrEncoder.put_u64 cookie ++ XdrEncoder.put_opaque_fixed cookieverf ++
  XdrEncoder.put_u32 dircount ++ XdrEncoder.put_u32 maxcount ++ encode_bitmap (attr_bitmap attr_bits).
Definition op_savefh : list byte := XdrEncoder.put_u32 OP_SAVEFH.
Definition op_restorefh : list byte := XdrEncoder.put_u32 OP_RESTOREFH.
Definition op_setclientid (client_name : string) (verifier : list byte) : list byte :=
  XdrEncoder.put_u32 OP_SETCLIENTID ++ XdrEncoder.put_opaque_fixed verifier ++
  XdrEncoder.put_opaque (String.list_byte_of_string client_name) ++
  XdrEncoder.put_u32 0 ++ XdrEncoder.put_string "tcp" ++ XdrEncoder.put_string "0.0.0.0.0.0" ++ XdrEncoder.put_u32 0.
Definition op_setclientid_confirm (clientid : Z) (verifier : list byte) : list byte :=
  XdrEncoder.put_u32 OP_SETCLIENTID_CONFIRM ++ XdrEncoder.put_u64 clientid ++ XdrEncoder.put_opaque_fixed verifier.
Definition op_renew (clientid : Z) : list byte := XdrEncoder.put_u32 OP_RENEW ++ XdrEncoder.put_u64 clientid.
(** The operation of [test_secinfo]. *)
Definition op_secinfo (name : string) : list byte := XdrEncoder.put_u32 OP_SECINFO ++ XdrEncoder.put_string name.

Definition op_exchange_id (client_name : string) : list byte :=
  XdrEncoder.put_u32 OP_EXCHANGE_ID ++ XdrEncoder.put_opaque_fixed [x01; x02; x03; x04; x05; x06; x07; x08] ++
  XdrEncoder.put_opaque (String.list_byte_of_string client_name) ++
  XdrEncoder.put_u32 0 ++ XdrEncoder.put_u32 0 ++ XdrEncoder.put_u32 0.
Definition op_create_session (clientid sequenceid : Z) : list byte :=
  XdrEncoder.put_u32 OP_CREATE_SESSION ++ XdrEncoder.put_u64 clientid ++ XdrEncoder.put_u32 sequenceid ++
  concat (map XdrEncoder.put_u32
    [0; 0; 1048576; 1048576; 1048576; 16; 64; 0; 0; 1048576; 1048576; 1048576; 16; 8; 0; 0; 1; 0]).
Definition op_sequence (sessionid : list byte) (sequenceid slotid highest_slotid : Z) : list byte :=
  XdrEncoder.put_u32 OP_SEQUENCE ++ XdrEncoder.put_opaque_fixed sessionid ++ XdrEncoder.put_u32 sequenceid ++
  XdrEncoder.put_u32 slotid ++ XdrEncoder.put_u32 highest_slotid ++ XdrEncoder.put_bool false.
Definition op_destroy_session (sessionid : list byte) : list byte :=
  XdrEncoder.put_u32 OP_DESTROY_SESSION ++ XdrEncoder.put_opaque_fixed sessionid.
Definition op_reclaim_complete (one_fs : bool) : list byte :=
  XdrEncoder.put_u32 OP_RECLAIM_COMPLETE ++ XdrEncoder.put_bool one_fs.

(** Status, number of results, and where the results start. *)
Definition parse_compound_reply (data : list byte) : result (Z * Z * nat) string :=
  try st := XdrDecoder.get_u32 (XdrDecoder.start data) in
  try tag := XdrDecoder.get_string st.2 in
  try num_ops := XdrDecoder.get_u32 tag.2 in
  Ok (st.1, num_ops.1, dec_pos num_ops.2).

(** The number and status of the result at [offset], and where its body starts. *)
Definition parse_op_result (data : list byte) (offset : nat) : result (Z * Z * nat) string :=
  try op := XdrDecoder.get_u32 (XdrDecoder.start (drop offset data)) in
  try st := XdrDecoder.get_u32 op.2 in
  Ok (op.1, st.1, (offset + dec_pos st.2)%nat).

(** ** Tests *)

Section Client.
Context {S : Type}.
(** What the peer sends back for what it is sent. *)
Variable transmit : list byte -> S -> list byte * S.

Definition test (A : Type) : Type := RpcClient S -> result A string * RpcClient S.

Definition done_ {A} (a : A) : test A := fun c => (Ok a, c).
Definition bail {A} (message : string) : test A := fun c => (Err message, c).
Definition lift {A} (r : result A string) : test A := fun c => (r, c).
Definition and_then {A B} (m : test A) (k : A -> test B) : test B := fun c =>
  match m c with (Ok a, c) => k a c | (Err e, c) => (Err e, c) end.

#[local] Notation "'do' x '<-' m 'in' k" := (and_then m (fun x => k))
  (at level 200, x binder, m at level 100, k at level 200).

(** [RpcClient::call] *)
Definition call (program version procedure : Z) (args : list byte) : test (list byte) := fun c =>
  let xid := client_xid c in
  let message := call_message xid (client_uid c) (client_gid c) program version procedure args in
  let '(answer, p) := transmit (call_frame message) (peer c) in
  let stream := inbox c ++ answer in
  let after inbox := MkRpcClient (wrap 32 (xid + 1)) (client_uid c) (client_gid c) inbox p in
  match read_record_from (length stream + 1) [] stream with
  | Err e => (Err e, after stream)
  | Ok (reply, rest) => (parse_reply xid reply, after rest)
  end.

Definition compound (tag : string) (minor_version : Z) (ops : list (list byte)) : test (list byte) :=
  call NFS_PROGRAM NFS_V4 NFSPROC4_COMPOUND (build_compound tag minor_version ops).

(** [if b { bail!(m) }] *)
Definition bail_if (b : bool) (message : string) : test unit := if b then bail message else done_ tt.

(** A decoder started at an offset of the reply. *)
Definition decode_at {A} (reply : list byte) (offset : nat) (f : XdrDecoder.dec A) : test (A * XdrDecoder) :=
  lift (f (XdrDecoder.start (drop offset reply))).

Definition test_empty_compound : test unit :=
  do reply <- compound "empty" 0 [] in
  do '(status, num_ops, _) <- lift (parse_compound_reply reply) in
  bail_if (negb (status =? NFS4_OK) && negb (status =? NFS4ERR_OP_ILLEGAL)) "Empty COMPOUND returned unexpected status".

Definition test_putrootfh_getfh : test unit :=
  do reply <- compound "getroot" 0 [op_putrootfh; op_getfh] in
  do '(status, num_ops, offset) <- lift (parse_compound_reply reply) in
  do _ <- bail_if (negb (status =? NFS4_OK)) "COMPOUND returned status" in
  do _ <- bail_if (num_ops <? 2) "Expected 2 op results" in
  do '(op1, status1, offset1) <- lift (parse_op_result reply offset) in
  do _ <- bail_if (negb (op1 =? OP_PUTROOTFH) || negb (status1 =? NFS4_OK)) "PUTROOTFH failed" in
  do '(op2, status2, offset2) <- lift (parse_op_result reply offset1) in
  do _ <- bail_if (negb (op2 =? OP_GETFH) || negb (status2 =? NFS4_OK)) "GETFH failed" in
  do '(fh, _) <- decode_at reply offset2 XdrDecoder.get_opaque in
  bail_if (bool_decide (fh = [])) "GETFH returned empty filehandle".

Definition test_compound_partial_error : test unit :=
  do reply <- compound "partial" 0 [op_putrootfh; op_lookup "__nonexistent_nextnfstest__"; op_getfh] in
  do '(status, num_ops, offset) <- lift (parse_compound_reply reply) in
  do _ <- bail_if (3 <=? num_ops) "Expected partial results (2 ops)" in
  do '(op1, status1, offset1) <- lift (parse_op_result reply offset) in
  do _ <- bail_if (negb (status1 =? NFS4_OK)) "PUTROOTFH should succeed in partial error test" in
  do '(op2, status2, _) <- lift (parse_op_result reply offset1) in
  bail_if (status2 =? NFS4_OK) "LOOKUP of nonexistent should fail".

(** [uuid] is what [Uuid::new_v4] gives. *)
Definition register_client (uuid : string) : test (Z * list byte) :=
  let verifier := [x01; x02; x03; x04; x05; x06; x07; x08] in
  do reply <- compound "setcid" 0 [op_setclientid ("nextnfstest-" +:+ uuid) verifier] in
  do '(status, _, offset) <- lift (parse_compound_reply reply) in
  do _ <- bail_if (negb (status =? NFS4_OK)) "SETCLIENTID COMPOUND failed" in
  do '(op, op_status, offset2) <- lift (parse_op_result reply offset) in
  do _ <- bail_if (negb (op_status =? NFS4_OK)) "SETCLIENTID op failed" in
  do '(clientid, d) <- decode_at reply offset2 XdrDecoder.get_u64 in
  do '(confirm_verf, _) <- lift (XdrDecoder.get_opaque_fixed 8 d) in
  done_ (clientid, confirm_verf).

Definition test_setclientid (uuid : string) : test unit :=
  do '(clientid, _) <- register_client uuid in
  bail_if (clientid =? 0) "SETCLIENTID returned zero client ID".

(** The check that SETCLIENTID_CONFIRM, RENEW and the session operations share: the
    COMPOUND's status and its first result's. *)
Definition expect_ok (reply : list byte) (failed op_failed : string) : test (Z * Z * nat) :=
  do '(status, _, offset) <- lift (parse_compound_reply reply) in
  do _ <- bail_if (negb (status =? NFS4_OK)) failed in
  do '(op, op_status, offset2) <- lift (parse_op_result reply offset) in
  do _ <- bail_if (negb (op_status =? NFS4_OK)) op_failed in
  done_ (op, op_status, offset2).

Definition test_setclientid_confirm (uuid : string) : test unit :=
  do '(clientid, confirm_verf) <- register_client uuid in
  do reply <- compound "confirm" 0 [op_setclientid_confirm clientid confirm_verf] in
  do _ <- expect_ok reply "SETCLIENTID_CONFIRM COMPOUND failed" "SETCLIENTID_CONFIRM failed" in
  done_ tt.

Definition test_renew (uuid : string) : test unit :=
  do '(clientid, confirm_verf) <- register_client uuid in
  do _ <- compound "confirm" 0 [op_setclientid_confirm clientid confirm_verf] in
  do reply <- compound "renew" 0 [op_renew clientid] in
  do _ <- expect_ok reply "RENEW COMPOUND failed" "RENEW failed" in
  done_ tt.

Definition test_putfh_getattr : test unit :=
  do reply <- compound "getroot" 0 [op_putrootfh; op_getfh] in
  do '(status, _, offset) <- lift (parse_compound_reply reply) in
  do _ <- bail_if (negb (status =? NFS4_OK)) "Failed to get root FH" in
  do '(_, _, offset1) <- lift (parse_op_result reply offset) in
  do '(_, _, offset2) <- lift (parse_op_result reply offset1) in
  do '(root_fh, _) <- decode_at reply offset2 XdrDecoder.get_opaque in
  do reply <- compound "getattr" 0 [op_putfh root_fh; op_getattr [FATTR4_TYPE; FATTR4_SIZE; FATTR4_CHANGE]] in
  do '(status, _, _) <- lift (parse_compound_reply reply) in
  bail_if (negb (status =? NFS4_OK)) "PUTFH+GETATTR returned status".

Definition test_lookup_chain : test unit :=
  do reply <- compound "chain" 0 [op_putrootfh; op_getattr [FATTR4_TYPE]; op_getfh] in
  do '(status, num_ops, _) <- lift (parse_compound_reply reply) in
  do _ <- bail_if (negb (status =? NFS4_OK)) "LOOKUP chain COMPOUND failed" in
  bail_if (negb (num_ops =? 3)) "Expected 3 op results".

Definition test_lookupp : test unit :=
  do reply <- compound "lookupp" 0 [op_putrootfh; op_lookupp] in
  do '(_, _, offset) <- lift (parse_compound_reply reply) in
  do '(_, status1, offset1) <- lift (parse_op_result reply offset) in
  do _ <- bail_if (negb (status1 =? NFS4_OK)) "PUTROOTFH failed" in
  do '(_, status2, _) <- lift (parse_op_result reply offset1) in
  bail_if (negb (status2 =? NFS4_OK) && negb (status2 =? NFS4ERR_NOENT)) "LOOKUPP at root returned unexpected status".

Definition test_savefh_restorefh : test unit :=
  do reply <- compound "saverestore" 0 [op_putrootfh; op_savefh; op_restorefh; op_getfh] in
  do '(status, num_ops, _) <- lift (parse_compound_reply reply) in
  do _ <- bail_if (negb (status =? NFS4_OK)) "SAVEFH/RESTOREFH chain failed" in
  bail_if (negb (num_ops =? 4)) "Expected 4 op results".

Definition test_readdir_v4 : test unit :=
  do reply <- compound "readdir" 0 [op_putrootfh; op_readdir 0 (replicate 8 x00) 8192 32768 [FATTR4_TYPE]] in
  do '(status, _, _) <- lift (parse_compound_reply reply) in
  bail_if (negb (status =? NFS4_OK)) "READDIR failed".

Definition test_getattr_mandatory : test unit :=
  do reply <- compound "mandatory" 0 [op_putrootfh; op_getattr [FATTR4_TYPE; FATTR4_FH_EXPIRE_TYPE; FATTR4_CHANGE;
    FATTR4_SIZE; FATTR4_LINK_SUPPORT; FATTR4_SYMLINK_SUPPORT]] in
  do '(status, _, _) <- lift (parse_compound_reply reply) in
  bail_if (negb (status =? NFS4_OK)) "GETATTR mandatory attrs failed".

Definition test_secinfo : test unit :=
  do reply <- compound "secinfo" 0 [op_putrootfh; op_secinfo "."] in
  do '(status, _, offset) <- lift (parse_compound_reply reply) in
  do '(_, status1, _) <- lift (parse_op_result reply offset) in
  bail_if (negb (status1 =? NFS4_OK)) "PUTROOTFH failed in SECINFO test".

(** *** NFSv4.1 *)

Definition setup_v41_session (uuid : string) : test (Z * list byte * Z) :=
  do reply <- compound "exchid" 1 [op_exchange_id ("nextnfstest-v41-" +:+ uuid)] in
  do '(_, _, offset2) <- expect_ok reply "EXCHANGE_ID COMPOUND failed" "EXCHANGE_ID failed" in
  do '(clientid, d) <- decode_at reply offset2 XdrDecoder.get_u64 in
  do '(sequenceid, d) <- lift (XdrDecoder.get_u32 d) in
  do '(_, d) <- lift (XdrDecoder.get_u32 d) in
  do '(_, _) <- lift (XdrDecoder.get_u32 d) in
  do reply <- compound "createsess" 1 [op_create_session clientid sequenceid] in
  do '(_, _, offset2) <- expect_ok reply "CREATE_SESSION COMPOUND failed" "CREATE_SESSION failed" in
  do '(sessionid, d) <- decode_at reply offset2 (XdrDecoder.get_opaque_fixed 16) in
  do '(_, _) <- lift (XdrDecoder.get_u32 d) in
  done_ (clientid, sessionid, 1).

Definition test_exchange_id (uuid : string) : test unit :=
  do reply <- compound "exchid" 1 [op_exchange_id ("nextnfstest-v41-" +:+ uuid)] in
  do _ <- expect_ok reply "EXCHANGE_ID COMPOUND failed" "EXCHANGE_ID failed" in
  done_ tt.

Definition test_create_session (uuid : string) : test unit :=
  do '(_, sessionid, _) <- setup_v41_session uuid in
  bail_if (bool_decide (sessionid = replicate 16 x00)) "CREATE_SESSION returned zero session ID".

Definition test_destroy_session (uuid : string) : test unit :=
  do '(_, sessionid, _) <- setup_v41_session uuid in
  do reply <- compound "destroy" 1 [op_destroy_session sessionid] in
  do _ <- expect_ok reply "DESTROY_SESSION COMPOUND failed" "DESTROY_SESSION failed" in
  done_ tt.

Definition test_sequence (uuid : string) : test unit :=
  do '(_, sessionid, seq) <- setup_v41_session uuid in
  do reply <- compound "seq" 1 [op_sequence sessionid seq 0 0; op_putrootfh; op_getfh] in
  do '(status, _, _) <- lift (parse_compound_reply reply) in
  bail_if (negb (status =? NFS4_OK)) "SEQUENCE + PUTROOTFH + GETFH failed".

Definition test_reclaim_complete (uuid : string) : test unit :=
  do '(_, sessionid, seq) <- setup_v41_session uuid in
  do reply <- compound "reclaim" 1 [op_sequence sessionid seq 0 0; op_reclaim_complete false] in
  do '(status, _, _) <- lift (parse_compound_reply reply) in
  bail_if (negb (status =? NFS4_OK)) "RECLAIM_COMPLETE failed".

Definition test_exactly_once : test unit :=
  bail "SKIP: Exactly-once semantics test requires connection-level replay control".

(** *** Dispatch *)

Definition not_yet (test_id : string) : test unit := bail ("SKIP: Test " +:+ test_id +:+ " not yet implemented").

Definition execute_v40 (test_id uuid : string) : test unit :=
  if bool_decide (test_id = "W40-001") then test_empty_compound else
  if bool_decide (test_id ∈ ["W40-002"; "W40-020"]) then test_putrootfh_getfh else
  if bool_decide (test_id = "W40-005") then test_compound_partial_error else
  if bool_decide (test_id = "W40-010") then test_setclientid uuid else
  if bool_decide (test_id = "W40-011") then test_setclientid_confirm uuid else
  if bool_decide (test_id = "W40-014") then test_renew uuid else
  if bool_decide (test_id = "W40-021") then test_putfh_getattr else
  if bool_decide (test_id = "W40-023") then test_lookup_chain else
  if bool_decide (test_id = "W40-024") then test_lookupp else
  if bool_decide (test_id = "W40-025") then test_savefh_restorefh else
  if bool_decide (test_id = "W40-065") then test_readdir_v4 else
  if bool_decide (test_id = "W40-070") then test_getattr_mandatory else
  if bool_decide (test_id = "W40-080") then test_secinfo else not_yet test_id.

Definition execute_v41 (test_id uuid : string) : test unit :=
  if bool_decide (test_id = "W41-001") then test_exchange_id uuid else
  if bool_decide (test_id = "W41-002") then test_create_session uuid else
  if bool_decide (test_id = "W41-004") then test_destroy_session uuid else
  if bool_decide (test_id = "W41-007") then test_sequence uuid else
  if bool_decide (test_id = "W41-010") then test_reclaim_complete uuid else
  if bool_decide (test_id = "W41-020") then test_exactly_once else not_yet test_id.

(** The NFSv4.2 tests all say that they are skipped. *)
Definition v42_skips : list (string * string) :=
  [("W42-001", "SKIP: ALLOCATE test requires OPEN stateid (needs OPEN implementation)");
   ("W42-003", "SKIP: DEALLOCATE test requires OPEN stateid (needs OPEN implementation)");
   ("W42-010", "SKIP: COPY test requires OPEN stateids for source and destination");
   ("W42-020", "SKIP: SEEK test requires OPEN stateid");
   ("W42-023", "SKIP: READ_PLUS test requires OPEN stateid");
   ("W42-030", "SKIP: CLONE test requires OPEN stateids for source and destination");
   ("W42-040", "SKIP: SETXATTR test requires OPEN stateid");
   ("W42-042", "SKIP: GETXATTR test requires OPEN stateid");
   ("W42-044", "SKIP: LISTXATTRS test requires OPEN stateid");
   ("W42-046", "SKIP: REMOVEXATTR test requires OPEN stateid")].

Definition execute_v42 (test_id : string) : test unit :=
  match list_find (fun p => p.1 = test_id) v42_skips with
  | Some (_, (_, reason)) => bail reason
  | None => not_yet test_id
  end.
End Client.
