(* ===== verification/Nfs3Client.v ===== *)
(** * The NFSv3 tests of the test client ([nfstest/src/wire/nfs3.rs])

    A test takes a filehandle from MOUNT, makes NFSv3 calls and looks at the start of
    their replies. One of them slices a reply without a check, so a test here can also
    panic: [None]. As in [WireClient], [Err] has the text of a message without the values
    printed in it. *)

From S2P Require Import Prelude Xdr WireClient.
From stdpp Require Import base list strings numbers.
From Stdlib Require Import Strings.Byte ZArith Lia.
#[local] Open Scope Z_scope.

Definition MOUNT_PROGRAM : Z := 100005.
Definition NFS_V3 : Z := 3.
Definition MOUNT_V3 : Z := 3.
Definition NFSPROC3_GETATTR : Z := 1.
Definition NFSPROC3_LOOKUP : Z := 3.
Definition NFSPROC3_ACCESS : Z := 4.
Definition NFSPROC3_READ : Z := 6.
Definition NFSPROC3_WRITE : Z := 7.
Definition NFSPROC3_CREATE : Z := 8.
Definition NFSPROC3_MKDIR : Z := 9.
Definition NFSPROC3_REMOVE : Z := 12.
Definition NFSPROC3_RMDIR : Z := 13.
Definition NFSPROC3_RENAME : Z := 14.
Definition NFSPROC3_LINK : Z := 15.
Definition NFSPROC3_READDIR : Z := 16.
Definition NFSPROC3_READDIRPLUS : Z := 17.
Definition NFSPROC3_FSSTAT : Z := 18.
Definition NFSPROC3_FSINFO : Z := 19.
Definition NFSPROC3_PATHCONF : Z := 20.
Definition NFSPROC3_COMMIT : Z := 21.
Definition MOUNTPROC3_MNT : Z := 1.
Definition MOUNTPROC3_EXPORT : Z := 5.
Definition NFS3_OK : Z := 0.
Definition NFS3ERR_NOENT : Z := 2.
Definition ACCESS3_READ : Z := 1.
Definition ACCESS3_LOOKUP : Z := 2.
Definition ACCESS3_MODIFY : Z := 4.
Definition ACCESS3_EXTEND : Z := 8.
Definition ACCESS3_DELETE : Z := 16.
Definition ACCESS3_EXECUTE : Z := 32.
Definition NF3DIR : Z := 2.
Definition UNSTABLE : Z := 0.
Definition FILE_SYNC : Z := 2.
Definition UNCHECKED : Z := 0.

Definition get_bool : XdrDecoder.dec bool := fun d => try v := XdrDecoder.get_u32 d in Ok (negb (v.1 =? 0), v.2).

Definition encode_fh (fh : list byte) : list byte := XdrEncoder.put_opaque fh.

(** A handle and a name, the arguments of most calls. *)
Definition dirop (fh : list byte) (name : string) : list byte := encode_fh fh ++ XdrEncoder.put_string name.

(** [sattr3] with only a mode. *)
Definition mode_sattr (mode : Z) : list byte :=
  XdrEncoder.put_bool true ++ XdrEncoder.put_u32 mode ++ XdrEncoder.put_bool false ++ XdrEncoder.put_bool false ++
  XdrEncoder.put_bool false ++ XdrEncoder.put_u32 0 ++ XdrEncoder.put_u32 0.

Definition write_args (fh : list byte) (stable : Z) (data : list byte) : list byte :=
  encode_fh fh ++ XdrEncoder.put_u64 0 ++ XdrEncoder.put_u32 (wrap 32 (Z.of_nat (length data))) ++ XdrEncoder.put_u32 stable ++
  XdrEncoder.put_opaque data.

Section Tests.
Context {S : Type}.
Variable transmit : list byte -> S -> list byte * S.

Definition test3 (A : Type) : Type := RpcClient S -> option (result A string * RpcClient S).

Definition of_test {A} (t : test (S:=S) A) : test3 A := fun c => Some (t c).
Definition done3 {A} (a : A) : test3 A := of_test (done_ a).
Definition bail3 {A} (message : string) : test3 A := of_test (bail message).
Definition bail_if3 (b : bool) (message : string) : test3 unit := of_test (bail_if b message).
Definition panics {A} : test3 A := fun _ => None.
Definition then3 {A B} (m : test3 A) (k : A -> test3 B) : test3 B := fun c =>
  match m c with Some (Ok a, c) => k a c | Some (Err e, c) => Some (Err e, c) | None => None end.

(** [.ok()] *)
Definition ignored {A} (m : test3 A) : test3 unit := fun c =>
  match m c with Some (_, c) => Some (Ok tt, c) | None => None end.

#[local] Notation "'do' x '<-' m 'in' k" := (then3 m (fun x => k))
  (at level 200, x binder, m at level 100, k at level 200).

Definition call3 (procedure : Z) (args : list byte) : test3 (list byte) :=
  of_test (call transmit NFS_PROGRAM NFS_V3 procedure args).
Definition decode3 {A} (f : XdrDecoder.dec A) (d : XdrDecoder) : test3 (A * XdrDecoder) := of_test (lift (f d)).

(** The status a reply begins with. *)
Definition status_of (reply : list byte) : test3 (Z * XdrDecoder) := decode3 XdrDecoder.get_u32 (XdrDecoder.start reply).

(** A call whose status has to be [expected]. *)
Definition expect (expected procedure : Z) (args : list byte) (message : string) : test3 XdrDecoder :=
  do reply <- call3 procedure args in
  do '(status, d) <- status_of reply in
  do _ <- bail_if3 (negb (status =? expected)) message in
  done3 d.

(** ** Helpers *)

Definition mount_root : test3 (list byte) :=
  do reply <- of_test (call transmit MOUNT_PROGRAM MOUNT_V3 MOUNTPROC3_MNT (XdrEncoder.put_string "/")) in
  do '(status, d) <- status_of reply in
  do _ <- bail_if3 (negb (status =? 0)) "MOUNT failed with status" in
  do '(fh, _) <- decode3 XdrDecoder.get_opaque d in
  done3 fh.

Definition create_test_file (dir_fh : list byte) (name : string) : test3 (list byte) :=
  do d <- expect NFS3_OK NFSPROC3_CREATE (dirop dir_fh name ++ XdrEncoder.put_u32 UNCHECKED ++ mode_sattr 0x1A4) "CREATE returned status" in
  do '(has_fh, d) <- decode3 get_bool d in
  do _ <- bail_if3 (negb has_fh) "CREATE did not return a filehandle" in
  do '(fh, _) <- decode3 XdrDecoder.get_opaque d in
  done3 fh.

Definition create_test_file_with_data (dir_fh : list byte) (name : string) (data : list byte) : test3 (list byte) :=
  do file_fh <- create_test_file dir_fh name in
  do _ <- expect NFS3_OK NFSPROC3_WRITE (write_args file_fh FILE_SYNC data) "WRITE returned status" in
  done3 file_fh.

Definition remove_file (dir_fh : list byte) (name : string) : test3 unit :=
  do _ <- expect NFS3_OK NFSPROC3_REMOVE (dirop dir_fh name) "REMOVE returned status" in
  done3 tt.

Definition rmdir (dir_fh : list byte) (name : string) : test3 unit :=
  do _ <- expect NFS3_OK NFSPROC3_RMDIR (dirop dir_fh name) "RMDIR returned status" in
  done3 tt.

(** As [expect], for a file that is removed before the test gives up. *)
Definition expect_or_remove (fh : list byte) (name : string) (procedure : Z) (args : list byte) (message : string)
    : test3 XdrDecoder :=
  do reply <- call3 procedure args in
  do '(status, d) <- status_of reply in
  do _ <- (if negb (status =? NFS3_OK) then do _ <- ignored (remove_file fh name) in bail3 message else done3 tt) in
  done3 d.

Fixpoint skip_words (n : nat) (d : XdrDecoder) : test3 XdrDecoder :=
  match n with
  | O => done3 d
  | Datatypes.S n => do '(_, d) <- decode3 XdrDecoder.get_u32 d in skip_words n d
  end.

(** [post_op_attr]: a flag and 21 words. *)
Definition skip_attr (d : XdrDecoder) : test3 XdrDecoder :=
  do '(has_attr, d) <- decode3 get_bool d in
  if has_attr then skip_words 21 d else done3 d.

(** ** Tests *)

(** [null_call] *)
Definition test_null : test3 unit :=
  do _ <- call3 0 [] in
  done3 tt.

Definition test_getattr_root : test3 unit :=
  do fh <- mount_root in
  do d <- expect NFS3_OK NFSPROC3_GETATTR (encode_fh fh) "GETATTR returned status" in
  do '(ftype, _) <- decode3 XdrDecoder.get_u32 d in
  bail_if3 (negb (ftype =? NF3DIR)) "Root should be a directory (type 2), got type".

Definition fake_fh : list byte := map byte_of_Z [0xDE; 0xAD; 0xBE; 0xEF; 0x00; 0x01; 0x02; 0x03].

Definition test_getattr_invalid_fh : test3 unit :=
  do reply <- call3 NFSPROC3_GETATTR (encode_fh fake_fh) in
  do '(status, _) <- status_of reply in
  bail_if3 (status =? NFS3_OK) "GETATTR with invalid FH should not return OK".

Definition test_lookup : test3 unit :=
  do fh <- mount_root in
  do _ <- create_test_file fh "nfstest_lookup_target" in
  do _ <- expect NFS3_OK NFSPROC3_LOOKUP (dirop fh "nfstest_lookup_target") "LOOKUP returned status" in
  ignored (remove_file fh "nfstest_lookup_target").

Definition test_lookup_noent : test3 unit :=
  do fh <- mount_root in
  do _ <- expect NFS3ERR_NOENT NFSPROC3_LOOKUP (dirop fh "__nonexistent_file_nextnfstest__") "Expected NOENT (2), got status" in
  done3 tt.

Definition test_access : test3 unit :=
  do fh <- mount_root in
  do d <- expect NFS3_OK NFSPROC3_ACCESS (encode_fh fh ++ XdrEncoder.put_u32
    (Z.lor (Z.lor (Z.lor (Z.lor (Z.lor ACCESS3_READ ACCESS3_LOOKUP) ACCESS3_MODIFY) ACCESS3_EXTEND) ACCESS3_DELETE) ACCESS3_EXECUTE))
    "ACCESS returned status" in
  do d <- skip_attr d in
  do '(access, _) <- decode3 XdrDecoder.get_u32 d in
  do _ <- bail_if3 (Z.land access ACCESS3_READ =? 0) "Root directory not readable" in
  bail_if3 (Z.land access ACCESS3_LOOKUP =? 0) "Root directory not lookupable".

(** [&data[..n]] of fewer than [n] bytes panics. *)
Definition test_read : test3 unit :=
  let test_name := "nfstest_read_target" in
  let test_data := String.list_byte_of_string "Hello from nextnfstest READ test!" in
  do fh <- mount_root in
  do file_fh <- create_test_file_with_data fh test_name test_data in
  do d <- expect_or_remove fh test_name NFSPROC3_READ (encode_fh file_fh ++ XdrEncoder.put_u64 0 ++ XdrEncoder.put_u32 4096) "READ returned status" in
  do d <- skip_attr d in
  do '(_, d) <- decode3 XdrDecoder.get_u32 d in
  do '(_, d) <- decode3 get_bool d in
  do '(data, _) <- decode3 XdrDecoder.get_opaque d in
  if (length data <? length test_data)%nat then panics
  else if bool_decide (take (length test_data) data <> test_data) then
    do _ <- ignored (remove_file fh test_name) in bail3 "READ data mismatch"
  else ignored (remove_file fh test_name).

Definition test_write_filesync : test3 unit :=
  let test_name := "nfstest_write_target" in
  do fh <- mount_root in
  do file_fh <- create_test_file fh test_name in
  do _ <- expect_or_remove fh test_name NFSPROC3_WRITE
    (write_args file_fh FILE_SYNC (String.list_byte_of_string "FILE_SYNC write test data from nextnfstest")) "WRITE returned status" in
  ignored (remove_file fh test_name).

Definition test_commit : test3 unit :=
  let test_name := "nfstest_commit_target" in
  do fh <- mount_root in
  do file_fh <- create_test_file fh test_name in
  do _ <- expect_or_remove fh test_name NFSPROC3_WRITE
    (write_args file_fh UNSTABLE (String.list_byte_of_string "UNSTABLE write for COMMIT test")) "WRITE (UNSTABLE) returned status" in
  do _ <- expect_or_remove fh test_name NFSPROC3_COMMIT (encode_fh file_fh ++ XdrEncoder.put_u64 0 ++ XdrEncoder.put_u32 0) "COMMIT returned status" in
  ignored (remove_file fh test_name).

Definition test_create_file : test3 unit :=
  let test_name := "nfstest_create_target" in
  do fh <- mount_root in
  do _ <- create_test_file fh test_name in
  do _ <- expect NFS3_OK NFSPROC3_LOOKUP (dirop fh test_name) "LOOKUP after CREATE returned status" in
  ignored (remove_file fh test_name).

Definition test_mkdir : test3 unit :=
  let test_name := "nfstest_mkdir_target" in
  do fh <- mount_root in
  do _ <- expect NFS3_OK NFSPROC3_MKDIR (dirop fh test_name ++ mode_sattr 0x1ED) "MKDIR returned status" in
  ignored (rmdir fh test_name).

Definition test_remove : test3 unit :=
  let test_name := "nfstest_remove_target" in
  do fh <- mount_root in
  do _ <- create_test_file fh test_name in
  do _ <- remove_file fh test_name in
  do _ <- expect NFS3ERR_NOENT NFSPROC3_LOOKUP (dirop fh test_name) "File should be gone after REMOVE, LOOKUP returned" in
  done3 tt.

(** The reply to MKDIR is not looked at. *)
Definition test_rmdir : test3 unit :=
  let test_name := "nfstest_rmdir_target" in
  do fh <- mount_root in
  do _ <- call3 NFSPROC3_MKDIR (dirop fh test_name ++ mode_sattr 0x1ED) in
  do _ <- rmdir fh test_name in
  do _ <- expect NFS3ERR_NOENT NFSPROC3_LOOKUP (dirop fh test_name) "Directory should be gone after RMDIR, LOOKUP returned" in
  done3 tt.

Definition test_rename : test3 unit :=
  let old_name := "nfstest_rename_src" in
  let new_name := "nfstest_rename_dst" in
  do fh <- mount_root in
  do _ <- ignored (remove_file fh old_name) in
  do _ <- ignored (remove_file fh new_name) in
  do _ <- create_test_file fh old_name in
  do _ <- expect NFS3_OK NFSPROC3_RENAME (dirop fh old_name ++ dirop fh new_name) "RENAME returned status" in
  ignored (remove_file fh new_name).

Definition test_link : test3 unit :=
  let file_name := "nfstest_link_src" in
  let link_name := "nfstest_link_dst" in
  do fh <- mount_root in
  do _ <- ignored (remove_file fh file_name) in
  do _ <- ignored (remove_file fh link_name) in
  do file_fh <- create_test_file fh file_name in
  do _ <- expect NFS3_OK NFSPROC3_LINK (encode_fh file_fh ++ dirop fh link_name) "LINK returned status" in
  do _ <- ignored (remove_file fh link_name) in
  ignored (remove_file fh file_name).

Definition test_readdir : test3 unit :=
  do fh <- mount_root in
  do _ <- expect NFS3_OK NFSPROC3_READDIR
    (encode_fh fh ++ XdrEncoder.put_u64 0 ++ XdrEncoder.put_opaque_fixed (replicate 8 x00) ++ XdrEncoder.put_u32 8192) "READDIR returned status" in
  done3 tt.

Definition test_readdirplus : test3 unit :=
  do fh <- mount_root in
  do _ <- expect NFS3_OK NFSPROC3_READDIRPLUS
    (encode_fh fh ++ XdrEncoder.put_u64 0 ++ XdrEncoder.put_opaque_fixed (replicate 8 x00) ++ XdrEncoder.put_u32 8192 ++
     XdrEncoder.put_u32 32768) "READDIRPLUS returned status" in
  done3 tt.

Definition test_fsstat : test3 unit :=
  do fh <- mount_root in
  do _ <- expect NFS3_OK NFSPROC3_FSSTAT (encode_fh fh) "FSSTAT returned status" in
  done3 tt.

Definition test_fsinfo : test3 unit :=
  do fh <- mount_root in
  do _ <- expect NFS3_OK NFSPROC3_FSINFO (encode_fh fh) "FSINFO returned status" in
  done3 tt.

Definition test_pathconf : test3 unit :=
  do fh <- mount_root in
  do _ <- expect NFS3_OK NFSPROC3_PATHCONF (encode_fh fh) "PATHCONF returned status" in
  done3 tt.

Definition test_mount : test3 unit :=
  do fh <- mount_root in
  bail_if3 (bool_decide (fh = [])) "MOUNT returned empty filehandle".

Definition test_mount_export : test3 unit :=
  do reply <- of_test (call transmit MOUNT_PROGRAM MOUNT_V3 MOUNTPROC3_EXPORT []) in
  bail_if3 (bool_decide (reply = [])) "EXPORT returned empty reply".

(** [execute] of [nfs3.rs] *)
Definition v3_executors : list (string * test3 unit) :=
  [("W3-001", test_null); ("W3-002", test_getattr_root); ("W3-005", test_getattr_invalid_fh); ("W3-012", test_lookup);
   ("W3-013", test_lookup_noent); ("W3-016", test_access); ("W3-020", test_read); ("W3-025", test_write_filesync);
   ("W3-031", test_commit); ("W3-033", test_create_file); ("W3-036", test_mkdir); ("W3-043", test_remove);
   ("W3-045", test_rmdir); ("W3-047", test_rename); ("W3-050", test_link); ("W3-052", test_readdir);
   ("W3-056", test_readdirplus); ("W3-058", test_fsstat); ("W3-059", test_fsinfo); ("W3-060", test_pathconf);
   ("W3-061", test_mount); ("W3-065", test_mount_export)].

Definition execute_v3 (test_id : string) : test3 unit :=
  match list_find (fun p => p.1 = test_id) v3_executors with
  | Some (_, (_, t)) => t
  | None => of_test (not_yet test_id)
  end.
End Tests.
