(* ===== verification/Harness.v ===== *)
(** * The test harness ([nfstest/src/harness/], [wire/mod.rs])

    What the test manager selects of the registry, how it runs it on one connection, and
    what it counts. Times are readings of the clock, arguments of the run; printing and the
    reports are left out. A test that panics takes the run with it: [None]. *)

From S2P Require Import Prelude F64 WireClient Nfs3Client.
From stdpp Require Import base list strings numbers.
From Stdlib Require Import Strings.Byte ZArith Lia.
#[local] Open Scope Z_scope.

(** ** Types ([types.rs]) *)

Inductive NfsVersion : Type := V3 | V4_0 | V4_1 | V4_2.
Inductive TestLayer : Type := Wire | Functional | Interop | Stress | Perf.
Inductive TestStatus : Type := Pass | Fail | Skip | Error.

#[export] Instance NfsVersion_eq_dec : EqDecision NfsVersion.
Proof. solve_decision. Defined.
#[export] Instance TestLayer_eq_dec : EqDecision TestLayer.
Proof. solve_decision. Defined.
#[export] Instance TestStatus_eq_dec : EqDecision TestStatus.
Proof. solve_decision. Defined.

Record RunConfig : Type := MkRunConfig {
  run_server : string; run_port : Z; run_export : string; version_filter : list NfsVersion; layer_filter : list TestLayer;
  tag_filter : option string; test_id_filter : option string; output_dir : string; run_uid : Z; run_gid : Z
}.

Record TestDef : Type := MkTestDef {
  test_id : string; description : string; test_version : NfsVersion; layer : TestLayer; tags : list string
}.

Record TestResult : Type := MkTestResult {
  result_id : string; result_description : string; result_version : NfsVersion; result_layer : TestLayer;
  test_status : TestStatus; duration : Z; message : option string; detail : option string
}.

Record RunSummary : Type := MkRunSummary {
  total : nat; passed : nat; failed : nat; skipped : nat; errors : nat; run_duration : Z
}.

Record RunResult : Type := MkRunResult {
  run_id : string; started_at : Z; finished_at : Z; result_server : string; result_port : Z; result_export : string;
  summary : RunSummary; results : list TestResult; result_dir : string
}.

(** [TestCompleted], the event that a run itself sends. *)
Record ProgressEvent : Type := MkTestCompleted { index : nat; of_total : nat; completed : TestResult }.

(** [Display] of versions, layers and statuses. *)
Definition NfsVersion_fmt (v : NfsVersion) : string :=
  match v with V3 => "NFSv3" | V4_0 => "NFSv4.0" | V4_1 => "NFSv4.1" | V4_2 => "NFSv4.2" end.
Definition TestLayer_fmt (l : TestLayer) : string :=
  match l with Wire => "wire" | Functional => "functional" | Interop => "interop" | Stress => "stress" | Perf => "perf" end.
Definition TestStatus_fmt (s : TestStatus) : string :=
  match s with Pass => "PASS" | Fail => "FAIL" | Skip => "SKIP" | Error => "ERROR" end.

(** ** Filters ([mod.rs])

    [to_lowercase]: the words it is compared with are ASCII, and no other letter's
    lower case is made of their letters. *)
Definition lower (a : Ascii.ascii) : Ascii.ascii :=
  let n := Ascii.nat_of_ascii a in if (65 <=? n)%nat && (n <=? 90)%nat then Ascii.ascii_of_nat (n + 32) else a.
Fixpoint to_lowercase (s : string) : string :=
  match s with String.EmptyString => s | String.String a t => String.String (lower a) (to_lowercase t) end.

Definition all_versions : list NfsVersion := [V3; V4_0; V4_1; V4_2].
Definition all_layers : list TestLayer := [Wire; Functional; Interop; Stress; Perf].

Definition parse_version_filter (s : string) : list NfsVersion :=
  let s := to_lowercase s in
  if bool_decide (s = "all") then all_versions else
  if bool_decide (s ∈ ["3"; "v3"; "nfs3"]) then [V3] else
  if bool_decide (s ∈ ["4.0"; "v4.0"; "nfs4.0"; "4"; "v4"]) then [V4_0] else
  if bool_decide (s ∈ ["4.1"; "v4.1"; "nfs4.1"]) then [V4_1] else
  if bool_decide (s ∈ ["4.2"; "v4.2"; "nfs4.2"]) then [V4_2] else all_versions.

Definition parse_layer_filter (s : string) : list TestLayer :=
  let s := to_lowercase s in
  if bool_decide (s = "all") then all_layers else
  if bool_decide (s = "wire") then [Wire] else
  if bool_decide (s = "functional") then [Functional] else
  if bool_decide (s = "interop") then [Interop] else
  if bool_decide (s = "stress") then [Stress] else
  if bool_decide (s = "perf") then [Perf] else all_layers.

(** ** The registry *)

Definition v3_tests : list TestDef :=
  [MkTestDef "W3-001" "NULL RPC returns success" V3 Wire ["smoke"; "ci"; "v3"];
   MkTestDef "W3-002" "GETATTR on root filehandle" V3 Wire ["smoke"; "ci"; "v3"];
   MkTestDef "W3-005" "GETATTR with invalid filehandle returns BADHANDLE or STALE" V3 Wire ["ci"; "v3"];
   MkTestDef "W3-012" "LOOKUP resolves name in root directory" V3 Wire ["ci"; "v3"];
   MkTestDef "W3-013" "LOOKUP nonexistent name returns NOENT" V3 Wire ["ci"; "v3"];
   MkTestDef "W3-016" "ACCESS returns permission bits for root fh" V3 Wire ["ci"; "v3"];
   MkTestDef "W3-020" "READ small file" V3 Wire ["ci"; "v3"];
   MkTestDef "W3-025" "WRITE FILE_SYNC and verify with READ" V3 Wire ["ci"; "v3"];
   MkTestDef "W3-031" "COMMIT flushes unstable writes" V3 Wire ["ci"; "v3"];
   MkTestDef "W3-033" "CREATE regular file (UNCHECKED mode)" V3 Wire ["ci"; "v3"];
   MkTestDef "W3-036" "MKDIR creates directory" V3 Wire ["ci"; "v3"];
   MkTestDef "W3-043" "REMOVE deletes file" V3 Wire ["ci"; "v3"];
   MkTestDef "W3-045" "RMDIR removes empty directory" V3 Wire ["ci"; "v3"];
   MkTestDef "W3-047" "RENAME within same directory" V3 Wire ["ci"; "v3"];
   MkTestDef "W3-050" "LINK creates hard link" V3 Wire ["ci"; "v3"];
   MkTestDef "W3-052" "READDIR lists directory entries" V3 Wire ["ci"; "v3"];
   MkTestDef "W3-056" "READDIRPLUS returns entries with attributes" V3 Wire ["ci"; "v3"];
   MkTestDef "W3-058" "FSSTAT returns filesystem statistics" V3 Wire ["ci"; "v3"];
   MkTestDef "W3-059" "FSINFO returns server capabilities" V3 Wire ["ci"; "v3"];
   MkTestDef "W3-060" "PATHCONF returns path configuration" V3 Wire ["ci"; "v3"];
   MkTestDef "W3-061" "MOUNT returns root filehandle" V3 Wire ["smoke"; "ci"; "v3"];
   MkTestDef "W3-065" "MOUNT EXPORT lists exported paths" V3 Wire ["ci"; "v3"]].

Definition v40_tests : list TestDef :=
  [MkTestDef "W40-001" "Empty COMPOUND returns success or OP_ILLEGAL" V4_0 Wire ["smoke"; "ci"; "v40"];
   MkTestDef "W40-002" "COMPOUND with PUTROOTFH + GETFH returns root filehandle" V4_0 Wire ["smoke"; "ci"; "v40"];
   MkTestDef "W40-005" "COMPOUND error mid-sequence returns partial results" V4_0 Wire ["ci"; "v40"];
   MkTestDef "W40-010" "SETCLIENTID registers client" V4_0 Wire ["ci"; "v40"];
   MkTestDef "W40-011" "SETCLIENTID_CONFIRM confirms registration" V4_0 Wire ["ci"; "v40"];
   MkTestDef "W40-014" "RENEW refreshes lease" V4_0 Wire ["ci"; "v40"];
   MkTestDef "W40-020" "PUTROOTFH + GETFH returns root filehandle" V4_0 Wire ["smoke"; "ci"; "v40"];
   MkTestDef "W40-021" "PUTFH + GETATTR returns attributes" V4_0 Wire ["ci"; "v40"];
   MkTestDef "W40-023" "LOOKUP traversal: PUTROOTFH + LOOKUP chain" V4_0 Wire ["ci"; "v40"];
   MkTestDef "W40-024" "LOOKUPP navigates to parent" V4_0 Wire ["ci"; "v40"];
   MkTestDef "W40-025" "SAVEFH + RESTOREFH preserves filehandle" V4_0 Wire ["ci"; "v40"];
   MkTestDef "W40-065" "READDIR lists directory with attribute bitmap" V4_0 Wire ["ci"; "v40"];
   MkTestDef "W40-070" "GETATTR returns mandatory attributes" V4_0 Wire ["ci"; "v40"];
   MkTestDef "W40-080" "SECINFO returns supported security flavors" V4_0 Wire ["ci"; "v40"]].

Definition v41_tests : list TestDef :=
  [MkTestDef "W41-001" "EXCHANGE_ID establishes client identity" V4_1 Wire ["ci"; "v41"];
   MkTestDef "W41-002" "CREATE_SESSION creates fore channel session" V4_1 Wire ["ci"; "v41"];
   MkTestDef "W41-004" "DESTROY_SESSION tears down session" V4_1 Wire ["ci"; "v41"];
   MkTestDef "W41-007" "SEQUENCE tracks slot table correctly" V4_1 Wire ["ci"; "v41"];
   MkTestDef "W41-010" "RECLAIM_COMPLETE signals end of reclaims" V4_1 Wire ["ci"; "v41"];
   MkTestDef "W41-020" "Duplicate request returns cached reply (exactly-once)" V4_1 Wire ["ci"; "v41"]].

Definition v42_tests : list TestDef :=
  [MkTestDef "W42-001" "ALLOCATE reserves space in file" V4_2 Wire ["ci"; "v42"];
   MkTestDef "W42-003" "DEALLOCATE punches hole in file" V4_2 Wire ["ci"; "v42"];
   MkTestDef "W42-010" "COPY performs server-side intra-server copy" V4_2 Wire ["ci"; "v42"];
   MkTestDef "W42-020" "SEEK finds next DATA region in sparse file" V4_2 Wire ["ci"; "v42"];
   MkTestDef "W42-023" "READ_PLUS returns data and hole segments" V4_2 Wire ["ci"; "v42"];
   MkTestDef "W42-030" "CLONE performs CoW clone of file region" V4_2 Wire ["ci"; "v42"];
   MkTestDef "W42-040" "SETXATTR creates extended attribute" V4_2 Wire ["ci"; "v42"];
   MkTestDef "W42-042" "GETXATTR retrieves extended attribute" V4_2 Wire ["ci"; "v42"];
   MkTestDef "W42-044" "LISTXATTRS lists all extended attributes" V4_2 Wire ["ci"; "v42"];
   MkTestDef "W42-046" "REMOVEXATTR deletes extended attribute" V4_2 Wire ["ci"; "v42"]].

Definition registry : list TestDef := v3_tests ++ v40_tests ++ v41_tests ++ v42_tests.

(** ** Running ([runner.rs]) *)

Definition matches (config : RunConfig) (t : TestDef) : bool :=
  if negb (bool_decide (test_version t ∈ version_filter config)) then false else
  if negb (bool_decide (layer t ∈ layer_filter config)) then false else
  if match tag_filter config with Some tag => negb (bool_decide (tag ∈ tags t)) | None => false end then false else
  match test_id_filter config with Some id => bool_decide (test_id t = id) | None => true end.

Fixpoint strip_prefix (p s : string) : option string :=
  match p, s with
  | String.EmptyString, _ => Some s
  | String.String a p, String.String b s => if Ascii.eqb a b then strip_prefix p s else None
  | _, _ => None
  end.

(** [str::trim]; the reasons are ASCII. *)
Definition is_space (a : Ascii.ascii) : bool :=
  let n := Ascii.nat_of_ascii a in (n =? 32)%nat || ((9 <=? n)%nat && (n <=? 13)%nat).
Fixpoint trim_start (s : string) : string :=
  match s with String.String a t => if is_space a then trim_start t else s | String.EmptyString => s end.
Fixpoint trim_end (s : string) : string :=
  match s with
  | String.String a t =>
    match trim_end t with
    | String.EmptyString => if is_space a then String.EmptyString else String.String a String.EmptyString
    | t => String.String a t
    end
  | String.EmptyString => s
  end.
Definition trim (s : string) : string := trim_end (trim_start s).

(** What the outcome of a test is to the report. *)
Definition verdict (r : result unit string) : TestStatus * option string :=
  match r with
  | Ok _ => (Pass, None)
  | Err msg =>
    match strip_prefix "SKIP:" msg with
    | Some reason => (Skip, Some (trim reason))
    | None => (Fail, Some msg)
    end
  end.

Definition count (s : TestStatus) (l : list TestResult) : nat := length (filter (fun r => test_status r = s) l).

Definition summarize (l : list TestResult) (elapsed : Z) : RunSummary :=
  MkRunSummary (length l) (count Pass l) (count Fail l) (count Skip l) (count Error l) elapsed.

Section Run.
Context {S : Type}.
Variable transmit : list byte -> S -> list byte * S.
Variable uuid : string -> string.
(** The readings of the clock: two for each test, after the first of the run. *)
Variable ticks : nat -> Z.

(** [wire::execute] *)
Definition execute (id : string) : test3 (S:=S) unit :=
  if String.prefix "W3-" id then execute_v3 transmit id else
  if String.prefix "W40-" id then of_test (execute_v40 transmit id (uuid id)) else
  if String.prefix "W41-" id then of_test (execute_v41 transmit id (uuid id)) else
  if String.prefix "W42-" id then of_test (execute_v42 id) else of_test (not_yet id).

Definition execute_test (i : nat) (t : TestDef) (conn : option (RpcClient S)) : option (TestResult * option (RpcClient S)) :=
  let took := Z.max 0 (ticks (2 * i + 2) - ticks (2 * i + 1)) in
  let report s msg := MkTestResult (test_id t) (description t) (test_version t) (layer t) s took msg None in
  match conn with
  | None => Some (report Error (Some "No connection to server"%string), None)
  | Some client =>
    '(r, client) ← execute (test_id t) client;
    let '(s, msg) := verdict r in Some (report s msg, Some client)
  end.

(** The loop, from test [i] on. *)
Fixpoint run_tests (i n : nat) (l : list TestDef) (conn : option (RpcClient S))
    : option (list TestResult * list ProgressEvent * option (RpcClient S)) :=
  match l with
  | [] => Some ([], [], conn)
  | t :: l =>
    '(r, conn) ← execute_test i t conn;
    '(rs, events, conn) ← run_tests (Datatypes.S i) n l conn;
    Some (r :: rs, MkTestCompleted i n r :: events, conn)
  end.

(** [run_inner]: [made] says whether the output directory could be made, [conn] is what
    connecting gave; [now] is the time of day at start and end. *)
Definition run (config : RunConfig) (id : string) (now : Z * Z) (made : bool) (conn : option (RpcClient S))
    : option (result RunResult string * list ProgressEvent * option (RpcClient S)) :=
  if negb made then Some (Err "cannot create the output directory"%string, [], conn) else
  let tests := filter (fun t => matches config t = true) registry in
  '(rs, events, conn) ← run_tests 0 (length tests) tests conn;
  let elapsed := Z.max 0 (ticks (2 * length tests + 1) - ticks 0) in
  Some (Ok (MkRunResult id now.1 now.2 (run_server config) (run_port config) (run_export config)
    (summarize rs elapsed) rs (output_dir config)), events, conn).
End Run.

(** The share of the tests that passed, in percent ([report/mod.rs]). *)
Definition pass_rate (s : RunSummary) : f64 :=
  if (0 <? total s)%nat then
    f64_mul (f64_div (f64_of (Z.of_nat (passed s))) (f64_of (Z.of_nat (total s)))) (f64_of 100)
  else f64_of 0.

(** The tests listed under "Failures". *)
Definition failures (l : list TestResult) : list TestResult :=
  filter (fun r => test_status r = Fail \/ test_status r = Error) l.

(** ** What a run reports *)

(** Every registered test has an id of its own. *)
Lemma registry_ids : NoDup (test_id <$> registry).
Proof. apply (bool_decide_unpack _). vm_compute. exact I. Qed.

Lemma summary_adds_up l e :
  (passed (summarize l e) + failed (summarize l e) + skipped (summarize l e) + errors (summarize l e) = total (summarize l e))%nat.
Proof.
  cbn [passed failed skipped errors total summarize]. unfold count. induction l as [|r l IH]; [done|].
  rewrite !filter_cons, length_cons. destruct (test_status r); repeat case_decide; try done; cbn [length]; lia.
Qed.

Lemma failures_counted l e : length (failures l) = (failed (summarize l e) + errors (summarize l e))%nat.
Proof.
  cbn [failed errors summarize]. unfold count, failures. induction l as [|r l IH]; [done|].
  rewrite !filter_cons. destruct (test_status r); repeat case_decide; try (exfalso; intuition congruence); cbn [length]; lia.
Qed.

Section RunSpec.
Context {S : Type}.
Variable transmit : list byte -> S -> list byte * S.
Variable uuid : string -> string.
Variable ticks : nat -> Z.

(** A test that always comes to an end, passed or not. *)
Definition returns {A} (t : test3 (S:=S) A) : Prop := forall c, t c <> None.

Lemma returns_of_test {A} (t : test (S:=S) A) : returns (of_test t).
Proof. done. Qed.

Lemma returns_then3 {A B} (t : test3 A) (k : A -> test3 B) : returns t -> (forall a, returns (k a)) -> returns (then3 t k).
Proof. intros Ht Hk c. unfold then3. specialize (Ht c). destruct (t c) as [[[a|e] c']|]; [by apply Hk|done|done]. Qed.

Lemma returns_ignored {A} (t : test3 A) : returns t -> returns (ignored t).
Proof. intros Ht c. unfold ignored. specialize (Ht c). by destruct (t c) as [[r c']|]. Qed.

Lemma returns_if {A} (b : bool) (t u : test3 (S:=S) A) : returns t -> returns u -> returns (if b then t else u).
Proof. by destruct b. Qed.

(** Goes through a test to the calls and checks it is made of. *)
Ltac comes_back :=
  repeat first
    [ apply returns_of_test
    | apply returns_ignored
    | apply returns_then3; [|intros ?]
    | match goal with |- returns (match ?x with _ => _ end) => destruct x end ].

(** Every test but the one that slices what it has read. *)
Lemma v3_returns : Forall (fun p => p.1 <> "W3-020" -> returns p.2) (v3_executors transmit).
Proof.
  unfold v3_executors. repeat (apply Forall_cons_2; [cbn [fst snd]; intros Hne|]); [..|by apply Forall_nil]; try done; clear Hne.
  all: comes_back.
Qed.

Lemma execute_returns id : id <> "W3-020" -> returns (execute transmit uuid id).
Proof.
  intros Hne c. unfold execute. repeat case_match; try done. unfold execute_v3.
  destruct (list_find _ _) as [[i [id' t]]|] eqn:E; [|done]. apply list_find_Some in E as (Hl & <- & _).
  by apply (Forall_lookup_1 _ _ _ _ v3_returns Hl).
Qed.

(** A result names its test. *)
Definition reports (t : TestDef) (r : TestResult) : Prop :=
  result_id r = test_id t /\ result_description r = description t /\ result_version r = test_version t /\ result_layer r = layer t.

Lemma run_tests_reports n l : forall i conn,
  match run_tests transmit uuid ticks i n l conn with
  | None => (exists t, t ∈ l /\ test_id t = "W3-020") /\ conn <> None
  | Some (rs, events, conn') =>
    Forall2 reports l rs /\ completed <$> events = rs /\ (conn' = None <-> conn = None) /\
    Forall (fun r => test_status r = Error <-> conn = None) rs
  end.
Proof.
  induction l as [|t l IH]; intros i conn; cbn [run_tests]; [done|].
  destruct (execute_test transmit uuid ticks i t conn) as [[r conn1]|] eqn:E.
  2: { split; [|by destruct conn]. exists t. split; [by left|]. destruct (decide (test_id t = "W3-020")) as [|Hne]; [done|].
    exfalso. unfold execute_test in E. destruct conn as [cl|]; [|done]. cbn [mbind option_bind] in E.
    destruct (execute transmit uuid (test_id t) cl) as [[o cl']|] eqn:Ex; [cbn in E; by destruct (verdict o)|]. by eapply execute_returns. }
  assert (Hr : reports t r /\ (conn1 = None <-> conn = None) /\ (test_status r = Error <-> conn = None)).
  { unfold execute_test in E. destruct conn as [cl|]; [|injection E as <- <-; by repeat split]. cbn [mbind option_bind] in E.
    destruct (execute transmit uuid (test_id t) cl) as [[o cl']|]; [|done].
    cbn in E. destruct (verdict o) as [st msg] eqn:Ev. injection E as <- <-. split; [by repeat split|]. split; [done|]. cbn [test_status].
    split; [|done]. intros ->. unfold verdict in Ev. by repeat case_match; simplify_eq. }
  destruct Hr as (Hr & Hc & Hs). cbn [mbind option_bind]. specialize (IH (Datatypes.S i) conn1).
  destruct (run_tests _ _ _ _ _ _ _) as [[[rs events] conn']|]; cbn [mbind option_bind].
  - destruct IH as (H1 & H2 & H3 & H4). split; [by constructor|]. split; [cbn; by rewrite H2|].
    split; [by rewrite H3|]. constructor; [done|]. eapply List.Forall_impl; [|exact H4]. cbn. intros x Hx. by rewrite Hx, Hc.
  - destruct IH as ((t' & Ht' & Hid) & Hn). split; [exists t'; split; [by right|done]|]. by rewrite Hc in Hn.
Qed.

(** A run accounts for every test it selects: it has one result for each, in the
    registry's order and under its id, and sends the same results as events; the numbers
    of its summary add up, and the failures listed are those counted. Tests are in error
    exactly when there is no connection. A run that does not end has selected the test
    that slices what it has read. *)
Theorem run_accounts config id now made conn :
  let selected := filter (fun t => matches config t = true) registry in
  match run transmit uuid ticks config id now made conn with
  | None => exists t, t ∈ selected /\ test_id t = "W3-020"
  | Some (Err _, _, conn') => made = false /\ conn' = conn
  | Some (Ok r, events, _) =>
    Forall2 reports selected (results r) /\ completed <$> events = results r /\
    total (summary r) = length selected /\
    (passed (summary r) + failed (summary r) + skipped (summary r) + errors (summary r) = total (summary r))%nat /\
    length (failures (results r)) = (failed (summary r) + errors (summary r))%nat /\
    Forall (fun x => test_status x = Error <-> conn = None) (results r)
  end.
Proof.
  cbv zeta. unfold run. destruct made; cbn [negb]; [|done]. set (l := filter _ registry).
  pose proof (run_tests_reports (length l) l 0 conn) as R. destruct (run_tests _ _ _ _ _ _ _) as [[[rs events] conn']|];
    cbn [mbind option_bind]; [|by destruct R].
  destruct R as (H1 & H2 & _ & H4). cbn [summary results]. split; [done|]. split; [done|].
  split; [symmetry; by eapply Forall2_length|]. split; [apply summary_adds_up|]. split; [apply failures_counted|done].
Qed.
End RunSpec.
