(* ===== verification/WireSpec.v ===== *)
(** * The test client against the server ([nfstest/src/wire], [proto/src])

    What the client's bytes are to the server and the server's to the client: the server
    reads the NFSv4.0 calls the client builds as the client means them, and the client
    finds in a reply the status, the results' number and the first result's status that
    the server wrote. *)

From S2P Require Import Prelude NfsTypes Xdr Attrs NfsCodec NfsReply Rpc FileManager KrbCrypto KrbAcceptor Gss.
From S2P Require Import OpsStatus OpsContract Service NfsWire WireClient.
From stdpp Require Import base list strings numbers sorting.
From Stdlib Require Import Strings.Byte ZArith Lia.
#[local] Open Scope Z_scope.

(** ** The client's encoder writes what the server's writes *)

Lemma put_opaque_same d : Z.of_nat (length d) < 2 ^ 32 -> Xdr.put_opaque d = Ok (XdrEncoder.put_opaque d).
Proof.
  intros H. unfold Xdr.put_opaque. rewrite length_u32_ok by done. cbn [result_bind].
  unfold XdrEncoder.put_opaque, XdrEncoder.put_u32. by rewrite wrap_small by (unfold in_width; lia).
Qed.

Lemma put_string_same s : string_valid s -> codec_utf8_opaque.(ser) s = Ok (XdrEncoder.put_string s).
Proof. intros [_ H]. by apply put_opaque_same. Qed.

Lemma put_fixed_same n b : length b = n -> (codec_fixed n).(ser) b = Ok (XdrEncoder.put_opaque_fixed b).
Proof. intros <-. cbn [ser codec_fixed]. by rewrite fixed_length_ser_spec. Qed.

Lemma put_fixed_aligned b : (length b mod 4 = 0)%nat -> XdrEncoder.put_opaque_fixed b = b.
Proof. intros H. unfold XdrEncoder.put_opaque_fixed. by rewrite H, app_nil_r. Qed.

(** ** Bitmaps *)

Lemma length_or_bits bits words :
  length (fold_left (fun words bit => alter (fun w => Z.lor w (Z.shiftl 1 (bit mod 32))) (Z.to_nat (bit / 32)) words)
    bits words) = length words.
Proof. revert words. induction bits as [|b bits IH]; intros words; simpl; [done|]. by rewrite IH, length_alter. Qed.

Lemma from_u32_at_elem idx raw a :
  a ∈ from_u32_at idx raw <->
  idx <= FileAttr_to_u32 a / 32 /\
  exists w, raw !! Z.to_nat (FileAttr_to_u32 a / 32 - idx) = Some w /\ Z.testbit w (FileAttr_to_u32 a mod 32) = true.
Proof.
  set (u := FileAttr_to_u32 a). pose proof (Z.div_mod u 32 ltac:(lia)) as Hu.
  pose proof (Z.mod_pos_bound u 32 ltac:(lia)) as Hm.
  revert idx. induction raw as [|seg raw IH]; intros idx; cbn [from_u32_at].
  - split; [by intros ?%not_elem_of_nil|]. by intros (_ & w & Hw & _).
  - rewrite elem_of_app, segment_attrs_elem, IH. fold u. split.
    + intros [(n & Hn & Hb & E)|(Hi & w & Hw & Hb)].
      * assert (u / 32 = idx) as Ed by (symmetry; apply (Z.div_unique u 32 idx n); lia).
        split; [lia|]. exists seg. rewrite Ed, Z.sub_diag. split; [done|].
        rewrite E, Z.add_comm, Z_mod_plus_full, Z.mod_small by lia. done.
      * split; [lia|]. exists w. split; [|done].
        by replace (Z.to_nat (u / 32 - idx)) with (S (Z.to_nat (u / 32 - (idx + 1)))) by lia.
    + intros (Hi & w & Hw & Hb). destruct (decide (u / 32 = idx)) as [Ed|Ed].
      * left. rewrite Ed, Z.sub_diag in Hw. injection Hw as ->. exists (u mod 32). split_and!; [lia..|done|lia].
      * right. split; [lia|]. exists w. split; [|done].
        by replace (Z.to_nat (u / 32 - idx)) with (S (Z.to_nat (u / 32 - (idx + 1)))) in Hw by lia.
Qed.

(** One more bit in the words. *)
Lemma or_bit_lookup bit words (k : nat) n :
  0 <= bit -> 0 <= n < 32 -> (Z.to_nat (bit / 32) < length words)%nat ->
  ((exists w, alter (fun w => Z.lor w (Z.shiftl 1 (bit mod 32))) (Z.to_nat (bit / 32)) words !! k = Some w /\
     Z.testbit w n = true) <->
   bit = 32 * Z.of_nat k + n \/ exists w, words !! k = Some w /\ Z.testbit w n = true).
Proof.
  intros Hb Hn Hl. pose proof (Z.div_mod bit 32 ltac:(lia)) as Hd. pose proof (Z.mod_pos_bound bit 32 ltac:(lia)) as Hm.
  pose proof (Z.div_pos bit 32 Hb ltac:(lia)) as Hp.
  destruct (decide (k = Z.to_nat (bit / 32))) as [->|Hk].
  - rewrite list_lookup_alter_eq. apply lookup_lt_is_Some in Hl as [w Hw]. rewrite Hw. simpl.
    assert (Ht : forall w', Z.testbit (Z.lor w' (Z.shiftl 1 (bit mod 32))) n = Z.testbit w' n || (bit mod 32 =? n)).
    { intros w'. rewrite Z.lor_spec, Z.shiftl_1_l, Z.pow2_bits_eqb by lia. done. }
    split.
    + intros (w' & [= <-] & H). rewrite Ht in H. apply orb_true_iff in H as [H|H%Z.eqb_eq]; [right; eauto|left; lia].
    + intros [H|(w' & [= <-] & H)]; eexists; (split; [done|]); rewrite Ht; apply orb_true_iff; [right|by left].
      apply Z.eqb_eq. lia.
  - rewrite list_lookup_alter_ne by done. split; [by right|]. intros [H|H]; [|done]. exfalso. apply Hk. lia.
Qed.

(** The server sees exactly the attributes the client asks for, in order. *)
Lemma attr_bitmap_elem bits a :
  Forall (fun b => 0 <= b) bits -> a ∈ from_u32 (attr_bitmap bits) <-> FileAttr_to_u32 a ∈ bits.
Proof.
  intros Hbits. unfold from_u32. rewrite from_u32_at_elem. set (u := FileAttr_to_u32 a).
  assert (Hu0 : 0 <= u) by (unfold u; by destruct a).
  pose proof (Z.div_mod u 32 ltac:(lia)) as Hu. pose proof (Z.mod_pos_bound u 32 ltac:(lia)) as Hm.
  pose proof (Z.div_pos u 32 Hu0 ltac:(lia)) as Hd. rewrite Z.sub_0_r.
  set (k := Z.to_nat (u / 32)). unfold attr_bitmap.
  assert (Hlen : Forall (fun b => (Z.to_nat (b / 32) < length (replicate (Z.to_nat (foldr Z.max 0%Z bits / 32) + 1) 0%Z))%nat) bits).
  { rewrite length_replicate. apply Forall_forall. intros b Hb.
    assert (b <= foldr Z.max 0 bits) as Hle.
    { clear -Hb. induction bits as [|x bits IH]; [by apply not_elem_of_nil in Hb|]. simpl.
      apply elem_of_cons in Hb as [->|Hb]; [lia|]. specialize (IH Hb). lia. }
    pose proof (Z.div_le_mono b _ 32 ltac:(lia) Hle). lia. }
  assert (Hgen : forall words, Forall (fun b => (Z.to_nat (b / 32) < length words)%nat) bits ->
    (exists w, fold_left (fun words bit => alter (fun w => Z.lor w (Z.shiftl 1 (bit mod 32))) (Z.to_nat (bit / 32)) words)
       bits words !! k = Some w /\ Z.testbit w (u mod 32) = true) <->
    u ∈ bits \/ exists w, words !! k = Some w /\ Z.testbit w (u mod 32) = true).
  { clear Hlen. induction bits as [|b bits IH]; intros words Hl; simpl.
    { split; [by right|]. intros [H|H]; [by apply not_elem_of_nil in H|done]. }
    apply Forall_cons_1 in Hl as [Hb Hl]. apply Forall_cons_1 in Hbits as [Hb0 Hbits].
    rewrite IH; [|done|by rewrite length_alter]. rewrite or_bit_lookup by done. rewrite elem_of_cons.
    replace (b = 32 * Z.of_nat k + u mod 32) with (b = u) by (f_equal; lia).
    intuition (subst; auto). }
  rewrite (Hgen _ Hlen). split; [|intros H; split; [lia|by left]].
  intros (_ & [H|(w & Hw & Ht)]); [done|]. apply lookup_replicate in Hw as [-> _]. by rewrite Z.bits_0 in Ht.
Qed.

Lemma or_bits_width bits words :
  Forall (in_width 32) words ->
  Forall (in_width 32) (fold_left (fun words bit => alter (fun w => Z.lor w (Z.shiftl 1 (bit mod 32)))
    (Z.to_nat (bit / 32)) words) bits words).
Proof.
  revert words. induction bits as [|b bits IH]; intros words Hw; simpl; [done|]. apply IH.
  apply Forall_alter; [done|]. intros w _ [H0 Hlt].
  pose proof (Z.mod_pos_bound b 32 ltac:(lia)) as Hm. split.
  - apply Z.lor_nonneg. rewrite Z.shiftl_1_l. lia.
  - destruct (Z.eq_dec (Z.lor w (Z.shiftl 1 (b mod 32))) 0) as [->|Hne]; [lia|].
    apply Z.log2_lt_cancel. rewrite Z.log2_pow2 by lia.
    rewrite Z.log2_lor by (rewrite ?Z.shiftl_1_l; lia). rewrite Z.shiftl_1_l, Z.log2_pow2 by lia.
    apply Z.max_lub_lt; [|lia]. destruct (Z.eq_dec w 0) as [->|]; [simpl; lia|]. by apply Z.log2_lt_pow2; lia.
Qed.

Lemma words_written words :
  Z.of_nat (length words) < 2 ^ 32 -> (codec_seq codec_u32).(ser) words = Ok (encode_bitmap words).
Proof.
  intros H. cbn [ser codec_seq]. rewrite length_u32_ok by done. cbn [result_bind].
  assert (E : forall l, ser_elements codec_u32 l = Ok (concat (map XdrEncoder.put_u32 l))).
  { induction l as [|w l IH]; [done|]. cbn [ser_elements codec_u32 ser result_bind]. by rewrite IH. }
  rewrite E. cbn [result_bind]. unfold encode_bitmap. by rewrite wrap_small by (unfold in_width; lia).
Qed.

(** Bits a client can ask for. *)
Definition bits_ok (bits : list Z) : Prop := Forall (in_width 32) bits.

Lemma bitmap_read bits rest :
  bits_ok bits -> codec_attrlist.(de) (encode_bitmap (attr_bitmap bits) ++ rest) = Ok (from_u32 (attr_bitmap bits), rest).
Proof.
  intros Hb. cbn [de codec_attrlist codec_iso].
  assert (Hl : Z.of_nat (length (attr_bitmap bits)) < 2 ^ 32).
  { unfold attr_bitmap. rewrite length_or_bits, length_replicate.
    assert (0 <= foldr Z.max 0 bits < 2 ^ 32) as Hm.
    { clear -Hb. induction Hb as [|b bits [H0 H1] Hb IH]; simpl; lia. }
    pose proof (Z.div_lt_upper_bound (foldr Z.max 0 bits) 32 (2 ^ 27) ltac:(lia) ltac:(lia)). lia. }
  rewrite (rbind_ok _ _ _ (attr_bitmap bits) rest); [done|].
  apply (codec_roundtrip (c := codec_seq codec_u32)); [|by apply words_written].
  split; [done|]. apply or_bits_width, Forall_replicate. unfold in_width. lia.
Qed.

(** ** Operations *)

(** The NFSv4.0 operations of the client. *)
Inductive ClientOp : Type :=
| ClientPutrootfh | ClientGetfh | ClientLookupp | ClientSavefh | ClientRestorefh
| ClientGetattr (bits : list Z)
| ClientPutfh (fh : list byte)
| ClientLookup (name : string)
| ClientAccess (access_bits : Z)
| ClientReaddir (cookie : Z) (cookieverf : list byte) (dircount maxcount : Z) (attr_bits : list Z)
| ClientSetclientid (client_name : string) (verifier : list byte)
| ClientSetclientidConfirm (clientid : Z) (verifier : list byte)
| ClientRenew (clientid : Z)
| ClientSecinfo (name : string).

Definition op_bytes (o : ClientOp) : list byte :=
  match o with
  | ClientPutrootfh => op_putrootfh | ClientGetfh => op_getfh | ClientLookupp => op_lookupp
  | ClientSavefh => op_savefh | ClientRestorefh => op_restorefh
  | ClientGetattr bits => op_getattr bits
  | ClientPutfh fh => op_putfh fh
  | ClientLookup name => op_lookup name
  | ClientAccess bits => op_access bits
  | ClientReaddir cookie verf dircount maxcount bits => op_readdir cookie verf dircount maxcount bits
  | ClientSetclientid name verf => op_setclientid name verf
  | ClientSetclientidConfirm id verf => op_setclientid_confirm id verf
  | ClientRenew id => op_renew id
  | ClientSecinfo name => op_secinfo name
  end.

(** What the operation means to a server. *)
Definition op_meant (o : ClientOp) : NfsArgOp :=
  match o with
  | ClientPutrootfh => Opputrootfh | ClientGetfh => Opgetfh | ClientLookupp => Oplookupp
  | ClientSavefh => Opsavefh | ClientRestorefh => Oprestorefh
  | ClientGetattr bits => Opgetattr (MkGetattr4args (from_u32 (attr_bitmap bits)))
  | ClientPutfh fh => Opputfh (MkPutFh4args fh)
  | ClientLookup name => Oplookup (MkLookup4args name)
  | ClientAccess bits => OpAccess (MkAccess4args bits)
  | ClientReaddir cookie verf dircount maxcount bits =>
    Opreaddir (MkReaddir4args cookie verf dircount maxcount (from_u32 (attr_bitmap bits)))
  | ClientSetclientid name verf =>
    Opsetclientid (MkSetClientId4args (MkNfsClientId4 verf name) (MkCbClient4 0 (MkClientAddr4 "tcp" "0.0.0.0.0.0")) 0)
  | ClientSetclientidConfirm id verf => OpsetclientidConfirm (MkSetClientIdConfirm4args id verf)
  | ClientRenew id => Oprenew (MkRenew4args id)
  | ClientSecinfo name => OpSecinfo (MkSecInfo4args name)
  end.

Definition op_sane (o : ClientOp) : Prop :=
  match o with
  | ClientGetattr bits => bits_ok bits
  | ClientPutfh fh => opaque_valid fh
  | ClientLookup name | ClientSecinfo name => string_valid name
  | ClientAccess bits => in_width 32 bits
  | ClientReaddir cookie verf dircount maxcount bits =>
    in_width 64 cookie /\ length verf = 8%nat /\ in_width 32 dircount /\ in_width 32 maxcount /\ bits_ok bits
  | ClientSetclientid name verf => string_valid name /\ length verf = 8%nat
  | ClientSetclientidConfirm id verf => in_width 64 id /\ length verf = 8%nat
  | ClientRenew id => in_width 64 id
  | _ => True
  end.

Definition asks_attrs (o : ClientOp) : bool :=
  match o with ClientGetattr _ | ClientReaddir _ _ _ _ _ => true | _ => false end.

Lemma op_meant_valid o : op_sane o -> asks_attrs o = false -> valid_NfsArgOp (op_meant o).
Proof.
  intros Hs Hk. destruct o; try done; cbn [op_sane] in Hs.
  - split; [split; [apply Hs|apply Hs]|]. split; [|by vm_compute]. split; [by vm_compute|].
    split; by split.
Qed.

(** The server's own encoder would write these operations the same. *)
Lemma op_written o :
  op_sane o -> asks_attrs o = false -> codec_NfsArgOp.(ser) (op_meant o) = Ok (op_bytes o).
Proof.
  intros Hs Hk. destruct o; try done; cbn [op_sane] in Hs;
    cbn [op_meant op_bytes ser codec_NfsArgOp]; try done; unfold ser_variant;
    cbn [ser codec_iso codec_PutFh4args codec_Lookup4args codec_Access4args codec_SecInfo4args codec_Renew4args
      codec_SetClientIdConfirm4args codec_SetClientId4args codec_NfsClientId4 codec_CbClient4 codec_ClientAddr4
      codec_pair codec_u32 codec_u64 codec_opaque codec_utf8_opaque
      putFh4args_object lookup4args_objname access4args_access secInfo4args_name renew4args_clientid
      setClientIdConfirm4args_clientid setClientIdConfirm4args_setclientid_confirm setClientId4args_client
      setClientId4args_callback setClientId4args_callback_ident nfsClientId4_verifier nfsClientId4_id
      cbClient4_cb_program cbClient4_cb_location clientAddr4_rnetid clientAddr4_raddr result_bind];
    rewrite ?(put_opaque_same (String.list_byte_of_string "tcp")),
      ?(put_opaque_same (String.list_byte_of_string "0.0.0.0.0.0")) by done.
  - by rewrite put_opaque_same.
  - by rewrite put_opaque_same by apply Hs.
  - destruct Hs as [[_ Hn] Hv]. rewrite put_opaque_same, (put_fixed_same 8) by done. cbn [result_bind].
    unfold op_setclientid, XdrEncoder.put_string, XdrEncoder.put_u32. by rewrite <- !app_assoc.
  - destruct Hs as [_ Hv]. by rewrite (put_fixed_same 8) by done.
  - by rewrite put_opaque_same by apply Hs.
Qed.

Lemma op_read o rest : op_sane o -> codec_NfsArgOp.(de) (op_bytes o ++ rest) = Ok (op_meant o, rest).
Proof.
  intros Hs. destruct (asks_attrs o) eqn:Hk.
  2: { apply codec_roundtrip; [by apply op_meant_valid|by apply op_written]. }
  destruct o; try done; cbn [op_sane] in Hs; cbn [de codec_NfsArgOp op_bytes op_meant].
  - unfold op_getattr. rewrite <- app_assoc. erewrite de_variants_at by (done || by vm_compute).
    unfold de_variant. erewrite rbind_ok; [done|]. cbn [de codec_Getattr4args codec_iso].
    by rewrite (rbind_ok _ _ _ _ _ (bitmap_read bits rest Hs)).
  - destruct Hs as (Hc & Hv & Hd & Hm & Hb). unfold op_readdir.
    set (front := XdrEncoder.put_u64 cookie ++ XdrEncoder.put_opaque_fixed cookieverf ++
      XdrEncoder.put_u32 dircount ++ XdrEncoder.put_u32 maxcount).
    assert (Ef : (codec_u64 ⊗ codec_fixed 8 ⊗ codec_u32 ⊗ codec_u32).(ser) (cookie, cookieverf, dircount, maxcount) = Ok front).
    { cbn [ser codec_pair codec_u64 codec_u32 result_bind]. rewrite (put_fixed_same 8) by done. cbn [result_bind].
      unfold front. by rewrite <- !app_assoc. }
    replace ((XdrEncoder.put_u32 OP_READDIR ++ _) ++ rest)
      with (put_u32 OP_READDIR ++ front ++ encode_bitmap (attr_bitmap attr_bits) ++ rest)
      by (unfold front; by rewrite <- !app_assoc).
    erewrite de_variants_at by (done || by vm_compute).
    unfold de_variant. erewrite rbind_ok; [done|]. cbn [de codec_Readdir4args codec_iso].
    rewrite (rbind_ok _ _ _ (cookie, cookieverf, dircount, maxcount, from_u32 (attr_bitmap attr_bits)) rest); [done|].
    cbn [de codec_pair].
    rewrite (rbind_ok _ _ _ (cookie, cookieverf, dircount, maxcount) (encode_bitmap (attr_bitmap attr_bits) ++ rest)).
    + by rewrite (rbind_ok _ _ _ _ _ (bitmap_read attr_bits rest Hb)).
    + by apply (codec_roundtrip (c := codec_u64 ⊗ codec_fixed 8 ⊗ codec_u32 ⊗ codec_u32) (cookie, cookieverf, dircount, maxcount) front).
Qed.

Lemma op_aligned o : op_sane o -> (length (op_bytes o) mod 4 = 0)%nat.
Proof.
  intros Hs. destruct (asks_attrs o) eqn:Hk.
  2: { exact (codec_aligned (c := codec_NfsArgOp) _ _ (op_written o Hs Hk)). }
  assert (Hw : forall ws, (length (encode_bitmap ws) mod 4 = 0)%nat).
  { intros ws. unfold encode_bitmap. apply aligned_app; [apply aligned_word|].
    induction ws as [|w ws IH]; [done|]. cbn [map concat]. apply aligned_app; [apply aligned_word|done]. }
  destruct o; try done; cbn [op_bytes].
  - apply aligned_app; [apply aligned_word|apply Hw].
  - destruct Hs as (_ & Hv & _). unfold op_readdir, XdrEncoder.put_opaque_fixed. rewrite Hv.
    do 5 (apply aligned_app; [by rewrite ?length_app, ?length_be_bytes, ?Hv|]). apply Hw.
Qed.

Lemma opaque_aligned d : (length (XdrEncoder.put_opaque d) mod 4 = 0)%nat.
Proof.
  unfold XdrEncoder.put_opaque, XdrEncoder.put_opaque_fixed. apply aligned_app; [apply aligned_word|].
  rewrite length_app, length_replicate. apply padding_aligns.
Qed.

Definition ops_bytes (ops : list ClientOp) : list byte := concat (map op_bytes ops).

(** Every operation ends on a word, so copying one behind the others adds nothing. *)
Lemma build_compound_bytes tag minor ops :
  Forall op_sane ops ->
  build_compound tag minor (map op_bytes ops) =
    XdrEncoder.put_string tag ++ put_u32 minor ++ put_u32 (wrap 32 (Z.of_nat (length ops))) ++ ops_bytes ops.
Proof.
  intros Hops. unfold build_compound. rewrite length_map.
  assert (E : forall enc, (length enc mod 4 = 0)%nat ->
    fold_left (fun enc op => XdrEncoder.put_opaque_fixed enc ++ XdrEncoder.put_opaque_fixed op) (map op_bytes ops) enc
    = enc ++ ops_bytes ops).
  { induction Hops as [|o ops Ho Hops IH]; intros enc He; [by rewrite app_nil_r|]. cbn [map fold_left].
    pose proof (op_aligned o Ho) as Ha. rewrite !put_fixed_aligned by done.
    rewrite IH by (by apply aligned_app). unfold ops_bytes. cbn [map concat]. by rewrite <- app_assoc. }
  rewrite E; [by rewrite <- !app_assoc|].
  apply aligned_app; [apply opaque_aligned|]. apply aligned_app; apply aligned_word.
Qed.

Lemma ops_read ops rest :
  Forall op_sane ops -> de_elements codec_NfsArgOp (length ops) (ops_bytes ops ++ rest) = Ok (map op_meant ops, rest).
Proof.
  induction 1 as [|o ops Ho Hops IH]; [done|]. cbn [length de_elements map]. unfold ops_bytes. cbn [map concat].
  rewrite <- app_assoc. rewrite (rbind_ok _ _ _ (op_meant o) (ops_bytes ops ++ rest)) by (by apply op_read).
  by rewrite (rbind_ok _ _ _ (map op_meant ops) rest).
Qed.

Definition compound_meant (tag : string) (minor : Z) (ops : list ClientOp) : Compound4args :=
  MkCompound4args tag minor (map op_meant ops).

Lemma compound_read tag minor ops rest :
  string_valid tag -> in_width 32 minor -> Z.of_nat (length ops) < 2 ^ 32 -> Forall op_sane ops ->
  codec_Compound4args.(de) (build_compound tag minor (map op_bytes ops) ++ rest)
  = Ok (compound_meant tag minor ops, rest).
Proof.
  intros Ht Hm Hn Hops. rewrite build_compound_bytes, <- !app_assoc by done. rewrite wrap_small by (unfold in_width; lia).
  cbn [de codec_Compound4args codec_iso]. rewrite (rbind_ok _ _ _ (tag, minor, map op_meant ops) rest); [done|].
  cbn [de codec_pair].
  rewrite (rbind_ok _ _ _ (tag, minor) (put_u32 (Z.of_nat (length ops)) ++ ops_bytes ops ++ rest)).
  - rewrite (rbind_ok _ _ _ (map op_meant ops) rest); [done|]. cbn [de codec_seq].
    rewrite (rbind_ok _ _ _ (Z.of_nat (length ops)) (ops_bytes ops ++ rest))
      by (apply get_u32_put; unfold in_width; lia).
    rewrite Nat2Z.id. by apply ops_read.
  - rewrite (rbind_ok _ _ _ tag (put_u32 minor ++ put_u32 (Z.of_nat (length ops)) ++ ops_bytes ops ++ rest)).
    + by rewrite (rbind_ok _ _ _ minor (put_u32 (Z.of_nat (length ops)) ++ ops_bytes ops ++ rest)) by (by apply get_u32_put).
    + by apply (codec_roundtrip (c := codec_utf8_opaque)); [|apply put_string_same].
Qed.

(** ** Calls *)

Lemma call_frame_fragment m : Z.of_nat (length m) < 2 ^ 31 -> call_frame m = fragment true m.
Proof.
  intros H. unfold call_frame, fragment. rewrite wrap_small by (unfold in_width; lia).
  change 0x80000000 with (2 ^ 31). set (n := Z.of_nat (length m)) in *.
  assert (E : Z.land (2 ^ 31) n = 0).
  { apply Z.bits_inj'. intros i Hi. rewrite Z.land_spec, Z.bits_0, Z.pow2_bits_eqb by lia.
    destruct (Z.eqb_spec 31 i) as [<-|]; [|done]. rewrite andb_true_l.
    destruct (Z.eq_dec n 0) as [->|Hn]; [done|]. apply Z.bits_above_log2; [lia|]. apply Z.log2_lt_pow2; lia. }
  pose proof (Z.add_lor_land (2 ^ 31) n) as Ha. rewrite E in Ha. f_equal. f_equal. lia.
Qed.

(** The client's credential as the server reads it. *)
Definition client_auth (uid gid : Z) : AuthUnix := MkAuthUnix 0 "nextnfstest" uid gid [].

Lemma auth_written uid gid : codec_auth_unix.(ser) (client_auth uid gid) = Ok (auth_sys uid gid).
Proof.
  cbn [ser codec_auth_unix codec_iso codec_pair codec_u32 codec_string codec_seq stamp machinename Rpc.uid Rpc.gid
    gids client_auth ser_elements result_bind]. rewrite put_opaque_same by done. cbn [result_bind].
  by rewrite length_u32_ok by done.
Qed.

Lemma message_fields xid uid gid program version procedure args :
  call_message xid uid gid program version procedure args =
    call_header xid 2 program version procedure ++ (put_u32 1 ++ XdrEncoder.put_opaque (auth_sys uid gid)) ++
    (put_u32 0 ++ put_u32 0) ++ args.
Proof. unfold call_message, call_header. by rewrite <- !app_assoc. Qed.

Lemma length_auth_sys uid gid : length (auth_sys uid gid) = 32%nat.
Proof. done. Qed.

Lemma message_parsed xid uid gid args :
  in_width 32 xid -> in_width 32 uid -> in_width 32 gid ->
  from_bytes codec_Compound4args.(de) (call_message xid uid gid NFS_PROGRAM NFS_V4 NFSPROC4_COMPOUND args)
  = Ok (MkRpcCallMsg xid
      match codec_Compound4args.(de) args with
      | Ok (a, _) => Call (MkCallBody 2 NFS_PROGRAM NFS_V4 NFSPROC4_COMPOUND (AuthUnixCred (client_auth uid gid))
          (AuthNull []) (Some a) None)
      | Err e => ParseError (ErrCompound NFS_PROGRAM NFS_V4 NFSPROC4_COMPOUND e)
      end).
Proof.
  intros Hx Hu Hg. rewrite message_fields.
  rewrite (from_bytes_call _ xid 2 NFS_PROGRAM NFS_V4 NFSPROC4_COMPOUND (AuthUnixCred (client_auth uid gid)) (AuthNull [])).
  - done.
  - by repeat (apply Forall_cons; split; [done|]).
  - split; [|intros bs]; [|rewrite auth_written; by intros <-%Ok_inj].
    by split_and!.
  - done.
  - unfold OpaqueAuth_ser. rewrite auth_written. cbn [result_bind ser codec_pair codec_u32 codec_opaque].
    by rewrite put_opaque_same by done.
  - done.
Qed.

Lemma ops_bytes_length ops : (length ops <= length (ops_bytes ops))%nat.
Proof.
  unfold ops_bytes. induction ops as [|o ops IH]; cbn [map concat]; [done|]. rewrite length_app.
  assert (1 <= length (op_bytes o))%nat by (destruct o; simpl; lia). rewrite length_cons. lia.
Qed.

(** C29: What the test client calls is what the server serves: the record it sends for a
    COMPOUND of NFSv4.0 operations is taken off the stream whole, and is the call it
    meant, under its id, with its AUTH_SYS identity and its operations and arguments in
    order, and in GETATTR and READDIR exactly the attributes it asked for. *)
Theorem client_call_received xid uid gid tag minor ops rest :
  Forall (in_width 32) [xid; uid; gid; minor] -> string_valid tag -> Forall op_sane ops ->
  let args := build_compound tag minor (map op_bytes ops) in
  let message := call_message xid uid gid NFS_PROGRAM NFS_V4 NFSPROC4_COMPOUND args in
  Z.of_nat (length message) <= MAX ->
  Rpc.decode codec_Compound4args.(de) (call_frame message ++ rest) =
    (rest, Ok (Some (MkRpcCallMsg xid (Call (MkCallBody 2 NFS_PROGRAM NFS_V4 NFSPROC4_COMPOUND
      (AuthUnixCred (client_auth uid gid)) (AuthNull []) (Some (compound_meant tag minor ops)) None))))) /\
  forall a bits, bits_ok bits -> a ∈ from_u32 (attr_bitmap bits) <-> FileAttr_to_u32 a ∈ bits.
Proof.
  intros Hw Ht Hops args message Hl. split.
  2: { intros a bits Hb. apply attr_bitmap_elem. eapply Forall_impl; [exact Hb|]. by intros ? []. }
  assert (Hn : Z.of_nat (length ops) < 2 ^ 32).
  { assert (length ops <= length message)%nat as Hle; [|unfold MAX in Hl; lia].
    unfold message, args. rewrite message_fields, build_compound_bytes, !length_app by done.
    pose proof (ops_bytes_length ops). lia. }
  rewrite call_frame_fragment by (unfold MAX in Hl; lia).
  pose proof (read_record_fragments [message] rest ltac:(done) ltac:(by apply Forall_singleton)) as R.
  cbn [fragments concat] in R. rewrite app_nil_r in R. unfold Rpc.decode. rewrite R.
  rewrite !List.Forall_cons_iff in Hw. destruct Hw as (Hx & Hu & Hg & Hm & _).
  pose proof (compound_read tag minor ops [] Ht Hm Hn Hops) as R2. rewrite app_nil_r in R2.
  unfold message. rewrite message_parsed by done. unfold args. by rewrite R2.
Qed.

(** ** Replies *)

(** What the decoder has left to read. *)
Definition left_of (d : XdrDecoder) : list byte := drop (dec_pos d) (dec_buf d).

(** The decoder after [n] bytes. *)
Definition past (d : XdrDecoder) (n : nat) : XdrDecoder := MkXdrDecoder (dec_buf d) (dec_pos d + n).

Lemma left_past d b rest n : left_of d = b ++ rest -> length b = n -> left_of (past d n) = rest.
Proof. intros E <-. unfold left_of, past in *. cbn [dec_buf dec_pos]. by rewrite <- drop_drop, E, drop_app_length. Qed.

Lemma remaining_left d : XdrDecoder.remaining d = length (left_of d).
Proof. unfold XdrDecoder.remaining, left_of. by rewrite length_drop. Qed.

Lemma client_u32 d v rest :
  left_of d = put_u32 v ++ rest -> in_width 32 v -> XdrDecoder.get_u32 d = Ok (v, past d 4) /\ left_of (past d 4) = rest.
Proof.
  intros E Hv. assert (L : length (put_u32 v) = 4%nat) by apply length_be_bytes.
  split; [|exact (left_past d _ rest 4 E L)]. unfold XdrDecoder.get_u32. rewrite remaining_left, E.
  rewrite (proj2 (Nat.ltb_ge _ _)) by (rewrite length_app; lia).
  fold (left_of d). rewrite E, (take_app_length' (put_u32 v) rest 4) by done.
  unfold put_u32. by rewrite be_val_be_bytes_small.
Qed.

Lemma client_opaque d data bs rest :
  put_opaque data = Ok bs -> left_of d = bs ++ rest ->
  XdrDecoder.get_opaque d = Ok (data, past d (length bs)) /\ left_of (past d (length bs)) = rest.
Proof.
  intros Eb E. split; [|by eapply left_past]. revert Eb E.
  unfold put_opaque. intros (n & [-> Hn]%length_u32_inv & <-%Ok_inj)%result_bind_ok. rewrite <- !app_assoc. intros E.
  destruct (client_u32 _ _ _ E Hn) as [Eu El]. unfold XdrDecoder.get_opaque. rewrite Eu. cbn [result_bind fst snd].
  rewrite Nat2Z.id. unfold XdrDecoder.get_opaque_fixed. rewrite remaining_left, El.
  change ((4 - length data mod 4) mod 4)%nat with (padding (length data)). cbv zeta.
  rewrite (proj2 (Nat.ltb_ge _ _)) by (rewrite !length_app, length_replicate; lia).
  fold (left_of (past d 4)). rewrite El, take_app_length. do 2 f_equal. unfold past. cbn [dec_buf dec_pos]. f_equal.
  unfold put_u32. rewrite !length_app, length_be_bytes, length_replicate. lia.
Qed.

Lemma client_string d s bs rest :
  codec_utf8_opaque.(ser) s = Ok bs -> string_valid s -> left_of d = bs ++ rest ->
  XdrDecoder.get_string d = Ok (s, past d (length bs)) /\ left_of (past d (length bs)) = rest.
Proof.
  intros Es [Hu _] E. destruct (client_opaque d _ bs rest Es E) as [Eo El]. split; [|done].
  unfold XdrDecoder.get_string. rewrite Eo. cbn [result_bind fst snd].
  by rewrite Hu, String.string_of_list_byte_of_string.
Qed.

Lemma client_record message rest :
  Z.of_nat (length message) <= 16 * 1024 * 1024 ->
  read_record_from (length (frame message ++ rest) + 1) [] (frame message ++ rest) = Ok (message, rest).
Proof.
  intros Hl. assert (Hl' : 0 <= Z.of_nat (length message) < 2 ^ 31) by lia.
  destruct (header_fields _ true Hl') as (Hw & Hlast & Hlen). rewrite Nat.add_1_r. cbn [read_record_from].
  rewrite frame_fragment by lia. unfold fragment. rewrite <- app_assoc.
  set (h := Z.of_nat (length message) + 2 ^ 31) in *.
  assert (L4 : length (be_bytes 4 h) = 4%nat) by apply length_be_bytes.
  rewrite (proj2 (Nat.ltb_ge _ _)) by (rewrite !length_app; lia).
  rewrite (take_app_length' (be_bytes 4 h)), (drop_app_length' (be_bytes 4 h)) by done.
  rewrite be_val_be_bytes_small by done.
  change 0x7FFFFFFF with (Z.shiftl 1 31 - 1). rewrite Hlen. rewrite (proj2 (Z.ltb_ge _ _)) by lia. rewrite Nat2Z.id.
  rewrite (proj2 (Nat.ltb_ge _ _)) by (rewrite !length_app; lia).
  change 0x80000000 with (Z.shiftl 1 31). unfold has_bits in Hlast.
  assert (E : negb (Z.land h (Z.shiftl 1 31) =? 0) = true).
  { apply negb_true_iff, Z.eqb_neq. intros E0. by rewrite E0 in Hlast. }
  rewrite E, take_app_length. rewrite <- drop_drop, (drop_app_length' (be_bytes 4 h)), drop_app_length by done. done.
Qed.

(** Reads one word, and what the code then does with it. *)
Ltac client_word E :=
  lazymatch type of E with
  | left_of ?d = put_u32 ?v ++ ?rest =>
    let Eu := fresh "Eu" in let El := fresh "El" in
    destruct (client_u32 d v rest E) as [Eu El]; [try done|rewrite Eu; clear Eu; cbn [result_bind fst snd]]
  end.

Lemma client_reply xid stat body :
  in_width 32 xid -> in_width 32 stat ->
  parse_reply xid (put_u32 xid ++ put_u32 1 ++ put_u32 0 ++ (put_u32 0 ++ put_u32 0) ++ put_u32 stat ++ body)
  = if stat =? 0 then Ok body else Err ("RPC accept error: " +:+ accept_stat_name stat).
Proof.
  intros Hx Hs. unfold parse_reply. set (m := _ ++ _).
  assert (E0 : left_of (XdrDecoder.start m) = m) by done. unfold m in E0 at 2.
  client_word E0. rewrite Z.eqb_refl. cbn [negb]. client_word El. cbn [negb Z.eqb MSG_TYPE_REPLY].
  change (1 =? MSG_TYPE_REPLY) with true. cbn [negb]. client_word El0. change (0 =? REPLY_ACCEPTED) with true. cbn [negb].
  rewrite <- app_assoc in El1. client_word El1.
  destruct (client_opaque _ [] (put_u32 0) _ eq_refl El2) as [Eo El3]. rewrite Eo. cbn [result_bind fst snd].
  client_word El3. change ACCEPT_SUCCESS with 0. destruct (stat =? 0); [exact (f_equal Ok El4)|done].
Qed.

Lemma enc_fields_map {A} (e : A -> encoded) l bs :
  enc_fields (map e l) = Ok bs -> exists parts, Forall2 (fun x b => e x = Ok b) l parts /\ bs = concat parts.
Proof.
  revert bs. induction l as [|x l IH]; intros bs; cbn [map].
  - intros <-%Ok_inj. by exists [].
  - intros (b & rest & Ex & (parts & Hp & ->)%IH & ->)%enc_fields_inv. exists (b :: parts). by split; [constructor|].
Qed.

Lemma write_argarray_inv values bs :
  write_argarray values = Ok bs ->
  exists parts, Forall2 (fun x b => enc_result x = Ok b) values parts /\ Z.of_nat (length values) < 2 ^ 32 /\
    bs = put_u32 (Z.of_nat (length values)) ++ concat parts.
Proof.
  unfold write_argarray. destruct values as [|x values].
  { intros <-%Ok_inj. exists []. by rewrite app_nil_r. }
  intros (n & [-> Hn]%length_u32_inv & (b & E & ->)%enc_variant_inv)%result_bind_ok.
  apply enc_fields_map in E as (parts & Hp & ->). exists parts. split_and!; [done| |done]. unfold in_width in Hn. lia.
Qed.

Lemma body_word_width res word : body_word res = Some word -> in_width 32 word.
Proof.
  assert (Hs : forall s, in_width 32 (NfsStat4_to_u32 s)) by (by intros []).
  destruct res; cbn [body_word]; try (by intros [= <-]); repeat case_match; by intros [= <-].
Qed.

(** The header of the results: how many there are and where the first one starts. *)
Lemma reply_header res body :
  enc_Compound4res res = Ok body -> string_valid (compound4res_tag res) ->
  exists offset parts,
    Forall2 (fun x b => enc_result x = Ok b) (compound4res_resarray res) parts /\
    parse_compound_reply body
      = Ok (NfsStat4_to_u32 (compound4res_status res), Z.of_nat (length (compound4res_resarray res)), offset) /\
    drop offset body = concat parts.
Proof.
  intros (b1 & r1 & <-%Ok_inj & (b2 & r2 & E2 & (b3 & r3 & E3 & <-%Ok_inj & ->)%enc_fields_inv & ->)%enc_fields_inv & ->)%enc_fields_inv Ht.
  apply write_argarray_inv in E3 as (parts & Hp & Hn & ->). rewrite app_nil_r.
  set (body := _ ++ _). assert (E0 : left_of (XdrDecoder.start body) = body) by done. unfold body in E0 at 2.
  unfold parse_compound_reply. client_word E0; [by destruct (compound4res_status res)|].
  destruct (client_string _ _ _ _ E2 Ht El) as [Es El']. rewrite Es. cbn [result_bind fst snd].
  client_word El'; [unfold in_width; lia|]. eexists _, parts. split_and!; [done|done|exact El0].
Qed.

(** C30: What the server replies is what the test client finds: the record is read whole,
    the header passes the client's checks, and the body gives the status of the COMPOUND
    and the number of results. At the end of the results before it, each result gives its
    number and its first word. *)
Theorem client_reads_reply xid res body out rest :
  in_width 32 xid -> enc_Compound4res res = Ok body -> string_valid (compound4res_tag res) ->
  Z.of_nat (length body) + 24 <= 16 * 1024 * 1024 ->
  Rpc.encode enc_Compound4res (MkRpcReplyMsg xid (MsgAccepted (MkAcceptedReply (AuthNull []) (Success res)))) [] = Ok out ->
  exists message offset parts,
    read_record_from (length (out ++ rest) + 1) [] (out ++ rest) = Ok (message, rest) /\
    parse_reply xid message = Ok body /\
    parse_compound_reply body
      = Ok (NfsStat4_to_u32 (compound4res_status res), Z.of_nat (length (compound4res_resarray res)), offset) /\
    Forall2 (fun x b => enc_result x = Ok b) (compound4res_resarray res) parts /\
    forall i x word, compound4res_resarray res !! i = Some x -> body_word x = Some word -> in_width 32 (res_position x) ->
      let start := (offset + length (concat (take i parts)))%nat in
      parse_op_result body start = Ok (res_position x, word, (start + 8)%nat).
Proof.
  intros Hx Eb Ht Hl Eo. destruct (reply_header res body Eb Ht) as (offset & parts & Hp & Eh & Ed).
  set (message := put_u32 xid ++ put_u32 1 ++ put_u32 0 ++ (put_u32 0 ++ put_u32 0) ++ put_u32 0 ++ body).
  assert (out = frame message) as ->.
  { unfold Rpc.encode, RpcReplyMsg_to_bytes in Eo. cbn [reply_body reply_verf reply_data reply_xid AcceptBody_ser] in Eo.
    rewrite Eb in Eo. cbn [result_bind] in Eo. by injection Eo as <-. }
  exists message, offset, parts. split_and!; [apply client_record|by apply (client_reply xid 0)|done|done|].
  { unfold message, put_u32. rewrite !length_app, !length_be_bytes. lia. }
  intros i x word Hi Hw Hpos. cbv zeta.
  destruct (Forall2_lookup_l _ _ _ _ _ Hp Hi) as (b & Hb & Ex).
  destruct (enc_result_words x word b Ex Hw) as (tail & ->).
  unfold parse_op_result. set (data := drop _ body).
  assert (E : data = put_u32 (res_position x) ++ put_u32 word ++ tail ++ concat (drop (S i) parts)).
  { unfold data. rewrite <- drop_drop, Ed. rewrite <- (take_drop_middle parts i _ Hb) at 2.
    rewrite concat_app, drop_app_length. cbn [concat]. by rewrite <- !app_assoc. }
  assert (E0 : left_of (XdrDecoder.start data) = put_u32 (res_position x) ++ put_u32 word ++ tail ++ concat (drop (S i) parts))
    by exact E.
  client_word E0. client_word El; [by eapply body_word_width|]. done.
Qed.

(** ** NFSv4.1 *)

Lemma words_run_out n s : (length s < 4 * n)%nat -> de_elements codec_u32 n s = Err Io_UnexpectedEof.
Proof.
  revert s. induction n as [|n IH]; intros s Hl; [lia|]. cbn [de_elements].
  unfold rbind at 1. cbn [de codec_u32]. unfold get_u32, rbind, get.
  destruct (Nat.leb_spec 4 (length s)) as [H|H]; [|done]. cbn [rret].
  rewrite IH; [done|]. rewrite length_drop. lia.
Qed.

(** A counted sequence of words that is not all there. *)
Lemma seq_runs_out n s :
  in_width 32 n -> Z.of_nat (length s) < 4 * n -> (codec_seq codec_u32).(de) (put_u32 n ++ s) = Err Io_UnexpectedEof.
Proof.
  intros Hn Hl. cbn [de codec_seq]. rewrite (rbind_ok _ _ _ n s) by (by apply get_u32_put).
  apply words_run_out. unfold in_width in Hn. lia.
Qed.

Lemma rbind_err {A B} (m : reader A) (k : A -> reader B) s e : m s = Err e -> rbind m k s = Err e.
Proof. intros H. unfold rbind. by rewrite H. Qed.

Lemma word_of_bytes b : length b = 4%nat -> b = put_u32 (be_val b) /\ in_width 32 (be_val b).
Proof.
  intros Hb. unfold put_u32. rewrite <- Hb, be_bytes_be_val. split; [done|].
  pose proof (be_val_range b) as H. rewrite Hb in H. exact H.
Qed.

(** The next word, whatever it is. *)
Lemma any_word b s : length b = 4%nat -> exists v, get_u32 (b ++ s) = Ok (v, s).
Proof. intros Hb. destruct (word_of_bytes b Hb) as [E Hv]. exists (be_val b). rewrite E at 1. by apply get_u32_put. Qed.

(** Words read by position: six of them. *)
Lemma six_words b s :
  length b = 24%nat ->
  exists x, (codec_u32 ⊗ codec_u32 ⊗ codec_u32 ⊗ codec_u32 ⊗ codec_u32 ⊗ codec_u32).(de) (b ++ s) = Ok (x, s).
Proof.
  intros Hb. cbn [de codec_pair codec_u32].
  assert (Hk : forall k, (k <= 5)%nat -> exists v, get_u32 (drop (4 * k) b ++ s) = Ok (v, drop (4 * S k) b ++ s)).
  { intros k Hk. replace (drop (4 * k) b) with (take 4 (drop (4 * k) b) ++ drop (4 * S k) b).
    - rewrite <- app_assoc. apply any_word. rewrite length_take, length_drop. lia.
    - replace (4 * S k)%nat with (4 * k + 4)%nat by lia. rewrite <- drop_drop. apply take_drop. }
  destruct (Hk 0%nat ltac:(lia)) as [v0 E0], (Hk 1%nat ltac:(lia)) as [v1 E1], (Hk 2%nat ltac:(lia)) as [v2 E2],
    (Hk 3%nat ltac:(lia)) as [v3 E3], (Hk 4%nat ltac:(lia)) as [v4 E4], (Hk 5%nat ltac:(lia)) as [v5 E5].
  cbn [Nat.mul Nat.add] in E0, E1, E2, E3, E4, E5. rewrite drop_0 in E0. rewrite (drop_ge b 24) in E5 by lia.
  exists (v0, v1, v2, v3, v4, v5).
  rewrite (rbind_ok _ _ _ (v0, v1, v2, v3, v4) (drop 20 b ++ s)); [by rewrite (rbind_ok _ _ _ _ _ E5)|].
  rewrite (rbind_ok _ _ _ (v0, v1, v2, v3) (drop 16 b ++ s)); [by rewrite (rbind_ok _ _ _ _ _ E4)|].
  rewrite (rbind_ok _ _ _ (v0, v1, v2) (drop 12 b ++ s)); [by rewrite (rbind_ok _ _ _ _ _ E3)|].
  rewrite (rbind_ok _ _ _ (v0, v1) (drop 8 b ++ s)); [by rewrite (rbind_ok _ _ _ _ _ E2)|].
  by rewrite (rbind_ok _ _ _ _ _ E0), (rbind_ok _ _ _ _ _ E1).
Qed.

(** EXCHANGE_ID is read as CREATE_SESSION, and its owner's name as the session's channel
    attributes; where those have a count there are four characters of the name. *)
Lemma exchange_id_read a b c :
  length a = 28%nat -> length b = 4%nat -> length c = 20%nat -> 9 <= be_val b ->
  codec_NfsArgOp.(de) (op_exchange_id (String.string_of_list_byte (a ++ b ++ c))) = Err Io_UnexpectedEof.
Proof.
  intros La Lb Lc Hb. unfold op_exchange_id. rewrite String.list_byte_of_string_of_list_byte.
  cbn [de codec_NfsArgOp]. erewrite de_variants_at by (done || by vm_compute).
  unfold de_variant. apply rbind_err. cbn [de codec_CreateSession4args codec_iso]. apply rbind_err.
  unfold XdrEncoder.put_opaque. rewrite !length_app, La, Lb, Lc.
  set (verf := [x01; x02; x03; x04; x05; x06; x07; x08]).
  set (input := _ ++ _ ++ _).
  set (tail := c ++ put_u32 0 ++ put_u32 0 ++ put_u32 0).
  destruct (word_of_bytes b Lb) as [Eb Wb].
  assert (Ei : input = put_u64 (be_val verf) ++ put_u32 52 ++ take 4 a ++ drop 4 a ++ put_u32 (be_val b) ++ tail).
  { unfold input, tail, XdrEncoder.put_opaque_fixed. rewrite <- Eb, !length_app, La, Lb, Lc.
    rewrite (app_assoc (take 4 a)), take_drop.
    change (replicate ((4 - (28 + (4 + 20)) mod 4) mod 4)%nat x00) with (@nil byte). rewrite app_nil_r.
    by rewrite <- !app_assoc. }
  rewrite Ei. clear Ei input. destruct (any_word (take 4 a) (drop 4 a ++ put_u32 (be_val b) ++ tail)) as [flags Ef].
  { rewrite length_take. lia. }
  do 3 (cbn [de codec_pair]; apply rbind_err). cbn [de codec_pair].
  rewrite (rbind_ok _ _ _ (be_val verf, 52, flags) (drop 4 a ++ put_u32 (be_val b) ++ tail)).
  2: { cbn [de codec_pair]. rewrite (rbind_ok _ _ _ (be_val verf, 52) (take 4 a ++ drop 4 a ++ put_u32 (be_val b) ++ tail)).
       - by rewrite (rbind_ok _ _ _ _ _ Ef).
       - cbn [de codec_pair codec_u64 codec_u32].
         rewrite (rbind_ok _ _ _ (be_val verf) (put_u32 52 ++ take 4 a ++ drop 4 a ++ put_u32 (be_val b) ++ tail))
           by (by apply get_u64_put).
         by rewrite (rbind_ok _ _ _ 52 (take 4 a ++ drop 4 a ++ put_u32 (be_val b) ++ tail)) by (by apply get_u32_put). }
  apply rbind_err. cbn [de codec_ChannelAttrs4 codec_iso]. apply rbind_err.
  destruct (six_words (drop 4 a) (put_u32 (be_val b) ++ tail)) as [x Ex]; [rewrite length_drop; lia|].
  cbn [de codec_pair] in Ex |- *. rewrite (rbind_ok _ _ _ x (put_u32 (be_val b) ++ tail) Ex).
  apply rbind_err. apply seq_runs_out; [done|]. unfold tail, put_u32. rewrite !length_app, Lc, !length_be_bytes. lia.
Qed.

Definition exchange_id_call (xid uid gid : Z) (uuid : string) : list byte :=
  call_frame (call_message xid uid gid NFS_PROGRAM NFS_V4 NFSPROC4_COMPOUND
    (build_compound "exchid" 1 [op_exchange_id ("nextnfstest-v41-" +:+ uuid)])).

Lemma exchange_id_decoded xid uid gid uuid a b c rest :
  Forall (in_width 32) [xid; uid; gid] -> String.list_byte_of_string uuid = a ++ b ++ c ->
  length a = 12%nat -> length b = 4%nat -> length c = 20%nat -> 9 <= be_val b ->
  Rpc.decode codec_Compound4args.(de) (exchange_id_call xid uid gid uuid ++ rest)
    = (rest, Ok (Some (MkRpcCallMsg xid (ParseError (ErrCompound 100003 4 1 Io_UnexpectedEof))))).
Proof.
  intros Hw Eu La Lb Lc Hb. rewrite !List.Forall_cons_iff in Hw. destruct Hw as (Hx & Hu & Hg & _).
  set (name := "nextnfstest-v41-" +:+ uuid).
  assert (En : name = String.string_of_list_byte ((String.list_byte_of_string "nextnfstest-v41-" ++ a) ++ b ++ c)).
  { unfold name. rewrite <- (String.string_of_list_byte_of_string uuid), Eu, <- app_assoc. done. }
  assert (Lo : length (op_exchange_id name) = 80%nat).
  { unfold op_exchange_id, XdrEncoder.put_opaque, XdrEncoder.put_opaque_fixed, XdrEncoder.put_u32.
    rewrite En, String.list_byte_of_string_of_list_byte, !length_app, !length_be_bytes, La, Lb, Lc. done. }
  set (args := build_compound "exchid" 1 [op_exchange_id name]).
  assert (Ea : args = XdrEncoder.put_string "exchid" ++ put_u32 1 ++ put_u32 1 ++ op_exchange_id name).
  { unfold args, build_compound. cbn [fold_left]. rewrite !put_fixed_aligned; [by rewrite <- !app_assoc|by rewrite Lo|done]. }
  assert (Er : codec_Compound4args.(de) args = Err Io_UnexpectedEof).
  { rewrite Ea. cbn [de codec_Compound4args codec_iso]. apply rbind_err. cbn [de codec_pair].
    rewrite (rbind_ok _ _ _ ("exchid"%string, 1) (put_u32 1 ++ op_exchange_id name)).
    - apply rbind_err. cbn [de codec_seq]. rewrite (rbind_ok _ _ _ 1 (op_exchange_id name)) by (by apply get_u32_put).
      change (Z.to_nat 1) with 1%nat. cbn [de_elements]. apply rbind_err. rewrite En. apply exchange_id_read; try done.
      by rewrite length_app, La.
    - apply (codec_roundtrip (c := codec_utf8_opaque ⊗ codec_u32) ("exchid"%string, 1)
        (XdrEncoder.put_string "exchid" ++ put_u32 1)); [by split; [vm_compute|]|done]. }
  set (message := call_message xid uid gid NFS_PROGRAM NFS_V4 NFSPROC4_COMPOUND args).
  assert (Lm : (length message <= 1000)%nat).
  { unfold message. rewrite message_fields, Ea. unfold call_header, put_u32.
    rewrite !length_app, !length_be_bytes, Lo.
    assert (length (XdrEncoder.put_opaque (auth_sys uid gid)) = 36%nat) as -> by done.
    assert (length (XdrEncoder.put_string "exchid") = 12%nat) as -> by done. lia. }
  unfold exchange_id_call. fold name args message. rewrite call_frame_fragment by lia.
  pose proof (read_record_fragments [message] rest ltac:(done) ltac:(apply Forall_singleton; unfold MAX; lia)) as R.
  cbn [fragments concat] in R. rewrite app_nil_r in R. unfold Rpc.decode. rewrite R. unfold message.
  by rewrite (message_parsed xid uid gid args Hx Hu Hg), Er.
Qed.

Lemma printable_word b : length b = 4%nat -> x00 ∉ b -> 9 <= be_val b.
Proof.
  destruct b as [|x b]; [done|]. intros [= Hb] [Hx _]%not_elem_of_cons. rewrite be_val_cons, Hb.
  pose proof (be_val_range b). assert (Z_of_byte x <> 0) by (by destruct x). pose proof (Z_of_byte_range x). lia.
Qed.

Section ExchangeId.
Context {O P C L H M : Type} `{PR : Primitives} `{D : Der}.
Variable read_to_string : string -> option string.
#[local] Abbreviation Conn := (Connection (O:=O) (P:=P) (C:=C) (L:=L) (H:=H) (M:=M)).
#[local] Abbreviation receives :=
  (receive_turn (O:=O) (P:=P) (C:=C) (L:=L) (H:=H) (M:=M) read_to_string codec_Compound4args.(de) enc_Compound4res).

(** An EXCHANGE_ID of the test client, whose owner name is "nextnfstest-v41-" and a
    UUID, is not answered as one: its number is CREATE_SESSION's to the server, and four
    characters of the UUID are taken for a count of words that are not there. Whatever
    state the connection and the server are in, the client gets GARBAGE_ARGS, so that no
    NFSv4.1 session can be opened with it. *)
Theorem exchange_id_refused xid uid gid uuid m (c : Conn) (g : option GssServer) :
  Forall (in_width 32) [xid; uid; gid] ->
  length (String.list_byte_of_string uuid) = 36%nat -> x00 ∉ String.list_byte_of_string uuid ->
  inbuf c = exchange_id_call xid uid gid uuid -> at_eof c = false ->
  exists c' message,
    receives m c g = (Some c', g) /\ inbuf c' = [] /\ phase c' = Reading /\
    let answer := drop (length (outbuf c)) (outbuf c') in
    outbuf c' = outbuf c ++ answer /\
    read_record_from (length answer + 1) [] answer = Ok (message, []) /\
    parse_reply xid message = Err "RPC accept error: GARBAGE_ARGS".
Proof.
  intros Hw Lu Hn Hi He. set (u := String.list_byte_of_string uuid) in *.
  assert (Eu : u = take 12 u ++ take 4 (drop 12 u) ++ drop 16 u).
  { change 16%nat with (12 + 4)%nat. by rewrite <- drop_drop, !take_drop. }
  assert (Lb : length (take 4 (drop 12 u)) = 4%nat) by (rewrite length_take, length_drop; lia).
  assert (Hb : 9 <= be_val (take 4 (drop 12 u))).
  { apply printable_word; [done|]. intros Hx. apply Hn. rewrite Eu, !elem_of_app. by right; left. }
  set (message := put_u32 xid ++ put_u32 1 ++ put_u32 0 ++ (put_u32 0 ++ put_u32 0) ++ put_u32 4 ++ []).
  pose proof (exchange_id_decoded xid uid gid uuid _ _ _ [] Hw Eu ltac:(rewrite length_take; lia) Lb
    ltac:(rewrite length_drop; lia) Hb) as Ed.
  rewrite app_nil_r in Ed. unfold receive_turn. rewrite He, Hi, Ed. unfold take_message, send. cbn [call_body].
  unfold Rpc.encode. change (RpcReplyMsg_to_bytes _ _) with (@Ok (list byte) XdrError message). cbn [result_bind].
  eexists _, message. split; [done|]. cbn [inbuf phase outbuf set_inbuf]. split; [done|]. split; [done|].
  cbv zeta. rewrite drop_app_length. split; [done|]. rewrite !List.Forall_cons_iff in Hw. destruct Hw as (Hx & _).
  split; [|by apply (client_reply xid 4)]. pose proof (client_record message [] ltac:(by vm_compute)) as R.
  by rewrite app_nil_r in R.
Qed.
End ExchangeId.
