(* ===== verification/WireServer.v ===== *)
(** * The server's end of the test client's connection

    [serve] gives a connection of [Service] its turns until it waits for bytes, on a
    server without a keytab and without other tasks, and [transmit_to] is what the client of [WireClient] gets back
    for what it sends. Calls that the server refuses without running them: the NFSv3 tests
    make no others. *)

From S2P Require Import Prelude NfsTypes Xdr Attrs NfsCodec NfsReply Rpc MultiIndex Locking FileManager Export ClientManager.
From S2P Require Import Request Perm Compound Handle Execute Server Interleave KrbCrypto KrbAcceptor Gss Service WireClient WireSpec Nfs3Client.
From stdpp Require Import base list gmap strings.
From Stdlib Require Import Strings.Byte ZArith Lia.
#[local] Open Scope Z_scope.

Section ServerEnd.
Context {O P C L H M F : Type}.
Context `{V : !Vfs O P C} `{ML : !MultiIndex LockingState L lock_clash}
        `{MH : !MultiIndex (Filehandle P C) H fh_clash} `{CW : !ClientWorld O}
        `{MC : !MultiIndex ClientEntry M client_clash} `{IO : !FileIo O P F} `{OUT : !Outside O P C}.
Context `{PR : Primitives} `{D : Der}.
Variable parse_ip parse_socket : string -> option IpAddr.
Variable getpwnam getgrnam : string -> option Z.
Variable read_to_string : string -> option string.
Variable m : GssMoment.
#[local] Abbreviation Srv := (Server O P C L H M).
#[local] Abbreviation Conn := (Connection (O:=O) (P:=P) (C:=C) (L:=L) (H:=H) (M:=M)).
#[local] Abbreviation receives := (receive_turn (O:=O) (P:=P) (C:=C) (L:=L) (H:=H) (M:=M) read_to_string codec_Compound4args.(de) enc_Compound4res m).
#[local] Abbreviation calls := (call_alone (F:=F) parse_ip parse_socket getpwnam getgrnam).

Fixpoint serve (fuel : nat) (c : Conn) (s : Srv) : option (Conn * Srv) :=
  match fuel with
  | Datatypes.O => Some (c, s)
  | S fuel =>
    match phase c with
    | Reading => c ← (receives c None).1; match phase c with Reading => Some (c, s) | _ => serve fuel c s end
    | Calling msg info _ _ => '(c, s) ← calls msg info c s; serve fuel c s
    | Answering reply info => c ← (answer_turn enc_Compound4res (Ok []) reply info c None).1; serve fuel c s
    end
  end.

(** A record is served in four turns; its reply is what is on the way back. *)
Definition transmit_to (sent : list byte) (p : option (Conn * Srv)) : list byte * option (Conn * Srv) :=
  match p ≫= fun '(c, s) => serve 10 (set_inbuf c (inbuf c ++ sent) false) s with
  | Some (c', s') => (drop (length (default [] (outbuf <$> (fst <$> p)))) (outbuf c'), Some (c', s'))
  | None => ([], None)
  end.

(** ** Refused calls *)

Definition waiting (c : Conn) : Prop := phase c = Reading /\ inbuf c = [].

(** A client that has read everything, on a connection that waits for it. *)
Definition client_ready (s : Srv) (cl : RpcClient (option (Conn * Srv))) : Prop :=
  (exists c, peer cl = Some (c, s) /\ waiting c) /\ inbox cl = [] /\
  in_width 32 (client_xid cl) /\ in_width 32 (client_uid cl) /\ in_width 32 (client_gid cl).

(** The reply that a parsed call gets without being run. *)
Definition refused_with (xid : Z) (b : CallMsgType) (s : Srv) (body : AcceptBody) : Prop :=
  match b with
  | ParseError _ => body = GarbageArgs
  | Call call =>
    (exists u, cred call = AuthUnixCred u) /\
    forall r, service_call (server_compound (F:=F) parse_ip parse_socket getpwnam getgrnam) (MkRpcCallMsg xid b) r s = Some (plain_reply xid body, r, s)
  end.

Lemma message_decoded message rest (msg : RpcCallMsg) :
  Z.of_nat (length message) <= MAX -> from_bytes codec_Compound4args.(de) message = Ok msg ->
  Rpc.decode codec_Compound4args.(de) (call_frame message ++ rest) = (rest, Ok (Some msg)).
Proof.
  intros Hl Hm. rewrite call_frame_fragment by (unfold MAX in Hl; lia).
  pose proof (read_record_fragments [message] rest ltac:(done) ltac:(by apply Forall_singleton)) as R.
  cbn [fragments concat] in R. rewrite app_nil_r in R. unfold Rpc.decode. by rewrite R, Hm.
Qed.

Lemma send_plain xid body bytes (c : Conn) :
  AcceptBody_ser enc_Compound4res body = Ok bytes ->
  send enc_Compound4res (plain_reply xid body) c =
    Some (MkConnection (conn_addr c) (conn_manager c) (conn_boot c) (conn_cache c) (inbuf c) (at_eof c)
      (outbuf c ++ frame (put_u32 xid ++ put_u32 1 ++ put_u32 0 ++ (put_u32 0 ++ put_u32 0) ++ bytes)) Reading).
Proof.
  intros Eb. unfold send, Rpc.encode, RpcReplyMsg_to_bytes, plain_reply. cbn [reply_body reply_verf reply_data reply_xid].
  rewrite Eb. done.
Qed.

Lemma serve_unfold fuel (c : Conn) (s : Srv) :
  serve (S fuel) c s =
    match phase c with
    | Reading => c ← (receives c None).1; match phase c with Reading => Some (c, s) | _ => serve fuel c s end
    | Calling msg info _ _ => '(c, s) ← calls msg info c s; serve fuel c s
    | Answering reply info => c ← (answer_turn enc_Compound4res (Ok []) reply info c None).1; serve fuel c s
    end.
Proof. done. Qed.

(** Nothing has arrived. *)
Lemma serve_waits fuel (c : Conn) (s : Srv) : waiting c -> at_eof c = false -> exists c', serve (S fuel) c s = Some (c', s) /\ waiting c' /\ outbuf c' = outbuf c.
Proof.
  intros [Hp Hi] He. rewrite serve_unfold, Hp. unfold receive_turn. rewrite He, Hi.
  change (Rpc.decode codec_Compound4args.(de) []) with (@nil byte, @Ok (option RpcCallMsg) Z None).
  cbn [fst mbind option_bind phase set_inbuf]. rewrite Hp. by eexists.
Qed.

Lemma serve_refused xid message b body bytes (c : Conn) (s : Srv) :
  waiting c -> Z.of_nat (length message) <= MAX ->
  from_bytes codec_Compound4args.(de) message = Ok (MkRpcCallMsg xid b) -> refused_with xid b s body ->
  AcceptBody_ser enc_Compound4res body = Ok bytes ->
  exists c', serve 10 (set_inbuf c (call_frame message) false) s = Some (c', s) /\ waiting c' /\
    outbuf c' = outbuf c ++ frame (put_u32 xid ++ put_u32 1 ++ put_u32 0 ++ (put_u32 0 ++ put_u32 0) ++ bytes).
Proof.
  intros [Hp Hi] Hl Hm Hr Eb. pose proof (message_decoded message [] _ Hl Hm) as Ed. rewrite app_nil_r in Ed.
  rewrite serve_unfold. cbn [phase set_inbuf]. rewrite Hp. unfold receive_turn. cbn [at_eof inbuf set_inbuf].
  rewrite Ed. unfold take_message. cbn [call_body]. destruct b as [call|e].
  - destruct Hr as [[u Hu] Hr]. rewrite Hu. cbn [fst mbind option_bind phase set_phase]. rewrite serve_unfold. cbn [phase set_phase].
    unfold call_alone, called. rewrite Hr. cbn [mbind option_bind]. rewrite serve_unfold. cbn [phase set_phase set_conn_cache].
    unfold answer_turn. rewrite (send_plain _ _ _ _ Eb). cbn [fst mbind option_bind]. by apply serve_waits.
  - hnf in Hr. subst body. rewrite (send_plain _ _ _ _ Eb). cbn [fst mbind option_bind phase]. by eexists.
Qed.

(** What the client makes of it: an error with the name of the status. *)
Lemma call_refused s cl program version procedure args b body stat tail :
  client_ready s cl -> Z.of_nat (length args) <= 4096 ->
  from_bytes codec_Compound4args.(de)
    (call_message (client_xid cl) (client_uid cl) (client_gid cl) program version procedure args) = Ok (MkRpcCallMsg (client_xid cl) b) ->
  refused_with (client_xid cl) b s body ->
  AcceptBody_ser enc_Compound4res body = Ok (put_u32 stat ++ tail) -> 0 < stat < 6 -> Z.of_nat (length tail) <= 4096 ->
  exists cl', call transmit_to program version procedure args cl = (Err ("RPC accept error: " +:+ accept_stat_name stat), cl') /\
    client_ready s cl'.
Proof.
  intros ((c & Ep & Hc) & Ei & Hx & Hu & Hg) Hl Hm Hr Eb Hs Ht. unfold call. set (message := call_message _ _ _ _ _ _ _) in *.
  assert (Hlm : Z.of_nat (length message) <= MAX).
  { unfold message. rewrite message_fields. unfold call_header, put_u32. rewrite !length_app, !length_be_bytes.
    assert (length (XdrEncoder.put_opaque (auth_sys (client_uid cl) (client_gid cl))) = 36%nat) as -> by done.
    unfold MAX. lia. }
  destruct (serve_refused _ message b body _ c s Hc Hlm Hm Hr Eb) as (c' & Es & Hc' & Eo).
  unfold transmit_to at 1. rewrite Ep. cbn [mbind option_bind]. destruct Hc as [Hp Hi]. rewrite Hi. cbn [app]. rewrite Es.
  cbn [fmap option_fmap option_map default fst]. rewrite Eo, drop_app_length, Ei. cbn [app].
  set (reply := put_u32 (client_xid cl) ++ _). assert (Hlr : Z.of_nat (length reply) <= 16 * 1024 * 1024).
  { unfold reply, put_u32. rewrite !length_app, !length_be_bytes. lia. }
  pose proof (client_record reply [] Hlr) as Ec. rewrite app_nil_r in Ec. rewrite Ec.
  unfold reply. rewrite (client_reply (client_xid cl) stat) by (done || unfold in_width; lia).
  rewrite (proj2 (Z.eqb_neq stat 0)) by lia. eexists. split; [reflexivity|].
  unfold client_ready. cbn [peer inbox client_xid client_uid client_gid]. split; [by exists c'|]. split; [done|]. split; [by apply wrap_in_width|done].
Qed.

(** A call as the server reads it. *)
Lemma call_parsed xid uid gid program version procedure args :
  Forall (in_width 32) [xid; uid; gid; program; version; procedure] ->
  from_bytes codec_Compound4args.(de) (call_message xid uid gid program version procedure args)
  = Ok (MkRpcCallMsg xid
      (if (procedure =? 0) || negb (program =? 100003)
       then Call (MkCallBody 2 program version procedure (AuthUnixCred (client_auth uid gid)) (AuthNull []) None None)
       else match codec_Compound4args.(de) args with
            | Ok (a, _) => Call (MkCallBody 2 program version procedure (AuthUnixCred (client_auth uid gid)) (AuthNull []) (Some a) None)
            | Err e => ParseError (ErrCompound program version procedure e)
            end)).
Proof.
  intros Hw. rewrite !List.Forall_cons_iff in Hw. destruct Hw as (Hx & Hu & Hg & Hp & Hv & Hn & _). rewrite message_fields.
  rewrite (from_bytes_call _ xid 2 program version procedure (AuthUnixCred (client_auth uid gid)) (AuthNull [])).
  - done.
  - by repeat (apply Forall_cons; split; [done|]).
  - split; [|intros bs]; [|rewrite auth_written; by intros <-%Ok_inj]. by split_and!.
  - done.
  - unfold OpaqueAuth_ser. rewrite auth_written. cbn [result_bind ser codec_pair codec_u32 codec_opaque].
    by rewrite put_opaque_same by done.
  - done.
Qed.

(** The three ways out that the NFSv3 tests take. *)
Lemma other_program s cl program version procedure args :
  client_ready s cl -> Forall (in_width 32) [program; version; procedure] -> program <> 100003 -> Z.of_nat (length args) <= 4096 ->
  exists cl', call transmit_to program version procedure args cl = (Err "RPC accept error: PROG_UNAVAIL", cl') /\ client_ready s cl'.
Proof.
  intros Hc Hw Hp Hl. pose proof Hc as (_ & _ & Hx & Hu & Hg). rewrite !List.Forall_cons_iff in Hw. destruct Hw as (W1 & W2 & W3 & _).
  eapply (call_refused s cl program version procedure args _ ProgUnavail 1 []); try done.
  - rewrite call_parsed by (by repeat (apply Forall_cons; split; [done|])). rewrite (proj2 (Z.eqb_neq program 100003)) by done.
    by rewrite orb_true_r.
  - split; [by eexists|]. intros r. unfold service_call. cbn [call_body prog call_xid].
    by rewrite (proj2 (Z.eqb_neq program 100003)) by done.
Qed.

Lemma null_mismatch s cl :
  client_ready s cl ->
  exists cl', call transmit_to NFS_PROGRAM NFS_V3 0 [] cl = (Err "RPC accept error: PROG_MISMATCH", cl') /\ client_ready s cl'.
Proof.
  intros Hc. pose proof Hc as (_ & _ & Hx & Hu & Hg).
  eapply (call_refused s cl NFS_PROGRAM NFS_V3 0 [] _ (ProgMismatch (MkMismatchInfo 4 4)) 2 (put_u32 4 ++ put_u32 4)); try done.
  - by rewrite call_parsed by (by repeat (apply Forall_cons; split; [done|])).
  - split; [by eexists|]. by intros r.
Qed.

Lemma args_garbled s cl procedure args e :
  client_ready s cl -> in_width 32 procedure -> procedure <> 0 -> codec_Compound4args.(de) args = Err e -> Z.of_nat (length args) <= 4096 ->
  exists cl', call transmit_to NFS_PROGRAM NFS_V3 procedure args cl = (Err "RPC accept error: GARBAGE_ARGS", cl') /\ client_ready s cl'.
Proof.
  intros Hc Hw Hp He Hl. pose proof Hc as (_ & _ & Hx & Hu & Hg).
  eapply (call_refused s cl NFS_PROGRAM NFS_V3 procedure args _ GarbageArgs 4 []); try done.
  - rewrite call_parsed by (by repeat (apply Forall_cons; split; [done|])). rewrite (proj2 (Z.eqb_neq procedure 0)) by done.
    cbn [orb negb Z.eqb]. by rewrite He.
  - done.
Qed.

(** ** The NFSv3 tests *)

Lemma then3_err {A B} (t : test3 A) (k : A -> test3 B) (cl cl' : RpcClient (option (Conn * Srv))) e :
  t cl = Some (Err e, cl') -> then3 t k cl = Some (Err e, cl').
Proof. intros E. unfold then3. by rewrite E. Qed.

Lemma mount_refused s cl :
  client_ready s cl -> exists cl', mount_root transmit_to cl = Some (Err "RPC accept error: PROG_UNAVAIL", cl') /\ client_ready s cl'.
Proof.
  intros Hc. destruct (other_program s cl MOUNT_PROGRAM MOUNT_V3 MOUNTPROC3_MNT (XdrEncoder.put_string "/") Hc) as (cl' & E & Hc');
    [by repeat (apply Forall_cons; split; [done|])|done|by vm_compute|].
  exists cl'. split; [|done]. unfold mount_root. apply then3_err. unfold of_test. by rewrite E.
Qed.

(** What the server tells an NFSv3 test. *)
Definition v3_verdict (id : string) : string :=
  if bool_decide (id = "W3-001") then "RPC accept error: PROG_MISMATCH" else
  if bool_decide (id = "W3-005") then "RPC accept error: GARBAGE_ARGS" else "RPC accept error: PROG_UNAVAIL".

Lemma v3_refused s :
  Forall (fun p => forall cl, client_ready s cl -> exists cl', p.2 cl = Some (Err (v3_verdict p.1), cl') /\ client_ready s cl')
    (v3_executors transmit_to).
Proof.
  assert (Hmount : forall id (k : list byte -> test3 unit), id <> "W3-001" -> id <> "W3-005" -> forall cl, client_ready s cl ->
    exists cl', then3 (mount_root transmit_to) k cl = Some (Err (v3_verdict id), cl') /\ client_ready s cl').
  { intros id k H1 H5 cl Hc. destruct (mount_refused s cl Hc) as (cl' & E & Hc'). exists cl'. split; [|done].
    unfold v3_verdict. rewrite !bool_decide_eq_false_2 by done. by apply then3_err. }
  repeat (apply Forall_cons; split; cbn [fst snd]); [..|by apply Forall_nil]; try (by apply Hmount); intros cl Hc.
  - destruct (null_mismatch s cl Hc) as (cl' & E & Hc'). exists cl'. split; [|done]. apply then3_err. unfold call3, of_test. by rewrite E.
  - destruct (codec_Compound4args.(de) (encode_fh fake_fh)) as [x|e] eqn:Ed; [exfalso; revert Ed; by vm_compute|].
    destruct (args_garbled s cl NFSPROC3_GETATTR (encode_fh fake_fh) e Hc) as (cl' & E & Hc'); [done|done|exact Ed|done|].
    exists cl'. split; [|done]. apply then3_err. unfold call3, of_test. by rewrite E.
  - destruct (other_program s cl MOUNT_PROGRAM MOUNT_V3 MOUNTPROC3_EXPORT [] Hc) as (cl' & E & Hc');
      [by repeat (apply Forall_cons; split; [done|])|done..|].
    exists cl'. split; [|done]. apply then3_err. unfold of_test. by rewrite E.
Qed.

(** C31: An NFSv4 server refuses everything the NFSv3 tests ask of it: whatever state the
    server is in, each of the tests ends at its first call with an RPC error and the
    verdict of its kind, the server has not changed, and connection and client are ready
    for the next one. *)
Theorem nfs3_tests_refused s id cl :
  client_ready s cl -> id ∈ (v3_executors transmit_to).*1 ->
  exists cl', execute_v3 transmit_to id cl = Some (Err (v3_verdict id), cl') /\ client_ready s cl'.
Proof.
  intros Hc Hid. unfold execute_v3. destruct (list_find _ _) as [[i [id' t]]|] eqn:E.
  - apply list_find_Some in E as (Hl & <- & _). apply (proj1 (Forall_forall _ _) (v3_refused s) (id', t)); [|done].
    by eapply list_elem_of_lookup_2.
  - apply list_find_None in E. apply list_elem_of_fmap in Hid as (p & -> & Hp).
    by destruct (proj1 (Forall_forall _ _) E p Hp).
Qed.
End ServerEnd.
