(* ===== verification/WireDemo.v ===== *)
(** * The wire tests against the server

    The NFSv4.0 and NFSv4.1 tests of [nfstest] run on the server of [Demo], as bytes on a
    connection: what they report, and the witnesses of the wire's theorems. *)

From S2P Require Import Prelude NfsTypes Xdr Attrs NfsCodec NfsReply Rpc MultiIndex Locking FileManager Export ClientManager.
From S2P Require Import Request Perm Compound Handle Execute OpsContract Server ServerSpec Demo ServerProps.
From S2P Require Import KrbCrypto KrbCryptoSpec KrbToken KrbKeytab KrbAcceptor KrbHandshake KrbDemo Gss GssSpec GssDemo.
From S2P Require Import OpsStatus Service NfsWire WireClient WireSpec Nfs3Client Harness WireServer.
From stdpp Require Import base list gmap strings.
From Stdlib Require Import Strings.Byte ZArith Lia.
#[local] Open Scope Z_scope.

Definition wire_conn : Type :=
  Connection (O:=Disk) (P:=string) (C:=unit) (L:=list LockingState) (H:=list (Filehandle string unit)) (M:=list ClientEntry).
Definition wire_receive (c : wire_conn) (g : option GssServer) : option wire_conn * option GssServer :=
  receive_turn no_files codec_Compound4args.(de) enc_Compound4res (at_gss 0 0) c g.

(** The server's end of the client's connection. *)
Definition wire_transmit : list byte -> option (wire_conn * disk_server) -> list byte * option (wire_conn * disk_server) :=
  transmit_to (F:=open_handle) no_ip no_ip no_name no_name no_files (at_gss 0 0).

Definition fresh_conn : wire_conn := connect "10.0.0.5:700" (Some (MkManagerHandle 1 "/export")) 1.
Definition run_on (s : disk_server) (t : test (S:=option (wire_conn * disk_server)) unit) : result unit string :=
  (t (MkRpcClient 1 0 0 [] (Some (fresh_conn, s)))).1.

Definition uuid1 : string := "f47ac10b-58cc-4372-a567-0e02b2c3d479".
Definition verdicts {T : Type} (run : T -> result unit string) (l : list T) : list (option string) :=
  map (fun t => match run t with Ok _ => None | Err e => Some e end) l.

Definition ids40 : list string :=
  ["W40-001"; "W40-002"; "W40-005"; "W40-010"; "W40-011"; "W40-014"; "W40-020"; "W40-021"; "W40-023"; "W40-024";
   "W40-025"; "W40-065"; "W40-070"; "W40-080"].
Definition ids41 : list string := ["W41-001"; "W41-002"; "W41-004"; "W41-007"; "W41-010"; "W41-020"].

(** The NFSv4.0 tests pass, on a server with one export and on one with two. *)
Example wire_tests_pass :
  verdicts (fun id => run_on one_export (execute_v40 wire_transmit id uuid1)) ids40 = replicate 14 None /\
  verdicts (fun id => run_on two_exports (execute_v40 wire_transmit id uuid1)) ids40 = replicate 14 None.
Proof. split; vm_compute; reflexivity. Qed.

(** The NFSv4.1 tests fail at their first call, but for one that makes none. *)
Example session_tests_fail :
  verdicts (fun id => run_on one_export (execute_v41 wire_transmit id uuid1)) ids41
  = replicate 5 (Some "RPC accept error: GARBAGE_ARGS") ++
    [Some "SKIP: Exactly-once semantics test requires connection-level replay control"].
Proof. lazy. reflexivity. Qed.

(** ** Runs of the harness ([Harness]) *)

Definition demo_config (versions : list NfsVersion) : RunConfig :=
  MkRunConfig "10.0.0.1" 2049 "/export" versions [Wire] None None "/tmp/run" 0 0.
Definition demo_client : RpcClient (option (wire_conn * disk_server)) := MkRpcClient 1 0 0 [] (Some (fresh_conn, one_export)).
Definition numbers_of (s : RunSummary) : list nat := [Harness.total s; passed s; failed s; skipped s; errors s].
Definition summary_of {S : Type} (r : option (result RunResult string * list ProgressEvent * option (RpcClient S))) : option (list nat) :=
  match r with Some (Ok r, _, _) => Some (numbers_of (summary r)) | _ => None end.

Definition demo_run (versions : list NfsVersion) (conn : option (RpcClient (option (wire_conn * disk_server)))) : option (list nat) :=
  summary_of (run wire_transmit (fun _ => uuid1) (fun i => Z.of_nat i) (demo_config versions) "run" (0, 1) true conn).

(** The tests of the registry on one connection: those of NFSv4.0 pass, those of NFSv3 and
    all but one of NFSv4.1 fail, those of NFSv4.2 are skipped. *)
Example older_run : demo_run [V3; V4_0; V4_2] (Some demo_client) = Some [46; 14; 22; 10; 0]%nat.
Proof. vm_compute. reflexivity. Qed.

Example session_run : demo_run [V4_1] (Some demo_client) = Some [6; 0; 5; 1; 0]%nat.
Proof. lazy. reflexivity. Qed.

Example run_without_server : demo_run [V3; V4_0; V4_1; V4_2] None = Some [52; 0; 0; 0; 52]%nat.
Proof. vm_compute. reflexivity. Qed.

(** A server that answers calls from a list, with the xids of a client that starts at 1. *)
Definition scripted (sent : list byte) (s : Z * list (list byte)) : list byte * (Z * list (list byte)) :=
  match s with
  | (xid, body :: l) => (frame (put_u32 xid ++ put_u32 1 ++ put_u32 0 ++ (put_u32 0 ++ put_u32 0) ++ put_u32 0 ++ body), (xid + 1, l))
  | _ => ([], s)
  end.
Definition read_script (data : list byte) : list (list byte) :=
  let ok := put_u32 0 in
  let fh := XdrEncoder.put_opaque [x01; x02; x03; x04] in
  [ok ++ fh; ok ++ put_u32 1 ++ fh; ok; ok ++ put_u32 0 ++ put_u32 (Z.of_nat (length data)) ++ put_u32 1 ++ XdrEncoder.put_opaque data; ok].
Definition run_scripted (id : string) (script : list (list byte)) : option (option string) :=
  match execute_v3 scripted id (MkRpcClient 1 0 0 [] (1, script)) with
  | Some (Ok _, _) => Some None
  | Some (Err e, _) => Some (Some e)
  | None => None
  end.

(** The READ test passes on what was written, fails on other data of that length, and
    panics on less: the run ends there. *)
Example read_test :
  let written := String.list_byte_of_string "Hello from nextnfstest READ test!" in
  run_scripted "W3-020" (read_script written) = Some None /\
  run_scripted "W3-020" (read_script (replicate 33 x00)) = Some (Some "READ data mismatch") /\
  run_scripted "W3-020" (read_script (take 32 written)) = None.
Proof. vm_compute. repeat split. Qed.

(** ** Witnesses *)

Lemma nfs3_tests_refused_witness :
  client_ready one_export demo_client /\
  exists cl', execute_v3 wire_transmit "W3-047" demo_client = Some (Err (v3_verdict "W3-047"), cl') /\ client_ready one_export cl'.
Proof.
  assert (Hc : client_ready one_export demo_client) by (split; [by exists fresh_conn|done]).
  split; [exact Hc|].
  unfold wire_transmit.
  refine (nfs3_tests_refused no_ip no_ip no_name no_name no_files (at_gss 0 0) one_export "W3-047" demo_client Hc _).
  apply (bool_decide_unpack _). vm_compute. exact I.
Defined.

Definition sample_args : Compound4args :=
  MkCompound4args "lookup" 0
    [Opputrootfh; Oplookup (MkLookup4args "etc"); Oplock (MkLock4args ReadwLt true 0 18446744073709551615 (LockOwner
       (MkExistLockOwner4 (MkStateid4 1 (replicate 12 x07)) 2)))].

Lemma compound_args_roundtrip_witness :
  exists bs, codec_Compound4args.(ser) sample_args = Ok bs /\ (length bs mod 4 = 0)%nat /\
    codec_Compound4args.(de) (bs ++ [x00]) = Ok (sample_args, [x00]).
Proof.
  apply compound_args_roundtrip. split; [by split|]. split; [by vm_compute|]. split; [by vm_compute|].
  repeat (apply Forall_cons; split; [by vm_compute; repeat split|]). by constructor.
Defined.

Lemma exchange_id_refused_witness :
  let c := set_inbuf fresh_conn (exchange_id_call 1 1000 100 uuid1) false in
  exists c' message,
    wire_receive c None = (Some c', None) /\ inbuf c' = [] /\ phase c' = Reading /\
    let answer := drop (length (outbuf c)) (outbuf c') in
    outbuf c' = outbuf c ++ answer /\
    read_record_from (length answer + 1) [] answer = Ok (message, []) /\
    parse_reply 1 message = Err "RPC accept error: GARBAGE_ARGS".
Proof.
  apply (exchange_id_refused no_files 1 1000 100 uuid1 (at_gss 0 0)); try done.
  - by repeat constructor.
  - apply (bool_decide_unpack _). vm_compute. exact I.
Defined.

(** A LOOKUP of a name that is not there: two results, the second with the status. *)
Definition missing : list NfsArgOp := [Opputrootfh; Oplookup (MkLookup4args "nowhere"); Opgetfh].

Lemma results_tell_status_witness :
  exists r' rep s', demo_compound missing (Some (MkManagerHandle 1 "/export")) one_export = Some (r', rep, s') /\
  exists st res, rep = reply st "t" res /\
    forall i x bs, res !! i = Some x -> enc_result x = Ok bs ->
      exists s rest, bs = put_u32 (res_position x) ++ put_u32 (NfsStat4_to_u32 s) ++ rest /\
        (s = Nfs4Ok \/ (s = st /\ S i = length res)).
Proof.
  destruct (demo_compound missing (Some (MkManagerHandle 1 "/export")) one_export) as [[[r' rep] s']|] eqn:E.
  - exists r', rep, s'. split; [done|].
    by refine (results_tell_status (F:=open_handle) _ _ _ _ _ _ _ (demo_call missing) _ _ _ _ _ _ eq_refl _ E); repeat constructor.
  - exfalso. revert E. vm_compute. done.
Defined.

Definition client_ops : list ClientOp :=
  [ClientPutrootfh; ClientLookup "etc"; ClientGetattr [0; 33]; ClientReaddir 0 (replicate 8 x00) 4096 8192 [1; 3]].

Lemma client_call_received_witness :
  let args := build_compound "t" 0 (map op_bytes client_ops) in
  let message := call_message 7 1000 100 NFS_PROGRAM NFS_V4 NFSPROC4_COMPOUND args in
  Rpc.decode codec_Compound4args.(de) (call_frame message ++ [x01]) =
    ([x01], Ok (Some (MkRpcCallMsg 7 (Call (MkCallBody 2 NFS_PROGRAM NFS_V4 NFSPROC4_COMPOUND
      (AuthUnixCred (client_auth 1000 100)) (AuthNull []) (Some (compound_meant "t" 0 client_ops)) None))))) /\
  forall a bits, bits_ok bits -> a ∈ from_u32 (attr_bitmap bits) <-> FileAttr_to_u32 a ∈ bits.
Proof.
  apply (client_call_received 7 1000 100 "t" 0 client_ops [x01]).
  - by repeat constructor.
  - by split.
  - repeat constructor; vm_compute; intuition congruence.
  - by vm_compute.
Defined.

(** The reply to it. *)
Definition missing_reply : Compound4res :=
  Eval vm_compute in match demo_results missing (Some (MkManagerHandle 1 "/export")) one_export with
  | Some (st, res) => MkCompound4res st "t" res
  | None => MkCompound4res Nfs4Ok "" []
  end.
Definition bytes_of {E} (x : result (list byte) E) : list byte := match x with Ok b => b | Err _ => [] end.
Definition missing_bytes : list byte := Eval vm_compute in bytes_of (enc_Compound4res missing_reply).
Definition missing_sent : list byte :=
  Eval vm_compute in bytes_of (Rpc.encode enc_Compound4res
    (MkRpcReplyMsg 7 (MsgAccepted (MkAcceptedReply (AuthNull []) (Success missing_reply)))) []).

Lemma client_reads_reply_witness :
  exists message offset parts,
    read_record_from (length (missing_sent ++ [x01]) + 1) [] (missing_sent ++ [x01]) = Ok (message, [x01]) /\
    parse_reply 7 message = Ok missing_bytes /\
    parse_compound_reply missing_bytes
      = Ok (NfsStat4_to_u32 (compound4res_status missing_reply), Z.of_nat (length (compound4res_resarray missing_reply)), offset) /\
    Forall2 (fun x b => enc_result x = Ok b) (compound4res_resarray missing_reply) parts /\
    forall i x word, compound4res_resarray missing_reply !! i = Some x -> body_word x = Some word -> in_width 32 (res_position x) ->
      let start := (offset + length (concat (take i parts)))%nat in
      parse_op_result missing_bytes start = Ok (res_position x, word, (start + 8)%nat).
Proof. apply client_reads_reply; by vm_compute. Defined.
